(* ===== verification/_CoqProject ===== *)
-Q . S2P
Prelude.v
Mem.v
Layout.v
Kalloc.v
Vm.v
VmTable.v
VmUser.v
VmFork.v
VmFree.v
VmCopy.v
VmExample.v
Spinlock.v
Sleeplock.v
FsFormat.v
Bio.v
BioPool.v
Log.v
LogCrash.v
Fs.v
FsTx.v
FsBlocks.v
FsInode.v
FsMap.v
FsCopy.v
FsFile.v
FsSpec.v
FsPath.v
FsDir.v
FsNamei.v
Kern.v
Pres.v
Sched.v
UserByte.v
Printf.v
PrintfSpec.v
Console.v
File.v
Pipe.v
Proc.v
ProcTree.v
ProcExample.v
ConsoleSpec.v
SchedFair.v
Syscall.v
Exec.v
ExecSpec.v
Sysfile.v
Sysproc.v
FdTable.v
Virtio.v
VirtioRing.v
VirtioReq.v
VirtioSpec.v
Trap.v
TrapSpec.v
Umalloc.v
UmallocSpec.v
User.v
Ulib.v
Uprintf.v
Grep.v
Uprogs.v
UprogSpec.v
Grind.v
GrindSpec.v
UtestBase.v
UtestMem.v
UtestFs.v
UtestProc.v
Usertests.v
UsertestSpec.v
Sh.v
ShLex.v
ShParse.v
ShRun.v
Mkfs.v
MkfsSpec.v
MkfsImage.v
FsBoot.v
