(* ===== verification/Prelude.v ===== *)
(** * Verification of an xv6 kernel, its user programs and mkfs

    The program is xv6 for RISC-V with the additional system calls hello, xv6, trace and
    sysinfo.  src/kernel is the kernel, src/user the programs that run on it, and src/mkfs the
    program that builds the disk image the kernel boots from.  Functions are translated from
    the C source one by one and keep its names; this file holds what all the others share.

    ** How the code is modelled

    Kernel code is a function in the monad [M S] below: it takes a state [S] to a result and a
    new state, or panics, or has to sleep.  Machine integers are [Z], with the wrap-around
    written where the C type has it.  Memory is byte-addressed (Mem.v); page tables, the list
    of free pages and user heaps are words of it.  Tables of the kernel are functions from
    indices, a pointer into one is an index, and a null pointer is [None].

    A critical section under a spin lock is one atomic step.  Spinlock.v justifies this for the
    lock itself, with any number of harts interleaved at each atomic operation.  Code that
    sleeps is cut there: Sleeplock.v, ProcTree.v and Pipe.v interleave the pieces as step
    relations.  Elsewhere a wait for another process is the outcome [Sleeps].

    User programs are interaction trees over the system calls (User.v); the programs' theorems
    run them in an environment that answers the calls.

    ** Files

    Memory.  Mem: memory and string.c.  Layout: memlayout.h, param.h and the page-table macros
    of riscv.h; the addresses the linker chooses are the class [KernelImage].  Kalloc: kalloc.c.
    Vm: vm.c and the page-table functions of proc.c.  VmTable, VmUser, VmFork, VmFree, VmCopy:
    theorems on them, which VmExample applies to a small address space.

    Locks.  Spinlock: spinlock.c.  Sleeplock: sleeplock.c with sleep and wakeup of proc.c.

    Storage.  FsFormat: fs.h and stat.h.  Bio: bio.c; BioPool: the cache as its clients see it.
    Log: log.c; LogCrash: the effect of a crash at any write.  Fs: fs.c.  FsTx, FsBlocks, FsInode,
    FsMap, FsCopy, FsFile, FsSpec, FsPath, FsDir, FsNamei: theorems on it, from transactions up to
    directories and the resolution of paths.  FsCopy's classes [CopySource] and [CopySink] are
    what readi and writei need of the address they copy from or to.  Virtio: virtio_disk.c;
    VirtioRing, VirtioReq and VirtioSpec: its rings, its requests, and the driver as a whole.

    Processes.  Kern: the state of the kernel.  Pres: relations every run of some code keeps.
    Sched, Proc: proc.c.  ProcTree: its interleavings; ProcExample: a machine that boots and
    forks.  SchedFair: the scheduler's loop.  Exec and ExecSpec: exec.c.  Trap: trap.c, plic.c,
    start.c and main.c; TrapSpec: the way in and out of the kernel.

    Files and devices.  File: file.c and pipe.c; Pipe: pipes as queues.  UserByte: one byte
    to or from a process.  Printf and PrintfSpec: uart.c and printf.c.  Console and ConsoleSpec:
    console.c.  Syscall, Sysfile, Sysproc: syscall.c, sysfile.c, sysproc.c; FdTable: the
    descriptors of all processes.

    User programs and mkfs.  Umalloc and UmallocSpec: umalloc.c.  User: user.h.  Ulib: ulib.c.
    Uprintf: user/printf.c.  Grep: grep.c.  Uprogs: the sixteen small programs, a module each;
    UprogSpec: cat, echo and wc.  Grind: grind.c; GrindSpec: its random numbers.  UtestBase,
    UtestMem, UtestFs, UtestProc: the tests of usertests.c; Usertests: their tables and driver;
    UsertestSpec: what the driver reports.  Sh: sh.c; ShLex and ShParse: its parser; ShRun: its
    pipelines.  Mkfs: mkfs.c; MkfsSpec and MkfsImage: the image; FsBoot: the kernel started on it.

    ** What the theorems show

    Storage: a transaction is all or nothing across a crash, in recovery too; writei, readi,
    dirlink, dirlookup and balloc do to files, directories and the bitmap what they should, for
    one process at a time; namex finds what a path names and gives every other reference back;
    bread returns the contents of the block asked for, and the disk driver, in any interleaving of
    processes, device and interrupts, is the store of blocks the cache takes it for.  The image of
    mkfs satisfies the invariants those theorems start from: a kernel started on it mounts it and
    reads under each name the bytes mkfs was given.

    Memory: kalloc and kfree refine a list of pages; mappages, uvmalloc, uvmcopy and uvmfree
    keep page tables trees without sharing and lose no page; the copying functions move exactly
    the bytes the page table allows.  malloc never hands out memory in use.

    Processes: over all interleavings of their critical sections the processes form a tree
    below init, and no wakeup of wait or of a sleep lock is lost; a spin lock has one holder; a
    pass of the scheduler runs every runnable process; pipes are bounded queues; every system
    call that returns keeps the counts of open files; an exec that returns has replaced the
    program or left the process alone.  A trap goes back to user space only with the state of a
    process that has not been killed, and a system call with its result in a0.

    Programs: grep's matcher decides the language of the pattern, grep and wc do not depend on
    how reads cut their input, the shell's parser accepts exactly its grammar, and the processes
    of a pipeline have the descriptors they should.  The random numbers of grind have the full
    period, and usertests reports success exactly when every selected test passed and no page was
    lost.  Its tests are definitions only: no theorem says that the kernel passes them.

    Theorems also record where the code goes wrong: three operations can overflow the log
    (LogCrash), kill(0) succeeds (ProcTree), a failed piperead loses a byte (Pipe), printint of
    the kernel can overrun its buffer (PrintfSpec), a huge malloc shrinks the heap (UmallocSpec),
    the user's %ld prints 32 bits (Uprintf), a long line ends grep (Grep), a root directory
    of whole blocks gets a hole (MkfsImage), and usertests passes when it is given a name that no
    test has (UsertestSpec).

    ** Fuel

    Loops that are not structural take fuel computed from their bounds: a loop over a range has
    its number of pages, blocks or entries and a little more ([copy_fuel], [rw_fuel],
    [dir_fuel]); one over the buffer list has [NBUF + 1]; one over a path has [MAXPATH + 1],
    since a path fetched from a process has fewer characters; the shell's parser has four for
    each character of the line.  A theorem whose conclusion is an equation with [Ok] shows with
    it that the fuel is enough.  The theorems on the counts of open files, on exec and on the
    scheduler are about runs that return, and so is the safety of traps.  Loops of user programs
    need no fuel: they are iterations of interaction trees, which may run for ever.

    ** Not modelled

    Assembly (entry.S, swtch.S, trampoline.S, kernelvec.S, initcode.S), the linker scripts and
    the generated usys.S: the C code is modelled between them.  Most accessors of control
    registers in riscv.h, and the TLB: the registers are fields of a record, and the hardware
    translates by the table in memory.  Harts see each other's writes in program order.  The
    disk device is not part of the program: VirtioReq.v states what the driver relies on, and it
    serves every request without error.  A test that accesses an address on purpose does so by an
    event of its own (UtestBase), whose answer is the environment's.  defs.h and types.h only
    declare; cpuid, mycpu and myproc are arguments of the code that calls them; code between #if 0
    and #endif is left out.  The boot code is modelled, with no theorem of its own here. *)

From Stdlib Require Export ZArith Lia ZifyBool.
From stdpp Require Export base numbers list gmap strings.

Local Open Scope Z_scope.

Declare Scope xv6_scope.
Delimit Scope xv6_scope with xv6.

(** ** Outcomes and the state monad of kernel code *)

(** What running a piece of kernel code can produce.  [Panic] is a call of
    [panic()] (src/kernel/printf.c), which never returns; [Sleeps] is a call of
    [sleep()] by the running process, which has to wait for another one (Sleeplock.v
    models what happens then); [OutOfFuel] is the bound on a loop being too small,
    and a theorem that an operation returns [Ok] excludes it. *)
Inductive outcome (A : Type) : Type :=
  | Ok (a : A)
  | Panic (msg : string)
  | Sleeps
  | OutOfFuel.
Arguments Ok {A} a.
Arguments Panic {A} msg.
Arguments Sleeps {A}.
Arguments OutOfFuel {A}.

(** Code that reads and writes a state [S] and returns an [A]. *)
Definition M (S A : Type) : Type := S → outcome (A * S).

#[global] Instance M_ret {S} : MRet (M S) := λ A a s, Ok (a, s).

#[global] Instance M_bind {S} : MBind (M S) := λ A B f m s,
  match m s with
  | Ok (a, s') => f a s'
  | Panic e => Panic e
  | Sleeps => Sleeps
  | OutOfFuel => OutOfFuel
  end.

Definition get {S} : M S S := λ s, Ok (s, s).
Definition put {S} (s' : S) : M S unit := λ _, Ok (tt, s').
Definition gets {S A} (f : S → A) : M S A := λ s, Ok (f s, s).
Definition modify {S} (f : S → S) : M S unit := λ s, Ok (tt, f s).
Definition panic {S A} (msg : string) : M S A := λ _, Panic msg.
Definition sleeps {S A} : M S A := λ _, Sleeps.
Definition out_of_fuel {S A} : M S A := λ _, OutOfFuel.

(** Run a computation on a component of a larger state. *)
Definition zoom {S T A} (g : S → T) (p : T → S → S) (m : M T A) : M S A := λ s,
  match m (g s) with
  | Ok (a, t) => Ok (a, p t s)
  | Panic e => Panic e
  | Sleeps => Sleeps
  | OutOfFuel => OutOfFuel
  end.

Section monad_lemmas.
  Context {S : Type}.

Lemma bind_ok {A B} (m : M S A) (f : A → M S B) s a s' :
  m s = Ok (a, s') → (m ≫= f) s = f a s'.
Proof. unfold mbind, M_bind. by intros ->. Qed.

Lemma bind_panic {A B} (m : M S A) (f : A → M S B) s e :
  m s = Panic e → (m ≫= f) s = Panic e.
Proof. unfold mbind, M_bind. by intros ->. Qed.

Lemma bind_ok_inv {A B} (m : M S A) (f : A → M S B) s b s'' :
  (m ≫= f) s = Ok (b, s'') → ∃ a s', m s = Ok (a, s') ∧ f a s' = Ok (b, s'').
Proof.
  unfold mbind, M_bind. destruct (m s) as [[a s']| | |]; try discriminate; eauto.
Qed.

Lemma bind_ret {A B} (a : A) (f : A → M S B) s : (mret a ≫= f) s = f a s.
Proof. done. Qed.

Lemma bind_get {B} (f : S → M S B) s : (get ≫= f) s = f s s.
Proof. done. Qed.

Lemma bind_put {B} (t : S) (f : unit → M S B) s : (put t ≫= f) s = f tt t.
Proof. done. Qed.

Lemma bind_gets {A B} (g : S → A) (f : A → M S B) s : (gets g ≫= f) s = f (g s) s.
Proof. done. Qed.

Lemma bind_modify {B} (g : S → S) (f : unit → M S B) s :
  (modify g ≫= f) s = f tt (g s).
Proof. done. Qed.

Lemma bind_assoc {A B C} (m : M S A) (f : A → M S B) (g : B → M S C) s :
  ((m ≫= f) ≫= g) s = (m ≫= λ a, f a ≫= g) s.
Proof. unfold mbind, M_bind. by destruct (m s) as [[??]| | |]. Qed.
End monad_lemmas.

(** The equations of the monad's own operations, as a rewriting database. *)
Create Rewrite HintDb xv6_monad.
#[export] Hint Rewrite @bind_ret @bind_get @bind_put @bind_gets @bind_modify
  @bind_assoc : xv6_monad.

(** [run H] runs the first command of the goal, whose result [H] states. *)
Ltac run H := rewrite (bind_ok _ _ _ _ _ H); cbn beta iota.

(** Invert a successful run in the context into the runs of its parts. *)
Ltac inv_bind H :=
  let a := fresh "a" in let s := fresh "s" in
  let H1 := fresh H "_hd" in
  apply bind_ok_inv in H as (a & s & H1 & H).

(** ** Machine integers

    A [w]-bit unsigned integer is a [Z] in [[0, 2^w)]; the functions below are
    C's conversions to that width.  [i32] is conversion to [int] on the two's
    complement RISC-V target. *)
Definition u8 (z : Z) : Z := z mod 2 ^ 8.
Definition u16 (z : Z) : Z := z mod 2 ^ 16.
Definition u32 (z : Z) : Z := z mod 2 ^ 32.
Definition u64 (z : Z) : Z := z mod 2 ^ 64.
Definition i16 (z : Z) : Z :=
  let r := z mod 2 ^ 16 in if r <? 2 ^ 15 then r else r - 2 ^ 16.
Definition i32 (z : Z) : Z :=
  let r := z mod 2 ^ 32 in if r <? 2 ^ 31 then r else r - 2 ^ 32.
Definition i64 (z : Z) : Z :=
  let r := z mod 2 ^ 64 in if r <? 2 ^ 63 then r else r - 2 ^ 64.

(** Euclidean division turned into linear constraints. *)
Ltac zdiv := Z.to_euclidean_division_equations; lia.

Lemma u8_range z : 0 ≤ u8 z < 256.
Proof. unfold u8. apply Z.mod_pos_bound. lia. Qed.
Lemma u32_range z : 0 ≤ u32 z < 2 ^ 32.
Proof. unfold u32. apply Z.mod_pos_bound. lia. Qed.
Lemma u64_range z : 0 ≤ u64 z < 2 ^ 64.
Proof. unfold u64. apply Z.mod_pos_bound. lia. Qed.
Lemma u8_small z : 0 ≤ z < 256 → u8 z = z.
Proof. apply Z.mod_small. Qed.
Lemma u32_small z : 0 ≤ z < 2 ^ 32 → u32 z = z.
Proof. apply Z.mod_small. Qed.
Lemma u64_small z : 0 ≤ z < 2 ^ 64 → u64 z = z.
Proof. apply Z.mod_small. Qed.
Lemma i32_small z : - 2 ^ 31 ≤ z < 2 ^ 31 → i32 z = z.
Proof.
  intros Hz. unfold i32. destruct (Z.ltb_spec (z mod 2 ^ 32) (2 ^ 31)); zdiv.
Qed.
Lemma i64_small z : - 2 ^ 63 ≤ z < 2 ^ 63 → i64 z = z.
Proof.
  intros Hz. unfold i64. destruct (Z.ltb_spec (z mod 2 ^ 64) (2 ^ 63)); zdiv.
Qed.

(** ** Lists *)

Lemma elem_of_rev {A} (l : list A) x : x ∈ rev l ↔ x ∈ l.
Proof. by rewrite <- (Permutation_rev l). Qed.
