(* ===== verification/Mem.v ===== *)
(** * Mem: byte-addressed physical memory and src/kernel/string.c

    [memory] is the machine's physical memory, byte by byte; [ld64]/[st64] are
    the little-endian 64-bit accesses through which the kernel reads and writes
    pointers and page-table entries stored in pages.  Module [CString] is
    src/kernel/string.c over that memory. *)

From S2P Require Import Prelude.

Local Open Scope Z_scope.

Abbreviation memory := (gmap Z Z).

(** One byte; memory that was never written reads as zero, and [char] is
    unsigned on the RISC-V target. *)
Definition ld8 (m : memory) (a : Z) : Z := u8 (default 0 (m !! a)).
Definition st8 (m : memory) (a v : Z) : memory := <[a := u8 v]> m.

(** Little-endian words of [n] bytes. *)
Fixpoint ldle (n : nat) (m : memory) (a : Z) : Z :=
  match n with
  | O => 0
  | S n' => ld8 m a + 256 * ldle n' m (a + 1)
  end.

Fixpoint stle (n : nat) (m : memory) (a v : Z) : memory :=
  match n with
  | O => m
  | S n' => stle n' (st8 m a v) (a + 1) (v / 256)
  end.

Definition ld64 : memory → Z → Z := ldle 8.
Definition st64 : memory → Z → Z → memory := stle 8.
Definition ld32 : memory → Z → Z := ldle 4.
Definition st32 : memory → Z → Z → memory := stle 4.
Definition ld16 : memory → Z → Z := ldle 2.
Definition st16 : memory → Z → Z → memory := stle 2.

(** The [n] bytes from [a], in address order. *)
Fixpoint ldbytes (n : nat) (m : memory) (a : Z) : list Z :=
  match n with
  | O => []
  | S n' => ld8 m a :: ldbytes n' m (a + 1)
  end.

(** [n] bytes from [o] of [d] copied to [a] of [m]: a copy between two memories. *)
Fixpoint blit (n : nat) (m : memory) (a : Z) (d : memory) (o : Z) : memory :=
  match n with
  | O => m
  | S n' => blit n' (st8 m a (ld8 d o)) (a + 1) d (o + 1)
  end.

(** ** src/kernel/string.c *)
Module CString.

(** [for(i = 0; i < n; i++) cdst[i] = c;] with [k] iterations left. *)
Fixpoint memset_loop (k : nat) (m : memory) (cdst i c : Z) : memory :=
  match k with
  | O => m
  | S k' => memset_loop k' (st8 m (cdst + i) c) cdst (i + 1) c
  end.

Definition memset (m : memory) (dst c n : Z) : memory :=
  memset_loop (Z.to_nat n) m dst 0 c.

Fixpoint memcmp_loop (k : nat) (m : memory) (s1 s2 : Z) : Z :=
  match k with
  | O => 0
  | S k' =>
      if negb (ld8 m s1 =? ld8 m s2) then ld8 m s1 - ld8 m s2
      else memcmp_loop k' m (s1 + 1) (s2 + 1)
  end.

Definition memcmp (m : memory) (v1 v2 n : Z) : Z := memcmp_loop (Z.to_nat n) m v1 v2.

(** [while(n-- > 0) *d++ = *s++;] *)
Fixpoint copy_up (k : nat) (m : memory) (d s : Z) : memory :=
  match k with
  | O => m
  | S k' => copy_up k' (st8 m d (ld8 m s)) (d + 1) (s + 1)
  end.

(** [while(n-- > 0) *--d = *--s;] *)
Fixpoint copy_down (k : nat) (m : memory) (d s : Z) : memory :=
  match k with
  | O => m
  | S k' => copy_down k' (st8 m (d - 1) (ld8 m (s - 1))) (d - 1) (s - 1)
  end.

Definition memmove (m : memory) (dst src n : Z) : memory :=
  if n =? 0 then m
  else if (src <? dst) && (dst <? src + n)
  then copy_down (Z.to_nat n) m (dst + n) (src + n)
  else copy_up (Z.to_nat n) m dst src.

(** [while(n > 0 && *p && *p == *q) n--, p++, q++;] and the return after it. *)
Fixpoint strncmp_loop (n : nat) (m : memory) (p q : Z) : Z :=
  match n with
  | O => 0
  | S n' =>
      if negb (ld8 m p =? 0) && (ld8 m p =? ld8 m q)
      then strncmp_loop n' m (p + 1) (q + 1)
      else ld8 m p - ld8 m q
  end.

Definition strncmp (m : memory) (p q n : Z) : Z := strncmp_loop (Z.to_nat n) m p q.

(** [while(n-- > 0) *s++ = 0;] *)
Fixpoint strncpy_pad (n : nat) (m : memory) (s : Z) : memory :=
  match n with
  | O => m
  | S n' => strncpy_pad n' (st8 m s 0) (s + 1)
  end.

(** [while(n-- > 0 && ( *s++ = *t++) != 0) ;] then the padding loop. *)
Fixpoint strncpy_loop (n : nat) (m : memory) (s t : Z) : memory :=
  match n with
  | O => m
  | S n' =>
      let c := ld8 m t in
      let m' := st8 m s c in
      if c =? 0 then strncpy_pad n' m' (s + 1)
      else strncpy_loop n' m' (s + 1) (t + 1)
  end.

Definition strncpy (m : memory) (s t n : Z) : memory := strncpy_loop (Z.to_nat n) m s t.

(** [while(--n > 0 && ( *s++ = *t++) != 0) ; *s = 0;], entered with [n] > 0. *)
Fixpoint safestrcpy_loop (n : nat) (m : memory) (s t : Z) : memory :=
  match n with
  | O => st8 m s 0
  | S n' =>
      let c := ld8 m t in
      let m' := st8 m s c in
      if c =? 0 then st8 m' (s + 1) 0
      else safestrcpy_loop n' m' (s + 1) (t + 1)
  end.

Definition safestrcpy (m : memory) (s t n : Z) : memory :=
  if n <=? 0 then m else safestrcpy_loop (Z.to_nat (n - 1)) m s t.

(** [for(n = 0; s[n]; n++) ;] looking at no more than [fuel] characters. *)
Fixpoint strlen_loop (fuel : nat) (m : memory) (s n : Z) : option Z :=
  match fuel with
  | O => None
  | S f => if ld8 m (s + n) =? 0 then Some n else strlen_loop f m s (n + 1)
  end.

Definition strlen (fuel : nat) (m : memory) (s : Z) : option Z := strlen_loop fuel m s 0.

(** The C string at [p], cut at [n] characters: the bytes before the first NUL. *)
Fixpoint cstr (n : nat) (m : memory) (p : Z) : list Z :=
  match n with
  | O => []
  | S n' => if ld8 m p =? 0 then [] else ld8 m p :: cstr n' m (p + 1)
  end.

End CString.
Import CString.

(** ** Bytes and words *)

Lemma ld8_range m a : 0 ≤ ld8 m a < 256.
Proof. apply u8_range. Qed.

Lemma ld8_st8_eq m a v : ld8 (st8 m a v) a = u8 v.
Proof.
  unfold ld8, st8. rewrite lookup_insert_eq. simpl. apply u8_small, u8_range.
Qed.

Lemma ld8_st8_ne m a b v : a ≠ b → ld8 (st8 m a v) b = ld8 m b.
Proof. intros. unfold ld8, st8. by rewrite lookup_insert_ne. Qed.

Lemma ld8_st8 m a v b : ld8 (st8 m a v) b = if b =? a then u8 v else ld8 m b.
Proof.
  destruct (Z.eqb_spec b a) as [->|]; [apply ld8_st8_eq | by apply ld8_st8_ne].
Qed.

Lemma ld8_stle n m a v b :
  b < a ∨ a + Z.of_nat n ≤ b → ld8 (stle n m a v) b = ld8 m b.
Proof.
  revert m a v. induction n as [|n IH]; intros m a v Hb; [done|].
  cbn [stle]. rewrite IH by lia. apply ld8_st8_ne. lia.
Qed.

Lemma ldle_ext n m m' a a' :
  (∀ i, 0 ≤ i < Z.of_nat n → ld8 m (a + i) = ld8 m' (a' + i)) →
  ldle n m a = ldle n m' a'.
Proof.
  revert a a'. induction n as [|n IH]; intros a a' Hext; [done|]. cbn [ldle].
  f_equal; [| f_equal].
  - specialize (Hext 0 ltac:(lia)). by rewrite !Z.add_0_r in Hext.
  - apply IH. intros i Hi. specialize (Hext (1 + i) ltac:(lia)).
    by rewrite !Z.add_assoc in Hext.
Qed.

Lemma ldle_range n m a : 0 ≤ ldle n m a < 2 ^ (8 * Z.of_nat n).
Proof.
  revert a. induction n as [|n IH]; intros a; [cbn; lia|]. cbn [ldle].
  replace (8 * Z.of_nat (S n)) with (8 + 8 * Z.of_nat n) by lia.
  rewrite Z.pow_add_r by lia. pose proof (ld8_range m a). specialize (IH (a + 1)). lia.
Qed.

Lemma ldle_stle n m a v : ldle n (stle n m a v) a = v mod 2 ^ (8 * Z.of_nat n).
Proof.
  revert m a v. induction n as [|n IH]; intros m a v.
  - cbn [ldle]. change (2 ^ (8 * Z.of_nat 0)) with 1. by rewrite Z.mod_1_r.
  - cbn [ldle stle]. rewrite IH, ld8_stle, ld8_st8_eq by lia.
    replace (8 * Z.of_nat (S n)) with (8 + 8 * Z.of_nat n) by lia.
    rewrite Z.pow_add_r by lia. rewrite Z.rem_mul_r by lia. reflexivity.
Qed.

Lemma ldle_stle_ne n k m a v b :
  b + Z.of_nat n ≤ a ∨ a + Z.of_nat k ≤ b →
  ldle n (stle k m a v) b = ldle n m b.
Proof. intros Hd. apply ldle_ext. intros i Hi. apply ld8_stle. lia. Qed.

Lemma ld64_st64_eq m a v : 0 ≤ v < 2 ^ 64 → ld64 (st64 m a v) a = v.
Proof.
  intros Hv. unfold ld64, st64. rewrite ldle_stle. by apply Z.mod_small.
Qed.

Lemma ld64_st64_ne m a v b : b + 8 ≤ a ∨ a + 8 ≤ b → ld64 (st64 m a v) b = ld64 m b.
Proof. apply (ldle_stle_ne 8 8). Qed.

Lemma ld8_st64_ne m a v b : b < a ∨ a + 8 ≤ b → ld8 (st64 m a v) b = ld8 m b.
Proof. apply (ld8_stle 8). Qed.

Lemma ld64_ext m m' a :
  (∀ i, a ≤ i < a + 8 → ld8 m i = ld8 m' i) → ld64 m a = ld64 m' a.
Proof. intros Hext. apply ldle_ext. intros i Hi. apply Hext. lia. Qed.

Lemma ld32_st32_eq m a v : ld32 (st32 m a v) a = u32 v.
Proof. apply (ldle_stle 4). Qed.

Lemma ld32_st32_ne m a v b : b + 4 ≤ a ∨ a + 4 ≤ b → ld32 (st32 m a v) b = ld32 m b.
Proof. apply (ldle_stle_ne 4 4). Qed.

Lemma ld32_range m a : 0 ≤ ld32 m a < 2 ^ 32.
Proof. apply (ldle_range 4). Qed.

Lemma ld16_st16_eq m a v : ld16 (st16 m a v) a = u16 v.
Proof. apply (ldle_stle 2). Qed.

Lemma ld16_range m a : 0 ≤ ld16 m a < 2 ^ 16.
Proof. apply (ldle_range 2). Qed.

Lemma ld64_zero m a : (∀ i, a ≤ i < a + 8 → ld8 m i = 0) → ld64 m a = 0.
Proof.
  intros Hz. transitivity (ldle 8 ∅ 0); [|reflexivity].
  apply ldle_ext. intros i Hi. rewrite Hz; [done | lia].
Qed.

Lemma ld32_zero m a : (∀ i, a ≤ i < a + 4 → ld8 m i = 0) → ld32 m a = 0.
Proof.
  intros Hz. transitivity (ldle 4 ∅ 0); [|reflexivity].
  apply ldle_ext. intros i Hi. rewrite Hz; [done | lia].
Qed.

Lemma ld64_range m a : 0 ≤ ld64 m a < 2 ^ 64.
Proof. apply (ldle_range 8). Qed.

Lemma ld8_blit n d b : ∀ m a o,
  ld8 (blit n m a d o) b =
  if (a <=? b) && (b <? a + Z.of_nat n) then ld8 d (o + (b - a)) else ld8 m b.
Proof.
  induction n as [|n IH]; intros m a o; cbn [blit].
  - by destruct (Z.leb_spec a b), (Z.ltb_spec b (a + Z.of_nat 0)); try lia.
  - rewrite IH, ld8_st8, (u8_small (ld8 d o)) by apply ld8_range.
    destruct (Z.leb_spec (a + 1) b), (Z.leb_spec a b), (Z.ltb_spec b (a + 1 + Z.of_nat n)),
      (Z.ltb_spec b (a + Z.of_nat (S n))), (Z.eqb_spec b a); cbn [andb]; try lia; try done; f_equal; lia.
Qed.

Lemma length_ldbytes n m a : length (ldbytes n m a) = n.
Proof. revert a. induction n; intros; simpl; auto. Qed.

Lemma lookup_ldbytes n m a i :
  (i < n)%nat → ldbytes n m a !! i = Some (ld8 m (a + Z.of_nat i)).
Proof.
  revert a i. induction n as [|n IH]; intros a i Hi; [lia|]. destruct i as [|i]; simpl.
  - by rewrite Z.add_0_r.
  - rewrite IH by lia. do 2 f_equal. lia.
Qed.

Lemma ldbytes_ext n m m' a a' :
  (∀ i, 0 ≤ i < Z.of_nat n → ld8 m (a + i) = ld8 m' (a' + i)) →
  ldbytes n m a = ldbytes n m' a'.
Proof.
  intros Hext. apply list_eq_same_length with n; rewrite ?length_ldbytes; [done..|].
  intros i x y Hi. rewrite !lookup_ldbytes by done. intros [= <-] [= <-].
  apply Hext. lia.
Qed.

(** ** string.c *)

Lemma ld8_memset_loop k m cdst i c a :
  ld8 (memset_loop k m cdst i c) a =
  if (cdst + i <=? a) && (a <? cdst + i + Z.of_nat k) then u8 c else ld8 m a.
Proof.
  revert m i. induction k as [|k IH]; intros m i; cbn [memset_loop].
  - destruct (_ && _) eqn:E; [lia | done].
  - rewrite IH, ld8_st8.
    destruct (Z.leb_spec (cdst + (i + 1)) a), (Z.leb_spec (cdst + i) a),
      (Z.ltb_spec a (cdst + (i + 1) + Z.of_nat k)),
      (Z.ltb_spec a (cdst + i + Z.of_nat (S k))), (Z.eqb_spec a (cdst + i));
      simpl; try lia; done.
Qed.

Lemma ld8_memset m dst c n a :
  0 ≤ n →
  ld8 (memset m dst c n) a = if (dst <=? a) && (a <? dst + n) then u8 c else ld8 m a.
Proof.
  intros Hn. unfold memset. rewrite ld8_memset_loop, Z.add_0_r, Z2Nat.id by done. done.
Qed.

Lemma ld8_copy_up k m d s a :
  d ≤ s ∨ s + Z.of_nat k ≤ d →
  ld8 (copy_up k m d s) a =
  if (d <=? a) && (a <? d + Z.of_nat k) then ld8 m (s + (a - d)) else ld8 m a.
Proof.
  revert m d s. induction k as [|k IH]; intros m d s Hov; cbn [copy_up].
  - destruct (_ && _) eqn:E; [lia | done].
  - rewrite IH by lia.
    destruct (Z.leb_spec (d + 1) a), (Z.leb_spec d a),
      (Z.ltb_spec a (d + 1 + Z.of_nat k)), (Z.ltb_spec a (d + Z.of_nat (S k)));
      simpl; try lia; rewrite ld8_st8.
    + destruct (Z.eqb_spec (s + 1 + (a - (d + 1))) d); [lia | f_equal; lia].
    + destruct (Z.eqb_spec a d); [lia | done].
    + assert (a = d) as -> by lia. rewrite Z.eqb_refl, Z.sub_diag, Z.add_0_r.
      apply u8_small, ld8_range.
    + destruct (Z.eqb_spec a d); [lia | done].
Qed.

Lemma ld8_copy_down k m d s a :
  s ≤ d →
  ld8 (copy_down k m d s) a =
  if (d - Z.of_nat k <=? a) && (a <? d) then ld8 m (s + (a - d)) else ld8 m a.
Proof.
  revert m d s. induction k as [|k IH]; intros m d s Hov; cbn [copy_down].
  - destruct (_ && _) eqn:E; [lia | done].
  - rewrite IH by lia.
    destruct (Z.leb_spec (d - 1 - Z.of_nat k) a), (Z.leb_spec (d - Z.of_nat (S k)) a),
      (Z.ltb_spec a (d - 1)), (Z.ltb_spec a d); simpl; try lia; rewrite ld8_st8.
    + destruct (Z.eqb_spec (s - 1 + (a - (d - 1))) (d - 1)); [lia | f_equal; lia].
    + assert (a = d - 1) as -> by lia. rewrite Z.eqb_refl.
      replace (s + (d - 1 - d)) with (s - 1) by lia. apply u8_small, ld8_range.
    + destruct (Z.eqb_spec a (d - 1)); [lia | done].
    + destruct (Z.eqb_spec a (d - 1)); [lia | done].
Qed.

Lemma ld8_memmove m dst src n a :
  0 ≤ n →
  ld8 (memmove m dst src n) a =
  if (dst <=? a) && (a <? dst + n) then ld8 m (src + (a - dst)) else ld8 m a.
Proof.
  intros Hn. unfold memmove. destruct (Z.eqb_spec n 0) as [->|].
  { destruct (_ && _) eqn:E; [lia | done]. }
  destruct (_ && _) eqn:E.
  - rewrite ld8_copy_down by lia. rewrite Z2Nat.id by lia.
    replace (dst + n - n) with dst by lia.
    replace (src + n + (a - (dst + n))) with (src + (a - dst)) by lia. done.
  - rewrite ld8_copy_up by lia. rewrite Z2Nat.id by lia. done.
Qed.

Lemma length_cstr n m p : (length (cstr n m p) ≤ n)%nat.
Proof.
  revert p. induction n as [|n IH]; intros p; simpl; [done|].
  destruct (_ =? _); simpl; [lia|]. specialize (IH (p + 1)). lia.
Qed.

Lemma cstr_ext n m m' p p' :
  (∀ i, 0 ≤ i < Z.of_nat n → ld8 m (p + i) = ld8 m' (p' + i)) →
  cstr n m p = cstr n m' p'.
Proof.
  revert p p'. induction n as [|n IH]; intros p p' Hext; [done|]. simpl.
  pose proof (Hext 0 ltac:(lia)) as H0. rewrite !Z.add_0_r in H0. rewrite H0.
  rewrite (IH (p + 1) (p' + 1)); [done|].
  intros i Hi. rewrite <- !Z.add_assoc. apply Hext. lia.
Qed.

Lemma cstr_nonzero n m p c : c ∈ cstr n m p → c ≠ 0.
Proof.
  revert p. induction n as [|n IH]; intros p; simpl; [by intros ?%not_elem_of_nil|].
  destruct (Z.eqb_spec (ld8 m p) 0); [by intros ?%not_elem_of_nil|].
  intros [->|?]%elem_of_cons; eauto.
Qed.

Lemma ld8_strncpy_pad n m s a :
  ld8 (strncpy_pad n m s) a =
  if (s <=? a) && (a <? s + Z.of_nat n) then 0 else ld8 m a.
Proof.
  revert m s. induction n as [|n IH]; intros m s; cbn [strncpy_pad].
  - destruct (_ && _) eqn:E; [lia | done].
  - rewrite IH, ld8_st8. change (u8 0) with 0.
    destruct (Z.leb_spec (s + 1) a), (Z.leb_spec s a),
      (Z.ltb_spec a (s + 1 + Z.of_nat n)), (Z.ltb_spec a (s + Z.of_nat (S n))),
      (Z.eqb_spec a s); simpl; try lia; done.
Qed.

(** Every byte [strncpy] leaves behind, inside and outside its destination. *)
Lemma ld8_strncpy_loop n m s t a :
  t + Z.of_nat n ≤ s ∨ s + Z.of_nat n ≤ t →
  ld8 (strncpy_loop n m s t) a =
  if (s <=? a) && (a <? s + Z.of_nat n)
  then default 0 (cstr n m t !! Z.to_nat (a - s)) else ld8 m a.
Proof.
  revert m s t. induction n as [|n IH]; intros m s t Hov; cbn [strncpy_loop cstr].
  - destruct (_ && _) eqn:E; [lia | done].
  - pose proof (ld8_range m t) as Hr. destruct (Z.eqb_spec (ld8 m t) 0) as [E0|Hnz].
    + rewrite ld8_strncpy_pad, ld8_st8, E0. change (u8 0) with 0.
      destruct (Z.leb_spec (s + 1) a), (Z.leb_spec s a),
        (Z.ltb_spec a (s + 1 + Z.of_nat n)), (Z.ltb_spec a (s + Z.of_nat (S n))),
        (Z.eqb_spec a s); simpl; try lia; done.
    + rewrite IH by lia.
      assert (cstr n (st8 m s (ld8 m t)) (t + 1) = cstr n m (t + 1)) as ->.
      { apply cstr_ext. intros i Hi. apply ld8_st8_ne. lia. }
      rewrite ld8_st8, (u8_small (ld8 m t)) by done.
      destruct (Z.leb_spec (s + 1) a), (Z.leb_spec s a),
        (Z.ltb_spec a (s + 1 + Z.of_nat n)), (Z.ltb_spec a (s + Z.of_nat (S n))),
        (Z.eqb_spec a s); simpl; try lia; try done.
      * replace (Z.to_nat (a - s)) with (S (Z.to_nat (a - (s + 1)))) by lia. done.
      * subst a. by rewrite Z.sub_diag.
Qed.

(** [safestrcpy] stores the source string, cut at [n] characters, and a NUL. *)
Lemma safestrcpy_loop_cstr n m s t :
  t + Z.of_nat n ≤ s ∨ s + Z.of_nat n < t →
  cstr (S n) (safestrcpy_loop n m s t) s = cstr n m t ∧
  (∀ a, a < s ∨ s + Z.of_nat n < a → ld8 (safestrcpy_loop n m s t) a = ld8 m a).
Proof.
  revert m s t. induction n as [|n IH]; intros m s t Hov.
  - cbn [cstr safestrcpy_loop]. rewrite ld8_st8_eq. split; [done|].
    intros a Ha. apply ld8_st8_ne. lia.
  - pose proof (ld8_range m t) as Hr. cbn [safestrcpy_loop].
    destruct (Z.eqb_spec (ld8 m t) 0) as [E0|Hnz].
    + split.
      * cbn [cstr]. rewrite ld8_st8_ne, ld8_st8_eq, E0 by lia. done.
      * intros a Ha. rewrite !ld8_st8_ne by lia. done.
    + destruct (IH (st8 m s (ld8 m t)) (s + 1) (t + 1)) as [IH1 IH2]; [lia|]. split.
      * remember (safestrcpy_loop n (st8 m s (ld8 m t)) (s + 1) (t + 1)) as m' eqn:Em'.
        change (cstr (S (S n)) m' s)
          with (if ld8 m' s =? 0 then [] else ld8 m' s :: cstr (S n) m' (s + 1)).
        rewrite IH1, IH2, ld8_st8_eq, u8_small by lia. cbn [cstr].
        destruct (Z.eqb_spec (ld8 m t) 0); [done|]. f_equal.
        apply cstr_ext. intros i Hi. apply ld8_st8_ne. lia.
      * intros a Ha. rewrite IH2 by lia. apply ld8_st8_ne. lia.
Qed.

Lemma strlen_loop_cstr fuel m s n k :
  (length (cstr k m (s + n)) < k)%nat →
  (length (cstr k m (s + n)) < fuel)%nat →
  strlen_loop fuel m s n = Some (n + Z.of_nat (length (cstr k m (s + n)))).
Proof.
  revert n k. induction fuel as [|f IH]; intros n k Hk Hf; [lia|].
  destruct k as [|k]; [simpl in Hk; lia|]. cbn [strlen_loop]. cbn [cstr] in *.
  destruct (Z.eqb_spec (ld8 m (s + n)) 0).
  - simpl. f_equal. lia.
  - simpl in Hk, Hf. rewrite <- Z.add_assoc in *. rewrite (IH (n + 1) k) by lia.
    simpl. f_equal. lia.
Qed.

Lemma strncmp_loop_zero n m p q :
  strncmp_loop n m p q = 0 ↔ cstr n m p = cstr n m q.
Proof.
  revert p q. induction n as [|n IH]; intros p q; cbn [strncmp_loop cstr]; [done|].
  destruct (Z.eqb_spec (ld8 m p) 0) as [Ep|Ep], (Z.eqb_spec (ld8 m q) 0) as [Eq|Eq],
    (Z.eqb_spec (ld8 m p) (ld8 m q)) as [E|E]; simpl; try lia;
    try (split; [lia | discriminate]).
  - split; [done | lia].
  - rewrite IH, E. split; [by intros -> | by intros [=]].
  - split; [lia | intros [=]; lia].
Qed.

(** A field that holds a string and NUL padding reads back as that string. *)
Lemma cstr_padded n m m' p q :
  ldbytes n m' p = cstr n m q ++ replicate (n - length (cstr n m q)) 0 →
  cstr n m' p = cstr n m q.
Proof.
  revert p q. induction n as [|n IH]; intros p q; cbn [ldbytes cstr]; [done|].
  destruct (Z.eqb_spec (ld8 m q) 0) as [E0|E0]; simpl.
  - by intros [= -> _].
  - intros [= -> Hk]. destruct (Z.eqb_spec (ld8 m q) 0); [done|]. f_equal. by apply IH.
Qed.

(** The field [strncpy] fills. *)
Lemma ldbytes_strncpy n m s t :
  t + Z.of_nat n ≤ s ∨ s + Z.of_nat n ≤ t →
  ldbytes n (strncpy m s t (Z.of_nat n)) s = cstr n m t ++ replicate (n - length (cstr n m t)) 0.
Proof.
  intros Hov. pose proof (length_cstr n m t). apply list_eq_same_length with n.
  - rewrite length_app, length_replicate. lia.
  - by rewrite length_ldbytes.
  - intros i x y Hi. rewrite lookup_ldbytes by done. intros [= <-] Hy. unfold strncpy. rewrite Nat2Z.id, ld8_strncpy_loop by done.
    destruct (_ && _) eqn:E; [|lia]. replace (Z.to_nat (s + Z.of_nat i - s)) with i by lia.
    apply lookup_app_Some in Hy as [->|[Hge Hy]]; [done|]. apply lookup_replicate in Hy as [-> _]. by rewrite lookup_ge_None_2.
Qed.

Lemma cstr_strncpy n m s t :
  t + Z.of_nat n ≤ s ∨ s + Z.of_nat n ≤ t → cstr n (strncpy m s t (Z.of_nat n)) s = cstr n m t.
Proof. intros Hov. by apply cstr_padded, ldbytes_strncpy. Qed.

(** ** Properties *)

(** [memmove] copies [n] bytes correctly even when source and destination
    overlap: the destination then holds exactly the bytes the source held before
    the call, and no byte outside the destination changes. *)
Theorem memmove_copies (m : memory) (dst src n : Z) :
  0 ≤ n →
  ldbytes (Z.to_nat n) (memmove m dst src n) dst = ldbytes (Z.to_nat n) m src ∧
  (∀ a, a < dst ∨ dst + n ≤ a → ld8 (memmove m dst src n) a = ld8 m a).
Proof.
  intros Hn. split.
  - apply ldbytes_ext. intros i Hi. rewrite ld8_memmove by done.
    destruct (_ && _) eqn:E; [f_equal; lia | lia].
  - intros a Ha. rewrite ld8_memmove by done. destruct (_ && _) eqn:E; [lia | done].
Qed.

Lemma memmove_copies_witness :
  let m := st8 (st8 (st8 ∅ 10 7) 11 8) 12 9 in
  ldbytes 3 (memmove m 11 10 3) 11 = [7; 8; 9].
Proof.
  intros m. pose proof (proj1 (memmove_copies m 11 10 3 ltac:(lia))) as H.
  exact H.
Defined.

(** [strncpy] followed by [strncmp] at the same length always reports
    equality: a name stored in a fixed-size field with [strncpy] is found again by
    [strncmp].  The field holds the source string cut at [n] characters, padded
    with NULs to the full width, and nothing else is written. *)
Theorem strncpy_strncmp (m : memory) (s t : Z) (n : nat) :
  t + Z.of_nat n ≤ s ∨ s + Z.of_nat n ≤ t →
  let m' := strncpy m s t (Z.of_nat n) in
  strncmp m' s t (Z.of_nat n) = 0 ∧
  ldbytes n m' s = cstr n m t ++ replicate (n - length (cstr n m t)) 0 ∧
  (∀ a, a < s ∨ s + Z.of_nat n ≤ a → ld8 m' a = ld8 m a).
Proof.
  intros Hov m'. assert (Hm' : ∀ a, ld8 m' a =
    if (s <=? a) && (a <? s + Z.of_nat n)
    then default 0 (cstr n m t !! Z.to_nat (a - s)) else ld8 m a).
  { intros a. unfold m', strncpy. rewrite Nat2Z.id. by apply ld8_strncpy_loop. }
  assert (Hb : ldbytes n m' s = cstr n m t ++ replicate (n - length (cstr n m t)) 0) by (by apply ldbytes_strncpy).
  split_and!; [| done |].
  - unfold strncmp. rewrite Nat2Z.id. apply strncmp_loop_zero.
    transitivity (cstr n m t).
    + by apply cstr_padded.
    + apply cstr_ext. intros i Hi. rewrite Hm'. destruct (_ && _) eqn:E; [lia | done].
  - intros a Ha. rewrite Hm'. destruct (_ && _) eqn:E; [lia | done].
Qed.

Lemma strncpy_strncmp_witness :
  let m := st8 (st8 ∅ 100 108) 101 115 in
  strncmp (strncpy m 10 100 14) 10 100 14 = 0.
Proof.
  intros m. exact (proj1 (strncpy_strncmp m 10 100 14 ltac:(lia))).
Defined.

(** [strncmp] returns 0 exactly when the two C strings, each cut at [n]
    characters, are the same. *)
Theorem strncmp_zero_iff (m : memory) (p q n : Z) :
  strncmp m p q n = 0 ↔ cstr (Z.to_nat n) m p = cstr (Z.to_nat n) m q.
Proof. apply strncmp_loop_zero. Qed.

(** [safestrcpy] always leaves a NUL-terminated string: [strlen] of the
    destination succeeds, the string is the source cut at [n - 1] characters, and
    no byte outside the [n]-byte destination is written. *)
Theorem safestrcpy_terminates (m : memory) (s t : Z) (n : nat) :
  (0 < n)%nat → t + Z.of_nat n ≤ s ∨ s + Z.of_nat n ≤ t →
  let m' := safestrcpy m s t (Z.of_nat n) in
  cstr n m' s = cstr (n - 1) m t ∧
  strlen n m' s = Some (Z.of_nat (length (cstr (n - 1) m t))) ∧
  (∀ a, a < s ∨ s + Z.of_nat n ≤ a → ld8 m' a = ld8 m a).
Proof.
  intros Hn Hov m'. destruct n as [|k]; [lia|]. rewrite Nat.sub_1_r, Nat.pred_succ.
  unfold m', safestrcpy. destruct (Z.leb_spec (Z.of_nat (S k)) 0); [lia|].
  replace (Z.to_nat (Z.of_nat (S k) - 1)) with k by lia.
  destruct (safestrcpy_loop_cstr k m s t) as [Hc Hf]; [lia|].
  split_and!; [done | | intros a Ha; apply Hf; lia].
  pose proof (length_cstr k m t). unfold strlen.
  rewrite (strlen_loop_cstr _ _ _ _ (S k)); rewrite Z.add_0_r, Hc; [done | lia..].
Qed.

Lemma safestrcpy_terminates_witness :
  let m := st8 (st8 (st8 ∅ 100 97) 101 98) 102 99 in
  strlen 3 (safestrcpy m 10 100 3) 10 = Some 2.
Proof.
  intros m.
  exact (proj1 (proj2 (safestrcpy_terminates m 10 100 3 ltac:(lia) ltac:(lia)))).
Defined.
