(* ===== verification/Layout.v ===== *)
(** * Layout: the memory map and the Sv39 page-table encoding

    The constants of src/kernel/memlayout.h, src/kernel/param.h and
    src/kernel/riscv.h, the macros that round addresses to pages and that pack
    and unpack page-table entries, and the arithmetic facts about them.  The
    addresses that only the linker knows (src/kernel/kernel.ld) are the fields of
    the class [KernelImage]. *)

From S2P Require Import Prelude.

Local Open Scope Z_scope.

(** ** riscv.h *)
Definition PGSIZE : Z := 4096.
Definition PGSHIFT : Z := 12.

Definition PGROUNDUP (sz : Z) : Z := Z.land (u64 (sz + PGSIZE - 1)) (Z.lnot (PGSIZE - 1)).
Definition PGROUNDDOWN (a : Z) : Z := Z.land a (Z.lnot (PGSIZE - 1)).

Definition PTE_V : Z := Z.shiftl 1 0.
Definition PTE_R : Z := Z.shiftl 1 1.
Definition PTE_W : Z := Z.shiftl 1 2.
Definition PTE_X : Z := Z.shiftl 1 3.
Definition PTE_U : Z := Z.shiftl 1 4.

Definition PA2PTE (pa : Z) : Z := Z.shiftl (Z.shiftr pa 12) 10.
Definition PTE2PA (pte : Z) : Z := u64 (Z.shiftl (Z.shiftr pte 10) 12).
Definition PTE_FLAGS (pte : Z) : Z := Z.land pte 0x3FF.

Definition PXMASK : Z := 0x1FF.
Definition PXSHIFT (level : Z) : Z := PGSHIFT + 9 * level.
Definition PX (level va : Z) : Z := Z.land (Z.shiftr va (PXSHIFT level)) PXMASK.

Definition MAXVA : Z := Z.shiftl 1 (9 + 9 + 9 + 12 - 1).

Definition SATP_SV39 : Z := Z.shiftl 8 60.
Definition MAKE_SATP (pagetable : Z) : Z := Z.lor SATP_SV39 (Z.shiftr pagetable 12).

(** [if(x & mask)] *)
Definition has (x mask : Z) : bool := negb (Z.land x mask =? 0).

(** ** param.h *)
Definition NPROC : Z := 64.
Definition NCPU : Z := 8.
Definition NOFILE : Z := 16.
Definition NFILE : Z := 100.
Definition NINODE : Z := 50.
Definition NDEV : Z := 10.
Definition ROOTDEV : Z := 1.
Definition MAXARG : Z := 32.
Definition MAXOPBLOCKS : Z := 10.
Definition LOGSIZE : Z := MAXOPBLOCKS * 3.
Definition NBUF : Z := MAXOPBLOCKS * 3.
Definition FSSIZE : Z := 2000.
Definition MAXPATH : Z := 128.
Definition USERSTACK : Z := 2.

(** ** memlayout.h *)
Definition UART0 : Z := 0x10000000.
Definition VIRTIO0 : Z := 0x10001000.
Definition PLIC : Z := 0x0c000000.
Definition KERNBASE : Z := 0x80000000.
Definition PHYSTOP : Z := KERNBASE + 128 * 1024 * 1024.
Definition TRAMPOLINE : Z := MAXVA - PGSIZE.
Definition KSTACK (p : Z) : Z := TRAMPOLINE - (p + 1) * 2 * PGSIZE.
Definition TRAPFRAME : Z := TRAMPOLINE - PGSIZE.

(** The symbols of the linked kernel image. *)
Class KernelImage := {
  kend : Z;        (* end[]: first address after the kernel *)
  etext : Z;       (* etext[]: end of kernel code *)
  trampoline : Z;  (* trampoline[]: src/kernel/trampoline.S *)
}.

(** What kernel.ld guarantees of them. *)
Class KernelImageOk (K : KernelImage) : Prop := {
  kend_lo : KERNBASE < kend;
  kend_hi : kend ≤ PHYSTOP;
  etext_lo : KERNBASE < etext;
  etext_hi : etext ≤ kend;
  etext_aligned : etext mod PGSIZE = 0;
  trampoline_lo : KERNBASE ≤ trampoline;
  trampoline_hi : trampoline + PGSIZE ≤ etext;
  trampoline_aligned : trampoline mod PGSIZE = 0;
}.

(** The image in src/kernel/kernel.sym. *)
Definition xv6_image : KernelImage :=
  {| kend := 0x80023a50; etext := 0x80007000; trampoline := 0x80006000 |}.

#[export] Instance xv6_image_ok : KernelImageOk xv6_image.
Proof. split; vm_compute; intuition congruence. Qed.

(** A page [kfree] accepts: aligned, and in the allocator's range. *)
Definition page_ok `{KernelImage} (p : Z) : Prop :=
  p mod PGSIZE = 0 ∧ kend ≤ p < PHYSTOP.

#[export] Instance page_ok_dec `{KernelImage} p : Decision (page_ok p).
Proof. unfold page_ok. apply _. Defined.

(** The address [a] lies in the page [p]. *)
Definition in_page (p a : Z) : Prop := p ≤ a < p + PGSIZE.

#[export] Instance in_page_dec p a : Decision (in_page p a).
Proof. unfold in_page. apply _. Defined.

(** ** Arithmetic of the macros *)

Lemma lor_shiftl_add a b k : 0 ≤ k → 0 ≤ b < 2 ^ k → Z.lor (Z.shiftl a k) b = a * 2 ^ k + b.
Proof.
  intros Hk Hb. rewrite <- Z.shiftl_mul_pow2 by done.
  assert (Hl : Z.land (Z.shiftl a k) b = 0).
  { apply Z.bits_inj'. intros i Hi. rewrite Z.land_spec, Z.bits_0.
    destruct (Z.ltb_spec i k).
    - by rewrite Z.shiftl_spec_low.
    - replace (Z.testbit b i) with false; [apply andb_false_r|]. symmetry.
      rewrite <- (Z.mod_small b (2 ^ k)) by done. by apply Z.mod_pow2_bits_high. }
  rewrite Z.add_nocarry_lxor by done. by rewrite Z.lxor_lor.
Qed.

Lemma land_lnot_ones a k : 0 ≤ k → Z.land a (Z.lnot (2 ^ k - 1)) = a / 2 ^ k * 2 ^ k.
Proof.
  intros Hk. replace (2 ^ k - 1) with (Z.ones k) by (rewrite Z.ones_equiv; lia).
  rewrite <- Z.ldiff_land, Z.ldiff_ones_r by done.
  by rewrite Z.shiftl_mul_pow2, Z.shiftr_div_pow2.
Qed.

Lemma PGROUNDDOWN_eq a : PGROUNDDOWN a = a / 4096 * 4096.
Proof. exact (land_lnot_ones a 12 ltac:(lia)). Qed.

Lemma PGROUNDUP_eq sz : PGROUNDUP sz = u64 (sz + 4095) / 4096 * 4096.
Proof.
  unfold PGROUNDUP, PGSIZE. replace (sz + 4096 - 1) with (sz + 4095) by lia.
  exact (land_lnot_ones _ 12 ltac:(lia)).
Qed.

Lemma PGROUNDUP_small sz :
  0 ≤ sz ≤ 2 ^ 64 - 4096 → PGROUNDUP sz = (sz + 4095) / 4096 * 4096.
Proof. intros. rewrite PGROUNDUP_eq, u64_small by lia. done. Qed.

Lemma PX_eq level va : 0 ≤ level → PX level va = va / 2 ^ (12 + 9 * level) mod 512.
Proof.
  intros Hl. unfold PX, PXMASK, PXSHIFT, PGSHIFT.
  change 0x1FF with (Z.ones 9). rewrite Z.land_ones, Z.shiftr_div_pow2 by lia. done.
Qed.

Lemma PX_range level va : 0 ≤ level → 0 ≤ PX level va < 512.
Proof. intros. rewrite PX_eq by done. apply Z.mod_pos_bound. lia. Qed.

(** Three indices determine a page of the 39-bit address space, of which the kernel
    uses the lower half ([MAXVA]). *)
Lemma PX_inj va va' :
  0 ≤ va < 2 ^ 39 → 0 ≤ va' < 2 ^ 39 →
  PX 2 va = PX 2 va' → PX 1 va = PX 1 va' → PX 0 va = PX 0 va' →
  va / PGSIZE = va' / PGSIZE.
Proof.
  unfold PGSIZE. intros Hv Hv'. rewrite !PX_eq by lia. simpl. zdiv.
Qed.

Lemma MAXVA_eq : MAXVA = 2 ^ 38.
Proof. done. Qed.

Lemma PX_page level va va' :
  0 ≤ level → va / PGSIZE = va' / PGSIZE → PX level va = PX level va'.
Proof.
  intros Hl E. rewrite !PX_eq by done. unfold PGSIZE in E.
  rewrite Z.pow_add_r by lia. change (2 ^ 12) with 4096.
  rewrite <- !Z.div_div by lia. by rewrite E.
Qed.

(** ** Page-table entries *)

(** The entry [mappages] and [walk] store: [PA2PTE(pa) | perm | PTE_V]. *)
Definition mkpte (pa perm : Z) : Z := Z.lor (Z.lor (PA2PTE pa) perm) PTE_V.

(** Addresses and flags an entry can hold without losing bits. *)
Definition pa_ok (pa : Z) : Prop := pa mod PGSIZE = 0 ∧ 0 ≤ pa < 2 ^ 56.
Definition perm_ok (perm : Z) : Prop := 0 ≤ perm < 1024.

Lemma lor_lt a b k : 0 ≤ k → 0 ≤ a < 2 ^ k → 0 ≤ b < 2 ^ k → 0 ≤ Z.lor a b < 2 ^ k.
Proof.
  intros Hk Ha Hb. assert (0 ≤ Z.lor a b) by (apply Z.lor_nonneg; lia).
  split; [done|]. rewrite <- (Z.mod_small a (2 ^ k)), <- (Z.mod_small b (2 ^ k)) by done.
  rewrite <- !Z.land_ones, <- Z.land_lor_distr_l, Z.land_ones by done.
  apply Z.mod_pos_bound. lia.
Qed.

Lemma mkpte_eq pa perm :
  pa_ok pa → perm_ok perm →
  mkpte pa perm = pa / 4096 * 1024 + Z.lor perm 1 ∧ 0 ≤ Z.lor perm 1 < 1024.
Proof.
  intros [Ha Hr] Hp. unfold mkpte, PA2PTE, PTE_V. change (Z.shiftl 1 0) with 1.
  assert (0 ≤ Z.lor perm 1 < 1024) by (apply (lor_lt perm 1 10); unfold perm_ok in *; lia).
  split; [|done]. rewrite <- Z.lor_assoc, lor_shiftl_add by lia.
  by rewrite Z.shiftr_div_pow2.
Qed.

Lemma PTE2PA_mkpte pa perm : pa_ok pa → perm_ok perm → PTE2PA (mkpte pa perm) = pa.
Proof.
  intros Ha Hp. destruct (mkpte_eq pa perm Ha Hp) as [-> ?]. destruct Ha as [Ha Hr].
  unfold PTE2PA. rewrite Z.shiftl_mul_pow2, Z.shiftr_div_pow2 by lia.
  change (2 ^ 10) with 1024. change (2 ^ 12) with 4096. unfold PGSIZE in *.
  rewrite Z.div_add_l, (Z.div_small (Z.lor perm 1)), Z.add_0_r by lia.
  rewrite u64_small; zdiv.
Qed.

Lemma PTE_FLAGS_mkpte pa perm :
  pa_ok pa → perm_ok perm → PTE_FLAGS (mkpte pa perm) = Z.lor perm PTE_V.
Proof.
  intros Ha Hp. destruct (mkpte_eq pa perm Ha Hp) as [-> ?].
  unfold PTE_FLAGS. change 0x3FF with (Z.ones 10). rewrite Z.land_ones by lia.
  rewrite Z.add_comm, Z.mod_add by lia. by apply Z.mod_small.
Qed.

Lemma mkpte_range pa perm : pa_ok pa → perm_ok perm → 0 ≤ mkpte pa perm < 2 ^ 64.
Proof.
  intros Ha Hp. destruct (mkpte_eq pa perm Ha Hp) as [-> ?]. destruct Ha as [Ha Hr].
  zdiv.
Qed.

Lemma has_bit x k : 0 ≤ k → has x (Z.shiftl 1 k) = Z.testbit x k.
Proof.
  intros Hk. unfold has. destruct (Z.testbit x k) eqn:E.
  - apply negb_true_iff, Z.eqb_neq. intros H0.
    assert (Z.testbit (Z.land x (Z.shiftl 1 k)) k = true) as H1.
    { rewrite Z.land_spec, E, Z.shiftl_spec, Z.sub_diag by lia. done. }
    by rewrite H0, Z.bits_0 in H1.
  - apply negb_false_iff, Z.eqb_eq. apply Z.bits_inj'. intros i Hi.
    rewrite Z.land_spec, Z.bits_0, Z.shiftl_spec by done.
    destruct (decide (i = k)) as [->|Hne]; [by rewrite E|].
    replace (Z.testbit 1 (i - k)) with false; [apply andb_false_r|].
    destruct (Z.ltb_spec i k); [by rewrite Z.testbit_neg_r by lia|].
    symmetry. change 1 with (2 ^ 0). by rewrite Z.pow2_bits_false by lia.
Qed.

Lemma has_V_mkpte pa perm : has (mkpte pa perm) PTE_V = true.
Proof.
  unfold PTE_V. rewrite has_bit by lia. unfold mkpte, PTE_V. rewrite !Z.lor_spec.
  apply orb_true_r.
Qed.

(** The flag bits of an entry are those of its low ten bits. *)
Lemma has_FLAGS pte k : 0 ≤ k < 10 → has (PTE_FLAGS pte) (Z.shiftl 1 k) = has pte (Z.shiftl 1 k).
Proof.
  intros Hk. rewrite !has_bit by lia. unfold PTE_FLAGS. change 0x3FF with (Z.ones 10).
  rewrite Z.land_spec, Z.ones_spec_low by lia. apply andb_true_r.
Qed.

Lemma PTE2PA_aligned pte : PTE2PA pte mod PGSIZE = 0.
Proof.
  unfold PTE2PA, u64, PGSIZE. rewrite Z.shiftl_mul_pow2 by lia. zdiv.
Qed.

Lemma page_ok_pa_ok `{KernelImageOk} p : page_ok p → pa_ok p.
Proof.
  intros [Ha Hr]. split; [done|]. pose proof kend_lo. unfold PHYSTOP, KERNBASE in *. lia.
Qed.

Lemma page_ok_nonzero `{KernelImageOk} p : page_ok p → p ≠ 0.
Proof. intros [_ Hr]. pose proof kend_lo. unfold KERNBASE in *. lia. Qed.

(** Two aligned pages are the same or share no byte. *)
Lemma in_page_unique p q a :
  p mod PGSIZE = 0 → q mod PGSIZE = 0 → in_page p a → in_page q a → p = q.
Proof. unfold in_page, PGSIZE. intros. zdiv. Qed.
