(* ===== verification/Kalloc.v ===== *)
(** * Kalloc: the physical page allocator (src/kernel/kalloc.c)

    The free list is threaded through the free pages themselves: the first eight
    bytes of a free page are the address of the next one.  The state is the
    machine's memory together with [kmem.freelist]; [kfree] and [kalloc] read and
    write the links in memory exactly as the code does.  The critical sections
    under [kmem.lock] are atomic steps here; Spinlock.v proves the mutual
    exclusion that makes them so. *)

From S2P Require Import Prelude Mem Layout.
Import CString.

Local Open Scope Z_scope.

(** Physical memory and [struct { ...; struct run *freelist; } kmem]. *)
Record kmem := mkKmem { k_mem : memory; k_freelist : Z }.

Abbreviation KM := (M kmem).

(** Stores and loads of kernel code. *)
Definition mem_modify (f : memory → memory) : KM unit :=
  modify (λ s, mkKmem (f (k_mem s)) (k_freelist s)).
Definition set_freelist (p : Z) : KM unit := modify (λ s, mkKmem (k_mem s) p).
Definition read64 (a : Z) : KM Z := gets (λ s, ld64 (k_mem s) a).
Definition write64 (a v : Z) : KM unit := mem_modify (λ m, st64 m a v).

Section Kalloc.
  Context {K : KernelImage}.

Definition kfree (pa : Z) : KM unit :=
  if negb (pa mod PGSIZE =? 0) || (pa <? kend) || (PHYSTOP <=? pa)
  then panic "kfree"
  else
    mem_modify (λ m, memset m pa 1 PGSIZE);;
    (* acquire(&kmem.lock) *)
    fl ← gets k_freelist;
    write64 pa fl;;            (* r->next = kmem.freelist *)
    set_freelist pa.           (* kmem.freelist = r; release(&kmem.lock) *)

Definition kalloc : KM Z :=
  (* acquire(&kmem.lock) *)
  r ← gets k_freelist;
  (if negb (r =? 0) then next ← read64 r; set_freelist next else mret tt);;
  (* release(&kmem.lock) *)
  (if negb (r =? 0) then mem_modify (λ m, memset m r 5 PGSIZE) else mret tt);;
  mret r.

(** [for(; p + PGSIZE <= pa_end; p += PGSIZE) kfree(p);] *)
Fixpoint freerange_loop (fuel : nat) (p pa_end : Z) : KM unit :=
  match fuel with
  | O => out_of_fuel
  | S f =>
      if p + PGSIZE <=? pa_end
      then kfree p;; freerange_loop f (p + PGSIZE) pa_end
      else mret tt
  end.

Definition freerange (pa_start pa_end : Z) : KM unit :=
  let p := PGROUNDUP pa_start in
  freerange_loop (S (Z.to_nat ((pa_end - p) / PGSIZE))) p pa_end.

Definition kinit : KM unit := freerange kend PHYSTOP.

(** [while(r) { free_mem += PGSIZE; r = r->next; }] *)
Fixpoint kfree_memsize_loop (fuel : nat) (free_mem r : Z) : KM Z :=
  match fuel with
  | O => out_of_fuel
  | S f =>
      if negb (r =? 0)
      then next ← read64 r; kfree_memsize_loop f (u64 (free_mem + PGSIZE)) next
      else mret free_mem
  end.

(** One iteration per page of RAM, and one to leave the loop, are always enough. *)
Definition memsize_fuel : nat := S (Z.to_nat (PHYSTOP / PGSIZE)).

Definition kfree_memsize : KM Z :=
  r ← gets k_freelist; kfree_memsize_loop memsize_fuel 0 r.

(** ** The free list as a list of pages *)

(** The chain of pages in memory that starts at [head] is [l]. *)
Fixpoint chain (m : memory) (head : Z) (l : list Z) : Prop :=
  match l with
  | [] => head = 0
  | p :: l' => head = p ∧ chain m (ld64 m p) l'
  end.

(** The allocator's invariant: a chain of distinct, valid pages. *)
Record kinv (s : kmem) (l : list Z) : Prop := {
  kinv_chain : chain (k_mem s) (k_freelist s) l;
  kinv_nodup : NoDup l;
  kinv_pages : Forall page_ok l;
}.

(** Pages of [[lo, lo + n * PGSIZE)], highest first. *)
Fixpoint pages_down (n : nat) (lo : Z) : list Z :=
  match n with
  | O => []
  | S n' => (lo + Z.of_nat n' * PGSIZE) :: pages_down n' lo
  end.

(** What the allocator promises, on the list of free pages: [kalloc] takes the
    first page or reports exhaustion, [kfree] returns one. *)
Definition spec_kalloc (l : list Z) : Z * list Z :=
  match l with
  | [] => (0, [])
  | p :: l' => (p, l')
  end.

(** [m'] differs from [m] at most inside the pages that satisfy [ps]. *)
Definition mframe (ps : Z → Prop) (m m' : memory) : Prop :=
  ∀ a, (∀ p, ps p → ¬ in_page p a) → ld8 m' a = ld8 m a.

(** ** Frames *)

Lemma mframe_refl ps m : mframe ps m m.
Proof. done. Qed.

Lemma mframe_trans (ps qs rs : Z → Prop) m1 m2 m3 :
  mframe ps m1 m2 → mframe qs m2 m3 →
  (∀ p, ps p → rs p) → (∀ p, qs p → rs p) → mframe rs m1 m3.
Proof. intros H1 H2 Hp Hq a Ha. rewrite H2, H1; auto. Qed.

Lemma mframe_step ps m1 m2 m3 : mframe ps m1 m2 → mframe ps m2 m3 → mframe ps m1 m3.
Proof. intros H1 H2 a Ha. rewrite H2, H1; auto. Qed.

Lemma mframe_mono (ps qs : Z → Prop) m m' :
  mframe ps m m' → (∀ p, ps p → qs p) → mframe qs m m'.
Proof. intros H1 Hq a Ha. apply H1; auto. Qed.

Lemma mframe_st64 m p off v :
  0 ≤ off → off + 8 ≤ PGSIZE → mframe (λ q, q = p) m (st64 m (p + off) v).
Proof.
  intros H0 H1 a Ha. apply ld8_st64_ne. specialize (Ha p eq_refl).
  unfold in_page in Ha. lia.
Qed.

Lemma mframe_memset m p c : mframe (λ q, q = p) m (memset m p c PGSIZE).
Proof.
  intros a Ha. specialize (Ha p eq_refl). unfold in_page, PGSIZE in *.
  rewrite ld8_memset by lia. destruct (_ && _) eqn:E; [lia | done].
Qed.

(** A word in a page outside the frame keeps its value. *)
Lemma mframe_ld64 (ps : Z → Prop) m m' q off :
  mframe ps m m' → (∀ p, ps p → p mod PGSIZE = 0) → q mod PGSIZE = 0 → ¬ ps q →
  0 ≤ off → off + 8 ≤ PGSIZE → ld64 m' (q + off) = ld64 m (q + off).
Proof.
  intros Hf Hal Hq Hn H0 H1. apply ld64_ext. intros i Hi. apply Hf. intros p Hp Hin.
  assert (p = q) as ->; [|done].
  apply (in_page_unique p q i); auto. unfold in_page. lia.
Qed.

(** So does a byte. *)
Lemma mframe_ld8 (ps : Z → Prop) m m' q a :
  mframe ps m m' → (∀ p, ps p → p mod PGSIZE = 0) → q mod PGSIZE = 0 → ¬ ps q →
  in_page q a → ld8 m' a = ld8 m a.
Proof.
  intros Hf Hal Hq Hn Hin. apply Hf. intros p Hp Hin'.
  assert (p = q) as ->; [|done]. eapply in_page_unique; eauto.
Qed.

Lemma ld64_memset_page m p off :
  0 ≤ off → off + 8 ≤ PGSIZE → ld64 (memset m p 0 PGSIZE) (p + off) = 0.
Proof.
  intros H0 H1. apply ld64_zero. intros i Hi. unfold PGSIZE in *. rewrite ld8_memset by lia.
  destruct (_ && _) eqn:E; [done | lia].
Qed.

(** ** The chain *)

Lemma chain_ext m m' h l :
  (∀ p, p ∈ l → ld64 m' p = ld64 m p) → chain m h l → chain m' h l.
Proof.
  revert h. induction l as [|p l IH]; intros h Hext; [done|].
  intros [-> Hc]. split; [done|]. rewrite Hext by set_solver.
  apply IH; [set_solver | done].
Qed.

Lemma chain_frame (ps : Z → Prop) m m' h l :
  mframe ps m m' → (∀ p, ps p → p mod PGSIZE = 0) →
  Forall page_ok l → (∀ p, p ∈ l → ¬ ps p) → chain m h l → chain m' h l.
Proof.
  intros Hf Hal Hok Hn. apply chain_ext. intros p Hp.
  rewrite Forall_forall in Hok. destruct (Hok p Hp) as [Hmod _].
  pose proof (mframe_ld64 ps m m' p 0) as Hld. rewrite !Z.add_0_r in Hld.
  apply Hld; auto; unfold PGSIZE; lia.
Qed.

Lemma kinv_frame (ps : Z → Prop) m m' h l :
  kinv (mkKmem m h) l → mframe ps m m' →
  (∀ p, ps p → p mod PGSIZE = 0) → (∀ p, p ∈ l → ¬ ps p) → kinv (mkKmem m' h) l.
Proof.
  intros [Hc Hd Hp] Hf Hal Hn. split; simpl in *; [|done..].
  eapply chain_frame; eauto.
Qed.

Lemma kinv_head_range `{!KernelImageOk K} s l : kinv s l → 0 ≤ k_freelist s < 2 ^ 64.
Proof.
  intros [Hc _ Hp]. destruct l as [|p l]; simpl in Hc; [lia|].
  destruct Hc as [-> _]. apply Forall_cons in Hp as [[_ Hr] _].
  pose proof kend_lo. unfold PHYSTOP, KERNBASE in *. lia.
Qed.

Lemma kinv_nil_iff `{!KernelImageOk K} s l : kinv s l → k_freelist s = 0 ↔ l = [].
Proof.
  intros [Hc _ Hp]. destruct l as [|p l]; simpl in Hc; [by split|].
  destruct Hc as [-> _]. apply Forall_cons in Hp as [Hp _].
  apply page_ok_nonzero in Hp. by split.
Qed.

(** ** kfree and kalloc *)

Lemma kfree_guard pa :
  negb (pa mod PGSIZE =? 0) || (pa <? kend) || (PHYSTOP <=? pa) = false ↔ page_ok pa.
Proof. unfold page_ok. lia. Qed.

Lemma kfree_ok `{!KernelImageOk K} s l pa :
  kinv s l → page_ok pa → pa ∉ l →
  ∃ s', kfree pa s = Ok (tt, s') ∧ kinv s' (pa :: l) ∧
        mframe (λ q, q = pa) (k_mem s) (k_mem s').
Proof.
  intros Hinv Hpa Hni. pose proof (kinv_head_range s l Hinv) as Hh.
  unfold kfree. apply kfree_guard in Hpa as Hg. rewrite Hg.
  eexists. split; [reflexivity|]. destruct s as [m h]. simpl in *.
  set (m1 := memset m pa 1 PGSIZE).
  assert (Hf : mframe (λ q, q = pa) m (st64 m1 pa h)).
  { eapply mframe_step; [apply mframe_memset|].
    rewrite <- (Z.add_0_r pa) at 2. apply mframe_st64; unfold PGSIZE; lia. }
  split; [|done]. destruct Hinv as [Hc Hd Hp]. split; simpl in *.
  - split; [done|]. rewrite ld64_st64_eq by done.
    eapply chain_frame; eauto; [intros p ->; apply Hpa | intros p Hin ->; done].
  - by constructor.
  - by constructor.
Qed.

Lemma kalloc_empty `{!KernelImageOk K} s : kinv s [] → kalloc s = Ok (0, s).
Proof.
  intros [Hc _ _]. simpl in Hc. unfold kalloc. autorewrite with xv6_monad.
  by rewrite Hc.
Qed.

Lemma kalloc_run s :
  k_freelist s ≠ 0 →
  kalloc s = Ok (k_freelist s, mkKmem (memset (k_mem s) (k_freelist s) 5 PGSIZE)
                                      (ld64 (k_mem s) (k_freelist s))).
Proof.
  intros Hnz. unfold kalloc, mbind, M_bind, gets.
  by destruct (Z.eqb_spec (k_freelist s) 0).
Qed.

Lemma kalloc_cons `{!KernelImageOk K} s p l :
  kinv s (p :: l) →
  ∃ s', kalloc s = Ok (p, s') ∧ kinv s' l ∧ page_ok p ∧ (p ∉ l) ∧
        mframe (λ q, q = p) (k_mem s) (k_mem s').
Proof.
  intros [Hc Hd Hp]. destruct s as [m h]. simpl in *. destruct Hc as [-> Hc].
  apply Forall_cons in Hp as [Hp Hps]. apply NoDup_cons in Hd as [Hni Hd].
  pose proof (page_ok_nonzero p Hp) as Hnz.
  exists (mkKmem (memset m p 5 PGSIZE) (ld64 m p)). split_and!; try done.
  - by apply kalloc_run.
  - split; simpl; [|done..]. eapply chain_frame; eauto using mframe_memset.
    + intros q ->. apply Hp.
    + intros q Hq ->. done.
  - apply mframe_memset.
Qed.

(** The callers' pattern: take a page and clear it. *)
Lemma kalloc_zeroed `{!KernelImageOk K} s q l :
  kinv s (q :: l) →
  ∃ s1 s2, kalloc s = Ok (q, s1) ∧
    mem_modify (λ m, memset m q 0 PGSIZE) s1 = Ok (tt, s2) ∧
    kinv s2 l ∧ page_ok q ∧ (q ∉ l) ∧
    mframe (λ x, x = q) (k_mem s) (k_mem s2) ∧
    (∀ a, in_page q a → ld8 (k_mem s2) a = 0).
Proof.
  intros Hk. destruct (kalloc_cons s q l Hk) as ([m1 h1] & Hka & Hk1 & Hq & Hni & Hf).
  exists (mkKmem m1 h1), (mkKmem (memset m1 q 0 PGSIZE) h1).
  split_and!; [done.. | | done | done | |].
  - eapply kinv_frame; [done | apply mframe_memset | |].
    + intros p ->. apply Hq.
    + intros p Hp ->. exact (Hni Hp).
  - eapply mframe_step; [exact Hf | apply mframe_memset].
  - intros a [Ha1 Ha2]. cbn [k_mem]. unfold PGSIZE in *. rewrite ld8_memset by lia.
    destruct (_ && _) eqn:E; [done | lia].
Qed.

(** ** kinit *)

Lemma elem_of_pages_down n lo p :
  p ∈ pages_down n lo ↔ ∃ i, 0 ≤ i < Z.of_nat n ∧ p = lo + i * PGSIZE.
Proof.
  induction n as [|n IH]; cbn [pages_down].
  - rewrite elem_of_nil. split; [done | intros (i & ? & _); lia].
  - rewrite elem_of_cons, IH. split.
    + intros [->|(i & Hi & ->)]; eexists; (split; [|done]); lia.
    + intros (i & Hi & ->). destruct (decide (i = Z.of_nat n)) as [->|]; [by left|].
      right. exists i. split; [lia | done].
Qed.

Lemma freerange_loop_ok `{!KernelImageOk K} lo hi fuel k s :
  lo mod PGSIZE = 0 → kend ≤ lo → hi ≤ PHYSTOP →
  kinv s (pages_down k lo) →
  (Z.to_nat ((hi - lo) / PGSIZE) < k + fuel)%nat →
  lo + Z.of_nat k * PGSIZE ≤ hi ∨ k = O →
  ∃ s', freerange_loop fuel (lo + Z.of_nat k * PGSIZE) hi s = Ok (tt, s') ∧
        kinv s' (pages_down (Nat.max k (Z.to_nat ((hi - lo) / PGSIZE))) lo).
Proof.
  intros Hal Hlo Hhi. revert k s.
  induction fuel as [|f IH]; intros k s Hinv Hfuel Hk; cbn [freerange_loop].
  - unfold PGSIZE in *. exfalso. zdiv.
  - destruct (Z.leb_spec (lo + Z.of_nat k * PGSIZE + PGSIZE) hi) as [Hle|Hgt].
    + destruct (kfree_ok s (pages_down k lo) (lo + Z.of_nat k * PGSIZE))
        as (s' & Hkf & Hinv' & _); [done | | |].
      * unfold page_ok, PGSIZE in *. zdiv.
      * rewrite elem_of_pages_down. intros (i & Hi & ?). unfold PGSIZE in *. lia.
      * run Hkf. replace (lo + Z.of_nat k * PGSIZE + PGSIZE)
          with (lo + Z.of_nat (S k) * PGSIZE) by (unfold PGSIZE; lia).
        destruct (IH (S k) s') as (s'' & Hr & Hinv''); [done | lia | |].
        { left. unfold PGSIZE in *. lia. }
        exists s''. split; [done|].
        replace (Nat.max k (Z.to_nat ((hi - lo) / PGSIZE)))
          with (Nat.max (S k) (Z.to_nat ((hi - lo) / PGSIZE))); [done|].
        unfold PGSIZE in *. zdiv.
    + exists s. split; [done|].
      replace (Nat.max k (Z.to_nat ((hi - lo) / PGSIZE))) with k; [done|].
      unfold PGSIZE in *. zdiv.
Qed.

(** ** kfree_memsize *)

(** There are at most as many distinct valid pages as page frames below PHYSTOP. *)
Lemma pages_bounded `{!KernelImageOk K} l :
  NoDup l → Forall page_ok l → (length l ≤ Z.to_nat (PHYSTOP / PGSIZE))%nat.
Proof.
  intros Hd Hp. rewrite Forall_forall in Hp. pose proof kend_lo as Hk.
  rewrite <- (length_fmap (λ p, Z.to_nat (p / PGSIZE)) l).
  rewrite <- (length_seq (Z.to_nat (PHYSTOP / PGSIZE)) 0).
  apply submseteq_length, NoDup_submseteq.
  - apply NoDup_fmap_2_strong; [|done]. intros x y Hx Hy Hxy.
    destruct (Hp x Hx), (Hp y Hy). unfold PGSIZE, KERNBASE in *. zdiv.
  - intros i (p & -> & Hin)%list_elem_of_fmap. apply elem_of_seq.
    destruct (Hp p Hin). unfold PGSIZE, PHYSTOP, KERNBASE in *. cbn beta. zdiv.
Qed.

Lemma kfree_memsize_loop_ok `{!KernelImageOk K} s l fuel acc r :
  chain (k_mem s) r l → Forall page_ok l → (length l < fuel)%nat →
  0 ≤ acc → acc + PGSIZE * Z.of_nat (length l) < 2 ^ 64 →
  kfree_memsize_loop fuel acc r s = Ok (acc + PGSIZE * Z.of_nat (length l), s).
Proof.
  revert fuel acc r. induction l as [|p l IH]; intros fuel acc r Hc Hp Hf H0 Hb;
    (destruct fuel as [|f]; simpl in Hf; [lia|]); cbn [kfree_memsize_loop].
  - simpl in Hc. subst r. cbn [length] in *. rewrite Z.eqb_refl. cbn [negb].
    unfold mret, M_ret. do 2 f_equal. lia.
  - destruct Hc as [-> Hc]. apply Forall_cons in Hp as [Hp Hps].
    pose proof (page_ok_nonzero p Hp). destruct (Z.eqb_spec p 0); [done|]. cbn [negb].
    unfold read64. rewrite bind_gets. cbn [length] in *. unfold PGSIZE in *.
    rewrite u64_small by lia. rewrite IH by (done || lia). do 2 f_equal. lia.
Qed.

(** ** Properties *)

(** [kinit] puts every page between the end of the kernel and PHYSTOP on the
    free list, once each, highest address first, whatever memory held before. *)
Theorem kinit_frees_all `{!KernelImageOk K} (m : memory) :
  let lo := PGROUNDUP kend in
  let n := Z.to_nat ((PHYSTOP - lo) / PGSIZE) in
  ∃ s', kinit (mkKmem m 0) = Ok (tt, s') ∧ kinv s' (pages_down n lo) ∧
        (∀ p, p ∈ pages_down n lo ↔ page_ok p).
Proof.
  intros lo n. pose proof kend_lo as Hl. pose proof kend_hi as Hh.
  assert (Hlo : lo = (kend + 4095) / 4096 * 4096).
  { apply PGROUNDUP_small. unfold PHYSTOP, KERNBASE in *. lia. }
  destruct (freerange_loop_ok lo PHYSTOP (S n) 0 (mkKmem m 0)) as (s' & Hr & Hinv).
  - unfold PGSIZE. zdiv.
  - zdiv.
  - done.
  - split; [done | constructor | constructor].
  - unfold n. lia.
  - by right.
  - rewrite Nat.max_0_l in Hinv. exists s'. split_and!; [| done |].
    + rewrite Z.add_0_r in Hr. exact Hr.
    + intros p. rewrite elem_of_pages_down. unfold n, page_ok, PGSIZE, PHYSTOP, KERNBASE in *.
      split.
      * intros (i & Hi & ->). zdiv.
      * intros [Hal Hr']. exists ((p - lo) / 4096). zdiv.
Qed.

(** C38. [kalloc] implements taking the head of the free list: it returns that page,
    filled with junk, and leaves the rest of the list and every other page alone;
    on an empty list it returns 0 and changes nothing. *)
Theorem kalloc_refines `{!KernelImageOk K} (s : kmem) (l : list Z) :
  kinv s l →
  ∃ s', kalloc s = Ok (fst (spec_kalloc l), s') ∧ kinv s' (snd (spec_kalloc l)) ∧
        mframe (λ q, head l = Some q) (k_mem s) (k_mem s') ∧
        (∀ p a, head l = Some p → in_page p a → ld8 (k_mem s') a = 5).
Proof.
  intros Hinv. destruct l as [|p l]; simpl.
  - exists s. rewrite kalloc_empty by done. split_and!; [done.. |].
    intros p a [=].
  - destruct (kalloc_cons s p l Hinv) as (s' & Hk & Hinv' & _ & _ & Hf).
    exists s'. split_and!; [done.. | |].
    + eapply mframe_mono; [done|]. by intros q ->.
    + intros q a [= <-] Hin. destruct Hinv as [Hc _ Hp]. destruct s as [m h].
      simpl in Hc. destruct Hc as [-> Hc]. apply Forall_cons in Hp as [Hp _].
      pose proof (page_ok_nonzero p Hp) as Hnz.
      rewrite kalloc_run in Hk by done. injection Hk as <-. cbn [k_mem k_freelist].
      unfold in_page, PGSIZE in *. rewrite ld8_memset by lia.
      destruct (_ && _) eqn:E; [done | lia].
Qed.

(** [kfree] of a page that is not free puts it at the head of the free list and
    writes no other page; an address that is misaligned or outside the allocator's
    range is refused with a panic and never enters the list. *)
Theorem kfree_refines `{!KernelImageOk K} (s : kmem) (l : list Z) (pa : Z) :
  kinv s l → pa ∉ l →
  if decide (page_ok pa)
  then ∃ s', kfree pa s = Ok (tt, s') ∧ kinv s' (pa :: l) ∧
             mframe (λ q, q = pa) (k_mem s) (k_mem s')
  else kfree pa s = Panic "kfree".
Proof.
  intros Hinv Hni. destruct (decide (page_ok pa)) as [Hp|Hp].
  - by apply kfree_ok.
  - unfold kfree. destruct (negb _ || _ || _) eqn:E; [done|].
    by apply kfree_guard in E.
Qed.

(** [kfree_memsize] terminates and returns [PGSIZE] times the number of free
    pages, without changing the allocator. *)
Theorem kfree_memsize_counts `{!KernelImageOk K} (s : kmem) (l : list Z) :
  kinv s l → kfree_memsize s = Ok (PGSIZE * Z.of_nat (length l), s).
Proof.
  intros [Hc Hd Hp]. pose proof (pages_bounded l Hd Hp) as Hb.
  unfold kfree_memsize. rewrite bind_gets.
  rewrite (kfree_memsize_loop_ok s l); [done..| | |].
  - unfold memsize_fuel. lia.
  - lia.
  - unfold PGSIZE, PHYSTOP, KERNBASE in *. zdiv.
Qed.

End Kalloc.

(** ** Witnesses *)

(** One free page, the first after the kernel of kernel.sym. *)
Definition one_free_page : kmem := mkKmem ∅ 0x80024000.

Lemma one_free_page_inv : @kinv xv6_image one_free_page [0x80024000].
Proof.
  split; [by split | apply NoDup_singleton | apply Forall_singleton].
  vm_compute. intuition congruence.
Qed.

Lemma kinit_frees_all_witness :
  ∃ s', @kinit xv6_image (mkKmem ∅ 0) = Ok (tt, s').
Proof.
  destruct (@kinit_frees_all xv6_image _ ∅) as (s' & H & _). exists s'. exact H.
Defined.

Lemma kalloc_refines_witness :
  ∃ s', @kalloc one_free_page = Ok (0x80024000, s') ∧ @kinv xv6_image s' [].
Proof.
  destruct (@kalloc_refines xv6_image _ one_free_page _ one_free_page_inv)
    as (s' & H & Hi & _).
  exists s'. split; [exact H | exact Hi].
Defined.

Lemma kfree_refines_witness :
  ∃ s', @kfree xv6_image 0x80025000 one_free_page = Ok (tt, s').
Proof.
  pose proof (@kfree_refines xv6_image _ one_free_page [0x80024000] 0x80025000
    one_free_page_inv ltac:(set_solver)) as H.
  destruct (decide _) as [_|Hn].
  - destruct H as (s' & H & _). exists s'. exact H.
  - exfalso. apply Hn. vm_compute. intuition congruence.
Defined.

Lemma kfree_memsize_counts_witness :
  @kfree_memsize one_free_page = Ok (4096, one_free_page).
Proof.
  exact (@kfree_memsize_counts xv6_image _ one_free_page _ one_free_page_inv).
Defined.
