(* ===== verification/Vm.v ===== *)
(** * Vm: page tables and user memory (src/kernel/vm.c), and the page-table
      functions of src/kernel/proc.c

    Page tables live in the pages of Kalloc.v's memory: entry [i] of the table at
    [pt] is the 64-bit word at [pt + 8 * i].  A kernel pointer is a physical
    address (the kernel's direct map), so [copyin]/[copyout] move bytes inside one
    memory.  Loops that the C code bounds by an address comparison carry fuel
    computed from their bounds. *)

From S2P Require Import Prelude Mem Layout Kalloc.
Import CString.

Local Open Scope Z_scope.

(** [int] results. *)
Definition err : Z := -1.

Section Vm.
  Context {K : KernelImage}.

(** ** walk *)

(** The loop of [walk] with [level] levels to descend, and its final return. *)
Fixpoint walk_from (level : nat) (pagetable va : Z) (alloc : bool) : KM Z :=
  match level with
  | O => mret (pagetable + 8 * PX 0 va)
  | S l =>
      let pte := pagetable + 8 * PX (Z.of_nat level) va in
      v ← read64 pte;
      if has v PTE_V then walk_from l (PTE2PA v) va alloc
      else if negb alloc then mret 0
      else
        p ← kalloc;
        if p =? 0 then mret 0
        else
          mem_modify (λ m, memset m p 0 PGSIZE);;
          write64 pte (Z.lor (PA2PTE p) PTE_V);;
          walk_from l p va alloc
  end.

Definition walk (pagetable va : Z) (alloc : bool) : KM Z :=
  if MAXVA <=? va then panic "walk" else walk_from 2 pagetable va alloc.

Definition walkaddr (pagetable va : Z) : KM Z :=
  if MAXVA <=? va then mret 0
  else
    pte ← walk pagetable va false;
    if pte =? 0 then mret 0
    else
      v ← read64 pte;
      if negb (has v PTE_V) then mret 0
      else if negb (has v PTE_U) then mret 0
      else mret (PTE2PA v).

(** ** Mapping and unmapping *)

Fixpoint mappages_loop (fuel : nat) (pagetable a last pa perm : Z) : KM Z :=
  match fuel with
  | O => out_of_fuel
  | S f =>
      pte ← walk pagetable a true;
      if pte =? 0 then mret err
      else
        v ← read64 pte;
        if has v PTE_V then panic "mappages: remap"
        else
          write64 pte (mkpte pa perm);;
          if a =? last then mret 0
          else mappages_loop f pagetable (u64 (a + PGSIZE)) last (u64 (pa + PGSIZE)) perm
  end.

Definition mappages (pagetable va size pa perm : Z) : KM Z :=
  if negb (va mod PGSIZE =? 0) then panic "mappages: va not aligned"
  else if negb (size mod PGSIZE =? 0) then panic "mappages: size not aligned"
  else if size =? 0 then panic "mappages: size"
  else mappages_loop (Z.to_nat (size / PGSIZE)) pagetable va
         (u64 (va + size - PGSIZE)) pa perm.

Definition kvmmap (kpgtbl va pa sz perm : Z) : KM unit :=
  r ← mappages kpgtbl va sz pa perm;
  if negb (r =? 0) then panic "kvmmap" else mret tt.

(** [for(a = va; a < va + npages*PGSIZE; a += PGSIZE)] *)
Fixpoint uvmunmap_loop (fuel : nat) (pagetable a limit : Z) (do_free : bool) : KM unit :=
  match fuel with
  | O => out_of_fuel
  | S f =>
      if a <? limit then
        pte ← walk pagetable a false;
        if pte =? 0 then panic "uvmunmap: walk"
        else
          v ← read64 pte;
          if negb (has v PTE_V) then panic "uvmunmap: not mapped"
          else if PTE_FLAGS v =? PTE_V then panic "uvmunmap: not a leaf"
          else
            (if do_free then kfree (PTE2PA v) else mret tt);;
            write64 pte 0;;
            uvmunmap_loop f pagetable (u64 (a + PGSIZE)) limit do_free
      else mret tt
  end.

Definition uvmunmap (pagetable va npages : Z) (do_free : bool) : KM unit :=
  if negb (va mod PGSIZE =? 0) then panic "uvmunmap: not aligned"
  else uvmunmap_loop (S (Z.to_nat npages)) pagetable va
         (u64 (va + u64 (npages * PGSIZE))) do_free.

Definition uvmcreate : KM Z :=
  pagetable ← kalloc;
  if pagetable =? 0 then mret 0
  else mem_modify (λ m, memset m pagetable 0 PGSIZE);; mret pagetable.

Definition uvmfirst (pagetable src sz : Z) : KM unit :=
  if PGSIZE <=? sz then panic "uvmfirst: more than a page"
  else
    mem ← kalloc;
    mem_modify (λ m, memset m mem 0 PGSIZE);;
    _ ← mappages pagetable 0 PGSIZE mem (Z.lor (Z.lor (Z.lor PTE_W PTE_R) PTE_X) PTE_U);
    mem_modify (λ m, memmove m mem src sz).

(** ** Growing and shrinking *)

Definition uvmdealloc (pagetable oldsz newsz : Z) : KM Z :=
  if oldsz <=? newsz then mret oldsz
  else
    (if PGROUNDUP newsz <? PGROUNDUP oldsz then
       let npages := i32 ((PGROUNDUP oldsz - PGROUNDUP newsz) / PGSIZE) in
       uvmunmap pagetable (PGROUNDUP newsz) (u64 npages) true
     else mret tt);;
    mret newsz.

(** [for(a = oldsz; a < newsz; a += PGSIZE)], [oldsz] already rounded up. *)
Fixpoint uvmalloc_loop (fuel : nat) (pagetable a oldsz newsz xperm : Z) : KM Z :=
  match fuel with
  | O => out_of_fuel
  | S f =>
      if a <? newsz then
        mem ← kalloc;
        if mem =? 0 then _ ← uvmdealloc pagetable a oldsz; mret 0
        else
          mem_modify (λ m, memset m mem 0 PGSIZE);;
          r ← mappages pagetable a PGSIZE mem (Z.lor (Z.lor PTE_R PTE_U) xperm);
          if negb (r =? 0) then kfree mem;; _ ← uvmdealloc pagetable a oldsz; mret 0
          else uvmalloc_loop f pagetable (u64 (a + PGSIZE)) oldsz newsz xperm
      else mret newsz
  end.

Definition uvmalloc (pagetable oldsz newsz xperm : Z) : KM Z :=
  if newsz <? oldsz then mret oldsz
  else
    let oldsz' := PGROUNDUP oldsz in
    uvmalloc_loop (S (Z.to_nat ((newsz + PGSIZE - 1 - oldsz') / PGSIZE)))
      pagetable oldsz' oldsz' newsz xperm.

(** ** Freeing *)

(** [for(int i = 0; i < 512; i++)] of [freewalk], with [n] entries left;
    [rec] is the recursive call. *)
Fixpoint freewalk_entries (rec : Z → KM unit) (n : nat) (pagetable i : Z) : KM unit :=
  match n with
  | O => mret tt
  | S n' =>
      pte ← read64 (pagetable + 8 * i);
      (if has pte PTE_V && (Z.land pte (Z.lor (Z.lor PTE_R PTE_W) PTE_X) =? 0) then
         rec (PTE2PA pte);;
         write64 (pagetable + 8 * i) 0
       else if has pte PTE_V then panic "freewalk: leaf"
       else mret tt);;
      freewalk_entries rec n' pagetable (i + 1)
  end.

(** [depth] bounds the recursion; three levels are enough for an Sv39 table. *)
Fixpoint freewalk (depth : nat) (pagetable : Z) : KM unit :=
  match depth with
  | O => out_of_fuel
  | S d =>
      freewalk_entries (freewalk d) 512 pagetable 0;;
      kfree pagetable
  end.

Definition uvmfree (pagetable sz : Z) : KM unit :=
  (if 0 <? sz then uvmunmap pagetable 0 (PGROUNDUP sz / PGSIZE) true else mret tt);;
  freewalk 3 pagetable.

(** ** fork's copy *)

Fixpoint uvmcopy_loop (fuel : nat) (old new i sz : Z) : KM Z :=
  match fuel with
  | O => out_of_fuel
  | S f =>
      if i <? sz then
        pte ← walk old i false;
        if pte =? 0 then panic "uvmcopy: pte should exist"
        else
          v ← read64 pte;
          if negb (has v PTE_V) then panic "uvmcopy: page not present"
          else
            let pa := PTE2PA v in
            let flags := PTE_FLAGS v in
            mem ← kalloc;
            if mem =? 0 then uvmunmap new 0 (i / PGSIZE) true;; mret err
            else
              mem_modify (λ m, memmove m mem pa PGSIZE);;
              r ← mappages new i PGSIZE mem flags;
              if negb (r =? 0) then
                kfree mem;; uvmunmap new 0 (i / PGSIZE) true;; mret err
              else uvmcopy_loop f old new (u64 (i + PGSIZE)) sz
      else mret 0
  end.

Definition uvmcopy (old new sz : Z) : KM Z :=
  uvmcopy_loop (S (Z.to_nat ((sz + PGSIZE - 1) / PGSIZE))) old new 0 sz.

Definition uvmclear (pagetable va : Z) : KM unit :=
  pte ← walk pagetable va false;
  if pte =? 0 then panic "uvmclear"
  else v ← read64 pte; write64 pte (Z.land v (Z.lnot PTE_U)).

(** ** Copying between kernel and user memory *)

Fixpoint copyout_loop (fuel : nat) (pagetable dstva src len : Z) : KM Z :=
  match fuel with
  | O => out_of_fuel
  | S f =>
      if 0 <? len then
        let va0 := PGROUNDDOWN dstva in
        if MAXVA <=? va0 then mret err
        else
          pte ← walk pagetable va0 false;
          v ← (if pte =? 0 then mret 0 else read64 pte);
          if (pte =? 0) || negb (has v PTE_V) || negb (has v PTE_U) || negb (has v PTE_W)
          then mret err
          else
            let pa0 := PTE2PA v in
            let n := Z.min (PGSIZE - (dstva - va0)) len in
            mem_modify (λ m, memmove m (pa0 + (dstva - va0)) src n);;
            copyout_loop f pagetable (u64 (va0 + PGSIZE)) (src + n) (len - n)
      else mret 0
  end.

(** Each iteration but the first and the last copies a whole page. *)
Definition copy_fuel (len : Z) : nat := S (S (S (Z.to_nat (len / PGSIZE)))).

Definition copyout (pagetable dstva src len : Z) : KM Z :=
  copyout_loop (copy_fuel len) pagetable dstva src len.

Fixpoint copyin_loop (fuel : nat) (pagetable dst srcva len : Z) : KM Z :=
  match fuel with
  | O => out_of_fuel
  | S f =>
      if 0 <? len then
        let va0 := PGROUNDDOWN srcva in
        pa0 ← walkaddr pagetable va0;
        if pa0 =? 0 then mret err
        else
          let n := Z.min (PGSIZE - (srcva - va0)) len in
          mem_modify (λ m, memmove m dst (pa0 + (srcva - va0)) n);;
          copyin_loop f pagetable (dst + n) (u64 (va0 + PGSIZE)) (len - n)
      else mret 0
  end.

Definition copyin (pagetable dst srcva len : Z) : KM Z :=
  copyin_loop (copy_fuel len) pagetable dst srcva len.

(** The inner loop of [copyinstr]: [n] bytes from [p]; returns whether a NUL was
    copied, and the advanced [max] and [dst]. *)
Fixpoint copyinstr_page (n : nat) (p dst max : Z) : KM (bool * Z * Z) :=
  match n with
  | O => mret (false, max, dst)
  | S n' =>
      c ← gets (λ s, ld8 (k_mem s) p);
      if c =? 0 then mem_modify (λ m, st8 m dst 0);; mret (true, max, dst)
      else
        mem_modify (λ m, st8 m dst c);;
        copyinstr_page n' (p + 1) (dst + 1) (max - 1)
  end.

Fixpoint copyinstr_loop (fuel : nat) (pagetable dst srcva max : Z) : KM Z :=
  match fuel with
  | O => out_of_fuel
  | S f =>
      if 0 <? max then
        let va0 := PGROUNDDOWN srcva in
        pa0 ← walkaddr pagetable va0;
        if pa0 =? 0 then mret err
        else
          let n := Z.min (PGSIZE - (srcva - va0)) max in
          r ← copyinstr_page (Z.to_nat n) (pa0 + (srcva - va0)) dst max;
          let '(got_null, max', dst') := r in
          if (got_null : bool) then mret 0
          else copyinstr_loop f pagetable dst' (u64 (va0 + PGSIZE)) max'
      else mret err
  end.

Definition copyinstr (pagetable dst srcva max : Z) : KM Z :=
  copyinstr_loop (copy_fuel max) pagetable dst srcva max.

(** ** proc.c: a process's page table *)

Definition proc_pagetable (trapframe : Z) : KM Z :=
  pagetable ← uvmcreate;
  if pagetable =? 0 then mret 0
  else
    r ← mappages pagetable TRAMPOLINE PGSIZE trampoline (Z.lor PTE_R PTE_X);
    if r <? 0 then uvmfree pagetable 0;; mret 0
    else
      r ← mappages pagetable TRAPFRAME PGSIZE trapframe (Z.lor PTE_R PTE_W);
      if r <? 0 then
        uvmunmap pagetable TRAMPOLINE 1 false;; uvmfree pagetable 0;; mret 0
      else mret pagetable.

Definition proc_freepagetable (pagetable sz : Z) : KM unit :=
  uvmunmap pagetable TRAMPOLINE 1 false;;
  uvmunmap pagetable TRAPFRAME 1 false;;
  uvmfree pagetable sz.

Fixpoint proc_mapstacks_loop (n : nat) (kpgtbl i : Z) : KM unit :=
  match n with
  | O => mret tt
  | S n' =>
      pa ← kalloc;
      if pa =? 0 then panic "kalloc"
      else
        kvmmap kpgtbl (KSTACK i) pa PGSIZE (Z.lor PTE_R PTE_W);;
        proc_mapstacks_loop n' kpgtbl (i + 1)
  end.

Definition proc_mapstacks (kpgtbl : Z) : KM unit :=
  proc_mapstacks_loop (Z.to_nat NPROC) kpgtbl 0.

(** The direct map of the kernel. *)
Definition kvmmake : KM Z :=
  kpgtbl ← kalloc;
  mem_modify (λ m, memset m kpgtbl 0 PGSIZE);;
  kvmmap kpgtbl UART0 UART0 PGSIZE (Z.lor PTE_R PTE_W);;
  kvmmap kpgtbl VIRTIO0 VIRTIO0 PGSIZE (Z.lor PTE_R PTE_W);;
  kvmmap kpgtbl PLIC PLIC 0x4000000 (Z.lor PTE_R PTE_W);;
  kvmmap kpgtbl KERNBASE KERNBASE (etext - KERNBASE) (Z.lor PTE_R PTE_X);;
  kvmmap kpgtbl etext etext (PHYSTOP - etext) (Z.lor PTE_R PTE_W);;
  kvmmap kpgtbl TRAMPOLINE trampoline PGSIZE (Z.lor PTE_R PTE_X);;
  proc_mapstacks kpgtbl;;
  mret kpgtbl.

End Vm.
