(* ===== verification/VmTable.v ===== *)
(** * VmTable: the page table as a partial map from virtual pages to entries

    A table is well formed when the pages reachable from its root form a
    three-level tree without sharing ([pt_wf]); the ghost map [T] names the pages
    of the tree and their levels.  [pt_lookup] is the mapping the table denotes.
    The lemmas show what each step of [walk] and [mappages] does to that mapping. *)

From S2P Require Import Prelude Mem Layout Kalloc Vm.
Import CString.

Local Open Scope Z_scope.
#[local] Opaque memset memmove st64 ld64 PX kalloc kfree.

(** Entry [i] of the table at [p]. *)
Definition pte (m : memory) (p i : Z) : Z := ld64 m (p + 8 * i).

(** The valid leaf entry for [va] below a table at [level], if there is one. *)
Fixpoint lookup_from (level : nat) (m : memory) (pt va : Z) : option Z :=
  let v := pte m pt (PX (Z.of_nat level) va) in
  if has v PTE_V then
    match level with
    | O => Some v
    | S l => lookup_from l m (PTE2PA v) va
    end
  else None.

Definition pt_lookup (m : memory) (root va : Z) : option Z := lookup_from 2 m root va.

(** The level-0 table that holds the entry for [va], if the walk reaches one. *)
Fixpoint leaf_table (level : nat) (m : memory) (pt va : Z) : option Z :=
  match level with
  | O => Some pt
  | S l =>
      let v := pte m pt (PX (Z.of_nat level) va) in
      if has v PTE_V then leaf_table l m (PTE2PA v) va else None
  end.

Section VmTable.
  Context {K : KernelImage} {KOk : KernelImageOk K}.

Record pt_wf (m : memory) (root : Z) (T : gmap Z nat) : Prop := {
  wf_root : T !! root = Some 2%nat;
  wf_root_only p : T !! p = Some 2%nat → p = root;
  wf_pages p l : T !! p = Some l → page_ok p ∧ (l ≤ 2)%nat;
  wf_child p l i :
    T !! p = Some (S l) → 0 ≤ i < 512 → has (pte m p i) PTE_V = true →
    T !! PTE2PA (pte m p i) = Some l ∧ PTE_FLAGS (pte m p i) = PTE_V;
  wf_inj p l i p' l' i' :
    T !! p = Some (S l) → T !! p' = Some (S l') → 0 ≤ i < 512 → 0 ≤ i' < 512 →
    has (pte m p i) PTE_V = true → has (pte m p' i') PTE_V = true →
    PTE2PA (pte m p i) = PTE2PA (pte m p' i') → p = p' ∧ i = i';
  wf_parent q l :
    T !! q = Some l → (l < 2)%nat →
    ∃ p i, T !! p = Some (S l) ∧ 0 ≤ i < 512 ∧ has (pte m p i) PTE_V = true ∧
           PTE2PA (pte m p i) = q;
}.

(** The pages of the tree are not free. *)
Definition tables_not_free (T : gmap Z nat) (fl : list Z) : Prop :=
  ∀ p, p ∈ fl → T !! p = None.

(** ** Entries under stores *)

Lemma pte_range m p i : 0 ≤ pte m p i < 2 ^ 64.
Proof. apply ld64_range. Qed.

Lemma pte_st64_eq m p i v : 0 ≤ v < 2 ^ 64 → pte (st64 m (p + 8 * i) v) p i = v.
Proof. apply ld64_st64_eq. Qed.

Lemma pte_st64_ne m p i v p' i' :
  p mod PGSIZE = 0 → p' mod PGSIZE = 0 → 0 ≤ i < 512 → 0 ≤ i' < 512 →
  (p, i) ≠ (p', i') → pte (st64 m (p + 8 * i) v) p' i' = pte m p' i'.
Proof.
  intros Hp Hp' Hi Hi' Hne. apply ld64_st64_ne. unfold PGSIZE in *.
  destruct (decide (p = p')) as [->|Hpp].
  - assert (i ≠ i') by congruence. lia.
  - zdiv.
Qed.

Lemma pte_frame (ps : Z → Prop) m m' q i :
  mframe ps m m' → (∀ p, ps p → p mod PGSIZE = 0) → q mod PGSIZE = 0 → ¬ ps q →
  0 ≤ i < 512 → pte m' q i = pte m q i.
Proof. intros. apply (mframe_ld64 ps); auto; unfold PGSIZE; lia. Qed.

Lemma wf_page_aligned m root T p l : pt_wf m root T → T !! p = Some l → p mod PGSIZE = 0.
Proof. intros Hwf Hp. apply (wf_pages _ _ _ Hwf) in Hp as [[? _] _]. done. Qed.

(** A well-formed table stays one when memory changes outside its pages. *)
Lemma pt_wf_ext m m' root T :
  (∀ p l i, T !! p = Some l → 0 ≤ i < 512 → pte m' p i = pte m p i) →
  pt_wf m root T → pt_wf m' root T.
Proof.
  intros Hext [Hr Hro Hpg Hch Hinj Hpar]. split; try done.
  - intros p l i Hp Hi. rewrite (Hext p (S l) i Hp Hi). eauto.
  - intros p l i p' l' i' Hp Hp' Hi Hi'.
    rewrite (Hext p (S l) i Hp Hi), (Hext p' (S l') i' Hp' Hi'). eauto.
  - intros q l Hq Hl. destruct (Hpar q l Hq Hl) as (p & i & Hp & Hi & Hv & Hpa).
    exists p, i. rewrite (Hext p (S l) i Hp Hi). done.
Qed.

Lemma pt_wf_frame (ps : Z → Prop) m m' root T :
  mframe ps m m' → (∀ p, ps p → p mod PGSIZE = 0) → (∀ p, ps p → T !! p = None) →
  pt_wf m root T → pt_wf m' root T.
Proof.
  intros Hf Hal Hn Hwf. apply (pt_wf_ext m); [|done]. intros p l i Hp Hi.
  eapply pte_frame; eauto using wf_page_aligned. intros Hps. apply Hn in Hps. congruence.
Qed.

Lemma lookup_from_ext m m' root T level pt va :
  (∀ p l i, T !! p = Some l → 0 ≤ i < 512 → pte m' p i = pte m p i) →
  pt_wf m root T → T !! pt = Some level →
  lookup_from level m' pt va = lookup_from level m pt va.
Proof.
  intros Hext Hwf. revert pt. induction level as [|l IH]; intros pt Hpt; cbn [lookup_from].
  - by rewrite (Hext pt 0%nat) by (done || apply PX_range; lia).
  - rewrite (Hext pt (S l)) by (done || apply PX_range; lia).
    destruct (has _ _) eqn:Hv; [|done]. apply IH.
    eapply wf_child; eauto. apply PX_range. lia.
Qed.

Lemma pt_lookup_frame (ps : Z → Prop) m m' root T va :
  mframe ps m m' → (∀ p, ps p → p mod PGSIZE = 0) → (∀ p, ps p → T !! p = None) →
  pt_wf m root T → pt_lookup m' root va = pt_lookup m root va.
Proof.
  intros Hf Hal Hn Hwf. eapply lookup_from_ext; eauto using wf_root.
  intros p l i Hp Hi. eapply pte_frame; eauto using wf_page_aligned.
  intros Hps. apply Hn in Hps. congruence.
Qed.

(** ** Walks without allocation *)

Lemma leaf_table_level m root T level pt va t :
  pt_wf m root T → T !! pt = Some level → leaf_table level m pt va = Some t →
  T !! t = Some 0%nat.
Proof.
  intros Hwf. revert pt. induction level as [|l IH]; intros pt Hpt; cbn [leaf_table].
  - by intros [= <-].
  - destruct (has _ _) eqn:Hv; [|done]. apply IH.
    eapply wf_child; eauto. apply PX_range. lia.
Qed.

Lemma lookup_from_leaf level m pt va :
  lookup_from level m pt va =
  t ← leaf_table level m pt va;
  if has (pte m t (PX 0 va)) PTE_V then Some (pte m t (PX 0 va)) else None.
Proof.
  revert pt. induction level as [|l IH]; intros pt; cbn [lookup_from leaf_table]; [done|].
  destruct (has _ _); [apply IH | done].
Qed.

Lemma walk_from_noalloc level s pt va :
  walk_from level pt va false s =
  Ok (match leaf_table level (k_mem s) pt va with
      | Some t => t + 8 * PX 0 va
      | None => 0
      end, s).
Proof.
  revert pt. induction level as [|l IH]; intros pt; cbn [walk_from leaf_table]; [done|].
  unfold read64. rewrite bind_gets. fold (pte (k_mem s) pt (PX (Z.of_nat (S l)) va)).
  destruct (has _ _); [apply IH | done].
Qed.

Lemma walk_noalloc s root va :
  va < MAXVA →
  walk root va false s =
  Ok (match leaf_table 2 (k_mem s) root va with
      | Some t => t + 8 * PX 0 va
      | None => 0
      end, s).
Proof.
  intros Hva. unfold walk. destruct (Z.leb_spec MAXVA va); [lia|].
  apply walk_from_noalloc.
Qed.

(** The address [walk] returns for a table page is never null. *)
Lemma pte_addr_nonzero m root T t i :
  pt_wf m root T → is_Some (T !! t) → 0 ≤ i → (t + 8 * i =? 0) = false.
Proof.
  intros Hwf [l Ht] Hi. apply (wf_pages _ _ _ Hwf) in Ht as [[_ Hr] _].
  pose proof kend_lo. unfold KERNBASE in *. lia.
Qed.

(** ** Linking a new table page *)

Lemma link_pte q : Z.lor (PA2PTE q) PTE_V = mkpte q 0.
Proof. unfold mkpte. by rewrite Z.lor_0_r. Qed.

Lemma PTE2PA_link q : page_ok q → PTE2PA (mkpte q 0) = q.
Proof.
  intros Hq. apply PTE2PA_mkpte; [by apply page_ok_pa_ok | unfold perm_ok; lia].
Qed.

Section link.
  Context (m m1 : memory) (root : Z) (T : gmap Z nat) (p i q : Z) (l : nat).
  Hypothesis Hwf : pt_wf m root T.
  Hypothesis Hp : T !! p = Some (S l).
  Hypothesis Hi : 0 ≤ i < 512.
  Hypothesis Hinv : has (pte m p i) PTE_V = false.
  Hypothesis Hq : T !! q = None.
  Hypothesis Hqok : page_ok q.
  Hypothesis Hzero : ∀ j, 0 ≤ j < 512 → pte m1 q j = 0.
  Hypothesis Hsame : ∀ p' l' j, T !! p' = Some l' → 0 ≤ j < 512 → pte m1 p' j = pte m p' j.

Let m2 := st64 m1 (p + 8 * i) (mkpte q 0).

Lemma link_new : pte m2 p i = mkpte q 0.
Proof.
  apply pte_st64_eq, mkpte_range; [by apply page_ok_pa_ok | unfold perm_ok; lia].
Qed.

Lemma link_old p' l' j :
  T !! p' = Some l' → 0 ≤ j < 512 → (p, i) ≠ (p', j) → pte m2 p' j = pte m p' j.
Proof.
  intros Hp' Hj Hne. unfold m2. rewrite pte_st64_ne; eauto using wf_page_aligned.
Qed.

Lemma link_fresh j : 0 ≤ j < 512 → pte m2 q j = 0.
Proof.
  intros Hj. unfold m2. rewrite pte_st64_ne; eauto using wf_page_aligned.
  - apply Hqok.
  - congruence.
Qed.

Lemma link_valid p' l' j :
  <[q:=l]> T !! p' = Some (S l') → 0 ≤ j < 512 → has (pte m2 p' j) PTE_V = true →
  (p' = p ∧ j = i ∧ l' = l ∧ pte m2 p' j = mkpte q 0) ∨
  (T !! p' = Some (S l') ∧ (p, i) ≠ (p', j) ∧ pte m2 p' j = pte m p' j).
Proof.
  intros Hp' Hj Hv. destruct (decide (p' = q)) as [->|Hne].
  { by rewrite link_fresh in Hv. }
  rewrite lookup_insert_ne in Hp' by done.
  destruct (decide ((p, i) = (p', j))) as [[= <- <-]|Hpi].
  - left. rewrite Hp in Hp'. injection Hp' as <-. by rewrite link_new.
  - right. split_and!; [done.. |]. by apply (link_old p' (S l')).
Qed.

Lemma link_wf : pt_wf m2 root (<[q:=l]> T).
Proof.
  pose proof (PTE2PA_link q Hqok) as Hpa.
  destruct (wf_pages _ _ _ Hwf p (S l) Hp) as [_ Hl2].
  assert (Hold : ∀ p' l' j, T !! p' = Some (S l') → 0 ≤ j < 512 →
    has (pte m p' j) PTE_V = true → PTE2PA (pte m p' j) ≠ q).
  { intros p' l' j Hp' Hj Hv E. destruct (wf_child _ _ _ Hwf p' l' j Hp' Hj Hv) as [Hc _].
    rewrite E in Hc. congruence. }
  split.
  - rewrite lookup_insert_ne; [apply Hwf | intros ->; by rewrite (wf_root _ _ _ Hwf) in Hq].
  - intros p'. destruct (decide (p' = q)) as [->|Hne].
    + rewrite lookup_insert_eq. intros [=]. lia.
    + rewrite lookup_insert_ne by done. apply Hwf.
  - intros p' l'. destruct (decide (p' = q)) as [->|Hne].
    + rewrite lookup_insert_eq. intros [= <-]. split; [done | lia].
    + rewrite lookup_insert_ne by done. apply Hwf.
  - intros p' l' j Hp' Hj Hv.
    destruct (link_valid p' l' j Hp' Hj Hv) as [(-> & -> & -> & ->)|(Ho & Hne & E)].
    + rewrite Hpa, lookup_insert_eq. split; [done|].
      rewrite PTE_FLAGS_mkpte; [done | by apply page_ok_pa_ok | unfold perm_ok; lia].
    + rewrite E in Hv |- *. destruct (wf_child _ _ _ Hwf p' l' j Ho Hj Hv) as [Hc Hfl].
      split; [|done]. rewrite lookup_insert_ne; [done|]. intros E'.
      rewrite <- E' in Hc. congruence.
  - intros p1 l1 j1 p2 l2 j2 H1 H2 Hj1 Hj2 Hv1 Hv2.
    destruct (link_valid p1 l1 j1 H1 Hj1 Hv1) as [(-> & -> & -> & E1)|(Ho1 & Hn1 & E1)],
      (link_valid p2 l2 j2 H2 Hj2 Hv2) as [(-> & -> & -> & E2)|(Ho2 & Hn2 & E2)];
      rewrite ?E1, ?E2; rewrite E1 in Hv1; rewrite E2 in Hv2.
    + done.
    + rewrite Hpa. intros E. symmetry in E. by destruct (Hold p2 l2 j2).
    + rewrite Hpa. intros E. by destruct (Hold p1 l1 j1).
    + by apply (wf_inj _ _ _ Hwf p1 l1 j1 p2 l2 j2).
  - intros q' l' Hq' Hl'. destruct (decide (q' = q)) as [->|Hne].
    + rewrite lookup_insert_eq in Hq'. injection Hq' as <-. exists p, i.
      rewrite link_new, has_V_mkpte, Hpa. rewrite lookup_insert_ne; [done|]. congruence.
    + rewrite lookup_insert_ne in Hq' by done.
      destruct (wf_parent _ _ _ Hwf q' l' Hq' Hl') as (p' & j & Hp' & Hj & Hv & E).
      exists p', j. assert (Hpj : (p, i) ≠ (p', j)) by (intros [= <- <-]; congruence).
      rewrite (link_old p' (S l')) by done.
      rewrite lookup_insert_ne; [done|]. congruence.
Qed.

Lemma link_lookup level pt va :
  T !! pt = Some level → lookup_from level m2 pt va = lookup_from level m pt va.
Proof.
  assert (Hq0 : ∀ lv v, lookup_from lv m2 q v = None).
  { intros lv v. destruct lv; cbn [lookup_from]; rewrite link_fresh; try done; apply PX_range; lia. }
  revert pt. induction level as [|lv IH]; intros pt Hpt; cbn [lookup_from].
  - rewrite (link_old pt 0%nat); [done.. | apply PX_range; lia |]. congruence.
  - destruct (decide ((p, i) = (pt, PX (Z.of_nat (S lv)) va))) as [[= E1 E2]|Hne].
    + rewrite <- E1, <- E2, link_new, has_V_mkpte, Hinv.
      rewrite (PTE2PA_link q Hqok). apply Hq0.
    + rewrite (link_old pt (S lv)); [|done | apply PX_range; lia | done].
      destruct (has (pte m pt _) _) eqn:Hv; [|done]. apply IH.
      eapply wf_child; eauto. apply PX_range. lia.
Qed.
End link.

(** ** Storing a leaf entry *)

Lemma leaf_table_ext m m' root T level pt va :
  (∀ p l i, T !! p = Some (S l) → 0 ≤ i < 512 → pte m' p i = pte m p i) →
  pt_wf m root T → T !! pt = Some level →
  leaf_table level m' pt va = leaf_table level m pt va.
Proof.
  intros Hext Hwf. revert pt. induction level as [|l IH]; intros pt Hpt; [done|].
  cbn [leaf_table]. rewrite (Hext pt l) by (done || apply PX_range; lia).
  destruct (has (pte m pt _) _) eqn:Hv; [|done]. apply IH.
  eapply wf_child; eauto. apply PX_range. lia.
Qed.

(** Walks that end in the same level-0 table agree on every index above it. *)
Lemma leaf_table_inj m root T level pt pt' va va' t :
  pt_wf m root T → T !! pt = Some level → T !! pt' = Some level →
  leaf_table level m pt va = Some t → leaf_table level m pt' va' = Some t →
  pt = pt' ∧ (∀ k, (1 ≤ k ≤ level)%nat → PX (Z.of_nat k) va = PX (Z.of_nat k) va').
Proof.
  intros Hwf. revert pt pt'. induction level as [|l IH]; intros pt pt' Hpt Hpt'.
  { cbn [leaf_table]. intros [= ->] [= ->]. split; [done | lia]. }
  cbn [leaf_table].
  destruct (has (pte m pt _) _) eqn:Hv; [|done].
  destruct (has (pte m pt' _) _) eqn:Hv'; [|done]. intros Ht Ht'.
  assert (Hr : ∀ x, 0 ≤ PX (Z.of_nat (S l)) x < 512) by (intros; apply PX_range; lia).
  destruct (wf_child _ _ _ Hwf _ _ _ Hpt (Hr va) Hv) as [Hc _].
  destruct (wf_child _ _ _ Hwf _ _ _ Hpt' (Hr va') Hv') as [Hc' _].
  destruct (IH _ _ Hc Hc' Ht Ht') as [Hcc HPX].
  destruct (wf_inj _ _ _ Hwf _ _ _ _ _ _ Hpt Hpt' (Hr va) (Hr va') Hv Hv' Hcc) as [-> HS].
  split; [done|]. intros k Hk. destruct (decide (k = S l)) as [->|]; [done|].
  apply HPX. lia.
Qed.

Section leaf.
  Context (m : memory) (root : Z) (T : gmap Z nat) (t va v : Z).
  Hypothesis Hwf : pt_wf m root T.
  Hypothesis Hva : 0 ≤ va < MAXVA.
  Hypothesis Ht : leaf_table 2 m root va = Some t.
  Hypothesis Hv : 0 ≤ v < 2 ^ 64.

Let m' := st64 m (t + 8 * PX 0 va) v.

Lemma leaf_level : T !! t = Some 0%nat.
Proof. exact (leaf_table_level m root T 2 root va t Hwf (wf_root _ _ _ Hwf) Ht). Qed.

Lemma leaf_other p l i :
  T !! p = Some l → 0 ≤ i < 512 → (t, PX 0 va) ≠ (p, i) → pte m' p i = pte m p i.
Proof.
  intros Hp Hi Hne. pose proof leaf_level as Hl. apply pte_st64_ne; try done.
  - by apply (wf_page_aligned m root T t 0).
  - by apply (wf_page_aligned m root T p l).
  - apply PX_range. lia.
Qed.

Lemma leaf_upper p l i : T !! p = Some (S l) → 0 ≤ i < 512 → pte m' p i = pte m p i.
Proof.
  intros Hp Hi. apply (leaf_other p (S l)); [done..|]. pose proof leaf_level. congruence.
Qed.

Lemma leaf_wf : pt_wf m' root T.
Proof.
  destruct Hwf as [Hr Hro Hpg Hch Hinj Hpar]. split; try done.
  - intros p l i Hp Hi. rewrite (leaf_upper p l i Hp Hi). eauto.
  - intros p l i p' l' i' Hp Hp' Hi Hi'.
    rewrite (leaf_upper p l i Hp Hi), (leaf_upper p' l' i' Hp' Hi'). eauto.
  - intros q l Hq Hl. destruct (Hpar q l Hq Hl) as (p & i & Hp & Hi & Hvv & Hpa).
    exists p, i. by rewrite (leaf_upper p l i Hp Hi).
Qed.

Lemma leaf_lookup va' :
  0 ≤ va' < 2 ^ 39 →
  pt_lookup m' root va' =
  if decide (va' / PGSIZE = va / PGSIZE)
  then (if has v PTE_V then Some v else None)
  else pt_lookup m root va'.
Proof.
  intros Hva'. unfold pt_lookup. rewrite !lookup_from_leaf.
  rewrite (leaf_table_ext m m' root T) by (eauto using leaf_upper, wf_root).
  assert (Hnew : pte m' t (PX 0 va) = v) by (by apply pte_st64_eq).
  destruct (decide (va' / PGSIZE = va / PGSIZE)) as [E|Hne].
  - assert (HPX : ∀ k, 0 ≤ k → PX k va' = PX k va) by (intros; by apply PX_page).
    replace (leaf_table 2 m root va') with (Some t); simpl.
    + by rewrite HPX, Hnew by lia.
    + rewrite <- Ht. cbn [leaf_table]. by rewrite !HPX by lia.
  - destruct (leaf_table 2 m root va') as [t'|] eqn:Ht'; [simpl|done].
    rewrite (leaf_other t' 0); [done | | apply PX_range; lia |].
    + exact (leaf_table_level m root T 2 root va' t' Hwf (wf_root _ _ _ Hwf) Ht').
    + intros [= <- E0]. apply Hne.
      destruct (leaf_table_inj m root T 2 root root va va' t) as [_ HPX];
        [done | apply Hwf.. | done | done |].
      symmetry. apply PX_inj; [rewrite MAXVA_eq in Hva; lia | done | | | done].
      * exact (HPX 2%nat ltac:(lia)).
      * exact (HPX 1%nat ltac:(lia)).
Qed.
End leaf.

(** ** Walks with allocation *)

(** Allocator and page table are both in order, and share no page. *)
Record vm_ok (s : kmem) (root : Z) (T : gmap Z nat) (fl : list Z) : Prop := {
  vo_k : kinv s fl;
  vo_wf : pt_wf (k_mem s) root T;
  vo_free : tables_not_free T fl;
}.

(** From [s] to [s'] the table only gained pages, taken from the head of the free
    list, and memory outside the table's pages is unchanged. *)
Record extends (root : Z) (s : kmem) (T : gmap Z nat) (fl : list Z)
    (s' : kmem) (T' : gmap Z nat) (fl' : list Z) : Prop := {
  x_ok : vm_ok s' root T' fl';
  x_pages : ∃ news, fl = news ++ fl' ∧
              (∀ p, is_Some (T' !! p) ↔ is_Some (T !! p) ∨ p ∈ news);
  x_sub : T ⊆ T';
  x_frame : mframe (λ p, is_Some (T' !! p)) (k_mem s) (k_mem s');
}.

(** ... and the new pages are empty: the mapping is the same. *)
Record grows (root : Z) (s : kmem) (T : gmap Z nat) (fl : list Z)
    (s' : kmem) (T' : gmap Z nat) (fl' : list Z) : Prop := {
  g_ext : extends root s T fl s' T' fl';
  g_keep p l i :
    T !! p = Some (S l) → 0 ≤ i < 512 → has (pte (k_mem s) p i) PTE_V = true →
    pte (k_mem s') p i = pte (k_mem s) p i;
  g_lookup lv pt va :
    T !! pt = Some lv →
    lookup_from lv (k_mem s') pt va = lookup_from lv (k_mem s) pt va;
}.

Lemma extends_refl root s T fl : vm_ok s root T fl → extends root s T fl s T fl.
Proof.
  intros Hok. split; try done.
  exists []. split; [done|]. intros p. rewrite elem_of_nil. tauto.
Qed.

Lemma extends_trans root s1 T1 fl1 s2 T2 fl2 s3 T3 fl3 :
  extends root s1 T1 fl1 s2 T2 fl2 → extends root s2 T2 fl2 s3 T3 fl3 →
  extends root s1 T1 fl1 s3 T3 fl3.
Proof.
  intros [Ho1 (n1 & -> & Hp1) Hs1 Hf1] [Ho2 (n2 & -> & Hp2) Hs2 Hf2].
  split; [done | | by transitivity T2 |].
  - exists (n1 ++ n2). rewrite app_assoc. split; [done|]. intros p.
    rewrite Hp2, Hp1, elem_of_app. tauto.
  - eapply mframe_trans; eauto. intros p Hp. cbn beta in *. rewrite Hp2. by left.
Qed.

Lemma grows_refl root s T fl : vm_ok s root T fl → grows root s T fl s T fl.
Proof. intros Hok. split; [by apply extends_refl | done..]. Qed.

Lemma grows_trans root s1 T1 fl1 s2 T2 fl2 s3 T3 fl3 :
  grows root s1 T1 fl1 s2 T2 fl2 → grows root s2 T2 fl2 s3 T3 fl3 →
  grows root s1 T1 fl1 s3 T3 fl3.
Proof.
  intros [Hx1 Hk1 Hl1] [Hx2 Hk2 Hl2]. pose proof (x_sub _ _ _ _ _ _ _ Hx1) as Hsub.
  split; [by eapply extends_trans | |].
  - intros p l i Hp Hi Hv. pose proof (Hk1 p l i Hp Hi Hv) as E. rewrite <- E.
    eapply Hk2; [by eapply lookup_weaken | done | by rewrite E].
  - intros lv pt va Hpt. rewrite (Hl2 lv pt va), Hl1; [done..|]. by eapply lookup_weaken.
Qed.

(** The store of [walk] that attaches a fresh zeroed page [q] below entry [i] of [p]. *)
Lemma grows_attach root s T q fl p l i m1 h :
  vm_ok s root T (q :: fl) → kinv (mkKmem m1 h) fl → page_ok q → (q ∉ fl) →
  mframe (λ x, x = q) (k_mem s) m1 → (∀ j, 0 ≤ j < 512 → pte m1 q j = 0) →
  T !! p = Some (S l) → 0 ≤ i < 512 → has (pte (k_mem s) p i) PTE_V = false →
  let m2 := st64 m1 (p + 8 * i) (mkpte q 0) in
  grows root s T (q :: fl) (mkKmem m2 h) (<[q:=l]> T) fl ∧ pte m2 p i = mkpte q 0.
Proof.
  intros [Hk Hwf Hnf] Hk1 Hq Hni Hfq Hzero Hp Hi Hinv m2.
  assert (Hq0 : T !! q = None) by (apply Hnf; constructor).
  assert (Hpal : p mod PGSIZE = 0) by (by eapply wf_page_aligned).
  assert (Hsame : ∀ p' l' j, T !! p' = Some l' → 0 ≤ j < 512 →
    pte m1 p' j = pte (k_mem s) p' j).
  { intros p' l' j Hp' Hj. apply (pte_frame (λ x, x = q)); try done.
    - intros x ->. apply Hq.
    - by eapply wf_page_aligned.
    - intros ->. congruence. }
  assert (Hfp : mframe (λ x, x = p) m1 m2) by (apply mframe_st64; unfold PGSIZE; lia).
  split; [split; [split|..]|]; cbn [k_mem].
  - split; cbn [k_mem].
    + apply (kinv_frame (λ x, x = p) m1); [done..| |].
      * by intros x ->.
      * intros x Hx ->. rewrite Hnf in Hp by (by constructor). done.
    + by eapply link_wf.
    + intros x Hx. rewrite lookup_insert_ne by (by intros ->). apply Hnf. by constructor.
  - exists [q]. split; [done|]. intros x. rewrite list_elem_of_singleton.
    destruct (decide (x = q)) as [->|].
    + rewrite lookup_insert_eq. split; [by right | by eexists].
    + rewrite lookup_insert_ne by done. split; [by left | by intros [?|?]].
  - by apply insert_subseteq.
  - eapply mframe_trans; [exact Hfq | exact Hfp | |]; cbn beta; intros x ->.
    + rewrite lookup_insert_eq. by eexists.
    + rewrite lookup_insert_ne by congruence. by eexists.
  - intros p' l' j Hp' Hj Hv. apply (link_old (k_mem s) m1 root T p i q l) with (l' := S l');
      try done. congruence.
  - intros lv pt va Hpt. by eapply link_lookup.
  - by eapply link_new.
Qed.

Lemma pte_zero m q :
  (∀ a, in_page q a → ld8 m a = 0) → ∀ j, 0 ≤ j < 512 → pte m q j = 0.
Proof.
  intros Hz j Hj. apply ld64_zero. intros i Hi. apply Hz. unfold in_page, PGSIZE. lia.
Qed.

Lemma write64_run a v s :
  write64 a v s = Ok (tt, mkKmem (st64 (k_mem s) a v) (k_freelist s)).
Proof. done. Qed.

(** What an allocating walk ends with: the entry's address, or null with the free
    list exhausted. *)
Definition walk_result (level : nat) (m : memory) (pt va r : Z) (fl : list Z) : Prop :=
  (r = 0 ∧ fl = []) ∨ (∃ t, leaf_table level m pt va = Some t ∧ r = t + 8 * PX 0 va).

Lemma walk_from_alloc level root s T fl pt va :
  vm_ok s root T fl → T !! pt = Some level →
  ∃ r s' T' fl', walk_from level pt va true s = Ok (r, s') ∧
    grows root s T fl s' T' fl' ∧ walk_result level (k_mem s') pt va r fl'.
Proof.
  revert s T fl pt. induction level as [|l IH]; intros s T fl pt Hok Hpt.
  { exists (pt + 8 * PX 0 va), s, T, fl. cbn [walk_from leaf_table].
    split; [done|]. split; [by apply grows_refl|]. right. by exists pt. }
  assert (Hi : 0 ≤ PX (Z.of_nat (S l)) va < 512) by (apply PX_range; lia).
  cbn [walk_from]. unfold read64 at 1. rewrite bind_gets.
  fold (pte (k_mem s) pt (PX (Z.of_nat (S l)) va)).
  destruct (has (pte _ _ _) _) eqn:Hv.
  - destruct (wf_child _ _ _ (vo_wf _ _ _ _ Hok) _ _ _ Hpt Hi Hv) as [Hc _].
    destruct (IH s T fl _ Hok Hc) as (r & s' & T' & fl' & Hrun & Hg & Hres).
    exists r, s', T', fl'. split_and!; [done..|].
    unfold walk_result. cbn [leaf_table].
    by rewrite (g_keep _ _ _ _ _ _ _ Hg _ _ _ Hpt Hi Hv), Hv.
  - cbn [negb]. destruct fl as [|q fl].
    { exists 0, s, T, []. rewrite (bind_ok _ _ _ _ _ (kalloc_empty s (vo_k _ _ _ _ Hok))).
      split_and!; [done | by apply grows_refl | by left]. }
    destruct (kalloc_zeroed s q fl (vo_k _ _ _ _ Hok))
      as (s1 & [m2 h2] & Hka & Hms & Hk2 & Hq & Hni & Hf & Hz).
    run Hka. rewrite (proj2 (Z.eqb_neq q 0) (page_ok_nonzero q Hq)).
    run Hms. clear Hka Hms. rewrite link_pte, (bind_ok _ _ _ _ _ (write64_run _ _ _)).
    cbn [k_mem k_freelist] in *.
    destruct (grows_attach root s T q fl pt l _ m2 h2 Hok Hk2 Hq Hni Hf
                (pte_zero _ _ Hz) Hpt Hi Hv) as [Hg E].
    destruct (IH _ _ fl q (x_ok _ _ _ _ _ _ _ (g_ext _ _ _ _ _ _ _ Hg)) (lookup_insert_eq _ _ _))
      as (r & s' & T' & fl' & Hrun & Hg' & Hres).
    exists r, s', T', fl'. split; [done|]. split; [by eapply grows_trans|].
    unfold walk_result. cbn [leaf_table].
    assert (Hpt' : <[q:=l]> T !! pt = Some (S l)).
    { rewrite lookup_insert_ne; [done|]. intros ->.
      rewrite (vo_free _ _ _ _ Hok) in Hpt by constructor. done. }
    rewrite (g_keep _ _ _ _ _ _ _ Hg' _ _ _ Hpt' Hi); cbn [k_mem];
      rewrite E, has_V_mkpte; [|done]. by rewrite PTE2PA_link.
Qed.

Lemma walk_alloc root s T fl va :
  vm_ok s root T fl → va < MAXVA →
  ∃ r s' T' fl', walk root va true s = Ok (r, s') ∧
    grows root s T fl s' T' fl' ∧ walk_result 2 (k_mem s') root va r fl'.
Proof.
  intros Hok Hva. unfold walk. destruct (Z.leb_spec MAXVA va); [lia|].
  apply walk_from_alloc; [done|]. apply (vo_wf _ _ _ _ Hok).
Qed.

(** ** mappages *)

(** Storing a leaf entry through the address [walk] returned. *)
Lemma extends_leaf root s T fl t va v :
  vm_ok s root T fl → 0 ≤ va < MAXVA → 0 ≤ v < 2 ^ 64 →
  leaf_table 2 (k_mem s) root va = Some t →
  extends root s T fl (mkKmem (st64 (k_mem s) (t + 8 * PX 0 va) v) (k_freelist s)) T fl.
Proof.
  intros [Hk Hwf Hnf] Hva Hv Ht.
  pose proof (leaf_level (k_mem s) root T t va Hwf Ht) as Hl.
  assert (Hf : mframe (λ x, x = t) (k_mem s) (st64 (k_mem s) (t + 8 * PX 0 va) v)).
  { pose proof (PX_range 0 va ltac:(lia)). apply mframe_st64; unfold PGSIZE; lia. }
  split; cbn [k_mem]; [split; cbn [k_mem] | | done |].
  - destruct s as [m h]. apply (kinv_frame (λ x, x = t) m); [done..| |].
    + intros x ->. by eapply wf_page_aligned.
    + intros x Hx ->. rewrite (Hnf t Hx) in Hl. done.
  - by eapply leaf_wf.
  - done.
  - exists []. split; [done|]. intros p. rewrite elem_of_nil. tauto.
  - eapply mframe_mono; [exact Hf|]. intros p ->. by eexists.
Qed.

(** The mapping after [k] pages were mapped from [va] to [pa]. *)
Definition maps (m : memory) (root va pa perm k : Z) (va' : Z) : option Z :=
  if decide (va ≤ va' < va + k * PGSIZE)
  then Some (mkpte (pa + (PGROUNDDOWN va' - va)) perm) else pt_lookup m root va'.

Lemma maps_0 m root va pa perm va' : maps m root va pa perm 0 va' = pt_lookup m root va'.
Proof. unfold maps. destruct (decide _); [lia | done]. Qed.

(** One page more at the front. *)
Lemma maps_S m m2 root va pa perm k va' :
  va mod PGSIZE = 0 → 0 ≤ k →
  pt_lookup m2 root va' = maps m root va pa perm 1 va' →
  maps m2 root (va + PGSIZE) (pa + PGSIZE) perm k va' = maps m root va pa perm (1 + k) va'.
Proof.
  intros Hal Hk E. unfold maps in *. unfold PGSIZE in *.
  destruct (decide (va + 4096 ≤ va' < va + 4096 + k * 4096)).
  - destruct (decide (va ≤ va' < va + (1 + k) * 4096)); [|lia]. do 2 f_equal. lia.
  - rewrite E. destruct (decide (va ≤ va' < va + 1 * 4096)),
      (decide (va ≤ va' < va + (1 + k) * 4096)); done || lia.
Qed.

Lemma maps_1_page m m2 root va pa perm va' :
  va mod PGSIZE = 0 →
  pt_lookup m2 root va' =
    (if decide (va' / PGSIZE = va / PGSIZE) then Some (mkpte pa perm)
     else pt_lookup m root va') →
  pt_lookup m2 root va' = maps m root va pa perm 1 va'.
Proof.
  intros Hal ->. unfold maps. rewrite PGROUNDDOWN_eq. unfold PGSIZE in *.
  destruct (decide (va' / 4096 = va / 4096)), (decide (va ≤ va' < va + 1 * 4096));
    try done; try (exfalso; zdiv).
  do 2 f_equal. zdiv.
Qed.

(** One iteration of [mappages] on an unmapped page: it maps the page or finds the
    free list exhausted. *)
Lemma map_step root s T fl va pa perm :
  vm_ok s root T fl → va mod PGSIZE = 0 → 0 ≤ va < MAXVA → pa_ok pa → perm_ok perm →
  pt_lookup (k_mem s) root va = None →
  ∃ r s1 T1 fl1, walk root va true s = Ok (r, s1) ∧ extends root s T fl s1 T1 fl1 ∧
    (∀ va', pt_lookup (k_mem s1) root va' = pt_lookup (k_mem s) root va') ∧
    ((r = 0 ∧ fl1 = []) ∨
     (r ≠ 0 ∧ has (ld64 (k_mem s1) r) PTE_V = false ∧
      let s2 := mkKmem (st64 (k_mem s1) r (mkpte pa perm)) (k_freelist s1) in
      extends root s1 T1 fl1 s2 T1 fl1 ∧
      ∀ va', 0 ≤ va' < 2 ^ 39 →
        pt_lookup (k_mem s2) root va' = maps (k_mem s) root va pa perm 1 va')).
Proof.
  intros Hok Hal Hva Hpa Hperm Hnone.
  destruct (walk_alloc root s T fl va Hok ltac:(lia)) as (r & s1 & T1 & fl1 & Hrun & Hg & Hres).
  exists r, s1, T1, fl1. split; [done|]. split; [apply Hg|].
  pose proof (g_ext _ _ _ _ _ _ _ Hg) as [Hok1 _ _ _].
  assert (Hsame : ∀ va', pt_lookup (k_mem s1) root va' = pt_lookup (k_mem s) root va').
  { intros va'. apply (g_lookup _ _ _ _ _ _ _ Hg 2). apply (vo_wf _ _ _ _ Hok). }
  split; [done|]. destruct Hres as [Hz | (t & Ht & ->)]; [by left|]. right.
  pose proof (mkpte_range pa perm Hpa Hperm) as Hv.
  pose proof (vo_wf _ _ _ _ Hok1) as Hwf1.
  split_and!.
  - apply Z.eqb_neq. eapply pte_addr_nonzero; [done | eexists; by eapply leaf_level | apply PX_range; lia].
  - rewrite <- Hsame in Hnone. unfold pt_lookup in Hnone.
    rewrite lookup_from_leaf, Ht in Hnone. simpl in Hnone. fold (pte (k_mem s1) t (PX 0 va)).
    by destruct (has (pte _ _ _) _).
  - split; [by apply extends_leaf|]. intros va' Hva'. apply maps_1_page; [done|]. rewrite <- Hsame. cbn [k_mem].
    rewrite (leaf_lookup (k_mem s1) root T1 t va) by done. by rewrite has_V_mkpte.
Qed.

Lemma mappages_loop_ok n root s T fl va pa perm last :
  vm_ok s root T fl → va mod PGSIZE = 0 → 0 ≤ va → (0 < n)%nat →
  va + Z.of_nat n * PGSIZE ≤ MAXVA → last = va + (Z.of_nat n - 1) * PGSIZE →
  pa mod PGSIZE = 0 → 0 ≤ pa → pa + Z.of_nat n * PGSIZE ≤ 2 ^ 56 → perm_ok perm →
  (∀ va', va ≤ va' < va + Z.of_nat n * PGSIZE → pt_lookup (k_mem s) root va' = None) →
  ∃ r s' T' fl' k,
    mappages_loop n root va last pa perm s = Ok (r, s') ∧
    extends root s T fl s' T' fl' ∧
    (∀ va', 0 ≤ va' < 2 ^ 39 →
       pt_lookup (k_mem s') root va' = maps (k_mem s) root va pa perm k va') ∧
    ((r = 0 ∧ k = Z.of_nat n) ∨ (r = err ∧ 0 ≤ k < Z.of_nat n ∧ fl' = [])).
Proof.
  assert (HM : MAXVA = 2 ^ 38) by done.
  revert s T fl va pa. induction n as [|n IH];
    intros s T fl va pa Hok Hal Hva Hn Hmax Hlast Hpal Hpa Hpmax Hperm Hnone; [lia|].
  destruct (map_step root s T fl va pa perm Hok Hal) as
    (r & s1 & T1 & fl1 & Hrun & Hx1 & Hsame & Hres);
    [unfold PGSIZE in *; lia | unfold pa_ok, PGSIZE in *; lia | done
    | apply Hnone; unfold PGSIZE; lia |].
  cbn [mappages_loop]. run Hrun. destruct Hres as [[-> ->]|(Hnz & Hinv & Hx2 & Hmap)].
  { exists err, s1, T1, [], 0. split_and!; [done.. | |].
    - intros va' _. by rewrite maps_0.
    - right. split_and!; lia || done. }
  rewrite (proj2 (Z.eqb_neq r 0) Hnz). unfold read64. rewrite bind_gets, Hinv.
  rewrite (bind_ok _ _ _ _ _ (write64_run _ _ _)). set (s2 := mkKmem _ _) in *.
  destruct (Z.eqb_spec va last) as [E|E].
  { exists 0, s2, T1, fl1, 1. split; [done|]. split; [by eapply extends_trans|].
    split; [done|]. left. unfold PGSIZE in *. lia. }
  rewrite !u64_small by (unfold PGSIZE in *; lia).
  destruct (IH s2 T1 fl1 (va + PGSIZE) (pa + PGSIZE)) as
    (r' & s' & T' & fl' & k & Hrun' & Hx' & Hmap' & Hend);
    try (done || apply Hx2 || (unfold PGSIZE in *; lia || zdiv)).
  { intros va' Hr. rewrite Hmap by (unfold PGSIZE in *; lia). unfold maps.
    destruct (decide _); [unfold PGSIZE in *; lia|]. apply Hnone. unfold PGSIZE in *. lia. }
  exists r', s', T', fl', (1 + k). split_and!; [done | | |].
  - eapply extends_trans; [exact Hx1|]. by eapply extends_trans.
  - intros va' Hr. rewrite Hmap' by done. apply maps_S; [done | lia | by apply Hmap].
  - destruct Hend as [[-> ->]|(-> & Hk & ->)]; [left; lia | right; split_and!; done || lia].
Qed.

Lemma mappages_ok root s T fl va size pa perm :
  vm_ok s root T fl → va mod PGSIZE = 0 → size mod PGSIZE = 0 → 0 ≤ va → 0 < size →
  va + size ≤ MAXVA → pa mod PGSIZE = 0 → 0 ≤ pa → pa + size ≤ 2 ^ 56 → perm_ok perm →
  (∀ va', va ≤ va' < va + size → pt_lookup (k_mem s) root va' = None) →
  ∃ r s' T' fl' k,
    mappages root va size pa perm s = Ok (r, s') ∧
    extends root s T fl s' T' fl' ∧
    (∀ va', 0 ≤ va' < 2 ^ 39 →
       pt_lookup (k_mem s') root va' = maps (k_mem s) root va pa perm k va') ∧
    ((r = 0 ∧ k * PGSIZE = size) ∨ (r = err ∧ 0 ≤ k * PGSIZE < size ∧ fl' = [])).
Proof.
  intros Hok Hal Hsal Hva Hsz Hmax Hpal Hpa Hpmax Hperm Hnone.
  assert (HM : MAXVA = 2 ^ 38) by done.
  assert (Hsize : size = Z.of_nat (Z.to_nat (size / PGSIZE)) * PGSIZE)
    by (unfold PGSIZE in *; zdiv).
  unfold mappages. rewrite Hal, Hsal, (proj2 (Z.eqb_neq size 0)) by lia. cbn [negb Z.eqb].
  set (n := Z.to_nat (size / PGSIZE)) in *.
  destruct (mappages_loop_ok n root s T fl va pa perm (u64 (va + size - PGSIZE)))
    as (r & s' & T' & fl' & k & Hrun & Hx & Hmap & Hend);
    try (done || unfold PGSIZE in *; lia).
  - rewrite u64_small by (unfold PGSIZE in *; lia). rewrite Hsize. lia.
  - intros va' Hr. apply Hnone. lia.
  - exists r, s', T', fl', k. split_and!; [done..|].
    destruct Hend as [[-> ->]|(-> & Hk & ->)]; [left | right]; split_and!;
      done || unfold PGSIZE in *; lia.
Qed.

(** A single page. *)
Lemma mappages_page root s T fl va pa perm :
  vm_ok s root T fl → va mod PGSIZE = 0 → 0 ≤ va → va + PGSIZE ≤ MAXVA →
  pa_ok pa → perm_ok perm →
  (∀ va', va ≤ va' < va + PGSIZE → pt_lookup (k_mem s) root va' = None) →
  ∃ r s' T' fl', mappages root va PGSIZE pa perm s = Ok (r, s') ∧
    extends root s T fl s' T' fl' ∧
    ((r = 0 ∧ ∀ va', 0 ≤ va' < 2 ^ 39 → pt_lookup (k_mem s') root va' =
        if decide (va ≤ va' < va + PGSIZE) then Some (mkpte pa perm)
        else pt_lookup (k_mem s) root va') ∨
     (r = err ∧ fl' = [] ∧ ∀ va', 0 ≤ va' < 2 ^ 39 →
        pt_lookup (k_mem s') root va' = pt_lookup (k_mem s) root va')).
Proof.
  intros Hok Hal Hva Hmax [Hpal Hpa] Hperm Hnone.
  destruct (mappages_ok root s T fl va PGSIZE pa perm) as
    (r & s' & T' & fl' & k & Hrun & Hx & Hmap & Hend); try (done || unfold PGSIZE in *; zdiv).
  exists r, s', T', fl'. split_and!; [done..|].
  destruct Hend as [[-> Hk]|(-> & Hk & ->)]; [left | right].
  - split; [done|]. intros va' Hva'. rewrite Hmap by done. unfold maps. rewrite Hk.
    destruct (decide _); [|done]. do 2 f_equal. rewrite PGROUNDDOWN_eq. unfold PGSIZE in *. zdiv.
  - assert (k = 0) as -> by (unfold PGSIZE in *; lia). split_and!; [done..|].
    intros va' Hva'. by rewrite Hmap, maps_0 by done.
Qed.

(** C36. [mappages] on an aligned, unmapped range of the address space: it never
    panics; when it returns 0 every address of the range translates to the
    corresponding physical page with the permissions asked for, and every other
    translation is unchanged; when it returns -1 the allocator is exhausted and a
    prefix of the range is mapped.  Either way the table stays a well-formed tree
    whose new pages came off the free list, and memory outside the table's pages is
    unchanged. *)
Theorem mappages_spec root s T fl va size pa perm :
  vm_ok s root T fl → va mod PGSIZE = 0 → size mod PGSIZE = 0 → 0 ≤ va → 0 < size →
  va + size ≤ MAXVA → pa mod PGSIZE = 0 → 0 ≤ pa → pa + size ≤ 2 ^ 56 → perm_ok perm →
  (∀ va', va ≤ va' < va + size → pt_lookup (k_mem s) root va' = None) →
  ∃ r s' T' fl' k,
    mappages root va size pa perm s = Ok (r, s') ∧
    extends root s T fl s' T' fl' ∧
    (∀ va', 0 ≤ va' < 2 ^ 39 →
       pt_lookup (k_mem s') root va' = maps (k_mem s) root va pa perm k va') ∧
    ((r = 0 ∧ k * PGSIZE = size) ∨ (r = err ∧ 0 ≤ k * PGSIZE < size ∧ fl' = [])).
Proof. intros. by apply mappages_ok. Qed.

End VmTable.
