(* ===== verification/VmUser.v ===== *)
(** * VmUser: growing, shrinking and freeing a user address space

    The theorems about [uvmunmap], [uvmalloc], [uvmdealloc], [freewalk] and [uvmfree]
    of src/kernel/vm.c, on top of VmTable.v.  Pages are conserved: every page is on
    the free list, in the table's tree, or mapped. *)

From S2P Require Import Prelude Mem Layout Kalloc Vm VmTable.
Import CString.

Local Open Scope Z_scope.
#[local] Opaque memset memmove st64 ld64 PX mkpte kalloc kfree.

(** The pages of the tree and the free pages. *)
Definition all_pages (T : gmap Z nat) (fl : list Z) : list Z := (map_to_list T).*1 ++ fl.

Section VmUser.
  Context {K : KernelImage} {KOk : KernelImageOk K}.

(** ** Conservation *)

Lemma elem_of_all_pages T fl p : p ∈ all_pages T fl ↔ is_Some (T !! p) ∨ p ∈ fl.
Proof.
  unfold all_pages. rewrite elem_of_app, list_elem_of_fmap. split.
  - intros [([q l] & -> & Hq)|]; [left; exists l; by apply elem_of_map_to_list | by right].
  - intros [[l Hl]|]; [left; exists (p, l); by rewrite elem_of_map_to_list | by right].
Qed.

Lemma NoDup_all_pages T fl : NoDup fl → tables_not_free T fl → NoDup (all_pages T fl).
Proof.
  intros Hd Hnf. apply NoDup_app. split_and!; [apply NoDup_fst_map_to_list | | done].
  intros p Hp Hfl. apply Hnf in Hfl. apply list_elem_of_fmap in Hp as ([q l] & -> & Hq).
  apply elem_of_map_to_list in Hq. simpl in Hfl. congruence.
Qed.

Lemma all_pages_cons T fl q : all_pages T (q :: fl) ≡ₚ q :: all_pages T fl.
Proof. unfold all_pages. by rewrite <- Permutation_middle. Qed.

Lemma all_pages_app T ps fl : all_pages T (ps ++ fl) ≡ₚ ps ++ all_pages T fl.
Proof. unfold all_pages. rewrite !app_assoc. by rewrite (Permutation_app_comm ps). Qed.

Lemma vm_ok_nodup s root T fl : vm_ok s root T fl → NoDup (all_pages T fl).
Proof. intros [[_ Hd _] _ Hnf]. by apply NoDup_all_pages. Qed.

(** Extending the table moves pages from the free list into the tree. *)
Lemma extends_pages root s T fl s' T' fl' :
  vm_ok s root T fl → extends root s T fl s' T' fl' → all_pages T' fl' ≡ₚ all_pages T fl.
Proof.
  intros Hok [Hok' (news & -> & Hnews) _ _].
  apply NoDup_Permutation; eauto using vm_ok_nodup. intros p.
  rewrite !elem_of_all_pages, Hnews, elem_of_app. tauto.
Qed.

(** Memory may change outside the tree and the free pages. *)
Lemma vm_ok_frame (ps : Z → Prop) m m' h root T fl :
  vm_ok (mkKmem m h) root T fl → mframe ps m m' → (∀ p, ps p → p mod PGSIZE = 0) →
  (∀ p, ps p → T !! p = None) → (∀ p, p ∈ fl → ¬ ps p) → vm_ok (mkKmem m' h) root T fl.
Proof.
  intros [Hk Hwf Hnf] Hf Hal HT Hfl. split; cbn [k_mem] in *; [|by eapply pt_wf_frame | done].
  by eapply kinv_frame.
Qed.

(** [kfree] of a page the table does not use. *)
Lemma vm_kfree root s T fl q :
  vm_ok s root T fl → page_ok q → (q ∉ fl) → T !! q = None →
  ∃ s', kfree q s = Ok (tt, s') ∧ vm_ok s' root T (q :: fl) ∧
    mframe (λ x, x = q) (k_mem s) (k_mem s').
Proof.
  intros [Hk Hwf Hnf] Hq Hni HT.
  destruct (kfree_ok s fl q Hk Hq Hni) as (s' & Hrun & Hk' & Hf).
  exists s'. split_and!; [done | | done]. split; [done | |].
  - eapply (pt_wf_frame (λ x, x = q)); [exact Hf | | | done].
    + intros p ->. apply Hq.
    + by intros p ->.
  - intros p [->|Hp]%elem_of_cons; [done | by apply Hnf].
Qed.

(** ** uvmunmap *)

(** The pages from [va] on are mapped by the leaf entries [vs]. *)
Definition mapped (m : memory) (root va : Z) (vs : list Z) : Prop :=
  ∀ i v, vs !! i = Some v →
    pt_lookup m root (va + Z.of_nat i * PGSIZE) = Some v ∧ PTE_FLAGS v ≠ PTE_V.

(** The pages behind [vs] belong to the address space alone. *)
Record owned (T : gmap Z nat) (fl : list Z) (vs : list Z) : Prop := {
  ow_pages : Forall page_ok (PTE2PA <$> vs);
  ow_nodup : NoDup (PTE2PA <$> vs);
  ow_free p : p ∈ PTE2PA <$> vs → (p ∉ fl) ∧ T !! p = None;
}.

(** The free list after unmapping [vs]. *)
Definition released (do_free : bool) (vs fl : list Z) : list Z :=
  if do_free then rev (PTE2PA <$> vs) ++ fl else fl.

(** The mapping after the [k] pages from [va] on were removed. *)
Definition unmaps (m : memory) (root va k va' : Z) : option Z :=
  if decide (va ≤ va' < va + k * PGSIZE) then None else pt_lookup m root va'.

Lemma unmaps_0 m root va va' : unmaps m root va 0 va' = pt_lookup m root va'.
Proof. unfold unmaps. destruct (decide _); [lia | done]. Qed.

Lemma unmaps_S m m2 root va k va' :
  va mod PGSIZE = 0 → 0 ≤ k →
  pt_lookup m2 root va' = (if decide (va' / PGSIZE = va / PGSIZE) then None
                           else pt_lookup m root va') →
  unmaps m2 root (va + PGSIZE) k va' = unmaps m root va (1 + k) va'.
Proof.
  intros Hal Hk E. unfold unmaps. unfold PGSIZE in *.
  destruct (decide (va + 4096 ≤ va' < va + 4096 + k * 4096)),
    (decide (va ≤ va' < va + (1 + k) * 4096)); try done; try lia; rewrite E;
    destruct (decide _); try done; exfalso; zdiv.
Qed.

(** A valid leaf entry is where [walk] finds it. *)
Lemma walk_mapped_wf s root T va v :
  pt_wf (k_mem s) root T → 0 ≤ va < MAXVA → pt_lookup (k_mem s) root va = Some v →
  ∃ t, leaf_table 2 (k_mem s) root va = Some t ∧ T !! t = Some 0%nat ∧
    walk root va false s = Ok (t + 8 * PX 0 va, s) ∧ t + 8 * PX 0 va ≠ 0 ∧
    ld64 (k_mem s) (t + 8 * PX 0 va) = v ∧ has v PTE_V = true.
Proof.
  intros Hwf Hva Hlk. rewrite walk_noalloc by lia. unfold pt_lookup in Hlk.
  rewrite lookup_from_leaf in Hlk. destruct (leaf_table 2 (k_mem s) root va) as [t|] eqn:Ht;
    [simpl in Hlk | done].
  pose proof (leaf_level (k_mem s) root T t va Hwf Ht) as Hl.
  destruct (has (pte (k_mem s) t _) _) eqn:Hv; [|done]. injection Hlk as <-.
  exists t. split_and!; try done. apply Z.eqb_neq.
  eapply pte_addr_nonzero; [done | by eexists | apply PX_range; lia].
Qed.

Lemma walk_mapped s root T fl va v :
  vm_ok s root T fl → 0 ≤ va < MAXVA → pt_lookup (k_mem s) root va = Some v →
  ∃ t, leaf_table 2 (k_mem s) root va = Some t ∧ T !! t = Some 0%nat ∧
    walk root va false s = Ok (t + 8 * PX 0 va, s) ∧ t + 8 * PX 0 va ≠ 0 ∧
    ld64 (k_mem s) (t + 8 * PX 0 va) = v ∧ has v PTE_V = true.
Proof. intros Hok. apply walk_mapped_wf, (vo_wf _ _ _ _ Hok). Qed.

Lemma owned_tail T fl v vs : owned T fl (v :: vs) →
  page_ok (PTE2PA v) ∧ (PTE2PA v ∉ fl) ∧ T !! PTE2PA v = None ∧
  owned T (PTE2PA v :: fl) vs ∧ owned T fl vs.
Proof.
  intros [Hp Hd Hf]. cbn in *. apply Forall_cons in Hp as [Hp Hps].
  apply NoDup_cons in Hd as [Hni Hd]. destruct (Hf (PTE2PA v)) as [H1 H2]; [by constructor|].
  split_and!; try done; (split; [done..|]).
  - intros p Hin. destruct (Hf p) as [H3 H4]; [by constructor|]. split; [|done].
    intros [->|]%elem_of_cons; done.
  - intros p Hin. apply Hf. by constructor.
Qed.

(** One iteration: the entry's page is released and the entry cleared. *)
Lemma unmap_step root s T fl va v (do_free : bool) :
  vm_ok s root T fl → 0 ≤ va < MAXVA → pt_lookup (k_mem s) root va = Some v →
  (do_free = true → page_ok (PTE2PA v) ∧ (PTE2PA v ∉ fl) ∧ T !! PTE2PA v = None) →
  ∃ t s1, walk root va false s = Ok (t, s) ∧ t ≠ 0 ∧ ld64 (k_mem s) t = v ∧
    has v PTE_V = true ∧
    (if do_free then kfree (PTE2PA v) else mret tt) s = Ok (tt, s1) ∧
    let s2 := mkKmem (st64 (k_mem s1) t 0) (k_freelist s1) in
    vm_ok s2 root T (released do_free [v] fl) ∧
    mframe (λ p, is_Some (T !! p) ∨ (do_free = true ∧ p = PTE2PA v)) (k_mem s) (k_mem s2) ∧
    (∀ va', 0 ≤ va' < 2 ^ 39 → pt_lookup (k_mem s2) root va' =
       if decide (va' / PGSIZE = va / PGSIZE) then None else pt_lookup (k_mem s) root va').
Proof.
  intros Hok Hva Hlk Hfree.
  destruct (walk_mapped s root T fl va v Hok Hva Hlk) as (t & Ht & Hl & Hrun & Hnz & Hld & Hv).
  assert (∃ s1, (if do_free then kfree (PTE2PA v) else mret tt) s = Ok (tt, s1) ∧
    vm_ok s1 root T (released do_free [v] fl) ∧
    mframe (λ p, do_free = true ∧ p = PTE2PA v) (k_mem s) (k_mem s1)) as (s1 & Hk & Hok1 & Hf1).
  { destruct do_free; [|by exists s]. destruct (Hfree eq_refl) as (Hq & Hni & HT).
    destruct (vm_kfree root s T fl _ Hok Hq Hni HT) as (s1 & ? & ? & Hf). exists s1.
    split_and!; [done..|]. eapply mframe_mono; [exact Hf|]. by intros p ->. }
  assert (Hps : ∀ p, do_free = true ∧ p = PTE2PA v → p mod PGSIZE = 0 ∧ T !! p = None).
  { intros p [E ->]. destruct (Hfree E) as ([? _] & _ & ?). done. }
  exists (t + 8 * PX 0 va), s1. do 5 (split; [done|]). intros s2.
  assert (Ht1 : leaf_table 2 (k_mem s1) root va = Some t).
  { rewrite <- Ht. eapply leaf_table_ext; [|apply Hok | apply Hok]. intros p l i Hp Hi.
    eapply pte_frame; [exact Hf1 | apply Hps | | | done].
    - eapply wf_page_aligned; [apply Hok | done].
    - intros Hc. apply Hps in Hc as [_ Hc]. congruence. }
  pose proof (extends_leaf root s1 T _ t va 0 Hok1 Hva ltac:(lia) Ht1) as [Hok2 _ _ Hf2].
  split_and!; [done | |].
  - eapply mframe_trans; [exact Hf1 | exact Hf2 | |]; cbn beta; auto.
  - intros va' Hva'. subst s2. cbn [k_mem].
    rewrite (leaf_lookup (k_mem s1) root T t va 0 (vo_wf _ _ _ _ Hok1) Hva Ht1) by (done || lia).
    destruct (decide _); [done|]. eapply pt_lookup_frame; [exact Hf1 | apply Hps | apply Hps|].
    apply Hok.
Qed.

Lemma mapped_tail m m2 root va v vs :
  va mod PGSIZE = 0 → 0 ≤ va → va + Z.of_nat (S (length vs)) * PGSIZE ≤ MAXVA →
  mapped m root va (v :: vs) →
  (∀ va', 0 ≤ va' < 2 ^ 39 → pt_lookup m2 root va' =
     if decide (va' / PGSIZE = va / PGSIZE) then None else pt_lookup m root va') →
  mapped m2 root (va + PGSIZE) vs.
Proof.
  intros Hal Hva Hmax Hm Hlk i w Hi. pose proof (lookup_lt_Some _ _ _ Hi) as Hlt.
  destruct (Hm (S i) w Hi) as [Hw Hfl]. unfold PGSIZE in *. rewrite MAXVA_eq in Hmax. rewrite Hlk by lia.
  destruct (decide _) as [E|_]; [exfalso; zdiv|]. split; [|done]. rewrite <- Hw. f_equal. lia.
Qed.

Lemma uvmunmap_loop_ok root T (do_free : bool) vs : ∀ s fl va fuel limit,
  vm_ok s root T fl → va mod PGSIZE = 0 → 0 ≤ va →
  va + Z.of_nat (length vs) * PGSIZE ≤ MAXVA →
  limit = va + Z.of_nat (length vs) * PGSIZE → (length vs < fuel)%nat →
  mapped (k_mem s) root va vs → (do_free = true → owned T fl vs) →
  ∃ s', uvmunmap_loop fuel root va limit do_free s = Ok (tt, s') ∧
    vm_ok s' root T (released do_free vs fl) ∧
    mframe (λ p, is_Some (T !! p) ∨ (do_free = true ∧ p ∈ PTE2PA <$> vs)) (k_mem s) (k_mem s') ∧
    (∀ va', 0 ≤ va' < 2 ^ 39 → pt_lookup (k_mem s') root va' =
       unmaps (k_mem s) root va (Z.of_nat (length vs)) va').
Proof.
  assert (HM : MAXVA = 2 ^ 38) by done.
  induction vs as [|v vs IH]; intros s fl va [|fuel] limit Hok Hal Hva Hmax Hlim Hfu Hm How;
    cbn [length] in *; try lia; cbn [uvmunmap_loop].
  { destruct (Z.ltb_spec va limit); [unfold PGSIZE in *; lia|]. exists s.
    split_and!; [done | by destruct do_free | done |]. intros va' _. by rewrite unmaps_0. }
  destruct (Z.ltb_spec va limit); [|unfold PGSIZE in *; lia].
  destruct (Hm 0%nat v eq_refl) as [Hlk Hfl]. rewrite Z.add_0_r in Hlk.
  destruct (unmap_step root s T fl va v do_free) as
    (t & s1 & Hrun & Hnz & Hld & Hv & Hk & Hok2 & Hf2 & Hlk2);
    [done | unfold PGSIZE in *; lia | done | |].
  { intros E. destruct (owned_tail _ _ _ _ (How E)) as (? & ? & ? & _). done. }
  run Hrun. rewrite (proj2 (Z.eqb_neq t 0) Hnz). unfold read64. rewrite bind_gets, Hld, Hv.
  cbn [negb]. rewrite (proj2 (Z.eqb_neq _ _) Hfl). run Hk.
  rewrite (bind_ok _ _ _ _ _ (write64_run _ _ _)). set (s2 := mkKmem _ _) in *.
  rewrite u64_small by (unfold PGSIZE in *; lia).
  destruct (IH s2 (released do_free [v] fl) (va + PGSIZE) fuel limit)
    as (s' & Hrun' & Hok' & Hf' & Hlk'); try (done || unfold PGSIZE in *; lia || zdiv).
  { eapply mapped_tail; [done.. | exact Hm | exact Hlk2]. }
  { intros E. rewrite E. by apply owned_tail, How. }
  exists s'. split_and!; [done | | |].
  - destruct do_free; [|done]. unfold released in *. cbn in *. by rewrite <- app_assoc.
  - eapply mframe_trans; [exact Hf2 | exact Hf' | |]; cbn beta; intros p [?|[E Hp]]; auto;
      right; (split; [done|]); cbn; [subst p; by constructor | by constructor].
  - intros va' Hr. rewrite Hlk' by done. rewrite (unmaps_S (k_mem s)) by (auto || lia).
    f_equal. lia.
Qed.

(** [uvmunmap] of a range whose pages are all mapped never panics: it removes
    exactly the translations of the range, leaves every other one alone and, with
    [do_free], puts each page that was mapped on the free list, once. *)
Lemma uvmunmap_ok root s T fl va vs (do_free : bool) :
  vm_ok s root T fl → va mod PGSIZE = 0 → 0 ≤ va →
  va + Z.of_nat (length vs) * PGSIZE ≤ MAXVA →
  mapped (k_mem s) root va vs → (do_free = true → owned T fl vs) →
  ∃ s', uvmunmap root va (Z.of_nat (length vs)) do_free s = Ok (tt, s') ∧
    vm_ok s' root T (released do_free vs fl) ∧
    mframe (λ p, is_Some (T !! p) ∨ (do_free = true ∧ p ∈ PTE2PA <$> vs)) (k_mem s) (k_mem s') ∧
    (∀ va', 0 ≤ va' < 2 ^ 39 → pt_lookup (k_mem s') root va' =
       unmaps (k_mem s) root va (Z.of_nat (length vs)) va').
Proof.
  intros Hok Hal Hva Hmax Hm How. unfold uvmunmap. rewrite Hal. cbn [Z.eqb negb].
  assert (MAXVA = 2 ^ 38) by done.
  rewrite !u64_small by (rewrite ?u64_small; unfold PGSIZE in *; lia).
  apply uvmunmap_loop_ok; done || lia.
Qed.

Lemma PGROUNDUP_aligned a : 0 ≤ a ≤ MAXVA → a mod PGSIZE = 0 → PGROUNDUP a = a.
Proof.
  intros Ha Hm. assert (MAXVA = 2 ^ 38) by done. rewrite PGROUNDUP_eq, u64_small by lia.
  unfold PGSIZE in *. zdiv.
Qed.

Lemma PGROUNDUP_bounds a :
  0 ≤ a ≤ MAXVA →
  a ≤ PGROUNDUP a ≤ MAXVA ∧ PGROUNDUP a < a + PGSIZE ∧ PGROUNDUP a mod PGSIZE = 0.
Proof.
  intros Ha. assert (E : MAXVA = 2 ^ 38) by done. rewrite PGROUNDUP_eq, u64_small by lia.
  rewrite E in *. unfold PGSIZE in *. zdiv.
Qed.

(** ** uvmalloc *)

(** The entries that map the pages [ps], page [i] with permissions [perm i]. *)
Definition entries (perm : nat → Z) (ps : list Z) : list Z := imap (λ i p, mkpte p (perm i)) ps.

(** The address space of [s0] grown by the pages [ps] from [lo] on, page [i] with the
    contents [data i]. *)
Record grown (root lo : Z) (perm : nat → Z) (data : nat → Z → Z) (s0 : kmem) (T0 : gmap Z nat) (fl0 : list Z)
    (s : kmem) (T : gmap Z nat) (fl ps : list Z) : Prop := {
  gr_ok : vm_ok s root T fl;
  gr_pages : ps ++ all_pages T fl ≡ₚ all_pages T0 fl0;
  gr_lookup va' : 0 ≤ va' < 2 ^ 39 →
    pt_lookup (k_mem s) root va' =
    if decide (lo ≤ va' < lo + Z.of_nat (length ps) * PGSIZE)
    then entries perm ps !! Z.to_nat ((va' - lo) / PGSIZE)
    else pt_lookup (k_mem s0) root va';
  gr_data i p o : ps !! i = Some p → 0 ≤ o < PGSIZE → ld8 (k_mem s) (p + o) = data i o;
  gr_frame : mframe (λ p, p ∈ all_pages T0 fl0) (k_mem s0) (k_mem s);
}.

Section grow.
  Context (root lo hi : Z) (perm : nat → Z) (data : nat → Z → Z) (s0 : kmem) (T0 : gmap Z nat) (fl0 : list Z).
  Hypothesis Hok0 : vm_ok s0 root T0 fl0.
  Hypothesis Hlo : 0 ≤ lo.
  Hypothesis Hhi : hi ≤ MAXVA.
  Hypothesis Hnone : ∀ va', lo ≤ va' < hi → pt_lookup (k_mem s0) root va' = None.
  Hypothesis Hal : lo mod PGSIZE = 0.
  Hypothesis Hperm : ∀ i, perm_ok (perm i).
  Hypothesis Hleaf : ∀ i p, page_ok p → PTE_FLAGS (mkpte p (perm i)) ≠ PTE_V.

Lemma all_pages_ok p : p ∈ all_pages T0 fl0 → page_ok p.
Proof.
  rewrite elem_of_all_pages. destruct Hok0 as [[_ _ Hps] Hwf _]. intros [[l Hl]|Hp].
  - by apply (wf_pages _ _ _ Hwf) in Hl as [? _].
  - by eapply Forall_forall in Hps.
Qed.

Lemma entries_pa ps : Forall page_ok ps → PTE2PA <$> entries perm ps = ps.
Proof.
  intros Hps. apply list_eq. intros i. unfold entries. rewrite list_lookup_fmap, list_lookup_imap.
  destruct (ps !! i) as [p|] eqn:E; [|done]. cbn. f_equal. apply PTE2PA_mkpte; [|done].
  apply page_ok_pa_ok. by eapply Forall_lookup_1.
Qed.

Lemma grown_page_ok s T fl ps : grown root lo perm data s0 T0 fl0 s T fl ps → Forall page_ok ps.
Proof.
  intros [_ Hpg _ _ _]. apply Forall_forall. intros p Hp. apply all_pages_ok.
  rewrite <- Hpg, elem_of_app. by left.
Qed.

Lemma grown_owned s T fl ps :
  grown root lo perm data s0 T0 fl0 s T fl ps → owned T fl (entries perm ps).
Proof.
  intros Hg. pose proof (grown_page_ok _ _ _ _ Hg) as Hps.
  pose proof (vm_ok_nodup _ _ _ _ Hok0) as Hd. rewrite <- (gr_pages _ _ _ _ _ _ _ _ _ _ _ Hg) in Hd.
  apply NoDup_app in Hd as (Hd & Hdis & _).
  split; rewrite entries_pa by done; [done..|]. intros p Hp.
  specialize (Hdis p Hp). rewrite elem_of_all_pages in Hdis.
  split; [tauto|]. apply eq_None_not_Some. tauto.
Qed.

Lemma grown_mapped s T fl ps :
  grown root lo perm data s0 T0 fl0 s T fl ps → lo + Z.of_nat (length ps) * PGSIZE ≤ MAXVA →
  mapped (k_mem s) root lo (entries perm ps).
Proof.
  intros Hg Hmax i v Hi. pose proof (grown_page_ok _ _ _ _ Hg) as Hps.
  assert (Hlt : (i < length ps)%nat).
  { apply lookup_lt_Some in Hi. unfold entries in Hi. by rewrite length_imap in Hi. }
  rewrite MAXVA_eq in Hmax. rewrite (gr_lookup _ _ _ _ _ _ _ _ _ _ _ Hg) by (unfold PGSIZE in *; lia).
  destruct (decide _) as [_|Hn]; [|unfold PGSIZE in *; lia]. split.
  - rewrite <- Hi. f_equal. unfold PGSIZE. zdiv.
  - unfold entries in Hi. rewrite list_lookup_imap in Hi.
    destruct (ps !! i) as [p|] eqn:E; [|done]. injection Hi as <-. apply Hleaf.
    eapply Forall_lookup_1; eauto.
Qed.

(** Unmapping the grown part undoes the growth. *)
Lemma uvmunmap_grown s T fl ps :
  grown root lo perm data s0 T0 fl0 s T fl ps →
  lo + Z.of_nat (length ps) * PGSIZE ≤ hi →
  ∃ s' fl', uvmunmap root lo (Z.of_nat (length ps)) true s = Ok (tt, s') ∧
    grown root lo perm data s0 T0 fl0 s' T fl' [].
Proof.
  intros Hg Hmax. pose proof (grown_page_ok _ _ _ _ Hg) as Hps.
  assert (Hlen' : length (entries perm ps) = length ps) by apply length_imap.
  destruct (uvmunmap_ok root s T fl lo (entries perm ps) true) as (s' & Hrun & Hok' & Hf' & Hlk');
    rewrite ?Hlen' in *; eauto using grown_owned, grown_mapped, gr_ok, Z.le_trans.
  unfold released in Hok'. rewrite entries_pa in Hok', Hf' by done.
  exists s', (rev ps ++ fl). split; [done|].
  destruct Hg as [Hok Hpg Hlk Hz Hf]. split; [done | | | |].
  - cbn [app]. rewrite <- Hpg, all_pages_app. by rewrite <- (Permutation_rev ps).
  - intros va' Hva'. rewrite Hlk' by done. unfold unmaps.
    destruct (decide (lo ≤ va' < lo + Z.of_nat (length ps) * PGSIZE)) as [Hin|Hout].
    + destruct (decide (lo ≤ va' < lo + Z.of_nat (length []) * PGSIZE)); [cbn in *; lia|].
      symmetry. apply Hnone. lia.
    + rewrite Hlk by done. destruct (decide _); [done|].
      destruct (decide _); [cbn in *; lia | done].
  - intros i p o Hp. done.
  - eapply mframe_trans; [exact Hf | exact Hf' | done |]. cbn beta. intros p.
    rewrite <- Hpg, elem_of_app, elem_of_all_pages. intros [?|[_ ?]]; auto.
Qed.

(** [uvmdealloc] from the end of the grown part back to [lo] undoes the growth. *)
Lemma uvmdealloc_grown s T fl ps :
  grown root lo perm data s0 T0 fl0 s T fl ps →
  lo + Z.of_nat (length ps) * PGSIZE ≤ hi →
  ∃ r s' fl', uvmdealloc root (lo + Z.of_nat (length ps) * PGSIZE) lo s = Ok (r, s') ∧
    grown root lo perm data s0 T0 fl0 s' T fl' [].
Proof.
  intros Hg Hmax. assert (HM : MAXVA = 2 ^ 38) by done. unfold uvmdealloc.
  destruct ps as [|p0 ps0] eqn:Eps; [|rewrite <- Eps in *].
  { rewrite (proj2 (Z.leb_le _ _)) by (cbn [length]; lia). by exists (lo + Z.of_nat (length (@nil Z)) * PGSIZE), s, fl. }
  assert (Hlen : (0 < length ps)%nat) by (rewrite Eps; cbn; lia). clear Eps p0 ps0.
  rewrite (proj2 (Z.leb_gt _ _)) by (unfold PGSIZE in *; lia).
  rewrite !PGROUNDUP_aligned by (unfold PGSIZE in *; lia || zdiv).
  rewrite (proj2 (Z.ltb_lt _ _)) by (unfold PGSIZE in *; lia).
  replace ((lo + Z.of_nat (length ps) * PGSIZE - lo) / PGSIZE) with (Z.of_nat (length ps))
    by (unfold PGSIZE; zdiv).
  rewrite i32_small, u64_small by (unfold PGSIZE in *; lia).
  destruct (uvmunmap_grown s T fl ps Hg Hmax) as (s' & fl' & Hrun & Hg').
  run Hrun. by exists lo, s', fl'.
Qed.

(** The growth continues by [qs], with pages of the tree and the free list only. *)
Lemma grown_step s T fl ps s' T' fl' qs :
  grown root lo perm data s0 T0 fl0 s T fl ps → vm_ok s' root T' fl' →
  qs ++ all_pages T' fl' ≡ₚ all_pages T fl →
  mframe (λ p, p ∈ all_pages T fl) (k_mem s) (k_mem s') →
  (∀ i q o, qs !! i = Some q → 0 ≤ o < PGSIZE → ld8 (k_mem s') (q + o) = data (length ps + i)%nat o) →
  (∀ va', 0 ≤ va' < 2 ^ 39 → pt_lookup (k_mem s') root va' =
     let a := lo + Z.of_nat (length ps) * PGSIZE in
     if decide (a ≤ va' < a + Z.of_nat (length qs) * PGSIZE)
     then entries (λ i, perm (length ps + i)%nat) qs !! Z.to_nat ((va' - a) / PGSIZE) else pt_lookup (k_mem s) root va') →
  grown root lo perm data s0 T0 fl0 s' T' fl' (ps ++ qs).
Proof.
  intros [Hok Hpg Hlk Hz Hf] Hok' Hpg' Hf' Hz' Hlk'.
  assert (Hin : ∀ p, p ∈ all_pages T fl → p ∈ all_pages T0 fl0).
  { intros p Hp. rewrite <- Hpg, elem_of_app. by right. }
  assert (Hpal : ∀ p, p ∈ all_pages T0 fl0 → p mod PGSIZE = 0) by apply all_pages_ok.
  split; [done | | | |].
  - by rewrite <- Hpg, <- Hpg', app_assoc.
  - intros va' Hva'. rewrite Hlk' by done. cbv zeta. rewrite length_app. unfold PGSIZE in *.
    unfold entries in *. rewrite imap_app.
    destruct (decide (lo + Z.of_nat (length ps) * 4096 ≤ va' <
                      lo + Z.of_nat (length ps) * 4096 + Z.of_nat (length qs) * 4096)).
    + rewrite decide_True by lia. rewrite lookup_app_r, length_imap by (rewrite length_imap; zdiv).
      f_equal. zdiv.
    + rewrite Hlk by done. destruct (decide (lo ≤ va' < lo + Z.of_nat (length ps) * 4096)).
      * rewrite decide_True by lia. rewrite lookup_app_l; [done|]. rewrite length_imap. zdiv.
      * by rewrite decide_False by lia.
  - intros i p o Hi Ho. apply lookup_app_Some in Hi as [Hi|[Hge Hi]].
    + rewrite <- (Hz i p o Hi Ho). apply list_elem_of_lookup_2 in Hi.
      pose proof (vm_ok_nodup _ _ _ _ Hok0) as Hd. rewrite <- Hpg in Hd.
      apply NoDup_app in Hd as (_ & Hdis & _).
      eapply (mframe_ld8 _ _ _ p); [exact Hf' | intros x Hx; by apply Hpal, Hin | | by apply Hdis | unfold in_page; lia].
      apply Hpal. rewrite <- Hpg, elem_of_app. by left.
    + rewrite (Hz' _ _ _ Hi Ho). f_equal. lia.
  - eapply mframe_trans; [exact Hf | exact Hf' | done | done].
Qed.

(** A page taken from the allocator and filled by [f]. *)
Lemma vm_take s T q fl (f : memory → memory) :
  vm_ok s root T (q :: fl) → (∀ m, mframe (λ x, x = q) m (f m)) →
  ∃ s1 s2, kalloc s = Ok (q, s1) ∧ mem_modify f s1 = Ok (tt, s2) ∧
    page_ok q ∧ T !! q = None ∧ (q ∉ fl) ∧ vm_ok s2 root T fl ∧
    mframe (λ x, x = q) (k_mem s) (k_mem s1) ∧ k_mem s2 = f (k_mem s1) ∧
    mframe (λ x, x = q) (k_mem s) (k_mem s2) ∧
    (∀ va', pt_lookup (k_mem s2) root va' = pt_lookup (k_mem s) root va').
Proof.
  intros Hok Hfill. destruct (kalloc_cons s q fl (vo_k _ _ _ _ Hok)) as ([m1 h1] & Hka & Hk1 & Hq & Hni & Hf1).
  exists (mkKmem m1 h1), (mkKmem (f m1) h1). split; [exact Hka|]. split; [done|]. clear Hka. cbn [k_mem] in *.
  assert (HTq : T !! q = None) by (apply (vo_free _ _ _ _ Hok); constructor).
  assert (Hqal : ∀ x, x = q → x mod PGSIZE = 0) by (intros x ->; apply Hq).
  assert (Hf : mframe (λ x, x = q) (k_mem s) (f m1)) by (eapply mframe_step; [exact Hf1 | apply Hfill]).
  split_and!; try done.
  - split; [| |].
    + eapply kinv_frame; [exact Hk1 | apply Hfill | exact Hqal |]. intros p Hp ->. exact (Hni Hp).
    + eapply pt_wf_frame; [exact Hf | done | by intros p -> | apply Hok].
    + intros p Hp. apply (vo_free _ _ _ _ Hok). by constructor.
  - intros va'. eapply pt_lookup_frame; [exact Hf | done | by intros p -> | apply Hok].
Qed.

(** One iteration of [uvmalloc] or [uvmcopy]: the growth gains a page filled by [f], or
    the page taken goes back because the table could not be extended. *)
Lemma grow_step s T q fl ps (f : memory → memory) :
  grown root lo perm data s0 T0 fl0 s T (q :: fl) ps →
  let a := lo + Z.of_nat (length ps) * PGSIZE in
  a + PGSIZE ≤ hi →
  (∀ m, mframe (λ x, x = q) m (f m)) →
  (∀ m o, mframe (λ x, x = q) (k_mem s) m → 0 ≤ o < PGSIZE → ld8 (f m) (q + o) = data (length ps) o) →
  ∃ s1 s2 r s3 T3 fl3, kalloc s = Ok (q, s1) ∧ q ≠ 0 ∧
    mem_modify f s1 = Ok (tt, s2) ∧
    mappages root a PGSIZE q (perm (length ps)) s2 = Ok (r, s3) ∧
    ((r = 0 ∧ grown root lo perm data s0 T0 fl0 s3 T3 fl3 (ps ++ [q])) ∨
     (r = err ∧ ∃ s4, kfree q s3 = Ok (tt, s4) ∧
        grown root lo perm data s0 T0 fl0 s4 T3 (q :: fl3) ps)).
Proof.
  intros Hg a Ha Hfill Hz. pose proof (gr_ok _ _ _ _ _ _ _ _ _ _ _ Hg) as Hok.
  destruct (vm_take s T q fl f Hok Hfill) as (s1 & s2 & Hka & Hms & Hq & HTq & Hni & Hok2 & Hf1 & Em2 & Hf & Hlk2).
  exists s1, s2.
  destruct (mappages_page root s2 T fl a q (perm (length ps))) as (r & s3 & T3 & fl3 & Hrun & Hx & Hend);
    [assumption | unfold a, PGSIZE in *; zdiv | unfold a, PGSIZE in *; lia | lia
    | by apply page_ok_pa_ok | apply Hperm | |].
  { intros va' Hva'. pose proof MAXVA_eq. rewrite Hlk2, (gr_lookup _ _ _ _ _ _ _ _ _ _ _ Hg) by (unfold a, PGSIZE in *; lia).
    rewrite decide_False by (unfold a, PGSIZE in *; lia). apply Hnone. unfold a, PGSIZE in *. lia. }
  exists r, s3, T3, fl3. split; [exact Hka|]. split; [by apply page_ok_nonzero|].
  do 2 (split; [assumption|]). clear Hka Hms Hrun.
  pose proof (x_ok _ _ _ _ _ _ _ Hx) as Hok3.
  pose proof (extends_pages _ _ _ _ _ _ _ Hok2 Hx) as Hpg.
  assert (Hfr : mframe (λ p, p ∈ all_pages T (q :: fl)) (k_mem s) (k_mem s3)).
  { eapply mframe_trans; [exact Hf | apply Hx | |]; cbn beta; intros p;
      rewrite all_pages_cons, elem_of_cons; [by left|].
    right. rewrite <- Hpg, elem_of_all_pages. by left. }
  assert (HT3 : T3 !! q = None ∧ (q ∉ fl3)).
  { pose proof (vm_ok_nodup _ _ _ _ Hok) as Hd. rewrite all_pages_cons, <- Hpg in Hd.
    apply NoDup_cons in Hd as [Hd _]. rewrite elem_of_all_pages in Hd.
    split; [apply eq_None_not_Some|]; tauto. }
  destruct Hend as [[-> Hlk3]|(-> & -> & Hlk3)]; [left | right]; (split; [done|]).
  - eapply grown_step; [exact Hg | done | | done | |].
    + by rewrite all_pages_cons, <- Hpg.
    + intros i x o [-> <-]%list_lookup_singleton_Some Ho. rewrite Nat.add_0_r, <- (Hz _ o Hf1 Ho), <- Em2.
      eapply mframe_ld8; [apply Hx | | apply Hq | by apply eq_None_not_Some, HT3 | unfold in_page; lia].
      intros p [l Hl]. eapply wf_page_aligned; [apply Hok3 | done].
    + intros va' Hva'. rewrite Hlk3, Hlk2 by done. cbv zeta. fold a.
      unfold entries. cbn [length imap]. unfold PGSIZE.
      destruct (decide (a ≤ va' < a + 4096)).
      * rewrite decide_True by lia. replace ((va' - a) / 4096) with 0 by zdiv. cbn. by rewrite Nat.add_0_r.
      * by rewrite decide_False by lia.
  - destruct (vm_kfree root s3 T3 [] q Hok3 Hq) as (s4 & Hk4 & Hok4 & Hf4); [apply HT3..|].
    exists s4. split; [done|]. rewrite <- (app_nil_r ps).
    eapply grown_step; [exact Hg | done | | | done |].
    + cbn [app]. by rewrite !all_pages_cons, <- Hpg.
    + eapply mframe_trans; [exact Hfr | exact Hf4 | done |]. cbn beta. intros p ->.
      rewrite all_pages_cons. constructor.
    + intros va' Hva'. cbv zeta. rewrite decide_False by (cbn; lia).
      rewrite <- Hlk2, <- Hlk3 by done. eapply pt_lookup_frame; [exact Hf4 | | | apply Hok3].
      * intros p ->. apply Hq.
      * intros p ->. apply HT3.
Qed.

End grow.

(** The permissions [uvmalloc] maps pages with make a leaf entry. *)
Lemma user_perm xperm p :
  perm_ok xperm → page_ok p →
  let perm := Z.lor (Z.lor PTE_R PTE_U) xperm in
  perm_ok perm ∧ PTE_FLAGS (mkpte p perm) ≠ PTE_V.
Proof.
  intros Hx Hp perm.
  assert (Hperm : perm_ok perm) by (apply (lor_lt _ _ 10); unfold perm_ok in *; lia || by vm_compute).
  split; [done|]. rewrite PTE_FLAGS_mkpte by (done || by apply page_ok_pa_ok).
  intros E. apply (f_equal (λ z, Z.testbit z 1)) in E. unfold perm in E.
  rewrite !Z.lor_spec in E. done.
Qed.

Lemma ld8_memset_page m q o : 0 ≤ o < PGSIZE → ld8 (memset m q 0 PGSIZE) (q + o) = 0.
Proof. intros Ho. rewrite ld8_memset by done. by destruct (_ && _) eqn:E; [|lia]. Qed.

Lemma uvmalloc_loop_ok root lo xperm s0 T0 fl0 newsz fuel : ∀ s T fl ps,
  vm_ok s0 root T0 fl0 → 0 ≤ lo → lo mod PGSIZE = 0 → perm_ok xperm →
  0 ≤ newsz ≤ MAXVA →
  (∀ va', lo ≤ va' < PGROUNDUP newsz → pt_lookup (k_mem s0) root va' = None) →
  let perm := λ _ : nat, Z.lor (Z.lor PTE_R PTE_U) xperm in
  let zero := λ (_ : nat) (_ : Z), 0 in
  let a := lo + Z.of_nat (length ps) * PGSIZE in
  grown root lo perm zero s0 T0 fl0 s T fl ps → a ≤ Z.max lo (PGROUNDUP newsz) →
  newsz ≤ a + (Z.of_nat fuel - 1) * PGSIZE → (0 < fuel)%nat →
  ∃ r s' T' fl' ps', uvmalloc_loop fuel root a lo newsz xperm s = Ok (r, s') ∧
    grown root lo perm zero s0 T0 fl0 s' T' fl' ps' ∧
    ((r = newsz ∧ newsz ≤ lo + Z.of_nat (length ps') * PGSIZE ≤ Z.max lo (PGROUNDUP newsz)) ∨
     (r = 0 ∧ ps' = [])).
Proof.
  intros s T fl ps Hok0 Hlo Hal Hx Hnew Hnone perm zero.
  assert (HM : MAXVA = 2 ^ 38) by done.
  assert (Hleaf : ∀ i p, page_ok p → PTE_FLAGS (mkpte p (perm i)) ≠ PTE_V) by (intros; by apply user_perm).
  assert (Hperm : ∀ i, perm_ok (perm i)) by (intros i; apply (lor_lt _ _ 10); unfold perm_ok in *; lia || by vm_compute).
  destruct (PGROUNDUP_bounds newsz Hnew) as ([Hup Hhi] & _ & Hupal).
  revert s T fl ps. induction fuel as [|fuel IH]; intros s T fl ps a Hg Ha Hfu Hpos; [lia|].
  cbn [uvmalloc_loop]. destruct (Z.ltb_spec a newsz) as [Hlt|Hge].
  2:{ exists newsz, s, T, fl, ps. split_and!; [done..|]. left. split; [done|]. unfold a in *. lia. }
  assert (Hstep : a + PGSIZE ≤ PGROUNDUP newsz) by (unfold a, PGSIZE in *; zdiv).
  destruct fl as [|q fl].
  { rewrite (bind_ok _ _ _ _ _ (kalloc_empty s (vo_k _ _ _ _ (gr_ok _ _ _ _ _ _ _ _ _ _ _ Hg)))).
    destruct (uvmdealloc_grown root lo (PGROUNDUP newsz) perm zero s0 T0 fl0) with s T (@nil Z) ps
      as (r' & s' & fl' & Hd & Hg'); try (done || unfold a, PGSIZE in *; lia).
    cbn [Z.eqb]. run Hd. exists 0, s', T, fl', []. split_and!; [done..|]. by right. }
  destruct (grow_step root lo (PGROUNDUP newsz) perm zero s0 T0 fl0) with s T q fl ps (λ m, memset m q 0 PGSIZE)
    as (s1 & s2 & r & s3 & T3 & fl3 & Hka & Hnz & Hms & Hmap & Hres);
    [assumption.. | intros m; apply mframe_memset | intros m o _; apply ld8_memset_page |].
  run Hka. rewrite (proj2 (Z.eqb_neq q 0) Hnz). run Hms. fold (perm (length ps)).
  rewrite (bind_ok _ _ _ _ _ Hmap). clear Hka Hms Hmap.
  destruct Hres as [[-> Hg3]|(-> & s4 & Hk4 & Hg4)]; cbn [negb Z.eqb err].
  - rewrite u64_small by (unfold a, PGSIZE in *; lia).
    specialize (IH s3 T3 fl3 (ps ++ [q])). cbv zeta in IH. rewrite length_app in IH. cbn [length] in IH.
    replace (lo + Z.of_nat (length ps + 1) * PGSIZE) with (a + PGSIZE) in IH
      by (unfold a, PGSIZE; lia).
    apply IH; [done | unfold PGSIZE in *; lia..].
  - rewrite (bind_ok _ _ _ _ _ Hk4). 
    destruct (uvmdealloc_grown root lo (PGROUNDUP newsz) perm zero s0 T0 fl0) with s4 T3 (q :: fl3) ps
      as (r' & s' & fl' & Hd & Hg'); try (done || unfold a, PGSIZE in *; lia).
    run Hd. exists 0, s', T3, fl', []. split_and!; [done..|]. by right.
Qed.

(** C32. [uvmalloc] grows a process from [oldsz] to [newsz] or fails without a trace.
    On success every page of [[PGROUNDUP oldsz, PGROUNDUP newsz)] is mapped
    user-readable to a page of its own that reads as zero, and all other translations
    are unchanged.  When it returns 0 because memory ran out, all translations are
    what they were and every page taken is back.  In both cases each page of the
    system is exactly once among the new pages, the table's pages and the free list,
    and no other memory has changed. *)
Theorem uvmalloc_spec root s T fl oldsz newsz xperm :
  vm_ok s root T fl → perm_ok xperm → 0 ≤ oldsz ≤ newsz → newsz ≤ MAXVA →
  (∀ va', PGROUNDUP oldsz ≤ va' < PGROUNDUP newsz → pt_lookup (k_mem s) root va' = None) →
  ∃ r s' T' fl' ps,
    uvmalloc root oldsz newsz xperm s = Ok (r, s') ∧
    grown root (PGROUNDUP oldsz) (λ _, Z.lor (Z.lor PTE_R PTE_U) xperm) (λ _ _, 0) s T fl s' T' fl' ps ∧
    ((r = newsz ∧ PGROUNDUP oldsz + Z.of_nat (length ps) * PGSIZE = PGROUNDUP newsz) ∨
     (r = 0 ∧ ps = [])).
Proof.
  intros Hok Hx Hsz Hmax Hnone. assert (HM : MAXVA = 2 ^ 38) by done.
  destruct (PGROUNDUP_bounds oldsz ltac:(lia)) as ([Hlo _] & Holt & Hal).
  destruct (PGROUNDUP_bounds newsz ltac:(lia)) as ([Hup Hhi] & Hnlt & Hupal).
  unfold uvmalloc. rewrite (proj2 (Z.ltb_ge _ _)) by lia. cbv zeta.
  set (lo := PGROUNDUP oldsz) in *. set (fuel := S _).
  destruct (uvmalloc_loop_ok root lo xperm s T fl newsz fuel s T fl []) as
    (r & s' & T' & fl' & ps & Hrun & Hg & Hend); try (done || lia).
  - split; [done | by rewrite app_nil_l | | done | apply mframe_refl].
    intros va' _. by rewrite decide_False by (cbn; lia).
  - cbn [length]. lia.
  - unfold fuel, PGSIZE in *. cbn [length]. rewrite Nat2Z.inj_succ, Z2Nat.id by zdiv. zdiv.
  - exists r, s', T', fl', ps. cbn [length] in Hrun. rewrite Z.add_0_r in Hrun.
    split_and!; [done..|]. destruct Hend as [[-> Hb]|?]; [left | by right].
    split; [done|]. unfold PGSIZE in *. zdiv.
Qed.

End VmUser.
