(* ===== verification/VmFork.v ===== *)
(** * VmFork: copying an address space

    The theorem about [uvmcopy] of src/kernel/vm.c, with which [fork] gives the child
    its memory.  The loop is the one of [uvmalloc] (VmUser.v) with another filling of
    the page, so the growth records of that file carry the proof. *)

From S2P Require Import Prelude Mem Layout Kalloc Vm VmTable VmUser.
Import CString.

Local Open Scope Z_scope.
#[local] Opaque memset memmove st64 ld64 PX mkpte kalloc kfree.

(** The permissions of the [i]th of the entries [vs]. *)
Definition perm_of (vs : list Z) (i : nat) : Z :=
  match vs !! i with Some v => PTE_FLAGS v | None => PTE_R end.

(** The byte [o] of the page behind the [i]th of the entries [vs]. *)
Definition byte_of (m : memory) (vs : list Z) (i : nat) (o : Z) : Z :=
  match vs !! i with Some v => ld8 m (PTE2PA v + o) | None => 0 end.

Section VmFork.
  Context {K : KernelImage} {KOk : KernelImageOk K}.

Lemma mframe_memmove m p src : mframe (λ q, q = p) m (memmove m p src PGSIZE).
Proof.
  intros a Ha. specialize (Ha p eq_refl). unfold in_page, PGSIZE in *.
  rewrite ld8_memmove by lia. destruct (_ && _) eqn:E; [lia | done].
Qed.

Lemma PTE_FLAGS_perm v : perm_ok (PTE_FLAGS v).
Proof. unfold perm_ok, PTE_FLAGS. change 0x3FF with (Z.ones 10). rewrite Z.land_ones by lia. zdiv. Qed.

Lemma perm_of_ok vs i : perm_ok (perm_of vs i).
Proof. unfold perm_of. destruct (vs !! i); [apply PTE_FLAGS_perm | by vm_compute]. Qed.

(** A valid entry's flags already have [PTE_V]. *)
Lemma lor_flags_V v : has v PTE_V = true → Z.lor (PTE_FLAGS v) PTE_V = PTE_FLAGS v.
Proof.
  unfold PTE_V. intros Hv. rewrite has_bit in Hv by lia. apply Z.bits_inj'. intros n Hn.
  rewrite Z.lor_spec, Z.shiftl_spec by lia. destruct (Z.eq_dec n 0) as [->|].
  - unfold PTE_FLAGS. by rewrite Z.land_spec, Hv.
  - replace (Z.testbit 1 (n - 0)) with false; [apply orb_false_r|].
    symmetry. rewrite Z.sub_0_r. change 1 with (2 ^ 0). by apply Z.pow2_bits_false.
Qed.

(** A page of zeros is an empty table. *)
Lemma pt_wf_empty m q :
  page_ok q → (∀ i, 0 ≤ i < 512 → pte m q i = 0) →
  pt_wf m q {[q := 2%nat]} ∧ (∀ va, pt_lookup m q va = None).
Proof.
  intros Hq Hz. assert (Hn : ∀ i, 0 ≤ i < 512 → has (pte m q i) PTE_V = false) by (intros i Hi; by rewrite Hz).
  split.
  - split; [by rewrite lookup_singleton_eq | by intros p [-> _]%lookup_singleton_Some | | | |];
      intros p l; rewrite ?lookup_singleton_Some.
    + intros [<- <-]. by split; [|lia].
    + intros i [<- _]%lookup_singleton_Some Hi. by rewrite Hn.
    + intros i p' l' i' [<- _]%lookup_singleton_Some _ Hi _. by rewrite Hn.
    + intros [_ <-]. lia.
  - intros va. unfold pt_lookup. cbn [lookup_from]. by rewrite Hn by (apply PX_range; lia).
Qed.

(** [uvmcreate] makes an empty table of a free page. *)
Lemma uvmcreate_ok s q fl :
  kinv s (q :: fl) →
  ∃ s', uvmcreate s = Ok (q, s') ∧ vm_ok s' q {[q := 2%nat]} fl ∧ (∀ va, pt_lookup (k_mem s') q va = None).
Proof.
  intros Hk. destruct (kalloc_zeroed s q fl Hk) as (s1 & s2 & Hka & Hms & Hk2 & Hq & Hni & _ & Hz).
  exists s2. unfold uvmcreate. run Hka. rewrite (proj2 (Z.eqb_neq q 0) (page_ok_nonzero q Hq)). run Hms.
  destruct (pt_wf_empty (k_mem s2) q Hq) as [Hwf Hlk].
  { intros i Hi. by apply pte_zero. }
  split; [done|]. split; [|done]. split; [done..|]. intros p Hp. apply lookup_singleton_ne. by intros ->.
Qed.

Section copy.
  Context (old new : Z) (To : gmap Z nat) (vs : list Z) (s0 : kmem) (T0 : gmap Z nat) (fl0 : list Z).
  Hypothesis Hok0 : vm_ok s0 new T0 fl0.
  Hypothesis Hold : pt_wf (k_mem s0) old To.
  Hypothesis Hdis : ∀ p, p ∈ all_pages T0 fl0 → To !! p = None ∧ p ∉ PTE2PA <$> vs.
  Hypothesis Hmap : mapped (k_mem s0) old 0 vs.
  Hypothesis Hmax : Z.of_nat (length vs) * PGSIZE ≤ MAXVA.
  Hypothesis Hnone : ∀ va', 0 ≤ va' < Z.of_nat (length vs) * PGSIZE → pt_lookup (k_mem s0) new va' = None.

Abbreviation copied := (grown new 0 (perm_of vs) (byte_of (k_mem s0) vs) s0 T0 fl0).

Lemma copy_aligned p : p ∈ all_pages T0 fl0 → p mod PGSIZE = 0.
Proof. intros Hp. eapply all_pages_ok; eauto. Qed.

Lemma copy_leaf i p : page_ok p → PTE_FLAGS (mkpte p (perm_of vs i)) ≠ PTE_V.
Proof.
  intros Hp. rewrite PTE_FLAGS_mkpte by (by apply page_ok_pa_ok || apply perm_of_ok).
  unfold perm_of. destruct (vs !! i) as [v|] eqn:E; [|done].
  destruct (Hmap i v E) as [Hlk Hne]. rewrite lor_flags_V; [done|].
  assert (HM := MAXVA_eq). apply lookup_lt_Some in E.
  by destruct (walk_mapped_wf s0 old To (0 + Z.of_nat i * PGSIZE) v Hold) as (? & _ & _ & _ & _ & _ & ?);
    [unfold PGSIZE in *; lia | done |].
Qed.

(** The parent's table and pages are as they were. *)
Lemma copy_old s T fl ps :
  copied s T fl ps →
  pt_wf (k_mem s) old To ∧ (∀ va, pt_lookup (k_mem s) old va = pt_lookup (k_mem s0) old va).
Proof.
  intros Hg. pose proof (gr_frame _ _ _ _ _ _ _ _ _ _ _ Hg) as Hf. split.
  - eapply pt_wf_frame; [exact Hf | apply copy_aligned | | done]. intros p Hp. by apply Hdis.
  - intros va. eapply pt_lookup_frame; [exact Hf | apply copy_aligned | | done]. intros p Hp. by apply Hdis.
Qed.

Lemma copy_byte s T q fl ps v m o :
  copied s T (q :: fl) ps → vs !! length ps = Some v →
  mframe (λ x, x = q) (k_mem s) m → 0 ≤ o < PGSIZE →
  ld8 (memmove m q (PTE2PA v) PGSIZE) (q + o) = byte_of (k_mem s0) vs (length ps) o.
Proof.
  intros Hg Hv Hf Ho. unfold byte_of. rewrite Hv, ld8_memmove by done.
  destruct (_ && _) eqn:E; [|lia]. replace (PTE2PA v + (q + o - q)) with (PTE2PA v + o) by lia.
  assert (Hin : PTE2PA v ∈ PTE2PA <$> vs) by (apply list_elem_of_fmap; eauto using list_elem_of_lookup_2).
  assert (Hq : q ∈ all_pages T0 fl0).
  { rewrite <- (gr_pages _ _ _ _ _ _ _ _ _ _ _ Hg), elem_of_app, elem_of_all_pages. right. right. by constructor. }
  transitivity (ld8 (k_mem s) (PTE2PA v + o)); eapply (mframe_ld8 _ _ _ (PTE2PA v));
    [exact Hf | intros p ->; by apply copy_aligned | apply PTE2PA_aligned | | unfold in_page; lia
    | apply Hg | apply copy_aligned | apply PTE2PA_aligned | | unfold in_page; lia].
  - intros E'. rewrite E' in Hin. by apply Hdis in Hq as [_ ?].
  - intros Hp. by apply Hdis in Hp as [_ ?].
Qed.

(** The pages copied so far are taken down again. *)
Lemma copy_undo s T fl ps :
  copied s T fl ps → (length ps ≤ length vs)%nat →
  ∃ s' fl', uvmunmap new 0 (Z.of_nat (length ps) * PGSIZE / PGSIZE) true s = Ok (tt, s') ∧ copied s' T fl' [].
Proof.
  intros Hg Hle. rewrite Z.div_mul by done.
  apply (uvmunmap_grown new 0 (Z.of_nat (length vs) * PGSIZE) (perm_of vs) (byte_of (k_mem s0) vs) s0 T0 fl0)
    with (fl := fl); [done.. | apply perm_of_ok | apply copy_leaf | done | unfold PGSIZE; lia].
Qed.

Lemma uvmcopy_loop_ok sz fuel : ∀ s T fl ps,
  (length ps ≤ length vs)%nat → copied s T fl ps →
  (Z.of_nat (length vs) - 1) * PGSIZE < sz ≤ Z.of_nat (length vs) * PGSIZE →
  (length vs - length ps < fuel)%nat →
  ∃ r s' T' fl' ps', uvmcopy_loop fuel old new (Z.of_nat (length ps) * PGSIZE) sz s = Ok (r, s') ∧
    copied s' T' fl' ps' ∧ ((r = 0 ∧ length ps' = length vs) ∨ (r = err ∧ ps' = [])).
Proof.
  assert (HM := MAXVA_eq). induction fuel as [|fuel IH]; intros s T fl ps Hle Hg Hsz Hfu; [lia|].
  cbn [uvmcopy_loop]. destruct (Z.ltb_spec (Z.of_nat (length ps) * PGSIZE) sz) as [Hlt|Hge].
  2:{ exists 0, s, T, fl, ps. split_and!; [done..|]. left. split; [done|]. unfold PGSIZE in *. lia. }
  assert (Hps : (length ps < length vs)%nat) by (unfold PGSIZE in *; lia).
  destruct (lookup_lt_is_Some_2 vs _ Hps) as [v Hv]. destruct (copy_old _ _ _ _ Hg) as [Hwf Hlk].
  destruct (Hmap _ _ Hv) as [Hv0 _]. rewrite Z.add_0_l, <- Hlk in Hv0.
  destruct (walk_mapped_wf s old To (Z.of_nat (length ps) * PGSIZE) v Hwf ltac:(unfold PGSIZE in *; lia) Hv0)
    as (t & _ & _ & Hw & Hnz & Hld & HV).
  run Hw. rewrite (proj2 (Z.eqb_neq _ 0) Hnz). unfold read64. rewrite bind_gets, Hld, HV. cbn [negb].
  destruct fl as [|q fl].
  { rewrite (bind_ok _ _ _ _ _ (kalloc_empty s (vo_k _ _ _ _ (gr_ok _ _ _ _ _ _ _ _ _ _ _ Hg)))). cbn [Z.eqb].
    destruct (copy_undo _ _ _ _ Hg Hle) as (s' & fl' & Hu & Hg'). run Hu.
    exists err, s', T, fl', []. split_and!; [done..|]. by right. }
  destruct (grow_step new 0 (Z.of_nat (length vs) * PGSIZE) (perm_of vs) (byte_of (k_mem s0) vs) s0 T0 fl0)
    with s T q fl ps (λ m, memmove m q (PTE2PA v) PGSIZE)
    as (s1 & s2 & r & s3 & T3 & fl3 & Hka & Hqz & Hms & Hmp & Hres);
    [done.. | apply perm_of_ok | apply Hg | unfold PGSIZE in *; lia | intros m; apply mframe_memmove
    | intros m o Hf Ho; by eapply copy_byte |].
  run Hka. rewrite (proj2 (Z.eqb_neq q 0) Hqz). run Hms. rewrite Z.add_0_l in Hmp.
  assert (Hperm : perm_of vs (length ps) = PTE_FLAGS v) by (unfold perm_of; by rewrite Hv).
  rewrite Hperm in Hmp. rewrite (bind_ok _ _ _ _ _ Hmp). clear Hka Hms Hmp.
  destruct Hres as [[-> Hg3]|(-> & s4 & Hk4 & Hg4)]; cbn [negb Z.eqb err].
  - rewrite u64_small by (unfold PGSIZE in *; lia). specialize (IH s3 T3 fl3 (ps ++ [q])).
    rewrite length_app in IH. cbn [length] in IH.
    replace (Z.of_nat (length ps + 1) * PGSIZE) with (Z.of_nat (length ps) * PGSIZE + PGSIZE) in IH
      by (unfold PGSIZE; lia).
    apply IH; done || lia.
  - rewrite (bind_ok _ _ _ _ _ Hk4). destruct (copy_undo _ _ _ _ Hg4 Hle) as (s' & fl' & Hu & Hg'). run Hu.
    exists err, s', T3, fl', []. split_and!; [done..|]. by right.
Qed.

End copy.

(** C17. [uvmcopy] gives the child a copy of the parent's memory or fails without a trace.
    [vs] are the parent's entries below [sz].  On success the child has one page of its
    own per page of the parent, mapped at the same address with the same flags and
    holding the same bytes.  When it returns -1 because memory ran out, the child's
    translations are what they were and every page taken is back on the free list or in
    the child's table.  In both cases the parent's table and pages have not changed. *)
Theorem uvmcopy_spec old new To vs s T fl sz :
  vm_ok s new T fl → pt_wf (k_mem s) old To →
  (∀ p, p ∈ all_pages T fl → To !! p = None ∧ p ∉ PTE2PA <$> vs) →
  0 ≤ sz ≤ MAXVA → Z.of_nat (length vs) * PGSIZE = PGROUNDUP sz →
  mapped (k_mem s) old 0 vs →
  (∀ va', 0 ≤ va' < PGROUNDUP sz → pt_lookup (k_mem s) new va' = None) →
  ∃ r s' T' fl' ps,
    uvmcopy old new sz s = Ok (r, s') ∧
    grown new 0 (perm_of vs) (byte_of (k_mem s) vs) s T fl s' T' fl' ps ∧
    (∀ va, pt_lookup (k_mem s') old va = pt_lookup (k_mem s) old va) ∧
    ((r = 0 ∧ length ps = length vs) ∨ (r = err ∧ ps = [])).
Proof.
  intros Hok Hwf Hdis Hsz Hlen Hm Hnone. assert (HM : MAXVA = 2 ^ 38) by done.
  destruct (PGROUNDUP_bounds sz Hsz) as ([Hup Hhi] & Hlt & Hal).
  destruct (uvmcopy_loop_ok old new To vs s T fl) with sz (S (Z.to_nat ((sz + PGSIZE - 1) / PGSIZE))) s T fl (@nil Z)
    as (r & s' & T' & fl' & ps & Hrun & Hg & Hend);
    [done | done | done | done | unfold PGSIZE in *; lia | by rewrite Hlen | cbn; lia | | unfold PGSIZE in *; lia
    | unfold PGSIZE in *; cbn; zdiv |].
  { split; [done | by rewrite app_nil_l | | done | apply mframe_refl].
    intros va' _. by rewrite decide_False by (cbn; lia). }
  exists r, s', T', fl', ps. split_and!; [done | done | | done].
  by apply (copy_old old new To vs s T fl Hok Hwf Hdis _ _ _ _ Hg).
Qed.

End VmFork.
