(* ===== verification/VmFree.v ===== *)
(** * VmFree: freeing a page table ([freewalk], [uvmfree] of src/kernel/vm.c)

    [freewalk] visits the tree of page-table pages in post-order.  The list of pages
    it visits is [subtree]; for a well-formed table that list is a permutation of the
    table's pages, so [uvmfree] gives every page of the address space back. *)

From S2P Require Import Prelude Mem Layout Kalloc Vm VmTable VmUser.
Import CString.

Local Open Scope Z_scope.
#[local] Opaque memset memmove st64 ld64 PX mkpte kalloc kfree.

(** Pages below [p], in the order [freewalk] frees them. *)
Fixpoint subtree (level : nat) (m : memory) (p : Z) : list Z :=
  match level with
  | O => [p]
  | S l =>
      mjoin ((λ i, if has (pte m p i) PTE_V then subtree l m (PTE2PA (pte m p i)) else [])
               <$> seqZ 0 512) ++ [p]
  end.

(** No page is mapped below [p], and inner entries have no permission bits. *)
Fixpoint no_leaves (level : nat) (m : memory) (p : Z) : Prop :=
  match level with
  | O => ∀ i, 0 ≤ i < 512 → has (pte m p i) PTE_V = false
  | S l => ∀ i, 0 ≤ i < 512 → has (pte m p i) PTE_V = true →
      PTE_FLAGS (pte m p i) = PTE_V ∧ no_leaves l m (PTE2PA (pte m p i))
  end.

(** The pages below the entries [i], [i+1], ... of [p]. *)
Definition below (l : nat) (m : memory) (p i : Z) (n : nat) : list Z :=
  mjoin ((λ i, if has (pte m p i) PTE_V then subtree l m (PTE2PA (pte m p i)) else [])
           <$> seqZ i (Z.of_nat n)).

Section VmFree.
  Context {K : KernelImage} {KOk : KernelImageOk K}.

Lemma below_S l m p i n :
  below l m p i (S n) =
  (if has (pte m p i) PTE_V then subtree l m (PTE2PA (pte m p i)) else []) ++
  below l m p (i + 1) n.
Proof.
  unfold below. rewrite seqZ_cons by lia. cbn [fmap list_fmap mjoin list_join].
  replace (Z.pred (Z.of_nat (S n))) with (Z.of_nat n) by lia. by rewrite Z.add_1_r.
Qed.

Lemma elem_of_below l m p i n q :
  q ∈ below l m p i n ↔ ∃ j, i ≤ j < i + Z.of_nat n ∧ has (pte m p j) PTE_V = true ∧
    q ∈ subtree l m (PTE2PA (pte m p j)).
Proof.
  revert i. induction n as [|n IH]; intros i.
  { unfold below. cbn. rewrite elem_of_nil. split; [done | intros (j & ? & _); lia]. }
  rewrite below_S, elem_of_app, IH. split.
  - intros [Hq|(j & Hj & Hv & Hq)]; [|exists j; split_and!; done || lia].
    destruct (has _ _) eqn:Hv; [|by apply elem_of_nil in Hq]. exists i. split_and!; done || lia.
  - intros (j & Hj & Hv & Hq). destruct (decide (j = i)) as [->|]; [left; by rewrite Hv|].
    right. exists j. split_and!; done || lia.
Qed.

Lemma subtree_self l m p : p ∈ subtree l m p.
Proof. destruct l; [by constructor|]. cbn [subtree]. rewrite elem_of_app. right. constructor. Qed.

Lemma subtree_S l m p : subtree (S l) m p = below l m p 0 512 ++ [p].
Proof. done. Qed.

Lemma leaf_bits v : PTE_FLAGS v = PTE_V → (Z.land v (Z.lor (Z.lor PTE_R PTE_W) PTE_X) =? 0) = true.
Proof.
  unfold PTE_FLAGS. intros E. apply Z.eqb_eq.
  change (Z.lor (Z.lor PTE_R PTE_W) PTE_X) with (Z.land 0x3FF 14).
  by rewrite Z.land_assoc, E.
Qed.

(** ** Frames *)

Section frame.
  Context (ps : Z → Prop) (m m' : memory).
  Hypothesis Hf : mframe ps m m'.
  Hypothesis Hal : ∀ p, ps p → p mod PGSIZE = 0.

Lemma subtree_frame l p :
  (∀ q, q ∈ subtree l m p → page_ok q ∧ ¬ ps q) → subtree l m' p = subtree l m p.
Proof.
  revert p. induction l as [|l IH]; intros p Hps; [done|]. rewrite !subtree_S.
  destruct (Hps p (subtree_self _ _ _)) as [[Hp _] Hnp]. f_equal. unfold below. f_equal.
  apply list_fmap_ext. intros k j Hj. apply lookup_seqZ in Hj as [-> Hj]. rewrite Z.add_0_l.
  assert (E : pte m' p (Z.of_nat k) = pte m p (Z.of_nat k)) by (eapply pte_frame; eauto; lia).
  rewrite E. destruct (has _ _) eqn:Hv; [|done]. apply IH. intros q Hq. apply Hps.
  rewrite subtree_S, elem_of_app, elem_of_below. left. exists (Z.of_nat k). split_and!; done || lia.
Qed.

Lemma no_leaves_frame l p :
  (∀ q, q ∈ subtree l m p → page_ok q ∧ ¬ ps q) → no_leaves l m p → no_leaves l m' p.
Proof.
  revert p. induction l as [|l IH]; intros p Hps; destruct (Hps p (subtree_self _ _ _)) as [[Hp _] Hnp];
    cbn [no_leaves]; intros Hn i Hi.
  - rewrite (pte_frame ps m m' p i) by done. by apply Hn.
  - rewrite (pte_frame ps m m' p i) by done. intros Hv. destruct (Hn i Hi Hv) as [Hfl Hc].
    split; [done|]. apply IH; [|done]. intros q Hq. apply Hps.
    rewrite subtree_S, elem_of_app, elem_of_below. left. exists i. split_and!; done || lia.
Qed.

(** The same for the pages below the entries of a page [p] that the step changed. *)
Lemma below_frame l p i n :
  (∀ j, i ≤ j < i + Z.of_nat n → pte m' p j = pte m p j) →
  (∀ q, q ∈ below l m p i n → page_ok q ∧ ¬ ps q) → below l m' p i n = below l m p i n.
Proof.
  intros Hpte Hps. unfold below. f_equal. apply list_fmap_ext. intros k j Hj.
  apply lookup_seqZ in Hj as [-> Hj]. rewrite Hpte by lia.
  destruct (has _ _) eqn:Hv; [|done]. apply subtree_frame. intros q Hq. apply Hps, elem_of_below.
  exists (i + Z.of_nat k). split_and!; done || lia.
Qed.
End frame.

(** ** freewalk *)

(** Pages that can be handed to [kfree] one after the other. *)
Record freeable (fl ps : list Z) : Prop := {
  fr_ok : Forall page_ok ps;
  fr_nodup : NoDup ps;
  fr_new p : p ∈ ps → p ∉ fl;
}.

Lemma freeable_app fl ps qs :
  freeable fl (ps ++ qs) ↔ freeable fl ps ∧ freeable (rev ps ++ fl) qs.
Proof.
  split.
  - intros [Ho Hd Hn]. apply Forall_app in Ho as [Ho1 Ho2]. apply NoDup_app in Hd as (Hd1 & Hx & Hd2).
    split; split; try done.
    + intros p Hp. apply Hn. rewrite elem_of_app. by left.
    + intros p Hp. rewrite elem_of_app, elem_of_rev. intros [Hc|Hc]; [by eapply Hx|].
      eapply Hn; [|done]. rewrite elem_of_app. by right.
  - intros [[Ho1 Hd1 Hn1] [Ho2 Hd2 Hn2]]. setoid_rewrite elem_of_app in Hn2.
    setoid_rewrite elem_of_rev in Hn2. split.
    + by apply Forall_app.
    + apply NoDup_app. split_and!; try done. intros p Hp Hq. apply (Hn2 p Hq). by left.
    + intros p [Hp|Hp]%elem_of_app; [by apply Hn1|]. intros Hc. apply (Hn2 p Hp). by right.
Qed.

Definition frees (ps fl : list Z) (s s' : kmem) : Prop :=
  kinv s' (rev ps ++ fl) ∧ mframe (λ q, q ∈ ps) (k_mem s) (k_mem s').

(** What [freewalk] does below one child. *)
Definition freewalk_at (l : nat) : Prop := ∀ s fl p,
  kinv s fl → no_leaves l (k_mem s) p → freeable fl (subtree l (k_mem s) p) →
  ∃ s', freewalk (S l) p s = Ok (tt, s') ∧ frees (subtree l (k_mem s) p) fl s s'.

Section entries.
  Context (l : nat) (IH : freewalk_at l).

(** The entries of [p] from [i] on: their subtrees are freed one after the other. *)
Lemma freewalk_entries_ok n : ∀ s fl p i,
  0 ≤ i → i + Z.of_nat n ≤ 512 → kinv s fl → page_ok p → (p ∉ fl) →
  (∀ j, i ≤ j < i + Z.of_nat n → has (pte (k_mem s) p j) PTE_V = true →
     PTE_FLAGS (pte (k_mem s) p j) = PTE_V ∧ no_leaves l (k_mem s) (PTE2PA (pte (k_mem s) p j))) →
  (p ∉ below l (k_mem s) p i n) → freeable fl (below l (k_mem s) p i n) →
  ∃ s', freewalk_entries (freewalk (S l)) n p i s = Ok (tt, s') ∧
    kinv s' (rev (below l (k_mem s) p i n) ++ fl) ∧
    mframe (λ q, q ∈ p :: below l (k_mem s) p i n) (k_mem s) (k_mem s').
Proof.
  induction n as [|n IHn]; intros s fl p i Hi Hn Hk Hp Hpf Hnl Hpb Hfr.
  { exists s. split_and!; [done.. | apply mframe_refl]. }
  cbn [freewalk_entries]. unfold read64. rewrite bind_gets. fold (pte (k_mem s) p i).
  rewrite below_S in *. destruct (has (pte (k_mem s) p i) PTE_V) eqn:Hv.
  2:{ cbn [andb app] in *. rewrite bind_ret. apply IHn; try done; try lia. intros j Hj. apply Hnl. lia. }
  destruct (Hnl i ltac:(lia) Hv) as [Hfl Hc]. rewrite (leaf_bits _ Hfl). cbn [andb].
  set (ch := PTE2PA (pte (k_mem s) p i)) in *. set (sub := subtree l (k_mem s) ch) in *.
  apply freeable_app in Hfr as [Hfr1 Hfr2]. rewrite not_elem_of_app in Hpb. destruct Hpb as [Hp1 Hp2].
  destruct (IH s fl ch Hk Hc Hfr1) as (s1 & Hrun & Hk1 & Hf1). fold sub in Hk1, Hf1.
  rewrite bind_assoc. rewrite (bind_ok _ _ _ _ _ Hrun).
  rewrite (bind_ok _ _ _ _ _ (write64_run _ _ _)). set (s2 := mkKmem _ _).
  assert (Hpal : p mod PGSIZE = 0) by apply Hp.
  assert (Hf2 : mframe (λ q, q = p) (k_mem s1) (k_mem s2)).
  { apply mframe_st64; unfold PGSIZE; lia. }
  assert (Hsub : ∀ q, q ∈ sub → page_ok q) by (by apply Forall_forall, Hfr1).
  assert (Hf : mframe (λ q, q ∈ p :: sub) (k_mem s) (k_mem s2)).
  { eapply mframe_trans; [exact Hf1 | exact Hf2 | |]; cbn beta; intros q; rewrite elem_of_cons; auto. }
  assert (Hps : ∀ q, q ∈ p :: sub → q mod PGSIZE = 0).
  { intros q [->|Hq]%elem_of_cons; [done | by apply Hsub]. }
  assert (Hpte : ∀ j, i + 1 ≤ j < i + 1 + Z.of_nat n → pte (k_mem s2) p j = pte (k_mem s) p j).
  { intros j Hj. unfold s2. cbn [k_mem]. rewrite pte_st64_ne by (done || lia || intros [=]; lia).
    eapply pte_frame; [exact Hf1 | by intros q Hq; apply Hsub | done | done | lia]. }
  assert (HB : ∀ q, q ∈ below l (k_mem s) p (i + 1) n → page_ok q ∧ (q ∉ p :: sub)).
  { intros q Hq. split; [by eapply Forall_forall in Hq; [|apply Hfr2]|].
    intros [->|Hqs]%elem_of_cons; [done|]. apply (fr_new _ _ Hfr2 q Hq).
    rewrite elem_of_app, elem_of_rev. by left. }
  assert (E : below l (k_mem s2) p (i + 1) n = below l (k_mem s) p (i + 1) n).
  { eapply below_frame; eauto. }
  destruct (IHn s2 (rev sub ++ fl) p (i + 1)) as (s' & Hrun' & Hk' & Hf'); rewrite ?E;
    try done; try lia.
  - destruct s1 as [m1 h1]. eapply (kinv_frame _ m1); [exact Hk1 | exact Hf2 | by intros q -> |].
    intros q. rewrite elem_of_app, elem_of_rev. intros [Hq|Hq] ->; done.
  - rewrite elem_of_app, elem_of_rev. tauto.
  - intros j Hj. rewrite Hpte by done. intros Hvj. destruct (Hnl j ltac:(lia) Hvj) as [? Hcj].
    split; [done|]. eapply no_leaves_frame; eauto. intros q Hq. apply HB, elem_of_below. by exists j.
  - rewrite E in Hk', Hf'. exists s'. split; [done|]. rewrite rev_app_distr, <- app_assoc. split; [done|].
    eapply mframe_trans; [exact Hf | exact Hf' | |]; cbn beta; intros q;
      rewrite !elem_of_cons, ?elem_of_app; tauto.
Qed.

End entries.

Lemma freewalk_entries_none rec n : ∀ s p i,
  (∀ j, i ≤ j < i + Z.of_nat n → has (pte (k_mem s) p j) PTE_V = false) →
  freewalk_entries rec n p i s = Ok (tt, s).
Proof.
  induction n as [|n IH]; intros s p i Hnone; [done|]. cbn [freewalk_entries].
  unfold read64. rewrite bind_gets. fold (pte (k_mem s) p i). rewrite (Hnone i) by lia.
  cbn [andb]. rewrite bind_ret. apply IH. intros j Hj. apply Hnone. lia.
Qed.

Lemma freewalk_ok l : freewalk_at l.
Proof.
  induction l as [|l IH]; intros s fl p Hk Hnl Hfr.
  - cbn [freewalk]. rewrite (bind_ok _ _ _ _ _ (freewalk_entries_none _ 512 s p 0 Hnl)).
    cbn [subtree] in *. destruct Hfr as [Ho _ Hn]. apply Forall_cons in Ho as [Hp _].
    destruct (kfree_ok s fl p Hk Hp) as (s' & Hrun & Hk' & Hf); [apply Hn; constructor|].
    exists s'. split; [done|]. split; [done|]. eapply mframe_mono; [exact Hf|]. intros q ->. constructor.
  - rewrite subtree_S in Hfr. pose proof Hfr as Hfr'. apply freeable_app in Hfr' as [Hb Hp].
    destruct Hp as [Ho _ Hn]. apply Forall_cons in Ho as [Hp _].
    specialize (Hn p ltac:(constructor)). rewrite elem_of_app, elem_of_rev in Hn.
    destruct (freewalk_entries_ok l IH 512 s fl p 0) as (s1 & Hrun & Hk1 & Hf1);
      try done; try lia; [tauto..|].
    change (freewalk (S (S l)) p s) with
      ((freewalk_entries (freewalk (S l)) 512 p 0;; kfree p) s).
    run Hrun. destruct (kfree_ok s1 _ p Hk1 Hp) as (s' & Hrun' & Hk' & Hf').
    { rewrite elem_of_app, elem_of_rev. tauto. }
    exists s'. split; [done|]. rewrite subtree_S. split.
    + by rewrite rev_app_distr.
    + eapply mframe_trans; [exact Hf1 | exact Hf' | |]; cbn beta; intros q;
        rewrite ?elem_of_cons, elem_of_app, list_elem_of_singleton; tauto.
Qed.

(** ** The subtree of the root is the whole table *)

Section whole.
  Context (m : memory) (root : Z) (T : gmap Z nat).
  Hypothesis Hwf : pt_wf m root T.

Lemma subtree_level l : ∀ p q, T !! p = Some l → q ∈ subtree l m p →
  ∃ l', T !! q = Some l' ∧ (l' ≤ l)%nat ∧ (l' = l → q = p).
Proof.
  induction l as [|l IH]; intros p q Hp Hq.
  { apply list_elem_of_singleton in Hq as ->. by exists 0%nat. }
  rewrite subtree_S, elem_of_app, list_elem_of_singleton, elem_of_below in Hq.
  destruct Hq as [(j & Hj & Hv & Hq)| ->]; [|exists (S l); split_and!; done || lia].
  destruct (wf_child _ _ _ Hwf _ _ _ Hp Hj Hv) as [Hc _].
  destruct (IH _ _ Hc Hq) as (l' & ? & ? & _). exists l'. split_and!; done || lia.
Qed.

(** Subtrees at the same level do not overlap. *)
Lemma subtree_inj l : ∀ p1 p2 q, T !! p1 = Some l → T !! p2 = Some l →
  q ∈ subtree l m p1 → q ∈ subtree l m p2 → p1 = p2.
Proof.
  induction l as [|l IH]; intros p1 p2 q Hp1 Hp2 Hq1 Hq2.
  { apply list_elem_of_singleton in Hq1, Hq2. congruence. }
  destruct (subtree_level (S l) p1 q Hp1 Hq1) as (l1 & Hl1 & _ & He1).
  destruct (subtree_level (S l) p2 q Hp2 Hq2) as (l2 & Hl2 & _ & He2).
  rewrite subtree_S, elem_of_app, list_elem_of_singleton, elem_of_below in Hq1, Hq2.
  destruct Hq1 as [(j1 & Hj1 & Hv1 & Hq1)| ->]; [|apply He2; congruence].
  destruct Hq2 as [(j2 & Hj2 & Hv2 & Hq2)| ->]; [|symmetry; apply He1; congruence].
  destruct (wf_child _ _ _ Hwf _ _ _ Hp1 Hj1 Hv1) as [Hc1 _].
  destruct (wf_child _ _ _ Hwf _ _ _ Hp2 Hj2 Hv2) as [Hc2 _].
  eapply (wf_inj _ _ _ Hwf p1 l j1 p2 l j2); eauto.
Qed.

Lemma NoDup_below l p n : ∀ i,
  (∀ c, T !! c = Some l → NoDup (subtree l m c)) → T !! p = Some (S l) →
  0 ≤ i → i + Z.of_nat n ≤ 512 → NoDup (below l m p i n).
Proof.
  induction n as [|n IHn]; intros i IH Hp Hi Hn; [constructor|]. rewrite below_S.
  destruct (has _ _) eqn:Hv; [|apply IHn; done || lia].
  destruct (wf_child _ _ _ Hwf _ _ i Hp ltac:(lia) Hv) as [Hc _].
  apply NoDup_app. split_and!; [by apply IH | | apply IHn; done || lia].
  intros q Hq (j & Hj & Hvj & Hqj)%elem_of_below.
  destruct (wf_child _ _ _ Hwf _ _ j Hp ltac:(lia) Hvj) as [Hcj _].
  pose proof (subtree_inj l _ _ q Hc Hcj Hq Hqj) as E.
  destruct (wf_inj _ _ _ Hwf p l i p l j) as [_ ->]; done || lia.
Qed.

Lemma NoDup_subtree l : ∀ p, T !! p = Some l → NoDup (subtree l m p).
Proof.
  induction l as [|l IH]; intros p Hp; [apply NoDup_singleton|].
  rewrite subtree_S. apply NoDup_app. split_and!; [by apply NoDup_below | | apply NoDup_singleton].
  intros q (j & Hj & Hv & Hq)%elem_of_below ->%list_elem_of_singleton.
  destruct (wf_child _ _ _ Hwf _ _ j Hp Hj Hv) as [Hc _].
  destruct (subtree_level l _ _ Hc Hq) as (l' & Hl' & ? & _). rewrite Hp in Hl'.
  injection Hl' as <-. lia.
Qed.

Lemma subtree_child L : ∀ r p l i, T !! r = Some L → p ∈ subtree L m r → T !! p = Some (S l) →
  0 ≤ i < 512 → has (pte m p i) PTE_V = true → PTE2PA (pte m p i) ∈ subtree L m r.
Proof.
  induction L as [|L IH]; intros r p l i Hr Hp Hl Hi Hv.
  { apply list_elem_of_singleton in Hp as ->. congruence. }
  rewrite subtree_S, elem_of_app, list_elem_of_singleton, elem_of_below in Hp |- *.
  left. destruct Hp as [(j & Hj & Hvj & Hp)| ->].
  - exists j. split_and!; try (done || lia). destruct (wf_child _ _ _ Hwf _ _ j Hr Hj Hvj) as [Hc _].
    eapply IH; eauto.
  - exists i. split_and!; try (done || lia). apply subtree_self.
Qed.

Lemma subtree_all q l : T !! q = Some l → q ∈ subtree 2 m root.
Proof.
  intros Hq. destruct (wf_pages _ _ _ Hwf q l Hq) as [_ Hl].
  remember (2 - l)%nat as k eqn:Ek. revert q l Hq Hl Ek.
  induction k as [|k IH]; intros q l Hq Hl Ek.
  - assert (l = 2%nat) as -> by lia. rewrite (wf_root_only _ _ _ Hwf q Hq). apply subtree_self.
  - destruct (wf_parent _ _ _ Hwf q l Hq) as (p & i & Hp & Hi & Hv & <-); [lia|].
    eapply subtree_child; eauto using wf_root. eapply IH; [exact Hp | lia..].
Qed.

Lemma subtree_perm : subtree 2 m root ≡ₚ (map_to_list T).*1.
Proof.
  apply NoDup_Permutation; [apply NoDup_subtree, Hwf | apply NoDup_fst_map_to_list |].
  intros q. rewrite list_elem_of_fmap. split.
  - intros Hq. destruct (subtree_level 2 root q (wf_root _ _ _ Hwf) Hq) as (l & Hl & _).
    exists (q, l). by rewrite elem_of_map_to_list.
  - intros ([q' l] & -> & Hl). apply elem_of_map_to_list in Hl. by eapply subtree_all.
Qed.

Lemma PX_combine i2 i1 i0 :
  0 ≤ i2 < 512 → 0 ≤ i1 < 512 → 0 ≤ i0 < 512 →
  let va := i2 * 2 ^ 30 + i1 * 2 ^ 21 + i0 * 2 ^ 12 in
  0 ≤ va < 2 ^ 39 ∧ PX 2 va = i2 ∧ PX 1 va = i1 ∧ PX 0 va = i0.
Proof. intros H2 H1 H0 va. rewrite !PX_eq by lia. unfold va. simpl. zdiv. Qed.

(** A table that translates nothing has no leaf entry. *)
Lemma no_leaves_root : (∀ va, 0 ≤ va < 2 ^ 39 → pt_lookup m root va = None) → no_leaves 2 m root.
Proof.
  intros Hnone i2 Hi2 Hv2.
  destruct (wf_child _ _ _ Hwf _ _ i2 (wf_root _ _ _ Hwf) Hi2 Hv2) as [Hc2 Hf2].
  split; [done|]. intros i1 Hi1 Hv1. destruct (wf_child _ _ _ Hwf _ _ i1 Hc2 Hi1 Hv1) as [Hc1 Hf1].
  split; [done|]. intros i0 Hi0.
  destruct (PX_combine i2 i1 i0 Hi2 Hi1 Hi0) as (Hva & E2 & E1 & E0).
  specialize (Hnone _ Hva). unfold pt_lookup in Hnone. cbn [lookup_from] in Hnone.
  change (Z.of_nat 2) with 2 in Hnone. change (Z.of_nat 1) with 1 in Hnone.
  change (Z.of_nat 0) with 0 in Hnone. rewrite E2, Hv2, E1, Hv1, E0 in Hnone.
  by destruct (has _ _).
Qed.
End whole.

(** Freeing the tree of a table that translates nothing. *)
Lemma freewalk_root root s T fl :
  vm_ok s root T fl → (∀ va, 0 ≤ va < 2 ^ 39 → pt_lookup (k_mem s) root va = None) →
  ∃ s' fl', freewalk 3 root s = Ok (tt, s') ∧ kinv s' fl' ∧ fl' ≡ₚ all_pages T fl ∧
    mframe (λ p, p ∈ all_pages T fl) (k_mem s) (k_mem s').
Proof.
  intros [Hk Hwf Hnf] Hnone. pose proof (subtree_perm (k_mem s) root T Hwf) as Hperm.
  destruct (freewalk_ok 2 s fl root Hk (no_leaves_root _ _ _ Hwf Hnone)) as (s' & Hrun & Hk' & Hf).
  - split; setoid_rewrite Hperm.
    + apply Forall_forall. intros p ([q l] & -> & Hl)%list_elem_of_fmap.
      apply elem_of_map_to_list in Hl. by apply (wf_pages _ _ _ Hwf q l).
    + apply NoDup_fst_map_to_list.
    + intros p ([q l] & -> & Hl)%list_elem_of_fmap Hp. apply elem_of_map_to_list in Hl.
      apply Hnf in Hp. simpl in Hp. congruence.
  - eexists s', _. split_and!; [done | exact Hk' | |].
    + unfold all_pages. by rewrite <- Permutation_rev, Hperm.
    + eapply mframe_mono; [exact Hf|]. cbn beta. intros p Hp. unfold all_pages.
      rewrite elem_of_app, <- Hperm. by left.
Qed.

Lemma uvmfree_ok root s T fl sz vs :
  vm_ok s root T fl → 0 ≤ sz ≤ MAXVA → PGROUNDUP sz = Z.of_nat (length vs) * PGSIZE →
  mapped (k_mem s) root 0 vs → owned T fl vs →
  (∀ va, Z.of_nat (length vs) * PGSIZE ≤ va < 2 ^ 39 → pt_lookup (k_mem s) root va = None) →
  ∃ s' fl', uvmfree root sz s = Ok (tt, s') ∧ kinv s' fl' ∧
    fl' ≡ₚ (PTE2PA <$> vs) ++ all_pages T fl ∧
    mframe (λ p, p ∈ (PTE2PA <$> vs) ++ all_pages T fl) (k_mem s) (k_mem s').
Proof.
  intros Hok Hsz Hlen Hm How Hrest. unfold uvmfree.
  pose proof (PGROUNDUP_bounds sz Hsz) as (Hb & _ & _).
  assert (∃ s1, (if 0 <? sz then uvmunmap root 0 (PGROUNDUP sz / PGSIZE) true else mret tt) s
                  = Ok (tt, s1) ∧ vm_ok s1 root T (rev (PTE2PA <$> vs) ++ fl) ∧
    mframe (λ p, is_Some (T !! p) ∨ (true = true ∧ p ∈ PTE2PA <$> vs)) (k_mem s) (k_mem s1) ∧
    ∀ va, 0 ≤ va < 2 ^ 39 → pt_lookup (k_mem s1) root va = None) as (s1 & Hrun & Hok1 & Hf1 & Hn1).
  { destruct (Z.ltb_spec 0 sz).
    - rewrite Hlen, Z.div_mul by done.
      destruct (uvmunmap_ok root s T fl 0 vs true) as (s1 & ? & ? & ? & Hlk); try (done || lia).
      exists s1. split_and!; [done..|]. intros va Hva. rewrite Hlk by done. unfold unmaps.
      destruct (decide _); [done|]. apply Hrest. lia.
    - assert (sz = 0) as -> by lia. destruct vs as [|v vs]; [|by vm_compute in Hlen].
      exists s. split_and!; [done.. | apply mframe_refl | exact Hrest]. }
  run Hrun. destruct (freewalk_root root s1 T _ Hok1 Hn1) as (s' & fl' & Hrun' & Hk' & Hp' & Hf').
  assert (E : all_pages T (rev (PTE2PA <$> vs) ++ fl) ≡ₚ (PTE2PA <$> vs) ++ all_pages T fl).
  { by rewrite all_pages_app, <- Permutation_rev. }
  exists s', fl'. split_and!; [done.. | by rewrite Hp' |].
  eapply mframe_trans; [exact Hf1 | exact Hf' | |]; cbn beta; intros p.
  - rewrite elem_of_app, elem_of_all_pages. tauto.
  - by rewrite E.
Qed.

(** C33. [uvmfree] of an address space whose only mappings are its [sz] bytes never
    panics and gives back every page: the mapped ones and all page-table pages end up
    on the free list, each exactly once, and no other memory changes. *)
Theorem uvmfree_frees_all root s T fl sz vs :
  vm_ok s root T fl → 0 ≤ sz ≤ MAXVA → PGROUNDUP sz = Z.of_nat (length vs) * PGSIZE →
  mapped (k_mem s) root 0 vs → owned T fl vs →
  (∀ va, Z.of_nat (length vs) * PGSIZE ≤ va < 2 ^ 39 → pt_lookup (k_mem s) root va = None) →
  ∃ s' fl', uvmfree root sz s = Ok (tt, s') ∧ kinv s' fl' ∧
    fl' ≡ₚ (PTE2PA <$> vs) ++ all_pages T fl ∧
    mframe (λ p, p ∈ (PTE2PA <$> vs) ++ all_pages T fl) (k_mem s) (k_mem s').
Proof. intros. by apply uvmfree_ok. Qed.

End VmFree.
