(* ===== verification/VmCopy.v ===== *)
(** * VmCopy: moving bytes between kernel and user memory

    The theorems about [walkaddr], [copyin], [copyout] and [copyinstr] of
    src/kernel/vm.c.  [user_ld] is the memory a user process sees through its page
    table; the copying functions are specified by what they do to it. *)

From S2P Require Import Prelude Mem Layout Kalloc Vm VmTable VmUser.
Import CString.

Local Open Scope Z_scope.
#[local] Opaque memset memmove st64 ld64 PX mkpte kalloc kfree.

(** The physical address of a user virtual address; [None] where user code faults. *)
Definition user_pa (m : memory) (root va : Z) : option Z :=
  if va <? MAXVA then
    match pt_lookup m root va with
    | Some v => if has v PTE_U then Some (PTE2PA v + va mod PGSIZE) else None
    | None => None
    end
  else None.

Definition user_ld (m : memory) (root va : Z) : option Z := ld8 m <$> user_pa m root va.

Section VmCopy.
  Context {K : KernelImage} {KOk : KernelImageOk K}.

(** A process's table, and the pages user code can reach: valid pages outside the
    table, no page reachable at two virtual pages. *)
Record user_space (m : memory) (root : Z) (T : gmap Z nat) : Prop := {
  us_wf : pt_wf m root T;
  us_page va v : 0 ≤ va < MAXVA → pt_lookup m root va = Some v → has v PTE_U = true →
    page_ok (PTE2PA v) ∧ T !! PTE2PA v = None;
  us_inj va va' v v' : 0 ≤ va < MAXVA → 0 ≤ va' < MAXVA →
    pt_lookup m root va = Some v → has v PTE_U = true →
    pt_lookup m root va' = Some v' → has v' PTE_U = true →
    PTE2PA v = PTE2PA v' → va / PGSIZE = va' / PGSIZE;
}.

(** Address [a] belongs to neither the table nor a user page. *)
Definition kernel_byte (m : memory) (root : Z) (T : gmap Z nat) (a : Z) : Prop :=
  (∀ p, is_Some (T !! p) → ¬ in_page p a) ∧
  (∀ va v, 0 ≤ va < MAXVA → pt_lookup m root va = Some v → has v PTE_U = true →
     ¬ in_page (PTE2PA v) a).

(** ** Memory changes outside the table *)

Definition same_tables (T : gmap Z nat) (m m' : memory) : Prop :=
  ∀ p a, is_Some (T !! p) → in_page p a → ld8 m' a = ld8 m a.

Lemma same_pte T m m' p i :
  same_tables T m m' → is_Some (T !! p) → 0 ≤ i < 512 → pte m' p i = pte m p i.
Proof.
  intros Hs Hp Hi. apply ld64_ext. intros a Ha. apply (Hs p); [done|].
  unfold in_page, PGSIZE. lia.
Qed.

Lemma same_wf T m m' root : same_tables T m m' → pt_wf m root T → pt_wf m' root T.
Proof. intros Hs. apply pt_wf_ext. intros p l i Hp. apply (same_pte T); eauto. Qed.

Lemma same_lookup T m m' root va :
  same_tables T m m' → pt_wf m root T → pt_lookup m' root va = pt_lookup m root va.
Proof.
  intros Hs Hwf. apply (lookup_from_ext m m' root T); [|done|apply Hwf].
  intros p l i Hp. apply (same_pte T); eauto.
Qed.

Lemma same_user_pa T m m' root va :
  same_tables T m m' → pt_wf m root T → user_pa m' root va = user_pa m root va.
Proof. intros Hs Hwf. unfold user_pa. by rewrite (same_lookup T m m'). Qed.

Lemma same_user_space T m m' root :
  same_tables T m m' → user_space m root T → user_space m' root T.
Proof.
  intros Hs [Hwf Hp Hi]. split; [by eapply same_wf | |].
  - intros va v. rewrite (same_lookup T m m') by done. apply Hp.
  - intros va va' v v'. rewrite !(same_lookup T m m') by done. apply Hi.
Qed.

Lemma same_kernel_byte T m m' root a :
  same_tables T m m' → pt_wf m root T → kernel_byte m root T a → kernel_byte m' root T a.
Proof.
  intros Hs Hwf [Ht Hu]. split; [done|]. intros va v. rewrite (same_lookup T m m') by done. apply Hu.
Qed.

(** Virtual addresses of one page translate alike. *)
Lemma pt_lookup_page m root va va' :
  va / PGSIZE = va' / PGSIZE → pt_lookup m root va = pt_lookup m root va'.
Proof.
  intros E. unfold pt_lookup. cbn [lookup_from].
  rewrite !(PX_page _ va va') by (done || lia). done.
Qed.

Lemma user_pa_page m root va va' :
  va / PGSIZE = va' / PGSIZE → user_pa m root va' = (λ a, a + (va' - va)) <$> user_pa m root va.
Proof.
  intros E. unfold user_pa. rewrite (pt_lookup_page m root va' va) by done.
  assert (HM : MAXVA = 67108864 * PGSIZE) by done.
  assert ((va' <? MAXVA) = (va <? MAXVA)) as -> by (rewrite HM; unfold PGSIZE in *; zdiv).
  destruct (va <? MAXVA); [|done]. destruct (pt_lookup _ _ _) as [v|]; [|done].
  destruct (has v PTE_U); [|done]. cbn. f_equal. unfold PGSIZE in *. zdiv.
Qed.

(** ** walkaddr *)

Lemma walkaddr_ok s root T va :
  user_space (k_mem s) root T → 0 ≤ va → va mod PGSIZE = 0 →
  walkaddr root va s = Ok (default 0 (user_pa (k_mem s) root va), s).
Proof.
  intros Hus Hva Hal. unfold walkaddr, user_pa. rewrite Hal.
  destruct (Z.leb_spec MAXVA va), (Z.ltb_spec va MAXVA); try lia; [done|].
  rewrite (bind_ok _ _ _ _ _ (walk_noalloc s root va ltac:(lia))). unfold pt_lookup.
  rewrite lookup_from_leaf. destruct (leaf_table 2 (k_mem s) root va) as [t|] eqn:Ht; [|done].
  assert (Hl : T !! t = Some 0%nat) by (eapply leaf_level; eauto using us_wf).
  rewrite (pte_addr_nonzero _ _ _ _ _ (us_wf _ _ _ Hus)) by (eauto using PX_range || apply PX_range; lia).
  unfold read64. rewrite bind_gets. cbn. fold (pte (k_mem s) t (PX 0 va)).
  destruct (has (pte _ _ _) PTE_V); [|done]. cbn.
  destruct (has (pte _ _ _) PTE_U); [|done]. cbn. by rewrite Z.add_0_r.
Qed.

(** A user-mapped page translates to a valid page. *)
Lemma user_pa_ok m root T va pa :
  user_space m root T → 0 ≤ va → va mod PGSIZE = 0 → user_pa m root va = Some pa →
  page_ok pa ∧ T !! pa = None ∧ 0 ≤ va < MAXVA ∧
  ∃ v, pt_lookup m root va = Some v ∧ has v PTE_U = true ∧ pa = PTE2PA v.
Proof.
  intros Hus Hva Hal. unfold user_pa. rewrite Hal.
  destruct (Z.ltb_spec va MAXVA); [|done]. destruct (pt_lookup m root va) as [v|] eqn:Hv; [|done].
  destruct (has v PTE_U) eqn:Hu; [|done]. rewrite Z.add_0_r. intros [= <-].
  destruct (us_page _ _ _ Hus va v); try (done || lia). split_and!; eauto.
Qed.

(** ** copyin *)

Lemma PGROUNDDOWN_bounds a :
  PGROUNDDOWN a ≤ a < PGROUNDDOWN a + PGSIZE ∧ PGROUNDDOWN a mod PGSIZE = 0.
Proof. rewrite PGROUNDDOWN_eq. unfold PGSIZE. zdiv. Qed.

(** Storing into kernel bytes leaves the tables alone. *)
Lemma memmove_kernel m root T dst src n :
  0 ≤ n → (∀ a, dst ≤ a < dst + n → kernel_byte m root T a) →
  same_tables T m (memmove m dst src n).
Proof.
  intros Hn Hk p a Hp Ha. rewrite ld8_memmove by done.
  destruct (_ && _) eqn:E; [|done]. destruct (Hk a) as [Hk1 _]; [lia|]. by apply Hk1 in Hp.
Qed.

Lemma user_pa_in m root va pa :
  0 ≤ va → user_pa m root va = Some pa →
  0 ≤ va < MAXVA ∧
  ∃ v, pt_lookup m root va = Some v ∧ has v PTE_U = true ∧ pa = PTE2PA v + va mod PGSIZE ∧
    in_page (PTE2PA v) pa.
Proof.
  intros Hva. unfold user_pa. destruct (Z.ltb_spec va MAXVA); [|done].
  destruct (pt_lookup m root va) as [v|]; [|done]. destruct (has v PTE_U) eqn:Hu; [|done].
  intros [= <-]. split; [lia|]. exists v. split_and!; try done. unfold in_page, PGSIZE. zdiv.
Qed.

(** The user's view does not change when only kernel bytes do. *)
Lemma user_ld_kernel m m' root T va :
  pt_wf m root T → same_tables T m m' → 0 ≤ va →
  (∀ a, ¬ kernel_byte m root T a → ld8 m' a = ld8 m a) →
  user_ld m' root va = user_ld m root va.
Proof.
  intros Hwf Hs Hva Hsame. unfold user_ld. rewrite (same_user_pa T m m') by done.
  destruct (user_pa m root va) as [pa|] eqn:Hpa; [|done]. cbn. f_equal. apply Hsame.
  intros [_ Hk]. apply user_pa_in in Hpa as (Hr & v & Hv & Hu & _ & Hin); [|done]. by eapply Hk.
Qed.

Lemma copyin_loop_ok root T fuel : ∀ s dst srcva len,
  user_space (k_mem s) root T → 0 ≤ srcva →
  (∀ a, dst ≤ a < dst + len → kernel_byte (k_mem s) root T a) →
  len + srcva mod PGSIZE ≤ (Z.of_nat fuel - 1) * PGSIZE → (0 < fuel)%nat →
  ∃ r s', copyin_loop fuel root dst srcva len s = Ok (r, s') ∧
    k_freelist s' = k_freelist s ∧
    (∀ a, a < dst ∨ dst + len ≤ a → ld8 (k_mem s') a = ld8 (k_mem s) a) ∧
    ((r = 0 ∧ ∀ i, 0 ≤ i < len → user_ld (k_mem s) root (srcva + i) = Some (ld8 (k_mem s') (dst + i))) ∨
     (r = err ∧ ∃ i, 0 ≤ i < len ∧ user_pa (k_mem s) root (srcva + i) = None)).
Proof.
  induction fuel as [|fuel IH]; intros s dst srcva len Hus Hva Hk Hfu Hpos; [lia|].
  cbn [copyin_loop]. destruct (Z.ltb_spec 0 len) as [Hlen|Hlen].
  2:{ exists 0, s. split_and!; [done..|]. left. split; [done | lia]. }
  destruct (PGROUNDDOWN_bounds srcva) as [Hb Hal]. set (va0 := PGROUNDDOWN srcva) in *.
  assert (Hva0 : 0 ≤ va0) by (unfold PGSIZE in *; zdiv).
  rewrite (bind_ok _ _ _ _ _ (walkaddr_ok s root T va0 Hus Hva0 Hal)).
  destruct (user_pa (k_mem s) root va0) as [pa|] eqn:Hpa; cbn [default from_option id].
  2:{ exists err, s. split_and!; [done..|]. right. split; [done|]. exists 0. split; [lia|].
      rewrite (user_pa_page _ _ va0), Hpa by (unfold PGSIZE in *; zdiv). done. }
  destruct (user_pa_ok _ _ _ _ _ Hus Hva0 Hal Hpa) as (Hpg & HT & Hmax & v & Hv & Hu & Epa).
  rewrite (proj2 (Z.eqb_neq pa 0)) by (by apply page_ok_nonzero).
  set (n := Z.min (PGSIZE - (srcva - va0)) len).
  assert (Hn : 0 ≤ n ≤ len) by (unfold n; lia).
  unfold mem_modify. rewrite bind_modify. set (s1 := mkKmem _ _).
  assert (Hs : same_tables T (k_mem s) (k_mem s1)).
  { apply memmove_kernel with root; [lia|]. intros a Ha. apply Hk. lia. }
  assert (Hld1 : ∀ i, 0 ≤ i < n → user_ld (k_mem s) root (srcva + i) = Some (ld8 (k_mem s1) (dst + i))).
  { intros i Hi. unfold user_ld. rewrite (user_pa_page _ _ va0), Hpa by (unfold n, PGSIZE in *; zdiv).
    cbn. rewrite ld8_memmove by lia. destruct (_ && _) eqn:E; [|lia]. do 2 f_equal. lia. }
  assert (Hus1 : user_space (k_mem s1) root T) by (by eapply same_user_space).
  assert (Hld : ∀ va, 0 ≤ va → user_ld (k_mem s1) root va = user_ld (k_mem s) root va).
  { intros va Hr. apply (user_ld_kernel _ _ root T); try done; [apply Hus|]. intros a Ha.
    cbn [k_mem s1]. rewrite ld8_memmove by lia. destruct (_ && _) eqn:E; [|done].
    exfalso. apply Ha, Hk. lia. }
  rewrite u64_small by (rewrite MAXVA_eq in Hmax; unfold PGSIZE; lia).
  destruct (IH s1 (dst + n) (va0 + PGSIZE) (len - n)) as (r & s' & Hrun & Hfl & Hout & Hres);
    [done | unfold PGSIZE; lia | | unfold n, PGSIZE in *; zdiv | unfold n, PGSIZE in *; zdiv |].
  { intros a Ha. eapply same_kernel_byte; [done | apply Hus | apply Hk; lia]. }
  exists r, s'. split_and!; [done | by rewrite Hfl | |].
  { intros a Ha. rewrite Hout by lia. cbn [k_mem s1]. rewrite ld8_memmove by lia.
    destruct (_ && _) eqn:E; [lia | done]. }
  assert (Hnext : ∀ i, n ≤ i < len → srcva + i = va0 + PGSIZE + (i - n)) by (unfold n; lia).
  destruct Hres as [[-> Hok]|(-> & i & Hi & Hno)]; [left | right]; (split; [done|]).
  - intros i Hi. destruct (Z.lt_ge_cases i n).
    + rewrite Hld1 by lia. rewrite Hout by lia. done.
    + rewrite Hnext, <- Hld, Hok by (unfold PGSIZE; lia). do 2 f_equal. lia.
  - exists (n + i). split; [lia|]. rewrite Hnext by lia. replace (n + i - n) with i by lia.
    by rewrite <- (same_user_pa T _ _ _ _ Hs (us_wf _ _ _ Hus)).
Qed.

(** ** copyout *)

(** Where user code may store. *)
Definition user_writable (m : memory) (root va : Z) : bool :=
  (va <? MAXVA) &&
  match pt_lookup m root va with
  | Some v => has v PTE_U && has v PTE_W
  | None => false
  end.

Lemma user_writable_page m root va va' :
  va / PGSIZE = va' / PGSIZE → user_writable m root va = user_writable m root va'.
Proof.
  intros E. unfold user_writable. rewrite (pt_lookup_page m root va va') by done.
  assert (HM : MAXVA = 67108864 * PGSIZE) by done.
  by assert ((va <? MAXVA) = (va' <? MAXVA)) as -> by (rewrite HM; unfold PGSIZE in *; zdiv).
Qed.

Lemma same_user_writable T m m' root va :
  same_tables T m m' → pt_wf m root T → user_writable m' root va = user_writable m root va.
Proof. intros Hs Hwf. unfold user_writable. by rewrite (same_lookup T m m'). Qed.

(** A store into the user page mapped at [va0] is seen there and nowhere else. *)
Lemma user_store m root T va0 v off src n :
  user_space m root T → 0 ≤ va0 < MAXVA → va0 mod PGSIZE = 0 →
  pt_lookup m root va0 = Some v → has v PTE_U = true →
  0 ≤ off → 0 ≤ n → off + n ≤ PGSIZE →
  let m1 := memmove m (PTE2PA v + off) src n in
  same_tables T m m1 ∧ (∀ a, kernel_byte m root T a → ld8 m1 a = ld8 m a) ∧
  (∀ va, 0 ≤ va → user_ld m1 root va =
     if decide (va0 + off ≤ va < va0 + off + n)
     then Some (ld8 m (src + (va - (va0 + off)))) else user_ld m root va).
Proof.
  intros Hus Hva0 Hal Hv Hu Hoff Hn Hmax m1. destruct (us_page _ _ _ Hus va0 v Hva0 Hv Hu) as [Hpg HT].
  assert (Hin : ∀ a, PTE2PA v + off ≤ a < PTE2PA v + off + n → in_page (PTE2PA v) a)
    by (unfold in_page; lia).
  assert (Hs : same_tables T m m1).
  { intros p a [l Hl] Ha. unfold m1. rewrite ld8_memmove by done. destruct (_ && _) eqn:E; [|done].
    exfalso. assert (p = PTE2PA v) as ->; [|congruence].
    eapply in_page_unique; [|apply Hpg | done | apply Hin; lia].
    eapply wf_page_aligned; [apply Hus | done]. }
  split_and!; [done | |].
  - intros a [_ Hk]. unfold m1. rewrite ld8_memmove by done. destruct (_ && _) eqn:E; [|done].
    exfalso. eapply Hk; [exact Hva0 | done | done | apply Hin; lia].
  - intros va Hva. unfold user_ld. rewrite (same_user_pa T m m1) by (done || apply Hus).
    destruct (decide _) as [Hd|Hd].
    + rewrite (user_pa_page _ _ va0) by (unfold PGSIZE in *; zdiv). unfold user_pa.
      rewrite (proj2 (Z.ltb_lt _ _)), Hv, Hu, Hal by lia. cbn. f_equal. unfold m1.
      rewrite ld8_memmove by done. destruct (_ && _) eqn:E; [|lia]. f_equal. lia.
    + destruct (user_pa m root va) as [pa|] eqn:Hpa; [|done]. cbn. f_equal. unfold m1.
      rewrite ld8_memmove by done. destruct (_ && _) eqn:E; [|done]. exfalso. apply Hd.
      apply user_pa_in in Hpa as (Hr & w & Hw & Huw & -> & Hinw); [|done].
      assert (Hpw : page_ok (PTE2PA w)) by (by apply (us_page _ _ _ Hus va w)).
      assert (Epa : PTE2PA v = PTE2PA w).
      { apply (in_page_unique _ _ (PTE2PA w + va mod PGSIZE)); [apply Hpg | apply Hpw | apply Hin; lia | done]. }
      pose proof (us_inj _ _ _ Hus va0 va v w Hva0 Hr Hv Hu Hw Huw Epa) as Epg.
      rewrite <- Epa in E. unfold PGSIZE in *. zdiv.
Qed.

(** The checks [copyout] makes on the entry it walks to. *)
Lemma copyout_probe s root T va0 :
  user_space (k_mem s) root T → 0 ≤ va0 < MAXVA →
  ∃ t v, walk root va0 false s = Ok (t, s) ∧
    (if t =? 0 then mret 0 else read64 t) s = Ok (v, s) ∧
    (t =? 0) || negb (has v PTE_V) || negb (has v PTE_U) || negb (has v PTE_W) =
      negb (user_writable (k_mem s) root va0) ∧
    (user_writable (k_mem s) root va0 = true →
       pt_lookup (k_mem s) root va0 = Some v ∧ has v PTE_U = true).
Proof.
  intros Hus Hva0. unfold user_writable. rewrite (proj2 (Z.ltb_lt _ _)) by lia. cbn [andb].
  rewrite (walk_noalloc s root va0) by lia. unfold pt_lookup. rewrite lookup_from_leaf.
  destruct (leaf_table 2 (k_mem s) root va0) as [t|] eqn:Ht; cbn [mbind option_bind];
    [|by exists 0, 0].
  assert (Hl : T !! t = Some 0%nat) by (eapply leaf_level; eauto using us_wf).
  eexists _, (pte (k_mem s) t (PX 0 va0)). split; [done|].
  rewrite (pte_addr_nonzero _ _ _ _ _ (us_wf _ _ _ Hus)) by (eauto || apply PX_range; lia).
  split; [done|]. cbn [orb]. destruct (has (pte _ _ _) PTE_V); cbn [negb orb]; [|done].
  by destruct (has (pte _ _ _) PTE_U), (has (pte _ _ _) PTE_W).
Qed.

Lemma copyout_loop_ok root T fuel : ∀ s dstva src len,
  user_space (k_mem s) root T → 0 ≤ dstva →
  (∀ a, src ≤ a < src + len → kernel_byte (k_mem s) root T a) →
  len + dstva mod PGSIZE ≤ (Z.of_nat fuel - 1) * PGSIZE → (0 < fuel)%nat →
  ∃ r s', copyout_loop fuel root dstva src len s = Ok (r, s') ∧
    k_freelist s' = k_freelist s ∧ same_tables T (k_mem s) (k_mem s') ∧
    (∀ a, kernel_byte (k_mem s) root T a → ld8 (k_mem s') a = ld8 (k_mem s) a) ∧
    (∀ va, 0 ≤ va → va < dstva ∨ dstva + len ≤ va →
       user_ld (k_mem s') root va = user_ld (k_mem s) root va) ∧
    ((r = 0 ∧ ∀ i, 0 ≤ i < len → user_writable (k_mem s) root (dstva + i) = true ∧
        user_ld (k_mem s') root (dstva + i) = Some (ld8 (k_mem s) (src + i))) ∨
     (r = err ∧ ∃ i, 0 ≤ i < len ∧ user_writable (k_mem s) root (dstva + i) = false)).
Proof.
  induction fuel as [|fuel IH]; intros s dstva src len Hus Hva Hk Hfu Hpos; [lia|].
  cbn [copyout_loop]. destruct (Z.ltb_spec 0 len) as [Hlen|Hlen].
  2:{ exists 0, s. split_and!; [done..|]. left. split; [done | lia]. }
  destruct (PGROUNDDOWN_bounds dstva) as [Hb Hal]. set (va0 := PGROUNDDOWN dstva) in *.
  assert (Hva0 : 0 ≤ va0) by (unfold PGSIZE in *; zdiv).
  assert (Hbad : user_writable (k_mem s) root va0 = false →
    ∃ i, 0 ≤ i < len ∧ user_writable (k_mem s) root (dstva + i) = false).
  { intros E. exists 0. split; [lia|]. rewrite (user_writable_page _ _ _ va0); [done|].
    unfold PGSIZE in *. zdiv. }
  destruct (Z.leb_spec MAXVA va0) as [|Hmax].
  { exists err, s. split_and!; [done..|]. right. split; [done|]. apply Hbad. unfold user_writable.
    by rewrite (proj2 (Z.ltb_ge _ _)). }
  destruct (copyout_probe s root T va0 Hus (conj Hva0 Hmax)) as (t & v & Hw & Hr & Hg & Hv).
  run Hw. rewrite (bind_ok _ _ _ _ _ Hr), Hg.
  destruct (user_writable (k_mem s) root va0) eqn:Hwr; cbn [negb];
    [|exists err, s; split_and!; [done..|]; right; auto].
  destruct (Hv eq_refl) as [Hlk Hu]. clear Hv Hbad Hg Hw Hr.
  set (n := Z.min (PGSIZE - (dstva - va0)) len). assert (Hn : 0 ≤ n ≤ len) by (unfold n; lia).
  unfold mem_modify. rewrite bind_modify. set (s1 := mkKmem _ _).
  destruct (user_store (k_mem s) root T va0 v (dstva - va0) src n) as (Hs & Hkb & Hld);
    try (done || unfold n; lia). cbv zeta in *.
  assert (Hus1 : user_space (k_mem s1) root T) by (by eapply same_user_space).
  rewrite u64_small by (rewrite MAXVA_eq in Hmax; unfold PGSIZE; lia).
  destruct (IH s1 (va0 + PGSIZE) (src + n) (len - n)) as (r & s' & Hrun & Hfl & Hs' & Hkb' & Hout & Hres);
    [done | unfold PGSIZE; lia | | unfold n, PGSIZE in *; zdiv | unfold n, PGSIZE in *; zdiv |].
  { intros a Ha. eapply same_kernel_byte; [done | apply Hus | apply Hk; lia]. }
  assert (Hb1 : dstva = va0 + (dstva - va0)) by lia. rewrite <- Hb1 in Hld.
  exists r, s'. split_and!; [done | by rewrite Hfl | | | |].
  { intros p a Hp Ha. rewrite (Hs' p a Hp Ha). by apply (Hs p). }
  { intros a Ha. rewrite Hkb', <- Hkb by (done || by eapply same_kernel_byte; [|apply Hus|]). done. }
  { intros va Hr Ho. rewrite Hout, Hld by (done || unfold n; lia). rewrite decide_False by lia. done. }
  assert (Hnext : ∀ i, n ≤ i < len → dstva + i = va0 + PGSIZE + (i - n)) by (unfold n; lia).
  destruct Hres as [[-> Hok]|(-> & i & Hi & Hno)]; [left | right]; (split; [done|]).
  - intros i Hi. destruct (Z.lt_ge_cases i n).
    + split; [rewrite (user_writable_page _ _ _ va0); [done | unfold n, PGSIZE in *; zdiv]|].
      rewrite Hout, Hld, decide_True by (unfold n in *; lia). do 2 f_equal. lia.
    + rewrite Hnext by lia. destruct (Hok (i - n) ltac:(lia)) as [Hw1 ->].
      split; [by rewrite <- (same_user_writable T _ _ _ _ Hs (us_wf _ _ _ Hus))|]. f_equal. rewrite Hkb by (apply Hk; lia). f_equal. lia.
  - exists (n + i). split; [lia|]. rewrite Hnext by lia. replace (n + i - n) with i by lia.
    by rewrite <- (same_user_writable T _ _ _ _ Hs (us_wf _ _ _ Hus)).
Qed.

Lemma copy_fuel_enough len va :
  0 ≤ len → len + va mod PGSIZE ≤ (Z.of_nat (copy_fuel len) - 1) * PGSIZE.
Proof.
  intros Hlen. unfold copy_fuel, PGSIZE. rewrite !Nat2Z.inj_succ, Z2Nat.id by zdiv. zdiv.
Qed.

(** [copyin] is exact: it returns 0 precisely when every byte of the user range is
    readable through the page table, and then the kernel buffer holds those bytes;
    otherwise it returns -1.  It always terminates, and never writes outside the
    buffer. *)
Theorem copyin_exact root T s dst srcva len :
  user_space (k_mem s) root T → 0 ≤ srcva → 0 ≤ len →
  (∀ a, dst ≤ a < dst + len → kernel_byte (k_mem s) root T a) →
  ∃ r s', copyin root dst srcva len s = Ok (r, s') ∧
    k_freelist s' = k_freelist s ∧
    (∀ a, a < dst ∨ dst + len ≤ a → ld8 (k_mem s') a = ld8 (k_mem s) a) ∧
    ((r = 0 ∧ ∀ i, 0 ≤ i < len → user_ld (k_mem s) root (srcva + i) = Some (ld8 (k_mem s') (dst + i))) ∨
     (r = err ∧ ∃ i, 0 ≤ i < len ∧ user_pa (k_mem s) root (srcva + i) = None)).
Proof.
  intros. apply (copyin_loop_ok root T); try done; [by apply copy_fuel_enough | unfold copy_fuel; lia].
Qed.

(** C34. [copyout] is exact: it returns 0 precisely when every byte of the user range is
    writable, and then user code sees the kernel's bytes there; otherwise it returns -1.
    In both cases user memory outside the range, the page table and all kernel memory
    are unchanged. *)
Theorem copyout_exact root T s dstva src len :
  user_space (k_mem s) root T → 0 ≤ dstva → 0 ≤ len →
  (∀ a, src ≤ a < src + len → kernel_byte (k_mem s) root T a) →
  ∃ r s', copyout root dstva src len s = Ok (r, s') ∧
    k_freelist s' = k_freelist s ∧ same_tables T (k_mem s) (k_mem s') ∧
    (∀ a, kernel_byte (k_mem s) root T a → ld8 (k_mem s') a = ld8 (k_mem s) a) ∧
    (∀ va, 0 ≤ va → va < dstva ∨ dstva + len ≤ va →
       user_ld (k_mem s') root va = user_ld (k_mem s) root va) ∧
    ((r = 0 ∧ ∀ i, 0 ≤ i < len → user_writable (k_mem s) root (dstva + i) = true ∧
        user_ld (k_mem s') root (dstva + i) = Some (ld8 (k_mem s) (src + i))) ∨
     (r = err ∧ ∃ i, 0 ≤ i < len ∧ user_writable (k_mem s) root (dstva + i) = false)).
Proof.
  intros. apply copyout_loop_ok; try done; [by apply copy_fuel_enough | unfold copy_fuel; lia].
Qed.

(** ** copyinstr *)

(** The copy loop within one page: it stops after the first NUL. *)
Lemma copyinstr_page_ok n : ∀ s p dst max,
  (∀ i j, 0 ≤ i < Z.of_nat n → 0 ≤ j < Z.of_nat n → p + i ≠ dst + j) →
  ∃ (b : bool) k s', copyinstr_page n p dst max s = Ok ((b, max - k, dst + k), s') ∧
    k_freelist s' = k_freelist s ∧ 0 ≤ k ≤ Z.of_nat n ∧
    (∀ a, a < dst ∨ dst + Z.of_nat n ≤ a → ld8 (k_mem s') a = ld8 (k_mem s) a) ∧
    (∀ i, 0 ≤ i < k → ld8 (k_mem s') (dst + i) = ld8 (k_mem s) (p + i) ∧ ld8 (k_mem s) (p + i) ≠ 0) ∧
    (if b then k < Z.of_nat n ∧ ld8 (k_mem s) (p + k) = 0 ∧ ld8 (k_mem s') (dst + k) = 0
     else k = Z.of_nat n).
Proof.
  induction n as [|n IH]; intros s p dst max Hdis.
  { exists false, 0, s. rewrite Z.sub_0_r, Z.add_0_r. split_and!; done || lia. }
  cbn [copyinstr_page]. rewrite bind_gets. pose proof (ld8_range (k_mem s) p) as Hc.
  assert (Hst : ∀ c a, a ≠ dst → ld8 (st8 (k_mem s) dst c) a = ld8 (k_mem s) a).
  { intros c a Ha. by apply ld8_st8_ne. }
  destruct (Z.eqb_spec (ld8 (k_mem s) p) 0) as [E|E].
  - exists true, 0, (mkKmem (st8 (k_mem s) dst 0) (k_freelist s)).
    rewrite Z.sub_0_r, !Z.add_0_r. cbn [k_mem k_freelist]. split_and!; try (done || lia).
    + intros a Ha. apply Hst. lia.
    + by rewrite ld8_st8_eq.
  - unfold mem_modify. rewrite bind_modify. set (s1 := mkKmem _ _).
    destruct (IH s1 (p + 1) (dst + 1) (max - 1)) as (b & k & s' & Hrun & Hfl & Hk & Hout & Hcp & Hb).
    { intros i j Hi Hj. specialize (Hdis (i + 1) (j + 1)). lia. }
    assert (H1 : ∀ i, 0 ≤ i < Z.of_nat n → ld8 (k_mem s1) (p + 1 + i) = ld8 (k_mem s) (p + (1 + i))).
    { intros i Hi. unfold s1. cbn [k_mem]. rewrite Hst; [f_equal; lia|]. specialize (Hdis (1 + i) 0). lia. }
    exists b, (1 + k), s'. split.
    { rewrite Hrun. replace (max - 1 - k) with (max - (1 + k)) by lia.
      by replace (dst + 1 + k) with (dst + (1 + k)) by lia. }
    split_and!; [done | lia.. | | |].
    + intros a Ha. rewrite Hout by lia. apply Hst. lia.
    + intros i Hi. destruct (decide (i = 0)) as [->|].
      * rewrite !Z.add_0_r. split; [|done]. rewrite Hout by lia. unfold s1. cbn [k_mem].
        by rewrite ld8_st8_eq, u8_small.
      * destruct (Hcp (i - 1)) as [Hc1 Hc2]; [lia|]. rewrite H1 in Hc1, Hc2 by lia.
        replace (1 + (i - 1)) with i in * by lia. split; [rewrite <- Hc1; f_equal; lia | done].
    + destruct b; [|lia]. destruct Hb as (Hb1 & Hb2 & Hb3). rewrite H1 in Hb2 by lia.
      split_and!; [lia | done|]. rewrite <- Hb3. f_equal. lia.
Qed.

(** The user string at [va] has a NUL after [k] bytes. *)
Definition user_str (m : memory) (root va k : Z) : Prop :=
  0 ≤ k ∧ user_ld m root (va + k) = Some 0 ∧
  ∀ i, 0 ≤ i < k → ∃ c, user_ld m root (va + i) = Some c ∧ c ≠ 0.

Lemma no_user_str m root va k : user_pa m root va = None → ¬ user_str m root va k.
Proof.
  intros Hpa (Hk & Hz & Hnz). assert (E : user_ld m root (va + 0) = None).
  { unfold user_ld. by rewrite Z.add_0_r, Hpa. }
  destruct (decide (k = 0)) as [->|]; [congruence|].
  destruct (Hnz 0) as (c & Hc & _); [lia | congruence].
Qed.

(** A prefix without NUL does not matter. *)
Lemma user_str_skip m root va n k :
  0 ≤ n → (∀ i, 0 ≤ i < n → ∃ c, user_ld m root (va + i) = Some c ∧ c ≠ 0) →
  user_str m root va k ↔ n ≤ k ∧ user_str m root (va + n) (k - n).
Proof.
  intros Hn Hpre. unfold user_str. replace (va + n + (k - n)) with (va + k) by lia. split.
  - intros (Hk & Hz & Hnz). destruct (decide (n ≤ k)).
    + split_and!; try (done || lia). intros i Hi. rewrite <- Z.add_assoc. apply Hnz. lia.
    + destruct (Hpre k) as (c & Hc & Hc0); [lia | congruence].
  - intros (Hnk & Hk & Hz & Hnz). split_and!; [lia | done|]. intros i Hi.
    destruct (decide (i < n)); [apply Hpre; lia|].
    destruct (Hnz (i - n)) as (c & Hc & Hc0); [lia|]. exists c. split; [|done].
    rewrite <- Hc. f_equal. lia.
Qed.

Lemma user_str_ext m m' root va k :
  0 ≤ va → (∀ a, 0 ≤ a → user_ld m' root a = user_ld m root a) → user_str m' root va k ↔ user_str m root va k.
Proof.
  intros Hva Hld. unfold user_str. split; intros (H0 & Hz & Hnz); (split; [done|]).
  - rewrite Hld in Hz by lia. split; [done|]. intros i Hi. rewrite <- Hld by lia. auto.
  - rewrite Hld by lia. split; [done|]. intros i Hi. rewrite Hld by lia. auto.
Qed.

(** A string that ends in the page at [p] and has been copied to [dst]. *)
Lemma user_str_copied m m' root va dst p n k :
  (∀ i, 0 ≤ i < n → user_ld m root (va + i) = Some (ld8 m (p + i))) → 0 ≤ k ≤ n →
  (∀ i, 0 ≤ i < k → ld8 m' (dst + i) = ld8 m (p + i) ∧ ld8 m (p + i) ≠ 0) →
  k < n → ld8 m (p + k) = 0 → ld8 m' (dst + k) = 0 →
  user_str m root va k ∧ ∀ i, 0 ≤ i ≤ k → user_ld m root (va + i) = Some (ld8 m' (dst + i)).
Proof.
  intros Hld Hk Hcp Hkn Hz Hz'. split; [split_and!; [lia | by rewrite Hld, Hz by lia|]|].
  - intros i Hi. destruct (Hcp i Hi). rewrite Hld by lia. eauto.
  - intros i Hi. rewrite Hld by lia. f_equal. destruct (decide (i = k)) as [->|]; [congruence|]. symmetry. apply Hcp. lia.
Qed.

Lemma copyinstr_loop_ok root T fuel : ∀ s dst srcva max,
  user_space (k_mem s) root T → 0 ≤ srcva →
  (∀ a, dst ≤ a < dst + max → kernel_byte (k_mem s) root T a) →
  max + srcva mod PGSIZE ≤ (Z.of_nat fuel - 1) * PGSIZE → (0 < fuel)%nat →
  ∃ r s', copyinstr_loop fuel root dst srcva max s = Ok (r, s') ∧
    k_freelist s' = k_freelist s ∧
    (∀ a, a < dst ∨ dst + max ≤ a → ld8 (k_mem s') a = ld8 (k_mem s) a) ∧
    ((r = 0 ∧ ∃ k, k < max ∧ user_str (k_mem s) root srcva k ∧
        ∀ i, 0 ≤ i ≤ k → user_ld (k_mem s) root (srcva + i) = Some (ld8 (k_mem s') (dst + i))) ∨
     (r = err ∧ ∀ k, k < max → ¬ user_str (k_mem s) root srcva k)).
Proof.
  induction fuel as [|fuel IH]; intros s dst srcva max Hus Hva Hk Hfu Hpos; [lia|].
  cbn [copyinstr_loop]. destruct (Z.ltb_spec 0 max) as [Hlen|Hlen].
  2:{ exists err, s. split_and!; [done..|]. right. split; [done|]. intros k Hkm (? & _). lia. }
  destruct (PGROUNDDOWN_bounds srcva) as [Hb Hal]. set (va0 := PGROUNDDOWN srcva) in *.
  assert (Hva0 : 0 ≤ va0) by (unfold PGSIZE in *; zdiv).
  rewrite (bind_ok _ _ _ _ _ (walkaddr_ok s root T va0 Hus Hva0 Hal)).
  destruct (user_pa (k_mem s) root va0) as [pa|] eqn:Hpa; cbn [default from_option id].
  2:{ exists err, s. split_and!; [done..|]. right. split; [done|]. intros k _. apply no_user_str.
      rewrite (user_pa_page _ _ va0), Hpa by (unfold PGSIZE in *; zdiv). done. }
  destruct (user_pa_ok _ _ _ _ _ Hus Hva0 Hal Hpa) as (Hpg & HT & Hmax & v & Hv & Hu & Epa).
  rewrite (proj2 (Z.eqb_neq pa 0)) by (by apply page_ok_nonzero).
  set (n := Z.min (PGSIZE - (srcva - va0)) max).
  assert (Hn : 0 ≤ n ≤ max) by (unfold n; lia).
  assert (Hld1 : ∀ i, 0 ≤ i < n →
    user_ld (k_mem s) root (srcva + i) = Some (ld8 (k_mem s) (pa + (srcva - va0) + i))).
  { intros i Hi. unfold user_ld. rewrite (user_pa_page _ _ va0), Hpa by (unfold n, PGSIZE in *; zdiv).
    cbn. do 2 f_equal. lia. }
  destruct (copyinstr_page_ok (Z.to_nat n) s (pa + (srcva - va0)) dst max)
    as (b & k & s1 & Hrun & Hfl & Hkn & Hout & Hcp & Hbk).
  { intros i j Hi Hj E. destruct (Hk (dst + j)) as [_ Hkb]; [lia|].
    eapply Hkb; [exact Hmax | exact Hv | exact Hu|]. rewrite <- E, <- Epa.
    unfold in_page, n, PGSIZE in *. lia. }
  rewrite Z2Nat.id in * by lia. run Hrun. clear Hrun. destruct b.
  { destruct Hbk as (Hk1 & Hk2 & Hk3). exists 0, s1. split_and!; [done.. | intros a Ha; apply Hout; lia|].
    left. split; [done|]. exists k. split; [lia|]. by apply (user_str_copied _ _ _ _ _ (pa + (srcva - va0)) n). }
  subst k. assert (Hs : same_tables T (k_mem s) (k_mem s1)).
  { intros p a Hp Ha. apply Hout. destruct (decide (dst ≤ a < dst + n)); [|lia].
    destruct (Hk a) as [Hk1 _]; [lia|]. by apply Hk1 in Hp. }
  assert (Hus1 : user_space (k_mem s1) root T) by (by eapply same_user_space).
  assert (Hld : ∀ va, 0 ≤ va → user_ld (k_mem s1) root va = user_ld (k_mem s) root va).
  { intros va Hr. apply (user_ld_kernel _ _ root T); try done; [apply Hus|]. intros a Ha.
    apply Hout. destruct (decide (dst ≤ a < dst + n)); [|lia]. exfalso. apply Ha, Hk. lia. }
  rewrite u64_small by (rewrite MAXVA_eq in Hmax; unfold PGSIZE; lia).
  destruct (IH s1 (dst + n) (va0 + PGSIZE) (max - n)) as (r & s' & Hrun & Hfl' & Hout' & Hres);
    [done | unfold PGSIZE; lia | | unfold n, PGSIZE in *; zdiv | unfold n, PGSIZE in *; zdiv |].
  { intros a Ha. eapply same_kernel_byte; [done | apply Hus | apply Hk; lia]. }
  exists r, s'. split_and!; [done | by rewrite Hfl' | intros a Ha; rewrite Hout', Hout by lia; done |].
  assert (Hskip : ∀ k, user_str (k_mem s) root srcva k ↔
    n ≤ k ∧ user_str (k_mem s) root (srcva + n) (k - n)).
  { intros k. apply user_str_skip; [lia|]. intros i Hi. rewrite Hld1 by lia. destruct (Hcp i); eauto. }
  assert (Hstr : ∀ k, user_str (k_mem s1) root (va0 + PGSIZE) k ↔ user_str (k_mem s) root (va0 + PGSIZE) k)
    by (intros k; apply user_str_ext; [unfold PGSIZE; lia | exact Hld]).
  assert (Hnext : n < max → srcva + n = va0 + PGSIZE) by (unfold n; lia).
  destruct Hres as [(-> & k & Hkm & Hus' & Hcp')|(-> & Hno)]; [left | right]; (split; [done|]).
  - pose proof (proj1 Hus') as Hk0. exists (n + k). rewrite Hskip, Hnext by lia. apply Hstr in Hus'.
    replace (n + k - n) with k by lia. split_and!; [lia | lia | done |].
    intros i Hi. destruct (Z.lt_ge_cases i n).
    + rewrite Hld1, Hout' by lia. f_equal. symmetry. apply Hcp. lia.
    + replace (srcva + i) with (va0 + PGSIZE + (i - n)) by lia.
      rewrite <- Hld, Hcp' by (unfold PGSIZE; lia). do 2 f_equal. lia.
  - intros k Hkm Hu'. apply Hskip in Hu' as [Hnk Hu']. rewrite Hnext in Hu' by lia.
    apply Hstr in Hu'. by apply Hno in Hu'; [|lia].
Qed.

(** C35. [copyinstr] is exact: it returns 0 precisely when the user string ends within
    [max] bytes, all of them readable, and then the kernel buffer holds the string with
    its NUL; otherwise it returns -1.  It never writes outside the buffer. *)
Theorem copyinstr_exact root T s dst srcva max :
  user_space (k_mem s) root T → 0 ≤ srcva → 0 ≤ max →
  (∀ a, dst ≤ a < dst + max → kernel_byte (k_mem s) root T a) →
  ∃ r s', copyinstr root dst srcva max s = Ok (r, s') ∧
    k_freelist s' = k_freelist s ∧
    (∀ a, a < dst ∨ dst + max ≤ a → ld8 (k_mem s') a = ld8 (k_mem s) a) ∧
    ((r = 0 ∧ ∃ k, k < max ∧ user_str (k_mem s) root srcva k ∧
        ∀ i, 0 ≤ i ≤ k → user_ld (k_mem s) root (srcva + i) = Some (ld8 (k_mem s') (dst + i))) ∨
     (r = err ∧ ∀ k, k < max → ¬ user_str (k_mem s) root srcva k)).
Proof.
  intros. apply (copyinstr_loop_ok root T); try done; [by apply copy_fuel_enough | unfold copy_fuel; lia].
Qed.

End VmCopy.
