(* ===== verification/VmExample.v ===== *)
(** * VmExample: a small address space, and the theorems of Vm*.v on it

    One user page at virtual address 0, the three table pages it needs, and two free
    pages.  The lemmas named [.._witness] apply the theorems to it. *)

From S2P Require Import Prelude Mem Layout Kalloc Vm VmTable VmUser VmFork VmFree VmCopy.
Import CString.

Local Open Scope Z_scope.
#[local] Opaque memset memmove st64 ld64 PX kalloc kfree.
#[local] Existing Instance xv6_image.
#[local] Existing Instance xv6_image_ok.

Definition ex_root : Z := 0x87000000.
Definition ex_t1 : Z := 0x87001000.
Definition ex_t0 : Z := 0x87002000.
Definition ex_page : Z := 0x87003000.
Definition ex_f1 : Z := 0x87004000.
Definition ex_f2 : Z := 0x87005000.

Definition ex_pte : Z := mkpte ex_page (Z.lor (Z.lor PTE_R PTE_W) PTE_U).

Definition ex_mem : memory :=
  st64 (st64 (st64 (st64 ∅ ex_f1 ex_f2) (ex_t0 + 8 * 0) ex_pte) (ex_t1 + 8 * 0) (mkpte ex_t0 0))
    (ex_root + 8 * 0) (mkpte ex_t1 0).

Definition ex_T : gmap Z nat := {[ex_root := 2%nat; ex_t1 := 1%nat; ex_t0 := 0%nat]}.

Definition ex_state : kmem := mkKmem ex_mem ex_f1.

Ltac ex_unfold := unfold ex_root, ex_t1, ex_t0, ex_page, ex_f1, ex_f2 in *.

Lemma ex_pte_root i : 0 ≤ i < 512 → pte ex_mem ex_root i = if decide (i = 0) then mkpte ex_t1 0 else 0.
Proof.
  intros Hi. unfold ex_mem, pte. destruct (decide (i = 0)) as [->|].
  - apply ld64_st64_eq. by vm_compute.
  - rewrite !ld64_st64_ne by (ex_unfold; lia). by apply ld64_zero.
Qed.

Lemma ex_pte_t1 i : 0 ≤ i < 512 → pte ex_mem ex_t1 i = if decide (i = 0) then mkpte ex_t0 0 else 0.
Proof.
  intros Hi. unfold ex_mem, pte. destruct (decide (i = 0)) as [->|].
  - rewrite ld64_st64_ne by (ex_unfold; lia). apply ld64_st64_eq. by vm_compute.
  - rewrite !ld64_st64_ne by (ex_unfold; lia). by apply ld64_zero.
Qed.

Lemma ex_pte_t0 i : 0 ≤ i < 512 → pte ex_mem ex_t0 i = if decide (i = 0) then ex_pte else 0.
Proof.
  intros Hi. unfold ex_mem, pte. destruct (decide (i = 0)) as [->|].
  - rewrite 2!ld64_st64_ne by (ex_unfold; lia). apply ld64_st64_eq. by vm_compute.
  - rewrite !ld64_st64_ne by (ex_unfold; lia). by apply ld64_zero.
Qed.

Lemma ex_T_cases p l : ex_T !! p = Some l →
  (p = ex_root ∧ l = 2%nat) ∨ (p = ex_t1 ∧ l = 1%nat) ∨ (p = ex_t0 ∧ l = 0%nat).
Proof. unfold ex_T. rewrite !lookup_insert_Some, lookup_singleton_Some. intuition congruence. Qed.

Lemma ex_pages_ok : Forall page_ok [ex_root; ex_t1; ex_t0; ex_page; ex_f1; ex_f2].
Proof. apply (bool_decide_unpack _). by vm_compute. Qed.

Lemma ex_page_ok p : p ∈ [ex_root; ex_t1; ex_t0; ex_page; ex_f1; ex_f2] → page_ok p.
Proof. intros Hp. by eapply Forall_forall in Hp; [|apply ex_pages_ok]. Qed.

Lemma ex_wf : pt_wf ex_mem ex_root ex_T.
Proof.
  assert (HV : has 0 PTE_V = false) by done.
  assert (Hroot : ∀ p i l, ex_T !! p = Some (S l) → 0 ≤ i < 512 → has (pte ex_mem p i) PTE_V = true →
    i = 0 ∧ ((p = ex_root ∧ l = 1%nat ∧ pte ex_mem p i = mkpte ex_t1 0) ∨
             (p = ex_t1 ∧ l = 0%nat ∧ pte ex_mem p i = mkpte ex_t0 0))).
  { intros p i l [[-> [= ->]]|[[-> [= ->]]|[_ [=]]]]%ex_T_cases Hi.
    - rewrite ex_pte_root by done. destruct (decide _) as [->|]; [auto | by rewrite HV].
    - rewrite ex_pte_t1 by done. destruct (decide _) as [->|]; [auto | by rewrite HV]. }
  split.
  - done.
  - by intros p [[-> _]|[[_ [=]]|[_ [=]]]]%ex_T_cases.
  - intros p l [[-> ->]|[[-> ->]|[-> ->]]]%ex_T_cases;
      (split; [apply ex_page_ok; repeat constructor | lia]).
  - intros p l i Hp Hi Hv.
    destruct (Hroot p i l Hp Hi Hv) as [-> [(-> & -> & ->)|(-> & -> & ->)]]; clear; by vm_compute.
  - intros p l i p' l' i' Hp Hp' Hi Hi' Hv Hv'.
    destruct (Hroot p i l Hp Hi Hv) as [-> [(-> & -> & ->)|(-> & -> & ->)]],
      (Hroot p' i' l' Hp' Hi' Hv') as [-> [(-> & -> & ->)|(-> & -> & ->)]]; clear; by vm_compute.
  - intros q l [[-> ->]|[[-> ->]|[-> ->]]]%ex_T_cases Hl; [lia | |].
    + exists ex_root, 0. rewrite ex_pte_root by lia. by vm_compute.
    + exists ex_t1, 0. rewrite ex_pte_t1 by lia. by vm_compute.
Qed.

Lemma ex_lookup va :
  0 ≤ va < 2 ^ 39 →
  pt_lookup ex_mem ex_root va = if decide (va < PGSIZE) then Some ex_pte else None.
Proof.
  intros Hva. unfold pt_lookup. cbn [lookup_from].
  assert (HPX : ∀ k, 0 ≤ k → 0 ≤ PX k va < 512) by (intros; by apply PX_range).
  change (Z.of_nat 2) with 2. change (Z.of_nat 1) with 1. change (Z.of_nat 0) with 0.
  assert (E : va / PGSIZE = 0 / PGSIZE ↔ va < PGSIZE) by (unfold PGSIZE; zdiv).
  rewrite ex_pte_root by auto with lia. destruct (decide (PX 2 va = 0)) as [E2|E2].
  2:{ destruct (decide _) as [Hl|]; [|done]. destruct E2. by rewrite (PX_page 2 va 0) by (lia || by apply E). }
  replace (PTE2PA (mkpte ex_t1 0)) with ex_t1 by done. change (has (mkpte ex_t1 0) PTE_V) with true.
  cbn iota. rewrite ex_pte_t1 by auto with lia. destruct (decide (PX 1 va = 0)) as [E1|E1].
  2:{ destruct (decide _) as [Hl|]; [|done]. destruct E1. by rewrite (PX_page 1 va 0) by (lia || by apply E). }
  replace (PTE2PA (mkpte ex_t0 0)) with ex_t0 by done. change (has (mkpte ex_t0 0) PTE_V) with true.
  cbn iota. rewrite ex_pte_t0 by auto with lia. destruct (decide (PX 0 va = 0)) as [E0|E0].
  2:{ destruct (decide _) as [Hl|]; [|done]. destruct E0. by rewrite (PX_page 0 va 0) by (lia || by apply E). }
  rewrite decide_True; [done|]. apply E, PX_inj; [done | lia | by rewrite ?E2, ?E1, ?E0..].
Qed.

Lemma ex_ok : vm_ok ex_state ex_root ex_T [ex_f1; ex_f2].
Proof.
  split; cbn [k_mem ex_state].
  - split; cbn [k_mem k_freelist ex_state].
    + cbn [chain]. split; [done|]. assert (ld64 ex_mem ex_f1 = ex_f2) as ->.
      { unfold ex_mem. rewrite !ld64_st64_ne by (ex_unfold; lia). by apply ld64_st64_eq. }
      split; [done|]. unfold ex_mem. rewrite !ld64_st64_ne by (ex_unfold; lia). by apply ld64_zero.
    + apply NoDup_cons. split; [|apply NoDup_singleton]. by intros ?%list_elem_of_singleton.
    + repeat constructor; by vm_compute.
  - apply ex_wf.
  - intros p Hp. repeat apply elem_of_cons in Hp as [->|Hp]; try done. by apply elem_of_nil in Hp.
Qed.

Lemma ex_space : user_space ex_mem ex_root ex_T.
Proof.
  assert (HM := MAXVA_eq). split; [apply ex_wf | |].
  - intros va v Hva. rewrite ex_lookup by lia. destruct (decide _); [|done]. intros [= <-] _.
    split; [|done]. apply ex_page_ok. repeat constructor.
  - intros va va' v v' Hva Hva'. rewrite !ex_lookup by lia. do 2 (destruct (decide _); [|done]).
    intros _ _ _ _ _. unfold PGSIZE in *. zdiv.
Qed.

(** A kernel buffer of the example. *)
Definition ex_buf : Z := 0x86000000.

Lemma ex_kernel_byte a : ex_buf ≤ a < ex_buf + PGSIZE → kernel_byte ex_mem ex_root ex_T a.
Proof.
  unfold ex_buf, PGSIZE. intros Ha. assert (HM := MAXVA_eq). split.
  - intros p [l [[-> _]|[[-> _]|[-> _]]]%ex_T_cases]; unfold in_page; ex_unfold; lia.
  - intros va v Hva. rewrite ex_lookup by lia. destruct (decide _); [|done]. intros [= <-] _.
    replace (PTE2PA ex_pte) with ex_page by done. unfold in_page. ex_unfold. lia.
Qed.

(** ** Witnesses *)

Lemma mappages_spec_witness :
  ∃ r s', mappages ex_root PGSIZE PGSIZE ex_f2 PTE_R ex_state = Ok (r, s').
Proof.
  destruct (mappages_spec ex_root ex_state ex_T [ex_f1; ex_f2] PGSIZE PGSIZE ex_f2 PTE_R)
    as (r & s' & _ & _ & _ & H & _); [apply ex_ok | by vm_compute.. | |].
  - intros va' Hva'. cbn [k_mem ex_state]. rewrite ex_lookup by (unfold PGSIZE in *; lia).
    destruct (decide _); [lia | done].
  - exists r, s'; exact H.
Defined.

Lemma uvmalloc_spec_witness :
  ∃ r s', uvmalloc ex_root PGSIZE (2 * PGSIZE) PTE_W ex_state = Ok (r, s').
Proof.
  destruct (uvmalloc_spec ex_root ex_state ex_T [ex_f1; ex_f2] PGSIZE (2 * PGSIZE) PTE_W)
    as (r & s' & _ & _ & _ & H & _); [apply ex_ok | by vm_compute.. | |].
  - intros va' Hva'. cbn [k_mem ex_state]. change (4096 ≤ va' < 8192) in Hva'. rewrite ex_lookup by lia.
    destruct (decide _); [unfold PGSIZE in *; lia | done].
  - exists r, s'; exact H.
Defined.

(** The table page of the child: a page of zeros. *)
Definition ex_child : Z := 0x87006000.

Lemma ex_child_ok : vm_ok ex_state ex_child {[ex_child := 2%nat]} [ex_f1; ex_f2] ∧
  (∀ va, pt_lookup ex_mem ex_child va = None).
Proof.
  destruct (pt_wf_empty ex_mem ex_child) as [Hwf Hlk]; [by vm_compute | |].
  { intros i Hi. unfold ex_mem, pte. rewrite !ld64_st64_ne by (unfold ex_child; ex_unfold; lia). by apply ld64_zero. }
  split; [|done]. split; [apply ex_ok | done |].
  intros p Hp. apply lookup_singleton_ne. intros <-.
  by apply elem_of_cons in Hp as [?|[?|?%elem_of_nil]%elem_of_cons].
Qed.

Lemma uvmcopy_spec_witness : ∃ r s', uvmcopy ex_root ex_child PGSIZE ex_state = Ok (r, s').
Proof.
  destruct (uvmcopy_spec ex_root ex_child ex_T [ex_pte] ex_state {[ex_child := 2%nat]} [ex_f1; ex_f2] PGSIZE)
    as (r & s' & _ & _ & _ & H & _); [apply ex_child_ok | apply ex_wf | | by vm_compute.. | | |].
  - intros p Hp. rewrite elem_of_all_pages in Hp.
    assert (p = ex_child ∨ p = ex_f1 ∨ p = ex_f2) as [-> | [-> | ->]];
      [|split; [by vm_compute|]; by intros ?%list_elem_of_singleton..].
    destruct Hp as [[l [<- _]%lookup_singleton_Some]|[->|[->|[]%elem_of_nil]%elem_of_cons]%elem_of_cons]; auto.
  - intros i v [-> <-]%list_lookup_singleton_Some. split; [|by vm_compute].
    cbn [k_mem ex_state]. by rewrite ex_lookup by lia.
  - intros va' _. apply ex_child_ok.
  - exists r, s'; exact H.
Defined.

Lemma uvmfree_frees_all_witness : ∃ s', uvmfree ex_root 1 ex_state = Ok (tt, s').
Proof.
  destruct (uvmfree_frees_all ex_root ex_state ex_T [ex_f1; ex_f2] 1 [ex_pte])
    as (s' & _ & H & _); [apply ex_ok | by vm_compute.. | | | |].
  - intros i v [-> <-]%list_lookup_singleton_Some. split; [|by vm_compute].
    cbn [k_mem ex_state]. by rewrite ex_lookup by lia.
  - split.
    + constructor; [|constructor]. apply ex_page_ok. repeat constructor.
    + apply NoDup_singleton.
    + intros p ->%list_elem_of_singleton. split; [|done]. by intros [?|[?|?%elem_of_nil]%elem_of_cons]%elem_of_cons.
  - intros va Hva. cbn [k_mem ex_state]. rewrite ex_lookup by (unfold PGSIZE in *; cbn in *; lia).
    destruct (decide _); [cbn in *; unfold PGSIZE in *; lia | done].
  - exists s'; exact H.
Defined.

Lemma copyin_exact_witness : ∃ s', copyin ex_root ex_buf 5 3 ex_state = Ok (0, s').
Proof.
  destruct (copyin_exact ex_root ex_T ex_state ex_buf 5 3) as (r & s' & H & _ & _ & Hr);
    [apply ex_space | lia | lia | |].
  - intros a Ha. apply ex_kernel_byte. unfold PGSIZE. lia.
  - destruct Hr as [[-> _]|(_ & i & Hi & Hn)]; [exists s'; exact H|]. exfalso. unfold user_pa in Hn.
    rewrite MAXVA_eq in Hn. cbn [k_mem ex_state] in Hn. rewrite (proj2 (Z.ltb_lt _ _)), ex_lookup in Hn by lia.
    by rewrite decide_True in Hn by (unfold PGSIZE; lia).
Defined.

Lemma copyout_exact_witness : ∃ r s', copyout ex_root 5 ex_buf 3 ex_state = Ok (r, s').
Proof.
  destruct (copyout_exact ex_root ex_T ex_state 5 ex_buf 3) as (r & s' & H & _);
    [apply ex_space | lia | lia | | exists r, s'; exact H].
  intros a Ha. apply ex_kernel_byte. unfold PGSIZE. lia.
Defined.

Lemma copyinstr_exact_witness : ∃ r s', copyinstr ex_root ex_buf 5 3 ex_state = Ok (r, s').
Proof.
  destruct (copyinstr_exact ex_root ex_T ex_state ex_buf 5 3) as (r & s' & H & _);
    [apply ex_space | lia | lia | | exists r, s'; exact H].
  intros a Ha. apply ex_kernel_byte. unfold PGSIZE. lia.
Defined.
