(* ===== verification/Spinlock.v ===== *)
(** * Spinlock: src/kernel/spinlock.c

    [push_off], [pop_off] and [holding] are functions on a CPU's record and a lock.
    [acquire] and [release] are split at the points where another hart can run: the
    atomic swap of [acquire], the store of [lk->cpu], the swap of [release] and
    [pop_off].  A machine is a set of harts, each at such a point, and the locks. *)

From stdpp Require Import functions.
From S2P Require Import Prelude.

Local Open Scope Z_scope.

(** ** Per-CPU interrupt state *)

(** [struct cpu] without its process, and the interrupt-enable bit of sstatus. *)
Record cpu := mkCpu { noff : Z; intena : bool; sie : bool }.

Definition intr_get (c : cpu) : bool := sie c.
Definition intr_on (c : cpu) : cpu := mkCpu (noff c) (intena c) true.
Definition intr_off (c : cpu) : cpu := mkCpu (noff c) (intena c) false.

Definition push_off (c : cpu) : cpu :=
  let old := intr_get c in
  let c := intr_off c in
  let c := if noff c =? 0 then mkCpu (noff c) old (sie c) else c in
  mkCpu (i32 (noff c + 1)) (intena c) (sie c).

Definition pop_off (c : cpu) : outcome cpu :=
  if intr_get c then Panic "pop_off - interruptible"
  else if noff c <? 1 then Panic "pop_off"
  else
    let c := mkCpu (noff c - 1) (intena c) (sie c) in
    Ok (if (noff c =? 0) && intena c then intr_on c else c).

(** ** Locks *)

Record spinlock := mkLock { locked : Z; lk_cpu : option nat }.

Definition initlock : spinlock := mkLock 0 None.

(** [lk->locked && lk->cpu == mycpu()] on CPU [h]. *)
Definition holding (lk : spinlock) (h : nat) : bool :=
  negb (locked lk =? 0) && bool_decide (lk_cpu lk = Some h).

(** Where a hart is; [Running] is outside [acquire] and [release]. *)
Inductive pc :=
  | Running
  | Acquiring (l : nat)   (* in the test-and-set loop *)
  | Acquired (l : nat)    (* swapped, lk->cpu not yet set *)
  | Releasing (l : nat)   (* lk->cpu cleared, not yet swapped *)
  | Popping.              (* lock free again, before pop_off *)

(** A hart: its CPU record, its position, and the history of its calls: the locks it
    has acquired and not begun to release, and its own unmatched [push_off]s. *)
Record hart := mkHart { h_cpu : cpu; h_pc : pc; h_held : list nat; h_push : nat }.

Record machine := mkMachine { harts : nat → hart; locks : nat → spinlock }.

Definition set_hart (h : nat) (t : hart) (m : machine) : machine :=
  mkMachine (<[h:=t]> (harts m)) (locks m).

Definition set_lock (l : nat) (lk : spinlock) (m : machine) : machine :=
  mkMachine (harts m) (<[l:=lk]> (locks m)).

(** [acquire]: [push_off] and the check against acquiring twice. *)
Definition acquire_enter (h l : nat) (m : machine) : outcome machine :=
  let t := harts m h in
  let c := push_off (h_cpu t) in
  if holding (locks m l) h then Panic "acquire"
  else Ok (set_hart h (mkHart c (Acquiring l) (h_held t) (h_push t)) m).

(** One iteration of [while(__sync_lock_test_and_set(&lk->locked, 1) != 0)]. *)
Definition acquire_swap (h l : nat) (m : machine) : machine :=
  let t := harts m h in
  let old := locked (locks m l) in
  let m := set_lock l (mkLock 1 (lk_cpu (locks m l))) m in
  if negb (old =? 0) then m
  else set_hart h (mkHart (h_cpu t) (Acquired l) (h_held t) (h_push t)) m.

(** [lk->cpu = mycpu()], and return. *)
Definition acquire_finish (h l : nat) (m : machine) : machine :=
  let t := harts m h in
  set_hart h (mkHart (h_cpu t) Running (l :: h_held t) (h_push t))
    (set_lock l (mkLock (locked (locks m l)) (Some h)) m).

Definition release_enter (h l : nat) (m : machine) : outcome machine :=
  let t := harts m h in
  if negb (holding (locks m l) h) then Panic "release"
  else Ok (set_hart h (mkHart (h_cpu t) (Releasing l) (remove Nat.eq_dec l (h_held t)) (h_push t))
             (set_lock l (mkLock (locked (locks m l)) None) m)).

(** [__sync_lock_release(&lk->locked)] *)
Definition release_swap (h l : nat) (m : machine) : machine :=
  let t := harts m h in
  set_hart h (mkHart (h_cpu t) Popping (h_held t) (h_push t))
    (set_lock l (mkLock 0 (lk_cpu (locks m l))) m).

Definition release_pop (h : nat) (m : machine) : outcome machine :=
  let t := harts m h in
  match pop_off (h_cpu t) with
  | Ok c => Ok (set_hart h (mkHart c Running (h_held t) (h_push t)) m)
  | Panic e => Panic e
  | Sleeps => Sleeps
  | OutOfFuel => OutOfFuel
  end.

(** A hart's own calls of [push_off] and [pop_off] ([myproc], [uartputc_sync]). *)
Definition call_push_off (h : nat) (m : machine) : machine :=
  let t := harts m h in
  set_hart h (mkHart (push_off (h_cpu t)) (h_pc t) (h_held t) (S (h_push t))) m.

Definition call_pop_off (h : nat) (m : machine) : outcome machine :=
  let t := harts m h in
  match pop_off (h_cpu t) with
  | Ok c => Ok (set_hart h (mkHart c (h_pc t) (h_held t) (pred (h_push t))) m)
  | Panic e => Panic e
  | Sleeps => Sleeps
  | OutOfFuel => OutOfFuel
  end.

(** How deeply a hart can nest before [noff] overflows; the kernel nests a handful. *)
Definition nest_max : Z := 2 ^ 31 - 2.

(** Any hart may take its next step at any time. *)
Inductive step : machine → machine → Prop :=
  | step_acquire h l m m' :
      h_pc (harts m h) = Running → noff (h_cpu (harts m h)) < nest_max →
      acquire_enter h l m = Ok m' → step m m'
  | step_swap h l m : h_pc (harts m h) = Acquiring l → step m (acquire_swap h l m)
  | step_finish h l m : h_pc (harts m h) = Acquired l → step m (acquire_finish h l m)
  | step_release h l m m' :
      h_pc (harts m h) = Running → release_enter h l m = Ok m' → step m m'
  | step_unlock h l m : h_pc (harts m h) = Releasing l → step m (release_swap h l m)
  | step_pop h m m' : h_pc (harts m h) = Popping → release_pop h m = Ok m' → step m m'
  | step_push_off h m :
      h_pc (harts m h) = Running → noff (h_cpu (harts m h)) < nest_max →
      step m (call_push_off h m)
  | step_pop_off h m m' :
      h_pc (harts m h) = Running → (0 < h_push (harts m h))%nat →
      call_pop_off h m = Ok m' → step m m'
  | step_intr h (b : bool) m :
      (* intr_on()/intr_off() outside critical sections (scheduler, traps) *)
      h_pc (harts m h) = Running → noff (h_cpu (harts m h)) = 0 →
      let t := harts m h in
      step m (set_hart h (mkHart ((if b then intr_on else intr_off) (h_cpu t)) Running
                            (h_held t) (h_push t)) m).

Definition init : machine :=
  mkMachine (λ _, mkHart (mkCpu 0 false false) Running [] 0) (λ _, initlock).

Definition reachable (m : machine) : Prop := rtc step init m.

(** ** Balanced calls *)

Inductive call := Push | Pop.

Definition run_call (o : outcome cpu) (k : call) : outcome cpu :=
  match o with
  | Ok c => match k with Push => Ok (push_off c) | Pop => pop_off c end
  | e => e
  end.

(** Properly nested sequences of [push_off] and [pop_off]. *)
Inductive balanced : list call → Prop :=
  | bal_nil : balanced []
  | bal_nest w : balanced w → balanced (Push :: w ++ [Pop])
  | bal_app w1 w2 : balanced w1 → balanced w2 → balanced (w1 ++ w2).

(** ** Invariant *)

(** A hart owns lock [l] from its successful swap to the swap that frees it. *)
Definition owned_by (t : hart) (l : nat) : Prop :=
  l ∈ h_held t ∨ h_pc t = Acquired l ∨ h_pc t = Releasing l.

Definition owns (m : machine) (h l : nat) : Prop := owned_by (harts m h) l.

Definition in_call (p : pc) : nat := match p with Running => 0 | _ => 1 end.

Record hart_ok (t : hart) : Prop := {
  ho_noff : noff (h_cpu t) = Z.of_nat (length (h_held t) + h_push t + in_call (h_pc t));
  ho_bound : noff (h_cpu t) ≤ nest_max;
  ho_intr : 0 < noff (h_cpu t) → sie (h_cpu t) = false;
  ho_nodup : NoDup (h_held t);
  ho_pc l : h_pc t = Acquired l ∨ h_pc t = Releasing l → l ∉ h_held t;
}.

Record inv (m : machine) : Prop := {
  i_hart h : hart_ok (harts m h);
  i_locked l : locked (locks m l) = 0 ∨ locked (locks m l) = 1;
  i_owner l : locked (locks m l) ≠ 0 ↔ ∃ h, owns m h l;
  i_excl h h' l : owns m h l → owns m h' l → h = h';
  i_cpu h l : lk_cpu (locks m l) = Some h ↔ l ∈ h_held (harts m h);
}.

(** ** CPU records *)

Lemma push_off_run c :
  0 ≤ noff c < nest_max →
  push_off c = mkCpu (noff c + 1) (if noff c =? 0 then sie c else intena c) false.
Proof.
  intros Hc. unfold push_off, intr_get, intr_off, nest_max in *. cbn.
  destruct (noff c =? 0); cbn; by rewrite i32_small by lia.
Qed.

Lemma pop_off_run c :
  0 < noff c → sie c = false →
  pop_off c = Ok (mkCpu (noff c - 1) (intena c) ((noff c =? 1) && intena c)).
Proof.
  intros Hn Hs. unfold pop_off, intr_get. rewrite Hs, (proj2 (Z.ltb_ge _ _)) by lia. cbn.
  replace (noff c - 1 =? 0) with (noff c =? 1) by lia.
  destruct (_ && _); unfold intr_on; cbn; congruence.
Qed.

Lemma inv_init : inv init.
Proof.
  split; unfold init, owns; cbn.
  - intros h. split; cbn; try done.
    + constructor.
    + intros l [?|?]; done.
  - auto.
  - intros l. split; [done|]. intros (h & [?%elem_of_nil|[?|?]]); done.
  - intros h h' l [?%elem_of_nil|[?|?]]; done.
  - intros h l. split; [done | by intros ?%elem_of_nil].
Qed.

(** A step of hart [h] on lock [l], which no other hart owns. *)
Lemma inv_step m h l t lk :
  inv m → hart_ok t → (∀ h', owns m h' l → h' = h) →
  (∀ l', l' ≠ l → (l' ∈ h_held t ↔ l' ∈ h_held (harts m h)) ∧
                  (owned_by t l' ↔ owns m h l')) →
  locked lk = 0 ∨ locked lk = 1 → (locked lk ≠ 0 ↔ owned_by t l) →
  (∀ h', lk_cpu lk = Some h' ↔ h' = h ∧ l ∈ h_held t) →
  inv (set_hart h t (set_lock l lk m)).
Proof.
  intros [Hh Hl Ho Hx Hc] Ht Hfree Hother Hlk Hown Hcpu.
  assert (Howns : ∀ h' l', owns (set_hart h t (set_lock l lk m)) h' l' ↔
    if decide (h' = h) then owned_by t l' else owns m h' l').
  { intros h' l'. unfold owns. cbn. destruct (decide (h' = h)) as [->|].
    - by rewrite fn_lookup_insert.
    - by rewrite fn_lookup_insert_ne. }
  split; cbn [locks harts set_hart set_lock].
  - intros h'. destruct (decide (h' = h)) as [->|].
    + by rewrite fn_lookup_insert.
    + by rewrite fn_lookup_insert_ne.
  - intros l'. destruct (decide (l' = l)) as [->|].
    + by rewrite fn_lookup_insert.
    + by rewrite fn_lookup_insert_ne.
  - intros l'. setoid_rewrite Howns. destruct (decide (l' = l)) as [->|Hne].
    + rewrite fn_lookup_insert, Hown. split.
      * intros Hol. exists h. by rewrite decide_True.
      * intros (h' & Hol). destruct (decide (h' = h)); [done|]. by apply Hfree in Hol.
    + rewrite fn_lookup_insert_ne by done. rewrite Ho. apply exist_proper. intros h'.
      destruct (decide (h' = h)) as [->|]; [|done]. symmetry. by apply Hother.
  - intros h1 h2 l'. rewrite !Howns. intros H1 H2. destruct (decide (l' = l)) as [->|Hne].
    + destruct (decide (h1 = h)), (decide (h2 = h)); subst; try done.
      * symmetry. by apply Hfree.
      * by apply Hfree.
      * by rewrite (Hfree h1), (Hfree h2).
    + destruct (decide (h1 = h)) as [->|], (decide (h2 = h)) as [->|]; try done;
        rewrite ?(proj2 (Hother l' Hne)) in *; by eapply Hx.
  - intros h' l'. destruct (decide (l' = l)) as [->|Hne].
    + rewrite fn_lookup_insert, Hcpu. destruct (decide (h' = h)) as [->|].
      * rewrite fn_lookup_insert. tauto.
      * rewrite fn_lookup_insert_ne by done. split; [tauto|]. intros Hin.
        destruct (Hfree h'); [by left | done].
    + rewrite fn_lookup_insert_ne, Hc by done. destruct (decide (h' = h)) as [->|].
      * rewrite fn_lookup_insert. symmetry. by apply Hother.
      * by rewrite fn_lookup_insert_ne.
Qed.

(** The invariant depends on locks and harts pointwise. *)
Lemma inv_ext m m' :
  (∀ h, harts m' h = harts m h) → (∀ l, locks m' l = locks m l) → inv m → inv m'.
Proof.
  intros Eh El [Hh Hl Ho Hx Hc]. unfold owns in *.
  split; unfold owns; intros *; rewrite ?Eh, ?El; eauto. rewrite Ho. by setoid_rewrite Eh.
Qed.

(** A step that only moves hart [h], keeping what it owns. *)
Lemma inv_move m h t :
  inv m → hart_ok t → h_held t = h_held (harts m h) →
  (∀ l, owned_by t l ↔ owns m h l) → inv (set_hart h t m).
Proof.
  intros [Hh Hl Ho Hx Hc] Ht Hheld Hpc.
  assert (Hown : ∀ h' l, owns (set_hart h t m) h' l ↔ owns m h' l).
  { intros h' l. unfold owns, set_hart. cbn. destruct (decide (h' = h)) as [->|].
    - rewrite fn_lookup_insert. apply Hpc.
    - by rewrite fn_lookup_insert_ne. }
  split; cbn [locks harts set_hart].
  - intros h'. destruct (decide (h' = h)) as [->|].
    + by rewrite fn_lookup_insert.
    + by rewrite fn_lookup_insert_ne.
  - done.
  - intros l. rewrite Ho. by setoid_rewrite Hown.
  - intros h1 h2 l. rewrite !Hown. apply Hx.
  - intros h' l. rewrite Hc. destruct (decide (h' = h)) as [->|].
    + by rewrite fn_lookup_insert, Hheld.
    + by rewrite fn_lookup_insert_ne.
Qed.

(** ** Each operation preserves it *)

Lemma holding_iff m h l : inv m → holding (locks m l) h = true ↔ l ∈ h_held (harts m h).
Proof.
  intros Hinv. unfold holding. rewrite andb_true_iff, bool_decide_eq_true, (i_cpu m Hinv).
  split; [tauto|]. intros Hin. split; [|done].
  assert (locked (locks m l) ≠ 0); [|lia]. apply (i_owner m Hinv). exists h. by left.
Qed.

Lemma acquire_enter_inv m m' h l :
  inv m → h_pc (harts m h) = Running → noff (h_cpu (harts m h)) < nest_max →
  acquire_enter h l m = Ok m' → inv m'.
Proof.
  intros Hinv Hpc Hn. unfold acquire_enter. destruct (holding _ _); [done|]. intros [= <-].
  destruct (i_hart m Hinv h) as [H1 H2 H3 H4 H5]. rewrite Hpc in H1. cbn in H1.
  apply inv_move; [done | | done |].
  - rewrite push_off_run by lia. split; cbn; try done; try lia. by intros l' [?|?].
  - intros l'. unfold owns, owned_by. cbn. rewrite Hpc. intuition congruence.
Qed.

Lemma acquire_swap_inv m h l :
  inv m → h_pc (harts m h) = Acquiring l → inv (acquire_swap h l m).
Proof.
  intros Hinv Hpc. unfold acquire_swap.
  destruct (i_hart m Hinv h) as [H1 H2 H3 H4 H5]. rewrite Hpc in H1. cbn in H1.
  destruct (i_locked m Hinv l) as [E|E]; rewrite E; cbn [negb Z.eqb].
  - assert (Hno : ∀ h', ¬ owns m h' l).
    { intros h' Ho. assert (locked (locks m l) ≠ 0); [|done]. apply (i_owner m Hinv). by exists h'. }
    apply inv_step; try done.
    + split; cbn; try done. intros l' [[= ->]|[=]] Hin. apply (Hno h). by left.
    + intros h' Ho. by apply Hno in Ho.
    + intros l' Hl'. split; [done|]. unfold owns, owned_by. cbn. rewrite Hpc. intuition congruence.
    + by right.
    + cbn. split; [|done]. intros _. right. by left.
    + intros h'. cbn. rewrite (i_cpu m Hinv). split.
      * intros Hin. destruct (Hno h'). by left.
      * intros [-> Hin]. destruct (Hno h). by left.
  - apply (inv_ext m); [done | | done]. intros l'. cbn. destruct (decide (l' = l)) as [->|].
    + rewrite fn_lookup_insert. destruct (locks m l). cbn in *. congruence.
    + by rewrite fn_lookup_insert_ne.
Qed.

Lemma acquire_finish_inv m h l :
  inv m → h_pc (harts m h) = Acquired l → inv (acquire_finish h l m).
Proof.
  intros Hinv Hpc. unfold acquire_finish.
  destruct (i_hart m Hinv h) as [H1 H2 H3 H4 H5]. rewrite Hpc in H1, H5. cbn in H1.
  assert (Hni : l ∉ h_held (harts m h)) by (apply H5; auto).
  assert (Ho : owns m h l) by (right; by left).
  apply inv_step; try done.
  - split; cbn; try done; try lia. by apply NoDup_cons. by intros l' [?|?].
  - intros h' Ho'. by eapply (i_excl m Hinv).
  - intros l' Hl'. unfold owns, owned_by. cbn. rewrite Hpc, elem_of_cons. intuition congruence.
  - apply (i_locked m Hinv).
  - cbn. rewrite (i_owner m Hinv). split; [|by exists h]. intros _. left. constructor.
  - intros h'. cbn. rewrite elem_of_cons. split; [intros [= ->]; auto | by intros [-> _]].
Qed.

Lemma length_remove (l : nat) ls :
  NoDup ls → l ∈ ls → length ls = S (length (remove Nat.eq_dec l ls)).
Proof.
  induction ls as [|x ls IH]; intros Hd Hin; [by apply elem_of_nil in Hin|].
  apply NoDup_cons in Hd as [Hni Hd]. cbn. destruct (Nat.eq_dec l x) as [->|].
  - by rewrite notin_remove by (by rewrite <- list_elem_of_In).
  - apply elem_of_cons in Hin as [?|Hin]; [done|]. cbn. by rewrite <- IH.
Qed.

Lemma elem_of_remove (l x : nat) ls : x ∈ remove Nat.eq_dec l ls ↔ x ∈ ls ∧ x ≠ l.
Proof.
  rewrite !list_elem_of_In. split; [apply in_remove|]. intros [? ?]. by apply in_in_remove.
Qed.

Lemma NoDup_remove (l : nat) ls : NoDup ls → NoDup (remove Nat.eq_dec l ls).
Proof.
  induction 1 as [|x ls Hni Hd IH]; cbn; [constructor|]. destruct (Nat.eq_dec l x); [done|].
  apply NoDup_cons. split; [|done]. rewrite elem_of_remove. tauto.
Qed.

Lemma release_enter_inv m m' h l :
  inv m → h_pc (harts m h) = Running → release_enter h l m = Ok m' → inv m'.
Proof.
  intros Hinv Hpc. unfold release_enter. destruct (holding _ _) eqn:Hh; [|done]. intros [= <-].
  apply (holding_iff _ _ _ Hinv) in Hh.
  destruct (i_hart m Hinv h) as [H1 H2 H3 H4 H5]. rewrite Hpc in H1. cbn in H1.
  apply inv_step; try done.
  - split; cbn [h_cpu h_held h_push h_pc in_call]; try done.
    + rewrite H1, (length_remove l _ H4 Hh). lia.
    + by apply NoDup_remove.
    + intros l' [[=]|[= <-]]. rewrite elem_of_remove. tauto.
  - intros h' Ho'. eapply (i_excl m Hinv); [done | by left].
  - intros l' Hl'. unfold owns, owned_by. cbn. rewrite Hpc, elem_of_remove. intuition congruence.
  - apply (i_locked m Hinv).
  - cbn. rewrite (i_owner m Hinv). unfold owned_by. cbn. split; [by right; right|].
    intros _. exists h. by left.
  - intros h'. cbn. rewrite elem_of_remove. split; [done | tauto].
Qed.

Lemma release_swap_inv m h l :
  inv m → h_pc (harts m h) = Releasing l → inv (release_swap h l m).
Proof.
  intros Hinv Hpc. unfold release_swap.
  destruct (i_hart m Hinv h) as [H1 H2 H3 H4 H5]. rewrite Hpc in H1, H5. cbn in H1.
  assert (Hni : l ∉ h_held (harts m h)) by (apply H5; auto).
  assert (Ho : owns m h l) by (right; by right).
  apply inv_step; try done.
  - split; cbn; try done. by intros l' [?|?].
  - intros h' Ho'. by eapply (i_excl m Hinv).
  - intros l' Hl'. unfold owns, owned_by. cbn. rewrite Hpc. intuition congruence.
  - by left.
  - cbn. split; [done|]. unfold owned_by. cbn. intuition congruence.
  - intros h'. cbn. rewrite (i_cpu m Hinv). split; [|tauto].
    intros Hin. destruct Hni. rewrite (i_excl m Hinv h h' l); [done | done | by left].
Qed.

(** [pop_off] of a hart that has something to pop. *)
Lemma hart_pop t : hart_ok t → (0 < h_push t + in_call (h_pc t))%nat →
  pop_off (h_cpu t) = Ok (mkCpu (noff (h_cpu t) - 1) (intena (h_cpu t))
                            ((noff (h_cpu t) =? 1) && intena (h_cpu t))).
Proof. intros [H1 _ H3 _ _] Hp. apply pop_off_run; [lia | apply H3; lia]. Qed.

Lemma release_pop_inv m m' h :
  inv m → h_pc (harts m h) = Popping → release_pop h m = Ok m' → inv m'.
Proof.
  intros Hinv Hpc. unfold release_pop. pose proof (i_hart m Hinv h) as Ht.
  rewrite hart_pop by (done || rewrite Hpc; cbn; lia). intros [= <-].
  destruct Ht as [H1 H2 H3 H4 H5]. rewrite Hpc in H1. cbn in H1.
  apply inv_move; [done | | done |].
  - split; cbn; try done; try lia. by intros l' [?|?].
  - intros l'. unfold owns, owned_by. cbn. rewrite Hpc. intuition congruence.
Qed.

Lemma call_push_off_inv m h :
  inv m → h_pc (harts m h) = Running → noff (h_cpu (harts m h)) < nest_max →
  inv (call_push_off h m).
Proof.
  intros Hinv Hpc Hn. destruct (i_hart m Hinv h) as [H1 H2 H3 H4 H5].
  apply inv_move; [done | | done | done].
  rewrite push_off_run by lia. split; cbn; try done; lia.
Qed.

Lemma call_pop_off_inv m m' h :
  inv m → h_pc (harts m h) = Running → (0 < h_push (harts m h))%nat →
  call_pop_off h m = Ok m' → inv m'.
Proof.
  intros Hinv Hpc Hp. unfold call_pop_off. pose proof (i_hart m Hinv h) as Ht.
  rewrite hart_pop by (done || lia). intros [= <-]. destruct Ht as [H1 H2 H3 H4 H5].
  apply inv_move; [done | | done | done]. split; cbn; try done; lia.
Qed.

Lemma step_inv m m' : step m m' → inv m → inv m'.
Proof.
  intros Hs Hinv. destruct Hs.
  - by eapply acquire_enter_inv.
  - by apply acquire_swap_inv.
  - by apply acquire_finish_inv.
  - by eapply release_enter_inv.
  - by apply release_swap_inv.
  - by eapply release_pop_inv.
  - by apply call_push_off_inv.
  - by eapply call_pop_off_inv.
  - destruct (i_hart m Hinv h) as [H1 H2 H3 H4 H5].
    rewrite H in H1. cbn in H1. apply inv_move; [done | | done |].
    + split; destruct b; cbn; try done; try lia; subst t; rewrite ?H0; done || lia || by intros l [?|?].
    + intros l. unfold owns, owned_by. cbn. by rewrite H.
Qed.

Lemma reachable_inv m : reachable m → inv m.
Proof.
  intros Hr. unfold reachable in Hr. remember init as m0 eqn:E.
  assert (Hinv : inv m0) by (rewrite E; apply inv_init). clear E.
  induction Hr; eauto using step_inv.
Qed.

(** ** Properties *)

(** C18. Spin locks exclude: under every interleaving of the harts' swaps and stores, no
    two harts are between [acquire] and [release] of the same lock; a hart that holds
    any lock has interrupts disabled; and [holding] is exact. *)
Theorem spin_mutual_exclusion m :
  reachable m →
  (∀ h h' l, l ∈ h_held (harts m h) → l ∈ h_held (harts m h') → h = h') ∧
  (∀ h l, l ∈ h_held (harts m h) → sie (h_cpu (harts m h)) = false) ∧
  (∀ h l, holding (locks m l) h = true ↔ l ∈ h_held (harts m h)).
Proof.
  intros Hinv%reachable_inv. split_and!.
  - intros h h' l Hl Hl'. apply (i_excl m Hinv h h' l); by left.
  - intros h l Hl. destruct (i_hart m Hinv h) as [H1 _ H3 _ _]. apply H3.
    destruct (h_held (harts m h)); [by apply elem_of_nil in Hl|]. cbn in *. lia.
  - intros h l. by apply holding_iff.
Qed.

(** [acquire] panics exactly when the hart already holds the lock, [release]
    exactly when it does not, and the [pop_off] at the end of [release] never does. *)
Theorem spin_panics m h l :
  reachable m → h_pc (harts m h) = Running →
  (acquire_enter h l m = Panic "acquire" ↔ l ∈ h_held (harts m h)) ∧
  (release_enter h l m = Panic "release" ↔ l ∉ h_held (harts m h)) ∧
  (∀ h', h_pc (harts m h') = Popping → ∃ m', release_pop h' m = Ok m').
Proof.
  intros Hinv%reachable_inv Hpc. pose proof (holding_iff m h l Hinv) as Hh.
  unfold acquire_enter, release_enter. split_and!.
  - rewrite <- Hh. by destruct (holding _ _).
  - rewrite <- Hh. by destruct (holding _ _).
  - intros h' Hp. unfold release_pop. rewrite hart_pop; [by eexists | apply Hinv|].
    rewrite Hp. cbn. lia.
Qed.

Lemma run_calls_app o w1 w2 :
  foldl run_call o (w1 ++ w2) = foldl run_call (foldl run_call o w1) w2.
Proof. apply foldl_app. Qed.

(** Any balanced sequence leaves the CPU as it was, up to [intena]. *)
Lemma balanced_run w : balanced w → ∀ c,
  0 ≤ noff c → noff c + Z.of_nat (length w) < nest_max → (0 < noff c → sie c = false) →
  ∃ c', foldl run_call (Ok c) w = Ok c' ∧ noff c' = noff c ∧ sie c' = sie c ∧
    (0 < noff c → intena c' = intena c).
Proof.
  induction 1 as [|w Hw IH|w1 w2 Hw1 IH1 Hw2 IH2]; intros c Hn Hmax Hs.
  - by exists c.
  - rewrite length_cons, length_app in Hmax. cbn [length] in Hmax.
    cbn [foldl run_call]. rewrite run_calls_app, push_off_run by lia.
    destruct (IH (mkCpu (noff c + 1) (if noff c =? 0 then sie c else intena c) false))
      as (c1 & Hrun & En & Es & Ei); cbn [noff sie intena] in *; try lia; try done.
    rewrite Hrun. cbn [foldl run_call]. rewrite pop_off_run by lia.
    eexists. split; [done|]. cbn [noff sie intena]. rewrite Ei, En by lia.
    destruct (Z.eqb_spec (noff c) 0) as [E|E].
    + rewrite E. cbn. split_and!; [done.. | lia].
    + rewrite (proj2 (Z.eqb_neq (noff c + 1) 1)) by lia. cbn. rewrite Hs by lia.
      split_and!; [lia | done..].
  - rewrite length_app in Hmax. rewrite run_calls_app.
    destruct (IH1 c) as (c1 & Hrun1 & En1 & Es1 & Ei1); [lia | lia | done |].
    destruct (IH2 c1) as (c2 & Hrun2 & En2 & Es2 & Ei2); [lia | lia | by rewrite En1, Es1 |].
    exists c2. rewrite Hrun1. split_and!; [done | congruence.. |].
    intros Hp. rewrite Ei2, Ei1 by lia. done.
Qed.

(** [push_off]/[pop_off] are matched: any properly nested sequence of them runs
    without panic and leaves the interrupt-enable bit and the nesting depth as they
    were before it. *)
Theorem push_pop_balanced w c :
  balanced w → 0 ≤ noff c → noff c + Z.of_nat (length w) < nest_max →
  (0 < noff c → sie c = false) →
  ∃ c', foldl run_call (Ok c) w = Ok c' ∧ noff c' = noff c ∧ sie c' = sie c.
Proof.
  intros Hw Hn Hmax Hs. destruct (balanced_run w Hw c Hn Hmax Hs) as (c' & ? & ? & ? & _). eauto.
Qed.

Lemma push_pop_balanced_witness :
  ∃ c', foldl run_call (Ok (mkCpu 0 false true)) [Push; Push; Pop; Pop] = Ok c' ∧
    noff c' = 0 ∧ sie c' = true.
Proof.
  apply (push_pop_balanced [Push; Push; Pop; Pop] (mkCpu 0 false true)).
  - apply (bal_nest [Push; Pop]), (bal_nest []), bal_nil.
  - by vm_compute.
  - by vm_compute.
  - cbn. lia.
Defined.

(** Hart 1 spins while hart 0 is inside [acquire] of lock 7. *)
Definition ex_machine : machine :=
  acquire_finish 0 7 (acquire_swap 1 7 (acquire_swap 0 7
    (set_hart 1 (mkHart (mkCpu 1 false false) (Acquiring 7) [] 0)
      (set_hart 0 (mkHart (mkCpu 1 false false) (Acquiring 7) [] 0) init)))).

Lemma ex_machine_reachable : reachable ex_machine.
Proof.
  eapply rtc_l; [apply (step_acquire 0 7); reflexivity|].
  eapply rtc_l; [apply (step_acquire 1 7); reflexivity|].
  eapply rtc_l; [apply (step_swap 0 7); reflexivity|].
  eapply rtc_l; [apply (step_swap 1 7); reflexivity|].
  eapply rtc_l; [apply (step_finish 0 7); reflexivity|]. apply rtc_refl.
Qed.

Lemma spin_mutual_exclusion_witness : holding (locks ex_machine 7) 0 = true.
Proof.
  apply (proj2 (proj2 (spin_mutual_exclusion ex_machine ex_machine_reachable))).
  by vm_compute; constructor.
Defined.

Lemma spin_panics_witness : acquire_enter 0 7 ex_machine = Panic "acquire".
Proof.
  apply (proj1 (spin_panics ex_machine 0 7 ex_machine_reachable eq_refl)).
  by vm_compute; constructor.
Defined.
