(* ===== verification/Sleeplock.v ===== *)
(** * Sleeplock: sleep, wakeup (src/kernel/proc.c) and src/kernel/sleeplock.c

    [acquiresleep] and [releasesleep] of one sleep lock, by any number of processes,
    with [sleep] and [wakeup] inlined and cut at every acquisition and release of the
    spin lock [lk->lk] and of the processes' [p->lock].  Critical sections of spin
    locks are atomic between those cuts (Spinlock.v).  [kill] and the scheduler may
    change a process's state at any time they can take its lock. *)

From stdpp Require Import functions.
From S2P Require Import Prelude Layout.

Local Open Scope Z_scope.

(** States of a process that matter here ([enum procstate]). *)
Inductive run_state := RUNNING | SLEEPING | RUNNABLE.

#[export] Instance run_state_dec : EqDecision run_state.
Proof. solve_decision. Defined.

(** Where a process is. *)
Inductive pc :=
  | Outside          (* not in the code below, not holding the sleep lock *)
  | AcqLock          (* acquiresleep: before acquire(&lk->lk) *)
  | AcqTest          (* while(lk->locked) *)
  | SleepLockP       (* sleep: before acquire(&p->lock) *)
  | SleepUnlock      (* before release(lk) *)
  | SleepState       (* before p->chan = chan; p->state = SLEEPING; sched() *)
  | Asleep           (* in sched(), p->lock released by the scheduler *)
  | SleepTidy        (* scheduled again with p->lock: p->chan = 0; release(&p->lock) *)
  | SleepRelock      (* before acquire(lk) *)
  | AcqTake          (* lk->locked = 1; lk->pid = ... *)
  | AcqUnlock        (* release(&lk->lk) *)
  | Inside           (* between acquiresleep and releasesleep *)
  | RelLock          (* releasesleep: before acquire(&lk->lk) *)
  | RelFree          (* lk->locked = 0; lk->pid = 0 *)
  | Wake (j : nat)   (* wakeup: before acquire(&proc[j].lock) *)
  | WakeP (j : nat)  (* holding proc[j].lock *)
  | RelUnlock.       (* release(&lk->lk) *)

Record state := mkState {
  lk : option nat;          (* holder of lk->lk *)
  plock : nat → option nat; (* holder of each p->lock *)
  locked : bool;            (* lk->locked *)
  lk_pid : option nat;      (* lk->pid *)
  st : nat → run_state;     (* p->state *)
  chan : nat → bool;        (* p->chan == lk *)
  pcs : nat → pc;
}.

Definition set_pc (p : nat) (c : pc) (s : state) : state :=
  mkState (lk s) (plock s) (locked s) (lk_pid s) (st s) (chan s) (<[p:=c]> (pcs s)).
Definition set_lk (o : option nat) (s : state) : state :=
  mkState o (plock s) (locked s) (lk_pid s) (st s) (chan s) (pcs s).
Definition set_plock (p : nat) (o : option nat) (s : state) : state :=
  mkState (lk s) (<[p:=o]> (plock s)) (locked s) (lk_pid s) (st s) (chan s) (pcs s).
Definition set_locked (b : bool) (o : option nat) (s : state) : state :=
  mkState (lk s) (plock s) b o (st s) (chan s) (pcs s).
Definition set_st (p : nat) (x : run_state) (s : state) : state :=
  mkState (lk s) (plock s) (locked s) (lk_pid s) (<[p:=x]> (st s)) (chan s) (pcs s).
Definition set_chan (p : nat) (b : bool) (s : state) : state :=
  mkState (lk s) (plock s) (locked s) (lk_pid s) (st s) (<[p:=b]> (chan s)) (pcs s).

(** The next step of process [p]; [None] while it spins on a lock or sleeps. *)
Definition next (p : nat) (s : state) : option state :=
  match pcs s p with
  | Outside => Some (set_pc p AcqLock s)
  | AcqLock | SleepRelock =>
      match lk s with None => Some (set_pc p AcqTest (set_lk (Some p) s)) | _ => None end
  | AcqTest => Some (set_pc p (if locked s then SleepLockP else AcqTake) s)
  | SleepLockP =>
      match plock s p with None => Some (set_pc p SleepUnlock (set_plock p (Some p) s)) | _ => None end
  | SleepUnlock => Some (set_pc p SleepState (set_lk None s))
  | SleepState =>
      Some (set_pc p Asleep (set_plock p None (set_st p SLEEPING (set_chan p true s))))
  | Asleep =>
      (* the scheduler: acquire(&p->lock); if RUNNABLE, run it *)
      match plock s p with
      | None => if decide (st s p = RUNNABLE)
                then Some (set_pc p SleepTidy (set_plock p (Some p) (set_st p RUNNING s))) else None
      | _ => None
      end
  | SleepTidy => Some (set_pc p SleepRelock (set_plock p None (set_chan p false s)))
  | AcqTake => Some (set_pc p AcqUnlock (set_locked true (Some p) s))
  | AcqUnlock => Some (set_pc p Inside (set_lk None s))
  | Inside => Some (set_pc p RelLock s)
  | RelLock => match lk s with None => Some (set_pc p RelFree (set_lk (Some p) s)) | _ => None end
  | RelFree => Some (set_pc p (Wake 0) (set_locked false None s))
  | Wake j =>
      if (Z.of_nat j <? NPROC) then
        if decide (j = p) then Some (set_pc p (Wake (S j)) s)
        else match plock s j with
             | None => Some (set_pc p (WakeP j) (set_plock j (Some p) s))
             | _ => None
             end
      else Some (set_pc p RelUnlock s)
  | WakeP j =>
      let s := if decide (st s j = SLEEPING ∧ chan s j = true) then set_st j RUNNABLE s else s in
      Some (set_pc p (Wake (S j)) (set_plock j None s))
  | RelUnlock => Some (set_pc p Outside (set_lk None s))
  end.

(** [kill]: wakes a sleeping process whose lock is free. *)
Definition kill (p : nat) (s : state) : option state :=
  match plock s p with
  | None => if decide (st s p = SLEEPING) then Some (set_st p RUNNABLE s) else None
  | _ => None
  end.

Inductive step : state → state → Prop :=
  | step_next p s s' : Z.of_nat p < NPROC → next p s = Some s' → step s s'
  | step_kill p s s' : kill p s = Some s' → step s s'.

Definition init : state :=
  mkState None (λ _, None) false None (λ _, RUNNING) (λ _, false) (λ _, Outside).

Definition reachable (s : state) : Prop := rtc step init s.

(** ** Invariant *)

Definition has_lk (c : pc) : bool :=
  match c with
  | AcqTest | SleepLockP | SleepUnlock | AcqTake | AcqUnlock | RelFree | Wake _ | WakeP _
  | RelUnlock => true
  | _ => false
  end.

(** The process locks held at a position by process [p]. *)
Definition has_plock (p : nat) (c : pc) (q : nat) : bool :=
  match c with
  | SleepUnlock | SleepState | SleepTidy => bool_decide (p = q)
  | WakeP j => bool_decide (j = q)
  | _ => false
  end.

(** The sleep lock is held at these positions. *)
Definition has_sleeplock (c : pc) : bool :=
  match c with AcqUnlock | Inside | RelLock | RelFree => true | _ => false end.

(** What the holder of [lk->lk] knows about [lk->locked]. *)
Definition knows (c : pc) (b : bool) : bool :=
  match c with
  | SleepLockP | SleepUnlock => b
  | AcqTake | Wake _ | WakeP _ | RelUnlock => negb b
  | _ => true
  end.

(** A waker that has not looked at process [p] yet. *)
Definition will_wake (c : pc) (p : nat) : bool :=
  match c with Wake j | WakeP j => bool_decide (j ≤ p)%nat | _ => false end.

(** Asleep on the lock, or about to be with [p->lock] held. *)
Definition waiting (s : state) (p : nat) : Prop :=
  pcs s p = SleepState ∨ (pcs s p = Asleep ∧ st s p = SLEEPING).

Record inv (s : state) : Prop := {
  i_lk p : lk s = Some p ↔ has_lk (pcs s p) = true;
  i_plock p q : plock s q = Some p ↔ has_plock p (pcs s p) q = true;
  i_held p : lk_pid s = Some p ↔ has_sleeplock (pcs s p) = true;
  i_locked : locked s = bool_decide (is_Some (lk_pid s));
  i_knows p : knows (pcs s p) (locked s) = true;
  i_range p : pcs s p ≠ Outside → Z.of_nat p < NPROC;
  i_chan p : pcs s p = Asleep → chan s p = true;
  i_state p : st s p = RUNNING ∨ pcs s p = Asleep;
  i_wakeup p : waiting s p → locked s = true ∨ ∃ r, will_wake (pcs s r) p = true;
}.

(** A token that at most one process holds, as its position [f] says; it stays, is
    taken or is given back when process [p] moves. *)
Lemma token_move (f : nat → bool) (o o' : option nat) (p : nat) (b : bool) :
  (∀ q, o = Some q ↔ f q = true) →
  (o' = o ∧ b = f p) ∨ (o = None ∧ o' = Some p ∧ b = true) ∨
  (f p = true ∧ o' = None ∧ b = false) →
  ∀ q, o' = Some q ↔ (if decide (q = p) then b else f q) = true.
Proof.
  intros Hf [[-> ->]|[(-> & -> & ->)|(Hp & -> & ->)]] q; destruct (decide (q = p)) as [->|Hq].
  - apply Hf.
  - apply Hf.
  - done.
  - rewrite <- Hf. split; congruence.
  - done.
  - apply Hf in Hp. rewrite <- Hf, Hp. split; congruence.
Qed.

Lemma pcs_move (s : state) p c q :
  (<[p:=c]> (pcs s)) q = if decide (q = p) then c else pcs s q.
Proof. destruct (decide (q = p)) as [->|]; [apply fn_lookup_insert | by apply fn_lookup_insert_ne]. Qed.

(** How a step of process [p] to position [c] treats each of the three locks. *)
Definition token_step (o o' : option nat) (p : nat) (old new : bool) : Prop :=
  (o' = o ∧ new = old) ∨ (o = None ∧ o' = Some p ∧ new = true) ∨
  (old = true ∧ o' = None ∧ new = false).

Lemma inv_lk s s' p c :
  inv s → pcs s' = <[p:=c]> (pcs s) →
  token_step (lk s) (lk s') p (has_lk (pcs s p)) (has_lk c) →
  ∀ q, lk s' = Some q ↔ has_lk (pcs s' q) = true.
Proof.
  intros Hinv -> Ht q. rewrite pcs_move.
  rewrite (token_move (λ q, has_lk (pcs s q)) (lk s) (lk s') p (has_lk c) (i_lk s Hinv) Ht).
  by destruct (decide _).
Qed.

Lemma inv_held s s' p c :
  inv s → pcs s' = <[p:=c]> (pcs s) →
  token_step (lk_pid s) (lk_pid s') p (has_sleeplock (pcs s p)) (has_sleeplock c) →
  ∀ q, lk_pid s' = Some q ↔ has_sleeplock (pcs s' q) = true.
Proof.
  intros Hinv -> Ht q. rewrite pcs_move.
  rewrite (token_move (λ q, has_sleeplock (pcs s q)) _ (lk_pid s') p (has_sleeplock c) (i_held s Hinv) Ht).
  by destruct (decide _).
Qed.

Lemma inv_plock s s' p c :
  inv s → pcs s' = <[p:=c]> (pcs s) →
  (∀ q, token_step (plock s q) (plock s' q) p (has_plock p (pcs s p) q) (has_plock p c q)) →
  ∀ r q, plock s' q = Some r ↔ has_plock r (pcs s' r) q = true.
Proof.
  intros Hinv -> Ht r q. rewrite pcs_move.
  rewrite (token_move (λ r, has_plock r (pcs s r) q) _ (plock s' q) p (has_plock p c q)
             (λ r, i_plock s Hinv r q) (Ht q)).
  by destruct (decide (r = p)) as [->|].
Qed.

(** What the others know about [lk->locked] survives, because it changes only under
    [lk->lk]. *)
Lemma inv_knows s s' p c :
  inv s → pcs s' = <[p:=c]> (pcs s) → knows c (locked s') = true →
  locked s' = locked s ∨ has_lk (pcs s p) = true →
  ∀ q, knows (pcs s' q) (locked s') = true.
Proof.
  intros Hinv -> Hc Hl q. rewrite pcs_move. destruct (decide (q = p)) as [->|Hq]; [done|].
  destruct Hl as [->|Hp]; [apply Hinv|]. apply (i_lk s Hinv) in Hp.
  destruct (pcs s q) eqn:E; try done; (assert (lk s = Some q) by (by apply (i_lk s Hinv); rewrite E));
    congruence.
Qed.

(** Process [p] moves to [c]; the others' states change at most to [RUNNABLE]. *)
Lemma sl_inv_move s s' p c :
  inv s → Z.of_nat p < NPROC → pcs s' = <[p:=c]> (pcs s) →
  token_step (lk s) (lk s') p (has_lk (pcs s p)) (has_lk c) →
  token_step (lk_pid s) (lk_pid s') p (has_sleeplock (pcs s p)) (has_sleeplock c) →
  (∀ q, token_step (plock s q) (plock s' q) p (has_plock p (pcs s p) q) (has_plock p c q)) →
  locked s' = bool_decide (is_Some (lk_pid s')) → knows c (locked s') = true →
  locked s' = locked s ∨ has_lk (pcs s p) = true →
  (∀ q, q ≠ p → chan s' q = chan s q) → (c = Asleep → chan s' p = true) →
  (∀ q, q ≠ p → st s' q = st s q ∨ (st s' q = RUNNABLE ∧ pcs s q = Asleep)) →
  (st s' p = RUNNING ∨ c = Asleep) → (waiting s' p → locked s' = true ∨ waiting s p) →
  (locked s = true → locked s' = true ∨ c = Wake 0) →
  (∀ q, waiting s' q → q ≠ p → will_wake (pcs s p) q = true → will_wake c q = true) →
  inv s'.
Proof.
  intros Hinv Hp Ep Hlk Hsl Hpl Hlocked Hk Hkl Hch Hchp Hst Hstp Hself Hl Hwake.
  split; eauto using inv_lk, inv_held, inv_plock, inv_knows.
  - intros q. rewrite Ep, pcs_move. destruct (decide (q = p)) as [->|]; [done | apply Hinv].
  - intros q. rewrite Ep, pcs_move. destruct (decide (q = p)) as [->|]; [done|].
    rewrite Hch by done. apply Hinv.
  - intros q. rewrite Ep, pcs_move. destruct (decide (q = p)) as [->|Hq]; [done|].
    destruct (Hst q Hq) as [->|[_ ?]]; [apply Hinv | by right].
  - intros q Hq. assert (Hold : waiting s q ∨ locked s' = true).
    { destruct (decide (q = p)) as [->|Hqp]; [destruct (Hself Hq); auto|]. left.
      unfold waiting in *. rewrite Ep, pcs_move, decide_False in Hq by done.
      destruct (Hst q Hqp) as [<-|[E _]]; [done|]. rewrite E in Hq.
      destruct Hq as [?|[_ [=]]]. by left. }
    destruct Hold as [Hold|]; [|by left].
    destruct (i_wakeup s Hinv q Hold) as [Hlk'|(r & Hr)].
    + destruct (Hl Hlk') as [?| ->]; [by left|]. right. exists p. by rewrite Ep, pcs_move, decide_True.
    + right. destruct (decide (r = p)) as [->|Hrp].
      * exists p. rewrite Ep, pcs_move, decide_True by done. apply Hwake; [done | | done].
        intros ->. destruct Hold as [E|[E _]]; rewrite E in Hr; done.
      * exists r. by rewrite Ep, pcs_move, decide_False.
Qed.

(** Positions that leave a lock alone. *)
Lemma token_keep o p b b' : b' = b → token_step o o p b b'.
Proof. intros ->. by left. Qed.

Lemma plock_keep s p c :
  (∀ q, has_plock p c q = has_plock p (pcs s p) q) →
  ∀ q, token_step (plock s q) (plock s q) p (has_plock p (pcs s p) q) (has_plock p c q).
Proof. intros E q. by apply token_keep. Qed.

Lemma plock_take s p q0 c :
  plock s q0 = None → (∀ q, has_plock p (pcs s p) q = false) →
  (∀ q, has_plock p c q = bool_decide (q0 = q)) →
  ∀ q, token_step (plock s q) ((<[q0:=Some p]> (plock s)) q) p (has_plock p (pcs s p) q) (has_plock p c q).
Proof.
  intros Hn Ho Hc q. rewrite Ho, Hc. destruct (decide (q = q0)) as [->|Hne].
  - rewrite fn_lookup_insert, bool_decide_true by done. right. by left.
  - rewrite fn_lookup_insert_ne, bool_decide_false by done. by left.
Qed.

Lemma plock_give s p q0 c :
  (∀ q, has_plock p (pcs s p) q = bool_decide (q0 = q)) → (∀ q, has_plock p c q = false) →
  ∀ q, token_step (plock s q) ((<[q0:=None]> (plock s)) q) p (has_plock p (pcs s p) q) (has_plock p c q).
Proof.
  intros Ho Hc q. rewrite Ho, Hc. destruct (decide (q = q0)) as [->|Hne].
  - rewrite fn_lookup_insert, bool_decide_true by done. by do 2 right.
  - rewrite fn_lookup_insert_ne, bool_decide_false by done. by left.
Qed.

(** Obligations of [sl_inv_move] that only need the updates to be looked up. *)
Ltac sl_side Hpc :=
  cbn [plock set_pc set_lk set_plock set_locked set_st set_chan];
  try (apply plock_keep; intros ?; by rewrite Hpc);
  try (apply plock_take; [done | intros ?; by rewrite Hpc | done]);
  try (apply plock_give; [intros ?; by rewrite Hpc | done]);
  rewrite ?Hpc; intros; unfold waiting, token_step in *; cbn in *;
  repeat match goal with
  | |- context [(<[?a:=_]> _) ?a] => rewrite fn_lookup_insert
  | H : context [(<[?a:=_]> _) ?a] |- _ => rewrite fn_lookup_insert in H
  | Hne : ?b ≠ ?a |- context [(<[?a:=_]> _) ?b] => rewrite fn_lookup_insert_ne by done
  | Hne : ?b ≠ ?a, H : context [(<[?a:=_]> _) ?b] |- _ => rewrite fn_lookup_insert_ne in H by done
  end; try solve [auto | intuition (auto; congruence)].

(** While a waker looks at [q], no one is between [acquire] and [sched] of [sleep] there. *)
Lemma waker_excludes s p q : inv s → pcs s p = WakeP q → pcs s q ≠ SleepState.
Proof.
  intros Hinv Hp Hq. assert (H1 : plock s q = Some p).
  { apply (i_plock s Hinv). rewrite Hp. by apply bool_decide_eq_true. }
  assert (H2 : plock s q = Some q).
  { apply (i_plock s Hinv). rewrite Hq. by apply bool_decide_eq_true. }
  assert (p = q) as -> by congruence. congruence.
Qed.

Lemma next_inv p s s' : Z.of_nat p < NPROC → next p s = Some s' → inv s → inv s'.
Proof.
  intros Hp Hn Hinv. unfold next in Hn. pose proof (i_state s Hinv p) as Hst.
  pose proof (i_locked s Hinv) as Hlocked. pose proof (i_knows s Hinv p) as Hk.
  pose proof (i_lk s Hinv p) as Hlk. pose proof (i_held s Hinv p) as Hheld.
  destruct (pcs s p) eqn:Hpc; cbn in Hk;
    repeat match type of Hn with
    | match ?x with _ => _ end = _ => destruct x eqn:?; try discriminate Hn
    end; injection Hn as <-;
    try match goal with
    | |- context [if decide ?P then set_st _ _ _ else _] => destruct (decide P)
    | |- context [if locked s then SleepLockP else _] => destruct (locked s) eqn:?
    end;
    (eapply (sl_inv_move s _ p); [done | done | reflexivity | ..]); sl_side Hpc.
  - by rewrite Heqb.
  - destruct (lk_pid s); [|auto]. by rewrite bool_decide_true in Hlocked; [rewrite Hlocked in Hk|].
  - apply bool_decide_eq_true. apply bool_decide_eq_true in H1. lia.
  - apply bool_decide_eq_true in H1. assert (Z.of_nat q < NPROC); [|lia].
    apply (i_range s Hinv). destruct H as [E|[E _]]; by rewrite E.
  - destruct (decide (q = j)) as [->|]; [|left; by rewrite fn_lookup_insert_ne].
    right. rewrite fn_lookup_insert. split; [done|]. destruct (i_state s Hinv j) as [E|]; [|done].
    destruct a as [a _]. congruence.
  - left. rewrite fn_lookup_insert_ne; [intuition congruence|]. intros ->. intuition congruence.
  - apply bool_decide_eq_true. apply bool_decide_eq_true in H1. assert (q ≠ j); [|lia].
    intros ->. rewrite fn_lookup_insert in H. destruct H as [E|[_ [=]]].
    by eapply waker_excludes in E.
  - apply bool_decide_eq_true. apply bool_decide_eq_true in H1. assert (q ≠ j); [|lia].
    intros ->. destruct H as [E|[E E']]; [by eapply waker_excludes in E|].
    apply n. split; [done|]. by apply (i_chan s Hinv).
Qed.

Lemma kill_inv p s s' : kill p s = Some s' → inv s → inv s'.
Proof.
  unfold kill. destruct (plock s p) eqn:Hpl; [done|]. destruct (decide _) as [Hs|]; [|done].
  intros [= <-] Hinv. pose proof (i_state s Hinv p) as Hst. destruct Hst as [?|Hst]; [congruence|].
  destruct Hinv as [H1 H2 H3 H4 H5 H6 H7 H8 H9]. split; cbn; try done.
  - intros q. destruct (decide (q = p)) as [->|]; [by right|]. by rewrite fn_lookup_insert_ne.
  - intros q Hq. apply H9. unfold waiting in *. cbn in Hq.
    destruct (decide (q = p)) as [->|]; [|by rewrite fn_lookup_insert_ne in Hq].
    rewrite fn_lookup_insert in Hq. destruct Hq as [?|[_ [=]]]. by left.
Qed.

Lemma sl_inv_init : inv init.
Proof.
  split; cbn; try done.
  - intros p. by left.
  - intros p [?|[? _]]; done.
Qed.

Lemma sl_reachable_inv s : reachable s → inv s.
Proof.
  unfold reachable. intros Hr. remember init as s0 eqn:E.
  assert (Hinv : inv s0) by (rewrite E; apply sl_inv_init). clear E.
  induction Hr as [|s1 s2 s3 Hs Hr IH]; [done|]. apply IH.
  destruct Hs; eauto using next_inv, kill_inv.
Qed.

(** ** Properties *)

(** C19. No wakeup is lost: in every reachable state a process that sleeps on the lock
    (or has committed to) finds the lock taken, or some [releasesleep] in progress that
    has still to look at it.  So when the lock is free and nobody is inside
    [releasesleep], nobody sleeps on it. *)
Theorem no_lost_wakeup s :
  reachable s →
  (∀ p, waiting s p → locked s = true ∨ ∃ r, will_wake (pcs s r) p = true) ∧
  (locked s = false → lk s = None → ∀ p, ¬ waiting s p).
Proof.
  intros Hinv%sl_reachable_inv. split; [apply Hinv|]. intros Hl Hk p Hw.
  destruct (i_wakeup s Hinv p Hw) as [|(r & Hr)]; [congruence|].
  assert (lk s = Some r); [|congruence]. apply (i_lk s Hinv). by destruct (pcs s r).
Qed.

(** A sleep lock excludes: at most one process is between [acquiresleep] and
    [releasesleep], [lk->locked] is set exactly while one is, and [lk->pid] names it. *)
Theorem sleeplock_exclusive s :
  reachable s →
  (∀ p, lk_pid s = Some p ↔ has_sleeplock (pcs s p) = true) ∧
  (locked s = true ↔ ∃ p, has_sleeplock (pcs s p) = true) ∧
  (∀ p q, pcs s p = Inside → pcs s q = Inside → p = q).
Proof.
  intros Hinv%sl_reachable_inv. pose proof (i_held s Hinv) as Hh. split_and!; [done | |].
  - rewrite (i_locked s Hinv), bool_decide_eq_true. unfold is_Some. by setoid_rewrite Hh.
  - intros p q Hp Hq. assert (lk_pid s = Some p) by (apply Hh; by rewrite Hp).
    assert (lk_pid s = Some q) by (apply Hh; by rewrite Hq). congruence.
Qed.

(** Process 1 sleeps while process 0 is inside. *)
Definition run_to (w : list nat) : state :=
  foldl (λ s p, default s (next p s)) init w.

Lemma run_to_reachable w : Forall (λ p, Z.of_nat p < NPROC) w → reachable (run_to w).
Proof.
  unfold run_to, reachable. induction w as [|p w IH] using rev_ind; intros Hw; [apply rtc_refl|].
  apply Forall_app in Hw as [Hw Hp]. apply Forall_cons in Hp as [Hp _].
  rewrite foldl_app. cbn. destruct (next p _) as [s'|] eqn:E; [|by apply IH].
  eapply rtc_r; [by apply IH|]. by eapply step_next.
Qed.

Definition ex_run : list nat := [0; 0; 0; 0; 0; 1; 1; 1; 1; 1; 1]%nat.

Lemma no_lost_wakeup_witness : waiting (run_to ex_run) 1 ∧ locked (run_to ex_run) = true.
Proof.
  assert (Hw : waiting (run_to ex_run) 1) by (right; by vm_compute).
  split; [done|].
  destruct (proj1 (no_lost_wakeup (run_to ex_run) ltac:(apply run_to_reachable; by repeat constructor)) 1%nat Hw)
    as [H|_]; [exact H | by vm_compute].
Defined.

Lemma sleeplock_exclusive_witness : lk_pid (run_to ex_run) = Some 0%nat.
Proof.
  apply (proj1 (sleeplock_exclusive (run_to ex_run) ltac:(apply run_to_reachable; by repeat constructor)) 0%nat).
  by vm_compute.
Defined.
