(* ===== verification/FsFormat.v ===== *)
(** * FsFormat: the on-disk format (src/kernel/fs.h, src/kernel/stat.h) *)

From S2P Require Import Prelude Mem.

Local Open Scope Z_scope.

Definition ROOTINO : Z := 1.
Definition BSIZE : Z := 1024.
Definition FSMAGIC : Z := 0x10203040.

(** [struct superblock] *)
Record superblock := mkSuperblock {
  sb_magic : Z;      (* must be FSMAGIC *)
  sb_size : Z;       (* size of file system image (blocks) *)
  sb_nblocks : Z;    (* number of data blocks *)
  sb_ninodes : Z;    (* number of inodes *)
  sb_nlog : Z;       (* number of log blocks *)
  sb_logstart : Z;   (* block number of first log block *)
  sb_inodestart : Z; (* block number of first inode block *)
  sb_bmapstart : Z;  (* block number of first free map block *)
}.

Definition NDIRECT : Z := 12.
Definition NINDIRECT : Z := BSIZE / 4.
Definition MAXFILE : Z := NDIRECT + NINDIRECT.

(** [struct dinode] is 64 bytes: four shorts, the size, and the addresses. *)
Definition DINODE_SIZE : Z := 64.

Record dinode := mkDinode {
  di_type : Z;
  di_major : Z;
  di_minor : Z;
  di_nlink : Z;
  di_size : Z;
  di_addrs : list Z; (* NDIRECT+1 data block addresses *)
}.

(** [uint addrs[NDIRECT+1]] at offset [o]. *)
Definition get_addrs (d : memory) (o : Z) : list Z :=
  (λ i, ld32 d (o + 4 * i)) <$> seqZ 0 (NDIRECT + 1).
Fixpoint put_addrs (d : memory) (o : Z) (l : list Z) : memory :=
  match l with
  | [] => d
  | a :: l' => put_addrs (st32 d o a) (o + 4) l'
  end.

(** The inode at offset [o] of an inode block. *)
Definition get_dinode (d : memory) (o : Z) : dinode :=
  mkDinode (i16 (ld16 d o)) (i16 (ld16 d (o + 2))) (i16 (ld16 d (o + 4))) (i16 (ld16 d (o + 6)))
    (ld32 d (o + 8)) (get_addrs d (o + 12)).
Definition put_dinode (d : memory) (o : Z) (x : dinode) : memory :=
  let d1 := st16 d o (di_type x) in
  let d2 := st16 d1 (o + 2) (di_major x) in
  let d3 := st16 d2 (o + 4) (di_minor x) in
  let d4 := st16 d3 (o + 6) (di_nlink x) in
  let d5 := st32 d4 (o + 8) (di_size x) in
  put_addrs d5 (o + 12) (di_addrs x).

Definition IPB : Z := BSIZE / DINODE_SIZE.
Definition IBLOCK (i : Z) (sb : superblock) : Z := i / IPB + sb_inodestart sb.
Definition BPB : Z := BSIZE * 8.
Definition BBLOCK (b : Z) (sb : superblock) : Z := b / BPB + sb_bmapstart sb.

Definition DIRSIZ : Z := 14.

(** [struct dirent]: [ushort inum; char name[DIRSIZ]], 16 bytes. *)
Definition DIRENT_SIZE : Z := 16.

Definition T_DIR : Z := 1.
Definition T_FILE : Z := 2.
Definition T_DEVICE : Z := 3.

(** ** Inodes on disk *)

(** Field values a [struct dinode] can hold. *)
Record dinode_ok (x : dinode) : Prop := {
  do_type : - 2 ^ 15 ≤ di_type x < 2 ^ 15;
  do_major : - 2 ^ 15 ≤ di_major x < 2 ^ 15;
  do_minor : - 2 ^ 15 ≤ di_minor x < 2 ^ 15;
  do_nlink : - 2 ^ 15 ≤ di_nlink x < 2 ^ 15;
  do_size : 0 ≤ di_size x < 2 ^ 32;
  do_len : length (di_addrs x) = Z.to_nat (NDIRECT + 1);
  do_addrs : Forall (λ a, 0 ≤ a < 2 ^ 32) (di_addrs x);
}.

Lemma i16_u16 z : - 2 ^ 15 ≤ z < 2 ^ 15 → i16 (u16 z) = z.
Proof. intros Hz. unfold i16, u16. rewrite Zmod_mod. destruct (Z.ltb_spec (z mod 2 ^ 16) (2 ^ 15)); zdiv. Qed.

Lemma ld8_put_addrs l : ∀ d o a,
  a < o ∨ o + 4 * Z.of_nat (length l) ≤ a → ld8 (put_addrs d o l) a = ld8 d a.
Proof.
  induction l as [|v l IH]; intros d o a Ha; cbn [put_addrs]; [done|]. cbn [length] in Ha.
  rewrite IH by lia. apply (ld8_stle 4). lia.
Qed.

Lemma ld32_put_addrs l : ∀ d o i a,
  Forall (λ a, 0 ≤ a < 2 ^ 32) l → l !! i = Some a → ld32 (put_addrs d o l) (o + 4 * Z.of_nat i) = a.
Proof.
  induction l as [|v l IH]; intros d o i a Hl Hi; [done|]. inversion_clear Hl. cbn [put_addrs].
  destruct i as [|i].
  - injection Hi as ->. rewrite Z.mul_0_r, Z.add_0_r. transitivity (ld32 (st32 d o a) o).
    + apply (ldle_ext 4). intros j Hj. apply ld8_put_addrs. lia.
    + rewrite ld32_st32_eq. by apply u32_small.
  - replace (o + 4 * Z.of_nat (S i)) with ((o + 4) + 4 * Z.of_nat i) by lia. by apply IH.
Qed.

Lemma get_put_addrs d o l :
  Forall (λ a, 0 ≤ a < 2 ^ 32) l → length l = Z.to_nat (NDIRECT + 1) → get_addrs (put_addrs d o l) o = l.
Proof.
  intros Hl Hlen. apply list_eq_same_length with (Z.to_nat (NDIRECT + 1)); [done | by unfold get_addrs; rewrite length_fmap, length_seqZ |].
  intros i x y Hi Hx Hy. unfold get_addrs in Hx. rewrite list_lookup_fmap, lookup_seqZ_lt in Hx by lia.
  injection Hx as <-. rewrite Z.add_0_l. by apply ld32_put_addrs.
Qed.

(** [iupdate] writes the 64 bytes of one inode. *)
Lemma ld8_put_dinode d o x a :
  length (di_addrs x) = Z.to_nat (NDIRECT + 1) → a < o ∨ o + DINODE_SIZE ≤ a → ld8 (put_dinode d o x) a = ld8 d a.
Proof.
  intros Hlen Ha. unfold put_dinode, DINODE_SIZE in *. rewrite ld8_put_addrs by (rewrite Hlen; unfold NDIRECT; lia).
  unfold st16, st32. rewrite !ld8_stle by lia. done.
Qed.

Lemma get_put_dinode d o x : dinode_ok x → get_dinode (put_dinode d o x) o = x.
Proof.
  intros [H1 H2 H3 H4 H5 H6 H7]. unfold get_dinode, put_dinode. set (d5 := st32 _ _ _).
  assert (E16 : ∀ a, o ≤ a → a + 2 ≤ o + 12 → ld16 (put_addrs d5 (o + 12) (di_addrs x)) a = ld16 d5 a).
  { intros a Ha1 Ha2. apply (ldle_ext 2). intros i Hi. apply ld8_put_addrs. lia. }
  assert (E32 : ld32 (put_addrs d5 (o + 12) (di_addrs x)) (o + 8) = ld32 d5 (o + 8)).
  { apply (ldle_ext 4). intros i Hi. apply ld8_put_addrs. lia. }
  rewrite !E16, E32, get_put_addrs by (done || lia). subst d5. rewrite ld32_st32_eq.
  assert (E24 : ∀ m a v c, c + 2 ≤ a → ld16 (st32 m a v) c = ld16 m c) by (intros; apply (ldle_stle_ne 2 4); lia).
  assert (E22 : ∀ m a v c, c + 2 ≤ a → ld16 (st16 m a v) c = ld16 m c) by (intros; apply (ldle_stle_ne 2 2); lia).
  rewrite !E24 by lia. repeat first [rewrite ld16_st16_eq | rewrite E22 by lia].
  rewrite !i16_u16, u32_small by done. by destruct x.
Qed.

Lemma get_dinode_ext d d' o :
  (∀ a, o ≤ a < o + DINODE_SIZE → ld8 d' a = ld8 d a) → get_dinode d' o = get_dinode d o.
Proof.
  intros H. unfold DINODE_SIZE in H. unfold get_dinode.
  assert (E : ∀ n a, o ≤ a → a + Z.of_nat n ≤ o + 64 → ldle n d' a = ldle n d a).
  { intros n a H1 H2. apply ldle_ext. intros i Hi. apply H. lia. }
  unfold ld16, ld32. rewrite !E by lia. f_equal. unfold get_addrs. apply list_fmap_ext. intros i z Hz.
  apply lookup_seqZ in Hz as [-> Hz]. unfold NDIRECT in Hz. apply E; lia.
Qed.
