(* ===== verification/Bio.v ===== *)
(** * Bio: the buffer cache (src/kernel/bio.c, src/kernel/buf.h)

    The cache is the array of [NBUF] buffers and the list head, linked through their
    [prev] and [next] fields; node [NBUF] is [bcache.head].  Critical sections under
    [bcache.lock] are atomic.  A buffer's sleep lock is the process that holds it;
    waiting for one is [Sleeps].  The disk is what [virtio_disk_rw] makes of it: a
    synchronous store of blocks, whose writes are recorded in order. *)

From stdpp Require Import functions.
From S2P Require Import Prelude Mem Layout.

Local Open Scope Z_scope.

(** A block's bytes are those at the addresses [0, BSIZE). *)
Abbreviation block := memory.

(** ** State *)

Record buf := mkBuf {
  b_valid : bool;           (* has data been read from disk? *)
  b_dev : Z;
  b_blockno : Z;
  b_lock : option Z;        (* holder of the sleep lock *)
  b_refcnt : Z;
  b_prev : nat;             (* LRU cache list *)
  b_next : nat;
  b_data : block;
}.

Record bcache := mkBcache {
  bufs : nat → buf;             (* bcache.buf[], and bcache.head at index [bhead] *)
  disk : Z → Z → block;         (* contents by device and block number *)
  writes : list (Z * Z * block) (* blocks written so far, oldest first *)
}.

Definition bhead : nat := Z.to_nat NBUF.

Abbreviation BM := (M bcache).

Definition upd (b : nat) (f : buf → buf) : BM unit :=
  modify (λ s, mkBcache (<[b := f (bufs s b)]> (bufs s)) (disk s) (writes s)).
Definition rd {A} (b : nat) (f : buf → A) : BM A := gets (λ s, f (bufs s b)).

Definition set_next (n : nat) (x : buf) : buf :=
  mkBuf (b_valid x) (b_dev x) (b_blockno x) (b_lock x) (b_refcnt x) (b_prev x) n (b_data x).
Definition set_prev (n : nat) (x : buf) : buf :=
  mkBuf (b_valid x) (b_dev x) (b_blockno x) (b_lock x) (b_refcnt x) n (b_next x) (b_data x).
Definition set_refcnt (n : Z) (x : buf) : buf :=
  mkBuf (b_valid x) (b_dev x) (b_blockno x) (b_lock x) n (b_prev x) (b_next x) (b_data x).
Definition set_lock (o : option Z) (x : buf) : buf :=
  mkBuf (b_valid x) (b_dev x) (b_blockno x) o (b_refcnt x) (b_prev x) (b_next x) (b_data x).
Definition set_valid (v : bool) (x : buf) : buf :=
  mkBuf v (b_dev x) (b_blockno x) (b_lock x) (b_refcnt x) (b_prev x) (b_next x) (b_data x).
Definition set_data (d : block) (x : buf) : buf :=
  mkBuf (b_valid x) (b_dev x) (b_blockno x) (b_lock x) (b_refcnt x) (b_prev x) (b_next x) d.
Definition set_id (d n : Z) (x : buf) : buf :=
  mkBuf false d n (b_lock x) 1 (b_prev x) (b_next x) (b_data x).

(** ** Initialisation *)

(** Link [b] in after the head. *)
Definition link_front (b : nat) : BM unit :=
  h ← rd bhead b_next;
  upd b (set_next h);;
  upd b (set_prev bhead);;
  h ← rd bhead b_next;
  upd h (set_prev b);;
  upd bhead (set_next b).

(** [for(b = bcache.buf; b < bcache.buf+NBUF; b++)] with [n] buffers left. *)
Fixpoint binit_loop (n b : nat) : BM unit :=
  match n with
  | O => mret tt
  | S n' =>
      upd b (set_lock None);;   (* initsleeplock: a field the links do not depend on *)
      link_front b;;
      binit_loop n' (S b)
  end.

Definition binit : BM unit :=
  upd bhead (set_prev bhead);;
  upd bhead (set_next bhead);;
  binit_loop (Z.to_nat NBUF) 0.

(** ** Operations, called by process [me] *)

Section ops.
  Context (me : Z).

(** [sleeplock.c] on a buffer's lock. *)
Definition acquiresleep (b : nat) : BM unit :=
  l ← rd b b_lock;
  match l with
  | None => upd b (set_lock (Some me))
  | Some _ => sleeps
  end.

Definition releasesleep (b : nat) : BM unit := upd b (set_lock None).

Definition holdingsleep (b : nat) : BM bool := l ← rd b b_lock; mret (bool_decide (l = Some me)).

(** [for(b = bcache.head.next; b != &bcache.head; b = b->next)] *)
Fixpoint find_loop (fuel : nat) (b : nat) (dev0 blockno0 : Z) : BM (option nat) :=
  match fuel with
  | O => out_of_fuel
  | S f =>
      if decide (b = bhead) then mret None
      else
        x ← rd b id;
        if (b_dev x =? dev0) && (b_blockno x =? blockno0) then mret (Some b)
        else find_loop f (b_next x) dev0 blockno0
  end.

(** [for(b = bcache.head.prev; b != &bcache.head; b = b->prev)] *)
Fixpoint recycle_loop (fuel : nat) (b : nat) : BM (option nat) :=
  match fuel with
  | O => out_of_fuel
  | S f =>
      if decide (b = bhead) then mret None
      else
        x ← rd b id;
        if b_refcnt x =? 0 then mret (Some b) else recycle_loop f (b_prev x)
  end.

(** One iteration per buffer, and one to see the head. *)
Definition list_fuel : nat := S (Z.to_nat NBUF).

Definition bget (dev0 blockno0 : Z) : BM nat :=
  first ← rd bhead b_next;
  o ← find_loop list_fuel first dev0 blockno0;
  match o with
  | Some b =>
      n ← rd b b_refcnt; upd b (set_refcnt (u32 (n + 1)));;
      acquiresleep b;;
      mret b
  | None =>
      last ← rd bhead b_prev;
      o ← recycle_loop list_fuel last;
      match o with
      | Some b => upd b (set_id dev0 blockno0);; acquiresleep b;; mret b
      | None => panic "bget: no buffers"
      end
  end.

(** What [virtio_disk_rw] (src/kernel/virtio_disk.c) does to buffer and disk. *)
Definition virtio_disk_rw (b : nat) (write : bool) : BM unit :=
  x ← rd b id;
  if write then
    modify (λ s, mkBcache (bufs s)
      (λ d n, if decide (d = b_dev x ∧ n = b_blockno x) then b_data x else disk s d n)
      (writes s ++ [(b_dev x, b_blockno x, b_data x)]))
  else
    d ← gets (λ s, disk s (b_dev x) (b_blockno x));
    upd b (set_data d).

Definition bread (dev0 blockno0 : Z) : BM nat :=
  b ← bget dev0 blockno0;
  v ← rd b b_valid;
  (if negb v then virtio_disk_rw b false;; upd b (set_valid true) else mret tt);;
  mret b.

Definition bwrite (b : nat) : BM unit :=
  h ← holdingsleep b;
  if negb h then panic "bwrite" else virtio_disk_rw b true.

(** Take [b] out of the list. *)
Definition unlink (b : nat) : BM unit :=
  x ← rd b id; upd (b_next x) (set_prev (b_prev x));;
  x ← rd b id; upd (b_prev x) (set_next (b_next x)).

Definition brelse (b : nat) : BM unit :=
  h ← holdingsleep b;
  if negb h then panic "brelse"
  else
    releasesleep b;;
    n ← rd b b_refcnt; upd b (set_refcnt (u32 (n - 1)));;
    n ← rd b b_refcnt;
    if n =? 0 then unlink b;; link_front b else mret tt.

Definition bpin (b : nat) : BM unit := n ← rd b b_refcnt; upd b (set_refcnt (u32 (n + 1))).
Definition bunpin (b : nat) : BM unit := n ← rd b b_refcnt; upd b (set_refcnt (u32 (n - 1))).

End ops.

(** ** The list of buffers *)

(** Starting and ending at the head, the links run through [L] both ways. *)
Definition linked (f : nat → buf) : nat → nat → Prop :=
  λ a b, b_next (f a) = b ∧ b_prev (f b) = a.

Definition dll (f : nat → buf) (L : list nat) : Prop :=
  NoDup (bhead :: L) ∧ Forall2 (linked f) (bhead :: L) (L ++ [bhead]).

Lemma linked_ext f g as_ bs :
  (∀ a, a ∈ as_ → b_next (g a) = b_next (f a)) →
  (∀ b, b ∈ bs → b_prev (g b) = b_prev (f b)) →
  Forall2 (linked f) as_ bs → Forall2 (linked g) as_ bs.
Proof.
  intros Ha Hb HF. induction HF as [|a b as_ bs [E1 E2] _ IH]; constructor.
  - split; [rewrite Ha | rewrite Hb]; [done | constructor | done | constructor].
  - apply IH; intros; [apply Ha | apply Hb]; by constructor.
Qed.

Lemma dll_targets f L : dll f L → NoDup (L ++ [bhead]).
Proof. intros [Hd _]. by rewrite Permutation_app_comm. Qed.

(** Walking forward over [L]. *)
Lemma find_loop_ok fuel dev0 n0 s L : ∀ b,
  Forall2 (linked (bufs s)) L (drop 1 (L ++ [bhead])) → bhead ∉ L →
  b = hd bhead (L ++ [bhead]) → (length L < fuel)%nat →
  find_loop fuel b dev0 n0 s =
    Ok (List.find (λ b, (b_dev (bufs s b) =? dev0) && (b_blockno (bufs s b) =? n0)) L, s).
Proof.
  revert L. induction fuel as [|fuel IH]; intros L b HF Hh Hb Hfu; [lia|].
  cbn [find_loop]. destruct L as [|a L]; cbn in Hb; subst b.
  - by rewrite decide_True.
  - apply not_elem_of_cons in Hh as [Hne Hh]. rewrite decide_False by done.
    unfold rd. rewrite bind_gets. cbn [List.find id].
    destruct ((b_dev _ =? _) && _) eqn:E; [done|]. cbn in HF.
    destruct L as [|a' L].
    + apply Forall2_cons in HF as [[En _] _]. rewrite En. apply IH; [constructor | done | done |].
      cbn in *. lia.
    + cbn in HF. apply Forall2_cons in HF as [[En _] HF]. rewrite En. apply IH; cbn in *; done || lia.
Qed.

(** The last link of a chain, split off. *)
Lemma linked_last f L x :
  Forall2 (linked f) (bhead :: L) (L ++ [x]) →
  Forall2 (linked f) (removelast (bhead :: L)) L ∧ linked f (List.last (bhead :: L) bhead) x.
Proof.
  rewrite (app_removelast_last (l := bhead :: L) bhead) at 1 by done. intros HF.
  apply Forall2_app_inv in HF as [H1 H2].
  - apply Forall2_cons in H2 as [H2 _]. done.
  - pose proof (f_equal length (app_removelast_last (l := bhead :: L) bhead ltac:(done))) as E.
    rewrite length_app, !length_cons, length_nil in E. lia.
Qed.

(** Walking backward. *)
Lemma recycle_loop_ok fuel s L : ∀ b,
  Forall2 (linked (bufs s)) (removelast (bhead :: L)) L → bhead ∉ L →
  b = List.last (bhead :: L) bhead → (length L < fuel)%nat →
  recycle_loop fuel b s = Ok (List.find (λ b, b_refcnt (bufs s b) =? 0) (rev L), s).
Proof.
  revert L. induction fuel as [|fuel IH]; intros L b HF Hh Hb Hfu; [lia|].
  cbn [recycle_loop]. destruct L as [|a L _] using rev_ind; [subst b; cbn; by rewrite decide_True|].
  rewrite app_comm_cons in HF, Hb. rewrite last_last in Hb. rewrite removelast_last in HF. subst b.
  rewrite not_elem_of_app in Hh. destruct Hh as [Hh Hne].
  rewrite decide_False by (intros ->; apply Hne; constructor).
  unfold rd. rewrite bind_gets, rev_app_distr. cbn [rev app List.find id].
  destruct (b_refcnt _ =? 0) eqn:E; [done|]. apply linked_last in HF as [HF [_ Ep]].
  rewrite length_app in Hfu. cbn in Hfu. apply IH; [done | done | done | lia].
Qed.

Lemma dll_first f L : dll f L → b_next (f bhead) = hd bhead (L ++ [bhead]).
Proof. intros [_ HF]. destruct L; apply Forall2_cons in HF as [[E _] _]; done. Qed.

Lemma dll_last f L : dll f L → b_prev (f bhead) = List.last (bhead :: L) bhead.
Proof. intros [_ HF]. apply linked_last in HF as [_ [_ E]]. done. Qed.

Lemma dll_forward f L : dll f L → Forall2 (linked f) L (drop 1 (L ++ [bhead])).
Proof. intros [_ HF]. destruct L; apply Forall2_cons in HF as [_ HF]; done. Qed.

(** A chain with a buffer in the middle. *)
Lemma dll_split f L1 b L2 :
  dll f (L1 ++ b :: L2) →
  let x := List.last (bhead :: L1) bhead in
  ∃ y D, L2 ++ [bhead] = y :: D ∧ b_prev (f b) = x ∧ b_next (f b) = y ∧
    Forall2 (linked f) (removelast (bhead :: L1)) L1 ∧ Forall2 (linked f) L2 D.
Proof.
  intros [_ HF] x. rewrite app_comm_cons in HF. rewrite <- app_assoc in HF. cbn in HF.
  destruct (L2 ++ [bhead]) as [|y D] eqn:E; [by destruct L2|]. exists y, D.
  change (b :: y :: D) with ([b] ++ y :: D) in HF. rewrite app_assoc in HF.
  change (bhead :: L1 ++ b :: L2) with ((bhead :: L1) ++ b :: L2) in HF.
  apply Forall2_app_inv in HF as [H1 H2].
  - apply linked_last in H1 as [H1 [_ Ep]]. apply Forall2_cons in H2 as [[En _] H2]. done.
  - rewrite length_app. cbn. lia.
Qed.

(** Unlinking a buffer. *)
Lemma dll_unlink f L1 b L2 :
  dll f (L1 ++ b :: L2) →
  let x := b_prev (f b) in let y := b_next (f b) in
  let g := <[y := set_prev x (f y)]> f in
  dll (<[x := set_next y (g x)]> g) (L1 ++ L2).
Proof.
  intros Hdll. pose proof (dll_targets _ _ Hdll) as Ht. pose proof Hdll as [Hd _].
  destruct (dll_split _ _ _ _ Hdll) as (y' & D & E & Ex & Ey & HA & HD).
  rewrite Ex, Ey. clear Ex Ey. intros x y g.
  rewrite <- app_assoc in Ht. cbn in Ht. rewrite E in Ht.
  assert (Es : bhead :: L1 = removelast (bhead :: L1) ++ [x]) by (by apply app_removelast_last).
  set (A := removelast (bhead :: L1)) in *.
  assert (Hnext : ∀ a, a ≠ x → b_next ((<[x := set_next y (g x)]> g) a) = b_next (f a)).
  { intros a Ha. rewrite fn_lookup_insert_ne by done. unfold g.
    destruct (decide (a = y)) as [->|]; [by rewrite fn_lookup_insert | by rewrite fn_lookup_insert_ne]. }
  assert (Hprev : ∀ a, b_prev ((<[x := set_next y (g x)]> g) a) = b_prev (g a)).
  { intros a. destruct (decide (a = x)) as [->|]; [by rewrite fn_lookup_insert | by rewrite fn_lookup_insert_ne]. }
  assert (Hgp : ∀ a, a ≠ y → b_prev (g a) = b_prev (f a)).
  { intros a Ha. unfold g. by rewrite fn_lookup_insert_ne. }
  change (NoDup ((bhead :: L1) ++ b :: L2)) in Hd. rewrite Es, <- app_assoc in Hd. cbn in Hd.
  apply NoDup_app in Hd as (_ & HdA & Hdx). apply NoDup_cons in Hdx as [Hdx _].
  apply NoDup_app in Ht as (_ & HtL & Htb). apply NoDup_cons in Htb as [_ Hty].
  apply NoDup_cons in Hty as [Hty _]. split.
  - destruct Hdll as [Hd _]. change (NoDup ((bhead :: L1) ++ b :: L2)) in Hd.
    rewrite <- Permutation_middle in Hd. by apply NoDup_cons in Hd as [_ Hd].
  - change (bhead :: L1 ++ L2) with ((bhead :: L1) ++ L2). rewrite Es, <- !app_assoc, E. cbn.
    apply Forall2_app; [|constructor].
    + eapply linked_ext; [| |exact HA]; intros a Ha.
      * apply Hnext. intros ->. apply (HdA x Ha). constructor.
      * rewrite Hprev. apply Hgp. intros ->. apply (HtL y Ha). by do 2 constructor.
    + split; [by rewrite fn_lookup_insert|]. rewrite Hprev. unfold g. by rewrite fn_lookup_insert.
    + eapply linked_ext; [| |exact HD]; intros a Ha.
      * apply Hnext. intros ->. apply Hdx. by constructor.
      * rewrite Hprev. apply Hgp. by intros ->.
Qed.

(** Linking a buffer in at the front. *)
Lemma dll_link f L b :
  dll f L → b ≠ bhead → (b ∉ L) →
  let h := b_next (f bhead) in
  let g := <[b := set_prev bhead (set_next h (f b))]> f in
  let g' := <[h := set_prev b (g h)]> g in
  dll (<[bhead := set_next b (g' bhead)]> g') (b :: L).
Proof.
  intros Hdll Hb HbL h g g'. pose proof (dll_targets _ _ Hdll) as Ht. destruct Hdll as [Hd HF].
  destruct (L ++ [bhead]) as [|h' D] eqn:E; [by destruct L|].
  apply Forall2_cons in HF as [[Eh Ep] HF]. fold h in Eh. subst h'.
  assert (Hbh : b ≠ h).
  { intros ->. assert (Hin : h ∈ L ++ [bhead]) by (rewrite E; constructor).
    rewrite elem_of_app, list_elem_of_singleton in Hin. by destruct Hin. }
  split.
  { apply NoDup_cons in Hd as [Hd1 Hd2]. apply NoDup_cons.
    split; [by rewrite not_elem_of_cons | by apply NoDup_cons]. }
  cbn [app]. rewrite E. set (g'' := <[bhead := _]> g').
  assert (Hn : ∀ a, a ≠ bhead → a ≠ b → b_next (g'' a) = b_next (f a)).
  { intros a H1 H2. unfold g'', g', g. rewrite fn_lookup_insert_ne by done.
    destruct (decide (a = h)) as [->|]; [rewrite fn_lookup_insert; cbn|rewrite fn_lookup_insert_ne by done];
      by rewrite fn_lookup_insert_ne. }
  assert (Hp : ∀ a, b_prev (g'' a) = b_prev (g' a)).
  { intros a. unfold g''. destruct (decide (a = bhead)) as [->|]; [by rewrite fn_lookup_insert | by rewrite fn_lookup_insert_ne]. }
  apply NoDup_cons in Ht as [Hth Ht]. apply NoDup_cons in Hd as [Hd _].
  constructor; [|constructor].
  - split; [unfold g''; by rewrite fn_lookup_insert|]. rewrite Hp. unfold g', g.
    by rewrite fn_lookup_insert_ne, fn_lookup_insert by done.
  - split; [|rewrite Hp; unfold g'; by rewrite fn_lookup_insert].
    unfold g'', g', g. by rewrite !fn_lookup_insert_ne, fn_lookup_insert by done.
  - eapply linked_ext; [| |exact HF]; intros a Ha.
    + apply Hn; intros ->; done.
    + rewrite Hp. unfold g', g. rewrite !fn_lookup_insert_ne; [done | |by intros ->].
      intros Eab. assert (Hin : a ∈ L ++ [bhead]) by (rewrite E; by constructor).
      rewrite elem_of_app, list_elem_of_singleton in Hin. destruct Hin; congruence.
Qed.

(** ** Contents *)

Definition is_block (d n : Z) (x : buf) : bool := (b_dev x =? d) && (b_blockno x =? n).

(** The buffer that caches block [n] of device [d]. *)
Definition cached (s : bcache) (d n : Z) : option nat :=
  List.find (λ b, is_block d n (bufs s b)) (seq 0 (Z.to_nat NBUF)).

(** What the file system sees of a block: its cached copy, else the disk's. *)
Definition cur (s : bcache) (d n : Z) : block :=
  match cached s d n with
  | Some b => if b_valid (bufs s b) then b_data (bufs s b) else disk s d n
  | None => disk s d n
  end.

(** [L] lists the buffers, most recently used first.  No block is cached twice (device
    0 marks buffers never used); unreferenced buffers are unlocked. *)
Record binv (s : bcache) (L : list nat) : Prop := {
  bi_dll : dll (bufs s) L;
  bi_perm : L ≡ₚ seq 0 (Z.to_nat NBUF);
  bi_uniq a b d n : a ∈ L → b ∈ L → d ≠ 0 →
    is_block d n (bufs s a) = true → is_block d n (bufs s b) = true → a = b;
  bi_ref b : b ∈ L → 0 ≤ b_refcnt (bufs s b) < 2 ^ 32;
  bi_lock b : b ∈ L → b_refcnt (bufs s b) = 0 → b_lock (bufs s b) = None;
}.

(** Modified buffers are referenced, so that they are not recycled. *)
Definition dirty_pinned (s : bcache) : Prop :=
  ∀ b d n, cached s d n = Some b → d ≠ 0 → b_refcnt (bufs s b) = 0 →
    b_valid (bufs s b) = true → b_data (bufs s b) = disk s d n.

Lemma find_some_iff {A} (f : A → bool) l x :
  (∀ a b, a ∈ l → b ∈ l → f a = true → f b = true → a = b) →
  List.find f l = Some x ↔ x ∈ l ∧ f x = true.
Proof.
  intros Hu. split; [intros [? ?]%find_some; by rewrite list_elem_of_In|]. intros [Hx Hf].
  destruct (List.find f l) as [y|] eqn:E.
  - apply find_some in E as [Hy Hfy]. rewrite <- list_elem_of_In in Hy. f_equal. auto.
  - rewrite list_elem_of_In in Hx. eapply find_none in E; [|done]. congruence.
Qed.

Lemma binv_elem s L b : binv s L → b ∈ L ↔ (b < Z.to_nat NBUF)%nat.
Proof. intros Hi. rewrite (bi_perm _ _ Hi), elem_of_seq. lia. Qed.

Lemma binv_not_head s L b : binv s L → b ∈ L → b ≠ bhead.
Proof. intros Hi Hb ->. apply (binv_elem s L bhead Hi) in Hb. unfold bhead in Hb. lia. Qed.

Lemma cached_iff s L d n b :
  binv s L → d ≠ 0 → cached s d n = Some b ↔ b ∈ L ∧ is_block d n (bufs s b) = true.
Proof.
  intros Hi Hd. unfold cached. rewrite find_some_iff.
  - by rewrite (bi_perm _ _ Hi).
  - intros a b'. rewrite <- (bi_perm _ _ Hi). intros. by eapply (bi_uniq _ _ Hi).
Qed.

(** [find_loop] finds the cached buffer. *)
Lemma find_cached s L d n :
  binv s L → d ≠ 0 → List.find (λ b, is_block d n (bufs s b)) L = cached s d n.
Proof.
  intros Hi Hd. destruct (cached s d n) as [b|] eqn:E.
  - apply (cached_iff s L) in E; [|done..]. apply find_some_iff; [|done].
    intros a b' **. by eapply (bi_uniq _ _ Hi).
  - destruct (List.find _ _) as [b|] eqn:E'; [|done]. apply find_some in E' as [Hb Hf].
    rewrite <- list_elem_of_In in Hb. assert (cached s d n = Some b) by (by apply (cached_iff s L)).
    congruence.
Qed.

Lemma dll_ext f g L :
  (∀ a, b_next (g a) = b_next (f a) ∧ b_prev (g a) = b_prev (f a)) → dll f L → dll g L.
Proof. intros He [Hd HF]. split; [done|]. eapply linked_ext; [..|exact HF]; intros; apply He. Qed.

Lemma binv_length s L : binv s L → length L = Z.to_nat NBUF.
Proof. intros Hi. by rewrite (bi_perm _ _ Hi), length_seq. Qed.

Lemma find_loop_run s L d n :
  binv s L → d ≠ 0 →
  find_loop list_fuel (b_next (bufs s bhead)) d n s = Ok (cached s d n, s).
Proof.
  intros Hi Hd. pose proof (bi_dll _ _ Hi) as Hdll. rewrite (dll_first _ _ Hdll).
  rewrite (find_loop_ok _ d n s L).
  - by rewrite <- (find_cached s L).
  - by apply dll_forward.
  - intros Hh. by eapply (binv_not_head s L bhead).
  - done.
  - rewrite (binv_length s L Hi). unfold list_fuel. lia.
Qed.

Lemma recycle_loop_run s L :
  binv s L →
  recycle_loop list_fuel (b_prev (bufs s bhead)) s =
    Ok (List.find (λ b, b_refcnt (bufs s b) =? 0) (rev L), s).
Proof.
  intros Hi. pose proof (bi_dll _ _ Hi) as Hdll. rewrite (dll_last _ _ Hdll).
  apply recycle_loop_ok; [| |done|].
  - destruct Hdll as [_ HF]. by apply linked_last in HF as [HF _].
  - intros Hh. by eapply (binv_not_head s L bhead).
  - rewrite (binv_length s L Hi). unfold list_fuel. lia.
Qed.

(** ** Changing one buffer *)

(** Only buffer [b] changed, to [x]. *)
Record changes (s s' : bcache) (b : nat) (x : buf) : Prop := {
  c_at : bufs s' b = x;
  c_other a : a ≠ b → bufs s' a = bufs s a;
  c_disk : disk s' = disk s;
  c_writes : writes s' = writes s;
}.

Lemma changes_upd s b f :
  ∃ s', upd b f s = Ok (tt, s') ∧ changes s s' b (f (bufs s b)).
Proof.
  eexists. split; [reflexivity|]. split; cbn; [apply fn_lookup_insert | | done | done].
  intros a Ha. by rewrite fn_lookup_insert_ne.
Qed.

Lemma changes_trans s s' s'' b x y : changes s s' b x → changes s' s'' b y → changes s s'' b y.
Proof.
  intros [H1 H2 H3 H4] [H5 H6 H7 H8]. split; [done | | congruence..].
  intros a Ha. by rewrite H6, H2.
Qed.

Lemma binv_changes s s' L b x :
  binv s L → changes s s' b x → b ∈ L →
  b_next x = b_next (bufs s b) → b_prev x = b_prev (bufs s b) →
  0 ≤ b_refcnt x < 2 ^ 32 → (b_refcnt x = 0 → b_lock x = None) →
  (∀ d n, d ≠ 0 → is_block d n x = true →
     is_block d n (bufs s b) = true ∨ cached s d n = None) →
  binv s' L.
Proof.
  intros Hi [Hat Hot _ _] Hb Hn Hp Hr Hl Hid. pose proof Hi as [Hdll Hperm Hu Href Hlk].
  assert (Hc : ∀ a d n, a ∈ L → a ≠ b → d ≠ 0 → is_block d n x = true →
    is_block d n (bufs s a) = true → False).
  { intros a d n Ha Hab Hd Hx Hba. destruct (Hid d n Hd Hx) as [Hbb|Hno].
    - apply Hab. by eapply Hu.
    - assert (cached s d n = Some a) by (by apply (cached_iff s L)). congruence. }
  split; [| done | | |].
  - eapply dll_ext; [|exact Hdll]. intros a.
    destruct (decide (a = b)) as [->|]; [by rewrite Hat | by rewrite Hot].
  - intros a a' d n Ha Ha' Hd Hba Hba'.
    destruct (decide (a = b)) as [->|Hab], (decide (a' = b)) as [->|Hab']; [done | | |];
      rewrite ?Hat, ?Hot in * by done.
    + exfalso. by eapply (Hc a').
    + exfalso. by eapply (Hc a).
    + by eapply Hu.
  - intros a Ha. destruct (decide (a = b)) as [->|]; [by rewrite Hat | rewrite Hot by done; auto].
  - intros a Ha. destruct (decide (a = b)) as [->|]; [by rewrite Hat | rewrite Hot by done; auto].
Qed.

(** The contents after such a change. *)
Lemma cur_changes s s' L b x d n :
  binv s L → binv s' L → changes s s' b x → b ∈ L → d ≠ 0 →
  cur s' d n =
    if is_block d n x then (if b_valid x then b_data x else disk s d n)
    else if is_block d n (bufs s b) then disk s d n else cur s d n.
Proof.
  intros Hi Hi' [Hat Hot Hdk _] Hb Hd. unfold cur. rewrite Hdk.
  destruct (is_block d n x) eqn:Ex.
  { assert (cached s' d n = Some b) as -> by (apply (cached_iff s' L); rewrite ?Hat; done).
    by rewrite Hat. }
  assert (Hiff : ∀ a, cached s' d n = Some a ↔ a ≠ b ∧ cached s d n = Some a).
  { intros a. rewrite (cached_iff s' L), (cached_iff s L) by done. destruct (decide (a = b)) as [->|].
    - rewrite Hat, Ex. intuition congruence.
    - rewrite Hot by done. tauto. }
  destruct (is_block d n (bufs s b)) eqn:Eb.
  - assert (Hcb : cached s d n = Some b) by (by apply (cached_iff s L)).
    destruct (cached s' d n) as [a|]; [|done]. destruct (proj1 (Hiff a) eq_refl). congruence.
  - assert (Hcb : cached s d n ≠ Some b).
    { intros Hc. apply (cached_iff s L) in Hc as [_ Hc]; [congruence | done..]. }
    destruct (cached s d n) as [a|] eqn:E.
    + assert (a ≠ b) by congruence.
      assert (cached s' d n = Some a) as -> by (by apply Hiff). by rewrite Hot.
    + destruct (cached s' d n) as [a|]; [|done]. destruct (proj1 (Hiff a) eq_refl). congruence.
Qed.

(** ** bget and bread *)

Lemma bind_rd {A C} b (f : buf → A) (k : A → BM C) s : (rd b f ≫= k) s = k (f (bufs s b)) s.
Proof. done. Qed.

(** Run the next update of the goal. *)
Ltac run_upd s1 Hc :=
  match goal with
  | |- context [(upd ?b ?f ≫= _) ?s] =>
      let H := fresh in destruct (changes_upd s b f) as (s1 & H & Hc); run H; clear H
  end.

Lemma acquiresleep_free me s b :
  b_lock (bufs s b) = None →
  ∃ s', acquiresleep me b s = Ok (tt, s') ∧ changes s s' b (set_lock (Some me) (bufs s b)).
Proof.
  intros Hl. unfold acquiresleep. rewrite bind_rd, Hl. apply changes_upd.
Qed.

(** The block is cached: its buffer gains a reference. *)
Lemma bget_hit me s L d n b :
  binv s L → d ≠ 0 → cached s d n = Some b → b_lock (bufs s b) = None →
  ∃ s', bget me d n s = Ok (b, s') ∧
    changes s s' b (set_lock (Some me) (set_refcnt (u32 (b_refcnt (bufs s b) + 1)) (bufs s b))).
Proof.
  intros Hi Hd Hc Hl. unfold bget. rewrite bind_rd, (bind_ok _ _ _ _ _ (find_loop_run s L d n Hi Hd)), Hc.
  rewrite bind_rd. run_upd s1 Hc1.
  destruct (acquiresleep_free me s1 b) as (s2 & Hrun & Hc2); [by rewrite (c_at _ _ _ _ Hc1)|].
  run Hrun. exists s2. split; [done|]. rewrite (c_at _ _ _ _ Hc1) in Hc2. by eapply changes_trans.
Qed.

Lemma bget_sleeps me s L d n b :
  binv s L → d ≠ 0 → cached s d n = Some b → b_lock (bufs s b) ≠ None → bget me d n s = Sleeps.
Proof.
  intros Hi Hd Hc Hl. unfold bget. rewrite bind_rd, (bind_ok _ _ _ _ _ (find_loop_run s L d n Hi Hd)), Hc.
  rewrite bind_rd. run_upd s1 Hc1. unfold acquiresleep. rewrite bind_assoc, bind_rd, (c_at _ _ _ _ Hc1).
  cbn. by destruct (b_lock _).
Qed.

(** The block is not cached: the least recently used unreferenced buffer is recycled. *)
Lemma bget_miss me s L d n b :
  binv s L → d ≠ 0 → cached s d n = None →
  List.find (λ b, b_refcnt (bufs s b) =? 0) (rev L) = Some b →
  ∃ s', bget me d n s = Ok (b, s') ∧ changes s s' b (set_lock (Some me) (set_id d n (bufs s b))).
Proof.
  intros Hi Hd Hc Hf. unfold bget. rewrite bind_rd, (bind_ok _ _ _ _ _ (find_loop_run s L d n Hi Hd)), Hc.
  rewrite bind_rd, (bind_ok _ _ _ _ _ (recycle_loop_run s L Hi)), Hf.
  apply find_some in Hf as [Hb Hr]. rewrite <- in_rev, <- list_elem_of_In in Hb.
  run_upd s1 Hc1.
  destruct (acquiresleep_free me s1 b) as (s2 & Hrun & Hc2).
  { rewrite (c_at _ _ _ _ Hc1). cbn. apply (bi_lock _ _ Hi); [done | lia]. }
  run Hrun. exists s2. split; [done|]. rewrite (c_at _ _ _ _ Hc1) in Hc2. by eapply changes_trans.
Qed.

Lemma bget_full me s L d n :
  binv s L → d ≠ 0 → cached s d n = None → (∀ b, b ∈ L → b_refcnt (bufs s b) ≠ 0) →
  bget me d n s = Panic "bget: no buffers".
Proof.
  intros Hi Hd Hc Hf. unfold bget. rewrite bind_rd, (bind_ok _ _ _ _ _ (find_loop_run s L d n Hi Hd)), Hc.
  rewrite bind_rd, (bind_ok _ _ _ _ _ (recycle_loop_run s L Hi)).
  destruct (List.find _ _) as [b|] eqn:E; [|done]. apply find_some in E as [Hb Hr].
  rewrite <- in_rev, <- list_elem_of_In in Hb. apply Hf in Hb. lia.
Qed.

(** [bread] after [bget]: the buffer holds the block's contents. *)
Lemma bread_from_bget me s s1 d n b x :
  bget me d n s = Ok (b, s1) → changes s s1 b x →
  ∃ s', bread me d n s = Ok (b, s') ∧
    changes s s' b (if b_valid x then x
                    else set_valid true (set_data (disk s (b_dev x) (b_blockno x)) x)).
Proof.
  intros Hg Hc. unfold bread. run Hg. rewrite bind_rd, (c_at _ _ _ _ Hc).
  destruct (b_valid x) eqn:Hv; cbn [negb]; [by exists s1|].
  unfold virtio_disk_rw. rewrite !bind_assoc, bind_rd, bind_assoc, bind_gets. cbn [id].
  rewrite (c_at _ _ _ _ Hc), (c_disk _ _ _ _ Hc).
  run_upd s2 Hc2. run_upd s3 Hc3. exists s3. split; [done|].
  rewrite (c_at _ _ _ _ Hc2), (c_at _ _ _ _ Hc) in Hc3.
  eapply changes_trans; [|exact Hc3]. by eapply changes_trans.
Qed.

(** What a successful [bread] leaves: the locked buffer with the block's contents; the
    contents of all blocks, the disk and the other buffers are unchanged. *)
Record read_ok (me : Z) (s : bcache) (L : list nat) (d n : Z) (b : nat) (s' : bcache) : Prop := {
  ro_inv : binv s' L;
  ro_elem : b ∈ L;
  ro_block : is_block d n (bufs s' b) = true;
  ro_valid : b_valid (bufs s' b) = true;
  ro_lock : b_lock (bufs s' b) = Some me;
  ro_data : b_data (bufs s' b) = cur s d n;
  ro_refcnt : b_refcnt (bufs s' b) =
    (if cached s d n is Some _ then b_refcnt (bufs s b) else 0) + 1;
  ro_cur d' n' : d' ≠ 0 → cur s' d' n' = cur s d' n';
  ro_other a : a ≠ b → bufs s' a = bufs s a;
  ro_disk : disk s' = disk s;
  ro_writes : writes s' = writes s;
}.

Lemma is_block_eq d n x : is_block d n x = true → b_dev x = d ∧ b_blockno x = n.
Proof. unfold is_block. lia. Qed.

Lemma is_block_same d n x : b_dev x = d → b_blockno x = n → is_block d n x = true.
Proof. unfold is_block. lia. Qed.

Lemma bread_hit me s L d n b :
  binv s L → d ≠ 0 → cached s d n = Some b → b_lock (bufs s b) = None →
  b_refcnt (bufs s b) + 1 < 2 ^ 32 →
  ∃ s', bread me d n s = Ok (b, s') ∧ read_ok me s L d n b s'.
Proof.
  intros Hi Hd Hc Hl Hr. destruct (bget_hit me s L d n b Hi Hd Hc Hl) as (s1 & Hg & Hc1).
  destruct (bread_from_bget _ _ _ _ _ _ _ Hg Hc1) as (s' & Hrun & Hc2).
  pose proof Hc as Hb. apply (cached_iff s L) in Hb as [Hb Hbk]; [|done..].
  pose proof (bi_ref _ _ Hi b Hb) as Hrc. destruct (is_block_eq _ _ _ Hbk) as [Ed En].
  cbn in Hc2. rewrite Ed, En in Hc2. set (x := bufs s b) in *.
  rewrite u32_small in Hc2 by lia. set (y := if b_valid x then _ else _) in Hc2.
  assert (Hy : b_next y = b_next x ∧ b_prev y = b_prev x ∧ b_refcnt y = b_refcnt x + 1 ∧
    b_lock y = Some me ∧ b_valid y = true ∧ b_dev y = d ∧ b_blockno y = n ∧
    b_data y = if b_valid x then b_data x else disk s d n).
  { unfold y. destruct (b_valid x) eqn:Ev; cbn; rewrite ?Ev; done. }
  destruct Hy as (Y1 & Y2 & Y3 & Y4 & Y5 & Y6 & Y7 & Y8). clearbody y.
  assert (Hblk : ∀ d' n', is_block d' n' y = is_block d' n' x).
  { intros. unfold is_block. by rewrite Y6, Y7, Ed, En. }
  assert (Hi' : binv s' L).
  { apply (binv_changes s s' L b y); try done; try lia. intros d' n' _. rewrite Hblk. by left. }
  exists s'. split; [done|]. pose proof (c_at _ _ _ _ Hc2) as Hat.
  split; rewrite ?Hat, ?Hc; try done; try apply Hc2.
  - by apply is_block_same.
  - rewrite Y8. unfold cur. rewrite Hc. done.
  - intros d' n' Hd'. rewrite (cur_changes s s' L b y d' n') by done. rewrite Hblk.
    fold x. destruct (is_block d' n' x) eqn:E; [|done]. rewrite Y5, Y8. destruct (is_block_eq _ _ _ E).
    unfold cur. rewrite (proj2 (cached_iff s L d' n' b Hi Hd')) by done. fold x.
    destruct (b_valid x); [done | congruence].
Qed.

Lemma bread_miss me s L d n b :
  binv s L → dirty_pinned s → d ≠ 0 → cached s d n = None →
  List.find (λ b, b_refcnt (bufs s b) =? 0) (rev L) = Some b →
  ∃ s', bread me d n s = Ok (b, s') ∧ read_ok me s L d n b s'.
Proof.
  intros Hi Hdp Hd Hc Hf. destruct (bget_miss me s L d n b Hi Hd Hc Hf) as (s1 & Hg & Hc1).
  destruct (bread_from_bget _ _ _ _ _ _ _ Hg Hc1) as (s' & Hrun & Hc2). cbn in Hc2.
  apply find_some in Hf as [Hb Hr]. rewrite <- in_rev, <- list_elem_of_In in Hb.
  apply Z.eqb_eq in Hr. pose proof (c_at _ _ _ _ Hc2) as Hat.
  assert (Hblk : ∀ d' n' x, is_block d' n' (set_valid true (set_data x (set_lock (Some me)
     (set_id d n (bufs s b))))) = bool_decide (d' = d ∧ n' = n)).
  { intros. unfold is_block. cbn. destruct (bool_decide _) eqn:E;
      [apply bool_decide_eq_true in E | apply bool_decide_eq_false in E]; lia. }
  assert (Hi' : binv s' L).
  { apply (binv_changes s s' L b _ Hi Hc2); cbn; try done.
    intros d' n' Hd' Hx. rewrite Hblk, bool_decide_eq_true in Hx. destruct Hx as [-> ->]. by right. }
  exists s'. split; [done|]. split; rewrite ?Hat, ?Hc; cbn; try done; try apply Hc2.
  - by apply is_block_same.
  - unfold cur. by rewrite Hc.
  - intros d' n' Hd'. rewrite (cur_changes s s' L b _ d' n' Hi Hi' Hc2) by done. rewrite Hblk.
    destruct (bool_decide _) eqn:E.
    + apply bool_decide_eq_true in E as [-> ->]. cbn. unfold cur. by rewrite Hc.
    + destruct (is_block d' n' (bufs s b)) eqn:Eb; [|done].
      assert (Hcb : cached s d' n' = Some b) by (by apply (cached_iff s L)).
      unfold cur. rewrite Hcb. destruct (b_valid (bufs s b)) eqn:Ev; [|done].
      symmetry. by eapply Hdp.
Qed.

(** ** brelse *)

(** A buffer without its links. *)
Definition body (x : buf) : bool * Z * Z * option Z * Z * block :=
  (b_valid x, b_dev x, b_blockno x, b_lock x, b_refcnt x, b_data x).

(** Only links changed. *)
Definition relinked (s s' : bcache) : Prop :=
  (∀ a, body (bufs s' a) = body (bufs s a)) ∧ disk s' = disk s ∧ writes s' = writes s.

Lemma relinked_trans s s' s'' : relinked s s' → relinked s' s'' → relinked s s''.
Proof.
  intros (H1 & H2 & H3) (H4 & H5 & H6). split_and!; [|congruence..]. intros a. by rewrite H4.
Qed.

Lemma changes_relinked s s' b x :
  changes s s' b x → body x = body (bufs s b) → relinked s s'.
Proof.
  intros [H1 H2 H3 H4] Hb. split_and!; [|done..]. intros a.
  destruct (decide (a = b)) as [->|]; [by rewrite H1 | by rewrite H2].
Qed.

Lemma relinked_binv s s' L L' :
  binv s L → relinked s s' → dll (bufs s') L' → L' ≡ₚ L → binv s' L'.
Proof.
  intros [_ Hp Hu Hr Hl] (Hb & _ & _) Hd HL.
  assert (Hf : ∀ a, b_dev (bufs s' a) = b_dev (bufs s a) ∧ b_blockno (bufs s' a) = b_blockno (bufs s a) ∧
    b_refcnt (bufs s' a) = b_refcnt (bufs s a) ∧ b_lock (bufs s' a) = b_lock (bufs s a)).
  { intros a. specialize (Hb a). unfold body in Hb. by injection Hb. }
  split; [done | by rewrite HL | | |].
  - intros a b d n. rewrite !HL. unfold is_block in *. destruct (Hf a) as (-> & -> & _), (Hf b) as (-> & -> & _).
    apply Hu.
  - intros b. rewrite HL. destruct (Hf b) as (_ & _ & -> & _). apply Hr.
  - intros b. rewrite HL. destruct (Hf b) as (_ & _ & -> & ->). apply Hl.
Qed.

Lemma find_ext {A} (f g : A → bool) l : (∀ a, f a = g a) → List.find f l = List.find g l.
Proof. intros E. induction l as [|a l IH]; [done|]. cbn. by rewrite E, IH. Qed.

Lemma relinked_cached s s' d n : relinked s s' → cached s' d n = cached s d n.
Proof.
  intros (Hb & _ & _). apply find_ext. intros a. specialize (Hb a). unfold body in Hb.
  injection Hb as _ E1 E2 _ _ _. unfold is_block. by rewrite E1, E2.
Qed.

Lemma relinked_cur s s' d n : relinked s s' → cur s' d n = cur s d n.
Proof.
  intros Hr. unfold cur. rewrite (relinked_cached s s') by done. destruct Hr as (Hb & -> & _).
  destruct (cached s d n) as [b|]; [|done]. specialize (Hb b). unfold body in Hb.
  injection Hb as E1 _ _ _ _ E2. by rewrite E1, E2.
Qed.

Lemma changes_bufs s s' b f :
  changes s s' b (f (bufs s b)) → ∀ a, bufs s' a = (<[b := f (bufs s b)]> (bufs s)) a.
Proof.
  intros [H1 H2 _ _] a. destruct (decide (a = b)) as [->|].
  - by rewrite fn_lookup_insert.
  - by rewrite fn_lookup_insert_ne, H2.
Qed.

Lemma link_front_ok s L b :
  dll (bufs s) L → b ≠ bhead → (b ∉ L) →
  ∃ s', link_front b s = Ok (tt, s') ∧ dll (bufs s') (b :: L) ∧ relinked s s'.
Proof.
  intros Hd Hb HL. unfold link_front. rewrite bind_rd. set (h := b_next (bufs s bhead)).
  run_upd s1 H1. run_upd s2 H2. rewrite bind_rd.
  rewrite (c_at _ _ _ _ H1) in H2. pose proof (changes_trans _ _ _ _ _ _ H1 H2) as H12.
  rewrite (c_other _ _ _ _ H12 bhead) by done. fold h.
  run_upd s3 H3. destruct (changes_upd s3 bhead (set_next b)) as (s4 & Hrun & H4).
  exists s4. split; [done|]. split.
  - eapply dll_ext; [|apply (dll_link (bufs s) L b Hd Hb HL)]. cbv zeta. fold h. intros a.
    rewrite (changes_bufs _ _ _ _ H4). destruct (decide (a = bhead)) as [->|Ha].
    + rewrite !fn_lookup_insert. cbn. rewrite (changes_bufs _ _ _ _ H3).
      destruct (decide (bhead = h)) as [<-|]; [rewrite !fn_lookup_insert|rewrite !fn_lookup_insert_ne by done];
        cbn; rewrite ?(c_other _ _ _ _ H12 bhead), ?fn_lookup_insert_ne by done; done.
    + rewrite !(fn_lookup_insert_ne _ bhead) by done. rewrite (changes_bufs _ _ _ _ H3).
      destruct (decide (a = h)) as [->|Hah].
      * rewrite !fn_lookup_insert. cbn. destruct (decide (h = b)) as [->|].
        -- rewrite (c_at _ _ _ _ H12), fn_lookup_insert. done.
        -- rewrite (c_other _ _ _ _ H12), fn_lookup_insert_ne by done. done.
      * rewrite !(fn_lookup_insert_ne _ h) by done. destruct (decide (a = b)) as [->|].
        -- rewrite (c_at _ _ _ _ H12), fn_lookup_insert. done.
        -- rewrite (c_other _ _ _ _ H12), fn_lookup_insert_ne by done. done.
  - eapply relinked_trans; [by eapply changes_relinked|].
    eapply relinked_trans; [by eapply changes_relinked; [exact H3|]|].
    by eapply changes_relinked; [exact H4|].
Qed.

Lemma unlink_ok s L1 b L2 :
  dll (bufs s) (L1 ++ b :: L2) →
  ∃ s', unlink b s = Ok (tt, s') ∧ dll (bufs s') (L1 ++ L2) ∧ relinked s s'.
Proof.
  intros Hd. unfold unlink. rewrite bind_rd. cbn [id]. run_upd s1 H1. rewrite bind_rd. cbn [id].
  assert (Hyb : b_next (bufs s b) ≠ b).
  { destruct (dll_split _ _ _ _ Hd) as (y & D & E & _ & -> & _). intros ->.
    pose proof (dll_targets _ _ Hd) as Ht. rewrite <- app_assoc in Ht. cbn in Ht. rewrite E in Ht.
    apply NoDup_app in Ht as (_ & _ & Ht). apply NoDup_cons in Ht as [Ht _]. apply Ht. constructor. }
  rewrite (c_other _ _ _ _ H1 b) by done.
  destruct (changes_upd s1 (b_prev (bufs s b)) (set_next (b_next (bufs s b)))) as (s2 & Hrun & H2).
  exists s2. split; [done|]. split.
  - eapply dll_ext; [|apply (dll_unlink _ _ _ _ Hd)]. cbv zeta. intros a.
    rewrite (changes_bufs _ _ _ _ H2). destruct (decide (a = b_prev (bufs s b))) as [->|].
    + rewrite !fn_lookup_insert. cbn. by rewrite (changes_bufs _ _ _ _ H1).
    + rewrite !(fn_lookup_insert_ne _ (b_prev _)) by done. by rewrite (changes_bufs _ _ _ _ H1).
  - eapply relinked_trans; eapply changes_relinked; [exact H1 | done | exact H2 | done].
Qed.

(** The LRU list after a release that drops the last reference. *)
Definition mru (b : nat) (L : list nat) : list nat := b :: filter (λ a, a ≠ b) L.

Lemma filter_ne (b : nat) (l : list nat) : (b ∉ l) → filter (λ a, a ≠ b) l = l.
Proof.
  induction l as [|a l IH]; [done|]. rewrite not_elem_of_cons. intros [Hne Hl].
  rewrite filter_cons_True by done. by rewrite IH.
Qed.

Lemma mru_split L1 b L2 : NoDup (L1 ++ b :: L2) → mru b (L1 ++ b :: L2) = b :: L1 ++ L2.
Proof.
  intros Hd. unfold mru. f_equal. rewrite filter_app, filter_cons_False by (intros Hn; by apply Hn).
  rewrite <- Permutation_middle in Hd. apply NoDup_cons in Hd as [Hd _]. rewrite not_elem_of_app in Hd.
  rewrite !filter_ne by tauto. done.
Qed.

(** What [brelse] leaves: the buffer unlocked, one reference less, and moved to the
    front of the list when that was the last; contents unchanged. *)
Record release_ok (s : bcache) (L : list nat) (b : nat) (s' : bcache) (L' : list nat) : Prop := {
  rl_inv : binv s' L';
  rl_list : L' = if b_refcnt (bufs s b) =? 1 then mru b L else L;
  rl_body : body (bufs s' b) =
    body (set_refcnt (b_refcnt (bufs s b) - 1) (set_lock None (bufs s b)));
  rl_other a : a ≠ b → body (bufs s' a) = body (bufs s a);
  rl_cur d n : d ≠ 0 → cur s' d n = cur s d n;
  rl_disk : disk s' = disk s;
  rl_writes : writes s' = writes s;
}.

Lemma brelse_ok me s L b :
  binv s L → b ∈ L → b_lock (bufs s b) = Some me →
  ∃ s', brelse me b s = Ok (tt, s') ∧
    release_ok s L b s' (if b_refcnt (bufs s b) =? 1 then mru b L else L).
Proof.
  intros Hi Hb Hl. unfold brelse, holdingsleep. rewrite bind_assoc, bind_rd, Hl.
  rewrite bind_ret, bool_decide_true by done. cbn [negb]. unfold releasesleep.
  pose proof (bi_ref _ _ Hi b Hb) as Hr.
  assert (Hr0 : b_refcnt (bufs s b) ≠ 0) by (intros E; rewrite (bi_lock _ _ Hi) in Hl; done).
  run_upd s1 H1. rewrite bind_rd, (c_at _ _ _ _ H1). cbn [b_refcnt set_lock].
  rewrite u32_small by lia. run_upd s2 H2. rewrite (c_at _ _ _ _ H1) in H2.
  rewrite bind_rd, (c_at _ _ _ _ H2). cbn [b_refcnt set_refcnt].
  pose proof (changes_trans _ _ _ _ _ _ H1 H2) as H12.
  assert (Hblk : ∀ d n, is_block d n (set_refcnt (b_refcnt (bufs s b) - 1) (set_lock None (bufs s b))) =
    is_block d n (bufs s b)) by done.
  assert (Hi2 : binv s2 L).
  { apply (binv_changes s s2 L b _ Hi H12); cbn; try done; [lia|]. intros d n _ Hx. left. by rewrite <- Hblk. }
  assert (Hcur : ∀ d n, d ≠ 0 → cur s2 d n = cur s d n).
  { intros d n Hd. rewrite (cur_changes s s2 L b _ d n Hi Hi2 H12) by done. rewrite Hblk.
    destruct (is_block d n (bufs s b)) eqn:E; [|done]. unfold cur.
    by rewrite (proj2 (cached_iff s L d n b Hi Hd)). }
  destruct (Z.eqb_spec (b_refcnt (bufs s b) - 1) 0), (Z.eqb_spec (b_refcnt (bufs s b)) 1); try lia.
  - apply list_elem_of_split in Hb as (L1 & L2 & ->).
    destruct (unlink_ok s2 L1 b L2 (bi_dll _ _ Hi2)) as (s3 & Hu & Hd3 & Hr3). run Hu.
    pose proof (bi_dll _ _ Hi2) as [Hd _]. apply NoDup_cons in Hd as [Hdh Hd].
    assert (Hbb : b ≠ bhead) by (intros ->; apply Hdh; rewrite elem_of_app; right; constructor).
    destruct (link_front_ok s3 (L1 ++ L2) b Hd3 Hbb) as (s4 & Hlf & Hd4 & Hr4).
    { rewrite <- Permutation_middle in Hd. by apply NoDup_cons in Hd as [? _]. }
    rewrite mru_split by done. pose proof (relinked_trans _ _ _ Hr3 Hr4) as Hr34.
    exists s4. split; [done|]. split.
    + eapply relinked_binv; [exact Hi2 | done | done |]. by rewrite Permutation_middle.
    + rewrite (proj2 (Z.eqb_eq _ _)) by done. by rewrite mru_split.
    + destruct Hr34 as (E & _ & _). by rewrite E, (c_at _ _ _ _ H12).
    + intros a Ha. destruct Hr34 as (E & _ & _). by rewrite E, (c_other _ _ _ _ H12).
    + intros d n' Hd'. rewrite (relinked_cur _ _ _ _ Hr34). by apply Hcur.
    + destruct Hr34 as (_ & -> & _). apply H12.
    + destruct Hr34 as (_ & _ & ->). apply H12.
  - exists s2. split; [done|]. split; try done.
    + by rewrite (proj2 (Z.eqb_neq _ _)).
    + by rewrite (c_at _ _ _ _ H12).
    + intros a Ha. by rewrite (c_other _ _ _ _ H12).
    + apply H12.
    + apply H12.
Qed.

(** ** bwrite, bpin, bunpin *)

(** The disk after block [n] of device [d] was written. *)
Definition disk_set (f : Z → Z → block) (d n : Z) (v : block) : Z → Z → block :=
  λ d' n', if decide (d' = d ∧ n' = n) then v else f d' n'.

Lemma bwrite_ok me s L b :
  binv s L → b ∈ L → b_lock (bufs s b) = Some me → b_valid (bufs s b) = true →
  let x := bufs s b in
  ∃ s', bwrite me b s = Ok (tt, s') ∧ binv s' L ∧ bufs s' = bufs s ∧
    disk s' = disk_set (disk s) (b_dev x) (b_blockno x) (b_data x) ∧
    writes s' = writes s ++ [(b_dev x, b_blockno x, b_data x)] ∧
    (∀ d n, d ≠ 0 → cur s' d n = cur s d n).
Proof.
  intros Hi Hb Hl Hv x. unfold bwrite, holdingsleep. rewrite bind_assoc, bind_rd, Hl.
  rewrite bind_ret, bool_decide_true by done. cbn [negb]. unfold virtio_disk_rw. rewrite bind_rd. cbn [id].
  eexists. split; [reflexivity|]. cbn [bufs disk writes]. destruct Hi as [H1 H2 H3 H4 H5].
  split_and!; [done.. |]. intros d n Hd. unfold cur. cbn [bufs disk].
  assert (Ec : ∀ m w, cached (mkBcache (bufs s) m w) d n = cached s d n) by done. rewrite Ec.
  destruct (cached s d n) as [a|] eqn:Ea.
  - destruct (b_valid (bufs s a)) eqn:Eva; [done|]. rewrite decide_False; [done|]. intros [-> ->].
    assert (a = b); [|congruence].
    assert (Hi : binv s L) by done. apply (cached_iff s L) in Ea as [Ha Hab]; [|done..].
    eapply H3; [done | done | exact Hd | exact Hab |]. by apply is_block_same.
  - rewrite decide_False; [done|]. intros [E1 E2].
    rewrite (proj2 (cached_iff s L d n b (Build_binv _ _ H1 H2 H3 H4 H5) Hd)) in Ea; [done|].
    split; [done | by apply is_block_same].
Qed.

Lemma bpin_ok s L b :
  binv s L → b ∈ L → b_refcnt (bufs s b) + 1 < 2 ^ 32 →
  ∃ s', bpin b s = Ok (tt, s') ∧ binv s' L ∧
    changes s s' b (set_refcnt (b_refcnt (bufs s b) + 1) (bufs s b)) ∧
    (∀ d n, d ≠ 0 → cur s' d n = cur s d n).
Proof.
  intros Hi Hb Hr. pose proof (bi_ref _ _ Hi b Hb). unfold bpin. rewrite bind_rd, u32_small by lia.
  destruct (changes_upd s b (set_refcnt (b_refcnt (bufs s b) + 1))) as (s' & Hrun & Hc).
  exists s'. assert (Hi' : binv s' L).
  { apply (binv_changes s s' L b _ Hi Hc); cbn; try done; try lia. intros d n _ Hx. by left. }
  split_and!; [done..|]. intros d n Hd. rewrite (cur_changes s s' L b _ d n Hi Hi' Hc) by done.
  unfold is_block. cbn. fold (is_block d n (bufs s b)).
  destruct (is_block d n (bufs s b)) eqn:E; [|done]. unfold cur.
  by rewrite (proj2 (cached_iff s L d n b Hi Hd)).
Qed.

Lemma bunpin_ok s L b :
  binv s L → b ∈ L → 1 < b_refcnt (bufs s b) →
  ∃ s', bunpin b s = Ok (tt, s') ∧ binv s' L ∧
    changes s s' b (set_refcnt (b_refcnt (bufs s b) - 1) (bufs s b)) ∧
    (∀ d n, d ≠ 0 → cur s' d n = cur s d n).
Proof.
  intros Hi Hb Hr. pose proof (bi_ref _ _ Hi b Hb). unfold bunpin. rewrite bind_rd, u32_small by lia.
  destruct (changes_upd s b (set_refcnt (b_refcnt (bufs s b) - 1))) as (s' & Hrun & Hc).
  exists s'. assert (Hi' : binv s' L).
  { apply (binv_changes s s' L b _ Hi Hc); cbn; try done; try lia. intros d n _ Hx. by left. }
  split_and!; [done..|]. intros d n Hd. rewrite (cur_changes s s' L b _ d n Hi Hi' Hc) by done.
  unfold is_block. cbn. fold (is_block d n (bufs s b)).
  destruct (is_block d n (bufs s b)) eqn:E; [|done]. unfold cur.
  by rewrite (proj2 (cached_iff s L d n b Hi Hd)).
Qed.

(** ** binit *)

(** Memory before [binit]: the cache is in the zeroed part of the kernel image. *)
Definition bss (dk : Z → Z → block) : bcache :=
  mkBcache (λ _, mkBuf false 0 0 None 0 0 0 ∅) dk [].

Lemma binit_loop_ok n : ∀ b s L,
  dll (bufs s) L → (∀ a, (b ≤ a < b + n)%nat → a ≠ bhead ∧ a ∉ L) →
  ∃ s', binit_loop n b s = Ok (tt, s') ∧ dll (bufs s') (rev (seq b n) ++ L) ∧
    ∀ P : bool * Z * Z * option Z * Z * block → Prop,
      (∀ a, P (body (bufs s a)) ∧ P (body (set_lock None (bufs s a)))) →
      (∀ a, P (body (bufs s' a))) ∧ disk s' = disk s ∧ writes s' = writes s.
Proof.
  induction n as [|n IH]; intros b s L Hd Hb.
  { exists s. split_and!; [done..|]. intros P HP. split_and!; [|done..]. intros a. apply HP. }
  cbn [binit_loop]. run_upd s1 H1. destruct (Hb b ltac:(lia)) as [Hbh HbL].
  assert (Hd1 : dll (bufs s1) L).
  { eapply dll_ext; [|exact Hd]. intros a. destruct (decide (a = b)) as [->|];
      [by rewrite (c_at _ _ _ _ H1) | by rewrite (c_other _ _ _ _ H1)]. }
  destruct (link_front_ok s1 L b Hd1 Hbh HbL) as (s2 & Hlf & Hd2 & (Hr2 & Hr2d & Hr2w)). run Hlf.
  destruct (IH (S b) s2 (b :: L) Hd2) as (s' & Hrun & Hd' & HP').
  { intros a Ha. destruct (Hb a ltac:(lia)). split; [done|]. rewrite not_elem_of_cons. split; [lia | done]. }
  exists s'. split; [done|]. split; [cbn; by rewrite <- app_assoc|]. intros P HP.
  rewrite <- (c_disk _ _ _ _ H1), <- (c_writes _ _ _ _ H1), <- Hr2d, <- Hr2w. apply HP'.
  intros a. assert (Hsl : ∀ x y, body x = body y → body (set_lock None x) = body (set_lock None y)).
  { intros x y E. unfold body in *. cbn. injection E as -> -> -> _ -> ->. done. }
  rewrite (Hsl _ _ (Hr2 a)), Hr2. destruct (decide (a = b)) as [->|].
  - rewrite (c_at _ _ _ _ H1). split; apply HP.
  - rewrite (c_other _ _ _ _ H1) by done. apply HP.
Qed.

Lemma binit_ok dk :
  ∃ s, binit (bss dk) = Ok (tt, s) ∧ binv s (rev (seq 0 (Z.to_nat NBUF))) ∧ dirty_pinned s ∧
    disk s = dk ∧ (∀ d n, d ≠ 0 → cached s d n = None ∧ cur s d n = dk d n) ∧
    (∀ b, b_lock (bufs s b) = None ∧ b_refcnt (bufs s b) = 0).
Proof.
  unfold binit. run_upd s1 H1. run_upd s2 H2.
  destruct (binit_loop_ok (Z.to_nat NBUF) 0 s2 []) as (s & Hrun & Hd & HP).
  - split; [apply NoDup_singleton|]. constructor; [|constructor].
    unfold linked. rewrite (c_at _ _ _ _ H2). cbn. by rewrite (c_at _ _ _ _ H1).
  - intros a Ha. split; [unfold bhead; lia|]. by intros ?%elem_of_nil.
  - rewrite app_nil_r in Hd. exists s. split; [exact Hrun|]. clear Hrun.
    destruct (HP (λ t, t = body (mkBuf false 0 0 None 0 0 0 ∅))) as (Hbody & Hdk & _).
    { intros a. destruct (decide (a = bhead)) as [->|].
      - rewrite (c_at _ _ _ _ H2). cbn. by rewrite (c_at _ _ _ _ H1).
      - by rewrite (c_other _ _ _ _ H2), (c_other _ _ _ _ H1) by done. }
    rewrite (c_disk _ _ _ _ H2), (c_disk _ _ _ _ H1) in Hdk. cbn in Hdk.
    assert (Hdev : ∀ a d n, d ≠ 0 → is_block d n (bufs s a) = true → False).
    { intros a d n Hnz Hx. specialize (Hbody a). unfold body in Hbody. injection Hbody as _ E _ _ _ _.
      unfold is_block in Hx. lia. }
    assert (Hno : ∀ d n, d ≠ 0 → cached s d n = None).
    { intros d n Hnz. unfold cached. destruct (List.find _ _) as [a|] eqn:E; [|done].
      apply find_some in E as [_ E]. by apply Hdev in E. }
    assert (Hlr : ∀ a, b_lock (bufs s a) = None ∧ b_refcnt (bufs s a) = 0).
    { intros a. specialize (Hbody a). unfold body in Hbody. by injection Hbody. }
    split_and!.
    + split; [done | by rewrite <- Permutation_rev | | |].
      * intros a b d n _ _ Hnz Hx _. by apply Hdev in Hx.
      * intros b _. rewrite (proj2 (Hlr b)). lia.
      * intros b _ _. apply Hlr.
    + intros b d n Hc Hnz. by rewrite Hno in Hc.
    + done.
    + intros d n Hnz. split; [by apply Hno|]. unfold cur. by rewrite Hno, Hdk.
    + done.
Qed.

(** ** Properties *)

(** C37. [bread] returns the one buffer of the block, locked, with the block's current
    contents (cached copy, else disk), and changes no block's contents.  If the block is
    not cached it recycles the least recently used buffer without references, and it
    panics exactly when there is none; it sleeps exactly when another process holds the
    buffer.  At most one buffer per block remains. *)
Theorem bread_spec me s L d n :
  binv s L → dirty_pinned s → d ≠ 0 → (∀ b, b ∈ L → b_refcnt (bufs s b) + 1 < 2 ^ 32) →
  match cached s d n with
  | Some b =>
      match b_lock (bufs s b) with
      | None => ∃ s', bread me d n s = Ok (b, s') ∧ read_ok me s L d n b s'
      | Some _ => bread me d n s = Sleeps
      end
  | None =>
      match List.find (λ b, b_refcnt (bufs s b) =? 0) (rev L) with
      | Some b => ∃ s', bread me d n s = Ok (b, s') ∧ read_ok me s L d n b s'
      | None => bread me d n s = Panic "bget: no buffers"
      end
  end.
Proof.
  intros Hi Hdp Hd Hr. destruct (cached s d n) as [b|] eqn:Hc.
  - destruct (b_lock (bufs s b)) eqn:Hl.
    + unfold bread, mbind, M_bind. by rewrite (bget_sleeps me s L d n b) by (done || congruence).
    + apply bread_hit; try done. apply Hr. by apply (cached_iff s L) in Hc as [? _].
  - destruct (List.find _ _) as [b|] eqn:Hf; [by apply bread_miss|].
    unfold bread, mbind, M_bind. rewrite (bget_full me s L d n); try done.
    intros b Hb E. rewrite list_elem_of_In, in_rev in Hb. eapply find_none in Hf; [|done]. cbn in Hf. lia.
Qed.

(** [brelse] by the holder unlocks the buffer and drops one reference; when that was
    the last, the buffer becomes the most recently used one and the others keep their
    order.  No block's contents change.  A process that does not hold the buffer
    panics. *)
Theorem brelse_spec me s L b :
  binv s L → b ∈ L →
  (b_lock (bufs s b) = Some me →
     ∃ s', brelse me b s = Ok (tt, s') ∧
       release_ok s L b s' (if b_refcnt (bufs s b) =? 1 then mru b L else L)) ∧
  (b_lock (bufs s b) ≠ Some me → brelse me b s = Panic "brelse").
Proof.
  intros Hi Hb. split; [by apply brelse_ok|]. intros Hl. unfold brelse, holdingsleep.
  rewrite bind_assoc, bind_rd, bind_ret, bool_decide_false by done. done.
Qed.

(** [binit] links all buffers into the list, unused: afterwards the cache invariant
    holds, nothing is cached, and every block reads as it is on disk. *)
Theorem binit_spec dk :
  ∃ s, binit (bss dk) = Ok (tt, s) ∧ binv s (rev (seq 0 (Z.to_nat NBUF))) ∧ dirty_pinned s ∧
    disk s = dk ∧ (∀ d n, d ≠ 0 → cached s d n = None ∧ cur s d n = dk d n) ∧
    (∀ b, b_lock (bufs s b) = None ∧ b_refcnt (bufs s b) = 0).
Proof. apply binit_ok. Qed.

(** Block 7 of the root device, read into the first buffer of a fresh cache. *)
Lemma bread_spec_witness :
  ∃ s s', binit (bss (λ _ _, ∅)) = Ok (tt, s) ∧ bread 1 ROOTDEV 7 s = Ok (0%nat, s').
Proof.
  destruct (binit_ok (λ _ _, ∅)) as (s & Hs & Hi & Hdp & _ & Hc & Hr).
  pose proof (bread_spec 1 s _ ROOTDEV 7 Hi Hdp ltac:(done)) as H.
  rewrite (proj1 (Hc ROOTDEV 7 ltac:(done))) in H. rewrite rev_involutive in H.
  assert (E : List.find (λ b, b_refcnt (bufs s b) =? 0) (seq 0 (Z.to_nat NBUF)) = Some 0%nat).
  { change (Z.to_nat NBUF) with 30%nat. cbn [seq List.find]. by rewrite (proj2 (Hr 0%nat)). }
  rewrite E in H. destruct H as (s' & H & _).
  { intros b _. rewrite (proj2 (Hr b)). lia. }
  exists s, s'. split; [exact Hs | exact H].
Defined.

Lemma brelse_spec_witness :
  ∃ s, binit (bss (λ _ _, ∅)) = Ok (tt, s) ∧ brelse 1 0 s = Panic "brelse".
Proof.
  destruct (binit_ok (λ _ _, ∅)) as (s & Hs & Hi & _ & _ & _ & Hr).
  exists s. split; [exact Hs|].
  apply (proj2 (brelse_spec 1 s _ 0%nat Hi ltac:(rewrite <- Permutation_rev; apply elem_of_seq; vm_compute; lia))).
  rewrite (proj1 (Hr 0%nat)). done.
Defined.
