(* ===== verification/BioPool.v ===== *)
(** * BioPool: the buffer cache as its clients use it

    [pool] describes the cache between operations of one process: which blocks the log
    has pinned and which buffers the process holds.  The lemmas give each operation of
    Bio.v in those terms, for the one device the file system uses. *)

From stdpp Require Import functions.
From S2P Require Import Prelude Mem Layout Bio.

Local Open Scope Z_scope.

Section pool.
  Context (me d0 : Z) (Hd0 : d0 ≠ 0).

(** References a buffer should have: one from the log if its block is pinned, one from
    the process if it holds it. *)
Definition refs (pins : list Z) (held : list nat) (b : nat) (x : buf) : Z :=
  (if decide (b_dev x = d0 ∧ b_blockno x ∈ pins) then 1 else 0) +
  (if decide (b ∈ held) then 1 else 0).

Record pool (s : bcache) (L : list nat) (pins : list Z) (held : list nat) : Prop := {
  p_inv : binv s L;
  p_ref b : b ∈ L → b_refcnt (bufs s b) = refs pins held b (bufs s b);
  p_lock b : b ∈ L → b_lock (bufs s b) = if decide (b ∈ held) then Some me else None;
  p_held b : b ∈ held → b ∈ L ∧ b_valid (bufs s b) = true ∧ b_dev (bufs s b) = d0;
  p_nodup : NoDup held;
  p_pins n : n ∈ pins → ∃ b, cached s d0 n = Some b ∧ b_valid (bufs s b) = true;
  p_clean b n : b ∈ L → is_block d0 n (bufs s b) = true → b_valid (bufs s b) = true →
    n ∉ pins → b ∉ held → b_data (bufs s b) = disk s d0 n;
  p_dev b : b ∈ L → b_dev (bufs s b) = 0 ∨ b_dev (bufs s b) = d0;
}.

(** The contents of the device. *)
Abbreviation content s := (cur s d0).

Lemma pool_dirty s L pins held : pool s L pins held → dirty_pinned s.
Proof.
  intros Hp b d n Hc Hd Hr Hv. pose proof (p_inv _ _ _ _ Hp) as Hi.
  apply (cached_iff s L) in Hc as [Hb Hbk]; [|done..]. destruct (is_block_eq _ _ _ Hbk) as [Ed En].
  destruct (p_dev _ _ _ _ Hp b Hb) as [E|E]; [congruence|].
  assert (d = d0) as -> by congruence. rewrite (p_ref _ _ _ _ Hp b Hb) in Hr. unfold refs in Hr.
  apply (p_clean _ _ _ _ Hp b n); try done.
  - intros Hn. rewrite En, decide_True in Hr by done. destruct (decide _); lia.
  - intros Hn. rewrite (decide_True (P := b ∈ held)) in Hr by done. destruct (decide _); lia.
Qed.

(** Clean blocks read as they are on disk. *)
Lemma pool_content s L pins held n :
  pool s L pins held → n ∉ pins → (∀ b, cached s d0 n = Some b → b ∉ held) →
  content s n = disk s d0 n.
Proof.
  intros Hp Hn Hh. unfold cur. destruct (cached s d0 n) as [b|] eqn:E; [|done].
  pose proof E as Hc. apply (cached_iff s L) in Hc as [Hb Hbk]; [|apply Hp | done].
  destruct (b_valid _) eqn:Hv; [|done]. apply (p_clean _ _ _ _ Hp); auto.
Qed.

(** With fewer pins and held buffers than buffers, one is free. *)
Lemma pool_room s L pins held :
  pool s L pins held → Z.of_nat (length pins + length held) < NBUF →
  ∃ b, List.find (λ b, b_refcnt (bufs s b) =? 0) (rev L) = Some b.
Proof.
  intros Hp Hlen. destruct (List.find _ _) as [b|] eqn:E; [by exists b|]. exfalso.
  assert (Hnz : ∀ b, b ∈ L → b_refcnt (bufs s b) ≠ 0).
  { intros b Hb. rewrite list_elem_of_In, in_rev in Hb. eapply find_none in E; [|done]. cbn in E. lia. }
  pose proof (p_inv _ _ _ _ Hp) as Hi.
  (* every buffer is held, or caches a pinned block, and no two cache the same *)
  set (tag := λ b, if decide (b ∈ held) then inl b else inr (b_blockno (bufs s b)) : nat + Z).
  assert (Hsub : (tag <$> L) ⊆ (inl <$> held) ++ (inr <$> pins)).
  { intros t (b & -> & Hb)%list_elem_of_fmap. rewrite elem_of_app, !list_elem_of_fmap. unfold tag.
    pose proof (Hnz b Hb) as Hr. rewrite (p_ref _ _ _ _ Hp b Hb) in Hr. unfold refs in Hr.
    destruct (decide (b ∈ held)); [left; eauto|]. destruct (decide (_ ∧ _)) as [[_ ?]|]; [right; eauto | lia]. }
  assert (Hnd : NoDup (tag <$> L)).
  { apply NoDup_fmap_2_strong; [|rewrite (bi_perm _ _ Hi); apply NoDup_seq].
    assert (Hpin : ∀ b, b ∈ L → b ∉ held → b_dev (bufs s b) = d0).
    { intros b Hb Hh. pose proof (Hnz b Hb) as Hr. rewrite (p_ref _ _ _ _ Hp b Hb) in Hr.
      unfold refs in Hr. rewrite (decide_False (P := b ∈ held)) in Hr by done.
      destruct (decide (_ ∧ _)) as [[? _]|]; [done | lia]. }
    intros a b Ha Hb. unfold tag. destruct (decide (a ∈ held)), (decide (b ∈ held)); try done.
    { by intros [= ->]. }
    intros [= En]. eapply (bi_uniq _ _ Hi a b d0 (b_blockno (bufs s a))); try done;
      apply is_block_same; auto. }
  apply NoDup_submseteq in Hsub; [|done]. apply submseteq_length in Hsub.
  rewrite length_fmap, (binv_length s L Hi), length_app, !length_fmap in Hsub. lia.
Qed.

Lemma refs_range pins held b x : 0 ≤ refs pins held b x ≤ 2.
Proof. unfold refs. do 2 destruct (decide _); lia. Qed.

Lemma decide_cons_ne {A} (b c : nat) held (x y : A) :
  b ≠ c → (if decide (b ∈ c :: held) then x else y) = (if decide (b ∈ held) then x else y).
Proof.
  intros Hne. destruct (decide (b ∈ held)); [by rewrite decide_True by (by constructor)|].
  by rewrite decide_False by (by rewrite elem_of_cons; intros [|]).
Qed.

Lemma refs_other pins held b c x :
  b ≠ c → refs pins (c :: held) b x = refs pins held b x.
Proof. intros Hne. unfold refs. by rewrite decide_cons_ne. Qed.

(** The buffer of a pinned block. *)
Lemma pool_pinned s L pins held n b :
  pool s L pins held → n ∈ pins → cached s d0 n = Some b →
  b ∈ L ∧ is_block d0 n (bufs s b) = true ∧ b_refcnt (bufs s b) ≠ 0 ∧ b_valid (bufs s b) = true.
Proof.
  intros Hp Hn Hc. pose proof Hc as Hb. apply (cached_iff s L) in Hb as [Hb Hbk]; [|apply Hp | done].
  split_and!; try done.
  - rewrite (p_ref _ _ _ _ Hp b Hb). destruct (is_block_eq _ _ _ Hbk) as [E1 E2]. unfold refs.
    rewrite E1, E2, decide_True by done. destruct (decide _); lia.
  - destruct (p_pins _ _ _ _ Hp n Hn) as (b' & Hc' & Hv). congruence.
Qed.

(** After a successful [bread] the process holds one buffer more. *)
Lemma pool_read s s' L pins held n b :
  pool s L pins held → read_ok me s L d0 n b s' → b ∉ held →
  (cached s d0 n = Some b ∨ (cached s d0 n = None ∧ b_refcnt (bufs s b) = 0)) →
  pool s' L pins (b :: held).
Proof.
  intros Hp Hro Hh Hcase. pose proof (p_inv _ _ _ _ Hp) as Hi.
  pose proof (ro_inv _ _ _ _ _ _ _ Hro) as Hi'. pose proof (ro_elem _ _ _ _ _ _ _ Hro) as Hb.
  destruct (is_block_eq _ _ _ (ro_block _ _ _ _ _ _ _ Hro)) as [Ed En].
  pose proof (ro_other _ _ _ _ _ _ _ Hro) as Hot.
  split.
  - done.
  - intros a Ha. destruct (decide (a = b)) as [->|Hab].
    + rewrite (ro_refcnt _ _ _ _ _ _ _ Hro). unfold refs. rewrite Ed, En.
      rewrite (decide_True (P := b ∈ b :: held)) by constructor. f_equal.
      destruct Hcase as [E|[E _]]; rewrite E.
      * rewrite (p_ref _ _ _ _ Hp b Hb). apply (cached_iff s L) in E as [_ E]; [|done..].
        destruct (is_block_eq _ _ _ E) as [E1 E2]. unfold refs. rewrite E1, E2.
        rewrite (decide_False (P := b ∈ held)) by done. lia.
      * rewrite decide_False; [done|]. intros [_ Hn]. destruct (p_pins _ _ _ _ Hp n Hn) as (? & ? & _). congruence.
    + rewrite Hot, refs_other by done. by apply (p_ref _ _ _ _ Hp).
  - intros a Ha. destruct (decide (a = b)) as [->|Hab].
    + rewrite (ro_lock _ _ _ _ _ _ _ Hro), decide_True by constructor. done.
    + by rewrite Hot, (p_lock _ _ _ _ Hp), decide_cons_ne by done.
  - intros a [->|Ha]%elem_of_cons; [by rewrite (ro_valid _ _ _ _ _ _ _ Hro)|].
    destruct (decide (a = b)) as [->|]; [done|]. rewrite Hot by done. by apply (p_held _ _ _ _ Hp).
  - apply NoDup_cons. split; [done | apply Hp].
  - intros n' Hn'. destruct (p_pins _ _ _ _ Hp n' Hn') as (a & Hca & Hva).
    destruct (pool_pinned _ _ _ _ _ _ Hp Hn' Hca) as (Ha & Hka & Hra & _).
    destruct (decide (a = b)) as [->|Hab].
    + exists b. split; [|apply Hro]. destruct Hcase as [E|[_ E]]; [|done].
      apply (cached_iff s' L); [done..|]. split; [done|].
      assert (n' = n) as ->; [|apply Hro]. apply (cached_iff s L) in E as [_ E]; [|done..].
      apply is_block_eq in E as [_ <-], Hka as [_ <-]. done.
    + exists a. rewrite Hot by done. split; [|done]. apply (cached_iff s' L); [done..|]. by rewrite Hot.
  - intros a n' Ha Hka Hva Hn' Hh'. apply not_elem_of_cons in Hh' as [Hab Hh'].
    rewrite Hot in Hka, Hva |- * by done. rewrite (ro_disk _ _ _ _ _ _ _ Hro).
    by apply (p_clean _ _ _ _ Hp).
  - intros a Ha. destruct (decide (a = b)) as [->|]; [by right|]. rewrite Hot by done.
    by apply (p_dev _ _ _ _ Hp).
Qed.

Lemma bread_pool s L pins held n :
  pool s L pins held → (∀ b, cached s d0 n = Some b → b ∉ held) →
  Z.of_nat (length pins + length held) < NBUF ∨ n ∈ pins →
  ∃ b s', bread me d0 n s = Ok (b, s') ∧ read_ok me s L d0 n b s' ∧
    pool s' L pins (b :: held) ∧ b ∉ held.
Proof.
  intros Hp Hh Hroom. pose proof (p_inv _ _ _ _ Hp) as Hi.
  destruct (cached s d0 n) as [b|] eqn:Hc.
  - specialize (Hh b eq_refl). pose proof Hc as Hb. apply (cached_iff s L) in Hb as [Hb _]; [|done..].
    destruct (bread_hit me s L d0 n b) as (s' & Hrun & Hro); try done.
    + by rewrite (p_lock _ _ _ _ Hp), decide_False by done.
    + rewrite (p_ref _ _ _ _ Hp) by done. pose proof (refs_range pins held b (bufs s b)). lia.
    + exists b, s'. split_and!; try done. eapply pool_read; eauto.
  - destruct Hroom as [Hroom|Hn].
    2:{ destruct (p_pins _ _ _ _ Hp n Hn) as (? & ? & _). congruence. }
    destruct (pool_room s L pins held Hp Hroom) as (b & Hf).
    destruct (bread_miss me s L d0 n b) as (s' & Hrun & Hro); eauto using pool_dirty.
    apply find_some in Hf as [_ Hr]. apply Z.eqb_eq in Hr.
    assert (b ∉ held).
    { intros Hbh. destruct (p_held _ _ _ _ Hp b Hbh) as (Hb & _). rewrite (p_ref _ _ _ _ Hp) in Hr by done.
      unfold refs in Hr. rewrite (decide_True (P := b ∈ held)) in Hr by done. destruct (decide _); lia. }
    exists b, s'. split_and!; try done. eapply pool_read; eauto.
Qed.

Lemma pool_perm s L pins pins' held held' :
  (∀ n, n ∈ pins ↔ n ∈ pins') → held ≡ₚ held' → pool s L pins held → pool s L pins' held'.
Proof.
  intros Hpi Hh Hp.
  assert (Hd : ∀ {A} (b : nat) (x y : A),
    (if decide (b ∈ held') then x else y) = (if decide (b ∈ held) then x else y)).
  { intros A b x y. destruct (decide (b ∈ held)) as [H|H]; rewrite Hh in H;
      [by rewrite decide_True | by rewrite decide_False]. }
  destruct Hp as [H1 H2 H3 H4 H5 H6 H7 H8]. split; try done.
  - intros b Hb. rewrite H2 by done. unfold refs. rewrite Hd. f_equal.
    destruct (decide (_ ∧ _ ∈ pins)) as [H|H]; rewrite Hpi in H; [by rewrite decide_True | by rewrite decide_False].
  - intros b Hb. by rewrite H3, Hd by done.
  - intros b. rewrite <- Hh. apply H4.
  - by rewrite <- Hh.
  - intros n. rewrite <- Hpi. apply H6.
  - intros b n Hb Hk Hv Hn Hbh. rewrite <- Hpi in Hn. rewrite <- Hh in Hbh. by apply H7.
Qed.

(** The block of a held buffer is cached there. *)
Lemma held_cached s L pins held b :
  pool s L pins held → b ∈ held → cached s d0 (b_blockno (bufs s b)) = Some b.
Proof.
  intros Hp Hb. destruct (p_held _ _ _ _ Hp b Hb) as (HL & _ & Hd). apply (cached_iff s L); [apply Hp | done |].
  split; [done|]. by apply is_block_same.
Qed.

(** A change of a held buffer that keeps its identity, lock and references. *)
Lemma pool_changes s s' L pins held b x :
  pool s L pins held → b ∈ held → changes s s' b x →
  b_next x = b_next (bufs s b) → b_prev x = b_prev (bufs s b) →
  b_dev x = b_dev (bufs s b) → b_blockno x = b_blockno (bufs s b) →
  b_lock x = b_lock (bufs s b) → b_refcnt x = b_refcnt (bufs s b) → b_valid x = true →
  pool s' L pins held.
Proof.
  intros Hp Hb Hc X1 X2 X3 X4 X5 X6 X7. pose proof Hc as [Hat Hot Hdk _].
  destruct (p_held _ _ _ _ Hp b Hb) as (HL & _ & Hd). pose proof (p_inv _ _ _ _ Hp) as Hi.
  assert (Hblk : ∀ d n, is_block d n x = is_block d n (bufs s b)) by (intros; unfold is_block; by rewrite X3, X4).
  assert (Hi' : binv s' L).
  { apply (binv_changes s s' L b x); try done.
    - rewrite X6. by apply (bi_ref _ _ Hi).
    - rewrite X5, X6. by apply (bi_lock _ _ Hi).
    - intros d n _. rewrite Hblk. by left. }
  assert (Hcases : ∀ a, (a = b ∧ bufs s' a = x) ∨ (a ≠ b ∧ bufs s' a = bufs s a)).
  { intros a. destruct (decide (a = b)) as [->|]; auto. }
  destruct Hp as [H1 H2 H3 H4 H5 H6 H7 H8]. split; try done.
  - intros a Ha. destruct (Hcases a) as [[-> E]|[_ E]]; rewrite E; [|auto].
    rewrite X6, H2 by done. unfold refs. by rewrite X3, X4.
  - intros a Ha. destruct (Hcases a) as [[-> E]|[_ E]]; rewrite E; [|auto]. rewrite X5. auto.
  - intros a Ha. destruct (Hcases a) as [[-> E]|[_ E]]; rewrite E; [|auto]. rewrite X3. auto.
  - intros n Hn. destruct (H6 n Hn) as (a & Hca & Hva). exists a. split.
    + apply (cached_iff s' L); [done..|]. apply (cached_iff s L) in Hca as [Ha Hk]; [|done..]. split; [done|].
      destruct (Hcases a) as [[-> E]|[_ E]]; rewrite E; [by rewrite Hblk | done].
    + destruct (Hcases a) as [[-> E]|[_ E]]; by rewrite E.
  - intros a n Ha. destruct (Hcases a) as [[-> E]|[_ E]]; [done|]. rewrite E, Hdk. auto.
  - intros a Ha. destruct (Hcases a) as [[-> E]|[_ E]]; rewrite E; [rewrite X3|]; auto.
Qed.

(** Writing into a held buffer changes that block's contents. *)
Lemma set_data_pool s L pins held b v :
  pool s L pins held → b ∈ held →
  ∃ s', upd b (set_data v) s = Ok (tt, s') ∧ pool s' L pins held ∧
    changes s s' b (set_data v (bufs s b)) ∧
    (∀ n, content s' n = if decide (n = b_blockno (bufs s b)) then v else content s n).
Proof.
  intros Hp Hb. destruct (changes_upd s b (set_data v)) as (s' & Hrun & Hc).
  destruct (p_held _ _ _ _ Hp b Hb) as (HL & Hv & Hd).
  assert (Hp' : pool s' L pins held) by (eapply pool_changes; eauto).
  exists s'. split_and!; [done..|]. intros n.
  rewrite (cur_changes s s' L b _ d0 n (p_inv _ _ _ _ Hp) (p_inv _ _ _ _ Hp') Hc HL Hd0).
  assert (E : ∀ x, is_block d0 n (set_data x (bufs s b)) = bool_decide (n = b_blockno (bufs s b))).
  { intros x. unfold is_block. cbn. rewrite Hd, Z.eqb_refl. cbn.
    destruct (bool_decide _) eqn:E; [apply bool_decide_eq_true in E | apply bool_decide_eq_false in E]; lia. }
  rewrite E. cbn [b_valid set_data b_data]. rewrite Hv. destruct (decide _) as [->|Hn].
  - by rewrite bool_decide_true.
  - rewrite bool_decide_false by done. specialize (E (b_data (bufs s b))). rewrite bool_decide_false in E by done.
    unfold is_block in *. cbn in E. by rewrite E.
Qed.

Lemma bwrite_pool s L pins held b :
  pool s L pins held → b ∈ held →
  let n := b_blockno (bufs s b) in let v := b_data (bufs s b) in
  ∃ s', bwrite me b s = Ok (tt, s') ∧ pool s' L pins held ∧ bufs s' = bufs s ∧
    disk s' = disk_set (disk s) d0 n v ∧ writes s' = writes s ++ [(d0, n, v)] ∧
    (∀ n', content s' n' = content s n').
Proof.
  intros Hp Hb n v. destruct (p_held _ _ _ _ Hp b Hb) as (HL & Hv & Hd).
  destruct (bwrite_ok me s L b) as (s' & Hrun & Hi' & Hbf & Hdk & Hw & Hcur); try done.
  { apply Hp. }
  { by rewrite (p_lock _ _ _ _ Hp), decide_True by done. }
  rewrite Hd in Hdk, Hw. exists s'. split_and!; try done; [|intros n'; by apply Hcur].
  destruct Hp as [H1 H2 H3 H4 H5 H6 H7 H8]. split; rewrite ?Hbf; try done.
  - unfold cached in *. rewrite Hbf. done.
  - intros a m Ha Hk Hva Hm Hh. rewrite Hdk. unfold disk_set. rewrite decide_False; [auto|].
    intros [_ ->]. assert (a = b) as ->; [|done].
    eapply (bi_uniq _ _ H1 a b d0 n); try done. by apply is_block_same.
Qed.

(** Facts about a pool that only depend on the buffers' bodies. *)
Lemma pool_bodies s s' L L' pins pins' held held' (x : nat → buf) :
  pool s L pins held → binv s' L' → L' ≡ₚ L → disk s' = disk s →
  (∀ a, body (bufs s' a) = body (x a)) →
  (∀ a, b_valid (x a) = b_valid (bufs s a) ∧ b_dev (x a) = b_dev (bufs s a) ∧
        b_blockno (x a) = b_blockno (bufs s a) ∧ b_data (x a) = b_data (bufs s a)) →
  (∀ a, a ∈ L → b_refcnt (x a) = refs pins' held' a (bufs s a)) →
  (∀ a, a ∈ L → b_lock (x a) = if decide (a ∈ held') then Some me else None) →
  (∀ a, a ∈ held' → a ∈ held) → NoDup held' → (∀ n, n ∈ pins' → n ∈ pins ∨ ∃ b, b ∈ held ∧ b_blockno (bufs s b) = n) →
  (∀ a n, a ∈ L → is_block d0 n (bufs s a) = true → b_valid (bufs s a) = true →
     n ∉ pins' → a ∉ held' → b_data (bufs s a) = disk s d0 n) →
  pool s' L' pins' held'.
Proof.
  intros Hp Hi' HL Hdk Hb Hx Hr Hl Hh Hnd Hpi Hcl.
  assert (Hf : ∀ a, b_valid (bufs s' a) = b_valid (bufs s a) ∧ b_dev (bufs s' a) = b_dev (bufs s a) ∧
    b_blockno (bufs s' a) = b_blockno (bufs s a) ∧ b_data (bufs s' a) = b_data (bufs s a) ∧
    b_refcnt (bufs s' a) = b_refcnt (x a) ∧ b_lock (bufs s' a) = b_lock (x a)).
  { intros a. specialize (Hb a). unfold body in Hb. injection Hb as -> -> -> -> -> ->.
    destruct (Hx a) as (-> & -> & -> & ->). done. }
  assert (Hk : ∀ a d n, is_block d n (bufs s' a) = is_block d n (bufs s a)).
  { intros a d n. unfold is_block. destruct (Hf a) as (_ & -> & -> & _). done. }
  assert (Hc : ∀ n, cached s' d0 n = cached s d0 n).
  { intros n. apply find_ext. intros a. apply Hk. }
  split; [done | ..].
  - intros a Ha. rewrite HL in Ha. destruct (Hf a) as (_ & E1 & E2 & _ & -> & _). rewrite Hr by done.
    unfold refs. by rewrite E1, E2.
  - intros a Ha. rewrite HL in Ha. destruct (Hf a) as (_ & _ & _ & _ & _ & ->). auto.
  - intros a Ha. rewrite HL. destruct (Hf a) as (-> & -> & _). apply (p_held _ _ _ _ Hp). auto.
  - done.
  - intros n Hn. setoid_rewrite Hc. destruct (Hpi n Hn) as [Hn'|(b & Hbh & <-)].
    + destruct (p_pins _ _ _ _ Hp n Hn') as (a & Hca & Hva). exists a. split; [done|].
      by destruct (Hf a) as (-> & _).
    + exists b. split; [by eapply held_cached|]. destruct (Hf b) as (-> & _). by apply (p_held _ _ _ _ Hp).
  - intros a n Ha Hka Hva Hn Hah. rewrite HL in Ha. rewrite Hk in Hka.
    destruct (Hf a) as (E & _ & _ & -> & _). rewrite E in Hva. rewrite Hdk. auto.
  - intros a Ha. rewrite HL in Ha. destruct (Hf a) as (_ & -> & _). by apply (p_dev _ _ _ _ Hp).
Qed.

Lemma brelse_pool s L pins held held' b :
  pool s L pins held → held ≡ₚ b :: held' →
  b_blockno (bufs s b) ∈ pins ∨ b_data (bufs s b) = disk s d0 (b_blockno (bufs s b)) →
  ∃ s' L', brelse me b s = Ok (tt, s') ∧ pool s' L' pins held' ∧
    (∀ n, content s' n = content s n) ∧ disk s' = disk s ∧ writes s' = writes s ∧
    (∀ a, a ≠ b → body (bufs s' a) = body (bufs s a)).
Proof.
  intros Hp Hperm Hcl. apply (pool_perm _ _ pins pins _ _ ltac:(done) Hperm) in Hp. clear held Hperm.
  destruct (p_held _ _ _ _ Hp b) as (HL & Hv & Hd); [constructor|].
  destruct (brelse_ok me s L b) as (s' & Hrun & Hrl); [apply Hp | done | |].
  { rewrite (p_lock _ _ _ _ Hp), decide_True by (done || constructor). done. }
  set (L' := if _ =? 1 then _ else _) in Hrl. destruct Hrl as [R1 _ R3 R4 R5 R6 R7].
  pose proof (p_nodup _ _ _ _ Hp) as Hnd. apply NoDup_cons in Hnd as [Hbh Hnd].
  exists s', L'. split_and!; try done; [|intros n; by apply R5].
  set (x := λ a, if decide (a = b) then set_refcnt (b_refcnt (bufs s b) - 1) (set_lock None (bufs s b)) else bufs s a).
  apply (pool_bodies s s' L L' pins pins (b :: held') held' x); try done.
  - by rewrite (bi_perm _ _ R1), (bi_perm _ _ (p_inv _ _ _ _ Hp)).
  - intros a. unfold x. destruct (decide (a = b)) as [->|]; [done | by apply R4].
  - intros a. unfold x. by destruct (decide (a = b)) as [->|].
  - intros a Ha. unfold x. destruct (decide (a = b)) as [->|Hab]; cbn.
    + rewrite (p_ref _ _ _ _ Hp b HL). unfold refs.
      rewrite (decide_True (P := b ∈ b :: held')), (decide_False (P := b ∈ held')) by (done || constructor). lia.
    + rewrite (p_ref _ _ _ _ Hp a Ha). by apply refs_other.
  - intros a Ha. unfold x. destruct (decide (a = b)) as [->|Hab]; cbn.
    + by rewrite decide_False.
    + rewrite (p_lock _ _ _ _ Hp a Ha). by apply decide_cons_ne.
  - intros a Ha. by constructor.
  - auto.
  - intros a n Ha Hk Hva Hn Hah. destruct (decide (a = b)) as [->|Hab].
    + destruct (is_block_eq _ _ _ Hk) as [_ <-]. destruct Hcl; done.
    + apply (p_clean _ _ _ _ Hp); try done. rewrite not_elem_of_cons. done.
Qed.

Lemma bunpin_pool s L pins pins' held b :
  pool s L pins held → b ∈ held → (∀ n, n ∈ pins ↔ n = b_blockno (bufs s b) ∨ n ∈ pins') →
  b_blockno (bufs s b) ∉ pins' →
  ∃ s', bunpin b s = Ok (tt, s') ∧ pool s' L pins' held ∧
    (∀ n, content s' n = content s n) ∧ disk s' = disk s ∧ writes s' = writes s ∧
    changes s s' b (set_refcnt (b_refcnt (bufs s b) - 1) (bufs s b)).
Proof.
  intros Hp Hb Hpins Hn. destruct (p_held _ _ _ _ Hp b Hb) as (HL & Hv & Hd).
  assert (Hr : b_refcnt (bufs s b) = 2).
  { rewrite (p_ref _ _ _ _ Hp b HL). unfold refs. rewrite decide_True by (rewrite Hpins; auto).
    by rewrite decide_True. }
  destruct (bunpin_ok s L b) as (s' & Hrun & Hi' & Hc & Hcur); [apply Hp | done | lia |].
  exists s'. split_and!; try done; try apply Hc; [|intros n; by apply Hcur].
  apply (pool_bodies s s' L L pins pins' held held (bufs s')); try done; try apply Hc.
  - intros a. destruct (decide (a = b)) as [->|];
      [by rewrite (c_at _ _ _ _ Hc) | by rewrite (c_other _ _ _ _ Hc)].
  - intros a Ha. destruct (decide (a = b)) as [->|Hab].
    + rewrite (c_at _ _ _ _ Hc). cbn. rewrite Hr. unfold refs.
      rewrite (decide_False (P := _ ∧ _)), decide_True by (done || tauto). done.
    + rewrite (c_other _ _ _ _ Hc), (p_ref _ _ _ _ Hp) by done. unfold refs. f_equal.
      assert (Hne : b_dev (bufs s a) = d0 → b_blockno (bufs s a) ≠ b_blockno (bufs s b)).
      { intros E1 E2. apply Hab. eapply (bi_uniq _ _ (p_inv _ _ _ _ Hp)); try done; by apply is_block_same. }
      destruct (decide (_ ∧ _ ∈ pins)) as [[E1 E2]|E]; rewrite ?Hpins in *.
      * rewrite decide_True; [done|]. split; [done|]. destruct E2; [|done]. by apply Hne in E1.
      * rewrite decide_False; [done|]. intros [? ?]. apply E. auto.
  - intros a Ha. rewrite <- (p_lock _ _ _ _ Hp a Ha). destruct (decide (a = b)) as [->|];
      [by rewrite (c_at _ _ _ _ Hc) | by rewrite (c_other _ _ _ _ Hc)].
  - apply Hp.
  - intros n Hn'. left. rewrite Hpins. auto.
  - intros a n Ha Hk Hva Hn' Hah. apply (p_clean _ _ _ _ Hp); try done. rewrite Hpins.
    intros [->|?]; [|done]. apply Hah. assert (a = b) as ->; [|done].
    eapply (bi_uniq _ _ (p_inv _ _ _ _ Hp)); try done. by apply is_block_same.
Qed.

Lemma bpin_pool s L pins held b :
  pool s L pins held → b ∈ held → b_blockno (bufs s b) ∉ pins →
  ∃ s', bpin b s = Ok (tt, s') ∧ pool s' L (b_blockno (bufs s b) :: pins) held ∧
    (∀ n, content s' n = content s n) ∧ disk s' = disk s ∧ writes s' = writes s ∧
    changes s s' b (set_refcnt (b_refcnt (bufs s b) + 1) (bufs s b)).
Proof.
  intros Hp Hb Hn. destruct (p_held _ _ _ _ Hp b Hb) as (HL & Hv & Hd).
  assert (Hr : b_refcnt (bufs s b) = 1).
  { rewrite (p_ref _ _ _ _ Hp b HL). unfold refs. rewrite decide_False by tauto. by rewrite decide_True. }
  destruct (bpin_ok s L b) as (s' & Hrun & Hi' & Hc & Hcur); [apply Hp | done | lia |].
  exists s'. split_and!; try done; try apply Hc; [|intros n; by apply Hcur].
  apply (pool_bodies s s' L L pins _ held held (bufs s')); try done; try apply Hc.
  - intros a. destruct (decide (a = b)) as [->|];
      [by rewrite (c_at _ _ _ _ Hc) | by rewrite (c_other _ _ _ _ Hc)].
  - intros a Ha. destruct (decide (a = b)) as [->|Hab].
    + rewrite (c_at _ _ _ _ Hc). cbn. rewrite Hr. unfold refs.
      rewrite (decide_True (P := _ ∧ _)) by (split; [done | constructor]). by rewrite decide_True.
    + rewrite (c_other _ _ _ _ Hc), (p_ref _ _ _ _ Hp) by done. unfold refs. f_equal.
      assert (Hne : b_dev (bufs s a) = d0 → b_blockno (bufs s a) ≠ b_blockno (bufs s b)).
      { intros E1 E2. apply Hab. eapply (bi_uniq _ _ (p_inv _ _ _ _ Hp)); try done; by apply is_block_same. }
      destruct (decide (_ ∧ _ ∈ pins)) as [[E1 E2]|E].
      * rewrite decide_True; [done|]. split; [done | by constructor].
      * rewrite decide_False; [done|]. intros [E1 [E2|E2]%elem_of_cons]; [by apply Hne in E1 | tauto].
  - intros a Ha. rewrite <- (p_lock _ _ _ _ Hp a Ha). destruct (decide (a = b)) as [->|];
      [by rewrite (c_at _ _ _ _ Hc) | by rewrite (c_other _ _ _ _ Hc)].
  - apply Hp.
  - intros n [->|Hn']%elem_of_cons; [right; eauto | by left].
  - intros a n Ha Hk Hva Hn' Hah. apply not_elem_of_cons in Hn' as [_ Hn']. by apply (p_clean _ _ _ _ Hp).
Qed.

End pool.
