(* ===== verification/Log.v ===== *)
(** * Log: write-ahead logging (src/kernel/log.c)

    The log sits between the file system and the buffer cache.  Its critical sections
    under [log.lock] are atomic; [begin_op] that has to wait is [Sleeps].  A crash loses
    the cache and the log's memory and keeps the disk as the writes so far left it. *)

From stdpp Require Import functions.
From S2P Require Import Prelude Mem Layout FsFormat Bio BioPool.

Local Open Scope Z_scope.

(** ** State *)

(** [struct log], with its [struct logheader] inlined. *)
Record log := mkLog {
  l_start : Z;
  l_size : Z;
  l_outstanding : Z;     (* how many FS sys calls are executing *)
  l_committing : bool;   (* in commit(), please wait *)
  l_dev : Z;
  lh_n : Z;
  lh_block : Z → Z;      (* lh.block[LOGSIZE] *)
}.

Record lstate := mkLstate { l_bc : bcache; l_log : log }.

Abbreviation LM := (M lstate).

Definition in_bc {A} (m : BM A) : LM A := zoom l_bc (λ b s, mkLstate b (l_log s)) m.
Definition lget {A} (f : log → A) : LM A := gets (λ s, f (l_log s)).
Definition lset (f : log → log) : LM unit := modify (λ s, mkLstate (l_bc s) (f (l_log s))).

Definition set_n (n : Z) (l : log) : log :=
  mkLog (l_start l) (l_size l) (l_outstanding l) (l_committing l) (l_dev l) n (lh_block l).
Definition set_block (i b : Z) (l : log) : log :=
  mkLog (l_start l) (l_size l) (l_outstanding l) (l_committing l) (l_dev l) (lh_n l)
    (<[i:=b]> (lh_block l)).
Definition set_outstanding (n : Z) (l : log) : log :=
  mkLog (l_start l) (l_size l) n (l_committing l) (l_dev l) (lh_n l) (lh_block l).
Definition set_committing (c : bool) (l : log) : log :=
  mkLog (l_start l) (l_size l) (l_outstanding l) c (l_dev l) (lh_n l) (lh_block l).
Definition set_place (dev start size : Z) (l : log) : log :=
  mkLog start size (l_outstanding l) (l_committing l) dev (lh_n l) (lh_block l).

(** [sizeof(struct logheader)] *)
Definition LOGHEADER_SIZE : Z := 4 + 4 * LOGSIZE.

(** The header as it lies in a block: [int n; int block[LOGSIZE]]. *)
Definition hdr_n (d : block) : Z := i32 (ld32 d 0).
Definition hdr_block (d : block) (i : Z) : Z := i32 (ld32 d (4 + 4 * i)).

(** [memmove(b2->data, b1->data, BSIZE)] *)
Definition copy_data (b1 b2 : nat) : BM unit := d ← rd b1 b_data; upd b2 (set_data d).

Section ops.
  Context (me : Z).

(** ** Moving blocks between log and home *)

(** [for (tail = 0; tail < log.lh.n; tail++)] of [install_trans], [k] iterations left. *)
Fixpoint install_loop (k : nat) (tail : Z) (recovering : bool) : LM unit :=
  match k with
  | O => mret tt
  | S k' =>
      l ← lget id;
      lbuf ← in_bc (bread me (l_dev l) (l_start l + tail + 1));
      dbuf ← in_bc (bread me (l_dev l) (u32 (lh_block l tail)));
      in_bc (copy_data lbuf dbuf);;
      in_bc (bwrite me dbuf);;
      (if negb recovering then in_bc (bunpin dbuf) else mret tt);;
      in_bc (brelse me lbuf);;
      in_bc (brelse me dbuf);;
      install_loop k' (tail + 1) recovering
  end.

Definition install_trans (recovering : bool) : LM unit :=
  n ← lget lh_n; install_loop (Z.to_nat n) 0 recovering.

(** [for (i = 0; i < log.lh.n; i++) log.lh.block[i] = lh->block[i]] *)
Fixpoint read_head_loop (k : nat) (i : Z) (d : block) : LM unit :=
  match k with
  | O => mret tt
  | S k' => lset (set_block i (hdr_block d i));; read_head_loop k' (i + 1) d
  end.

Definition read_head : LM unit :=
  l ← lget id;
  buf ← in_bc (bread me (l_dev l) (l_start l));
  d ← in_bc (rd buf b_data);
  lset (set_n (hdr_n d));;
  read_head_loop (Z.to_nat (hdr_n d)) 0 d;;
  in_bc (brelse me buf).

(** [for (i = 0; i < log.lh.n; i++) hb->block[i] = log.lh.block[i]] *)
Fixpoint put_blocks (k : nat) (i : Z) (f : Z → Z) (d : block) : block :=
  match k with
  | O => d
  | S k' => put_blocks k' (i + 1) f (st32 d (4 + 4 * i) (f i))
  end.

Definition write_head : LM unit :=
  l ← lget id;
  buf ← in_bc (bread me (l_dev l) (l_start l));
  in_bc (d ← rd buf b_data;
         upd buf (set_data (put_blocks (Z.to_nat (lh_n l)) 0 (lh_block l) (st32 d 0 (lh_n l)))));;
  in_bc (bwrite me buf);;
  in_bc (brelse me buf).

Definition recover_from_log : LM unit :=
  read_head;;
  install_trans true;;
  lset (set_n 0);;
  write_head.

Definition initlog (dev : Z) (sb : superblock) : LM unit :=
  if BSIZE <=? LOGHEADER_SIZE then panic "initlog: too big logheader"
  else
    lset (set_place dev (sb_logstart sb) (sb_nlog sb));;
    recover_from_log.

(** ** Transactions *)

Definition begin_op : LM unit :=
  l ← lget id;
  if l_committing l then sleeps
  else if LOGSIZE <? lh_n l + (l_outstanding l + 1) * MAXOPBLOCKS then sleeps
  else lset (set_outstanding (l_outstanding l + 1)).

(** [for (tail = 0; tail < log.lh.n; tail++)] of [write_log]. *)
Fixpoint write_log_loop (k : nat) (tail : Z) : LM unit :=
  match k with
  | O => mret tt
  | S k' =>
      l ← lget id;
      to ← in_bc (bread me (l_dev l) (l_start l + tail + 1));
      from ← in_bc (bread me (l_dev l) (u32 (lh_block l tail)));
      in_bc (copy_data from to);;
      in_bc (bwrite me to);;
      in_bc (brelse me from);;
      in_bc (brelse me to);;
      write_log_loop k' (tail + 1)
  end.

Definition write_log : LM unit := n ← lget lh_n; write_log_loop (Z.to_nat n) 0.

Definition commit : LM unit :=
  n ← lget lh_n;
  if 0 <? n then
    write_log;;
    write_head;;
    install_trans false;;
    lset (set_n 0);;
    write_head
  else mret tt.

Definition end_op : LM unit :=
  l ← lget id;
  lset (set_outstanding (l_outstanding l - 1));;
  if l_committing l then panic "log.committing"
  else if l_outstanding l - 1 =? 0 then
    lset (set_committing true);;
    commit;;
    lset (set_committing false)
  else mret tt.

(** The absorption search: the first [i < lh.n] with [lh.block[i] == blockno], else [lh.n]. *)
Fixpoint absorb (k : nat) (i : Z) (f : Z → Z) (blockno : Z) : Z :=
  match k with
  | O => i
  | S k' => if f i =? blockno then i else absorb k' (i + 1) f blockno
  end.

Definition log_write (b : nat) : LM unit :=
  l ← lget id;
  if (LOGSIZE <=? lh_n l) || (l_size l - 1 <=? lh_n l) then panic "too big a transaction"
  else if l_outstanding l <? 1 then panic "log_write outside of trans"
  else
    blockno ← in_bc (rd b b_blockno);
    let i := absorb (Z.to_nat (lh_n l)) 0 (lh_block l) (i32 blockno) in
    lset (set_block i (i32 blockno));;
    if i =? lh_n l then in_bc (bpin b);; lset (set_n (lh_n l + 1)) else mret tt.

End ops.

(** ** The disk as a sequence of writes *)

Definition apply_writes (f : Z → Z → block) (ws : list (Z * Z * block)) : Z → Z → block :=
  foldl (λ f '(d, n, v), disk_set f d n v) f ws.

Lemma apply_writes_app f ws ws' :
  apply_writes f (ws ++ ws') = apply_writes (apply_writes f ws) ws'.
Proof. apply foldl_app. Qed.

(** From [s] to [s'] the cache made the writes [ws], and the disk followed. *)
Definition wrote (s s' : bcache) (ws : list (Z * Z * block)) : Prop :=
  writes s' = writes s ++ ws ∧ disk s' = apply_writes (disk s) ws.

Lemma wrote_nil s s' : writes s' = writes s → disk s' = disk s → wrote s s' [].
Proof. intros H1 H2. split; [by rewrite app_nil_r | done]. Qed.

Lemma wrote_trans s s' s'' ws ws' : wrote s s' ws → wrote s' s'' ws' → wrote s s'' (ws ++ ws').
Proof.
  intros [H1 H2] [H3 H4]. split; [by rewrite H3, H1, app_assoc | by rewrite H4, H2, apply_writes_app].
Qed.

Lemma in_bc_run {A} (m : BM A) s a b :
  m (l_bc s) = Ok (a, b) → in_bc m s = Ok (a, mkLstate b (l_log s)).
Proof. unfold in_bc, zoom. by intros ->. Qed.

(** Run a cache operation whose result [H] states. *)
Ltac run_bc H := rewrite (bind_ok _ _ _ _ _ (in_bc_run _ (mkLstate _ _) _ _ H)); cbn [l_log].

Section proofs.
  Context (me d0 : Z) (Hd0 : d0 ≠ 0).
  Abbreviation pool := (pool me d0).
  Abbreviation content s := (cur s d0).

(** ** Copying one block to another *)

(** Two reads: both buffers held, contents unchanged. *)
Lemma read_two s L pins n1 n2 :
  pool s L pins [] → n1 ≠ n2 → Z.of_nat (length pins) < NBUF →
  n2 ∈ pins ∨ Z.of_nat (length pins) + 1 < NBUF →
  ∃ b1 b2 s1 s2, bread me d0 n1 s = Ok (b1, s1) ∧ bread me d0 n2 s1 = Ok (b2, s2) ∧
    pool s2 L pins [b2; b1] ∧ b1 ≠ b2 ∧ wrote s s2 [] ∧ (∀ n, content s2 n = content s n) ∧
    b_blockno (bufs s2 b1) = n1 ∧ b_data (bufs s2 b1) = content s n1 ∧
    b_blockno (bufs s2 b2) = n2 ∧ b_data (bufs s2 b2) = content s n2.
Proof.
  intros Hp Hne Hlen Hroom.
  destruct (bread_pool me d0 Hd0 s L pins [] n1 Hp) as (b1 & s1 & Hr1 & Ho1 & Hp1 & _).
  { by intros b _ ?%elem_of_nil. }
  { left. cbn. lia. }
  destruct (is_block_eq _ _ _ (ro_block _ _ _ _ _ _ _ Ho1)) as [Ed1 En1].
  destruct (bread_pool me d0 Hd0 s1 L pins [b1] n2 Hp1) as (b2 & s2 & Hr2 & Ho2 & Hp2 & Hb12).
  { intros b Hc ->%list_elem_of_singleton. apply (cached_iff s1 L) in Hc as [_ Hc]; [|apply Hp1 | done].
    apply is_block_eq in Hc as [_ Hc]. congruence. }
  { destruct Hroom; [by right | left; cbn; lia]. }
  destruct (is_block_eq _ _ _ (ro_block _ _ _ _ _ _ _ Ho2)) as [Ed2 En2].
  rewrite list_elem_of_singleton in Hb12.
  assert (E1 : bufs s2 b1 = bufs s1 b1) by (apply Ho2; congruence).
  exists b1, b2, s1, s2. split_and!; try done; try congruence.
  - eapply (wrote_trans _ s1 _ [] []); apply wrote_nil; apply Ho1 || apply Ho2.
  - intros n. by rewrite (ro_cur _ _ _ _ _ _ _ Ho2), (ro_cur _ _ _ _ _ _ _ Ho1).
  - rewrite E1. apply Ho1.
  - rewrite (ro_data _ _ _ _ _ _ _ Ho2). by apply Ho1.
Qed.

(** Copy [b1] over [b2], and write [b2]. *)
Lemma copy_write s L pins b1 b2 :
  pool s L pins [b2; b1] → b1 ≠ b2 →
  let v := b_data (bufs s b1) in let n2 := b_blockno (bufs s b2) in
  ∃ s1 s2, copy_data b1 b2 s = Ok (tt, s1) ∧ bwrite me b2 s1 = Ok (tt, s2) ∧
    pool s2 L pins [b2; b1] ∧ wrote s s2 [(d0, n2, v)] ∧
    (∀ n, content s2 n = if decide (n = n2) then v else content s n) ∧
    bufs s2 b1 = bufs s b1 ∧ b_blockno (bufs s2 b2) = n2 ∧ b_data (bufs s2 b2) = v.
Proof.
  intros Hp Hne v n2.
  destruct (set_data_pool me d0 Hd0 s L pins [b2; b1] b2 v Hp) as (s1 & Hrun & Hp1 & Hc & Hcont); [constructor|].
  destruct (bwrite_pool me d0 Hd0 s1 L pins [b2; b1] b2 Hp1) as (s2 & Hrun2 & Hp2 & Hbf & Hdk & Hw & Hcont2);
    [constructor|].
  rewrite (c_at _ _ _ _ Hc) in Hdk, Hw. cbn in Hdk, Hw. fold n2 in Hdk, Hw.
  exists s1, s2. split_and!; try done.
  - split; [by rewrite Hw, (c_writes _ _ _ _ Hc) | by rewrite Hdk, (c_disk _ _ _ _ Hc)].
  - intros n. by rewrite Hcont2, Hcont.
  - by rewrite Hbf, (c_other _ _ _ _ Hc).
  - by rewrite Hbf, (c_at _ _ _ _ Hc).
  - by rewrite Hbf, (c_at _ _ _ _ Hc).
Qed.

(** Release [b1] and then [b2]. *)
Lemma release_two s L pins held b1 b2 :
  pool s L pins held → held ≡ₚ [b2; b1] → b1 ≠ b2 →
  b_blockno (bufs s b1) ∈ pins ∨ b_data (bufs s b1) = disk s d0 (b_blockno (bufs s b1)) →
  b_blockno (bufs s b2) ∈ pins ∨ b_data (bufs s b2) = disk s d0 (b_blockno (bufs s b2)) →
  ∃ s1 s2 L', brelse me b1 s = Ok (tt, s1) ∧ brelse me b2 s1 = Ok (tt, s2) ∧
    pool s2 L' pins [] ∧ wrote s s2 [] ∧ (∀ n, content s2 n = content s n).
Proof.
  intros Hp Hh Hne H1 H2.
  destruct (brelse_pool me d0 Hd0 s L pins held [b2] b1 Hp) as (s1 & L1 & Hr1 & Hp1 & Hc1 & Hd1 & Hw1 & Hb1).
  { rewrite Hh. apply Permutation_swap. }
  { done. }
  assert (E : b_blockno (bufs s1 b2) = b_blockno (bufs s b2) ∧ b_data (bufs s1 b2) = b_data (bufs s b2)).
  { specialize (Hb1 b2 ltac:(done)). unfold body in Hb1. by injection Hb1. }
  destruct E as [E1 E2].
  destruct (brelse_pool me d0 Hd0 s1 L1 pins [b2] [] b2 Hp1) as (s2 & L2 & Hr2 & Hp2 & Hc2 & Hd2 & Hw2 & _).
  { done. }
  { by rewrite E1, E2, Hd1. }
  exists s1, s2, L2. split_and!; try done.
  - by eapply (wrote_trans _ s1 _ [] []); apply wrote_nil.
  - intros n. by rewrite Hc2, Hc1.
Qed.

(** The log block on disk is what its clean buffer holds. *)
Lemma held_clean s2 s L pins b n :
  pool s L pins [] → wrote s s2 [] → n ∉ pins → b_data (bufs s2 b) = content s n →
  b_blockno (bufs s2 b) = n → b_data (bufs s2 b) = disk s2 d0 (b_blockno (bufs s2 b)).
Proof.
  intros Hp [_ Hd] Hn Hdata En. rewrite En, Hdata, Hd. eapply pool_content; [done | exact Hp | done |].
  by intros b' _ ?%elem_of_nil.
Qed.

(** ** The log's own data *)

(** A transaction that fits: its home blocks are distinct and outside the log. *)
Record log_fit (l : log) : Prop := {
  lf_dev : l_dev l = d0;
  lf_n : 0 ≤ lh_n l < NBUF;
  lf_size : lh_n l < l_size l;
  lf_start : 0 ≤ l_start l ∧ l_start l + l_size l < 2 ^ 31;
  lf_home i : 0 ≤ i < lh_n l → 0 ≤ lh_block l i < 2 ^ 31 ∧
    (lh_block l i < l_start l ∨ l_start l + l_size l ≤ lh_block l i);
  lf_inj i j : 0 ≤ i < lh_n l → 0 ≤ j < lh_n l → lh_block l i = lh_block l j → i = j;
}.

(** Home blocks [i], [i+1], ... of the transaction. *)
Definition homes (l : log) (i : Z) : list Z := lh_block l <$> seqZ i (lh_n l - i).

Lemma elem_of_homes l i b :
  b ∈ homes l i ↔ ∃ j, i ≤ j < lh_n l ∧ b = lh_block l j.
Proof.
  unfold homes. rewrite list_elem_of_fmap. setoid_rewrite elem_of_seqZ.
  split; intros (j & H1 & H2); exists j; split; done || lia.
Qed.

Lemma length_homes l i : 0 ≤ i ≤ lh_n l → Z.of_nat (length (homes l i)) = lh_n l - i.
Proof. intros. unfold homes. rewrite length_fmap, length_seqZ. lia. Qed.

Lemma homes_S l i : 0 ≤ i < lh_n l → homes l i = lh_block l i :: homes l (i + 1).
Proof.
  intros Hi. unfold homes. rewrite (seqZ_cons i) by lia. cbn. rewrite Z.add_1_r.
  by replace (Z.pred (lh_n l - i)) with (lh_n l - Z.succ i) by lia.
Qed.

Lemma log_block_not_home l i j :
  log_fit l → 0 ≤ i ≤ lh_n l → l_start l + i ∉ homes l j ∨ j < 0.
Proof.
  intros Hf Hi. destruct (Z.lt_ge_cases j 0); [by right|]. left. intros (k & Hk & E)%elem_of_homes.
  destruct (lf_home _ Hf k) as [_ H']; [lia|]. pose proof (lf_size _ Hf). lia.
Qed.

(** ** write_log *)

(** What [write_log] writes. *)
Definition log_writes (l : log) (c : Z → block) (i : Z) : list (Z * Z * block) :=
  (λ i, (d0, l_start l + i + 1, c (lh_block l i))) <$> seqZ i (lh_n l - i).

Lemma log_writes_S l c i :
  0 ≤ i < lh_n l →
  log_writes l c i = (d0, l_start l + i + 1, c (lh_block l i)) :: log_writes l c (i + 1).
Proof.
  intros Hi. unfold log_writes. rewrite (seqZ_cons i) by lia. cbn. rewrite Z.add_1_r.
  by replace (Z.pred (lh_n l - i)) with (lh_n l - Z.succ i) by lia.
Qed.

(** The body of the loop of [write_log]: a pinned block is copied to a log block. *)
Lemma write_log_step {C} (rest : LM C) s L l pins nt nf :
  pool s L pins [] → nt ∉ pins → nf ∈ pins → Z.of_nat (length pins) < NBUF →
  ∃ s' L',
    (to ← in_bc (bread me d0 nt); from ← in_bc (bread me d0 nf);
     in_bc (copy_data from to);; in_bc (bwrite me to);;
     in_bc (brelse me from);; in_bc (brelse me to);; rest) (mkLstate s l) = rest (mkLstate s' l) ∧
    pool s' L' pins [] ∧ wrote s s' [(d0, nt, content s nf)] ∧
    (∀ n, content s' n = if decide (n = nt) then content s nf else content s n).
Proof.
  intros Hp Hnt Hnf Hlen.
  destruct (read_two s L pins nt nf) as (bt & bf & s1 & s2 & R1 & R2 & Hp2 & Hne & Hw2 & Hc2 & B1 & B2 & B3 & B4);
    [done | intros E; by rewrite E in Hnt | lia | by left |].
  run_bc R1. run_bc R2.
  destruct (copy_write s2 L pins bf bt) as (s3 & s4 & R3 & R4 & Hp4 & Hw4 & Hc4 & C1 & C2 & C3);
    [eapply pool_perm; [done | apply Permutation_swap | exact Hp2] | done |].
  run_bc R3. run_bc R4.
  destruct (release_two s4 L pins [bt; bf] bf bt) as (s5 & s6 & L' & R5 & R6 & Hp6 & Hw6 & Hc6);
    [done | done | done | left; by rewrite C1, B3 | |].
  { right. rewrite C2, C3, B1, B4. destruct Hw4 as [_ ->]. cbn. unfold disk_set.
    by rewrite B1, B4, decide_True. }
  run_bc R5. run_bc R6. rewrite B1, B4 in *. exists s6, L'. split_and!; [done..| |].
  - eapply (wrote_trans _ s2 _ [] _ Hw2). eapply (wrote_trans _ s4 _ _ [] Hw4 Hw6).
  - intros n. rewrite Hc6, Hc4. destruct (decide _); [done | apply Hc2].
Qed.

Lemma write_log_loop_ok l k : ∀ tail s L,
  log_fit l → pool s L (homes l 0) [] → 0 ≤ tail → tail + Z.of_nat k = lh_n l →
  ∃ s' L', write_log_loop me k tail (mkLstate s l) = Ok (tt, mkLstate s' l) ∧
    pool s' L' (homes l 0) [] ∧ wrote s s' (log_writes l (content s) tail) ∧
    (∀ n, content s' n =
       if decide (l_start l + tail < n ≤ l_start l + lh_n l)
       then content s (lh_block l (n - l_start l - 1)) else content s n).
Proof.
  induction k as [|k IH]; intros tail s L Hf Hp Ht Hk.
  { exists s, L. split_and!; [done.. | |].
    - unfold log_writes. rewrite seqZ_nil by lia. by apply wrote_nil.
    - intros n. rewrite decide_False by lia. done. }
  cbn [write_log_loop]. unfold lget. rewrite bind_gets. cbn [id l_log].
  pose proof (lf_n _ Hf) as Hn. destruct (lf_home _ Hf tail) as [Hr Hout]; [lia|].
  pose proof (length_homes l 0 ltac:(lia)) as Hlen. rewrite (lf_dev _ Hf), u32_small by lia.
  assert (Hlog : ∀ j, 0 ≤ j < lh_n l → l_start l + tail + 1 ≠ lh_block l j).
  { intros j Hj. destruct (lf_home _ Hf j Hj) as [_ ?]. pose proof (lf_size _ Hf). lia. }
  destruct (write_log_step (write_log_loop me k (tail + 1)) s L l (homes l 0)
    (l_start l + tail + 1) (lh_block l tail) Hp) as (s1 & L1 & -> & Hp1 & Hw1 & Hc1).
  { intros (j & Hj & E)%elem_of_homes. by apply (Hlog j) in E. }
  { apply elem_of_homes. exists tail. split; [lia | done]. }
  { lia. }
  destruct (IH (tail + 1) s1 L1 Hf Hp1) as (s' & L' & Hrun & Hp' & Hw' & Hc'); [lia..|].
  exists s', L'. split_and!; [done..| |].
  - rewrite log_writes_S by lia. eapply (wrote_trans _ s1 _ [_]); [done|].
    replace (log_writes l (content s) (tail + 1)) with (log_writes l (content s1) (tail + 1)); [done|].
    apply list_fmap_ext. intros i j Hj. apply lookup_seqZ in Hj as [-> Hj]. f_equal.
    rewrite Hc1, decide_False; [done|]. intros E. symmetry in E. apply Hlog in E; lia.
  - intros n. rewrite Hc'. destruct (decide (l_start l + (tail + 1) < n ≤ _)).
    + rewrite decide_True by lia. rewrite Hc1, decide_False; [done|].
      intros E. symmetry in E. apply Hlog in E; lia.
    + rewrite Hc1. destruct (decide (n = _)) as [->|].
      * rewrite decide_True by lia. do 2 f_equal. lia.
      * by rewrite decide_False by lia.
Qed.

Lemma write_log_ok l s L :
  log_fit l → pool s L (homes l 0) [] →
  ∃ s' L', write_log me (mkLstate s l) = Ok (tt, mkLstate s' l) ∧
    pool s' L' (homes l 0) [] ∧ wrote s s' (log_writes l (content s) 0) ∧
    (∀ n, content s' n = if decide (l_start l < n ≤ l_start l + lh_n l)
       then content s (lh_block l (n - l_start l - 1)) else content s n).
Proof.
  intros Hf Hp. pose proof (lf_n _ Hf). unfold write_log, lget. rewrite bind_gets. cbn [l_log].
  destruct (write_log_loop_ok l (Z.to_nat (lh_n l)) 0 s L Hf Hp) as (s' & L' & H1 & H2 & H3 & H4); [lia..|].
  rewrite Z.add_0_r in H4. eauto 10.
Qed.

(** ** install_trans *)

(** What [install_trans] writes. *)
Definition home_writes (l : log) (c : Z → block) (i : Z) : list (Z * Z * block) :=
  (λ i, (d0, lh_block l i, c (l_start l + i + 1))) <$> seqZ i (lh_n l - i).

Lemma home_writes_S l c i :
  0 ≤ i < lh_n l →
  home_writes l c i = (d0, lh_block l i, c (l_start l + i + 1)) :: home_writes l c (i + 1).
Proof.
  intros Hi. unfold home_writes. rewrite (seqZ_cons i) by lia. cbn. rewrite Z.add_1_r.
  by replace (Z.pred (lh_n l - i)) with (lh_n l - Z.succ i) by lia.
Qed.

(** The blocks pinned when [install_trans] has reached block [i]: recovery pins none. *)
Definition pinned (recovering : bool) (l : log) (i : Z) : list Z :=
  if recovering then [] else homes l i.

Lemma install_step {C} (rest : LM C) s L l r pins pins' nf nt :
  pool s L pins [] → nf ∉ pins → nf ≠ nt →
  (if (r : bool) then pins = [] ∧ pins' = [] else pins = nt :: pins' ∧ nt ∉ pins') →
  Z.of_nat (length pins) < NBUF →
  ∃ s' L',
    (lbuf ← in_bc (bread me d0 nf); dbuf ← in_bc (bread me d0 nt);
     in_bc (copy_data lbuf dbuf);; in_bc (bwrite me dbuf);;
     (if negb r then in_bc (bunpin dbuf) else mret tt);;
     in_bc (brelse me lbuf);; in_bc (brelse me dbuf);; rest) (mkLstate s l) = rest (mkLstate s' l) ∧
    pool s' L' pins' [] ∧ wrote s s' [(d0, nt, content s nf)] ∧
    (∀ n, content s' n = if decide (n = nt) then content s nf else content s n).
Proof.
  intros Hp Hnf Hne Hpins Hlen.
  destruct (read_two s L pins nf nt) as (bf & bt & s1 & s2 & R1 & R2 & Hp2 & Hbne & Hw2 & Hc2 & B1 & B2 & B3 & B4);
    [done | done | lia | destruct r, Hpins as [-> ?]; [by right | left; by constructor] |].
  run_bc R1. run_bc R2.
  assert (Hclean : b_data (bufs s2 bf) = disk s2 d0 (b_blockno (bufs s2 bf))) by (by eapply held_clean).
  destruct (copy_write s2 L pins bf bt) as (s3 & s4 & R3 & R4 & Hp4 & Hw4 & Hc4 & C1 & C2 & C3); [done..|].
  run_bc R3. run_bc R4. rewrite B3, B2 in *.
  assert (Hu : ∃ s5, (if negb r then in_bc (bunpin bt) else mret tt) (mkLstate s4 l) = Ok (tt, mkLstate s5 l) ∧
    pool s5 L pins' [bt; bf] ∧ wrote s4 s5 [] ∧ (∀ n, content s5 n = content s4 n) ∧
    bufs s5 bf = bufs s4 bf ∧ b_blockno (bufs s5 bt) = nt ∧ b_data (bufs s5 bt) = b_data (bufs s4 bt)).
  { destruct r, Hpins as [-> Hp'].
    - subst pins'. exists s4. split_and!; try done. by apply wrote_nil.
    - destruct (bunpin_pool me d0 Hd0 s4 L (nt :: pins') pins' [bt; bf] bt) as (s5 & R5 & Hp5 & Hc5 & Hd5 & Hw5 & Ch);
        [done | constructor | rewrite C2; intros n; apply elem_of_cons | by rewrite C2 |].
      exists s5. split_and!; [by apply (in_bc_run _ (mkLstate _ _)) | done | by apply wrote_nil | done |..].
      + by apply Ch.
      + by rewrite (c_at _ _ _ _ Ch).
      + by rewrite (c_at _ _ _ _ Ch). }
  destruct Hu as (s5 & R5 & Hp5 & Hw5 & Hc5 & D1 & D2 & D3). rewrite (bind_ok _ _ _ _ _ R5).
  destruct (release_two s5 L pins' [bt; bf] bf bt) as (s6 & s7 & L' & R6 & R7 & Hp7 & Hw7 & Hc7); [done..| | |].
  - right. rewrite D1, C1. destruct Hw5 as [_ ->], Hw4 as [_ ->]. cbn. rewrite B1 in *. unfold disk_set.
    rewrite decide_False by (by intros [_ ?]). congruence.
  - right. rewrite D3, D2, C3. destruct Hw5 as [_ ->], Hw4 as [_ ->]. cbn. unfold disk_set. by rewrite decide_True.
  - run_bc R6. run_bc R7. exists s7, L'. split_and!; [done..| |].
    + eapply (wrote_trans _ s2 _ [] _ Hw2). eapply (wrote_trans _ s4 _ _ [] Hw4).
      by eapply (wrote_trans _ s5 _ [] []).
    + intros n. rewrite Hc7, Hc5, Hc4. destruct (decide _); [done | apply Hc2].
Qed.

Lemma install_loop_ok l r k : ∀ tail s L,
  log_fit l → pool s L (pinned r l tail) [] → 0 ≤ tail → tail + Z.of_nat k = lh_n l →
  ∃ s' L', install_loop me k tail r (mkLstate s l) = Ok (tt, mkLstate s' l) ∧
    pool s' L' [] [] ∧ wrote s s' (home_writes l (content s) tail) ∧
    (∀ i, tail ≤ i < lh_n l → content s' (lh_block l i) = content s (l_start l + i + 1)) ∧
    (∀ n, n ∉ homes l tail → content s' n = content s n).
Proof.
  induction k as [|k IH]; intros tail s L Hf Hp Ht Hk.
  { assert (E : homes l tail = []) by (unfold homes; by rewrite seqZ_nil by lia).
    exists s, L. split; [done|]. split_and!.
    - destruct r; [done|]. unfold pinned in Hp. by rewrite E in Hp.
    - unfold home_writes. rewrite seqZ_nil by lia. by apply wrote_nil.
    - intros i Hi. lia.
    - done. }
  cbn [install_loop]. unfold lget. rewrite bind_gets. cbn [id l_log].
  pose proof (lf_n _ Hf) as Hn. destruct (lf_home _ Hf tail) as [Hr Hout]; [lia|].
  pose proof (length_homes l tail ltac:(lia)) as Hlen. rewrite (lf_dev _ Hf), u32_small by lia.
  assert (Hlog : ∀ i j, tail ≤ i < lh_n l → 0 ≤ j < lh_n l → l_start l + i + 1 ≠ lh_block l j).
  { intros i j Hi Hj. destruct (lf_home _ Hf j Hj) as [_ ?]. pose proof (lf_size _ Hf). lia. }
  destruct (install_step (install_loop me k (tail + 1) r) s L l r (pinned r l tail) (pinned r l (tail + 1))
    (l_start l + tail + 1) (lh_block l tail) Hp) as (s1 & L1 & -> & Hp1 & Hw1 & Hc1).
  { destruct r; [by intros ?%elem_of_nil|]. intros (j & Hj & E)%elem_of_homes. apply Hlog in E; lia. }
  { apply Hlog; lia. }
  { destruct r; [done|]. split; [apply homes_S; lia|]. intros (j & Hj & E)%elem_of_homes. apply (lf_inj _ Hf) in E; lia. }
  { destruct r; cbn [pinned length]; lia. }
  destruct (IH (tail + 1) s1 L1 Hf Hp1) as (s' & L' & Hrun & Hp' & Hw' & Hin & Hother); [lia..|].
  assert (Hc : ∀ i, tail ≤ i < lh_n l → content s1 (l_start l + i + 1) = content s (l_start l + i + 1)).
  { intros i Hi. rewrite Hc1, decide_False; [done|]. apply Hlog; lia. }
  exists s', L'. split_and!; [done..| | |].
  - rewrite home_writes_S by lia. eapply (wrote_trans _ s1 _ [_]); [done|].
    replace (home_writes l (content s) (tail + 1)) with (home_writes l (content s1) (tail + 1)); [done|].
    apply list_fmap_ext. intros i j Hj. apply lookup_seqZ in Hj as [-> Hj]. f_equal. apply Hc. lia.
  - intros i Hi. destruct (decide (i = tail)) as [->|]; [|rewrite Hin by lia; apply Hc; lia].
    rewrite Hother, Hc1, decide_True; [done..|]. intros (j & Hj & E)%elem_of_homes. apply (lf_inj _ Hf) in E; lia.
  - intros n Hnh. rewrite homes_S, not_elem_of_cons in Hnh by lia. destruct Hnh as [H1 H2].
    by rewrite Hother, Hc1, decide_False.
Qed.

Lemma install_trans_ok l r s L :
  log_fit l → pool s L (pinned r l 0) [] →
  ∃ s' L', install_trans me r (mkLstate s l) = Ok (tt, mkLstate s' l) ∧
    pool s' L' [] [] ∧ wrote s s' (home_writes l (content s) 0) ∧
    (∀ i, 0 ≤ i < lh_n l → content s' (lh_block l i) = content s (l_start l + i + 1)) ∧
    (∀ n, n ∉ homes l 0 → content s' n = content s n).
Proof.
  intros Hf Hp. pose proof (lf_n _ Hf). unfold install_trans, lget. rewrite bind_gets. cbn [l_log].
  apply (install_loop_ok l r _ 0 s L Hf Hp); lia.
Qed.

(** ** The header block *)

(** The block [write_head] writes over [d]. *)
Definition header (l : log) (d : block) : block :=
  put_blocks (Z.to_nat (lh_n l)) 0 (lh_block l) (st32 d 0 (lh_n l)).

Lemma put_blocks_n k : ∀ i f d, 0 ≤ i → hdr_n (put_blocks k i f d) = hdr_n d.
Proof.
  induction k as [|k IH]; intros i f d Hi; [done|]. cbn [put_blocks]. rewrite IH by lia.
  unfold hdr_n. by rewrite ld32_st32_ne by lia.
Qed.

Lemma put_blocks_block k : ∀ i f d j,
  0 ≤ i → 0 ≤ j →
  hdr_block (put_blocks k i f d) j =
  if decide (i ≤ j < i + Z.of_nat k) then i32 (u32 (f j)) else hdr_block d j.
Proof.
  induction k as [|k IH]; intros i f d j Hi Hj; [by rewrite decide_False by lia|].
  cbn [put_blocks]. rewrite IH by lia. unfold hdr_block. destruct (decide (i = j)) as [->|].
  - rewrite decide_False, decide_True by lia. by rewrite ld32_st32_eq.
  - rewrite ld32_st32_ne by lia. by repeat case_decide; lia || done.
Qed.

Lemma header_n l d : 0 ≤ lh_n l < 2 ^ 31 → hdr_n (header l d) = lh_n l.
Proof.
  intros Hn. unfold header. rewrite put_blocks_n by lia. unfold hdr_n.
  by rewrite ld32_st32_eq, u32_small, i32_small by lia.
Qed.

Lemma header_block l d i :
  0 ≤ i < lh_n l → 0 ≤ lh_block l i < 2 ^ 31 → hdr_block (header l d) i = lh_block l i.
Proof.
  intros Hi Hb. unfold header. rewrite put_blocks_block, decide_True by lia.
  by rewrite u32_small, i32_small by lia.
Qed.

Lemma write_head_ok l s L pins :
  l_dev l = d0 → pool s L pins [] → l_start l ∉ pins → Z.of_nat (length pins) < NBUF →
  ∃ s' L', write_head me (mkLstate s l) = Ok (tt, mkLstate s' l) ∧ pool s' L' pins [] ∧
    wrote s s' [(d0, l_start l, header l (content s (l_start l)))] ∧
    (∀ n, content s' n = if decide (n = l_start l) then header l (content s (l_start l)) else content s n).
Proof.
  intros Hdev Hp Hn Hlen. unfold write_head, lget. rewrite bind_gets. cbn [id l_log]. rewrite Hdev.
  destruct (bread_pool me d0 Hd0 s L pins [] (l_start l) Hp) as (b & s1 & R1 & Ho & Hp1 & _).
  { by intros b _ ?%elem_of_nil. }
  { left. cbn. lia. }
  destruct (is_block_eq _ _ _ (ro_block _ _ _ _ _ _ _ Ho)) as [Ed En]. run_bc R1.
  assert (Hw1 : wrote s s1 []) by (apply wrote_nil; apply Ho).
  pose proof (ro_data _ _ _ _ _ _ _ Ho) as Hdata.
  destruct (set_data_pool me d0 Hd0 s1 L pins [b] b (header l (b_data (bufs s1 b))) Hp1)
    as (s2 & R2 & Hp2 & Ch & Hc2); [constructor|].
  assert (R2' : (d ← rd b b_data; upd b (set_data (header l d))) s1 = Ok (tt, s2)) by exact R2.
  run_bc R2'. destruct (bwrite_pool me d0 Hd0 s2 L pins [b] b Hp2) as (s3 & R3 & Hp3 & Hb3 & Hd3 & Hw3 & Hc3);
    [constructor|].
  rewrite (c_at _ _ _ _ Ch) in *. cbn [b_blockno b_data set_data] in *. rewrite En, Hdata in *.
  run_bc R3. destruct (brelse_pool me d0 Hd0 s3 L pins [b] [] b Hp3) as (s4 & L' & R4 & Hp4 & Hc4 & Hd4 & Hw4 & _); [done| |].
  { right. rewrite Hb3, (c_at _ _ _ _ Ch), Hd3. cbn. rewrite En. unfold disk_set. by rewrite decide_True. }
  rewrite (in_bc_run _ (mkLstate _ _) _ _ R4). exists s4, L'. split_and!; [done..| |].
  - eapply (wrote_trans _ s1 _ [] _ Hw1). split.
    + by rewrite Hw4, Hw3, (c_writes _ _ _ _ Ch).
    + rewrite Hd4, Hd3, (c_disk _ _ _ _ Ch). done.
  - intros n. rewrite Hc4, Hc3, Hc2. destruct (decide _); [done | by apply Ho].
Qed.

Lemma read_head_loop_ok k : ∀ i d s l,
  ∃ l', read_head_loop k i d (mkLstate s l) = Ok (tt, mkLstate s l') ∧
    l_start l' = l_start l ∧ l_size l' = l_size l ∧ l_dev l' = l_dev l ∧ lh_n l' = lh_n l ∧
    l_outstanding l' = l_outstanding l ∧ l_committing l' = l_committing l ∧
    (∀ j, lh_block l' j = if decide (i ≤ j < i + Z.of_nat k) then hdr_block d j else lh_block l j).
Proof.
  induction k as [|k IH]; intros i d s l.
  { exists l. split_and!; try done. intros j. by rewrite decide_False by lia. }
  cbn [read_head_loop]. unfold lset. rewrite bind_modify. cbn [l_bc l_log].
  destruct (IH (i + 1) d s (set_block i (hdr_block d i) l)) as (l' & -> & H1 & H2 & H3 & H4 & H5 & H6 & Hb).
  exists l'. split_and!; try done. intros j. rewrite Hb. cbn. destruct (decide (i = j)) as [->|].
  - rewrite decide_False, decide_True by lia. by rewrite fn_lookup_insert.
  - rewrite fn_lookup_insert_ne by done. by repeat case_decide; lia || done.
Qed.

Lemma read_head_ok l s L :
  l_dev l = d0 → pool s L [] [] →
  let d := content s (l_start l) in
  ∃ s' L' l', read_head me (mkLstate s l) = Ok (tt, mkLstate s' l') ∧ pool s' L' [] [] ∧
    wrote s s' [] ∧ (∀ n, content s' n = content s n) ∧
    l_start l' = l_start l ∧ l_size l' = l_size l ∧ l_dev l' = l_dev l ∧ lh_n l' = hdr_n d ∧
    l_outstanding l' = l_outstanding l ∧ l_committing l' = l_committing l ∧
    (∀ j, 0 ≤ j < hdr_n d → lh_block l' j = hdr_block d j).
Proof.
  intros Hdev Hp d. unfold read_head, lget. rewrite bind_gets. cbn [id l_log]. rewrite Hdev.
  destruct (bread_pool me d0 Hd0 s L [] [] (l_start l) Hp) as (b & s1 & R1 & Ho & Hp1 & _).
  { by intros b _ ?%elem_of_nil. }
  { by left. }
  destruct (is_block_eq _ _ _ (ro_block _ _ _ _ _ _ _ Ho)) as [Ed En]. run_bc R1.
  pose proof (ro_data _ _ _ _ _ _ _ Ho) as Hdata. fold d in Hdata.
  assert (R2 : rd b b_data s1 = Ok (d, s1)) by (unfold rd, gets; by rewrite Hdata).
  run_bc R2. unfold lset at 1. rewrite bind_modify. cbn [l_bc l_log].
  destruct (read_head_loop_ok (Z.to_nat (hdr_n d)) 0 d s1 (set_n (hdr_n d) l))
    as (l' & Hl & H1 & H2 & H3 & H4 & H5 & H6 & Hb). rewrite (bind_ok _ _ _ _ _ Hl).
  assert (Hcl : b_data (bufs s1 b) = disk s1 d0 (b_blockno (bufs s1 b))).
  { eapply (held_clean s1 s L []); [done | | by intros ?%elem_of_nil | exact Hdata | done].
    apply wrote_nil; apply Ho. }
  destruct (brelse_pool me d0 Hd0 s1 L [] [b] [] b Hp1) as (s2 & L' & R3 & Hp3 & Hc3 & Hd3 & Hw3 & _); [done | by right |].
  rewrite (in_bc_run _ (mkLstate _ _) _ _ R3). exists s2, L', l'. split_and!; [done | done | | | first [done | by rewrite H3]..|].
  - eapply (wrote_trans _ s1 _ [] []); apply wrote_nil; done || apply Ho.
  - intros n. rewrite Hc3. by apply Ho.
  - intros j Hj. rewrite Hb. by rewrite decide_True by lia.
Qed.

(** ** commit and recovery *)

(** The writes of a [commit] of the contents [c], over a header block [d]. *)
Definition commit_writes (l : log) (c : Z → block) (d : block) : list (Z * Z * block) :=
  log_writes l c 0 ++ (d0, l_start l, header l d) ::
  ((λ b, (d0, b, c b)) <$> homes l 0) ++ [(d0, l_start l, header (set_n 0 l) (header l d))].

Lemma commit_ok l s L :
  log_fit l → 0 < lh_n l → pool s L (homes l 0) [] →
  ∃ s' L', commit me (mkLstate s l) = Ok (tt, mkLstate s' (set_n 0 l)) ∧ pool s' L' [] [] ∧
    wrote s s' (commit_writes l (content s) (disk s d0 (l_start l))) ∧
    (∀ n, n < l_start l ∨ l_start l + l_size l ≤ n → content s' n = content s n).
Proof.
  intros Hf Hn Hp. unfold commit, lget. rewrite bind_gets. cbn [l_log].
  destruct (Z.ltb_spec 0 (lh_n l)) as [_|]; [|lia].
  pose proof (lf_n _ Hf) as HN. pose proof (lf_size _ Hf) as Hsz. pose proof (lf_dev _ Hf) as Hdev.
  assert (Hst : ∀ i, 0 ≤ i ≤ lh_n l → l_start l + i ∉ homes l 0).
  { intros i Hi. destruct (log_block_not_home l i 0 Hf Hi); [done | lia]. }
  assert (Hs0 : l_start l ∉ homes l 0) by (rewrite <- (Z.add_0_r (l_start l)); apply Hst; lia).
  destruct (write_log_ok l s L Hf Hp) as (s1 & L1 & R1 & Hp1 & Hw1 & Hc1). rewrite (bind_ok _ _ _ _ _ R1).
  destruct (write_head_ok l s1 L1 (homes l 0) Hdev Hp1 Hs0) as (s2 & L2 & R2 & Hp2 & Hw2 & Hc2).
  { rewrite length_homes; lia. }
  rewrite (bind_ok _ _ _ _ _ R2). destruct (install_trans_ok l false s2 L2 Hf Hp2) as (s3 & L3 & R3 & Hp3 & Hw3 & Hin & Hot).
  rewrite (bind_ok _ _ _ _ _ R3). unfold lset. rewrite bind_modify. cbn [l_bc l_log].
  destruct (write_head_ok (set_n 0 l) s3 L3 [] Hdev Hp3) as (s4 & L4 & R4 & Hp4 & Hw4 & Hc4);
    [by intros ?%elem_of_nil | done |].
  exists s4, L4. split; [exact R4|]. clear R1 R2 R3 R4. cbn [l_start set_n] in *.
  assert (Hh : content s1 (l_start l) = disk s d0 (l_start l)).
  { rewrite Hc1, decide_False by lia. eapply pool_content; [done | exact Hp | done |]. by intros b _ ?%elem_of_nil. }
  assert (Hlog : ∀ i, 0 ≤ i < lh_n l → content s2 (l_start l + i + 1) = content s (lh_block l i)).
  { intros i Hi. rewrite Hc2, decide_False, Hc1, decide_True by lia. do 2 f_equal. lia. }
  split_and!; [done| |].
  - unfold commit_writes. eapply wrote_trans; [exact Hw1|]. rewrite Hh in Hw2.
    eapply (wrote_trans _ _ _ [_]); [exact Hw2|]. rewrite Hot, Hc2, decide_True, Hh in Hw4 by done.
    eapply wrote_trans; [|exact Hw4]. replace (_ <$> homes l 0) with (home_writes l (content s2) 0); [done|].
    unfold homes, home_writes. rewrite <- list_fmap_compose. apply list_fmap_ext.
    intros i j Hj. apply lookup_seqZ in Hj as [-> Hj]. cbn. f_equal. apply Hlog. lia.
  - intros n Hout. rewrite Hc4, decide_False by lia. destruct (decide (n ∈ homes l 0)) as [(i & Hi & ->)%elem_of_homes|Hn'].
    + rewrite Hin by lia. apply Hlog. lia.
    + by rewrite Hot, Hc2, decide_False, Hc1, decide_False by lia || done.
Qed.

(** The writes of recovery: the logged blocks go home, then the header is cleared. *)
Definition recover_writes (l : log) (dk : Z → block) : list (Z * Z * block) :=
  home_writes l dk 0 ++ [(d0, l_start l, header (set_n 0 l) (dk (l_start l)))].

Lemma recover_ok l s L :
  let d := disk s d0 (l_start l) in
  let l1 := mkLog (l_start l) (l_size l) (l_outstanding l) (l_committing l) (l_dev l) (hdr_n d) (hdr_block d) in
  log_fit l1 → pool s L [] [] →
  ∃ s' L' l', recover_from_log me (mkLstate s l) = Ok (tt, mkLstate s' l') ∧ pool s' L' [] [] ∧
    wrote s s' (recover_writes l1 (disk s d0)) ∧
    l_start l' = l_start l ∧ l_size l' = l_size l ∧ l_dev l' = d0 ∧ lh_n l' = 0 ∧
    l_outstanding l' = l_outstanding l ∧ l_committing l' = l_committing l.
Proof.
  intros d l1 Hf Hp. pose proof (lf_n _ Hf) as HN. pose proof (lf_dev _ Hf) as Hdev. cbn in HN, Hdev.
  assert (Hcont : ∀ n, content s n = disk s d0 n).
  { intros n. eapply pool_content; [done | exact Hp | by intros ?%elem_of_nil | by intros ? _ ?%elem_of_nil]. }
  unfold recover_from_log.
  destruct (read_head_ok l s L Hdev Hp) as (s1 & L1 & l' & R1 & Hp1 & Hw1 & Hc1 & E1 & E2 & E3 & E4 & E5 & E6 & E7).
  rewrite Hcont in *. fold d in E4, E7. rewrite (bind_ok _ _ _ _ _ R1).
  assert (Hf' : log_fit l').
  { destruct Hf as [F1 F2 F3 F4 F5 F6]. cbn in *.
    split; rewrite ?E1, ?E2, ?E3, ?E4; try done.
    - intros i Hi. rewrite E7 by done. auto.
    - intros i j Hi Hj. rewrite !E7 by done. auto. }
  destruct (install_trans_ok l' true s1 L1 Hf' Hp1) as (s2 & L2 & R2 & Hp2 & Hw2 & _ & Hot).
  rewrite (bind_ok _ _ _ _ _ R2). unfold lset. rewrite bind_modify. cbn [l_bc l_log].
  destruct (write_head_ok (set_n 0 l') s2 L2 []) as (s3 & L3 & R3 & Hp3 & Hw3 & _);
    [cbn; congruence | done | by intros ?%elem_of_nil | done |].
  exists s3, L3, (set_n 0 l'). split; [exact R3|]. clear R1 R2 R3. cbn [l_start set_n] in *.
  split_and!; [done | | cbn; congruence..]. eapply (wrote_trans _ s1 _ [] _ Hw1).
  unfold recover_writes. eapply wrote_trans; [|].
  - replace (home_writes l1 _ 0) with (home_writes l' (content s1) 0); [exact Hw2|].
    unfold home_writes. rewrite E1, E4. cbn. apply list_fmap_ext. intros i j Hj. apply lookup_seqZ in Hj as [-> Hj].
    by rewrite E7, Hc1, Hcont by lia.
  - cbn [l_start l1]. rewrite Hot, Hc1, E1, Hcont in Hw3; [exact Hw3|].
    destruct (log_block_not_home l' 0 0 Hf') as [H|H]; [|by rewrite Z.add_0_r in H|lia]. rewrite E4. lia.
Qed.

End proofs.
