(* ===== verification/LogCrash.v ===== *)
(** * LogCrash: transactions are atomic across crashes (src/kernel/log.c)

    A crash keeps the disk as the writes so far left it and loses everything else.
    [logical] is the file system a disk stands for: blocks listed in the log header are
    read from the log.  The theorems follow [logical] through every prefix of the writes
    of a commit and of recovery. *)

From stdpp Require Import functions.
From S2P Require Import Prelude Mem Layout FsFormat Bio BioPool Log.

Local Open Scope Z_scope.

(** ** The file system a disk stands for *)

(** Contents of block [b] once the log at [start] is installed. *)
Definition logical (start : Z) (dk : Z → block) (b : Z) : block :=
  let h := dk start in
  let i := absorb (Z.to_nat (hdr_n h)) 0 (hdr_block h) b in
  if i <? hdr_n h then dk (start + i + 1) else dk b.

(** The log in memory that the header on disk describes. *)
Definition disk_log (dev start size : Z) (dk : Z → block) : log :=
  mkLog start size 0 false dev (hdr_n (dk start)) (hdr_block (dk start)).

Definition outside (start size b : Z) : Prop := b < start ∨ start + size ≤ b.

Lemma absorb_spec k : ∀ i f b,
  let j := absorb k i f b in
  i ≤ j ≤ i + Z.of_nat k ∧ (j < i + Z.of_nat k → f j = b) ∧ (∀ m, i ≤ m < j → f m ≠ b).
Proof.
  induction k as [|k IH]; intros i f b; cbn [absorb]; [split_and!; lia|].
  destruct (Z.eqb_spec (f i) b); [split_and!; lia || done|].
  destruct (IH (i + 1) f b) as (H1 & H2 & H3). split_and!; [lia | lia | intros; apply H2; lia |].
  intros m Hm. destruct (decide (m = i)) as [->|]; [done | apply H3; lia].
Qed.

Lemma logical_other start dk b :
  (∀ i, 0 ≤ i < hdr_n (dk start) → hdr_block (dk start) i ≠ b) → logical start dk b = dk b.
Proof.
  intros H. unfold logical. destruct (Z.ltb_spec (absorb (Z.to_nat (hdr_n (dk start))) 0 (hdr_block (dk start)) b)
    (hdr_n (dk start))) as [Hlt|]; [|done].
  destruct (absorb_spec (Z.to_nat (hdr_n (dk start))) 0 (hdr_block (dk start)) b) as (H1 & H2 & _).
  exfalso. eapply H; [|apply H2]; lia.
Qed.

Lemma logical_home dev start size dk i :
  log_fit dev (disk_log dev start size dk) → 0 ≤ i < hdr_n (dk start) →
  logical start dk (hdr_block (dk start) i) = dk (start + i + 1).
Proof.
  intros Hf Hi. unfold logical. set (b := hdr_block _ i).
  destruct (absorb_spec (Z.to_nat (hdr_n (dk start))) 0 (hdr_block (dk start)) b) as (H1 & H2 & H3).
  destruct (Z.le_gt_cases (absorb (Z.to_nat (hdr_n (dk start))) 0 (hdr_block (dk start)) b) i) as [Hle|Hgt].
  - assert (E : absorb (Z.to_nat (hdr_n (dk start))) 0 (hdr_block (dk start)) b = i).
    { apply (lf_inj _ _ Hf); cbn; [lia.. | apply H2; lia]. }
    rewrite E. by destruct (Z.ltb_spec i (hdr_n (dk start))); [|lia].
  - by destruct (H3 i ltac:(lia)).
Qed.

(** ** Sequences of writes *)

Lemma apply_writes_other ws : ∀ f d n,
  (∀ v, (d, n, v) ∉ ws) → apply_writes f ws d n = f d n.
Proof.
  induction ws as [|[[d' n'] v'] ws IH]; intros f d n H; [done|]. cbn. fold (apply_writes (disk_set f d' n' v') ws).
  rewrite IH by (intros v Hv; apply (H v); by right). unfold disk_set. rewrite decide_False; [done|].
  intros [-> ->]. apply (H v'). left.
Qed.

Lemma apply_writes_at {A} (xs : list A) dev (g : A → Z) (v : A → block) : ∀ f x,
  x ∈ xs → (∀ y, y ∈ xs → g y = g x → y = x) →
  apply_writes f ((λ x, (dev, g x, v x)) <$> xs) dev (g x) = v x.
Proof.
  induction xs as [|a xs IH]; intros f x Hx Hinj; [by apply elem_of_nil in Hx|].
  cbn. fold (apply_writes (disk_set f dev (g a) (v a)) ((λ x, (dev, g x, v x)) <$> xs)).
  destruct (decide (Exists (λ y, g y = g x) xs)) as [(y & Hy & E)%Exists_exists|Hn].
  - assert (y = x) as -> by (apply Hinj; [by right | done]). apply IH; [done|].
    intros y Hz. apply Hinj. by right.
  - assert (a = x) as ->.
    { apply elem_of_cons in Hx as [->|Hx]; [done|]. destruct Hn. apply Exists_exists. by exists x. }
    rewrite apply_writes_other; [unfold disk_set; by rewrite decide_True|].
    intros w (y & E & Hy)%list_elem_of_fmap. destruct Hn. apply Exists_exists. exists y. split; [done | by injection E].
Qed.

Lemma take_elem {A} (x : A) j l : x ∈ take j l → x ∈ l.
Proof. rewrite <- (take_drop j l) at 2. rewrite elem_of_app. by left. Qed.

(** A prefix of [A ++ x :: B ++ [y]]. *)
Lemma take_parts {A} j (la : list A) x lb y :
  (take j (la ++ x :: lb ++ [y]) = take j la ∧ (j ≤ length la)%nat) ∨
  (∃ m, take j (la ++ x :: lb ++ [y]) = la ++ x :: take m lb ∧ (length la < j)%nat) ∨
  (take j (la ++ x :: lb ++ [y]) = la ++ x :: lb ++ [y] ∧ (length la < j)%nat).
Proof.
  destruct (decide (j ≤ length la)%nat); [left; by rewrite take_app_le by lia|]. right.
  rewrite take_app, take_ge by lia. destruct (j - length la)%nat as [|m] eqn:E; [lia|]. cbn [take].
  destruct (decide (m ≤ length lb)%nat).
  - left. exists m. rewrite take_app_le by lia. split; [done | lia].
  - right. rewrite (take_ge (lb ++ [y])); [split; [done | lia]|]. rewrite length_app. cbn. lia.
Qed.

Section crash.
  Context (me d0 : Z) (Hd0 : d0 ≠ 0).
  Abbreviation pool := (pool me d0).
  Abbreviation content s := (cur s d0).

(** ** Commit *)

Lemma log_writes_out l c v n :
  (n ≤ l_start l ∨ l_start l + lh_n l < n) → (d0, n, v) ∉ log_writes d0 l c 0.
Proof. intros Hn (i & E & Hi%elem_of_seqZ)%list_elem_of_fmap. injection E as -> ->. lia. Qed.

(** The disk once the header is written and some writes [ws] of home blocks are done. *)
Lemma header_written l dk c d ws :
  log_fit d0 l → (∀ n v, (d0, n, v) ∈ ws → n ∈ homes l 0) →
  let dk' := apply_writes dk (log_writes d0 l c 0 ++ (d0, l_start l, header l d) :: ws) d0 in
  dk' (l_start l) = header l d ∧
  (∀ i, 0 ≤ i < lh_n l → dk' (l_start l + i + 1) = c (lh_block l i)) ∧
  (∀ b, outside (l_start l) (l_size l) b → b ∉ homes l 0 → dk' b = dk d0 b).
Proof.
  intros Hf Hws dk'. pose proof (lf_size _ _ Hf). pose proof (lf_n _ _ Hf).
  assert (E : ∀ n, n ∉ homes l 0 →
    dk' n = disk_set (apply_writes dk (log_writes d0 l c 0)) d0 (l_start l) (header l d) d0 n).
  { intros n Hn. subst dk'. rewrite apply_writes_app. cbn. apply apply_writes_other.
    intros v Hv. by apply Hn, (Hws n v). }
  assert (Hst : ∀ i, 0 ≤ i ≤ lh_n l → l_start l + i ∉ homes l 0).
  { intros i Hi. destruct (log_block_not_home d0 l i 0 Hf Hi); [done | lia]. }
  split_and!.
  - rewrite E by (rewrite <- (Z.add_0_r (l_start l)); apply Hst; lia). unfold disk_set. by rewrite decide_True.
  - intros i Hi. rewrite E by (rewrite <- Z.add_assoc; apply Hst; lia). unfold disk_set. rewrite decide_False by lia.
    apply (apply_writes_at _ d0 (λ i, l_start l + i + 1) (λ i, c (lh_block l i))); [apply elem_of_seqZ; lia|].
    intros y _ ?. lia.
  - intros b Hb Hn. rewrite E by done. unfold disk_set, outside in *. rewrite decide_False by lia.
    apply apply_writes_other. intros v. apply log_writes_out. lia.
Qed.

(** A cleared header: the disk is the file system. *)
Lemma logical_clear start dk b : hdr_n (dk start) = 0 → logical start dk b = dk b.
Proof. intros E. apply logical_other. lia. Qed.

Lemma log_fit_clear start size dk :
  hdr_n (dk start) = 0 → 0 < size → 0 ≤ start → start + size < 2 ^ 31 →
  log_fit d0 (disk_log d0 start size dk).
Proof. intros E Hs H0 H1. split; cbn; rewrite ?E; done || lia || (intros; lia). Qed.

(** With the header of [l] on disk, the file system is the transaction's. *)
Lemma logical_committed l dk (c : Z → block) d b :
  log_fit d0 l → dk (l_start l) = header l d →
  (∀ i, 0 ≤ i < lh_n l → dk (l_start l + i + 1) = c (lh_block l i)) →
  (∀ b, outside (l_start l) (l_size l) b → b ∉ homes l 0 → dk b = c b) →
  log_fit d0 (disk_log d0 (l_start l) (l_size l) dk) ∧
  (outside (l_start l) (l_size l) b → logical (l_start l) dk b = c b).
Proof.
  intros Hf Hh Hlog Hout. pose proof (lf_n _ _ Hf) as HN. change NBUF with 30 in HN.
  assert (En : hdr_n (dk (l_start l)) = lh_n l) by (rewrite Hh; apply header_n; lia).
  assert (Eb : ∀ i, 0 ≤ i < lh_n l → hdr_block (dk (l_start l)) i = lh_block l i).
  { intros i Hi. rewrite Hh. apply header_block; [done | by apply (lf_home _ _ Hf)]. }
  assert (Hfit : log_fit d0 (disk_log d0 (l_start l) (l_size l) dk)).
  { destruct Hf as [F1 F2 F3 F4 F5 F6]. split; cbn; rewrite ?En; try done.
    - intros i Hi. rewrite Eb by done. auto.
    - intros i j Hi Hj. rewrite !Eb by done. auto. }
  split; [done|]. intros Hb. destruct (decide (b ∈ homes l 0)) as [(i & Hi & ->)%elem_of_homes|Hn].
  - rewrite <- (Eb i Hi), (logical_home d0 _ (l_size l)) by (done || lia). by rewrite Hlog, Eb.
  - rewrite logical_other; [by apply Hout|]. intros i Hi. rewrite En in Hi. rewrite Eb by done.
    intros <-. destruct Hn. apply elem_of_homes. by exists i.
Qed.

(** All writes of a commit done. *)
Lemma commit_done l (dk : Z → Z → block) c d :
  log_fit d0 l →
  (∀ b, outside (l_start l) (l_size l) b → b ∉ homes l 0 → dk d0 b = c b) →
  let dk' := apply_writes dk (commit_writes d0 l c d) d0 in
  hdr_n (dk' (l_start l)) = 0 ∧ ∀ b, outside (l_start l) (l_size l) b → dk' b = c b.
Proof.
  intros Hf Hc. pose proof (lf_size _ _ Hf). pose proof (lf_n _ _ Hf). unfold commit_writes.
  rewrite app_comm_cons, app_assoc, apply_writes_app. set (X := apply_writes dk _). cbn. split.
  - unfold disk_set. rewrite decide_True by done. by apply header_n.
  - intros b Hb. unfold disk_set, outside in *. rewrite decide_False by lia.
    destruct (decide (b ∈ homes l 0)) as [Hh|Hh].
    + subst X. rewrite cons_middle, app_assoc, apply_writes_app.
      apply (apply_writes_at _ d0 id c); [done | by intros y _ ?].
    + destruct (header_written l dk c d ((λ b, (d0, b, c b)) <$> homes l 0) Hf) as (_ & _ & H3).
      { intros n v (b' & E & Hb')%list_elem_of_fmap. by injection E as -> ->. }
      subst X. rewrite H3 by done. by apply Hc.
Qed.

(** Every prefix of the writes of a commit. *)
Lemma commit_prefix l (dk : Z → Z → block) c j :
  log_fit d0 l → hdr_n (dk d0 (l_start l)) = 0 →
  (∀ b, outside (l_start l) (l_size l) b → b ∉ homes l 0 → dk d0 b = c b) →
  let W := commit_writes d0 l c (dk d0 (l_start l)) in
  let dk' := apply_writes dk (take j W) d0 in
  log_fit d0 (disk_log d0 (l_start l) (l_size l) dk') ∧
  ∀ b, outside (l_start l) (l_size l) b →
    logical (l_start l) dk' b = if (Z.of_nat j <=? lh_n l) then dk d0 b else c b.
Proof.
  intros Hf Hh Hc W dk'.
  pose proof (lf_n _ _ Hf) as HN. pose proof (lf_size _ _ Hf) as Hsz. pose proof (lf_start _ _ Hf) as Hst.
  assert (Hst' : l_start l ∉ homes l 0).
  { rewrite <- (Z.add_0_r (l_start l)). destruct (log_block_not_home d0 l 0 0 Hf); lia || done. }
  assert (Hlen : Z.of_nat (length (log_writes d0 l c 0)) = lh_n l).
  { unfold log_writes. rewrite length_fmap, length_seqZ. lia. }
  subst dk' W. unfold commit_writes.
  destruct (take_parts j (log_writes d0 l c 0) (d0, l_start l, header l (dk d0 (l_start l)))
    ((λ b, (d0, b, c b)) <$> homes l 0) (d0, l_start l, header (set_n 0 l) (header l (dk d0 (l_start l)))))
    as [[-> Hj]|[(m & -> & Hj)|[-> Hj]]].
  - assert (E : ∀ n, n ≤ l_start l ∨ l_start l + lh_n l < n →
      apply_writes dk (take j (log_writes d0 l c 0)) d0 n = dk d0 n).
    { intros n Hn. apply apply_writes_other. intros v Hv%take_elem. revert Hv. by apply log_writes_out. }
    assert (E0 := E (l_start l) ltac:(lia)). split.
    + apply log_fit_clear; rewrite ?E0; lia || done.
    + intros b Hb. rewrite logical_clear by (by rewrite E0).
      destruct (Z.leb_spec (Z.of_nat j) (lh_n l)); [|lia]. apply E. unfold outside in Hb. lia.
  - destruct (header_written l dk c (dk d0 (l_start l)) (take m ((λ b, (d0, b, c b)) <$> homes l 0)) Hf) as (H1 & H2 & H3).
    { intros n v (b & E & Hb)%take_elem%list_elem_of_fmap. by injection E as -> ->. }
    split; [by eapply (logical_committed l _ c _ 0); eauto; intros; rewrite H3; auto|]. intros b Hb.
    destruct (Z.leb_spec (Z.of_nat j) (lh_n l)); [lia|].
    eapply (logical_committed l _ c); eauto. intros. rewrite H3; auto.
  - destruct (commit_done l dk c (dk d0 (l_start l)) Hf Hc) as [H1 H2].
    split; [apply log_fit_clear; lia || done|]. intros b Hb. rewrite logical_clear by done.
    destruct (Z.leb_spec (Z.of_nat j) (lh_n l)); [lia | by apply H2].
Qed.

(** C1. Ending the last operation of a transaction commits it.  Let the process hold no
    buffers, the transaction fit the log and the log on disk be clear.  Then [end_op] makes
    every block outside the log durable as the file system last saw it, and it is atomic
    with respect to crashes: whatever prefix of its disk writes a crash lets through, the
    log header on disk is well-formed and the disk stands for all of the old file system
    (up to the write of the header) or for all of the new one (from then on). *)
Theorem end_op_crash_atomic s L l :
  log_fit d0 l → pool s L (homes l 0) [] →
  l_outstanding l = 1 → l_committing l = false → hdr_n (disk s d0 (l_start l)) = 0 →
  ∃ s' L' W, end_op me (mkLstate s l) =
      Ok (tt, mkLstate s' (set_n 0 (set_committing false (set_outstanding 0 l)))) ∧
    pool s' L' [] [] ∧ wrote s s' W ∧ hdr_n (disk s' d0 (l_start l)) = 0 ∧
    (∀ b, outside (l_start l) (l_size l) b → disk s' d0 b = content s b) ∧
    (∀ j, let dk := apply_writes (disk s) (take j W) d0 in
      log_fit d0 (disk_log d0 (l_start l) (l_size l) dk) ∧
      ∀ b, outside (l_start l) (l_size l) b →
        logical (l_start l) dk b = if (Z.of_nat j <=? lh_n l) then disk s d0 b else content s b).
Proof.
  intros Hf Hp Ho Hcm Hh. unfold end_op, lget, lset. rewrite bind_gets. cbn [id l_log]. rewrite bind_modify.
  rewrite Hcm, Ho. cbn [l_log l_bc]. change (1 - 1 =? 0) with true. cbv iota. rewrite bind_modify. cbn [l_log l_bc].
  change (1 - 1) with 0. set (l1 := set_committing true (set_outstanding 0 l)).
  assert (Hf1 : log_fit d0 l1) by (by destruct Hf).
  assert (Hclean : ∀ b, outside (l_start l) (l_size l) b → b ∉ homes l 0 → disk s d0 b = content s b).
  { intros b _ Hb. symmetry. eapply pool_content; [done | exact Hp | done | by intros ? _ ?%elem_of_nil]. }
  pose proof (lf_n _ _ Hf) as HN. destruct (decide (lh_n l = 0)) as [E0|Hn].
  - exists s, L, []. assert (Eh : homes l 0 = []) by (unfold homes; by rewrite E0).
    rewrite Eh in *. split.
    + assert (R : commit me (mkLstate s l1) = Ok (tt, mkLstate s l1)).
      { unfold commit, lget. rewrite bind_gets. cbn [l_log]. change (lh_n l1) with (lh_n l). by rewrite E0. }
      rewrite (bind_ok _ _ _ _ _ R). subst l1. destruct l. cbn in E0. by subst.
    + split_and!; [done | by apply wrote_nil | done | intros b Hb; apply Hclean; [done | by intros ?%elem_of_nil] |].
      intros j. rewrite take_nil. pose proof (lf_size _ _ Hf). pose proof (lf_start _ _ Hf). split.
      * apply log_fit_clear; done || lia.
      * intros b Hb. cbn. rewrite logical_clear by done. destruct (_ <=? _); [done|].
        apply Hclean; [done | by intros ?%elem_of_nil].
  - destruct (commit_ok me d0 Hd0 l1 s L Hf1) as (s' & L' & R & Hp' & Hw & _); [cbn; lia | done |].
    rewrite (bind_ok _ _ _ _ _ R). exists s', L', (commit_writes d0 l (content s) (disk s d0 (l_start l))).
    destruct (commit_done l (disk s) (content s) (disk s d0 (l_start l)) Hf Hclean) as [H1 H2].
    split; [done|]. split_and!; [done | done | ..].
    + rewrite (proj2 Hw). exact H1.
    + intros b Hb. rewrite (proj2 Hw). by apply H2.
    + intros j. by apply commit_prefix.
Qed.

(** ** Recovery *)

(** The prefixes of the writes of recovery all stand for the same file system, and the
    last one is that file system. *)
Lemma recover_prefix start size (dk : Z → Z → block) :
  let l := disk_log d0 start size (dk d0) in
  let W := recover_writes d0 l (dk d0) in
  log_fit d0 l →
  (∀ j, let dk' := apply_writes dk (take j W) d0 in
    log_fit d0 (disk_log d0 start size dk') ∧
    ∀ b, outside start size b → logical start dk' b = logical start (dk d0) b) ∧
  hdr_n (apply_writes dk W d0 start) = 0 ∧
  (∀ b, outside start size b → apply_writes dk W d0 b = logical start (dk d0) b).
Proof.
  intros l W Hf. pose proof (lf_n _ _ Hf) as HN. pose proof (lf_size _ _ Hf) as Hsz. pose proof (lf_start _ _ Hf) as Hst.
  cbn in HN, Hsz, Hst.
  assert (Hother : ∀ j n, n ∉ homes l 0 → apply_writes dk (take j (home_writes d0 l (dk d0) 0)) d0 n = dk d0 n).
  { intros j n Hn. apply apply_writes_other. intros v (i & E & Hi%elem_of_seqZ)%take_elem%list_elem_of_fmap.
    injection E as -> ->. apply Hn, elem_of_homes. exists i. split; [lia | done]. }
  assert (Hlog : ∀ i, 0 ≤ i ≤ lh_n l → start + i ∉ homes l 0).
  { intros i Hi. destruct (log_block_not_home d0 l i 0 Hf Hi); [done | lia]. }
  assert (Hlog0 : start ∉ homes l 0) by (rewrite <- (Z.add_0_r start); apply Hlog; cbn; lia).
  assert (Hfull : hdr_n (apply_writes dk W d0 start) = 0 ∧
    (∀ b, outside start size b → apply_writes dk W d0 b = logical start (dk d0) b)).
  { unfold W, recover_writes. rewrite apply_writes_app. set (X := apply_writes dk _). cbn. split.
    - unfold disk_set. rewrite decide_True by done. by apply header_n.
    - intros b Hb. unfold disk_set, outside in *. rewrite decide_False by lia.
      destruct (decide (b ∈ homes l 0)) as [(i & Hi & ->)%elem_of_homes|Hn].
      + cbn in Hi. cbn [lh_block l disk_log]. rewrite (logical_home d0 _ size) by (done || lia).
        apply (apply_writes_at _ d0 (lh_block l) (λ i, dk d0 (start + i + 1))); [apply elem_of_seqZ; cbn; lia|].
        intros y Hy%elem_of_seqZ E. cbn in Hy. by apply (lf_inj _ _ Hf); cbn; [lia..|].
      + rewrite logical_other.
        * subst X. rewrite <- (take_ge (home_writes _ _ _ _) _ (le_n _)). by apply Hother.
        * intros i Hi <-. apply Hn, elem_of_homes. exists i. split; [cbn; lia | done]. }
  split; [|exact Hfull]. intros j. unfold W, recover_writes in *.
  destruct (decide (j ≤ length (home_writes d0 l (dk d0) 0))%nat).
  - rewrite take_app_le by lia. split.
    + unfold disk_log. by rewrite Hother.
    + intros b Hb. unfold logical. rewrite Hother by done. set (i := absorb _ _ _ _).
      destruct (absorb_spec (Z.to_nat (hdr_n (dk d0 start))) 0 (hdr_block (dk d0 start)) b) as (H1 & H2 & H3). fold i in H1, H2, H3.
      destruct (Z.ltb_spec i (hdr_n (dk d0 start))).
      * apply Hother. rewrite <- Z.add_assoc. apply Hlog. cbn. lia.
      * apply Hother. intros (k & Hk & E)%elem_of_homes. cbn in Hk, E. by apply (H3 k); [lia|].
  - rewrite take_ge by (rewrite length_app; cbn; lia). destruct Hfull as [H1 H2]. split.
    + apply log_fit_clear; lia || done.
    + intros b Hb. rewrite logical_clear by done. by apply H2.
Qed.

Lemma binit_pool dk :
  ∃ s L, binit (bss dk) = Ok (tt, s) ∧ pool s L [] [] ∧ disk s = dk.
Proof.
  destruct (binit_ok dk) as (s & Hs & Hi & _ & Hdk & Hc & Hr).
  exists s, (rev (seq 0 (Z.to_nat NBUF))). split; [exact Hs|]. split; [|exact Hdk]. clear Hs.
  assert (Hdev : ∀ b, b ∈ rev (seq 0 (Z.to_nat NBUF)) → b_dev (bufs s b) = 0).
  { intros b Hb. destruct (decide (b_dev (bufs s b) = 0)) as [|Hd]; [done|]. exfalso.
    assert (cached s (b_dev (bufs s b)) (b_blockno (bufs s b)) = Some b) as E.
    { eapply (proj2 (cached_iff s _ _ _ _ Hi Hd)). split; [done | by apply is_block_same]. }
    by rewrite (proj1 (Hc _ _ Hd)) in E. }
  split; try done.
  - intros b Hb. rewrite (proj2 (Hr b)). unfold refs. by rewrite !decide_False by (intros [_ ?%elem_of_nil] || intros ?%elem_of_nil; done).
  - intros b Hb. rewrite (proj1 (Hr b)). by rewrite decide_False by (by intros ?%elem_of_nil).
  - by intros b ?%elem_of_nil.
  - constructor.
  - by intros n ?%elem_of_nil.
  - intros b n Hb [E _]%is_block_eq. rewrite Hdev in E by done. congruence.
  - intros b Hb. left. by apply Hdev.
Qed.

(** The kernel's log before [initlog]. *)
Definition log0 : log := mkLog 0 0 0 false 0 0 (λ _, 0).

(** [initlog] on a clean cache. *)
Lemma initlog_ok (dk : Z → Z → block) sb s0 L0 :
  let start := sb_logstart sb in let size := sb_nlog sb in
  log_fit d0 (disk_log d0 start size (dk d0)) → pool s0 L0 [] [] → disk s0 = dk →
  ∃ s' L' l' W, initlog me d0 sb (mkLstate s0 log0) = Ok (tt, mkLstate s' l') ∧
    pool s' L' [] [] ∧ log_fit d0 l' ∧ lh_n l' = 0 ∧ l_outstanding l' = 0 ∧ l_committing l' = false ∧
    l_start l' = start ∧ l_size l' = size ∧
    disk s' = apply_writes dk W ∧ hdr_n (disk s' d0 start) = 0 ∧
    (∀ b, outside start size b → disk s' d0 b = logical start (dk d0) b) ∧
    (∀ j, let dk' := apply_writes dk (take j W) d0 in
      log_fit d0 (disk_log d0 start size dk') ∧
      ∀ b, outside start size b → logical start dk' b = logical start (dk d0) b).
Proof.
  intros start size Hf Hp0 Hd. unfold initlog. change (BSIZE <=? LOGHEADER_SIZE) with false. cbv iota. unfold lset. rewrite bind_modify.
  cbn [l_bc l_log]. set (l := set_place d0 (sb_logstart sb) (sb_nlog sb) log0).
  destruct (recover_ok me d0 Hd0 l s0 L0) as (s' & L' & l' & R & Hp' & Hw & E1 & E2 & E3 & E4 & E5 & E6).
  { cbn. rewrite Hd. done. }
  { done. }
  destruct (recover_prefix start size dk Hf) as (Hpre & H0 & Hfin).
  pose proof (lf_n _ _ Hf) as HN. pose proof (lf_size _ _ Hf) as Hsz. pose proof (lf_start _ _ Hf) as Hst. cbn in HN, Hsz, Hst.
  exists s', L', l', (recover_writes d0 (disk_log d0 start size (dk d0)) (dk d0)). split; [exact R|]. clear R.
  assert (Hdk : disk s' = apply_writes dk (recover_writes d0 (disk_log d0 start size (dk d0)) (dk d0))).
  { rewrite (proj2 Hw), Hd. done. }
  split_and!; try done.
  - split; rewrite ?E1, ?E2, ?E4; cbn; try done; intros; lia.
  - by rewrite Hdk.
  - intros b Hb. rewrite Hdk. by apply Hfin.
Qed.

(** C2. Recovery.  On any disk whose log header is well-formed, a boot ([binit], then
    [initlog] with the superblock's log) succeeds, leaves on disk exactly the file system
    the disk stood for, and clears the log; the log is then empty with no operation
    outstanding.  A crash during recovery does no harm: every prefix of its writes leaves
    a well-formed log and a disk that stands for the same file system. *)
Theorem initlog_recovers (dk : Z → Z → block) sb :
  let start := sb_logstart sb in let size := sb_nlog sb in
  log_fit d0 (disk_log d0 start size (dk d0)) →
  ∃ s' L' l' W, (in_bc binit;; initlog me d0 sb) (mkLstate (bss dk) log0) = Ok (tt, mkLstate s' l') ∧
    pool s' L' [] [] ∧ log_fit d0 l' ∧ lh_n l' = 0 ∧ l_outstanding l' = 0 ∧ l_committing l' = false ∧
    l_start l' = start ∧ l_size l' = size ∧
    disk s' = apply_writes dk W ∧ hdr_n (disk s' d0 start) = 0 ∧
    (∀ b, outside start size b → disk s' d0 b = logical start (dk d0) b) ∧
    (∀ j, let dk' := apply_writes dk (take j W) d0 in
      log_fit d0 (disk_log d0 start size dk') ∧
      ∀ b, outside start size b → logical start dk' b = logical start (dk d0) b).
Proof.
  intros start size Hf. destruct (binit_pool dk) as (s0 & L0 & R0 & Hp0 & Hd). run_bc R0. by apply (initlog_ok dk sb s0 L0).
Qed.

(** ** log_write *)

(** Recording block [n] as the last one of the transaction. *)
Lemma homes_append l n m :
  0 ≤ lh_n l → m ∈ homes (set_n (lh_n l + 1) (set_block (lh_n l) n l)) 0 ↔ m = n ∨ m ∈ homes l 0.
Proof.
  intros Hn. rewrite !elem_of_homes. cbn. split.
  - intros (j & Hj & ->). destruct (decide (j = lh_n l)) as [->|]; [left; by rewrite fn_lookup_insert|].
    right. exists j. rewrite fn_lookup_insert_ne by done. split; [lia | done].
  - intros [->|(j & Hj & ->)].
    + exists (lh_n l). rewrite fn_lookup_insert. split; [lia | done].
    + exists j. rewrite fn_lookup_insert_ne by lia. split; [lia | done].
Qed.

Lemma log_fit_append l n :
  log_fit d0 l → lh_n l + 1 < NBUF → lh_n l + 1 < l_size l → 0 ≤ n < 2 ^ 31 →
  outside (l_start l) (l_size l) n → n ∉ homes l 0 →
  log_fit d0 (set_n (lh_n l + 1) (set_block (lh_n l) n l)).
Proof.
  intros Hf Hn Hs Hr Ho Hh. destruct Hf as [F1 F2 F3 F4 F5 F6]. rewrite elem_of_homes in Hh.
  assert (Hne : ∀ i, 0 ≤ i < lh_n l → lh_block l i ≠ n) by (intros i Hi E; apply Hh; by exists i).
  split; cbn; try done; try lia.
  - intros i Hi. destruct (decide (i = lh_n l)) as [->|]; [by rewrite fn_lookup_insert|].
    rewrite fn_lookup_insert_ne by done. apply F5. lia.
  - intros i j Hi Hj. destruct (decide (i = lh_n l)) as [->|], (decide (j = lh_n l)) as [->|]; [done| | |];
      rewrite ?fn_lookup_insert, ?fn_lookup_insert_ne by done; intros E.
    + destruct (Hne j); [lia | done].
    + destruct (Hne i); [lia | done].
    + apply F6; lia || done.
Qed.

(** [log_write] where it succeeds: block [n] joins the transaction. *)
Record logged (s s' : bcache) (l l' : log) (n : Z) : Prop := {
  lg_start : l_start l' = l_start l;
  lg_size : l_size l' = l_size l;
  lg_outstanding : l_outstanding l' = l_outstanding l;
  lg_committing : l_committing l' = l_committing l;
  lg_homes m : m ∈ homes l' 0 ↔ m = n ∨ m ∈ homes l 0;
  lg_n : lh_n l' = (if decide (n ∈ homes l 0) then lh_n l else lh_n l + 1);
  lg_content m : content s' m = content s m;
  lg_bufs a : b_blockno (bufs s' a) = b_blockno (bufs s a) ∧ b_data (bufs s' a) = b_data (bufs s a);
  lg_wrote : wrote s s' [];
}.

Lemma log_write_ok s L l held b :
  let n := b_blockno (bufs s b) in
  log_fit d0 l → lh_n l < l_size l - 1 → l_size l ≤ LOGSIZE → 1 ≤ l_outstanding l →
  pool s L (homes l 0) held → b ∈ held → 0 ≤ n < 2 ^ 31 → outside (l_start l) (l_size l) n →
  ∃ s' l', log_write b (mkLstate s l) = Ok (tt, mkLstate s' l') ∧
    log_fit d0 l' ∧ pool s' L (homes l' 0) held ∧ logged s s' l l' n.
Proof.
  intros n Hf Hroom Hsz Hop Hp Hb Hn Hout. pose proof (lf_n _ _ Hf) as HN. unfold log_write, lget. rewrite bind_gets. cbn [id l_log].
  destruct (Z.leb_spec LOGSIZE (lh_n l)), (Z.leb_spec (l_size l - 1) (lh_n l)); try lia. cbn [orb].
  destruct (Z.ltb_spec (l_outstanding l) 1); [lia|].
  assert (R1 : rd b b_blockno s = Ok (n, s)) by done. run_bc R1. rewrite i32_small by lia.
  destruct (absorb_spec (Z.to_nat (lh_n l)) 0 (lh_block l) n) as (H1' & H2' & H3').
  cbv zeta. set (i := absorb _ _ _ _) in *. unfold lset. rewrite bind_modify. cbn [l_bc l_log].
  destruct (Z.eqb_spec i (lh_n l)) as [E|Hne].
  - assert (Hnew : n ∉ homes l 0).
    { intros (j & Hj & Ej)%elem_of_homes. symmetry in Ej. revert Ej. apply H3'. lia. }
    destruct (bpin_pool me d0 Hd0 s L (homes l 0) held b Hp Hb Hnew) as (s' & R2 & Hp' & Hc & Hd & Hw & Ch).
    run_bc R2. exists s', (set_n (lh_n l + 1) (set_block (lh_n l) n l)). rewrite E.
    split; [done|]. split_and!; [|eapply pool_perm; [|reflexivity|exact Hp']|split; try done].
    + apply log_fit_append; try done; change NBUF with 30; change LOGSIZE with 30 in Hsz; lia.
    + intros m. rewrite homes_append by lia. apply elem_of_cons.
    + intros m. apply homes_append. lia.
    + by rewrite decide_False.
    + intros a. destruct (decide (a = b)) as [->|]; [by rewrite (c_at _ _ _ _ Ch) | by rewrite (c_other _ _ _ _ Ch)].
    + by apply wrote_nil.
  - assert (Hold : lh_block l i = n) by (apply H2'; lia).
    assert (Ein : n ∈ homes l 0) by (apply elem_of_homes; exists i; split; [lia | done]).
    assert (El : ∀ j, lh_block (set_block i n l) j = lh_block l j).
    { intros j. cbn. destruct (decide (i = j)) as [<-|]; [by rewrite fn_lookup_insert | by rewrite fn_lookup_insert_ne]. }
    assert (Eh : homes (set_block i n l) 0 = homes l 0) by (apply list_fmap_ext; intros; apply El).
    exists s, (set_block i n l). rewrite Eh. split; [done|]. split_and!; [|done|split; try done].
    + destruct Hf as [F1 F2 F3 F4 F5 F6]. split; try done.
      * intros j Hj. rewrite El. by apply F5.
      * intros j k Hj Hk. rewrite !El. by apply F6.
    + intros m. rewrite Eh. split; [by right | by intros [->|?]].
    + by rewrite decide_True.
    + by apply wrote_nil.
Qed.

(** [log_write] of a held buffer records its block in the transaction exactly once:
    a block already recorded is absorbed, a new one is appended and its buffer pinned, so
    that the cache keeps it until the commit.  Nothing is written to disk.  It panics
    when the transaction has [log.size - 1] blocks, and outside of any operation. *)
Theorem log_write_spec s L l held b :
  let n := b_blockno (bufs s b) in
  log_fit d0 l → l_size l ≤ LOGSIZE → pool s L (homes l 0) held → b ∈ held →
  0 ≤ n < 2 ^ 31 → outside (l_start l) (l_size l) n →
  if l_size l - 1 <=? lh_n l then log_write b (mkLstate s l) = Panic "too big a transaction"
  else if l_outstanding l <? 1 then log_write b (mkLstate s l) = Panic "log_write outside of trans"
  else ∃ s' l', log_write b (mkLstate s l) = Ok (tt, mkLstate s' l') ∧
    log_fit d0 l' ∧ pool s' L (homes l' 0) held ∧
    (∀ m, m ∈ homes l' 0 ↔ m = n ∨ m ∈ homes l 0) ∧
    lh_n l' = (if decide (n ∈ homes l 0) then lh_n l else lh_n l + 1) ∧
    (∀ m, content s' m = content s m) ∧ wrote s s' [].
Proof.
  intros n Hf Hsz Hp Hb Hn Hout. pose proof (log_write_ok s L l held b Hf) as H. fold n in H.
  destruct (Z.leb_spec (l_size l - 1) (lh_n l)) as [Hfull|Hroom], (Z.ltb_spec (l_outstanding l) 1) as [Ho|Ho].
  1-3: unfold log_write, lget; rewrite bind_gets; cbn [id l_log];
    destruct (Z.leb_spec LOGSIZE (lh_n l)), (Z.leb_spec (l_size l - 1) (lh_n l)),
      (Z.ltb_spec (l_outstanding l) 1); done || lia.
  destruct H as (s' & l' & R & Hf' & Hp' & []); [done || lia..|]. eauto 10.
Qed.

End crash.

(** ** Reservation against capacity *)

(** One operation: [k] blocks from [b] on are changed through the log. *)
Fixpoint change_blocks (me dev : Z) (k : nat) (b : Z) : LM unit :=
  match k with
  | O => mret tt
  | S k' =>
      buf ← in_bc (bread me dev b);
      log_write buf;;
      in_bc (brelse me buf);;
      change_blocks me dev k' (b + 1)
  end.

(** The file system mkfs lays out: [nlog = LOGSIZE] blocks of log from block 2. *)
Definition mkfs_sb : superblock := mkSuperblock FSMAGIC 2000 1954 200 LOGSIZE 2 32 45.

Definition three_ops : LM unit :=
  in_bc binit;; initlog 1 ROOTDEV mkfs_sb;;
  begin_op;; begin_op;; begin_op;;
  change_blocks 1 ROOTDEV (Z.to_nat MAXOPBLOCKS) 100;;
  change_blocks 1 ROOTDEV (Z.to_nat MAXOPBLOCKS) 200;;
  change_blocks 1 ROOTDEV (Z.to_nat MAXOPBLOCKS) 300.


(** ** Examples *)

(** One operation outstanding, which has changed block 100 from all zero to [ex_block]. *)
Definition ex_block : block := <[0 := 7]> ∅.
Definition ex_log : log := mkLog 2 30 1 false ROOTDEV 1 (λ _, 100).

Lemma ex_log_fit : log_fit ROOTDEV ex_log.
Proof. split; cbn; try done; intros; lia. Qed.

Lemma ex_transaction : ∃ s L b,
  pool 1 ROOTDEV s L [100] [b] ∧ b_blockno (bufs s b) = 100 ∧
  disk s = (λ _ _, ∅) ∧ cur s ROOTDEV 100 = ex_block.
Proof.
  destruct (binit_pool 1 ROOTDEV ltac:(done) (λ _ _, ∅)) as (s0 & L0 & _ & Hp0 & Hd0).
  destruct (bread_pool 1 ROOTDEV ltac:(done) s0 L0 [] [] 100 Hp0) as (b & s1 & _ & Ho & Hp1 & _);
    [by intros ? _ ?%elem_of_nil | by left |].
  destruct (set_data_pool 1 ROOTDEV ltac:(done) s1 L0 [] [b] b ex_block Hp1) as (s2 & _ & Hp2 & Ch2 & Hc2); [constructor|].
  assert (En : b_blockno (bufs s1 b) = 100) by apply (is_block_eq _ _ _ (ro_block _ _ _ _ _ _ _ Ho)).
  assert (En2 : b_blockno (bufs s2 b) = 100) by (by rewrite (c_at _ _ _ _ Ch2)).
  destruct (bpin_pool 1 ROOTDEV ltac:(done) s2 L0 [] [b] b Hp2) as (s3 & _ & Hp3 & Hc3 & Hd3 & _ & Ch3);
    [constructor | by intros ?%elem_of_nil |].
  exists s3, L0, b. split_and!.
  - by rewrite En2 in Hp3.
  - by rewrite (c_at _ _ _ _ Ch3).
  - rewrite Hd3, (c_disk _ _ _ _ Ch2), (ro_disk _ _ _ _ _ _ _ Ho). exact Hd0.
  - by rewrite Hc3, Hc2, En, decide_True.
Qed.

(** The transaction of block 100 commits. *)
Lemma end_op_crash_atomic_witness :
  ∃ s s' l', cur s ROOTDEV 100 = ex_block ∧ disk s ROOTDEV 100 = ∅ ∧
    end_op 1 (mkLstate s ex_log) = Ok (tt, mkLstate s' l') ∧ disk s' ROOTDEV 100 = ex_block.
Proof.
  destruct ex_transaction as (s & L & b & Hp & En & Hd & Hc).
  destruct (brelse_pool 1 ROOTDEV ltac:(done) s L [100] [b] [] b Hp) as (s1 & L1 & _ & Hp1 & Hc1 & Hd1 & _);
    [done | left; rewrite En; constructor |].
  destruct (end_op_crash_atomic 1 ROOTDEV ltac:(done) s1 L1 ex_log ex_log_fit Hp1) as (s' & L' & W & R & _ & _ & _ & Hf & _).
  { done. }
  { done. }
  { rewrite Hd1, Hd. by vm_compute. }
  exists s1, s'. eexists. split_and!; [by rewrite Hc1 | by rewrite Hd1, Hd | exact R |].
  rewrite (Hf 100) by (vm_compute; by right). by rewrite Hc1.
Defined.

(** A crash after the commit point: the header lists block 100, whose new contents are in
    the log only. *)
Definition ex_disk (d n : Z) : block :=
  if n =? 2 then header ex_log ∅ else if n =? 3 then ex_block else ∅.

Lemma ex_disk_fit : log_fit ROOTDEV (disk_log ROOTDEV 2 30 (ex_disk ROOTDEV)).
Proof.
  assert (E1 : hdr_n (ex_disk ROOTDEV 2) = 1) by (by vm_compute).
  assert (E2 : hdr_block (ex_disk ROOTDEV 2) 0 = 100) by (by vm_compute).
  split; cbn [disk_log l_dev lh_n l_size l_start lh_block]; rewrite ?E1; [done..| |lia].
  intros i Hi. assert (i = 0) as -> by lia. rewrite E2. lia.
Qed.

Lemma initlog_recovers_witness :
  ∃ s' l', (in_bc binit;; initlog 1 ROOTDEV mkfs_sb) (mkLstate (bss ex_disk) log0) = Ok (tt, mkLstate s' l') ∧
    disk s' ROOTDEV 100 = ex_block.
Proof.
  destruct (initlog_recovers 1 ROOTDEV ltac:(done) ex_disk mkfs_sb) as (s' & L' & l' & W & R & H).
  { exact ex_disk_fit. }
  exists s', l'. split; [exact R|]. destruct H as (_ & _ & _ & _ & _ & _ & _ & _ & _ & Hb & _).
  rewrite (Hb 100); [by vm_compute | by vm_compute; right].
Defined.

(** Block 100 again in its own transaction: absorbed. *)
Lemma log_write_spec_witness :
  ∃ s b s' l', b_blockno (bufs s b) = 100 ∧
    log_write b (mkLstate s ex_log) = Ok (tt, mkLstate s' l') ∧ lh_n l' = 1.
Proof.
  destruct ex_transaction as (s & L & b & Hp & En & Hd & Hc).
  pose proof (log_write_spec 1 ROOTDEV ltac:(done) s L ex_log [b] b ex_log_fit ltac:(done) Hp ltac:(constructor)) as H.
  rewrite En in H. destruct H as (s' & l' & R & _ & _ & _ & Hl & _); [done | right; by vm_compute |].
  exists s, b, s', l'. split_and!; [done | exact R | exact Hl].
Defined.
