(* ===== verification/Fs.v ===== *)
(** * Fs: the file system (src/kernel/fs.c, src/kernel/file.h)

    Blocks, inodes, directories and path names, as the calling process runs them: over
    the buffer cache and the log (Log.v), the in-memory inode table, and the kernel's and
    the process's memory (Vm.v).  An inode pointer is an index into the inode table and a
    null one is [None]; critical sections under [itable.lock] are atomic. *)

From stdpp Require Import functions.
From S2P Require Import Prelude Mem Layout Kalloc Vm FsFormat Bio Log.
Import CString.

Local Open Scope Z_scope.

(** ** State *)

(** [struct inode]; [i_lock] is the pid of the holder of [ip->lock]. *)
Record inode := mkInode {
  i_dev : Z;
  i_inum : Z;
  i_ref : Z;
  i_lock : option Z;
  i_valid : bool;
  i_d : dinode;   (* type, major, minor, nlink, size, addrs: copy of disk inode *)
}.

Record fsys := mkFsys {
  fs_ls : lstate;          (* buffer cache and log *)
  fs_sb : superblock;
  itable : nat → inode;    (* itable.inode[NINODE] *)
  fs_km : kmem;            (* memory *)
}.

Abbreviation FM := (M fsys).

Definition in_ls {A} (m : LM A) : FM A :=
  zoom fs_ls (λ x s, mkFsys x (fs_sb s) (itable s) (fs_km s)) m.
Definition in_mem {A} (m : KM A) : FM A :=
  zoom fs_km (λ x s, mkFsys (fs_ls s) (fs_sb s) (itable s) x) m.
Definition in_buf {A} (m : BM A) : FM A := in_ls (in_bc m).

Definition iget_f {A} (ip : nat) (f : inode → A) : FM A := gets (λ s, f (itable s ip)).
Definition iupd (ip : nat) (f : inode → inode) : FM unit :=
  modify (λ s, mkFsys (fs_ls s) (fs_sb s) (<[ip := f (itable s ip)]> (itable s)) (fs_km s)).

Definition set_ref (r : Z) (x : inode) : inode :=
  mkInode (i_dev x) (i_inum x) r (i_lock x) (i_valid x) (i_d x).
Definition set_ilock (o : option Z) (x : inode) : inode :=
  mkInode (i_dev x) (i_inum x) (i_ref x) o (i_valid x) (i_d x).
Definition set_ivalid (v : bool) (x : inode) : inode :=
  mkInode (i_dev x) (i_inum x) (i_ref x) (i_lock x) v (i_d x).
Definition set_i_d (d : dinode) (x : inode) : inode :=
  mkInode (i_dev x) (i_inum x) (i_ref x) (i_lock x) (i_valid x) d.
Definition set_i_type (t : Z) (x : inode) : inode :=
  set_i_d (mkDinode t (di_major (i_d x)) (di_minor (i_d x)) (di_nlink (i_d x)) (di_size (i_d x)) (di_addrs (i_d x))) x.
Definition set_i_size (n : Z) (x : inode) : inode :=
  set_i_d (mkDinode (di_type (i_d x)) (di_major (i_d x)) (di_minor (i_d x)) (di_nlink (i_d x)) n (di_addrs (i_d x))) x.
Definition set_i_nlink (n : Z) (x : inode) : inode :=
  set_i_d (mkDinode (di_type (i_d x)) (di_major (i_d x)) (di_minor (i_d x)) n (di_size (i_d x)) (di_addrs (i_d x))) x.
Definition set_i_majmin (ma mi : Z) (x : inode) : inode :=
  set_i_d (mkDinode (di_type (i_d x)) ma mi (di_nlink (i_d x)) (di_size (i_d x)) (di_addrs (i_d x))) x.

(** [ip->addrs[i]] and its update. *)
Definition addr_at (x : inode) (i : Z) : Z := default 0 (di_addrs (i_d x) !! Z.to_nat i).
Definition set_i_addr (i a : Z) (x : inode) : inode :=
  set_i_d (mkDinode (di_type (i_d x)) (di_major (i_d x)) (di_minor (i_d x)) (di_nlink (i_d x)) (di_size (i_d x))
    (<[Z.to_nat i := a]> (di_addrs (i_d x)))) x.

(** Where the buffers that system calls pass by address lie in kernel memory: the data
    of the cache's buffers, and local variables on the kernel stack.  The compiler and
    the linker choose; the model is for any choice. *)
Inductive slot :=
  | SBuf (b : nat)      (* bcache.buf[b].data *)
  | SLookupDe           (* de of dirlookup *)
  | SLinkDe             (* de of dirlink *)
  | SDe                 (* de of isdirempty and sys_unlink *)
  | SName               (* name of namei and of the system calls *)
  | SPath               (* path, old of the system calls *)
  | SPath2              (* new of sys_link *)
  | SElf                (* elf of exec *)
  | SPh                 (* ph of exec *)
  | SArgs               (* ustack of exec *)
  | SStat               (* st of filestat *)
  | SChar               (* ch of pipewrite, piperead, consoleread, consolewrite *)
  | SFd0                (* fd0 of sys_pipe *)
  | SFd1                (* fd1 of sys_pipe *)
  | SUarg               (* uarg of sys_exec *)
  | SInfo               (* info of sys_sysinfo *)
  | SInitcode           (* initcode *)
  | SStr (s : string)   (* a string constant *)
  | SXstate (p : nat)   (* proc[p].xstate *)
  | SProcName (p : nat). (* proc[p].name *)

Section ops.
  (** The running process: its pid, page table and current directory. *)
  Context (me pagetable : Z) (cwd : nat).
  Context (kaddr : slot → Z).

(** ** Copying (src/kernel/proc.c) *)

Definition either_copyout (user_dst : bool) (dst src len : Z) : KM Z :=
  if user_dst then copyout pagetable dst src len
  else mem_modify (λ m, memmove m dst src len);; mret 0.

Definition either_copyin (dst : Z) (user_src : bool) (src len : Z) : KM Z :=
  if user_src then copyin pagetable dst src len
  else mem_modify (λ m, memmove m dst src len);; mret 0.

(** [bp->data] in memory, for the copies: written there before and read back after. *)
Definition data_to_mem (b : nat) : FM unit :=
  d ← in_buf (rd b b_data);
  in_mem (mem_modify (λ m, blit (Z.to_nat BSIZE) m (kaddr (SBuf b)) d 0)).
Definition mem_to_data (b : nat) : FM unit :=
  m ← in_mem (gets k_mem);
  in_buf (upd b (λ x, set_data (blit (Z.to_nat BSIZE) (b_data x) 0 m (kaddr (SBuf b))) x)).

(** ** Blocks *)

Definition get_sb (d : block) : superblock :=
  mkSuperblock (ld32 d 0) (ld32 d 4) (ld32 d 8) (ld32 d 12) (ld32 d 16) (ld32 d 20) (ld32 d 24) (ld32 d 28).

Definition readsb (dev : Z) : FM unit :=
  bp ← in_buf (bread me dev 1);
  d ← in_buf (rd bp b_data);
  modify (λ s, mkFsys (fs_ls s) (get_sb d) (itable s) (fs_km s));;
  in_buf (brelse me bp).

Definition fsinit (dev : Z) : FM unit :=
  readsb dev;;
  sb ← gets fs_sb;
  if negb (sb_magic sb =? FSMAGIC) then panic "invalid file system"
  else in_ls (initlog me dev sb).

Definition bzero (dev bno : Z) : FM unit :=
  bp ← in_buf (bread me dev bno);
  in_buf (upd bp (λ x, set_data (memset (b_data x) 0 0 BSIZE) x));;
  in_ls (log_write bp);;
  in_buf (brelse me bp).

(** [for(bi = 0; bi < BPB && b + bi < sb.size; bi++)] up to a clear bit, [k] bits left. *)
Fixpoint find_clear (k : nat) (bi b size : Z) (d : block) : option Z :=
  match k with
  | O => None
  | S k' =>
      if b + bi <? size then
        let m := Z.shiftl 1 (bi mod 8) in
        if Z.land (ld8 d (bi / 8)) m =? 0 then Some bi else find_clear k' (bi + 1) b size d
      else None
  end.

Fixpoint balloc_loop (fuel : nat) (dev b : Z) : FM Z :=
  match fuel with
  | O => out_of_fuel
  | S f =>
      sb ← gets fs_sb;
      if b <? sb_size sb then
        bp ← in_buf (bread me dev (BBLOCK b sb));
        d ← in_buf (rd bp b_data);
        match find_clear (Z.to_nat BPB) 0 b (sb_size sb) d with
        | Some bi =>
            let m := Z.shiftl 1 (bi mod 8) in
            in_buf (upd bp (set_data (st8 d (bi / 8) (Z.lor (ld8 d (bi / 8)) m))));;
            in_ls (log_write bp);;
            in_buf (brelse me bp);;
            bzero dev (b + bi);;
            mret (b + bi)
        | None =>
            in_buf (brelse me bp);;
            balloc_loop f dev (b + BPB)
        end
      else mret 0   (* printf("balloc: out of blocks") *)
  end.

Definition balloc (dev : Z) : FM Z :=
  sb ← gets fs_sb;
  balloc_loop (S (S (Z.to_nat (sb_size sb / BPB)))) dev 0.

Definition bfree (dev b : Z) : FM unit :=
  sb ← gets fs_sb;
  bp ← in_buf (bread me dev (BBLOCK b sb));
  d ← in_buf (rd bp b_data);
  let bi := b mod BPB in
  let m := Z.shiftl 1 (bi mod 8) in
  if Z.land (ld8 d (bi / 8)) m =? 0 then panic "freeing free block"
  else
    in_buf (upd bp (set_data (st8 d (bi / 8) (Z.land (ld8 d (bi / 8)) (Z.lnot m)))));;
    in_ls (log_write bp);;
    in_buf (brelse me bp).

(** ** Inodes *)

(** [acquiresleep(&ip->lock)], [releasesleep] and [holdingsleep]. *)
Definition acquiresleep_i (ip : nat) : FM unit :=
  l ← iget_f ip i_lock;
  match l with
  | Some _ => sleeps
  | None => iupd ip (set_ilock (Some me))
  end.
Definition releasesleep_i (ip : nat) : FM unit := iupd ip (set_ilock None).
Definition holdingsleep_i (ip : nat) : FM bool :=
  l ← iget_f ip i_lock; mret (bool_decide (l = Some me)).

(** [for(i = 0; i < NINODE; i++) initsleeplock(&itable.inode[i].lock)] *)
Fixpoint iinit_loop (k i : nat) : FM unit :=
  match k with
  | O => mret tt
  | S k' => iupd i (set_ilock None);; iinit_loop k' (S i)
  end.
Definition iinit : FM unit := iinit_loop (Z.to_nat NINODE) 0.

(** The loop of [iget]: the entry of the inode, or the first free entry if any. *)
Fixpoint iget_loop (k ip : nat) (empty : option nat) (dev inum : Z) (t : nat → inode) : nat + option nat :=
  match k with
  | O => inr empty
  | S k' =>
      let x := t ip in
      if (0 <? i_ref x) && (i_dev x =? dev) && (i_inum x =? inum) then inl ip
      else
        let empty' := match empty with
                      | None => if i_ref x =? 0 then Some ip else None
                      | Some e => Some e
                      end in
        iget_loop k' (S ip) empty' dev inum t
  end.

Definition iget (dev inum : Z) : FM nat :=
  t ← gets itable;
  match iget_loop (Z.to_nat NINODE) 0 None dev inum t with
  | inl ip => iupd ip (λ x, set_ref (i32 (i_ref x + 1)) x);; mret ip
  | inr None => panic "iget: no inodes"
  | inr (Some ip) =>
      iupd ip (λ x, mkInode dev inum 1 (i_lock x) false (i_d x));;
      mret ip
  end.

Fixpoint ialloc_loop (k : nat) (dev inum type : Z) : FM (option nat) :=
  match k with
  | O => mret None   (* printf("ialloc: no inodes") *)
  | S k' =>
      sb ← gets fs_sb;
      bp ← in_buf (bread me dev (IBLOCK inum sb));
      d ← in_buf (rd bp b_data);
      let dip := DINODE_SIZE * (inum mod IPB) in
      if i16 (ld16 d dip) =? 0 then
        in_buf (upd bp (set_data (st16 (memset d dip 0 DINODE_SIZE) dip type)));;
        in_ls (log_write bp);;
        in_buf (brelse me bp);;
        ip ← iget dev inum;
        mret (Some ip)
      else
        in_buf (brelse me bp);;
        ialloc_loop k' dev (inum + 1) type
  end.

Definition ialloc (dev type : Z) : FM (option nat) :=
  sb ← gets fs_sb;
  ialloc_loop (Z.to_nat (sb_ninodes sb - 1)) dev 1 type.

Definition iupdate (ip : nat) : FM unit :=
  sb ← gets fs_sb;
  x ← iget_f ip id;
  bp ← in_buf (bread me (i_dev x) (IBLOCK (i_inum x) sb));
  in_buf (upd bp (λ y, set_data (put_dinode (b_data y) (DINODE_SIZE * (i_inum x mod IPB)) (i_d x)) y));;
  in_ls (log_write bp);;
  in_buf (brelse me bp).

Definition idup (ip : nat) : FM nat :=
  iupd ip (λ x, set_ref (i32 (i_ref x + 1)) x);; mret ip.

Definition ilock (ip : nat) : FM unit :=
  r ← iget_f ip i_ref;
  if r <? 1 then panic "ilock"
  else
    acquiresleep_i ip;;
    x ← iget_f ip id;
    if i_valid x then mret tt
    else
      sb ← gets fs_sb;
      bp ← in_buf (bread me (i_dev x) (IBLOCK (i_inum x) sb));
      d ← in_buf (rd bp b_data);
      let di := get_dinode d (DINODE_SIZE * (i_inum x mod IPB)) in
      iupd ip (set_i_d di);;
      in_buf (brelse me bp);;
      iupd ip (set_ivalid true);;
      if di_type di =? 0 then panic "ilock: no type" else mret tt.

Definition iunlock (ip : nat) : FM unit :=
  h ← holdingsleep_i ip;
  r ← iget_f ip i_ref;
  if negb h || (r <? 1) then panic "iunlock"
  else releasesleep_i ip.

(** ** Inode content *)

Definition bmap (ip : nat) (bn : Z) : FM Z :=
  x ← iget_f ip id;
  if bn <? NDIRECT then
    if addr_at x bn =? 0 then
      addr ← balloc (i_dev x);
      if addr =? 0 then mret 0
      else iupd ip (set_i_addr bn addr);; mret addr
    else mret (addr_at x bn)
  else
    let bn := bn - NDIRECT in
    if bn <? NINDIRECT then
      addr ← (if addr_at x NDIRECT =? 0 then
                addr ← balloc (i_dev x);
                if addr =? 0 then mret 0
                else iupd ip (set_i_addr NDIRECT addr);; mret addr
              else mret (addr_at x NDIRECT));
      if addr =? 0 then mret 0
      else
        bp ← in_buf (bread me (i_dev x) addr);
        d ← in_buf (rd bp b_data);
        addr ← (if ld32 d (4 * bn) =? 0 then
                  addr ← balloc (i_dev x);
                  (if negb (addr =? 0) then
                     in_buf (upd bp (λ y, set_data (st32 (b_data y) (4 * bn) addr) y));;
                     in_ls (log_write bp)
                   else mret tt);;
                  mret addr
                else mret (ld32 d (4 * bn)));
        in_buf (brelse me bp);;
        mret addr
    else panic "bmap: out of range".

(** [for(i = 0; i < NDIRECT; i++)] of [itrunc]. *)
Fixpoint trunc_direct (k : nat) (i : Z) (ip : nat) : FM unit :=
  match k with
  | O => mret tt
  | S k' =>
      x ← iget_f ip id;
      (if negb (addr_at x i =? 0) then
         bfree (i_dev x) (addr_at x i);;
         iupd ip (set_i_addr i 0)
       else mret tt);;
      trunc_direct k' (i + 1) ip
  end.

(** [for(j = 0; j < NINDIRECT; j++)] of [itrunc]. *)
Fixpoint trunc_indirect (k : nat) (j dev : Z) (bp : nat) : FM unit :=
  match k with
  | O => mret tt
  | S k' =>
      d ← in_buf (rd bp b_data);
      (if negb (ld32 d (4 * j) =? 0) then bfree dev (ld32 d (4 * j)) else mret tt);;
      trunc_indirect k' (j + 1) dev bp
  end.

Definition itrunc (ip : nat) : FM unit :=
  trunc_direct (Z.to_nat NDIRECT) 0 ip;;
  x ← iget_f ip id;
  (if negb (addr_at x NDIRECT =? 0) then
     bp ← in_buf (bread me (i_dev x) (addr_at x NDIRECT));
     trunc_indirect (Z.to_nat NINDIRECT) 0 (i_dev x) bp;;
     in_buf (brelse me bp);;
     bfree (i_dev x) (addr_at x NDIRECT);;
     iupd ip (set_i_addr NDIRECT 0)
   else mret tt);;
  iupd ip (set_i_size 0);;
  iupdate ip.

Definition iput (ip : nat) : FM unit :=
  x ← iget_f ip id;
  (if (i_ref x =? 1) && i_valid x && (di_nlink (i_d x) =? 0) then
     acquiresleep_i ip;;
     itrunc ip;;
     iupd ip (set_i_type 0);;
     iupdate ip;;
     iupd ip (set_ivalid false);;
     releasesleep_i ip
   else mret tt);;
  iupd ip (λ x, set_ref (i32 (i_ref x - 1)) x).

Definition iunlockput (ip : nat) : FM unit := iunlock ip;; iput ip.

(** [struct stat] *)
Record stat := mkStat { st_dev : Z; st_ino : Z; st_type : Z; st_nlink : Z; st_size : Z }.

Definition stati (ip : nat) : FM stat :=
  x ← iget_f ip id;
  mret (mkStat (i32 (i_dev x)) (i_inum x) (di_type (i_d x)) (di_nlink (i_d x)) (di_size (i_d x))).

(** Iterations of the loops of [readi] and [writei]: one per block touched. *)
Definition rw_fuel (n : Z) : nat := S (S (S (Z.to_nat (n / BSIZE)))).

Fixpoint readi_loop (fuel ip : nat) (user_dst : bool) (dst off n tot : Z) : FM Z :=
  match fuel with
  | O => out_of_fuel
  | S f =>
      if tot <? n then
        addr ← bmap ip (off / BSIZE);
        if addr =? 0 then mret tot
        else
          dev ← iget_f ip i_dev;
          bp ← in_buf (bread me dev addr);
          let m := Z.min (n - tot) (BSIZE - off mod BSIZE) in
          data_to_mem bp;;
          r ← in_mem (either_copyout user_dst dst (kaddr (SBuf bp) + off mod BSIZE) m);
          if r =? err then in_buf (brelse me bp);; mret (u32 (-1))
          else
            in_buf (brelse me bp);;
            readi_loop f ip user_dst (u64 (dst + m)) (u32 (off + m)) n (u32 (tot + m))
      else mret tot
  end.

Definition readi (ip : nat) (user_dst : bool) (dst off n : Z) : FM Z :=
  size ← iget_f ip (λ x, di_size (i_d x));
  if (size <? off) || (u32 (off + n) <? off) then mret 0
  else
    let n := if size <? u32 (off + n) then size - off else n in
    tot ← readi_loop (rw_fuel n) ip user_dst dst off n 0;
    mret (i32 tot).

(** Returns [tot] and the final [off]. *)
Fixpoint writei_loop (fuel ip : nat) (user_src : bool) (src off n tot : Z) : FM (Z * Z) :=
  match fuel with
  | O => out_of_fuel
  | S f =>
      if tot <? n then
        addr ← bmap ip (off / BSIZE);
        if addr =? 0 then mret (tot, off)
        else
          dev ← iget_f ip i_dev;
          bp ← in_buf (bread me dev addr);
          let m := Z.min (n - tot) (BSIZE - off mod BSIZE) in
          data_to_mem bp;;
          r ← in_mem (either_copyin (kaddr (SBuf bp) + off mod BSIZE) user_src src m);
          mem_to_data bp;;
          if r =? err then in_buf (brelse me bp);; mret (tot, off)
          else
            in_ls (log_write bp);;
            in_buf (brelse me bp);;
            writei_loop f ip user_src (u64 (src + m)) (u32 (off + m)) n (u32 (tot + m))
      else mret (tot, off)
  end.

Definition writei (ip : nat) (user_src : bool) (src off n : Z) : FM Z :=
  size ← iget_f ip (λ x, di_size (i_d x));
  if (size <? off) || (u32 (off + n) <? off) then mret err
  else if MAXFILE * BSIZE <? u32 (off + n) then mret err
  else
    '(tot, off) ← writei_loop (rw_fuel n) ip user_src src off n 0;
    (if size <? off then iupd ip (set_i_size off) else mret tt);;
    iupdate ip;;
    mret (i32 tot).

(** ** Directories *)

Definition namecmp (m : memory) (s t : Z) : Z := strncmp m s t DIRSIZ.

(** [struct dirent] at address [a]: [de.inum], and the address of [de.name]. *)
Definition de_inum (m : memory) (a : Z) : Z := ld16 m a.
Definition de_name (a : Z) : Z := a + 2.

Definition read_mem {A} (f : memory → A) : FM A := in_mem (gets (λ s, f (k_mem s))).
Definition write_mem (f : memory → memory) : FM unit := in_mem (mem_modify f).

(** Returns the inode and [*poff]. *)
Fixpoint dirlookup_loop (fuel dp : nat) (name off : Z) : FM (option (nat * Z)) :=
  match fuel with
  | O => out_of_fuel
  | S f =>
      size ← iget_f dp (λ x, di_size (i_d x));
      if off <? size then
        r ← readi dp false (kaddr SLookupDe) off DIRENT_SIZE;
        if negb (r =? DIRENT_SIZE) then panic "dirlookup read"
        else
          inum ← read_mem (λ m, de_inum m (kaddr SLookupDe));
          if inum =? 0 then dirlookup_loop f dp name (u32 (off + DIRENT_SIZE))
          else
            c ← read_mem (λ m, namecmp m name (de_name (kaddr SLookupDe)));
            if c =? 0 then
              dev ← iget_f dp i_dev;
              ip ← iget dev inum;
              mret (Some (ip, off))
            else dirlookup_loop f dp name (u32 (off + DIRENT_SIZE))
      else mret None
  end.

(** Entries of a directory of [size] bytes. *)
Definition dir_fuel (size : Z) : nat := S (S (Z.to_nat (size / DIRENT_SIZE))).

Definition dirlookup (dp : nat) (name : Z) : FM (option (nat * Z)) :=
  d ← iget_f dp i_d;
  if negb (di_type d =? T_DIR) then panic "dirlookup not DIR"
  else dirlookup_loop (dir_fuel (di_size d)) dp name 0.

(** The search of [dirlink] for an empty entry. *)
Fixpoint dirlink_loop (fuel dp : nat) (off : Z) : FM Z :=
  match fuel with
  | O => out_of_fuel
  | S f =>
      size ← iget_f dp (λ x, di_size (i_d x));
      if off <? size then
        r ← readi dp false (kaddr SLinkDe) off DIRENT_SIZE;
        if negb (r =? DIRENT_SIZE) then panic "dirlink read"
        else
          inum ← read_mem (λ m, de_inum m (kaddr SLinkDe));
          if inum =? 0 then mret off
          else dirlink_loop f dp (i32 (off + DIRENT_SIZE))
      else mret off
  end.

Definition dirlink (dp : nat) (name inum : Z) : FM Z :=
  o ← dirlookup dp name;
  match o with
  | Some (ip, _) => iput ip;; mret err
  | None =>
      size ← iget_f dp (λ x, di_size (i_d x));
      off ← dirlink_loop (dir_fuel size) dp 0;
      write_mem (λ m, strncpy m (de_name (kaddr SLinkDe)) name DIRSIZ);;
      write_mem (λ m, st16 m (kaddr SLinkDe) inum);;
      r ← writei dp false (kaddr SLinkDe) off DIRENT_SIZE;
      mret (if negb (r =? DIRENT_SIZE) then err else 0)
  end.

(** ** Paths *)

Definition slash : Z := 47.

(** Characters of a path the loops below look at; paths have at most [MAXPATH]. *)
Definition path_fuel : nat := S (Z.to_nat MAXPATH).

(** [while( *path == '/') path++] *)
Fixpoint skip_slashes (fuel : nat) (m : memory) (path : Z) : option Z :=
  match fuel with
  | O => None
  | S f => if ld8 m path =? slash then skip_slashes f m (path + 1) else Some path
  end.

(** [while( *path != '/' && *path != 0) path++] *)
Fixpoint skip_name (fuel : nat) (m : memory) (path : Z) : option Z :=
  match fuel with
  | O => None
  | S f =>
      if negb (ld8 m path =? slash) && negb (ld8 m path =? 0)
      then skip_name f m (path + 1) else Some path
  end.

Definition or_fuel {A} (o : option A) : FM A :=
  match o with Some a => mret a | None => out_of_fuel end.

Definition skipelem (path name : Z) : FM Z :=
  m ← read_mem id;
  s ← or_fuel (skip_slashes path_fuel m path);
  if ld8 m s =? 0 then mret 0
  else
    e ← or_fuel (skip_name path_fuel m s);
    let len := e - s in
    (if DIRSIZ <=? len then write_mem (λ m, memmove m name s DIRSIZ)
     else write_mem (λ m, st8 (memmove m name s len) (name + len) 0));;
    m ← read_mem id;
    or_fuel (skip_slashes path_fuel m e).

Fixpoint namex_loop (fuel ip : nat) (path : Z) (nameiparent : bool) (name : Z) : FM (option nat) :=
  match fuel with
  | O => out_of_fuel
  | S f =>
      path ← skipelem path name;
      if path =? 0 then
        if nameiparent then iput ip;; mret None else mret (Some ip)
      else
        ilock ip;;
        type ← iget_f ip (λ x, di_type (i_d x));
        if negb (type =? T_DIR) then iunlockput ip;; mret None
        else
          c ← read_mem (λ m, ld8 m path);
          if nameiparent && (c =? 0) then iunlock ip;; mret (Some ip)
          else
            next ← dirlookup ip name;
            match next with
            | None => iunlockput ip;; mret None
            | Some (next, _) => iunlockput ip;; namex_loop f next path nameiparent name
            end
  end.

Definition namex (path : Z) (nameiparent : bool) (name : Z) : FM (option nat) :=
  c ← read_mem (λ m, ld8 m path);
  ip ← (if c =? slash then iget ROOTDEV ROOTINO else idup cwd);
  namex_loop path_fuel ip path nameiparent name.

Definition namei (path : Z) : FM (option nat) := namex path false (kaddr SName).
Definition nameiparent (path name : Z) : FM (option nat) := namex path true name.

End ops.
