(* ===== verification/FsTx.v ===== *)
(** * FsTx: the file system's use of the log

    [tx] is what an operation knows: the contents [C] of the device, the buffers it holds,
    and for how many more blocks the log has room, none unless it is between [begin_op]
    and [end_op].
    The file system's three moves are lemmas about it: read a block, change and log a
    held block, release a buffer. *)

From stdpp Require Import functions.
From S2P Require Import Prelude Mem Layout FsFormat Bio BioPool Log LogCrash.

Local Open Scope Z_scope.

Section tx.
  Context (me d0 : Z) (Hd0 : d0 ≠ 0).
  (** Where the log is, and the operations in progress. *)
  Context (start size ops : Z).

Record tx (st : lstate) (held : list nat) (C : Z → block) (k : Z) : Prop := {
  tx_pool : ∃ L, pool me d0 (l_bc st) L (homes (l_log st) 0) held;
  tx_fit : log_fit d0 (l_log st);
  tx_start : l_start (l_log st) = start;
  tx_size : l_size (l_log st) = size ∧ size ≤ LOGSIZE;
  tx_open : l_outstanding (l_log st) = ops ∧ (1 ≤ k → 1 ≤ ops);
  tx_quiet : l_committing (l_log st) = false;
  tx_cur n : cur (l_bc st) d0 n = C n;
  tx_clean b : b ∈ held →
    b_blockno (bufs (l_bc st) b) ∈ homes (l_log st) 0 ∨
    b_data (bufs (l_bc st) b) = disk (l_bc st) d0 (b_blockno (bufs (l_bc st) b));
  tx_room : lh_n (l_log st) + k < size;
}.

(** The block a held buffer is for. *)
Definition blk (st : lstate) (b : nat) : Z := b_blockno (bufs (l_bc st) b).

(** Blocks that the log may hold. *)
Definition loggable (n : Z) : Prop := 0 ≤ n < 2 ^ 31 ∧ outside start size n.

Lemma tx_weaken st held C C' k k' :
  (∀ n, C n = C' n) → k' ≤ k → tx st held C k → tx st held C' k'.
Proof.
  intros HC Hk [T1 T2 T3 T4 [T5 T5'] T6 T7 T8 T9].
  split; try done; [split; [done | intros; apply T5'; lia] | intros n; by rewrite <- HC | lia].
Qed.

Lemma tx_data st held C k b :
  tx st held C k → b ∈ held → b_data (bufs (l_bc st) b) = C (blk st b).
Proof.
  intros Ht Hb. destruct (tx_pool _ _ _ _ Ht) as [L Hp]. rewrite <- (tx_cur _ _ _ _ Ht).
  unfold cur, blk. rewrite (held_cached me d0 Hd0 _ _ _ _ _ Hp Hb).
  destruct (p_held _ _ _ _ _ _ Hp b Hb) as (_ & -> & _). done.
Qed.

Lemma tx_buf st held C k b : tx st held C k → b ∈ held → (b < Z.to_nat NBUF)%nat.
Proof.
  intros Ht Hb. destruct (tx_pool _ _ _ _ Ht) as [L Hp]. destruct (p_held _ _ _ _ _ _ Hp b Hb) as [HL _].
  rewrite (bi_perm _ _ (p_inv _ _ _ _ _ _ Hp)) in HL. apply elem_of_seq in HL. lia.
Qed.

Lemma tx_homes st held C k n :
  tx st held C k → n ∈ homes (l_log st) 0 → loggable n.
Proof.
  intros Ht (i & Hi & ->)%elem_of_homes. pose proof (lf_home _ _ (tx_fit _ _ _ _ Ht) i Hi) as H.
  unfold loggable, outside. rewrite (tx_start _ _ _ _ Ht), (proj1 (tx_size _ _ _ _ Ht)) in H. done.
Qed.

(** Moves that leave the log alone. *)
Lemma tx_same_log s s' l L held held' C k :
  tx (mkLstate s l) held C k → pool me d0 s' L (homes l 0) held' →
  (∀ n, cur s' d0 n = cur s d0 n) →
  (∀ b, b ∈ held' → b_blockno (bufs s' b) ∈ homes l 0 ∨ b_data (bufs s' b) = disk s' d0 (b_blockno (bufs s' b))) →
  tx (mkLstate s' l) held' C k.
Proof.
  intros [T1 T2 T3 T4 T5 T6 T7 T8 T9] Hp Hc Hcl. split; try assumption; cbn [l_bc l_log].
  - by exists L.
  - intros n. rewrite Hc. apply T7.
Qed.

(** [bread] of a block that is not held. *)
Lemma tx_bread st held C k n :
  tx st held C k → (∀ b, b ∈ held → blk st b ≠ n) → Z.of_nat (length held) ≤ k →
  ∃ b st', in_bc (bread me d0 n) st = Ok (b, st') ∧ tx st' (b :: held) C k ∧
    blk st' b = n ∧ (b ∉ held) ∧ (∀ a, a ∈ held → blk st' a = blk st a).
Proof.
  intros Ht Hn Hk. destruct (tx_pool _ _ _ _ Ht) as [L Hp]. pose proof (lf_n _ _ (tx_fit _ _ _ _ Ht)) as HN.
  pose proof (tx_room _ _ _ _ Ht) as Hroom. destruct (tx_size _ _ _ _ Ht) as [_ Hsz].
  destruct st as [s l]. cbn [l_bc l_log] in *.
  destruct (bread_pool me d0 Hd0 s L (homes l 0) held n Hp) as (b & s' & R & Ho & Hp' & Hb).
  { intros b Hc Hb. apply (Hn b Hb). eapply (cached_iff s L) in Hc as [_ Hc]; [|apply Hp|done].
    by apply is_block_eq in Hc as [_ Hc]. }
  { left. rewrite Nat2Z.inj_add, length_homes by lia. change NBUF with 30. change LOGSIZE with 30 in Hsz. lia. }
  assert (Hother : ∀ a, a ∈ held → bufs s' a = bufs s a).
  { intros a Ha. apply Ho. intros ->. done. }
  destruct (is_block_eq _ _ _ (ro_block _ _ _ _ _ _ _ Ho)) as [_ En].
  exists b, (mkLstate s' l). split; [by apply in_bc_run|]. split_and!; [|done|done|].
  - eapply tx_same_log; [exact Ht | exact Hp' | |].
    + intros m. by apply Ho.
    + intros a [->|Ha]%elem_of_cons.
      * rewrite En, (ro_data _ _ _ _ _ _ _ Ho), (ro_disk _ _ _ _ _ _ _ Ho).
        destruct (decide (n ∈ homes l 0)); [by left|]. right.
        eapply pool_content; [done | exact Hp | done |]. intros b' Hc Hb'. apply (Hn b' Hb').
        eapply (cached_iff s L) in Hc as [_ Hc]; [|apply Hp|done]. by apply is_block_eq in Hc as [_ Hc].
      * rewrite Hother, (ro_disk _ _ _ _ _ _ _ Ho) by done. by apply (tx_clean _ _ _ _ Ht).
  - intros a Ha. unfold blk. cbn. by rewrite Hother.
Qed.

(** Change a held buffer and log it. *)
Lemma tx_update st held C k b v f :
  tx st held C k → b ∈ held → 1 ≤ k → loggable (blk st b) →
  f (bufs (l_bc st) b) = set_data v (bufs (l_bc st) b) →
  ∃ st1 st', in_bc (upd b f) st = Ok (tt, st1) ∧ log_write b st1 = Ok (tt, st') ∧
    tx st' held (<[blk st b := v]> C) (k - 1) ∧ (∀ a, blk st' a = blk st a).
Proof.
  intros Ht Hb Hk [Hr Hout] Hf. destruct (tx_pool _ _ _ _ Ht) as [L Hp]. destruct st as [s l]. unfold blk in *. cbn [l_bc l_log] in *.
  pose proof (tx_fit _ _ _ _ Ht) as Hfit. destruct (tx_size _ _ _ _ Ht) as [Hs1 Hs2]. destruct (tx_open _ _ _ _ Ht) as [Ho1 Ho2].
  pose proof (tx_room _ _ _ _ Ht) as Hroom. cbn [l_log] in *.
  destruct (set_data_pool me d0 Hd0 s L (homes l 0) held b v Hp Hb) as (s1 & R1 & Hp1 & Ch & Hc1).
  assert (En : b_blockno (bufs s1 b) = b_blockno (bufs s b)) by (by rewrite (c_at _ _ _ _ Ch)).
  assert (R1' : upd b f s = Ok (tt, s1)).
  { rewrite <- R1. unfold upd, modify. by rewrite Hf. }
  specialize (Ho2 Hk). destruct (log_write_ok me d0 Hd0 s1 L l held b Hfit) as (s2 & l2 & R2 & Hf2 & Hp2 & Hl);
    [lia | lia | lia | done | done | by rewrite En | rewrite En; by rewrite (tx_start _ _ _ _ Ht : l_start l = start), Hs1 |].
  assert (Hbn : ∀ a, b_blockno (bufs s2 a) = b_blockno (bufs s a)).
  { intros a. rewrite (proj1 (lg_bufs _ _ _ _ _ _ Hl a)).
    destruct (decide (a = b)) as [->|]; [done | by rewrite (c_other _ _ _ _ Ch)]. }
  exists (mkLstate s1 l), (mkLstate s2 l2). split_and!; [by apply (in_bc_run _ (mkLstate s l)) | done | | done].
  rewrite En in Hl. destruct Ht as [_ _ T3 T4 T5 T6 T7 T8 T9]. cbn [l_bc l_log] in *. split; cbn [l_bc l_log].
  - by exists L.
  - done.
  - by rewrite (lg_start _ _ _ _ _ _ Hl).
  - by rewrite (lg_size _ _ _ _ _ _ Hl).
  - rewrite (lg_outstanding _ _ _ _ _ _ Hl). split; [done | lia].
  - by rewrite (lg_committing _ _ _ _ _ _ Hl).
  - intros n. rewrite (lg_content _ _ _ _ _ _ Hl), Hc1. destruct (decide _) as [->|]; [by rewrite fn_lookup_insert|].
    rewrite fn_lookup_insert_ne by done. apply T7.
  - intros a Ha. rewrite Hbn, (proj2 (lg_bufs _ _ _ _ _ _ Hl a)), (lg_homes _ _ _ _ _ _ Hl).
    destruct (decide (a = b)) as [->|]; [left; by left|].
    rewrite (c_other _ _ _ _ Ch) by done. destruct (lg_wrote _ _ _ _ _ _ Hl) as [_ ->]. cbn. rewrite (c_disk _ _ _ _ Ch).
    destruct (T8 a Ha); [left; by right | by right].
  - rewrite (lg_n _ _ _ _ _ _ Hl). destruct (decide _); lia.
Qed.

Lemma tx_brelse st held held' C k b :
  tx st held C k → held ≡ₚ b :: held' →
  ∃ st', in_bc (brelse me b) st = Ok (tt, st') ∧ tx st' held' C k ∧
    (∀ a, a ∈ held' → blk st' a = blk st a).
Proof.
  intros Ht Hh. destruct (tx_pool _ _ _ _ Ht) as [L Hp]. destruct st as [s l]. cbn [l_bc l_log] in *.
  assert (Hb : b ∈ held) by (rewrite Hh; left).
  destruct (brelse_pool me d0 Hd0 s L (homes l 0) held held' b Hp Hh) as (s' & L' & R & Hp' & Hc & Hd & Hw & Hbody);
    [apply (tx_clean _ _ _ _ Ht b Hb)|].
  assert (Hbf : ∀ a, a ∈ held' → b_blockno (bufs s' a) = b_blockno (bufs s a) ∧ b_data (bufs s' a) = b_data (bufs s a)).
  { intros a Ha. assert (a ≠ b) as Hne.
    { intros ->. pose proof (p_nodup _ _ _ _ _ _ Hp) as Hnd. rewrite Hh in Hnd. by inversion Hnd. }
    specialize (Hbody a Hne). unfold body in Hbody. by injection Hbody. }
  exists (mkLstate s' l). split_and!; [by apply in_bc_run | | intros a Ha; by apply Hbf].
  eapply tx_same_log; [exact Ht | exact Hp' | exact Hc |].
  intros a Ha. rewrite (proj1 (Hbf a Ha)), (proj2 (Hbf a Ha)), Hd. apply (tx_clean _ _ _ _ Ht). rewrite Hh. by right.
Qed.

End tx.

Arguments tx_data {me d0} Hd0 {start size ops} {st held C k} b.
Arguments tx_bread {me d0} Hd0 {start size ops} {st held C k} n.
Arguments tx_update {me d0} Hd0 {start size ops} {st held C k} b v f.
Arguments tx_brelse {me d0} Hd0 {start size ops} {st held} held' {C k} b.
Arguments tx_weaken {me d0 start size ops} {st held C} C' {k} k'.
Arguments tx_buf {me d0 start size ops st held C k} b.
