(* ===== verification/FsBlocks.v ===== *)
(** * FsBlocks: the block allocator (bzero, balloc and bfree of src/kernel/fs.c)

    The bitmap as a set of used blocks, and the allocator's operations on it. *)

From stdpp Require Import functions.
From S2P Require Import Prelude Mem Layout FsFormat Bio BioPool Log LogCrash Vm Kalloc Fs FsTx.
Import CString.

Local Open Scope Z_scope.

(** ** Bits of a block *)

Definition bit (d : block) (j : Z) : bool := Z.testbit (ld8 d (j / 8)) (j mod 8).

Lemma bit_mask x i : 0 ≤ i → (Z.land x (Z.shiftl 1 i) =? 0) = negb (Z.testbit x i).
Proof.
  intros Hi. rewrite Z.shiftl_1_l. destruct (Z.testbit x i) eqn:E; cbn; [apply Z.eqb_neq | apply Z.eqb_eq].
  - intros H. apply (f_equal (λ y, Z.testbit y i)) in H.
    by rewrite Z.land_spec, E, Z.pow2_bits_true, Z.bits_0 in H.
  - apply Z.bits_inj'. intros n Hn. rewrite Z.land_spec, Z.bits_0, Z.pow2_bits_eqb by done.
    destruct (Z.eqb_spec i n) as [<-|]; [by rewrite E | apply andb_false_r].
Qed.

Lemma byte_lor x i : 0 ≤ x < 256 → 0 ≤ i < 8 → u8 (Z.lor x (Z.shiftl 1 i)) = Z.lor x (Z.shiftl 1 i).
Proof.
  intros Hx Hi. apply u8_small. change 256 with (2 ^ 8). apply lor_lt; [lia.. | lia |].
  rewrite Z.shiftl_1_l. split; [lia | apply Z.pow_lt_mono_r; lia].
Qed.

Lemma byte_clear x i : 0 ≤ x < 256 → u8 (Z.land x (Z.lnot (Z.shiftl 1 i))) = Z.land x (Z.lnot (Z.shiftl 1 i)).
Proof.
  intros Hx. unfold u8. rewrite <- Z.land_ones by lia.
  rewrite <- Z.land_assoc, (Z.land_comm (Z.lnot _)), Z.land_assoc, (Z.land_ones x), Z.mod_small by lia. done.
Qed.

(** Two different bits are in different bytes or different places of one. *)
Lemma bit_index i j : 0 ≤ i → 0 ≤ j → i / 8 = j / 8 → i mod 8 = j mod 8 → i = j.
Proof. zdiv. Qed.

Lemma bit_set d i j :
  0 ≤ i → 0 ≤ j →
  bit (st8 d (j / 8) (Z.lor (ld8 d (j / 8)) (Z.shiftl 1 (j mod 8)))) i = bool_decide (i = j) || bit d i.
Proof.
  intros Hi Hj. unfold bit. rewrite ld8_st8. pose proof (Z.mod_pos_bound j 8 ltac:(lia)). pose proof (Z.mod_pos_bound i 8 ltac:(lia)).
  destruct (Z.eqb_spec (i / 8) (j / 8)) as [E|Hne].
  - rewrite byte_lor by (lia || apply ld8_range). rewrite Z.lor_spec, Z.shiftl_1_l, Z.pow2_bits_eqb, E, orb_comm by lia.
    f_equal. destruct (Z.eqb_spec (j mod 8) (i mod 8)), (bool_decide_reflect (i = j)); try done; [|by subst].
    exfalso. eauto using bit_index.
  - by rewrite bool_decide_false by (intros ->; done).
Qed.

Lemma bit_clear d i j :
  0 ≤ i → 0 ≤ j →
  bit (st8 d (j / 8) (Z.land (ld8 d (j / 8)) (Z.lnot (Z.shiftl 1 (j mod 8))))) i =
  negb (bool_decide (i = j)) && bit d i.
Proof.
  intros Hi Hj. unfold bit. rewrite ld8_st8. pose proof (Z.mod_pos_bound j 8 ltac:(lia)). pose proof (Z.mod_pos_bound i 8 ltac:(lia)).
  destruct (Z.eqb_spec (i / 8) (j / 8)) as [E|Hne].
  - rewrite byte_clear by apply ld8_range. rewrite Z.land_spec, Z.lnot_spec, Z.shiftl_1_l, Z.pow2_bits_eqb, E, andb_comm by lia.
    f_equal. f_equal. destruct (Z.eqb_spec (j mod 8) (i mod 8)), (bool_decide_reflect (i = j)); try done; [|by subst].
    exfalso. eauto using bit_index.
  - by rewrite bool_decide_false by (intros ->; done).
Qed.

Lemma find_clear_spec k : ∀ bi b size d,
  0 ≤ bi →
  match find_clear k bi b size d with
  | Some j => bi ≤ j < bi + Z.of_nat k ∧ b + j < size ∧ bit d j = false ∧ (∀ i, bi ≤ i < j → bit d i = true)
  | None => ∀ i, bi ≤ i < bi + Z.of_nat k → b + i < size → bit d i = true
  end.
Proof.
  induction k as [|k IH]; intros bi b size d Hbi; cbn [find_clear]; [lia|].
  destruct (Z.ltb_spec (b + bi) size); [|lia]. pose proof (Z.mod_pos_bound bi 8 ltac:(lia)).
  rewrite bit_mask by lia. fold (bit d bi). destruct (bit d bi) eqn:E; cbn [negb].
  - specialize (IH (bi + 1) b size d ltac:(lia)). destruct (find_clear k (bi + 1) b size d) as [j|].
    + destruct IH as (H1 & H2 & H3 & H4). split_and!; try lia. intros i Hi.
      destruct (decide (i = bi)) as [->|]; [done | apply H4; lia].
    + intros i Hi Hs. destruct (decide (i = bi)) as [->|]; [done | apply IH; lia].
  - split_and!; lia.
Qed.

(** ** Running cache and log operations under the file system *)

Lemma in_ls_run {A} (m : LM A) x sb it km a x' :
  m x = Ok (a, x') → in_ls m (mkFsys x sb it km) = Ok (a, mkFsys x' sb it km).
Proof. unfold in_ls, zoom. cbn. by intros ->. Qed.

Lemma in_buf_run {A} (m : BM A) x sb it km a x' :
  in_bc m x = Ok (a, x') → in_buf m (mkFsys x sb it km) = Ok (a, mkFsys x' sb it km).
Proof. apply in_ls_run. Qed.

Lemma bind_data {A} b (f : block → FM A) x sb it km :
  (in_buf (rd b b_data) ≫= f) (mkFsys x sb it km) = f (b_data (bufs (l_bc x) b)) (mkFsys x sb it km).
Proof. by destruct x. Qed.

(** Run the cache or log operation at the head of the goal, whose result [H] states. *)
Ltac run_ls H :=
  first [ rewrite (bind_ok _ _ _ _ _ (in_buf_run _ _ _ _ _ _ _ H))
        | rewrite (bind_ok _ _ _ _ _ (in_ls_run _ _ _ _ _ _ _ H))
        | rewrite (in_buf_run _ _ _ _ _ _ _ H)
        | rewrite (in_ls_run _ _ _ _ _ _ _ H) ]; cbn beta.

(** ** The layout of the disk *)

Definition nbitmap (sb : superblock) : Z := (sb_size sb - 1) / BPB + 1.
Definition datastart (sb : superblock) : Z := sb_bmapstart sb + nbitmap sb.

(** Boot block, superblock, log, inodes, bitmap, data, in that order. *)
Record sb_wf (sb : superblock) : Prop := {
  sw_log : 2 ≤ sb_logstart sb ∧ 0 < sb_nlog sb ≤ LOGSIZE;
  sw_inode : sb_logstart sb + sb_nlog sb ≤ sb_inodestart sb ∧ 0 < sb_ninodes sb < 2 ^ 16;
  sw_bmap : IBLOCK (sb_ninodes sb - 1) sb < sb_bmapstart sb;
  sw_data : datastart sb < sb_size sb ∧ sb_size sb < 2 ^ 31;
}.

Section blocks.
  Context (me d0 : Z) (Hd0 : d0 ≠ 0) (sb : superblock) (Hsb : sb_wf sb) (ops : Z).
  Abbreviation tx := (tx me d0 (sb_logstart sb) (sb_nlog sb) ops).

(** Block [n] is in use. *)
Definition used (C : Z → block) (n : Z) : bool := bit (C (BBLOCK n sb)) (n mod BPB).

(** The blocks that are no data blocks are never free. *)
Definition meta_used (C : Z → block) : Prop := ∀ n, 0 ≤ n < datastart sb → used C n = true.

Lemma BBLOCK_range n : 0 ≤ n < sb_size sb → sb_bmapstart sb ≤ BBLOCK n sb < datastart sb.
Proof.
  intros Hn. unfold BBLOCK, datastart, nbitmap. change BPB with 8192. zdiv.
Qed.

Lemma data_loggable n :
  sb_inodestart sb ≤ n < sb_size sb → loggable (sb_logstart sb) (sb_nlog sb) n.
Proof.
  intros Hn. destruct (sw_log _ Hsb), (sw_inode _ Hsb), (sw_data _ Hsb). unfold loggable, outside. lia.
Qed.

Lemma bmap_after_inodes : sb_inodestart sb ≤ sb_bmapstart sb.
Proof.
  pose proof (sw_bmap _ Hsb) as H. destruct (sw_inode _ Hsb) as [_ Hn]. unfold IBLOCK in H.
  change IPB with 16 in H. zdiv.
Qed.

Lemma inodes_before_data : 2 ≤ sb_inodestart sb ∧ sb_inodestart sb ≤ sb_bmapstart sb < datastart sb.
Proof.
  pose proof bmap_after_inodes. destruct (sw_data _ Hsb), (sw_log _ Hsb), (sw_inode _ Hsb).
  unfold datastart, nbitmap in *. change BPB with 8192 in *. zdiv.
Qed.

Lemma BBLOCK_loggable n : 0 ≤ n < sb_size sb → loggable (sb_logstart sb) (sb_nlog sb) (BBLOCK n sb).
Proof.
  intros Hn. pose proof (BBLOCK_range n Hn). pose proof bmap_after_inodes.
  destruct (sw_data _ Hsb). apply data_loggable. lia.
Qed.

(** ** bzero *)

Definition zeroed (d : block) : block := memset d 0 0 BSIZE.

Lemma zeroed_byte d i : 0 ≤ i < BSIZE → ld8 (zeroed d) i = 0.
Proof.
  intros Hi. unfold zeroed. rewrite ld8_memset by (unfold BSIZE; lia).
  destruct (Z.leb_spec 0 i), (Z.ltb_spec i (0 + BSIZE)); try lia. done.
Qed.

Lemma bzero_ok x it km held C k n :
  tx x held C k → (∀ b, b ∈ held → blk x b ≠ n) → Z.of_nat (length held) < k →
  loggable (sb_logstart sb) (sb_nlog sb) n →
  ∃ x', bzero me d0 n (mkFsys x sb it km) = Ok (tt, mkFsys x' sb it km) ∧
    tx x' held (<[n := zeroed (C n)]> C) (k - 1) ∧ (∀ a, a ∈ held → blk x' a = blk x a).
Proof.
  intros Ht Hn Hk Hl. unfold bzero.
  destruct (tx_bread Hd0 n Ht Hn ltac:(lia)) as (b & x1 & R1 & Ht1 & Eb & Hb & Hbl1).
  run_ls R1.
  destruct (tx_update Hd0 b (zeroed (C n)) (λ y, set_data (memset (b_data y) 0 0 BSIZE) y) Ht1)
    as (x2 & x3 & R2 & R3 & Ht3 & Hbl3); [left | lia | by rewrite Eb | |].
  { rewrite (tx_data Hd0 b Ht1 ltac:(left)), Eb. unfold zeroed. reflexivity. }
  run_ls R2. run_ls R3.
  destruct (tx_brelse Hd0 held b Ht3) as (x4 & R4 & Ht4 & Hbl4); [done|].
  run_ls R4. exists x4. rewrite Eb in Ht4. split_and!; [done..|].
  intros a Ha. rewrite Hbl4, Hbl3 by done. by apply Hbl1.
Qed.

(** ** balloc *)

(** The contents after block [r] is allocated, and after it is freed. *)
Definition alloc (C : Z → block) (r : Z) : Z → block :=
  let d := C (BBLOCK r sb) in let j := r mod BPB in
  let C1 := <[BBLOCK r sb := st8 d (j / 8) (Z.lor (ld8 d (j / 8)) (Z.shiftl 1 (j mod 8)))]> C in
  <[r := zeroed (C1 r)]> C1.
Definition dealloc (C : Z → block) (r : Z) : Z → block :=
  let d := C (BBLOCK r sb) in let j := r mod BPB in
  <[BBLOCK r sb := st8 d (j / 8) (Z.land (ld8 d (j / 8)) (Z.lnot (Z.shiftl 1 (j mod 8))))]> C.

(** A bitmap position determines the block. *)
Lemma bitmap_inj n r : 0 ≤ n → 0 ≤ r → BBLOCK n sb = BBLOCK r sb → n mod BPB = r mod BPB → n = r.
Proof. unfold BBLOCK. change BPB with 8192. intros ? ? ? ?. zdiv. Qed.

Lemma used_alloc C r n :
  datastart sb ≤ r < sb_size sb → 0 ≤ n < sb_size sb →
  used (alloc C r) n = bool_decide (n = r) || used C n.
Proof.
  intros Hr Hn. pose proof (BBLOCK_range n Hn) as Hb. unfold used, alloc. rewrite fn_lookup_insert_ne by lia.
  assert (0 ≤ n mod BPB) by (apply Z.mod_pos_bound; done). assert (0 ≤ r mod BPB) by (apply Z.mod_pos_bound; done).
  pose proof inodes_before_data.
  destruct (decide (BBLOCK r sb = BBLOCK n sb)) as [E|Hne].
  - rewrite E, fn_lookup_insert, bit_set by done. f_equal. apply bool_decide_ext. split; [|by intros ->].
    intros Em. apply bitmap_inj; lia || done.
  - rewrite fn_lookup_insert_ne by done. by rewrite bool_decide_false by (intros ->; done).
Qed.

Lemma used_dealloc C r n :
  0 ≤ r < sb_size sb → 0 ≤ n < sb_size sb →
  used (dealloc C r) n = negb (bool_decide (n = r)) && used C n.
Proof.
  intros Hr Hn. unfold used, dealloc.
  assert (0 ≤ n mod BPB) by (apply Z.mod_pos_bound; done). assert (0 ≤ r mod BPB) by (apply Z.mod_pos_bound; done).
  destruct (decide (BBLOCK r sb = BBLOCK n sb)) as [E|Hne].
  - rewrite E, fn_lookup_insert, bit_clear by done. do 2 f_equal. apply bool_decide_ext. split; [|by intros ->].
    intros Em. apply bitmap_inj; lia || done.
  - rewrite fn_lookup_insert_ne by done. by rewrite bool_decide_false by (intros ->; done).
Qed.

(** Blocks other than [r] and the bitmap are not touched. *)
Lemma alloc_other C r n : 0 ≤ r < sb_size sb → n ≠ r → n ≠ BBLOCK r sb → alloc C r n = C n.
Proof. intros Hr H1 H2. unfold alloc. by rewrite !fn_lookup_insert_ne. Qed.

Lemma alloc_zero C r i : 0 ≤ i < BSIZE → ld8 (alloc C r r) i = 0.
Proof. intros Hi. unfold alloc. rewrite fn_lookup_insert. by apply zeroed_byte. Qed.

Lemma dealloc_other C r n : n ≠ BBLOCK r sb → dealloc C r n = C n.
Proof. intros H. unfold dealloc. by rewrite fn_lookup_insert_ne. Qed.

(** [r] is the first free block. *)
Definition first_free (C : Z → block) (r : Z) : Prop :=
  0 ≤ r < sb_size sb ∧ used C r = false ∧ ∀ n, 0 ≤ n < r → used C n = true.

(** Held buffers that leave the allocator alone: for blocks in use, none of the bitmap. *)
Definition held_fine (x : lstate) (held : list nat) (C : Z → block) : Prop :=
  ∀ b, b ∈ held → used C (blk x b) = true ∧ ¬ (sb_bmapstart sb ≤ blk x b < datastart sb).

Lemma first_free_data C r : meta_used C → first_free C r → datastart sb ≤ r < sb_size sb.
Proof.
  intros Hm (Hr & Hu & _). destruct (Z.le_gt_cases (datastart sb) r); [lia|].
  rewrite Hm in Hu by lia. done.
Qed.

Lemma in_bitmap_block b bi : b mod BPB = 0 → 0 ≤ b → 0 ≤ bi < BPB →
  BBLOCK (b + bi) sb = BBLOCK b sb ∧ (b + bi) mod BPB = bi.
Proof. unfold BBLOCK. change BPB with 8192. intros. zdiv. Qed.

(** The outcome of [balloc]: the first free block, zeroed, or 0 if there is none. *)
Definition balloc_out (C : Z → block) (r : Z) (C' : Z → block) : Prop :=
  (r = 0 ∧ C' = C ∧ ∀ n, 0 ≤ n < sb_size sb → used C n = true) ∨
  (first_free C r ∧ C' = alloc C r).

Lemma balloc_loop_ok fuel : ∀ x it km held C k b,
  tx x held C k → meta_used C → held_fine x held C → Z.of_nat (length held) + 2 ≤ k →
  0 ≤ b → b mod BPB = 0 → (∀ n, 0 ≤ n < b → n < sb_size sb → used C n = true) →
  sb_size sb ≤ b + BPB * Z.of_nat fuel - BPB →  (0 < fuel)%nat →
  ∃ r x' C', balloc_loop me fuel d0 b (mkFsys x sb it km) = Ok (r, mkFsys x' sb it km) ∧
    tx x' held C' (k - 2) ∧ balloc_out C r C' ∧ (∀ a, a ∈ held → blk x' a = blk x a).
Proof.
  induction fuel as [|fuel IH]; intros x it km held C k b Ht Hm Hh Hk Hb Hmod Hbefore Hfuel Hpos; [lia|].
  cbn [balloc_loop]. rewrite bind_gets. cbn [fs_sb].
  destruct (Z.ltb_spec b (sb_size sb)) as [Hlt|Hge].
  2:{ exists 0, x, C. split_and!; [done | by eapply (tx_weaken C _ (λ _, eq_refl)); [|exact Ht]; lia | left | done].
      split_and!; [done..|]. intros n Hn. apply Hbefore; lia. }
  pose proof (BBLOCK_range b ltac:(lia)) as Hbb.
  destruct (tx_bread Hd0 (BBLOCK b sb) Ht) as (p & x1 & R1 & Ht1 & Ep & Hp & Hbl1); [|lia|].
  { intros a Ha E. destruct (Hh a Ha). lia. }
  run_ls R1. rewrite bind_data, (tx_data Hd0 p Ht1), Ep by left.
  pose proof (find_clear_spec (Z.to_nat BPB) 0 b (sb_size sb) (C (BBLOCK b sb)) ltac:(lia)) as Hfc.
  destruct (find_clear _ _ _ _ _) as [bi|].
  - destruct Hfc as (H1 & H2 & H3 & H4). rewrite Z2Nat.id in H1 by done.
    destruct (in_bitmap_block b bi Hmod Hb ltac:(lia)) as [Eb1 Eb2].
    assert (Hff : first_free C (b + bi)).
    { split_and!; [lia.. | unfold used; by rewrite Eb1, Eb2 |]. intros n Hn.
      destruct (Z.lt_ge_cases n b); [apply Hbefore; lia|].
      destruct (in_bitmap_block b (n - b) Hmod Hb ltac:(lia)) as [En1 En2].
      replace (b + (n - b)) with n in * by lia. unfold used. rewrite En1, En2. apply H4. lia. }
    pose proof (first_free_data C _ Hm Hff) as Hr.
    destruct (tx_update Hd0 p (st8 (C (BBLOCK b sb)) (bi / 8) (Z.lor (ld8 (C (BBLOCK b sb)) (bi / 8)) (Z.shiftl 1 (bi mod 8))))
      _ Ht1 ltac:(left) ltac:(lia) ltac:(rewrite Ep; apply BBLOCK_loggable; lia) eq_refl) as (x2 & x3 & R2 & R3 & Ht3 & Hbl3).
    run_ls R2. run_ls R3. destruct (tx_brelse Hd0 held p Ht3) as (x4 & R4 & Ht4 & Hbl4); [done|]. run_ls R4. rewrite Ep in Ht4.
    assert (Hbl : ∀ a, a ∈ held → blk x4 a = blk x a).
    { intros a Ha. rewrite Hbl4, Hbl3 by done. by apply Hbl1. }
    destruct (bzero_ok x4 it km held _ _ (b + bi) Ht4) as (x5 & R5 & Ht5 & Hbl5).
    { intros a Ha E. rewrite Hbl in E by done. destruct (Hh a Ha) as [Hu _]. rewrite E in Hu. destruct Hff as (_ & ? & _). congruence. }
    { lia. }
    { apply data_loggable. pose proof inodes_before_data. lia. }
    rewrite (bind_ok _ _ _ _ _ R5). exists (b + bi), x5, (alloc C (b + bi)). split_and!; [done | | by right |].
    + replace (k - 2) with (k - 1 - 1) by lia. unfold alloc. rewrite Eb1, Eb2. exact Ht5.
    + intros a Ha. rewrite Hbl5 by done. by apply Hbl.
  - destruct (tx_brelse Hd0 held p Ht1) as (x2 & R2 & Ht2 & Hbl2); [done|]. run_ls R2.
    assert (Hbl : ∀ a, a ∈ held → blk x2 a = blk x a).
    { intros a Ha. rewrite Hbl2 by done. by apply Hbl1. }
    destruct (IH x2 it km held C k (b + BPB) Ht2) as (r & x' & C' & R & Ht' & Ho & Hbl'); try done; try lia.
    + intros a Ha. rewrite Hbl by done. by apply Hh.
    + change BPB with 8192. lia.
    + revert Hmod. change BPB with 8192. zdiv.
    + intros n Hn Hs. destruct (Z.lt_ge_cases n b); [apply Hbefore; lia|].
      destruct (in_bitmap_block b (n - b) Hmod Hb ltac:(lia)) as [En1 En2].
      replace (b + (n - b)) with n in * by lia. unfold used. rewrite En1, En2. apply Hfc; rewrite ?Z2Nat.id by done; lia.
    + destruct fuel; [|lia]. change BPB with 8192 in *. lia.
    + exists r, x', C'. split_and!; [done..|]. intros a Ha. rewrite Hbl' by done. by apply Hbl.
Qed.

Lemma balloc_ok x it km held C k :
  tx x held C k → meta_used C → held_fine x held C → Z.of_nat (length held) + 2 ≤ k →
  ∃ r x' C', balloc me d0 (mkFsys x sb it km) = Ok (r, mkFsys x' sb it km) ∧
    tx x' held C' (k - 2) ∧ balloc_out C r C' ∧ (∀ a, a ∈ held → blk x' a = blk x a).
Proof.
  intros Ht Hm Hh Hk. unfold balloc. rewrite bind_gets. cbn [fs_sb]. apply balloc_loop_ok; try done; try lia.
  change BPB with 8192. destruct (sw_data _ Hsb). zdiv.
Qed.

(** ** bfree *)

Lemma bfree_ok x it km held C k n :
  tx x held C k → held_fine x held C → Z.of_nat (length held) + 1 ≤ k → 0 ≤ n < sb_size sb → used C n = true →
  ∃ x', bfree me d0 n (mkFsys x sb it km) = Ok (tt, mkFsys x' sb it km) ∧
    tx x' held (dealloc C n) (k - 1) ∧ (∀ a, a ∈ held → blk x' a = blk x a).
Proof.
  intros Ht Hh Hk Hn Hu. unfold bfree. rewrite bind_gets. cbn [fs_sb]. pose proof (BBLOCK_range n Hn) as Hbb.
  destruct (tx_bread Hd0 (BBLOCK n sb) Ht) as (p & x1 & R1 & Ht1 & Ep & Hp & Hbl1); [|lia|].
  { intros a Ha E. destruct (Hh a Ha). lia. }
  run_ls R1. rewrite bind_data, (tx_data Hd0 p Ht1), Ep by left. cbv zeta.
  rewrite bit_mask by (apply Z.mod_pos_bound; lia). fold (bit (C (BBLOCK n sb)) (n mod BPB)). fold (used C n). rewrite Hu. cbn [negb].
  destruct (tx_update Hd0 p (st8 (C (BBLOCK n sb)) (n mod BPB / 8) (Z.land (ld8 (C (BBLOCK n sb)) (n mod BPB / 8)) (Z.lnot (Z.shiftl 1 ((n mod BPB) mod 8)))))
    _ Ht1 ltac:(left) ltac:(lia) ltac:(rewrite Ep; by apply BBLOCK_loggable) eq_refl) as (x2 & x3 & R2 & R3 & Ht3 & Hbl3).
  run_ls R2. run_ls R3. destruct (tx_brelse Hd0 held p Ht3) as (x4 & R4 & Ht4 & Hbl4); [done|]. run_ls R4. rewrite Ep in Ht4.
  exists x4. split_and!; [done..|]. intros a Ha. rewrite Hbl4, Hbl3 by done. by apply Hbl1.
Qed.

End blocks.
