(* ===== verification/FsInode.v ===== *)
(** * FsInode: the blocks and bytes of a file

    The file an on-disk inode stands for ([fblk], [fbyte]), the layout invariant of an
    inode, and [bmap] (src/kernel/fs.c) as the growth of a file. *)

From stdpp Require Import functions.
From S2P Require Import Prelude Mem Layout FsFormat Bio BioPool Log LogCrash Kalloc Vm Fs FsTx FsBlocks.

Local Open Scope Z_scope.

(** ** Blocks and bytes of an inode *)

(** [addrs[i]] *)
Definition daddr (x : dinode) (i : Z) : Z := default 0 (di_addrs x !! Z.to_nat i).

(** The indirect block. *)
Abbreviation ind x := (daddr x NDIRECT).

(** Block [bn] of the file, 0 for a hole. *)
Definition fblk (C : Z → block) (x : dinode) (bn : Z) : Z :=
  if bn <? NDIRECT then daddr x bn
  else if ind x =? 0 then 0
  else ld32 (C (ind x)) (4 * (bn - NDIRECT)).

(** Byte [off] of the file. *)
Definition fbyte (C : Z → block) (x : dinode) (off : Z) : Z :=
  let a := fblk C x (off / BSIZE) in
  if a =? 0 then 0 else ld8 (C a) (off mod BSIZE).

(** The blocks a file occupies. *)
Definition owns (C : Z → block) (x : dinode) (a : Z) : Prop :=
  (a = ind x ∨ ∃ bn, 0 ≤ bn < MAXFILE ∧ a = fblk C x bn) ∧ a ≠ 0.

Definition same_fields (x x' : dinode) : Prop :=
  di_type x' = di_type x ∧ di_major x' = di_major x ∧ di_minor x' = di_minor x ∧
  di_nlink x' = di_nlink x ∧ di_size x' = di_size x.

Lemma fblk_range C x bn : Forall (λ a, 0 ≤ a < 2 ^ 32) (di_addrs x) → 0 ≤ fblk C x bn < 2 ^ 32.
Proof.
  intros Hx. assert (Hd : ∀ i, 0 ≤ daddr x i < 2 ^ 32).
  { intros i. unfold daddr. destruct (_ !! _) as [a|] eqn:E; cbn; [|lia]. exact (Forall_lookup_1 _ _ _ _ Hx E). }
  unfold fblk. destruct (_ <? _); [apply Hd|]. destruct (_ =? _); [lia | apply ld32_range].
Qed.

Section inode.
  Context (sb : superblock) (Hsb : sb_wf sb).
  Abbreviation used := (used sb).
  Abbreviation meta_used := (meta_used sb).
  Abbreviation first_free := (first_free sb).
  Abbreviation alloc := (alloc sb).

(** An inode whose blocks are data blocks in use, each at one place only. *)
Record inode_wf (C : Z → block) (x : dinode) : Prop := {
  iw_len : length (di_addrs x) = Z.to_nat (NDIRECT + 1);
  iw_data a : owns C x a → datastart sb ≤ a < sb_size sb ∧ used C a = true;
  iw_inj bn bn' : 0 ≤ bn < MAXFILE → 0 ≤ bn' < MAXFILE →
    fblk C x bn = fblk C x bn' → fblk C x bn ≠ 0 → bn = bn';
  iw_ind bn : 0 ≤ bn < MAXFILE → fblk C x bn = ind x → ind x = 0;
}.

(** [C'], [x'] is [C], [x] with blocks added to the file and perhaps other bytes in it: no
    block in use outside the file has changed. *)
Record evolve (C : Z → block) (x : dinode) (C' : Z → block) (x' : dinode) : Prop := {
  gr_wf : inode_wf C' x';
  gr_meta : meta_used C';
  gr_used n : 0 ≤ n < sb_size sb → used C n = true → used C' n = true;
  gr_fresh n : 0 ≤ n < sb_size sb → used C n = false → used C' n = true → owns C' x' n;
  gr_owns n : owns C x n → owns C' x' n;
  gr_new n : owns C' x' n → owns C x n ∨ used C n = false;
  gr_keep n : datastart sb ≤ n < sb_size sb → used C n = true → ¬ owns C x n → C' n = C n;
  gr_meta_keep n : 0 ≤ n < sb_bmapstart sb → C' n = C n;
  gr_fields : same_fields x x';
  gr_blk bn : 0 ≤ bn < MAXFILE → fblk C x bn ≠ 0 → fblk C' x' bn = fblk C x bn;
}.

(** The same, with the bytes as they were. *)
Definition grow (C : Z → block) (x : dinode) (C' : Z → block) (x' : dinode) : Prop :=
  evolve C x C' x' ∧ ∀ off, 0 ≤ off < MAXFILE * BSIZE → fbyte C' x' off = fbyte C x off.

Lemma evolve_refl C x : inode_wf C x → meta_used C → evolve C x C x.
Proof. intros Hw Hm. split; try done; [congruence | by left]. Qed.

Lemma evolve_trans C x C1 x1 C2 x2 : evolve C x C1 x1 → evolve C1 x1 C2 x2 → evolve C x C2 x2.
Proof.
  intros G1 G2. pose proof (inodes_before_data sb Hsb) as Hlay. split.
  - apply (gr_wf _ _ _ _ G2).
  - apply (gr_meta _ _ _ _ G2).
  - intros n Hn Hu. apply (gr_used _ _ _ _ G2); [done|]. by apply (gr_used _ _ _ _ G1).
  - intros n Hn Hu Hu2. destruct (used C1 n) eqn:E; [|by apply (gr_fresh _ _ _ _ G2)].
    apply (gr_owns _ _ _ _ G2). by apply (gr_fresh _ _ _ _ G1).
  - intros n Ho. apply (gr_owns _ _ _ _ G2). by apply (gr_owns _ _ _ _ G1).
  - intros n Ho. destruct (gr_new _ _ _ _ G2 n Ho) as [Ho1|Hu]; [by apply (gr_new _ _ _ _ G1)|].
    destruct (used C n) eqn:E; [|by right]. exfalso. destruct (iw_data _ _ (gr_wf _ _ _ _ G2) n Ho) as [Hr _].
    rewrite (gr_used _ _ _ _ G1) in Hu by (done || lia). done.
  - intros n Hn Hu Ho. rewrite (gr_keep _ _ _ _ G2); [by apply (gr_keep _ _ _ _ G1) | done | |].
    + apply (gr_used _ _ _ _ G1); [lia | done].
    + intros Ho1. destruct (gr_new _ _ _ _ G1 n Ho1); [done | congruence].
  - intros n Hn. rewrite (gr_meta_keep _ _ _ _ G2), (gr_meta_keep _ _ _ _ G1); done.
  - destruct (gr_fields _ _ _ _ G1) as (?&?&?&?&?), (gr_fields _ _ _ _ G2) as (?&?&?&?&?). split_and!; congruence.
  - intros bn Hbn Hz. rewrite (gr_blk _ _ _ _ G2), (gr_blk _ _ _ _ G1); [done..|]. by rewrite (gr_blk _ _ _ _ G1).
Qed.

Lemma grow_refl C x : inode_wf C x → meta_used C → grow C x C x.
Proof. intros Hw Hm. split; [by apply evolve_refl | done]. Qed.

Lemma grow_trans C x C1 x1 C2 x2 : grow C x C1 x1 → grow C1 x1 C2 x2 → grow C x C2 x2.
Proof.
  intros [G1 B1] [G2 B2]. split; [by eapply evolve_trans|]. intros off Ho. by rewrite B2, B1.
Qed.

(** ** One more block *)

(** Block [r], the first free one, joins the file as a data block or as the indirect
    block. *)
Lemma grow_intro C x r C' x' :
  inode_wf C x → meta_used C → first_free C r →
  length (di_addrs x') = length (di_addrs x) → same_fields x x' →
  (∀ n, 0 ≤ n < sb_size sb → used C' n = bool_decide (n = r) || used C n) →
  (∀ n, datastart sb ≤ n < sb_size sb → used C n = true → n ≠ ind x → C' n = C n) →
  (∀ n, 0 ≤ n < sb_bmapstart sb → C' n = C n) →
  (∀ bn, 0 ≤ bn < MAXFILE → fblk C' x' bn = fblk C x bn ∨ (fblk C x bn = 0 ∧ fblk C' x' bn = r)) →
  (ind x' = ind x ∨ (ind x = 0 ∧ ind x' = r)) →
  (∀ bn bn', 0 ≤ bn < MAXFILE → 0 ≤ bn' < MAXFILE → fblk C' x' bn = r → fblk C' x' bn' = r → bn = bn') →
  (∀ bn, 0 ≤ bn < MAXFILE → fblk C' x' bn = r → ind x' ≠ r) →
  ((∃ bn, 0 ≤ bn < MAXFILE ∧ fblk C' x' bn = r) → ∀ i, 0 ≤ i < BSIZE → ld8 (C' r) i = 0) →
  owns C' x' r → grow C x C' x'.
Proof.
  intros Hw Hm Hr Hlen Hsf Hused Hkeep Hmeta Hblk Hind Huniq Hdiff Hzero Hown.
  pose proof (first_free_data sb C r Hm Hr) as Hrd. pose proof (inodes_before_data sb Hsb) as Hlay.
  destruct Hr as (Hrs & Hru & _).
  assert (Hr0 : ∀ a, owns C x a → a ≠ r).
  { intros a Ho ->. destruct (iw_data _ _ Hw r Ho). congruence. }
  assert (Hfb : ∀ bn, 0 ≤ bn < MAXFILE → fblk C x bn ≠ 0 → owns C x (fblk C x bn)).
  { intros bn Hbn Hz. split; [right; by exists bn | done]. }
  assert (Hsame : ∀ bn, 0 ≤ bn < MAXFILE → fblk C x bn ≠ 0 → fblk C' x' bn = fblk C x bn).
  { intros bn Hbn Hz. destruct (Hblk bn Hbn) as [->|[? _]]; done. }
  assert (Hback : ∀ a, owns C' x' a → a = r ∨ owns C x a).
  { intros a [[->|(bn & Hbn & ->)] Hz].
    - destruct Hind as [E|[_ ->]]; [right | by left]. rewrite E in *. split; [by left | done].
    - destruct (Hblk bn Hbn) as [E|[_ ->]]; [right | by left]. rewrite E in *. by apply Hfb. }
  assert (Hfwd : ∀ a, owns C x a → owns C' x' a).
  { intros a [[->|(bn & Hbn & ->)] Hz]; split; try done.
    - left. by destruct Hind as [->|[? _]].
    - right. exists bn. split; [done|]. by rewrite Hsame. }
  split; [split; try done|].
  - split.
    + rewrite Hlen. apply Hw.
    + intros a [->|Ho]%Hback; [rewrite Hused, bool_decide_true by lia; done|].
      destruct (iw_data _ _ Hw a Ho) as [Hd Hu]. rewrite Hused, Hu by lia. split; [done | apply orb_true_r].
    + intros bn bn' Hbn Hbn' E Hz. destruct (decide (fblk C' x' bn = r)) as [Er|Hne]; [apply Huniq; congruence|].
      destruct (Hblk bn Hbn) as [E1|[_ ?]]; [|done]. destruct (Hblk bn' Hbn') as [E2|[_ ?]]; [|congruence].
      apply (iw_inj _ _ Hw); congruence.
    + intros bn Hbn E. destruct (decide (ind x' = 0)) as [|Hz]; [done|]. exfalso.
      destruct (decide (fblk C' x' bn = r)) as [Er|Hne]; [by apply (Hdiff bn Hbn Er); rewrite <- E|].
      destruct (Hblk bn Hbn) as [E1|[_ ?]]; [|done]. destruct Hind as [E2|[_ ?]]; [|congruence].
      apply Hz. rewrite E2. apply (iw_ind _ _ Hw bn Hbn). congruence.
  - intros n Hn. rewrite Hused by lia. rewrite Hm by done. apply orb_true_r.
  - intros n Hn Hu. rewrite Hused, Hu by done. apply orb_true_r.
  - intros n Hn Hu. rewrite Hused, Hu, orb_false_r by done. by intros ->%bool_decide_eq_true.
  - intros n [->|Ho]%Hback; [by right | by left].
  - intros n Hn Hu Ho. apply Hkeep; [done..|]. intros ->. apply Ho. split; [by left | lia].
  - intros off Hoff. unfold fbyte. assert (0 ≤ off / BSIZE < MAXFILE) by (revert Hoff; change BSIZE with 1024; zdiv).
    destruct (Hblk (off / BSIZE)) as [->|[-> E]]; [done| |].
    + destruct (Z.eqb_spec (fblk C x (off / BSIZE)) 0); [done|]. f_equal.
      destruct (iw_data _ _ Hw (fblk C x (off / BSIZE))) as [Hd Hu]; [by apply Hfb|].
      apply Hkeep; [done..|]. intros E. apply (iw_ind _ _ Hw) in E as E0; congruence.
    + rewrite E. destruct (Z.eqb_spec r 0); [done|]. apply Hzero; [by exists (off / BSIZE)|].
      apply Z.mod_pos_bound. done.
Qed.

Definition set_daddr (i a : Z) (x : dinode) : dinode :=
  mkDinode (di_type x) (di_major x) (di_minor x) (di_nlink x) (di_size x) (<[Z.to_nat i := a]> (di_addrs x)).

Lemma daddr_set x i a j :
  length (di_addrs x) = Z.to_nat (NDIRECT + 1) → 0 ≤ i ≤ NDIRECT → 0 ≤ j ≤ NDIRECT →
  daddr (set_daddr i a x) j = if decide (i = j) then a else daddr x j.
Proof.
  intros Hl Hi Hj. unfold daddr. cbn [di_addrs set_daddr]. destruct (decide (i = j)) as [->|].
  - rewrite list_lookup_insert_eq; [done|]. rewrite Hl. lia.
  - by rewrite list_lookup_insert_ne by lia.
Qed.

(** [C1] is [C] with the first free block [r] taken and cleared. *)
Record allocated (C : Z → block) (r : Z) (C1 : Z → block) : Prop := {
  al_free : first_free C r;
  al_used n : 0 ≤ n < sb_size sb → used C1 n = bool_decide (n = r) || used C n;
  al_keep n : datastart sb ≤ n < sb_size sb → used C n = true → C1 n = C n;
  al_low n : 0 ≤ n < sb_bmapstart sb → C1 n = C n;
  al_zero i : 0 ≤ i < BSIZE → ld8 (C1 r) i = 0;
}.

Lemma alloc_allocated C r : meta_used C → first_free C r → allocated C r (alloc C r).
Proof.
  intros Hm Hf. pose proof (first_free_data sb C r Hm Hf). pose proof (inodes_before_data sb Hsb). pose proof Hf as (Hr & Hru & _).
  pose proof (BBLOCK_range sb r Hr). split; [done | | | |].
  - intros n Hn. by apply used_alloc.
  - intros n Hn Hu. apply alloc_other; [done | congruence | lia].
  - intros n Hn. apply alloc_other; [done | lia | lia].
  - intros i Hi. by apply alloc_zero.
Qed.

(** A new direct block. *)
Lemma grow_direct C x r C1 bn :
  inode_wf C x → meta_used C → allocated C r C1 → 0 ≤ bn < NDIRECT → daddr x bn = 0 →
  grow C x C1 (set_daddr bn r x) ∧ ind (set_daddr bn r x) = ind x ∧
  ∀ bn', 0 ≤ bn' < MAXFILE → fblk C1 (set_daddr bn r x) bn' = if decide (bn' = bn) then r else fblk C x bn'.
Proof.
  intros Hw Hm Ha Hbn Hz. pose proof (al_free _ _ _ Ha) as Hr. pose proof (first_free_data sb C r Hm Hr) as Hrd.
  pose proof (inodes_before_data sb Hsb) as Hlay. pose proof (iw_len _ _ Hw) as Hl.
  assert (Ei : ind (set_daddr bn r x) = ind x) by (rewrite daddr_set, decide_False by (unfold NDIRECT in *; lia || done); done).
  assert (Hnr : ∀ a, owns C x a → a ≠ r).
  { intros a Ho ->. destruct (iw_data _ _ Hw r Ho) as [_ Hu]. destruct Hr as (_ & Hr & _). congruence. }
  assert (Hf : ∀ bn', 0 ≤ bn' < MAXFILE →
    fblk C1 (set_daddr bn r x) bn' = if decide (bn' = bn) then r else fblk C x bn').
  { intros bn' Hbn'. unfold fblk at 1. rewrite Ei. destruct (Z.ltb_spec bn' NDIRECT).
    - rewrite daddr_set by (done || lia). destruct (decide (bn = bn')), (decide (bn' = bn)); try congruence.
      unfold fblk. by destruct (Z.ltb_spec bn' NDIRECT); [|lia].
    - rewrite decide_False by lia. unfold fblk. destruct (Z.ltb_spec bn' NDIRECT); [lia|].
      destruct (Z.eqb_spec (ind x) 0); [done|]. destruct (iw_data _ _ Hw (ind x)); [split; [by left | done]|].
      by rewrite (al_keep _ _ _ Ha). }
  assert (Hr_only : ∀ bn', 0 ≤ bn' < MAXFILE → fblk C1 (set_daddr bn r x) bn' = r → bn' = bn).
  { intros bn' Hbn'. rewrite Hf by done. destruct (decide (bn' = bn)); [done|]. intros E. exfalso.
    apply (Hnr (fblk C x bn')); [split; [right; by exists bn' | lia] | done]. }
  assert (Hbm : 0 ≤ bn < MAXFILE) by (unfold MAXFILE; change NINDIRECT with 256; lia).
  assert (Hfbn : fblk C1 (set_daddr bn r x) bn = r) by (rewrite Hf by done; by rewrite decide_True).
  split_and!; [|done | done]. eapply (grow_intro C x r); try done.
  - cbn. apply length_insert.
  - apply (al_used _ _ _ Ha).
  - intros n Hn Hu _. by apply (al_keep _ _ _ Ha).
  - apply (al_low _ _ _ Ha).
  - intros bn' Hbn'. rewrite Hf by done. destruct (decide (bn' = bn)) as [->|]; [right | by left].
    split; [|done]. unfold fblk. by destruct (Z.ltb_spec bn NDIRECT); [|lia].
  - by left.
  - intros b1 b2 H1 H2 E1 E2. apply Hr_only in E1, E2; [congruence | done..].
  - intros b1 H1 _. rewrite Ei. intros E. apply (Hnr (ind x)); [split; [by left | lia] | done].
  - intros _ i Hi. by apply Ha.
  - split; [right; by exists bn | lia].
Qed.

(** A new indirect block. *)
Lemma grow_ind C x r C1 :
  inode_wf C x → meta_used C → allocated C r C1 → ind x = 0 →
  grow C x C1 (set_daddr NDIRECT r x) ∧ ind (set_daddr NDIRECT r x) = r ∧
  ∀ bn, 0 ≤ bn < MAXFILE → fblk C1 (set_daddr NDIRECT r x) bn = fblk C x bn.
Proof.
  intros Hw Hm Ha Hz. pose proof (al_free _ _ _ Ha) as Hr. pose proof (first_free_data sb C r Hm Hr) as Hrd.
  pose proof (inodes_before_data sb Hsb) as Hlay. pose proof (iw_len _ _ Hw) as Hl.
  assert (Ei : ind (set_daddr NDIRECT r x) = r) by (by rewrite daddr_set, decide_True by (unfold NDIRECT; lia || done)).
  assert (Hf : ∀ bn, 0 ≤ bn < MAXFILE → fblk C1 (set_daddr NDIRECT r x) bn = fblk C x bn).
  { intros bn Hbn. unfold fblk. rewrite Ei, Hz. destruct (Z.ltb_spec bn NDIRECT).
    - by rewrite daddr_set, decide_False by (unfold NDIRECT in *; lia || done).
    - destruct (Z.eqb_spec r 0); [lia|]. cbn [Z.eqb]. apply ld32_zero. intros i Hi.
      apply (al_zero _ _ _ Ha). revert Hbn. unfold MAXFILE. change NINDIRECT with 256. change BSIZE with 1024. lia. }
  assert (Hno : ∀ bn, 0 ≤ bn < MAXFILE → fblk C1 (set_daddr NDIRECT r x) bn ≠ r).
  { intros bn Hbn. rewrite Hf by done. intros E. destruct (iw_data _ _ Hw r) as [_ Hu].
    - rewrite <- E. split; [right; by exists bn | lia].
    - destruct Hr as (_ & Hr & _). congruence. }
  split_and!; [|done | done]. eapply (grow_intro C x r); try done.
  - cbn. apply length_insert.
  - apply (al_used _ _ _ Ha).
  - intros n Hn Hu _. by apply (al_keep _ _ _ Ha).
  - apply (al_low _ _ _ Ha).
  - intros bn Hbn. left. by apply Hf.
  - by right.
  - intros b1 b2 H1 H2 E1. by apply Hno in E1.
  - intros b1 H1 E1. by apply Hno in E1.
  - intros (bn & Hbn & E). by apply Hno in E.
  - split; [by left | lia].
Qed.

(** A new block listed in the indirect block. *)
Lemma grow_indirect C x r C1 bn :
  inode_wf C x → meta_used C → allocated C r C1 → ind x ≠ 0 → NDIRECT ≤ bn < MAXFILE → fblk C x bn = 0 →
  let C' := <[ind x := st32 (C1 (ind x)) (4 * (bn - NDIRECT)) r]> C1 in
  grow C x C' x ∧ ∀ bn', 0 ≤ bn' < MAXFILE → fblk C' x bn' = if decide (bn' = bn) then r else fblk C x bn'.
Proof.
  intros Hw Hm Ha Hi Hbn Hz C'. pose proof (al_free _ _ _ Ha) as Hr. pose proof (first_free_data sb C r Hm Hr) as Hrd.
  pose proof (inodes_before_data sb Hsb) as Hlay. destruct (iw_data _ _ Hw (ind x)) as [Hid Hiu]; [split; [by left | done]|].
  assert (Hnr : ∀ a, owns C x a → a ≠ r).
  { intros a Ho ->. destruct (iw_data _ _ Hw r Ho) as [_ Hu]. destruct Hr as (_ & Hr & _). congruence. }
  assert (Hir : ind x ≠ r) by (apply Hnr; split; [by left | done]).
  destruct (sw_data _ Hsb) as [_ Hsz].
  assert (Hf : ∀ bn', 0 ≤ bn' < MAXFILE → fblk C' x bn' = if decide (bn' = bn) then r else fblk C x bn').
  { intros bn' Hbn'. unfold fblk. destruct (Z.ltb_spec bn' NDIRECT); [by rewrite decide_False by lia|].
    destruct (Z.eqb_spec (ind x) 0); [done|]. subst C'. rewrite fn_lookup_insert. destruct (decide (bn' = bn)) as [->|].
    - rewrite ld32_st32_eq. apply u32_small. lia.
    - rewrite ld32_st32_ne by lia. by rewrite (al_keep _ _ _ Ha). }
  assert (Hr_only : ∀ bn', 0 ≤ bn' < MAXFILE → fblk C' x bn' = r → bn' = bn).
  { intros bn' Hbn'. rewrite Hf by done. destruct (decide (bn' = bn)); [done|]. intros E. exfalso.
    apply (Hnr (fblk C x bn')); [split; [right; by exists bn' | lia] | done]. }
  assert (Hbm : 0 ≤ bn < MAXFILE) by (unfold NDIRECT in *; lia).
  assert (Hfbn : fblk C' x bn = r) by (rewrite Hf by done; by rewrite decide_True).
  split; [|done]. eapply (grow_intro C x r); try done.
  - intros n Hn. rewrite <- (al_used _ _ _ Ha) by done. unfold used. subst C'.
    pose proof (BBLOCK_range sb n Hn). by rewrite fn_lookup_insert_ne by lia.
  - intros n Hn Hu Hni. subst C'. rewrite fn_lookup_insert_ne by done. by apply (al_keep _ _ _ Ha).
  - intros n Hn. subst C'. rewrite fn_lookup_insert_ne by lia. by apply (al_low _ _ _ Ha).
  - intros bn' Hbn'. rewrite Hf by done. destruct (decide (bn' = bn)) as [->|]; [by right | by left].
  - by left.
  - intros b1 b2 H1 H2 E1 E2. apply Hr_only in E1, E2; [congruence | done..].
  - intros _ i Hii. subst C'. rewrite fn_lookup_insert_ne by done. by apply (al_zero _ _ _ Ha).
  - split; [right; by exists bn | lia].
Qed.

(** New bytes in a data block of the file. *)
Lemma data_write C x bn v :
  let r := fblk C x bn in
  inode_wf C x → meta_used C → 0 ≤ bn < MAXFILE → r ≠ 0 →
  evolve C x (<[r := v]> C) x ∧
  ∀ off, 0 ≤ off < MAXFILE * BSIZE →
    fbyte (<[r := v]> C) x off = if decide (off / BSIZE = bn) then ld8 v (off mod BSIZE) else fbyte C x off.
Proof.
  intros r Hw Hm Hbn Hr. pose proof (inodes_before_data sb Hsb) as Hlay.
  assert (Hown : owns C x r) by (split; [right; by exists bn | done]).
  destruct (iw_data _ _ Hw r Hown) as [Hrd Hru].
  assert (Hri : ind x ≠ r).
  { intros E. apply Hr. unfold r in *. rewrite <- E. by apply (iw_ind _ _ Hw bn). }
  assert (Hf : ∀ bn', fblk (<[r := v]> C) x bn' = fblk C x bn').
  { intros bn'. unfold fblk. by rewrite fn_lookup_insert_ne by done. }
  assert (Hu : ∀ n, 0 ≤ n < sb_size sb → used (<[r := v]> C) n = used C n).
  { intros n Hn. unfold used. pose proof (BBLOCK_range sb n Hn). by rewrite fn_lookup_insert_ne by lia. }
  assert (Ho : ∀ a, owns (<[r := v]> C) x a ↔ owns C x a).
  { intros a. unfold owns. by setoid_rewrite Hf. }
  assert (Hsz : datastart sb < sb_size sb) by apply (sw_data _ Hsb).
  split; [split|].
  - destruct Hw as [W1 W2 W3 W4]. split; [done | | |].
    + intros a Ha%Ho. destruct (W2 a Ha). rewrite Hu by lia. done.
    + intros b1 b2. rewrite !Hf. apply W3.
    + intros b1. rewrite !Hf. apply W4.
  - intros n Hn. rewrite Hu by lia. by apply Hm.
  - intros n Hn. by rewrite Hu.
  - intros n Hn E1. rewrite Hu by done. congruence.
  - intros n. by rewrite Ho.
  - intros n. rewrite Ho. by left.
  - intros n Hn _ Hno. rewrite fn_lookup_insert_ne; [done|]. intros <-. done.
  - intros n Hn. by rewrite fn_lookup_insert_ne by lia.
  - done.
  - intros b1 _ _. apply Hf.
  - intros off Hoff. assert (0 ≤ off / BSIZE < MAXFILE) by (revert Hoff; change BSIZE with 1024; zdiv).
    unfold fbyte. rewrite Hf. destruct (decide (off / BSIZE = bn)) as [->|Hne].
    + destruct (Z.eqb_spec (fblk C x bn) 0); [done|]. by rewrite fn_lookup_insert.
    + destruct (Z.eqb_spec (fblk C x (off / BSIZE)) 0); [done|]. rewrite fn_lookup_insert_ne; [done|].
      intros E. apply Hne. symmetry. by apply (iw_inj _ _ Hw).
Qed.

End inode.
