(* ===== verification/FsMap.v ===== *)
(** * FsMap: bmap (src/kernel/fs.c) grows the file by the block asked for *)

From stdpp Require Import functions.
From S2P Require Import Prelude Mem Layout FsFormat Bio BioPool Log LogCrash Kalloc Vm Fs FsTx FsBlocks FsInode.

Local Open Scope Z_scope.

(** The inode table [it'] is [it] with the disk part of entry [ip] replaced. *)
Definition itable_set (ip : nat) (d : dinode) (it it' : nat → inode) : Prop :=
  it' ip = set_i_d d (it ip) ∧ ∀ j, j ≠ ip → it' j = it j.

Lemma itable_set_refl ip it : itable_set ip (i_d (it ip)) it it.
Proof. split; [by destruct (it ip) | done]. Qed.

Lemma itable_set_trans ip d1 d2 it it1 it2 :
  itable_set ip d1 it it1 → itable_set ip d2 it1 it2 → itable_set ip d2 it it2.
Proof. intros [E1 H1] [E2 H2]. split; [by rewrite E2, E1 | intros j Hj; rewrite H2, H1; done]. Qed.

Lemma itable_set_iupd ip f d it :
  f (it ip) = set_i_d d (it ip) → itable_set ip d it (<[ip := f (it ip)]> it).
Proof.
  intros Hf. split; [by rewrite fn_lookup_insert | intros j Hj; by rewrite fn_lookup_insert_ne].
Qed.

Section bmap.
  Context (me d0 : Z) (Hd0 : d0 ≠ 0) (sb : superblock) (Hsb : sb_wf sb) (ops : Z).
  Abbreviation tx := (tx me d0 (sb_logstart sb) (sb_nlog sb) ops).
  Abbreviation grow := (grow sb).
  Abbreviation inode_wf := (inode_wf sb).

(** [addr = balloc(ip->dev); if(addr == 0) return 0; ip->addrs[i] = addr] *)
Lemma balloc_addr_ok x it km ip C k (i : Z) :
  tx x [] C k → meta_used sb C → 2 ≤ k → i_dev (it ip) = d0 →
  ∃ r x' C' it',
    (addr ← balloc me (i_dev (it ip)); if addr =? 0 then mret 0 else iupd ip (set_i_addr i addr);; mret addr)
      (mkFsys x sb it km) = Ok (r, mkFsys x' sb it' km) ∧
    tx x' [] C' (k - 2) ∧
    ((r = 0 ∧ C' = C ∧ it' = it ∧ ∀ n, 0 ≤ n < sb_size sb → used sb C n = true) ∨
     (first_free sb C r ∧ r ≠ 0 ∧ C' = alloc sb C r ∧ itable_set ip (set_daddr i r (i_d (it ip))) it it')).
Proof.
  intros Ht Hm Hk Hdev. rewrite Hdev.
  destruct (balloc_ok me d0 Hd0 sb Hsb ops x it km [] C k Ht Hm) as (r & x' & C' & R & Ht' & Ho & _).
  { by intros b ?%elem_of_nil. }
  { cbn. lia. }
  rewrite (bind_ok _ _ _ _ _ R). destruct Ho as [(-> & -> & Hall)|[Hf ->]].
  - exists 0, x', C, it. split_and!; [done..|]. by left.
  - pose proof (first_free_data sb C r Hm Hf) as Hr. pose proof (inodes_before_data sb Hsb).
    destruct (Z.eqb_spec r 0); [lia|]. eexists r, x', (alloc sb C r), _. split_and!; [reflexivity | done |].
    right. split_and!; [done..|]. by apply itable_set_iupd.
Qed.

(** The budget and contents of an unchanged transaction. *)
Lemma tx_less x held C k k' : k' ≤ k → tx x held C k → tx x held C k'.
Proof. intros Hk. by apply tx_weaken. Qed.

(** The indirect block, allocated if necessary. *)
Lemma bmap_ind_ok x it km ip C k :
  let d := i_d (it ip) in
  tx x [] C k → meta_used sb C → inode_wf C d → 2 ≤ k → i_dev (it ip) = d0 →
  ∃ a x' C' d' it',
    (if addr_at (it ip) NDIRECT =? 0 then
       addr ← balloc me (i_dev (it ip));
       if addr =? 0 then mret 0 else iupd ip (set_i_addr NDIRECT addr);; mret addr
     else mret (addr_at (it ip) NDIRECT)) (mkFsys x sb it km) = Ok (a, mkFsys x' sb it' km) ∧
    tx x' [] C' (k - 2) ∧ grow C d C' d' ∧ itable_set ip d' it it' ∧ a = ind d' ∧
    (a = 0 → ∀ n, 0 ≤ n < sb_size sb → used sb C' n = true).
Proof.
  intros d Ht Hm Hw Hk Hdev. change (addr_at (it ip) NDIRECT) with (ind d).
  destruct (Z.eqb_spec (ind d) 0) as [Hz|Hnz].
  - destruct (balloc_addr_ok x it km ip C k NDIRECT Ht Hm Hk Hdev) as (r & x' & C' & it' & -> & Ht' & Ho).
    destruct Ho as [(-> & -> & -> & Hall)|(Hf & Hr & -> & Hit)].
    + exists 0, x', C, d, it. split_and!; [done | done | by apply grow_refl | apply itable_set_refl | done | done].
    + destruct (grow_ind sb Hsb C d r (alloc sb C r) Hw Hm (alloc_allocated sb Hsb C r Hm Hf) Hz) as (Hg & Hi & _). eexists r, x', _, _, it'.
      split_and!; [done | done | exact Hg | exact Hit | done | done].
  - exists (ind d), x, C, d, it.
    split_and!; [done | by eapply tx_less, Ht; lia | by apply grow_refl | apply itable_set_refl | done | done].
Qed.

(** Entry [bn] of the indirect block, allocated if necessary. *)
Lemma bmap_entry_ok x it km C d k bn :
  tx x [] C k → meta_used sb C → inode_wf C d → 3 ≤ k → NDIRECT ≤ bn < MAXFILE → ind d ≠ 0 →
  ∃ r x' C',
    (bp ← in_buf (bread me d0 (ind d));
     b ← in_buf (rd bp b_data);
     addr ← (if ld32 b (4 * (bn - NDIRECT)) =? 0 then
               addr ← balloc me d0;
               (if negb (addr =? 0) then
                  in_buf (upd bp (λ y, set_data (st32 (b_data y) (4 * (bn - NDIRECT)) addr) y));;
                  in_ls (log_write bp)
                else mret tt);;
               mret addr
             else mret (ld32 b (4 * (bn - NDIRECT))));
     in_buf (brelse me bp);;
     mret addr) (mkFsys x sb it km) = Ok (r, mkFsys x' sb it km) ∧
    tx x' [] C' (k - 3) ∧ grow C d C' d ∧ r = fblk C' d bn ∧
    (r = 0 → ∀ n, 0 ≤ n < sb_size sb → used sb C' n = true).
Proof.
  intros Ht Hm Hw Hk Hbn Hi. pose proof (inodes_before_data sb Hsb) as Hlay.
  destruct (iw_data _ _ _ Hw (ind d)) as [Hid Hiu]; [split; [by left | done]|].
  assert (Ef : fblk C d bn = ld32 (C (ind d)) (4 * (bn - NDIRECT))).
  { unfold fblk. destruct (Z.ltb_spec bn NDIRECT); [lia|]. by destruct (Z.eqb_spec (ind d) 0). }
  destruct (tx_bread Hd0 (ind d) Ht) as (p & x1 & R1 & Ht1 & Ep & _ & _); [by intros ? ?%elem_of_nil | cbn; lia|].
  run_ls R1. rewrite bind_data, (tx_data Hd0 p Ht1), Ep, <- Ef by left.
  destruct (Z.eqb_spec (fblk C d bn) 0) as [Hz|Hnz].
  - destruct (balloc_ok me d0 Hd0 sb Hsb ops x1 it km [p] C k Ht1 Hm) as (r & x2 & C2 & R2 & Ht2 & Ho & Hbl2).
    { intros b ->%list_elem_of_singleton. rewrite Ep. split; [done | lia]. }
    { cbn. lia. }
    rewrite bind_assoc, (bind_ok _ _ _ _ _ R2), bind_assoc. destruct Ho as [(-> & -> & Hall)|[Hf ->]].
    + cbn [Z.eqb negb]. rewrite !bind_ret. destruct (tx_brelse Hd0 [] p Ht2) as (x3 & R3 & Ht3 & _); [done|].
      run_ls R3. exists 0, x3, C. split_and!; [done | by eapply tx_less, Ht3; lia | by apply grow_refl | congruence | done].
    + pose proof (first_free_data sb C r Hm Hf) as Hr. destruct (Z.eqb_spec r 0); [lia|]. cbn [negb]. rewrite bind_assoc.
      assert (Ep2 : blk x2 p = ind d) by (rewrite Hbl2; [done | left]).
      destruct (tx_update Hd0 p (st32 (alloc sb C r (ind d)) (4 * (bn - NDIRECT)) r)
        (λ y, set_data (st32 (b_data y) (4 * (bn - NDIRECT)) r) y) Ht2) as (x3 & x4 & R3 & R4 & Ht4 & _);
        [left | lia | rewrite Ep2; apply data_loggable; [done | lia] | |].
      { by rewrite (tx_data Hd0 p Ht2), Ep2 by left. }
      run_ls R3. run_ls R4. rewrite bind_ret. destruct (tx_brelse Hd0 [] p Ht4) as (x5 & R5 & Ht5 & _); [done|].
      run_ls R5. rewrite Ep2 in Ht5. destruct (grow_indirect sb Hsb C d r (alloc sb C r) bn Hw Hm (alloc_allocated sb Hsb C r Hm Hf) Hi Hbn Hz) as [Hg Hfb].
      specialize (Hfb bn ltac:(unfold NDIRECT in *; lia)). rewrite decide_True in Hfb by done.
      eexists r, x5, _. split_and!; [done | by eapply tx_less, Ht5; lia | exact Hg | done | lia].
  - rewrite bind_ret. destruct (tx_brelse Hd0 [] p Ht1) as (x2 & R2 & Ht2 & _); [done|]. run_ls R2.
    exists (fblk C d bn), x2, C. split_and!; [done | by eapply tx_less, Ht2; lia | by apply grow_refl | done | done].
Qed.

Lemma bmap_ok x it km ip C k bn :
  let d := i_d (it ip) in
  tx x [] C k → meta_used sb C → inode_wf C d → 5 ≤ k → i_dev (it ip) = d0 → 0 ≤ bn < MAXFILE →
  ∃ r x' C' d' it', bmap me ip bn (mkFsys x sb it km) = Ok (r, mkFsys x' sb it' km) ∧
    tx x' [] C' (k - 5) ∧ grow C d C' d' ∧ itable_set ip d' it it' ∧
    r = fblk C' d' bn ∧ (r = 0 → ∀ n, 0 ≤ n < sb_size sb → used sb C' n = true).
Proof.
  intros d Ht Hm Hw Hk Hdev Hbn. unfold bmap, iget_f. rewrite bind_gets. cbn [itable id].
  destruct (Z.ltb_spec bn NDIRECT) as [Hlt|Hge].
  - assert (Ef : ∀ C' d', fblk C' d' bn = daddr d' bn).
    { intros. unfold fblk. by destruct (Z.ltb_spec bn NDIRECT); [|lia]. }
    change (addr_at (it ip) bn) with (daddr d bn). destruct (Z.eqb_spec (daddr d bn) 0) as [Hz|Hnz].
    + destruct (balloc_addr_ok x it km ip C k bn Ht Hm ltac:(lia) Hdev) as (r & x' & C' & it' & -> & Ht' & Ho).
      destruct Ho as [(-> & -> & -> & Hall)|(Hf & Hr & -> & Hit)].
      * exists 0, x', C, d, it.
        split_and!; [done | by eapply tx_less, Ht'; lia | by apply grow_refl | apply itable_set_refl | by rewrite Ef | done].
      * destruct (grow_direct sb Hsb C d r (alloc sb C r) bn Hw Hm (alloc_allocated sb Hsb C r Hm Hf) ltac:(lia) Hz) as (Hg & _ & Hfb).
        specialize (Hfb bn Hbn). rewrite decide_True in Hfb by done. eexists r, x', _, _, it'.
        split_and!; [done | by eapply tx_less, Ht'; lia | exact Hg | exact Hit | done | done].
    + exists (daddr d bn), x, C, d, it.
      split_and!; [done | by eapply tx_less, Ht; lia | by apply grow_refl | apply itable_set_refl | by rewrite Ef | done].
  - cbv zeta. destruct (Z.ltb_spec (bn - NDIRECT) NINDIRECT) as [_|Hbig]; [|unfold MAXFILE in Hbn; lia].
    destruct (bmap_ind_ok x it km ip C k Ht Hm Hw ltac:(lia) Hdev) as (a & x1 & C1 & d1 & it1 & R1 & Ht1 & Hg1 & Hit1 & -> & Ha0).
    rewrite (bind_ok _ _ _ _ _ R1). destruct (Z.eqb_spec (ind d1) 0) as [Hz|Hnz].
    + exists 0, x1, C1, d1, it1.
      split_and!; [done | by eapply tx_less, Ht1; lia | done | done | | by auto].
      unfold fblk. destruct (Z.ltb_spec bn NDIRECT); [lia|]. by rewrite Hz.
    + rewrite Hdev. destruct (bmap_entry_ok x1 it1 km C1 d1 (k - 2) bn Ht1) as (r & x2 & C2 & R2 & Ht2 & Hg2 & Hr & Hr0);
        [apply (gr_meta _ _ _ _ _ (proj1 Hg1)) | apply (gr_wf _ _ _ _ _ (proj1 Hg1)) | lia | lia | done |].
      exists r, x2, C2, d1, it1. split_and!; [exact R2 | by eapply tx_less, Ht2; lia | by eapply grow_trans | done | done | done].
Qed.

End bmap.
