(* ===== verification/FsCopy.v ===== *)
(** * FsCopy: either_copyin and either_copyout as the file system uses them

    [readi] and [writei] copy between buffers of the cache and an address that is the
    kernel's or the user's.  [CopySource] and [CopySink] state what they need of such an
    address; kernel memory and the process's address space are instances. *)

From S2P Require Import Prelude Mem Layout Kalloc Vm VmTable VmUser VmCopy FsFormat Fs.
Import CString.

Local Open Scope Z_scope.

Section copy.
  Context {K : KernelImage} {KOk : KernelImageOk K}.
  Context (pagetable : Z) (T : gmap Z nat) (kaddr : slot → Z).

(** Address [a] lies in the data of a buffer. *)
Definition buf_byte (a : Z) : Prop :=
  ∃ b, (b < Z.to_nat NBUF)%nat ∧ kaddr (SBuf b) ≤ a < kaddr (SBuf b) + BSIZE.

(** [bp->data] as [data_to_mem] puts it in memory. *)
Abbreviation load m b d := (blit (Z.to_nat BSIZE) m (kaddr (SBuf b)) d 0).

Lemma load_byte m b d i : 0 ≤ i < BSIZE → ld8 (load m b d) (kaddr (SBuf b) + i) = ld8 d i.
Proof.
  intros Hi. rewrite ld8_blit, Z2Nat.id by done.
  destruct (Z.leb_spec (kaddr (SBuf b)) (kaddr (SBuf b) + i)),
    (Z.ltb_spec (kaddr (SBuf b) + i) (kaddr (SBuf b) + BSIZE)); try lia. cbn [andb]. f_equal. lia.
Qed.

Lemma load_other m b d a :
  (b < Z.to_nat NBUF)%nat → ¬ buf_byte a → ld8 (load m b d) a = ld8 m a.
Proof.
  intros Hb Ha. rewrite ld8_blit, Z2Nat.id by done. destruct (_ && _) eqn:E; [|done].
  exfalso. apply Ha. exists b. split; [done | lia].
Qed.

(** Bytes [f 0], ..., [f (len - 1)] can be read from [src]. *)
Class CopySource (user : bool) (env : memory → Prop) (src_ok : memory → Z → Z → (Z → Z) → Prop) : Prop := {
  so_range m src len f : src_ok m src len f → 0 ≤ src ∧ src + len < 2 ^ 64;
  so_load m b d : env m → (b < Z.to_nat NBUF)%nat →
    env (load m b d) ∧ ∀ src len f, src_ok m src len f → src_ok (load m b d) src len f;
  so_copy km b o src len n f :
    env (k_mem km) → src_ok (k_mem km) src len f → 0 ≤ n ≤ len →
    (b < Z.to_nat NBUF)%nat → 0 ≤ o → o + n ≤ BSIZE →
    ∃ km', either_copyin pagetable (kaddr (SBuf b) + o) user src n km = Ok (0, km') ∧
      k_freelist km' = k_freelist km ∧ env (k_mem km') ∧
      src_ok (k_mem km') (src + n) (len - n) (λ i, f (n + i)) ∧
      (∀ a, a < kaddr (SBuf b) + o ∨ kaddr (SBuf b) + o + n ≤ a → ld8 (k_mem km') a = ld8 (k_mem km) a) ∧
      (∀ i, 0 ≤ i < n → ld8 (k_mem km') (kaddr (SBuf b) + o + i) = f i);
}.

(** [len] bytes can be written at [dst]; [dst_ld] reads them back, and the kernel's bytes
    that are [safe] from a write of [n] bytes at [dst] keep their values. *)
Class CopySink (user : bool) (env : memory → Prop) (dst_ok : memory → Z → Z → Prop)
    (dst_ld : memory → Z → option Z) (safe : memory → Z → Z → Z → Prop) : Prop := {
  si_range m dst len : dst_ok m dst len → 0 ≤ dst ∧ dst + len < 2 ^ 64;
  si_sub m dst len i n : dst_ok m dst len → 0 ≤ i → 0 ≤ n → i + n ≤ len → dst_ok m (dst + i) n;
  si_safe m dst len n a : safe m dst len a → 0 ≤ n ≤ len → safe m dst n a ∧ safe m (dst + n) (len - n) a;
  si_load m b d : env m → (b < Z.to_nat NBUF)%nat →
    env (load m b d) ∧ (∀ dst len, dst_ok m dst len → dst_ok (load m b d) dst len) ∧
    (∀ a, dst_ok m a 1 → dst_ld (load m b d) a = dst_ld m a) ∧
    (∀ dst n a, safe m dst n a → safe (load m b d) dst n a);
  si_copy km b o dst len n :
    env (k_mem km) → dst_ok (k_mem km) dst len → 0 ≤ n ≤ len →
    (b < Z.to_nat NBUF)%nat → 0 ≤ o → o + n ≤ BSIZE →
    ∃ km', either_copyout pagetable user dst (kaddr (SBuf b) + o) n km = Ok (0, km') ∧
      k_freelist km' = k_freelist km ∧ env (k_mem km') ∧
      (∀ dst len, dst_ok (k_mem km) dst len → dst_ok (k_mem km') dst len) ∧
      (∀ i, 0 ≤ i < n → dst_ld (k_mem km') (dst + i) = Some (ld8 (k_mem km) (kaddr (SBuf b) + o + i))) ∧
      (∀ a, 0 ≤ a → a < dst ∨ dst + n ≤ a → dst_ld (k_mem km') a = dst_ld (k_mem km) a) ∧
      (∀ a, safe (k_mem km) dst n a → ld8 (k_mem km') a = ld8 (k_mem km) a) ∧
      (∀ dst' n' a, safe (k_mem km) dst' n' a → safe (k_mem km') dst' n' a);
}.

(** ** Kernel memory *)

Definition kenv (m : memory) : Prop := True.

Definition ksrc (m : memory) (src len : Z) (f : Z → Z) : Prop :=
  0 ≤ src ∧ src + len < 2 ^ 64 ∧ ∀ i, 0 ≤ i < len → ¬ buf_byte (src + i) ∧ ld8 m (src + i) = f i.

#[export] Instance kernel_source : CopySource false kenv ksrc.
Proof.
  split.
  - intros m src len f (H1 & H2 & _). done.
  - intros m b d _ Hb. split; [done|]. intros src len f (H1 & H2 & H3). split_and!; [done..|].
    intros i Hi. destruct (H3 i Hi) as [Hn E]. split; [done|]. by rewrite load_other.
  - intros km b o src len n f _ (H1 & H2 & H3) Hn Hb Ho Hsz. cbn [either_copyin].
    eexists. split; [reflexivity|]. cbn [k_mem k_freelist]. set (m' := memmove _ _ _ _).
    assert (Hout : ∀ a, a < kaddr (SBuf b) + o ∨ kaddr (SBuf b) + o + n ≤ a → ld8 m' a = ld8 (k_mem km) a).
    { intros a Ha. subst m'. rewrite ld8_memmove by lia. by destruct (_ && _) eqn:E; [lia|]. }
    split_and!; [done | done | unfold ksrc; split_and!; [lia..|] | done |].
    + intros i Hi. destruct (H3 (n + i) ltac:(lia)) as [Hnb E]. rewrite Z.add_assoc in *. split; [done|].
      rewrite Hout; [done|]. apply dec_stable. intros Hin. apply Hnb. exists b. split; [done | lia].
    + intros i Hi. subst m'. rewrite ld8_memmove by lia. destruct (_ && _) eqn:E; [|lia].
      replace (src + (kaddr (SBuf b) + o + i - (kaddr (SBuf b) + o))) with (src + i) by lia. apply H3. lia.
Qed.

Definition kdst (m : memory) (dst len : Z) : Prop :=
  0 ≤ dst ∧ dst + len < 2 ^ 64 ∧ ∀ i, 0 ≤ i < len → ¬ buf_byte (dst + i).
Definition kld (m : memory) (a : Z) : option Z := Some (ld8 m a).
Definition ksafe (m : memory) (dst n a : Z) : Prop := a < dst ∨ dst + n ≤ a.

#[export] Instance kernel_sink : CopySink false kenv kdst kld ksafe.
Proof.
  split.
  - by intros m dst len (H1 & H2 & _).
  - intros m dst len i n (H1 & H2 & H3) Hi Hn Hin. split_and!; [lia.. |].
    intros j Hj. rewrite <- Z.add_assoc. apply H3. lia.
  - unfold ksafe. lia.
  - intros m b d _ Hb. split_and!; [done | done | | done].
    intros a (_ & _ & H). unfold kld. rewrite load_other; [done..|]. rewrite <- (Z.add_0_r a). apply H. lia.
  - intros km b o dst len n _ (H1 & H2 & H3) Hn Hb Ho Hsz. cbn [either_copyout].
    eexists. split; [reflexivity|]. cbn [k_mem k_freelist]. set (m' := memmove _ _ _ _).
    assert (Hout : ∀ a, a < dst ∨ dst + n ≤ a → ld8 m' a = ld8 (k_mem km) a).
    { intros a Ha. subst m'. rewrite ld8_memmove by lia. by destruct (_ && _) eqn:E; [lia|]. }
    split_and!; [done..| | | |done].
    + intros i Hi. unfold kld. f_equal. subst m'. rewrite ld8_memmove by lia. destruct (_ && _) eqn:E; [|lia].
      f_equal. lia.
    + intros a _ Ha. unfold kld. by rewrite Hout.
    + intros a Ha. by apply Hout.
Qed.

(** ** The process's address space *)

(** The buffers are kernel memory. *)
Definition uenv (m : memory) : Prop :=
  user_space m pagetable T ∧ ∀ a, buf_byte a → kernel_byte m pagetable T a.

Lemma uenv_same m m' : uenv m → same_tables T m m' → uenv m'.
Proof.
  intros [Hu Hk] Hs. split; [by eapply same_user_space|]. intros a Ha.
  eapply same_kernel_byte; [done | apply Hu | by apply Hk].
Qed.

(** A change of kernel bytes only. *)
Lemma uenv_kernel m m' :
  uenv m → (∀ a, ¬ kernel_byte m pagetable T a → ld8 m' a = ld8 m a) →
  same_tables T m m' ∧ (∀ va, 0 ≤ va → user_ld m' pagetable va = user_ld m pagetable va).
Proof.
  intros [Hu Hk] Hsame. assert (Hs : same_tables T m m').
  { intros p a Hp Ha. apply Hsame. intros [Hk' _]. by apply Hk' in Hp. }
  split; [done|]. intros va Hva. eapply user_ld_kernel; [apply Hu | done..].
Qed.

Lemma load_kernel m b d :
  uenv m → (b < Z.to_nat NBUF)%nat → ∀ a, ¬ kernel_byte m pagetable T a → ld8 (load m b d) a = ld8 m a.
Proof. intros [_ Hk] Hb a Ha. apply load_other; [done|]. intros Hbuf. by apply Ha, Hk. Qed.

Definition usrc (m : memory) (src len : Z) (f : Z → Z) : Prop :=
  0 ≤ src ∧ src + len < 2 ^ 64 ∧ ∀ i, 0 ≤ i < len → user_ld m pagetable (src + i) = Some (f i).

#[export] Instance user_source : CopySource true uenv usrc.
Proof.
  split.
  - by intros m src len f (H1 & H2 & _).
  - intros m b d He Hb. destruct (uenv_kernel m (load m b d) He) as [Hs Hl]; [by apply load_kernel|].
    split; [by eapply uenv_same|]. intros src len f (H1 & H2 & H3). split_and!; [done..|].
    intros i Hi. rewrite Hl by lia. by apply H3.
  - intros km b o src len n f He (H1 & H2 & H3) Hn Hb Ho Hsz. cbn [either_copyin]. unfold copyin.
    assert (Hbuf : ∀ a, kaddr (SBuf b) + o ≤ a < kaddr (SBuf b) + o + n → kernel_byte (k_mem km) pagetable T a).
    { intros a Ha. apply He. exists b. split; [done | lia]. }
    destruct (copyin_loop_ok pagetable T (copy_fuel n) km (kaddr (SBuf b) + o) src n) as (r & km' & R & Hfl & Hout & Hres);
      [apply He | done | done | apply copy_fuel_enough; lia | unfold copy_fuel; lia |].
    destruct Hres as [[-> Hin]|[-> (i & Hi & Hnone)]].
    2:{ exfalso. specialize (H3 i ltac:(lia)). unfold user_ld in H3. by rewrite Hnone in H3. }
    destruct (uenv_kernel (k_mem km) (k_mem km') He) as [Hs Hl].
    { intros a Ha. apply Hout. apply dec_stable. intros Hr. apply Ha, Hbuf. lia. }
    exists km'. split_and!; [done | done | by eapply uenv_same | unfold usrc; split_and!; [lia..|] | done |].
    + intros i Hi. rewrite Hl, <- Z.add_assoc by lia. apply H3. lia.
    + intros i Hi. specialize (Hin i Hi). rewrite H3 in Hin by lia. by injection Hin.
Qed.

Definition udst (m : memory) (dst len : Z) : Prop :=
  0 ≤ dst ∧ dst + len < 2 ^ 64 ∧ ∀ i, 0 ≤ i < len → user_writable m pagetable (dst + i) = true.
Definition uld (m : memory) (a : Z) : option Z := user_ld m pagetable a.
Definition usafe (m : memory) (dst n a : Z) : Prop := kernel_byte m pagetable T a.

Lemma udst_same m m' dst len : uenv m → same_tables T m m' → udst m dst len → udst m' dst len.
Proof.
  intros [Hu _] Hs (H1 & H2 & H3). split_and!; [done..|]. intros i Hi.
  rewrite (same_user_writable T m m') by (done || apply Hu). by apply H3.
Qed.

#[export] Instance user_sink : CopySink true uenv udst uld usafe.
Proof.
  split.
  - by intros m dst len (H1 & H2 & _).
  - intros m dst len i n (H1 & H2 & H3) Hi Hn Hin. split_and!; [lia.. |].
    intros j Hj. rewrite <- Z.add_assoc. apply H3. lia.
  - done.
  - intros m b d He Hb. destruct (uenv_kernel m (load m b d) He) as [Hs Hl]; [by apply load_kernel|].
    split_and!; [by eapply uenv_same | intros dst len; by eapply udst_same | |].
    + intros a (H & _). by apply Hl.
    + intros dst n a. apply same_kernel_byte; [done | apply He].
  - intros km b o dst len n He (H1 & H2 & H3) Hn Hb Ho Hsz. cbn [either_copyout]. unfold copyout.
    assert (Hbuf : ∀ a, kaddr (SBuf b) + o ≤ a < kaddr (SBuf b) + o + n → kernel_byte (k_mem km) pagetable T a).
    { intros a Ha. apply He. exists b. split; [done | lia]. }
    destruct (copyout_loop_ok pagetable T (copy_fuel n) km dst (kaddr (SBuf b) + o) n)
      as (r & km' & R & Hfl & Hs & Hkb & Hout & Hres);
      [apply He | done | done | apply copy_fuel_enough; lia | unfold copy_fuel; lia |].
    destruct Hres as [[-> Hin]|[-> (i & Hi & Hno)]]; [|rewrite H3 in Hno by lia; done].
    exists km'. split_and!; [done | done | by eapply uenv_same | intros; by eapply udst_same | | done | done |].
    + intros i Hi. by apply Hin.
    + intros dst' n' a. apply same_kernel_byte; [done | apply He].
Qed.

End copy.

Arguments so_range {pagetable kaddr user env src_ok _} m src len f.
Arguments so_load {pagetable kaddr user env src_ok _} m b d.
Arguments so_copy {pagetable kaddr user env src_ok _} km b o src len n f.
Arguments si_range {pagetable kaddr user env dst_ok dst_ld safe _} m dst len.
Arguments si_sub {pagetable kaddr user env dst_ok dst_ld safe _} m dst len i n.
Arguments si_safe {pagetable kaddr user env dst_ok dst_ld safe _} m dst len n a.
Arguments si_load {pagetable kaddr user env dst_ok dst_ld safe _} m b d.
Arguments si_copy {pagetable kaddr user env dst_ok dst_ld safe _} km b o dst len n.
