(* ===== verification/FsFile.v ===== *)
(** * FsFile: iupdate, readi and writei (src/kernel/fs.c)

    Reading and writing a file through the inode table, the log and memory, for any
    source and destination that FsCopy.v admits. *)

From stdpp Require Import functions.
From S2P Require Import Prelude Mem Layout FsFormat Bio BioPool Log LogCrash Kalloc Vm VmTable VmUser VmCopy.
From S2P Require Import Fs FsTx FsBlocks FsInode FsMap FsCopy.
Import CString.

Local Open Scope Z_scope.
Local Opaque blit.

(** Blocks that [len] bytes from [off] touch. *)
Definition nblk (off len : Z) : Z :=
  if len <=? 0 then 0 else (off + len - 1) / BSIZE - off / BSIZE + 1.

(** What one iteration of [readi] or [writei] handles. *)
Definition chunk (off len : Z) : Z := Z.min len (BSIZE - off mod BSIZE).

Lemma mod_diff o off : o / BSIZE = off / BSIZE → o mod BSIZE - off mod BSIZE = o - off.
Proof. change BSIZE with 1024. zdiv. Qed.

Lemma block_range off n : 0 ≤ off → 0 < n → off + n ≤ MAXFILE * BSIZE → 0 ≤ off / BSIZE < MAXFILE.
Proof. change BSIZE with 1024. change MAXFILE with 268. zdiv. Qed.

Lemma chunk_bounds off len : 0 ≤ off → 0 < len →
  0 < chunk off len ≤ len ∧ off mod BSIZE + chunk off len ≤ BSIZE ∧
  (∀ i, 0 ≤ i < chunk off len → (off + i) / BSIZE = off / BSIZE ∧ (off + i) mod BSIZE = off mod BSIZE + i).
Proof. intros Ho Hl. unfold chunk. change BSIZE with 1024. split_and!; [zdiv..|]. intros i Hi. zdiv. Qed.

Lemma nblk_step off len : 0 ≤ off → 0 < len →
  nblk (off + chunk off len) (len - chunk off len) = nblk off len - 1.
Proof.
  intros Ho Hl. unfold nblk, chunk. change BSIZE with 1024.
  destruct (Z.leb_spec len 0); [lia|].
  destruct (Z.leb_spec (len - Z.min len (1024 - off mod 1024)) 0); zdiv.
Qed.

Lemma nblk_nonneg off len : 0 ≤ off → 0 ≤ nblk off len.
Proof. intros. unfold nblk. change BSIZE with 1024. destruct (Z.leb_spec len 0); zdiv. Qed.

Lemma nblk_pos off len : 0 ≤ off → 0 < len → 1 ≤ nblk off len.
Proof. intros. unfold nblk. change BSIZE with 1024. destruct (Z.leb_spec len 0); zdiv. Qed.

Lemma rw_fuel_enough off len : 0 ≤ off → 0 ≤ len → nblk off len < Z.of_nat (rw_fuel len).
Proof.
  intros. unfold nblk, rw_fuel. rewrite !Nat2Z.inj_succ, Z2Nat.id by (apply Z.div_pos; done).
  change BSIZE with 1024. destruct (Z.leb_spec len 0); zdiv.
Qed.

Section file.
  Context {K : KernelImage} {KOk : KernelImageOk K}.
  Context (me d0 : Z) (Hd0 : d0 ≠ 0) (sb : superblock) (Hsb : sb_wf sb) (ops : Z).
  Context (pagetable : Z) (kaddr : slot → Z).
  Abbreviation tx := (tx me d0 (sb_logstart sb) (sb_nlog sb) ops).
  Abbreviation evolve := (evolve sb).
  Abbreviation inode_wf := (inode_wf sb).
  Abbreviation load m b d := (blit (Z.to_nat BSIZE) m (kaddr (SBuf b)) d 0).

(** ** Inodes on disk *)

Definition inum_ok (inum : Z) : Prop := 0 ≤ inum < sb_ninodes sb.

(** Offset of an inode in its block. *)
Definition ioff (inum : Z) : Z := DINODE_SIZE * (inum mod IPB).

(** The inode on disk. *)
Definition dino (C : Z → block) (inum : Z) : dinode := get_dinode (C (IBLOCK inum sb)) (ioff inum).

Definition put_dino (C : Z → block) (inum : Z) (x : dinode) : Z → block :=
  <[IBLOCK inum sb := put_dinode (C (IBLOCK inum sb)) (ioff inum) x]> C.

Lemma IBLOCK_range inum : inum_ok inum → sb_inodestart sb ≤ IBLOCK inum sb < sb_bmapstart sb.
Proof.
  intros Hi. pose proof (sw_bmap _ Hsb) as H. unfold inum_ok, IBLOCK in *. change IPB with 16 in *. zdiv.
Qed.

Lemma IBLOCK_loggable inum : inum_ok inum → loggable (sb_logstart sb) (sb_nlog sb) (IBLOCK inum sb).
Proof.
  intros Hi. pose proof (IBLOCK_range inum Hi). pose proof (inodes_before_data sb Hsb).
  destruct (sw_data _ Hsb). apply data_loggable; [done | lia].
Qed.

Lemma dino_put C inum x inum' :
  inum_ok inum → inum_ok inum' → dinode_ok x →
  dino (put_dino C inum x) inum' = if decide (inum' = inum) then x else dino C inum'.
Proof.
  intros Hi Hi' Hx. unfold dino, put_dino. destruct (decide (inum' = inum)) as [->|Hne].
  - rewrite fn_lookup_insert. by apply get_put_dinode.
  - destruct (decide (IBLOCK inum sb = IBLOCK inum' sb)) as [E|]; [|by rewrite fn_lookup_insert_ne].
    rewrite E, fn_lookup_insert. apply get_dinode_ext. intros a Ha. apply ld8_put_dinode; [apply Hx|].
    unfold IBLOCK, ioff, DINODE_SIZE in *. change IPB with 16 in *. unfold inum_ok in *. zdiv.
Qed.

(** Writing an inode back leaves every file's blocks and bytes alone. *)
Lemma put_dino_other C inum x n : n ≠ IBLOCK inum sb → put_dino C inum x n = C n.
Proof. intros H. unfold put_dino. by rewrite fn_lookup_insert_ne. Qed.

Lemma put_dino_used C inum x n :
  inum_ok inum → 0 ≤ n < sb_size sb → used sb (put_dino C inum x) n = used sb C n.
Proof.
  intros Hi Hn. unfold used. pose proof (IBLOCK_range inum Hi). pose proof (BBLOCK_range sb n Hn).
  by rewrite put_dino_other by lia.
Qed.

(** Contents that agree on the blocks of a file hold the same file. *)
Lemma file_ext C C' y :
  inode_wf C y → (∀ a, owns C y a → C' a = C a) → (∀ n, owns C y n → used sb C' n = true) →
  inode_wf C' y ∧ (∀ bn, 0 ≤ bn < MAXFILE → fblk C' y bn = fblk C y bn) ∧
  (∀ o, 0 ≤ o < MAXFILE * BSIZE → fbyte C' y o = fbyte C y o) ∧ (∀ a, owns C' y a ↔ owns C y a).
Proof.
  intros Hw Heq Hu.
  assert (Hf : ∀ bn, 0 ≤ bn < MAXFILE → fblk C' y bn = fblk C y bn).
  { intros bn Hbn. unfold fblk. destruct (bn <? NDIRECT); [done|].
    destruct (Z.eqb_spec (ind y) 0); [done|]. rewrite Heq; [done|]. split; [by left | done]. }
  assert (Ho : ∀ a, owns C' y a ↔ owns C y a).
  { intros a. unfold owns. split; intros [[?|(bn & Hbn & ->)] Hz]; split; auto.
    - right. exists bn. by rewrite Hf.
    - right. exists bn. by rewrite Hf. }
  split_and!; try done.
  - destruct Hw as [W1 W2 W3 W4]. split; [done | | |].
    + intros a Ha%Ho. split; [apply (W2 a Ha) | by apply Hu].
    + intros b1 b2 H1 H2. rewrite !Hf by done. by apply W3.
    + intros b1 H1. rewrite !Hf by done. by apply W4.
  - intros o Hoff. assert (0 ≤ o / BSIZE < MAXFILE) by (revert Hoff; change BSIZE with 1024; zdiv).
    unfold fbyte. rewrite Hf by done. destruct (Z.eqb_spec (fblk C y (o / BSIZE)) 0); [done|].
    rewrite Heq; [done|]. split; [right; by exists (o / BSIZE) | done].
Qed.

(** A well-formed inode can be stored. *)
Lemma wf_dinode_ok C x y :
  inode_wf C x → dinode_ok y → di_type x = di_type y → di_major x = di_major y → di_minor x = di_minor y →
  di_nlink x = di_nlink y → 0 ≤ di_size x < 2 ^ 32 → dinode_ok x.
Proof.
  intros Hw [Y1 Y2 Y3 Y4 Y5 Y6 Y7] E1 E2 E3 E4 Hs. split; rewrite ?E1, ?E2, ?E3, ?E4; try done; [apply Hw|].
  apply Forall_lookup. intros i a Hi. pose proof (lookup_lt_Some _ _ _ Hi) as Hlt. rewrite (iw_len _ _ _ Hw) in Hlt.
  destruct (decide (a = 0)) as [->|Ha]; [lia|].
  assert (E : daddr x (Z.of_nat i) = a) by (unfold daddr; by rewrite Nat2Z.id, Hi).
  destruct (iw_data _ _ _ Hw a) as [Hd _].
  - split; [|done]. destruct (decide (i = 12%nat)) as [->|Hne]; [left; by rewrite <- E|]. right.
    exists (Z.of_nat i). unfold fblk, NDIRECT in *. change MAXFILE with 268.
    destruct (Z.ltb_spec (Z.of_nat i) 12); [split; [lia | done] | lia].
  - destruct (sw_data _ Hsb). pose proof (inodes_before_data sb Hsb). lia.
Qed.

Lemma iupdate_ok x it km ip C k :
  tx x [] C k → 1 ≤ k → i_dev (it ip) = d0 → inum_ok (i_inum (it ip)) →
  ∃ x', iupdate me ip (mkFsys x sb it km) = Ok (tt, mkFsys x' sb it km) ∧
    tx x' [] (put_dino C (i_inum (it ip)) (i_d (it ip))) (k - 1).
Proof.
  intros Ht Hk Hdev Hi. unfold iupdate, iget_f. rewrite !bind_gets. cbn [fs_sb itable id]. rewrite Hdev.
  set (inum := i_inum (it ip)) in *.
  destruct (tx_bread Hd0 (IBLOCK inum sb) Ht) as (b & x1 & R1 & Ht1 & Eb & _ & _); [by intros ? ?%elem_of_nil | cbn; lia|].
  run_ls R1.
  destruct (tx_update Hd0 b (put_dinode (C (IBLOCK inum sb)) (ioff inum) (i_d (it ip)))
    (λ y, set_data (put_dinode (b_data y) (DINODE_SIZE * (inum mod IPB)) (i_d (it ip))) y) Ht1)
    as (x2 & x3 & R2 & R3 & Ht3 & _); [left | lia | rewrite Eb; by apply IBLOCK_loggable | by rewrite (tx_data Hd0 b Ht1), Eb by left |].
  run_ls R2. run_ls R3. destruct (tx_brelse Hd0 [] b Ht3) as (x4 & R4 & Ht4 & _); [done|]. run_ls R4.
  rewrite Eb in Ht4. by exists x4.
Qed.

(** ** Copies between a buffer and memory *)

Lemma data_to_mem_run x it km b :
  data_to_mem kaddr b (mkFsys x sb it km) =
  Ok (tt, mkFsys x sb it (mkKmem (load (k_mem km) b (b_data (bufs (l_bc x) b))) (k_freelist km))).
Proof. unfold data_to_mem. by rewrite bind_data. Qed.

Lemma in_mem_run {A} (m : KM A) x it km a km' :
  m km = Ok (a, km') → in_mem m (mkFsys x sb it km) = Ok (a, mkFsys x sb it km').
Proof. unfold in_mem, zoom. cbn. by intros ->. Qed.

(** One iteration of [writei]: a chunk of the source replaces part of block [r]. *)
Lemma write_chunk_ok `{!CopySource pagetable kaddr us env src_ok} {A} (fail : A) (rest : FM A)
    x it km C k r o src len n f :
  tx x [] C k → 1 ≤ k → loggable (sb_logstart sb) (sb_nlog sb) r →
  env (k_mem km) → src_ok (k_mem km) src len f → 0 ≤ n ≤ len → 0 ≤ o → o + n ≤ BSIZE →
  ∃ x' km' v,
    (bp ← in_buf (bread me d0 r);
     data_to_mem kaddr bp;;
     e ← in_mem (either_copyin pagetable (kaddr (SBuf bp) + o) us src n);
     mem_to_data kaddr bp;;
     if e =? err then in_buf (brelse me bp);; mret fail
     else in_ls (log_write bp);; in_buf (brelse me bp);; rest) (mkFsys x sb it km) =
    rest (mkFsys x' sb it km') ∧
    tx x' [] (<[r := v]> C) (k - 1) ∧ env (k_mem km') ∧ src_ok (k_mem km') (src + n) (len - n) (λ i, f (n + i)) ∧
    (∀ i, 0 ≤ i < BSIZE → ld8 v i = if decide (o ≤ i < o + n) then f (i - o) else ld8 (C r) i) ∧
    k_freelist km' = k_freelist km ∧ (∀ a, ¬ buf_byte kaddr a → ld8 (k_mem km') a = ld8 (k_mem km) a).
Proof.
  intros Ht Hk Hl He Hs Hn Ho Hsz.
  destruct (tx_bread Hd0 r Ht) as (b & x1 & R1 & Ht1 & Eb & _ & _); [by intros ? ?%elem_of_nil | cbn; lia|].
  run_ls R1. rewrite (bind_ok _ _ _ _ _ (data_to_mem_run x1 it km b)), (tx_data Hd0 b Ht1), Eb by left.
  pose proof (tx_buf b Ht1 ltac:(left)) as Hb. set (m1 := load (k_mem km) b (C r)).
  destruct (so_load (k_mem km) b (C r) He Hb) as [He1 Hs1]. fold m1 in He1, Hs1. specialize (Hs1 _ _ _ Hs).
  destruct (so_copy (mkKmem m1 (k_freelist km)) b o src len n f He1 Hs1 Hn Hb Ho Hsz)
    as (km2 & R2 & Hfl & He2 & Hs2 & Hout & Hin). cbn [k_mem k_freelist] in *.
  rewrite (bind_ok _ _ _ _ _ (in_mem_run _ _ _ _ _ _ R2)). unfold mem_to_data. rewrite bind_assoc.
  change ((in_mem (gets k_mem) ≫= ?f) (mkFsys ?x ?s ?i ?km)) with (f (k_mem km) (mkFsys x s i km)). cbv beta.
  set (v := blit (Z.to_nat BSIZE) (C r) 0 (k_mem km2) (kaddr (SBuf b))).
  destruct (tx_update Hd0 b v (λ y, set_data (blit (Z.to_nat BSIZE) (b_data y) 0 (k_mem km2) (kaddr (SBuf b))) y) Ht1)
    as (x3 & x4 & R3 & R4 & Ht4 & _); [left | lia | by rewrite Eb | by rewrite (tx_data Hd0 b Ht1), Eb by left |].
  run_ls R3. change (0 =? err) with false. cbv iota. run_ls R4.
  destruct (tx_brelse Hd0 [] b Ht4) as (x5 & R5 & Ht5 & _); [done|]. run_ls R5. rewrite Eb in Ht5.
  exists x5, km2, v. split_and!; [reflexivity | exact Ht5 | exact He2 | exact Hs2 | | exact Hfl |].
  - intros i Hi. subst v. rewrite ld8_blit, Z2Nat.id by done.
    destruct (Z.leb_spec 0 i), (Z.ltb_spec i (0 + BSIZE)); try lia. cbn [andb]. rewrite Z.sub_0_r.
    destruct (decide (o ≤ i < o + n)) as [Hr|Hr].
    + replace (kaddr (SBuf b) + i) with (kaddr (SBuf b) + o + (i - o)) by lia. apply Hin. lia.
    + rewrite Hout by lia. by apply load_byte.
  - intros a Ha. rewrite Hout; [by apply load_other|]. apply dec_stable. intros Hc. apply Ha. exists b. split; [done | lia].
Qed.

(** ** writei *)

(** [t] bytes [f] written at [off]. *)
Definition bytes_set (off t : Z) (f g : Z → Z) (o : Z) : Z :=
  if decide (off ≤ o < off + t) then f (o - off) else g o.

Lemma itable_set_dev ip d it it' :
  itable_set ip d it it' → i_dev (it' ip) = i_dev (it ip) ∧ i_inum (it' ip) = i_inum (it ip) ∧ i_d (it' ip) = d.
Proof. by intros [-> _]. Qed.

Lemma u32_u64_step src len m : 0 ≤ src → src + len < 2 ^ 64 → 0 ≤ m ≤ len → u64 (src + m) = src + m.
Proof. intros. apply u64_small. lia. Qed.

(** A chunk [v] of one block and the rest of the range are the whole range. *)
Lemma bytes_set_chunk off m t f (g h v w : Z → Z) o :
  0 ≤ m → 0 ≤ t → (∀ i, 0 ≤ i < m → (off + i) / BSIZE = off / BSIZE ∧ (off + i) mod BSIZE = off mod BSIZE + i) →
  h o = (if decide (o / BSIZE = off / BSIZE) then v (o mod BSIZE) else g o) →
  v (o mod BSIZE) = (if decide (off mod BSIZE ≤ o mod BSIZE < off mod BSIZE + m) then f (o mod BSIZE - off mod BSIZE) else w (o mod BSIZE)) →
  (o / BSIZE = off / BSIZE → w (o mod BSIZE) = g o) →
  bytes_set (off + m) t (λ i, f (m + i)) h o = bytes_set off (m + t) f g o.
Proof.
  intros Hm Ht Hc Hh Hv Hw. unfold bytes_set. destruct (decide (off + m ≤ o < off + m + t)) as [H1|H1]; [rewrite decide_True by lia; f_equal; lia|].
  rewrite Hh. destruct (decide (o / BSIZE = off / BSIZE)) as [Eb|Nb].
  - rewrite Hv. pose proof (mod_diff o off Eb) as E. destruct (decide (off mod BSIZE ≤ o mod BSIZE < off mod BSIZE + m)) as [H2|H2].
    + rewrite decide_True by lia. f_equal. lia.
    + rewrite decide_False by lia. by apply Hw.
  - rewrite decide_False; [done|]. intros Hin. apply Nb. destruct (decide (o < off + m)) as [H2|]; [|lia].
    destruct (Hc (o - off)) as [E _]; [lia|]. by replace (off + (o - off)) with o in E by lia.
Qed.

Lemma writei_loop_ok `{!CopySource pagetable kaddr us env src_ok} ip n fuel : ∀ x it km C k src off tot f,
  let d := i_d (it ip) in
  tx x [] C k → meta_used sb C → inode_wf C d → i_dev (it ip) = d0 →
  env (k_mem km) → src_ok (k_mem km) src (n - tot) f →
  0 ≤ off → 0 ≤ tot ≤ n → n < 2 ^ 32 → off + (n - tot) ≤ MAXFILE * BSIZE →
  6 * nblk off (n - tot) ≤ k → nblk off (n - tot) < Z.of_nat fuel →
  ∃ t x' C' d' it' km',
    writei_loop me pagetable kaddr fuel ip us src off n tot (mkFsys x sb it km) =
      Ok ((tot + t, off + t), mkFsys x' sb it' km') ∧
    0 ≤ t ≤ n - tot ∧ tx x' [] C' (k - 6 * nblk off (n - tot)) ∧ evolve C d C' d' ∧ itable_set ip d' it it' ∧
    env (k_mem km') ∧
    (∀ o, 0 ≤ o < MAXFILE * BSIZE → fbyte C' d' o = bytes_set off t f (fbyte C d) o) ∧
    (∀ o, off ≤ o < off + t → fblk C' d' (o / BSIZE) ≠ 0) ∧
    (t < n - tot → ∀ b, 0 ≤ b < sb_size sb → used sb C' b = true) ∧
    (∀ a, ¬ buf_byte kaddr a → ld8 (k_mem km') a = ld8 (k_mem km) a).
Proof.
  induction fuel as [|fuel IH]; intros x it km C k src off tot f d Ht Hm Hw Hdev He Hs Ho Htot Hn Hmax Hk Hfuel;
    [pose proof (nblk_nonneg off (n - tot) Ho); lia|].
  cbn [writei_loop]. destruct (Z.ltb_spec tot n) as [Hlt|Hge].
  2:{ exists 0, x, C, d, it, km. rewrite !Z.add_0_r.
      assert (E : nblk off (n - tot) = 0) by (unfold nblk; destruct (Z.leb_spec (n - tot) 0); [done|lia]).
      rewrite E, Z.sub_0_r. split_and!; try (done || lia); [by apply evolve_refl | apply itable_set_refl|].
      intros o _. unfold bytes_set. by rewrite decide_False by lia. }
  pose proof (nblk_pos off (n - tot) Ho ltac:(lia)) as Hpos.
  assert (Hbn : 0 ≤ off / BSIZE < MAXFILE) by (apply (block_range off (n - tot)); lia).
  destruct (bmap_ok me d0 Hd0 sb Hsb ops x it km ip C k (off / BSIZE) Ht Hm Hw ltac:(lia) Hdev Hbn)
    as (r & x1 & C1 & d1 & it1 & R1 & Ht1 & [Hg1 Hb1] & Hit1 & Hr & Hr0).
  rewrite (bind_ok _ _ _ _ _ R1). destruct (Z.eqb_spec r 0) as [Er|Hnz].
  { exists 0, x1, C1, d1, it1, km. rewrite !Z.add_0_r.
    split_and!; try (done || lia); [by eapply tx_less, Ht1; lia | | by auto].
    intros o Hoff. unfold bytes_set. rewrite decide_False by lia. by apply Hb1. }
  destruct (itable_set_dev _ _ _ _ Hit1) as (Ed1 & _ & Edi).
  unfold iget_f at 1. rewrite bind_gets. cbn [itable]. rewrite Ed1, Hdev.
  destruct (chunk_bounds off (n - tot) Ho ltac:(lia)) as (Hc1 & Hc2 & Hc3).
  fold (chunk off (n - tot)). set (m := chunk off (n - tot)) in *. cbv zeta.
  assert (Hown : owns C1 d1 r) by (split; [right; exists (off / BSIZE); done | done]).
  destruct (iw_data _ _ _ (gr_wf _ _ _ _ _ Hg1) r Hown) as [Hrd _]. pose proof (inodes_before_data sb Hsb).
  destruct (write_chunk_ok (tot, off) (writei_loop me pagetable kaddr fuel ip us (u64 (src + m)) (u32 (off + m)) n (u32 (tot + m)))
    x1 it1 km C1 (k - 5) r (off mod BSIZE) src (n - tot) m f Ht1) as (x2 & km2 & v & -> & Ht2 & He2 & Hs2 & Hv & _ & Hfr2);
    [lia | apply data_loggable; [done | lia] | done | done | lia | by apply Z.mod_pos_bound | lia |].
  destruct (data_write sb Hsb C1 d1 (off / BSIZE) v (gr_wf _ _ _ _ _ Hg1) (gr_meta _ _ _ _ _ Hg1) Hbn) as [Hg2 Hb2]; [congruence|].
  rewrite <- Hr in Hg2, Hb2. destruct (so_range _ _ _ _ Hs) as [Hs0 Hs64].
  rewrite (u32_u64_step src (n - tot)), (u32_small (off + m)), (u32_small (tot + m))
    by (lia || (change (MAXFILE * BSIZE) with 274432 in Hmax; lia)).
  replace (n - tot - m) with (n - (tot + m)) in Hs2 by lia. rewrite <- Edi in Hg2, Hb2.
  pose proof (nblk_step off (n - tot) Ho ltac:(lia)) as Hnb. fold m in Hnb. replace (n - tot - m) with (n - (tot + m)) in Hnb by lia.
  destruct (IH x2 it1 km2 (<[r:=v]> C1) (k - 5 - 1) (src + m) (off + m) (tot + m) (λ i, f (m + i)))
    as (t & x' & C' & d' & it' & km' & R & Htt & Ht' & Hg' & Hit' & He' & Hb' & Hh' & Hfull & Hfr');
    [done | apply (gr_meta _ _ _ _ _ Hg2) | apply (gr_wf _ _ _ _ _ Hg2) | congruence | done | done | lia.. |].
  exists (m + t), x', C', d', it', km'. rewrite !Z.add_assoc. split_and!.
  - exact R.
  - lia.
  - lia.
  - eapply tx_less, Ht'. lia.
  - eapply evolve_trans; [done | exact Hg1 |]. eapply evolve_trans; [done | | exact Hg']. by rewrite Edi in *.
  - by eapply itable_set_trans.
  - done.
  - intros o Hoff. rewrite Hb' by done. apply (bytes_set_chunk off m t f (fbyte C d) _ (ld8 v) (ld8 (C1 r))); [lia.. | apply Hc3 | | by apply Hv, Z.mod_pos_bound|].
    + rewrite Hb2 by done. by rewrite Edi, Hb1.
    + intros Eb. rewrite <- Hb1 by done. unfold fbyte. rewrite Eb, <- Hr. by destruct (Z.eqb_spec r 0).
  - intros o Hoff. destruct (Z.lt_ge_cases o (off + m)) as [H1|H1]; [|apply Hh'; lia].
    destruct (Hc3 (o - off)) as [E _]; [lia|]. replace (off + (o - off)) with o in E by lia. rewrite E.
    assert (E2 : fblk (<[r:=v]> C1) (i_d (it1 ip)) (off / BSIZE) = r).
    { rewrite (gr_blk _ _ _ _ _ Hg2) by (done || congruence). by rewrite Edi. }
    rewrite (gr_blk _ _ _ _ _ Hg') by (done || congruence). congruence.
  - intros Hlt'. apply Hfull. lia.
  - intros a Ha. rewrite Hfr' by done. by apply Hfr2.
Qed.

(** Every block of the file up to [size] is there. *)
Definition no_holes (C : Z → block) (d : dinode) : Prop :=
  ∀ bn, 0 ≤ bn → bn * BSIZE < di_size d → fblk C d bn ≠ 0.

(** Two files that share no block. *)
Definition disjoint_files (C : Z → block) (x y : dinode) : Prop := ∀ a, owns C x a → ¬ owns C y a.

(** What a write of [t] bytes [f] at [off] does to the file with inode number [inum], to
    the other inodes and to the other files. *)
Record written (C : Z → block) (d : dinode) (inum : Z) (C' : Z → block) (d' : dinode) (off t : Z) (f : Z → Z) : Prop := {
  wr_wf : inode_wf C' d';
  wr_meta : meta_used sb C';
  wr_ok : dinode_ok d';
  wr_dino : dino C' inum = d';
  wr_size : di_size d' = Z.max (di_size d) (off + t);
  wr_type : di_type d' = di_type d ∧ di_nlink d' = di_nlink d;
  wr_byte o : 0 ≤ o < MAXFILE * BSIZE → fbyte C' d' o = bytes_set off t f (fbyte C d) o;
  wr_holes : di_size d ≤ MAXFILE * BSIZE → off ≤ di_size d → no_holes C d → no_holes C' d';
  wr_inode i : inum_ok i → i ≠ inum → dino C' i = dino C i;
  wr_used n : 0 ≤ n < sb_size sb → used sb C n = true → used sb C' n = true;
  wr_file y : inode_wf C y → disjoint_files C d y →
    inode_wf C' y ∧ disjoint_files C' d' y ∧ ∀ o, 0 ≤ o < MAXFILE * BSIZE → fbyte C' y o = fbyte C y o;
}.

(** Everything a loop of [writei] establishes, with the inode written back. *)
Lemma written_intro C d inum C1 d1 d2 off t f :
  inum_ok inum → inode_wf C d → dinode_ok d → evolve C d C1 d1 →
  (∀ o, 0 ≤ o < MAXFILE * BSIZE → fbyte C1 d1 o = bytes_set off t f (fbyte C d) o) →
  (∀ o, off ≤ o < off + t → fblk C1 d1 (o / BSIZE) ≠ 0) →
  di_addrs d2 = di_addrs d1 → di_type d2 = di_type d1 → di_major d2 = di_major d1 → di_minor d2 = di_minor d1 →
  di_nlink d2 = di_nlink d1 → di_size d2 = Z.max (di_size d) (off + t) → off + t ≤ MAXFILE * BSIZE →
  written C d inum (put_dino C1 inum d2) d2 off t f.
Proof.
  intros Hi Hw Hok Hg Hb Hh Ea Et Ema Emi En Es Hsz. pose proof (IBLOCK_range inum Hi) as Hib.
  pose proof (inodes_before_data sb Hsb) as Hlay. destruct (gr_fields _ _ _ _ _ Hg) as (F1 & F2 & F3 & F4 & F5).
  change (MAXFILE * BSIZE) with 274432 in Hsz.
  assert (Hd : ∀ C i, daddr d2 i = daddr d1 i ∧ fblk C d2 i = fblk C d1 i).
  { intros. unfold fblk, daddr. by rewrite Ea. }
  assert (Hown : ∀ C a, owns C d2 a ↔ owns C d1 a).
  { intros C0 a. unfold owns. rewrite (proj1 (Hd C0 NDIRECT)). split; intros [[?|(bn & Hbn & E)] Hz]; split; eauto;
      right; exists bn; (split; [done|]); by rewrite E, (proj2 (Hd C0 bn)). }
  assert (Hw1 : inode_wf C1 d2).
  { destruct (gr_wf _ _ _ _ _ Hg) as [W1 W2 W3 W4]. split; [by rewrite Ea | intros a; rewrite Hown; apply W2 | |].
    - intros b1 b2. rewrite !(proj2 (Hd C1 _)). apply W3.
    - intros b1. rewrite (proj2 (Hd C1 _)), (proj1 (Hd C1 _)). apply W4. }
  assert (Hok2 : dinode_ok d2).
  { eapply wf_dinode_ok; [exact Hw1 | exact Hok | congruence.. |]. pose proof (do_size _ Hok). lia. }
  assert (Hkeep : ∀ y, inode_wf C1 y →
    inode_wf (put_dino C1 inum d2) y ∧ (∀ o, 0 ≤ o < MAXFILE * BSIZE → fbyte (put_dino C1 inum d2) y o = fbyte C1 y o) ∧
    (∀ a, owns (put_dino C1 inum d2) y a ↔ owns C1 y a) ∧
    (∀ bn, 0 ≤ bn < MAXFILE → fblk (put_dino C1 inum d2) y bn = fblk C1 y bn)).
  { intros y Hy. destruct (file_ext C1 (put_dino C1 inum d2) y Hy) as (H1 & H4 & H2 & H3); [| |done].
    - intros a Ha. destruct (iw_data _ _ _ Hy a Ha). apply put_dino_other. lia.
    - intros a Ha. destruct (iw_data _ _ _ Hy a Ha). rewrite put_dino_used by (done || lia). done. }
  destruct (Hkeep d2 Hw1) as (K1 & K2 & K3 & K4). split; try done.
  - intros n Hn. rewrite put_dino_used by (done || destruct (sw_data _ Hsb); lia). by apply (gr_meta _ _ _ _ _ Hg).
  - rewrite dino_put by done. by rewrite decide_True.
  - split; congruence.
  - intros o Ho. rewrite K2, <- Hb by done. unfold fbyte. by rewrite (proj2 (Hd C1 _)).
  - intros Hmax Hos Hnh bn Hbn Hsize. change (MAXFILE * BSIZE) with 274432 in Hmax. rewrite Es in Hsize.
    assert (Hbm : 0 ≤ bn < MAXFILE).
    { change MAXFILE with 268. change BSIZE with 1024 in Hsize. lia. }
    rewrite K4, (proj2 (Hd C1 bn)) by done. destruct (Z.lt_ge_cases (bn * BSIZE) (di_size d)) as [H1|H1].
    + rewrite (gr_blk _ _ _ _ _ Hg) by auto. auto.
    + rewrite <- (Z.div_mul bn BSIZE) by done. apply Hh. lia.
  - intros i Hi' Hne. rewrite dino_put, decide_False by done. unfold dino. pose proof (IBLOCK_range i Hi').
    by rewrite (gr_meta_keep _ _ _ _ _ Hg) by lia.
  - intros n Hn Hu. rewrite put_dino_used by done. by apply (gr_used _ _ _ _ _ Hg).
  - intros y Hy Hdj. destruct (file_ext C C1 y Hy) as (Y1 & _ & Y2 & Y3).
    + intros a Ha. destruct (iw_data _ _ _ Hy a Ha). apply (gr_keep _ _ _ _ _ Hg); [done..|]. intros Hd'. by apply (Hdj a).
    + intros a Ha. destruct (iw_data _ _ _ Hy a Ha). apply (gr_used _ _ _ _ _ Hg); [lia | done].
    + destruct (Hkeep y Y1) as (Z1 & Z2 & Z3 & _). split_and!; [done | | intros o Ho; rewrite Z2, Y2; done].
      intros a Ha%K3%Hown Hya%Z3%Y3. destruct (gr_new _ _ _ _ _ Hg a Ha) as [Hd'|Hu]; [by apply (Hdj a)|].
      destruct (iw_data _ _ _ Hy a Hya). congruence.
Qed.

Lemma writei_ok `{!CopySource pagetable kaddr us env src_ok} ip x it km C k src off n f :
  let d := i_d (it ip) in let inum := i_inum (it ip) in
  tx x [] C k → meta_used sb C → inode_wf C d → dinode_ok d → i_dev (it ip) = d0 → inum_ok inum →
  env (k_mem km) → src_ok (k_mem km) src n f →
  0 ≤ off ≤ di_size d → 0 ≤ n → off + n ≤ MAXFILE * BSIZE → 6 * nblk off n + 1 ≤ k →
  ∃ t x' C' d' it' km',
    writei me pagetable kaddr ip us src off n (mkFsys x sb it km) = Ok (t, mkFsys x' sb it' km') ∧
    0 ≤ t ≤ n ∧ (t < n → ∀ b, 0 ≤ b < sb_size sb → used sb C' b = true) ∧
    tx x' [] C' (k - 6 * nblk off n - 1) ∧ itable_set ip d' it it' ∧ env (k_mem km') ∧
    written C d inum C' d' off t f ∧
    (∀ a, ¬ buf_byte kaddr a → ld8 (k_mem km') a = ld8 (k_mem km) a).
Proof.
  intros d inum Ht Hm Hw Hok Hdev Hi He Hs Hoff Hn Hmax Hk. change (MAXFILE * BSIZE) with 274432 in Hmax.
  pose proof (nblk_nonneg off n ltac:(lia)) as Hnb.
  unfold writei, iget_f. rewrite bind_gets. cbn [itable]. fold d. rewrite (u32_small (off + n)) by lia.
  destruct (Z.ltb_spec (di_size d) off), (Z.ltb_spec (off + n) off); try lia. cbn [orb].
  change (MAXFILE * BSIZE) with 274432. destruct (Z.ltb_spec 274432 (off + n)); [lia|].
  destruct (writei_loop_ok ip n (rw_fuel n) x it km C k src off 0 f Ht Hm Hw Hdev He)
    as (t & x1 & C1 & d1 & it1 & km1 & R1 & Htt & Ht1 & Hg1 & Hit1 & He1 & Hb1 & Hh1 & Hfull & Hfr);
    rewrite ?Z.sub_0_r in *; try done; try lia.
  { apply rw_fuel_enough; lia. }
  rewrite (bind_ok _ _ _ _ _ R1). cbn beta iota. rewrite Z.add_0_l.
  destruct (itable_set_dev _ _ _ _ Hit1) as (Ed1 & Ei1 & Edi).
  destruct (gr_fields _ _ _ _ _ Hg1) as (F1 & F2 & F3 & F4 & F5).
  set (d2 := if di_size d <? off + t then mkDinode (di_type d1) (di_major d1) (di_minor d1) (di_nlink d1) (off + t) (di_addrs d1) else d1).
  assert (Hup : ∃ it2, (if di_size d <? off + t then iupd ip (set_i_size (off + t)) else mret tt) (mkFsys x1 sb it1 km1) =
    Ok (tt, mkFsys x1 sb it2 km1) ∧ itable_set ip d2 it1 it2).
  { subst d2. destruct (di_size d <? off + t).
    - eexists. split; [reflexivity|]. apply itable_set_iupd. cbn [itable]. unfold set_i_size. by rewrite Edi.
    - exists it1. split; [done|]. rewrite <- Edi. apply itable_set_refl. }
  destruct Hup as (it2 & R2 & Hit2). rewrite (bind_ok _ _ _ _ _ R2).
  destruct (itable_set_dev _ _ _ _ Hit2) as (Ed2 & Ei2 & Edi2).
  destruct (iupdate_ok x1 it2 km1 ip C1 (k - 6 * nblk off n) Ht1) as (x3 & R3 & Ht3); [lia | congruence | by rewrite Ei2, Ei1 |].
  rewrite (bind_ok _ _ _ _ _ R3). rewrite Ei2, Ei1, Edi2 in Ht3. fold inum in Ht3.
  exists t, x3, (put_dino C1 inum d2), d2, it2, km1. rewrite i32_small by lia. split_and!; [done | lia | lia | | done | by eapply itable_set_trans | done | | done].
  - intros Hlt b Hb. rewrite put_dino_used by done. by apply Hfull.
  - apply (written_intro C d inum C1 d1); try done; try lia; subst d2; destruct (Z.ltb_spec (di_size d) (off + t)); cbn; first [done | change (MAXFILE * BSIZE) with 274432; lia | rewrite F5; fold d; lia].
Qed.

(** ** readi *)

(** [bmap] of a block the file has changes nothing but the cache. *)
Lemma bmap_read_ok x it km ip C k bn :
  let d := i_d (it ip) in
  tx x [] C k → 0 ≤ k → i_dev (it ip) = d0 → 0 ≤ bn < MAXFILE → fblk C d bn ≠ 0 →
  ∃ x', bmap me ip bn (mkFsys x sb it km) = Ok (fblk C d bn, mkFsys x' sb it km) ∧ tx x' [] C k.
Proof.
  intros d Ht Hk Hdev Hbn Hnz. unfold bmap, iget_f. rewrite bind_gets. cbn [itable id]. unfold fblk in *.
  destruct (Z.ltb_spec bn NDIRECT) as [Hlt|Hge].
  - change (addr_at (it ip) bn) with (daddr d bn). destruct (Z.eqb_spec (daddr d bn) 0); [done|]. by exists x.
  - cbv zeta. destruct (Z.ltb_spec (bn - NDIRECT) NINDIRECT); [|unfold MAXFILE in Hbn; lia].
    change (addr_at (it ip) NDIRECT) with (ind d). destruct (Z.eqb_spec (ind d) 0); [done|]. rewrite bind_ret.
    destruct (Z.eqb_spec (ind d) 0); [done|]. rewrite Hdev.
    destruct (tx_bread Hd0 (ind d) Ht) as (p & x1 & R1 & Ht1 & Ep & _ & _); [by intros ? ?%elem_of_nil | cbn; lia|].
    run_ls R1. rewrite bind_data, (tx_data Hd0 p Ht1), Ep by left.
    destruct (Z.eqb_spec (ld32 (C (ind d)) (4 * (bn - NDIRECT))) 0); [done|]. rewrite bind_ret.
    destruct (tx_brelse Hd0 [] p Ht1) as (x2 & R2 & Ht2 & _); [done|]. run_ls R2. by exists x2.
Qed.

(** One iteration of [readi]: part of block [r] goes to the destination. *)
Lemma read_chunk_ok `{!CopySink pagetable kaddr ud env dst_ok dst_ld safe} {A} (fail : A) (rest : FM A)
    x it km C k r o dst len n :
  tx x [] C k → 0 ≤ k → env (k_mem km) → dst_ok (k_mem km) dst len → 0 ≤ n ≤ len → 0 ≤ o → o + n ≤ BSIZE →
  ∃ x' km',
    (bp ← in_buf (bread me d0 r);
     data_to_mem kaddr bp;;
     e ← in_mem (either_copyout pagetable ud dst (kaddr (SBuf bp) + o) n);
     if e =? err then in_buf (brelse me bp);; mret fail
     else in_buf (brelse me bp);; rest) (mkFsys x sb it km) =
    rest (mkFsys x' sb it km') ∧
    tx x' [] C k ∧ env (k_mem km') ∧ (∀ dst len, dst_ok (k_mem km) dst len → dst_ok (k_mem km') dst len) ∧
    (∀ i, 0 ≤ i < n → dst_ld (k_mem km') (dst + i) = Some (ld8 (C r) (o + i))) ∧
    (∀ a, dst_ok (k_mem km) a 1 → a < dst ∨ dst + n ≤ a → dst_ld (k_mem km') a = dst_ld (k_mem km) a) ∧
    (∀ a, safe (k_mem km) dst n a → ¬ buf_byte kaddr a → ld8 (k_mem km') a = ld8 (k_mem km) a) ∧
    (∀ dst' n' a, safe (k_mem km) dst' n' a → safe (k_mem km') dst' n' a).
Proof.
  intros Ht Hk He Hd Hn Ho Hsz.
  destruct (tx_bread Hd0 r Ht) as (b & x1 & R1 & Ht1 & Eb & _ & _); [by intros ? ?%elem_of_nil | cbn; lia|].
  run_ls R1. rewrite (bind_ok _ _ _ _ _ (data_to_mem_run x1 it km b)), (tx_data Hd0 b Ht1), Eb by left.
  pose proof (tx_buf b Ht1 ltac:(left)) as Hb. set (m1 := load (k_mem km) b (C r)).
  destruct (si_load (k_mem km) b (C r) He Hb) as (He1 & Hd1 & Hl1 & Hsf1). fold m1 in He1, Hd1, Hl1, Hsf1.
  destruct (si_copy (mkKmem m1 (k_freelist km)) b o dst len n He1 (Hd1 _ _ Hd) Hn Hb Ho Hsz)
    as (km2 & R2 & Hfl & He2 & Hd2 & Hin & Hout & Hsafe & Hsf2). cbn [k_mem k_freelist] in *.
  rewrite (bind_ok _ _ _ _ _ (in_mem_run _ _ _ _ _ _ R2)). change (0 =? err) with false. cbv iota.
  destruct (tx_brelse Hd0 [] b Ht1) as (x2 & R3 & Ht2 & _); [done|]. run_ls R3.
  exists x2, km2. split_and!; [reflexivity | exact Ht2 | exact He2 | by auto | | | | by auto].
  - intros i Hi. rewrite Hin by done. f_equal. rewrite <- Z.add_assoc. apply load_byte. lia.
  - intros a Ha Hr. rewrite Hout; [by apply Hl1 | by apply (si_range _ _ _ Ha) | done].
  - intros a Ha Hnb. rewrite Hsafe by auto. by apply load_other.
Qed.

Lemma readi_loop_ok `{!CopySink pagetable kaddr ud env dst_ok dst_ld safe} ip n fuel : ∀ x it km C k dst off tot,
  let d := i_d (it ip) in
  tx x [] C k → 0 ≤ k → i_dev (it ip) = d0 → no_holes C d →
  env (k_mem km) → dst_ok (k_mem km) dst (n - tot) →
  0 ≤ off → 0 ≤ tot ≤ n → n < 2 ^ 32 → off + (n - tot) ≤ di_size d → di_size d ≤ MAXFILE * BSIZE →
  nblk off (n - tot) < Z.of_nat fuel →
  ∃ x' km',
    readi_loop me pagetable kaddr fuel ip ud dst off n tot (mkFsys x sb it km) = Ok (n, mkFsys x' sb it km') ∧
    tx x' [] C k ∧ env (k_mem km') ∧ (∀ dst len, dst_ok (k_mem km) dst len → dst_ok (k_mem km') dst len) ∧
    (∀ i, 0 ≤ i < n - tot → dst_ld (k_mem km') (dst + i) = Some (fbyte C d (off + i))) ∧
    (∀ a, dst_ok (k_mem km) a 1 → a < dst ∨ dst + (n - tot) ≤ a → dst_ld (k_mem km') a = dst_ld (k_mem km) a) ∧
    (∀ a, safe (k_mem km) dst (n - tot) a → ¬ buf_byte kaddr a → ld8 (k_mem km') a = ld8 (k_mem km) a).
Proof.
  induction fuel as [|fuel IH]; intros x it km C k dst off tot d Ht Hk Hdev Hnh He Hd Ho Htot Hn Hsz Hmax Hfuel;
    [pose proof (nblk_nonneg off (n - tot) Ho); lia|].
  cbn [readi_loop]. destruct (Z.ltb_spec tot n) as [Hlt|Hge].
  2:{ assert (tot = n) as -> by lia. exists x, km. split_and!; try done. intros i Hi. lia. }
  assert (Hbn : 0 ≤ off / BSIZE < MAXFILE) by (apply (block_range off (n - tot)); lia).
  assert (Hbo : off / BSIZE * BSIZE ≤ off) by (rewrite Z.mul_comm; by apply Z.mul_div_le).
  assert (Hnz : fblk C d (off / BSIZE) ≠ 0) by (apply Hnh; lia).
  destruct (bmap_read_ok x it km ip C k (off / BSIZE) Ht Hk Hdev Hbn Hnz) as (x1 & R1 & Ht1).
  rewrite (bind_ok _ _ _ _ _ R1). destruct (Z.eqb_spec (fblk C (i_d (it ip)) (off / BSIZE)) 0); [done|].
  unfold iget_f at 1. rewrite bind_gets. cbn [itable]. rewrite Hdev.
  destruct (chunk_bounds off (n - tot) Ho ltac:(lia)) as (Hc1 & Hc2 & Hc3).
  fold (chunk off (n - tot)). set (m := chunk off (n - tot)) in *. cbv zeta. fold d.
  destruct (read_chunk_ok (u32 (-1)) (readi_loop me pagetable kaddr fuel ip ud (u64 (dst + m)) (u32 (off + m)) n (u32 (tot + m)))
    x1 it km C k (fblk C d (off / BSIZE)) (off mod BSIZE) dst (n - tot) m Ht1)
    as (x2 & km2 & -> & Ht2 & He2 & Hd2 & Hin2 & Hout2 & Hs2 & Hsf2); [done | done | done | lia | by apply Z.mod_pos_bound | lia |].
  destruct (si_range _ _ _ Hd) as [Hd0' Hd64]. change (MAXFILE * BSIZE) with 274432 in Hmax.
  rewrite (u32_u64_step dst (n - tot)), (u32_small (off + m)), (u32_small (tot + m)) by lia.
  pose proof (nblk_step off (n - tot) Ho ltac:(lia)) as Hnb. fold m in Hnb.
  replace (n - tot - m) with (n - (tot + m)) in Hnb by lia.
  destruct (IH x2 it km2 C k (dst + m) (off + m) (tot + m)) as (x' & km' & R & Ht' & He' & Hd' & Hin' & Hout' & Hs');
    [done | done | done | done | done | | change (MAXFILE * BSIZE) with 274432; fold d; lia.. |].
  { apply Hd2. replace (n - (tot + m)) with (n - tot - m) by lia. apply (si_sub _ _ (n - tot)); lia || done. }
  assert (Hone : ∀ i, 0 ≤ i < m → dst_ok (k_mem km2) (dst + i) 1).
  { intros i Hi. apply Hd2. apply (si_sub _ _ (n - tot)); lia || done. }
  exists x', km'. split_and!; [exact R | exact Ht' | exact He' | by auto | | |].
  - intros i Hi. destruct (Z.lt_ge_cases i m) as [Him|Him].
    + rewrite Hout' by first [apply Hone; lia | lia]. rewrite Hin2 by lia. destruct (Hc3 i) as [E1 E2]; [lia|].
      unfold fbyte. rewrite E1, E2. by destruct (Z.eqb_spec (fblk C d (off / BSIZE)) 0).
    + replace (dst + i) with (dst + m + (i - m)) by lia. rewrite Hin' by lia. f_equal. f_equal. lia.
  - intros a Ha Hr. rewrite Hout' by first [by apply Hd2 | lia]. apply Hout2; [done | lia].
  - intros a Ha Hb. destruct (si_safe _ _ _ m _ Ha ltac:(lia)) as [Ha1 Ha2]. replace (n - tot - m) with (n - (tot + m)) in Ha2 by lia.
    rewrite Hs' by auto. by apply Hs2.
Qed.

(** The bytes that a read of [n] at [off] yields. *)
Definition read_len (size off n : Z) : Z := if size <? off then 0 else Z.min n (size - off).

Lemma readi_ok `{!CopySink pagetable kaddr ud env dst_ok dst_ld safe} ip x it km C k dst off n :
  let d := i_d (it ip) in let r := read_len (di_size d) off n in
  tx x [] C k → 0 ≤ k → i_dev (it ip) = d0 → no_holes C d → 0 ≤ di_size d ≤ MAXFILE * BSIZE →
  env (k_mem km) → dst_ok (k_mem km) dst r → 0 ≤ off → 0 ≤ n → off + n < 2 ^ 32 →
  ∃ x' km',
    readi me pagetable kaddr ip ud dst off n (mkFsys x sb it km) = Ok (r, mkFsys x' sb it km') ∧
    tx x' [] C k ∧ env (k_mem km') ∧ (∀ dst len, dst_ok (k_mem km) dst len → dst_ok (k_mem km') dst len) ∧
    (∀ i, 0 ≤ i < r → dst_ld (k_mem km') (dst + i) = Some (fbyte C d (off + i))) ∧
    (∀ a, safe (k_mem km) dst r a → ¬ buf_byte kaddr a → ld8 (k_mem km') a = ld8 (k_mem km) a).
Proof.
  intros d r Ht Hk Hdev Hnh Hmax He Hd Ho Hn Hsum. unfold readi, iget_f. rewrite bind_gets. cbn [itable]. fold d.
  rewrite (u32_small (off + n)) by lia. subst r. unfold read_len in *.
  destruct (Z.ltb_spec (di_size d) off) as [Hlt|Hle].
  { cbn [orb]. exists x, km. split_and!; try done. intros. lia. }
  destruct (Z.ltb_spec (off + n) off); [lia|]. cbn [orb]. cbv zeta.
  assert (E : (if di_size d <? off + n then di_size d - off else n) = Z.min n (di_size d - off))
    by (destruct (Z.ltb_spec (di_size d) (off + n)); lia).
  rewrite E. set (r := Z.min n (di_size d - off)) in *. change (MAXFILE * BSIZE) with 274432 in Hmax.
  destruct (readi_loop_ok ip r (rw_fuel r) x it km C k dst off 0 Ht Hk Hdev Hnh He) as (x' & km' & R & Ht' & He' & Hd' & Hin & _ & Hs);
    rewrite ?Z.sub_0_r in *; [done | first [apply rw_fuel_enough; lia | change (MAXFILE * BSIZE) with 274432; fold d; lia].. |].
  rewrite (bind_ok _ _ _ _ _ R). rewrite i32_small by lia. exists x', km'. by split_and!.
Qed.

End file.
