(* ===== verification/FsSpec.v ===== *)
(** * FsSpec: what the block and file layers promise

    The theorems on [balloc], [bfree], [readi] and [writei] (src/kernel/fs.c), and a small
    file system on which they are run. *)

From stdpp Require Import functions.
From S2P Require Import Prelude Mem Layout FsFormat Bio BioPool Log LogCrash Kalloc Vm VmTable VmUser VmCopy.
From S2P Require Import Fs FsTx FsBlocks FsInode FsMap FsCopy FsFile.
Import CString.

Local Open Scope Z_scope.

Section spec.
  Context {K : KernelImage} {KOk : KernelImageOk K}.
  Context (me d0 : Z) (Hd0 : d0 ≠ 0) (sb : superblock) (Hsb : sb_wf sb) (ops : Z).
  Context (pagetable : Z) (kaddr : slot → Z).
  Abbreviation tx := (tx me d0 (sb_logstart sb) (sb_nlog sb) ops).

(** The block allocator.  [balloc] returns 0 exactly when every block is in use, and
    changes nothing then.  Otherwise it returns the lowest free block, which is a data
    block, marks that block and no other as used, and zeroes it; every other data block
    keeps its contents.  It never panics and never waits in a transaction with room for
    two more blocks. *)
Theorem balloc_spec x it km C k :
  tx x [] C k → meta_used sb C → 2 ≤ k →
  ∃ r x' C', balloc me d0 (mkFsys x sb it km) = Ok (r, mkFsys x' sb it km) ∧ tx x' [] C' (k - 2) ∧
    (r = 0 ↔ ∀ n, 0 ≤ n < sb_size sb → used sb C n = true) ∧
    (r = 0 → ∀ n, C' n = C n) ∧
    (r ≠ 0 → datastart sb ≤ r < sb_size sb ∧ used sb C r = false ∧
      (∀ n, 0 ≤ n < r → used sb C n = true) ∧
      (∀ n, 0 ≤ n < sb_size sb → used sb C' n = bool_decide (n = r) || used sb C n) ∧
      (∀ i, 0 ≤ i < BSIZE → ld8 (C' r) i = 0) ∧
      (∀ n, datastart sb ≤ n → n ≠ r → C' n = C n)).
Proof.
  intros Ht Hm Hk. destruct (balloc_ok me d0 Hd0 sb Hsb ops x it km [] C k Ht Hm) as (r & x' & C' & R & Ht' & Ho & _).
  { by intros b ?%elem_of_nil. }
  { cbn. lia. }
  exists r, x', C'. split; [exact R|]. split; [exact Ht'|]. destruct Ho as [(-> & -> & Hall)|[Hf ->]].
  - by split_and!.
  - pose proof (first_free_data sb C r Hm Hf) as Hr. pose proof (inodes_before_data sb Hsb). destruct Hf as (Hs & Hu & Hlow).
    split_and!; [split; [lia | intros Hall; by rewrite Hall in Hu] | lia |]. intros _. split_and!; [lia.. | done | done | | |].
    + intros n Hn. by apply used_alloc.
    + intros i Hi. by apply alloc_zero.
    + intros n Hn Hne. pose proof (BBLOCK_range sb r Hs). by apply alloc_other; [| |lia].
Qed.

(** Freeing.  [bfree] of a block in use clears its bit and no other and leaves all
    data blocks as they are; [bfree] of a free block panics. *)
Theorem bfree_spec x it km C k n :
  tx x [] C k → 1 ≤ k → 0 ≤ n < sb_size sb →
  if used sb C n then
    ∃ x' C', bfree me d0 n (mkFsys x sb it km) = Ok (tt, mkFsys x' sb it km) ∧ tx x' [] C' (k - 1) ∧
      (∀ m, 0 ≤ m < sb_size sb → used sb C' m = negb (bool_decide (m = n)) && used sb C m) ∧
      (∀ m, datastart sb ≤ m → C' m = C m)
  else bfree me d0 n (mkFsys x sb it km) = Panic "freeing free block".
Proof.
  intros Ht Hk Hn. pose proof (BBLOCK_range sb n Hn) as Hbb. destruct (used sb C n) eqn:Hu.
  - destruct (bfree_ok me d0 Hd0 sb Hsb ops x it km [] C k n Ht) as (x' & R & Ht' & _);
      [by intros b ?%elem_of_nil | cbn; lia | done | done |].
    exists x', (dealloc sb C n). split_and!; [exact R | exact Ht' | |].
    + intros m Hm. by apply used_dealloc.
    + intros m Hm. apply dealloc_other. lia.
  - unfold bfree. rewrite bind_gets. cbn [fs_sb].
    destruct (tx_bread Hd0 (BBLOCK n sb) Ht) as (p & x1 & R1 & Ht1 & Ep & _ & _); [by intros ? ?%elem_of_nil | cbn; lia |].
    run_ls R1. rewrite bind_data, (tx_data Hd0 p Ht1), Ep by left. cbv zeta.
    rewrite bit_mask by (apply Z.mod_pos_bound; lia). unfold used, bit in Hu. rewrite Hu. done.
Qed.

(** C3. Writing a file.  Let the inode be well-formed and the transaction have room.  Then
    [writei] of [n] bytes at an offset within the file succeeds for some [t] bytes, all of
    them unless the disk is full; the file reads as before except for those bytes, its
    size is extended to cover them, and the inode on disk agrees with the one in memory.
    No other inode changes, and neither does any byte of another file.  A write that
    starts past the end of the file or would exceed the maximal file size returns -1 and
    does nothing. *)
Theorem writei_spec `{!CopySource pagetable kaddr us env src_ok} ip x it km C k src off n f :
  let d := i_d (it ip) in let inum := i_inum (it ip) in
  tx x [] C k → meta_used sb C → inode_wf sb C d → dinode_ok d → i_dev (it ip) = d0 → inum_ok sb inum →
  env (k_mem km) → src_ok (k_mem km) src n f →
  0 ≤ off → 0 ≤ n → off + n < 2 ^ 32 → 6 * nblk off n + 1 ≤ k →
  if (di_size d <? off) || (MAXFILE * BSIZE <? off + n) then
    writei me pagetable kaddr ip us src off n (mkFsys x sb it km) = Ok (err, mkFsys x sb it km)
  else ∃ t x' C' d' it' km',
    writei me pagetable kaddr ip us src off n (mkFsys x sb it km) = Ok (t, mkFsys x' sb it' km') ∧
    0 ≤ t ≤ n ∧ (t < n → ∀ b, 0 ≤ b < sb_size sb → used sb C' b = true) ∧
    tx x' [] C' (k - 6 * nblk off n - 1) ∧ it' ip = set_i_d d' (it ip) ∧ (∀ j, j ≠ ip → it' j = it j) ∧
    inode_wf sb C' d' ∧ dino sb C' inum = d' ∧ di_size d' = Z.max (di_size d) (off + t) ∧
    (∀ o, 0 ≤ o < MAXFILE * BSIZE →
      fbyte C' d' o = if decide (off ≤ o < off + t) then f (o - off) else fbyte C d o) ∧
    (∀ i, inum_ok sb i → i ≠ inum → dino sb C' i = dino sb C i) ∧
    (∀ y, inode_wf sb C y → disjoint_files C d y →
      inode_wf sb C' y ∧ disjoint_files C' d' y ∧ ∀ o, 0 ≤ o < MAXFILE * BSIZE → fbyte C' y o = fbyte C y o).
Proof.
  intros d inum Ht Hm Hw Hok Hdev Hi He Hs Hoff Hn Hsum Hk.
  destruct (Z.ltb_spec (di_size d) off) as [H1|H1]; cbn [orb].
  { unfold writei, iget_f. rewrite bind_gets. cbn [itable]. fold d. by destruct (Z.ltb_spec (di_size d) off); [|lia]. }
  destruct (Z.ltb_spec (MAXFILE * BSIZE) (off + n)) as [H2|H2].
  { unfold writei, iget_f. rewrite bind_gets. cbn [itable]. fold d. rewrite u32_small by lia.
    destruct (Z.ltb_spec (di_size d) off), (Z.ltb_spec (off + n) off); try lia. cbn [orb].
    by destruct (Z.ltb_spec (MAXFILE * BSIZE) (off + n)); [|lia]. }
  destruct (writei_ok me d0 Hd0 sb Hsb ops pagetable kaddr ip x it km C k src off n f Ht Hm Hw Hok Hdev Hi He Hs)
    as (t & x' & C' & d' & it' & km' & R & Ht1 & Hfull & Ht' & [Hi1 Hi2] & _ & [] & _); [fold d; lia | lia | done | done |].
  exists t, x', C', d', it', km'. split; [exact R|]. split_and!; try (assumption || lia).
Qed.

(** C5. What is written is read back.  After a successful [writei] of the bytes [f] at
    [off], a [readi] of the same range into kernel memory outside the buffers delivers
    exactly those bytes that were written. *)
Theorem writei_readi `{!CopySource pagetable kaddr us env src_ok} ip x it km C k src dst off n f :
  let d := i_d (it ip) in let inum := i_inum (it ip) in
  tx x [] C k → meta_used sb C → inode_wf sb C d → dinode_ok d → i_dev (it ip) = d0 → inum_ok sb inum →
  no_holes C d → di_size d ≤ MAXFILE * BSIZE →
  env (k_mem km) → src_ok (k_mem km) src n f → kdst kaddr (k_mem km) dst n →
  0 ≤ off ≤ di_size d → 0 ≤ n → off + n ≤ MAXFILE * BSIZE → 6 * nblk off n + 1 ≤ k →
  ∃ t s' s'',
    writei me pagetable kaddr ip us src off n (mkFsys x sb it km) = Ok (t, s') ∧
    readi me pagetable kaddr ip false dst off t s' = Ok (t, s'') ∧
    (∀ i, 0 ≤ i < t → ld8 (k_mem (fs_km s'')) (dst + i) = f i).
Proof.
  intros d inum Ht Hm Hw Hok Hdev Hi Hnh Hsz He Hs Hdst Hoff Hn Hmax Hk.
  destruct (writei_ok me d0 Hd0 sb Hsb ops pagetable kaddr ip x it km C k src off n f Ht Hm Hw Hok Hdev Hi He Hs)
    as (t & x1 & C1 & d1 & it1 & km1 & R1 & Ht1 & _ & Htx1 & Hit1 & _ & Hwr & _); [fold d; lia | lia | done | done |].
  destruct (itable_set_dev _ _ _ _ Hit1) as (Ed1 & _ & Edi). pose proof (wr_size _ _ _ _ _ _ _ _ _ Hwr) as Es.
  assert (Er : read_len (di_size (i_d (it1 ip))) off t = t).
  { rewrite Edi. unfold read_len. rewrite Es. fold d. destruct (Z.ltb_spec (Z.max (di_size d) (off + t)) off); [lia|]. lia. }
  assert (Hdst' : kdst kaddr (k_mem km1) dst (read_len (di_size (i_d (it1 ip))) off t)).
  { rewrite Er. destruct Hdst as (H1 & H2 & H3). split_and!; [done | lia |]. intros i Hi'. apply H3. lia. }
  change (MAXFILE * BSIZE) with 274432 in *.
  destruct (readi_ok me d0 Hd0 sb ops pagetable kaddr (ud := false) (env := kenv) (dst_ld := kld) (safe := ksafe)
    ip x1 it1 km1 C1 (k - 6 * nblk off n - 1) dst off t) as (x2 & km2 & R2 & _ & _ & _ & Hin & _);
    [done | lia | congruence | | rewrite Edi, Es; fold d; change (MAXFILE * BSIZE) with 274432; lia | done | done | lia.. |].
  { rewrite Edi. apply (wr_holes _ _ _ _ _ _ _ _ _ Hwr); [done | fold d; lia | done]. }
  rewrite Er in R2, Hin. exists t. do 2 eexists. split_and!; [exact R1 | exact R2 |]. intros i Hi'.
  specialize (Hin i Hi'). cbn [fs_km]. unfold kld in Hin. injection Hin as ->.
  rewrite Edi, (wr_byte _ _ _ _ _ _ _ _ _ Hwr) by (change (MAXFILE * BSIZE) with 274432; lia).
  unfold bytes_set. rewrite decide_True by lia. f_equal. lia.
Qed.

End spec.

(** ** A small file system *)

(** The file system of mkfs with only its metadata blocks in use, and inode 2 an empty
    file: block 45 is the bitmap, block 32 holds inodes 0 to 15. *)
Definition ex_bitmap : block := <[5 := 63]> (<[4 := 255]> (<[3 := 255]> (<[2 := 255]> (<[1 := 255]> (<[0 := 255]> ∅))))).
Definition ex_dinode : dinode := mkDinode T_FILE 0 0 1 0 (replicate 13 0).
Definition ex_iblock : block := put_dinode ∅ 128 ex_dinode.
Definition ex_C (n : Z) : block := if n =? 45 then ex_bitmap else if n =? 32 then ex_iblock else ∅.
Definition ex_ino : inode := mkInode ROOTDEV 2 1 (Some 1) true ex_dinode.
Definition ex_it (ip : nat) : inode := ex_ino.
(** Buffer [b] at [4096 * b] above 1 MiB, local variables at 2 MiB. *)
Definition ex_kaddr (s : slot) : Z := match s with SBuf b => 1048576 + 4096 * Z.of_nat b | _ => 2097152 end.

Lemma mkfs_sb_wf : sb_wf mkfs_sb.
Proof. split; vm_compute; split_and?; done. Qed.

(** A transaction just opened on a freshly booted cache. *)
Lemma boot_tx (dk : Z → Z → block) : ∃ x, tx 1 ROOTDEV 2 30 1 x [] (dk ROOTDEV) 28.
Proof.
  destruct (binit_pool 1 ROOTDEV ltac:(done) dk) as (s & L & _ & Hp & Hd).
  exists (mkLstate s (mkLog 2 30 1 false ROOTDEV 0 (λ _, 0))). split; cbn; try done; try lia.
  - by exists L.
  - split; cbn; try done; intros; lia.
  - intros n. rewrite <- Hd. eapply pool_content; [done | exact Hp | by intros ?%elem_of_nil | by intros ? _ ?%elem_of_nil].
  - by intros b ?%elem_of_nil.
Qed.

Lemma ex_meta_used : meta_used mkfs_sb ex_C.
Proof.
  intros n Hn. change (datastart mkfs_sb) with 46 in Hn.
  assert (H : forallb (used mkfs_sb ex_C) (seqZ 0 46) = true) by (by vm_compute).
  rewrite forallb_forall in H. apply H, list_elem_of_In, elem_of_seqZ. lia.
Qed.

(** An inode without blocks. *)
Lemma empty_wf C d : di_addrs d = replicate 13 0 → inode_wf mkfs_sb C d.
Proof.
  intros Ea. assert (Hd : ∀ i, daddr d i = 0).
  { intros i. unfold daddr. rewrite Ea. destruct (replicate 13 0 !! Z.to_nat i) eqn:E; [|done].
    apply lookup_replicate in E as [-> _]. done. }
  assert (Hf : ∀ bn, fblk C d bn = 0).
  { intros bn. unfold fblk. rewrite !Hd. by destruct (_ <? _). }
  split; [by rewrite Ea | | |].
  - intros a [[->|(bn & _ & ->)] Hz]; rewrite ?Hd, ?Hf in Hz; done.
  - intros bn bn' _ _ _ Hz. by rewrite Hf in Hz.
  - intros bn _ _. apply Hd.
Qed.

Lemma ex_ino_wf : inode_wf mkfs_sb ex_C ex_dinode.
Proof. by apply empty_wf. Qed.

Lemma ex_dinode_ok : dinode_ok ex_dinode.
Proof. split; cbn [di_type di_major di_minor di_nlink di_size di_addrs ex_dinode]; [unfold T_FILE; lia | lia.. | done | apply Forall_replicate; lia]. Qed.

(** The first block given out is the first data block. *)
Lemma balloc_spec_witness :
  ∃ x s', balloc 1 ROOTDEV (mkFsys x mkfs_sb ex_it (mkKmem ∅ 0)) = Ok (46, s').
Proof.
  destruct (boot_tx (λ _, ex_C)) as [x Ht].
  destruct (balloc_spec 1 ROOTDEV ltac:(done) mkfs_sb mkfs_sb_wf 1 x ex_it (mkKmem ∅ 0) ex_C 28 Ht ex_meta_used ltac:(lia))
    as (r & x' & C' & R & _ & H0 & _ & Hr).
  assert (Hu : used mkfs_sb ex_C 46 = false) by (by vm_compute).
  assert (r ≠ 0) as Hnz by (intros E; rewrite (proj1 H0 E 46 ltac:(by vm_compute)) in Hu; done).
  destruct (Hr Hnz) as ([Hlo _] & Hur & Hbelow & _). assert (r = 46) as ->.
  { change (datastart mkfs_sb) with 46 in Hlo. destruct (decide (r = 46)); [done|].
    rewrite Hbelow in Hu by lia. done. }
  by exists x, (mkFsys x' mkfs_sb ex_it (mkKmem ∅ 0)).
Defined.

Lemma bfree_spec_witness :
  ∃ x, bfree 1 ROOTDEV 46 (mkFsys x mkfs_sb ex_it (mkKmem ∅ 0)) = Panic "freeing free block".
Proof.
  destruct (boot_tx (λ _, ex_C)) as [x Ht]. exists x.
  pose proof (bfree_spec 1 ROOTDEV ltac:(done) mkfs_sb mkfs_sb_wf 1 x ex_it (mkKmem ∅ 0) ex_C 28 46 Ht ltac:(lia) ltac:(by vm_compute)) as H.
  assert (Hu : used mkfs_sb ex_C 46 = false) by (by vm_compute). rewrite Hu in H. exact H.
Defined.

(** The bytes 1, 2, 3, ... at 3 MiB, away from the buffers. *)
Definition ex_mem : memory := blit 100 ∅ 3145728 (foldr (λ i m, <[i := i + 1]> m) ∅ (seqZ 0 100)) 0.

Lemma ex_not_buf a : 2097152 ≤ a → ¬ buf_byte ex_kaddr a.
Proof. intros Ha (b & Hb & H). cbn in H. change (Z.to_nat NBUF) with 30%nat in Hb. change BSIZE with 1024 in H. lia. Qed.

Lemma ex_src : ksrc ex_kaddr ex_mem 3145728 100 (λ i, ld8 ex_mem (3145728 + i)).
Proof. split_and!; [lia..|]. intros i Hi. split; [apply ex_not_buf; lia | done]. Qed.

(** 100 bytes written to the empty file. *)
Lemma writei_spec_witness :
  ∃ x t s', writei 1 0 ex_kaddr 0 false 3145728 0 100 (mkFsys x mkfs_sb ex_it (mkKmem ex_mem 0)) = Ok (t, s') ∧
    di_size (i_d (itable s' 0%nat)) = t.
Proof.
  destruct (boot_tx (λ _, ex_C)) as [x Ht].
  pose proof (writei_spec 1 ROOTDEV ltac:(done) mkfs_sb mkfs_sb_wf 1 0 ex_kaddr (us := false) (env := kenv)
    0%nat x ex_it (mkKmem ex_mem 0) ex_C 28 3145728 0 100 (λ i, ld8 ex_mem (3145728 + i)) Ht ex_meta_used ex_ino_wf ex_dinode_ok
    ltac:(done) ltac:(by vm_compute) ltac:(done) ex_src ltac:(lia) ltac:(lia) ltac:(lia) ltac:(by vm_compute)) as H.
  destruct H as (t & x' & C' & d' & it' & km' & R & Ht1 & _ & _ & E & _ & _ & _ & Es & _).
  exists x, t, (mkFsys x' mkfs_sb it' km'). split; [exact R|]. cbn [itable]. rewrite E. cbn [set_i_d i_d]. rewrite Es. cbn. lia.
Defined.

Lemma writei_readi_witness :
  ∃ x t s' s'', writei 1 0 ex_kaddr 0 false 3145728 0 100 (mkFsys x mkfs_sb ex_it (mkKmem ex_mem 0)) = Ok (t, s') ∧
    readi 1 0 ex_kaddr 0 false 4194304 0 t s' = Ok (t, s'').
Proof.
  destruct (boot_tx (λ _, ex_C)) as [x Ht].
  destruct (writei_readi 1 ROOTDEV ltac:(done) mkfs_sb mkfs_sb_wf 1 0 ex_kaddr (us := false) (env := kenv)
    0%nat x ex_it (mkKmem ex_mem 0) ex_C 28 3145728 4194304 0 100 (λ i, ld8 ex_mem (3145728 + i)) Ht ex_meta_used ex_ino_wf ex_dinode_ok)
    as (t & s' & s'' & R1 & R2 & _).
  { done. }
  { split; by vm_compute. }
  { intros bn Hbn Hs. change (bn * 1024 < 0) in Hs. lia. }
  { by vm_compute. }
  { done. }
  { exact ex_src. }
  { split_and!; [lia..|]. intros i Hi. apply ex_not_buf. lia. }
  { split; by vm_compute. }
  { lia. }
  { by vm_compute. }
  { by vm_compute. }
  by exists x, t, s', s''.
Defined.
