(* ===== verification/FsPath.v ===== *)
(** * FsPath: path names (skipelem of src/kernel/fs.c)

    [skipelem] against a reference definition of the components of a path. *)

From S2P Require Import Prelude Mem Layout FsFormat Bio Log Kalloc Vm Fs FsBlocks FsFile.
Import CString.

Local Open Scope Z_scope.

(** ** Paths as lists of characters *)

(** Leading slashes removed; the characters up to the first slash; what follows them. *)
Fixpoint strip (s : list Z) : list Z :=
  match s with
  | [] => []
  | c :: s' => if c =? slash then strip s' else s
  end.
Fixpoint elem (s : list Z) : list Z :=
  match s with
  | [] => []
  | c :: s' => if c =? slash then [] else c :: elem s'
  end.
Fixpoint rest (s : list Z) : list Z :=
  match s with
  | [] => []
  | c :: s' => if c =? slash then s else rest s'
  end.

(** The components of a path: the maximal runs of characters other than slashes. *)
Fixpoint components (cur s : list Z) : list (list Z) :=
  match s with
  | [] => match cur with [] => [] | _ => [rev cur] end
  | c :: s' =>
      if c =? slash then match cur with [] => components [] s' | _ => rev cur :: components [] s' end
      else components (c :: cur) s'
  end.

Lemma components_strip s : components [] s = components [] (strip s).
Proof.
  induction s as [|c s IH]; cbn; [done|]. destruct (Z.eqb_spec c slash); [done|].
  cbn. by destruct (Z.eqb_spec c slash).
Qed.

Lemma components_elem s : ∀ cur,
  cur ≠ [] → components cur s = (rev cur ++ elem s) :: components [] (rest s).
Proof.
  induction s as [|c s IH]; intros cur Hcur; cbn.
  - rewrite app_nil_r. by destruct cur.
  - destruct (Z.eqb_spec c slash) as [->|].
    + rewrite app_nil_r. cbn. by destruct cur.
    + rewrite IH by done. cbn [rev]. by rewrite <- app_assoc.
Qed.

Lemma strip_head s c s' : strip s = c :: s' → c ≠ slash.
Proof.
  induction s as [|c0 s IH]; cbn; [done|]. destruct (Z.eqb_spec c0 slash); [done|]. by intros [= <- <-].
Qed.

(** A path is its first component and the path after it. *)
Lemma components_unfold s :
  components [] s = match strip s with [] => [] | _ => elem (strip s) :: components [] (strip (rest (strip s))) end.
Proof.
  rewrite components_strip. destruct (strip s) as [|c s'] eqn:E; [done|]. apply strip_head in E. cbn.
  destruct (Z.eqb_spec c slash); [done|]. rewrite components_elem by done. cbn. by rewrite components_strip.
Qed.

Lemma elem_rest s : s = elem s ++ rest s.
Proof. induction s as [|c s IH]; cbn; [done|]. destruct (_ =? _); cbn; congruence. Qed.

Lemma strip_suffix s : ∃ l, s = l ++ strip s.
Proof.
  induction s as [|c s [l IH]]; cbn; [by exists []|]. destruct (_ =? _); [|by exists []].
  exists (c :: l). cbn. congruence.
Qed.

(** ** Strings in memory *)

(** The C string [s] at [p]. *)
Definition str_at (m : memory) (p : Z) (s : list Z) : Prop :=
  (∀ i c, s !! i = Some c → ld8 m (p + Z.of_nat i) = c ∧ c ≠ 0) ∧ ld8 m (p + Z.of_nat (length s)) = 0.

Lemma str_at_app m p s s' : str_at m p (s ++ s') → str_at m (p + Z.of_nat (length s)) s'.
Proof.
  intros [H1 H2]. rewrite length_app in H2. split.
  - intros i c Hi. rewrite <- Z.add_assoc, <- Nat2Z.inj_add. apply H1. rewrite lookup_app_r by lia.
    rewrite <- Hi. f_equal. lia.
  - rewrite <- H2. f_equal. lia.
Qed.

Lemma str_at_cons m p c s : str_at m p (c :: s) → ld8 m p = c ∧ c ≠ 0 ∧ str_at m (p + 1) s.
Proof.
  intros H. pose proof (proj1 H 0%nat c eq_refl) as [H1 H2]. rewrite Z.add_0_r in H1.
  split_and!; [done..|]. by apply (str_at_app m p [c]).
Qed.

Lemma str_at_nil m p : str_at m p [] → ld8 m p = 0.
Proof. intros [_ H]. by rewrite Z.add_0_r in H. Qed.

Lemma str_at_ext m m' p s :
  (∀ i, 0 ≤ i ≤ Z.of_nat (length s) → ld8 m' (p + i) = ld8 m (p + i)) → str_at m p s → str_at m' p s.
Proof.
  intros He [H1 H2]. split; [|rewrite He by lia; done]. intros i c Hi.
  pose proof (lookup_lt_Some _ _ _ Hi). rewrite He by lia. by apply H1.
Qed.

Lemma skip_slashes_ok m fuel : ∀ p s,
  str_at m p s → (length s < fuel)%nat →
  skip_slashes fuel m p = Some (p + Z.of_nat (length s - length (strip s))).
Proof.
  induction fuel as [|fuel IH]; intros p s Hs Hf; [lia|]. cbn [skip_slashes]. destruct s as [|c s].
  - rewrite (str_at_nil _ _ Hs). cbn. f_equal. lia.
  - apply str_at_cons in Hs as (-> & Hc & Hs). cbn [strip length] in *. destruct (Z.eqb_spec c slash).
    + rewrite (IH _ _ Hs) by lia. f_equal.
      assert (length (strip s) ≤ length s)%nat by (destruct (strip_suffix s) as [l E]; rewrite E at 2; rewrite length_app; lia). lia.
    + cbn. f_equal. lia.
Qed.

Lemma skip_name_ok m fuel : ∀ p s,
  str_at m p s → (length s < fuel)%nat → skip_name fuel m p = Some (p + Z.of_nat (length (elem s))).
Proof.
  induction fuel as [|fuel IH]; intros p s Hs Hf; [lia|]. cbn [skip_name]. destruct s as [|c s].
  - rewrite (str_at_nil _ _ Hs). cbn. f_equal. lia.
  - apply str_at_cons in Hs as (-> & Hc & Hs). cbn [elem length] in *. destruct (Z.eqb_spec c slash); cbn [negb andb].
    + cbn. f_equal. lia.
    + destruct (Z.eqb_spec c 0); [done|]. cbn [negb]. rewrite (IH _ _ Hs) by lia. cbn [length]. f_equal. lia.
Qed.

Lemma str_at_strip m p s : str_at m p s → str_at m (p + Z.of_nat (length s - length (strip s))) (strip s).
Proof.
  intros Hs. destruct (strip_suffix s) as [l E]. rewrite E in Hs. apply str_at_app in Hs.
  replace (length s - length (strip s))%nat with (length l); [done|]. rewrite E at 1. rewrite length_app. lia.
Qed.

(** The name of a directory entry: [name] holds [l], cut to DIRSIZ characters and
    NUL-terminated if shorter. *)
Definition name_at (m : memory) (name : Z) (l : list Z) : Prop :=
  (∀ i c, l !! i = Some c → Z.of_nat i < DIRSIZ → ld8 m (name + Z.of_nat i) = c) ∧
  (Z.of_nat (length l) < DIRSIZ → ld8 m (name + Z.of_nat (length l)) = 0).

Section path.
  Context (sb : superblock).

Lemma or_fuel_some {A B} (a : A) (f : A → FM B) st : (or_fuel (Some a) ≫= f) st = f a st.
Proof. done. Qed.

Lemma bind_read_mem {A B} (g : memory → A) (f : A → FM B) x it km :
  (read_mem g ≫= f) (mkFsys x sb it km) = f (g (k_mem km)) (mkFsys x sb it km).
Proof. done. Qed.

Lemma write_mem_run (g : memory → memory) x it km :
  write_mem g (mkFsys x sb it km) = Ok (tt, mkFsys x sb it (mkKmem (g (k_mem km)) (k_freelist km))).
Proof. done. Qed.

(** The copy of a component to [name]. *)
Lemma copy_name m name p s :
  str_at m p s → name + DIRSIZ ≤ p ∨ p + Z.of_nat (length s) < name →
  let len := Z.of_nat (length (elem s)) in
  let m' := if DIRSIZ <=? len then memmove m name p DIRSIZ else st8 (memmove m name p len) (name + len) 0 in
  name_at m' name (elem s) ∧ (∀ a, a < name ∨ name + DIRSIZ ≤ a → ld8 m' a = ld8 m a).
Proof.
  intros Hs Hdis len m'. unfold DIRSIZ in *. assert (Hl : 0 ≤ len) by lia.
  assert (Hch : ∀ i c, elem s !! i = Some c → ld8 m (p + Z.of_nat i) = c).
  { intros i c Hi. apply (proj1 Hs). rewrite (elem_rest s). by rewrite lookup_app_l by (by eapply lookup_lt_Some). }
  assert (Hmv : ∀ n a, 0 ≤ n → ld8 (memmove m name p n) a = if (name <=? a) && (a <? name + n) then ld8 m (p + (a - name)) else ld8 m a).
  { intros n a Hn. by apply ld8_memmove. }
  subst m'. destruct (Z.leb_spec 14 len) as [Hge|Hlt].
  - split; [split|].
    + intros i c Hi Hb. unfold DIRSIZ in Hb. rewrite Hmv by lia. destruct (_ && _) eqn:E; [|lia].
      replace (name + Z.of_nat i - name) with (Z.of_nat i) by lia. by apply Hch.
    + unfold DIRSIZ. fold len. lia.
    + intros a Ha. rewrite Hmv by lia. by destruct (_ && _) eqn:E; [lia|].
  - split; [split|].
    + intros i c Hi Hb. pose proof (lookup_lt_Some _ _ _ Hi). rewrite ld8_st8_ne by (unfold len; lia).
      rewrite Hmv by lia. destruct (_ && _) eqn:E; [|unfold len in *; lia].
      replace (name + Z.of_nat i - name) with (Z.of_nat i) by lia. by apply Hch.
    + intros _. apply (ld8_st8_eq _ (name + len)).
    + intros a Ha. rewrite ld8_st8_ne by (unfold len in *; lia). rewrite Hmv by lia. by destruct (_ && _) eqn:E; [lia|].
Qed.

(** [skipelem] splits a path.  For a path string of fewer than MAXPATH characters and
    a name buffer that does not overlap it, [skipelem] returns 0 exactly when the path
    has no component.  Otherwise it puts the first component, cut to DIRSIZ characters,
    into the buffer and returns the address of a path that has the remaining
    components and no leading slash, so that it is empty exactly when the component was
    the last one. *)
Theorem skipelem_spec x it km path name s :
  str_at (k_mem km) path s → Z.of_nat (length s) < MAXPATH → 0 < path →
  name + DIRSIZ ≤ path ∨ path + Z.of_nat (length s) < name →
  match components [] s with
  | [] => skipelem path name (mkFsys x sb it km) = Ok (0, mkFsys x sb it km)
  | e :: es => ∃ path' s' m', skipelem path name (mkFsys x sb it km) = Ok (path', mkFsys x sb it (mkKmem m' (k_freelist km))) ∧
      path < path' ∧ str_at m' path' s' ∧ components [] s' = es ∧ strip s' = s' ∧ (s' = [] ↔ es = []) ∧
      path' + Z.of_nat (length s') = path + Z.of_nat (length s) ∧ name_at m' name e ∧
      (∀ a, a < name ∨ name + DIRSIZ ≤ a → ld8 m' a = ld8 (k_mem km) a)
  end.
Proof.
  intros Hs Hlen Hpath Hdis. unfold skipelem. rewrite bind_read_mem. cbn [id].
  assert (Hfuel : (length s < path_fuel)%nat) by (unfold path_fuel; lia).
  rewrite (skip_slashes_ok _ _ _ _ Hs Hfuel), or_fuel_some. set (p1 := path + _).
  pose proof (str_at_strip _ _ _ Hs) as Hs1. fold p1 in Hs1. destruct (strip_suffix s) as [l El].
  assert (Hl1 : Z.of_nat (length s) = Z.of_nat (length l) + Z.of_nat (length (strip s))) by (rewrite El at 1; rewrite length_app; lia).
  assert (Ep1 : p1 = path + Z.of_nat (length l)) by (unfold p1; lia).
  rewrite components_unfold. destruct (strip s) as [|c s1] eqn:Estrip.
  { by rewrite (str_at_nil _ _ Hs1). }
  pose proof (str_at_cons _ _ _ _ Hs1) as (Hc & Hc0 & _). rewrite Hc. destruct (Z.eqb_spec c 0); [done|].
  rewrite <- Estrip in *. clear Hc Hc0 n. set (t := strip s) in *.
  rewrite (skip_name_ok _ _ _ _ Hs1), or_fuel_some by (unfold path_fuel in *; lia).
  replace (p1 + Z.of_nat (length (elem t)) - p1) with (Z.of_nat (length (elem t))) by lia. cbv zeta.
  set (m' := if DIRSIZ <=? Z.of_nat (length (elem t)) then memmove (k_mem km) name p1 DIRSIZ
             else st8 (memmove (k_mem km) name p1 (Z.of_nat (length (elem t)))) (name + Z.of_nat (length (elem t))) 0).
  destruct (copy_name (k_mem km) name p1 t Hs1 ltac:(lia)) as [Hname Hframe]. fold m' in Hname, Hframe.
  assert (Hw : (if DIRSIZ <=? Z.of_nat (length (elem t)) then write_mem (λ m, memmove m name p1 DIRSIZ)
     else write_mem (λ m, st8 (memmove m name p1 (Z.of_nat (length (elem t)))) (name + Z.of_nat (length (elem t))) 0))
     (mkFsys x sb it km) = Ok (tt, mkFsys x sb it (mkKmem m' (k_freelist km)))) by (subst m'; by destruct (_ <=? _)).
  rewrite (bind_ok _ _ _ _ _ Hw), bind_read_mem. cbn [id k_mem].
  assert (Hrest : str_at m' (p1 + Z.of_nat (length (elem t))) (rest t)).
  { apply (str_at_ext (k_mem km)).
    - intros i Hi. apply Hframe. pose proof (f_equal length (elem_rest t)) as E. rewrite length_app in E. lia.
    - apply str_at_app. by rewrite <- elem_rest. }
  pose proof (f_equal length (elem_rest t)) as E. rewrite length_app in E.
  rewrite (skip_slashes_ok _ _ _ _ Hrest) by (unfold path_fuel in *; lia).
  eexists _, (strip (rest t)), m'. split; [reflexivity|].
  assert (He : elem t ≠ []).
  { subst t. rewrite Estrip. cbn. pose proof (strip_head _ _ _ Estrip). by destruct (Z.eqb_spec c slash). }
  destruct (strip_suffix (rest t)) as [l2 El2]. pose proof (f_equal length El2) as E2. rewrite length_app in E2.
  split_and!; [destruct (elem t); [done | cbn [length] in *; lia] | by apply str_at_strip | done | | | lia | done | done].
  - destruct (strip (rest t)) as [|c2 s2] eqn:E3; [done|]. apply strip_head in E3. cbn. by destruct (Z.eqb_spec c2 slash).
  - rewrite components_unfold. destruct (strip (rest t)) as [|c2 s2] eqn:E3; [done|].
    split; [done|]. apply strip_head in E3 as E4. cbn. by destruct (Z.eqb_spec c2 slash).
Qed.

End path.

(** The path "/a//bc" at address 100, its name buffer at 200. *)
Definition ex_path_mem : memory := <[106 := 0]> (<[105 := 99]> (<[104 := 98]> (<[103 := 47]> (<[102 := 47]> (<[101 := 97]> (<[100 := 47]> ∅)))))).

Lemma skipelem_spec_witness :
  ∃ s, skipelem 100 200 s = Ok (104, mkFsys (fs_ls s) (fs_sb s) (itable s) (mkKmem (st8 (memmove (k_mem (fs_km s)) 200 101 1) 201 0) 0)).
Proof.
  pose (x := mkLstate (bss (λ _ _, ∅)) (mkLog 0 0 0 false 0 0 (λ _, 0))). pose (sb := mkSuperblock 0 0 0 0 0 0 0 0).
  pose (it := λ _ : nat, mkInode 0 0 0 None false (mkDinode 0 0 0 0 0 [])).
  pose proof (skipelem_spec sb x it (mkKmem ex_path_mem 0) 100 200 [47; 97; 47; 47; 98; 99]) as H.
  destruct H as (p' & s' & m' & R & _).
  { split; [|by vm_compute]. intros i c Hi. do 6 (destruct i as [|i]; [injection Hi as <-; by vm_compute|]). done. }
  { done. }
  { done. }
  { right. done. }
  exists (mkFsys x sb it (mkKmem ex_path_mem 0)). by vm_compute.
Defined.
