(* ===== verification/FsDir.v ===== *)
(** * FsDir: directories (dirlookup and dirlink of src/kernel/fs.c)

    A directory as the table of its entries, and the two operations on it. *)

From stdpp Require Import functions.
From S2P Require Import Prelude Mem Layout FsFormat Bio BioPool Log LogCrash Kalloc Vm VmTable VmUser VmCopy.
From S2P Require Import Fs FsTx FsBlocks FsInode FsMap FsCopy FsFile FsPath FsSpec.
Import CString.

Local Open Scope Z_scope.
Local Opaque blit.

(** ** Directories as tables *)

(** The string of at most [n] characters at [o] of the bytes [g]. *)
Fixpoint fstr (n : nat) (g : Z → Z) (o : Z) : list Z :=
  match n with
  | O => []
  | S n' => if g o =? 0 then [] else g o :: fstr n' g (o + 1)
  end.

(** Number and name of entry [j]; number 0 is a free entry. *)
Definition dnum (g : Z → Z) (j : Z) : Z := g (DIRENT_SIZE * j) + 256 * g (DIRENT_SIZE * j + 1).
Definition dname (g : Z → Z) (j : Z) : list Z := fstr (Z.to_nat DIRSIZ) g (DIRENT_SIZE * j + 2).

(** The first of the [k] entries from [j] on that has the name [nm]. *)
Fixpoint dir_find (k : nat) (g : Z → Z) (j : Z) (nm : list Z) : option (Z * Z) :=
  match k with
  | O => None
  | S k' =>
      if negb (dnum g j =? 0) && bool_decide (dname g j = nm) then Some (j, dnum g j)
      else dir_find k' g (j + 1) nm
  end.

(** The first free entry, or the end of the table. *)
Fixpoint dir_free (k : nat) (g : Z → Z) (j : Z) : Z :=
  match k with
  | O => j
  | S k' => if dnum g j =? 0 then j else dir_free k' g (j + 1)
  end.

Lemma cstr_fstr n m g : ∀ p o,
  (∀ i, 0 ≤ i < Z.of_nat n → ld8 m (p + i) = g (o + i)) → cstr n m p = fstr n g o.
Proof.
  induction n as [|n IH]; intros p o H; cbn [cstr fstr]; [done|].
  pose proof (H 0 ltac:(lia)) as H0. rewrite !Z.add_0_r in H0. rewrite H0.
  destruct (_ =? _); [done|]. f_equal. apply IH. intros i Hi. rewrite <- !Z.add_assoc. apply H. lia.
Qed.

Lemma fstr_ext n g g' o : (∀ i, 0 ≤ i < Z.of_nat n → g' (o + i) = g (o + i)) → fstr n g' o = fstr n g o.
Proof.
  revert o. induction n as [|n IH]; intros o H; cbn; [done|].
  pose proof (H 0 ltac:(lia)) as H0. rewrite !Z.add_0_r in H0. rewrite H0.
  destruct (_ =? _); [done|]. f_equal. apply IH. intros i Hi. rewrite <- !Z.add_assoc. apply H. lia.
Qed.

Lemma entry_ext g g' j :
  (∀ i, 0 ≤ i < DIRENT_SIZE → g' (DIRENT_SIZE * j + i) = g (DIRENT_SIZE * j + i)) →
  dnum g' j = dnum g j ∧ dname g' j = dname g j.
Proof.
  intros H. unfold dnum, dname, DIRENT_SIZE in *. pose proof (H 0 ltac:(lia)) as H0. rewrite !Z.add_0_r in H0.
  rewrite H0, H by lia. split; [done|]. apply fstr_ext. intros i Hi. change (Z.of_nat (Z.to_nat DIRSIZ)) with 14 in Hi.
  rewrite <- !Z.add_assoc. apply H. lia.
Qed.

Lemma dir_find_spec k g nm : ∀ j,
  match dir_find k g j nm with
  | Some (i, n) => j ≤ i < j + Z.of_nat k ∧ n = dnum g i ∧ n ≠ 0 ∧ dname g i = nm
  | None => ∀ i, j ≤ i < j + Z.of_nat k → dnum g i ≠ 0 → dname g i ≠ nm
  end.
Proof.
  induction k as [|k IH]; intros j; cbn [dir_find]; [lia|].
  destruct (Z.eqb_spec (dnum g j) 0) as [E|E]; cbn [negb andb].
  - specialize (IH (j + 1)). destruct (dir_find k g (j + 1) nm) as [[i n]|].
    + destruct IH as (H1 & H2 & H3 & H4). split_and!; [lia.. | done | done].
    + intros i Hi Hd. destruct (decide (i = j)) as [->|]; [done | apply IH; [lia | done]].
  - destruct (bool_decide_reflect (dname g j = nm)) as [En|En].
    + split_and!; [lia.. | done | done].
    + specialize (IH (j + 1)). destruct (dir_find k g (j + 1) nm) as [[i n]|].
      * destruct IH as (H1 & H2 & H3 & H4). split_and!; [lia.. | done | done].
      * intros i Hi Hd. destruct (decide (i = j)) as [->|]; [done | apply IH; [lia | done]].
Qed.

Lemma dir_free_spec k g : ∀ j,
  j ≤ dir_free k g j ≤ j + Z.of_nat k ∧ (dir_free k g j < j + Z.of_nat k → dnum g (dir_free k g j) = 0).
Proof.
  induction k as [|k IH]; intros j; cbn [dir_free]; [lia|].
  destruct (Z.eqb_spec (dnum g j) 0); [split; [lia | done]|]. specialize (IH (j + 1)). lia.
Qed.

(** Does entry [i] answer a search for [nm]? *)
Definition dir_hit (g : Z → Z) (nm : list Z) (i : Z) : bool := negb (dnum g i =? 0) && bool_decide (dname g i = nm).

Lemma dir_find_app k1 k2 g nm : ∀ j,
  dir_find (k1 + k2) g j nm =
  match dir_find k1 g j nm with Some r => Some r | None => dir_find k2 g (j + Z.of_nat k1) nm end.
Proof.
  induction k1 as [|k1 IH]; intros j; cbn [dir_find Nat.add]; [by rewrite Z.add_0_r|].
  destruct (_ && _); [done|]. rewrite IH. by replace (j + 1 + Z.of_nat k1) with (j + Z.of_nat (S k1)) by lia.
Qed.

Lemma dir_find_ext k g g' nm : ∀ j,
  (∀ i, j ≤ i < j + Z.of_nat k → dir_hit g' nm i = dir_hit g nm i ∧ (dir_hit g nm i = true → dnum g' i = dnum g i)) →
  dir_find k g' j nm = dir_find k g j nm.
Proof.
  induction k as [|k IH]; intros j H; cbn [dir_find]; [done|].
  destruct (H j ltac:(lia)) as [E1 E2]. unfold dir_hit in E1, E2. rewrite E1.
  destruct (negb (dnum g j =? 0) && _); [by rewrite E2 by done|]. apply IH. intros i Hi. apply H. lia.
Qed.

(** A new name in a free entry, or after the last one: it is found there, and every other
    name is found where it was. *)
Lemma dir_find_insert k g g' j inum nm :
  let k' := Nat.max k (S (Z.to_nat j)) in
  0 ≤ j ≤ Z.of_nat k → (j < Z.of_nat k → dnum g j = 0) → inum ≠ 0 →
  dnum g' j = inum → dname g' j = nm →
  (∀ i, 0 ≤ i < Z.of_nat k → i ≠ j → dnum g' i = dnum g i ∧ dname g' i = dname g i) →
  dir_find k g 0 nm = None →
  ∀ nm', dir_find k' g' 0 nm' = if decide (nm' = nm) then Some (j, inum) else dir_find k g 0 nm'.
Proof.
  intros k' Hj Hfree Hnz En Enm Hother Hnone nm'.
  pose proof (dir_find_spec k g nm 0) as Hno. rewrite Hnone in Hno.
  destruct (decide (nm' = nm)) as [->|Hne].
  - replace k' with (Z.to_nat j + (1 + (k' - S (Z.to_nat j))))%nat by (unfold k'; lia). rewrite dir_find_app.
    pose proof (dir_find_spec (Z.to_nat j) g' nm 0) as Hlow. destruct (dir_find (Z.to_nat j) g' 0 nm) as [[i n]|].
    + destruct Hlow as (Hi & -> & Hn & Hnm). destruct (Hother i ltac:(lia) ltac:(lia)) as [E1 E2].
      exfalso. apply (Hno i); [lia | congruence | congruence].
    + rewrite Z.add_0_l, Z2Nat.id by lia. cbn [dir_find Nat.add]. rewrite En, Enm, bool_decide_true by done.
      by destruct (Z.eqb_spec inum 0).
  - assert (Hjn : dir_hit g' nm' j = false) by (unfold dir_hit; rewrite Enm, bool_decide_false by done; apply andb_false_r).
    assert (Hlow : dir_find k g' 0 nm' = dir_find k g 0 nm').
    { apply dir_find_ext. intros i Hi. destruct (decide (i = j)) as [->|Hij].
      - rewrite Hjn. unfold dir_hit at 1 2. rewrite Hfree by lia. done.
      - unfold dir_hit. by destruct (Hother i ltac:(lia) Hij) as [-> ->]. }
    destruct (decide (j = Z.of_nat k)) as [->|].
    + replace k' with (k + 1)%nat by (unfold k'; lia). rewrite dir_find_app, Hlow. cbn [dir_find]. rewrite Z.add_0_l.
      unfold dir_hit in Hjn. rewrite Hjn. by destruct (dir_find k g 0 nm').
    + by replace k' with k by (unfold k'; lia).
Qed.

Section dir.
  Context {K : KernelImage} {KOk : KernelImageOk K}.
  Context (me d0 : Z) (Hd0 : d0 ≠ 0) (sb : superblock) (Hsb : sb_wf sb) (ops : Z).
  Context (pagetable : Z) (kaddr : slot → Z).
  Abbreviation tx := (tx me d0 (sb_logstart sb) (sb_nlog sb) ops).

(** A directory: a file without holes whose size is a number of entries. *)
Record dir_wf (C : Z → block) (d : dinode) (k : nat) : Prop := {
  dw_holes : no_holes C d;
  dw_size : di_size d = DIRENT_SIZE * Z.of_nat k;
  dw_max : di_size d ≤ MAXFILE * BSIZE;
}.

(** A local [struct dirent], away from the buffers. *)
Definition slot_ok (a : Z) : Prop := 0 ≤ a ∧ a + DIRENT_SIZE < 2 ^ 64 ∧ ∀ i, 0 ≤ i < DIRENT_SIZE → ¬ buf_byte kaddr (a + i).

(** Reading entry [j] into the [struct dirent] at [a]. *)
Lemma read_entry dp x it km C k n a j :
  let d := i_d (it dp) in
  tx x [] C k → 0 ≤ k → i_dev (it dp) = d0 → dir_wf C d n → slot_ok a → 0 ≤ j < Z.of_nat n →
  ∃ x' km', readi me pagetable kaddr dp false a (DIRENT_SIZE * j) DIRENT_SIZE (mkFsys x sb it km) = Ok (DIRENT_SIZE, mkFsys x' sb it km') ∧
    tx x' [] C k ∧ de_inum (k_mem km') a = dnum (fbyte C d) j ∧
    cstr (Z.to_nat DIRSIZ) (k_mem km') (de_name a) = dname (fbyte C d) j ∧
    (∀ b, b < a ∨ a + DIRENT_SIZE ≤ b → ¬ buf_byte kaddr b → ld8 (k_mem km') b = ld8 (k_mem km) b).
Proof.
  intros d Ht Hk Hdev Hw (Ha0 & Ha64 & Hab) Hj. pose proof (dw_size _ _ _ Hw) as Es. pose proof (dw_max _ _ _ Hw) as Hm.
  unfold DIRENT_SIZE in *. change (MAXFILE * BSIZE) with 274432 in Hm. fold d in Es, Hm.
  assert (Er : read_len (di_size d) (16 * j) 16 = 16).
  { unfold read_len. rewrite Es. destruct (Z.ltb_spec (16 * Z.of_nat n) (16 * j)); lia. }
  destruct (readi_ok me d0 Hd0 sb ops pagetable kaddr (ud := false) (env := kenv) (dst_ok := kdst kaddr) (dst_ld := kld) (safe := ksafe)
    dp x it km C k a (16 * j) 16) as (x' & km' & R & Ht' & _ & _ & Hin & Hs); fold d; rewrite ?Er;
    [done | done | done | apply Hw | change (MAXFILE * BSIZE) with 274432; lia | done | done | lia.. |].
  fold d in R, Hin, Hs. rewrite Er in R, Hin, Hs.
  assert (Hbyte : ∀ i, 0 ≤ i < 16 → ld8 (k_mem km') (a + i) = fbyte C d (16 * j + i)).
  { intros i Hi. specialize (Hin i Hi). unfold kld in Hin. by injection Hin. }
  exists x', km'. split_and!; [done | done | | |].
  - unfold de_inum, dnum, ld16, DIRENT_SIZE. cbn [ldle]. rewrite Hbyte by lia.
    pose proof (Hbyte 0 ltac:(lia)) as E. rewrite !Z.add_0_r in E. rewrite E. lia.
  - unfold de_name, dname, DIRENT_SIZE. apply cstr_fstr. intros i Hi. change (Z.of_nat (Z.to_nat DIRSIZ)) with 14 in Hi.
    rewrite <- !Z.add_assoc. apply Hbyte. lia.
  - intros b Hb Hnb. apply Hs; [|done]. unfold ksafe. lia.
Qed.

(** A name, kept apart from the buffers and the local entry at [a]. *)
Definition name_ok (name a : Z) : Prop :=
  ∀ i, 0 ≤ i < DIRSIZ → ¬ buf_byte kaddr (name + i) ∧ (name + i < a ∨ a + DIRENT_SIZE ≤ name + i).

Lemma dirlookup_loop_ok dp name n fuel : ∀ x it km C k j i,
  let d := i_d (it dp) in let nm := cstr (Z.to_nat DIRSIZ) (k_mem km) name in
  tx x [] C k → 0 ≤ k → i_dev (it dp) = d0 → dir_wf C d n →
  slot_ok (kaddr SLookupDe) → name_ok name (kaddr SLookupDe) →
  0 ≤ j → j + Z.of_nat i = Z.of_nat n → (i < fuel)%nat →
  ∃ x' km',
    dirlookup_loop me pagetable kaddr fuel dp name (DIRENT_SIZE * j) (mkFsys x sb it km) =
      match dir_find i (fbyte C d) j nm with
      | None => Ok (None, mkFsys x' sb it km')
      | Some (j', inum) => (ip ← iget d0 inum; mret (Some (ip, DIRENT_SIZE * j'))) (mkFsys x' sb it km')
      end ∧
    tx x' [] C k ∧
    (∀ b, b < kaddr SLookupDe ∨ kaddr SLookupDe + DIRENT_SIZE ≤ b → ¬ buf_byte kaddr b → ld8 (k_mem km') b = ld8 (k_mem km) b).
Proof.
  induction fuel as [|fuel IH]; intros x it km C k j i d nm Ht Hk Hdev Hw Hsl Hnm Hj Hn Hf; [lia|].
  cbn [dirlookup_loop]. unfold iget_f. rewrite bind_gets. cbn [itable]. fold d.
  pose proof (dw_size _ _ _ Hw) as Es. pose proof (dw_max _ _ _ Hw) as Hm. change (MAXFILE * BSIZE) with 274432 in Hm. fold d in Es, Hm.
  rewrite Es. destruct i as [|i].
  { destruct (Z.ltb_spec (DIRENT_SIZE * j) (DIRENT_SIZE * Z.of_nat n)); [unfold DIRENT_SIZE in *; lia|]. by exists x, km. }
  destruct (Z.ltb_spec (DIRENT_SIZE * j) (DIRENT_SIZE * Z.of_nat n)); [|unfold DIRENT_SIZE in *; lia].
  destruct (read_entry dp x it km C k n (kaddr SLookupDe) j Ht Hk Hdev Hw Hsl ltac:(lia)) as (x1 & km1 & R1 & Ht1 & En & Ec & Hfr).
  rewrite (bind_ok _ _ _ _ _ R1). change (negb (DIRENT_SIZE =? DIRENT_SIZE)) with false. cbv iota.
  rewrite bind_read_mem, En. fold d.
  assert (Enm : cstr (Z.to_nat DIRSIZ) (k_mem km1) name = nm).
  { apply cstr_ext. intros b Hb. change (Z.of_nat (Z.to_nat DIRSIZ)) with DIRSIZ in Hb. destruct (Hnm b Hb). by apply Hfr. }
  assert (Estep : u32 (DIRENT_SIZE * j + DIRENT_SIZE) = DIRENT_SIZE * (j + 1)).
  { unfold DIRENT_SIZE in *. rewrite u32_small; lia. }
  destruct (IH x1 it km1 C k (j + 1) i Ht1 Hk Hdev Hw Hsl Hnm ltac:(lia) ltac:(lia) ltac:(lia)) as (x2 & km2 & R2 & Ht2 & Hfr2).
  rewrite Enm in R2. fold d in R2. cbn [dir_find].
  assert (Hcomb : ∀ b, b < kaddr SLookupDe ∨ kaddr SLookupDe + DIRENT_SIZE ≤ b → ¬ buf_byte kaddr b → ld8 (k_mem km2) b = ld8 (k_mem km) b).
  { intros b Hb Hnb. rewrite Hfr2 by done. by apply Hfr. }
  destruct (Z.eqb_spec (dnum (fbyte C d) j) 0) as [Ez|Ez]; cbn [negb andb].
  { rewrite Estep. by exists x2, km2. }
  rewrite bind_read_mem. unfold namecmp, strncmp.
  destruct (Z.eqb_spec (strncmp_loop (Z.to_nat DIRSIZ) (k_mem km1) name (de_name (kaddr SLookupDe))) 0) as [Ecmp|Ecmp].
  - rewrite strncmp_loop_zero, Enm, Ec in Ecmp. rewrite bool_decide_true by done.
    exists x1, km1. split_and!; [|done|done]. rewrite bind_gets. cbn [itable]. by rewrite Hdev.
  - rewrite bool_decide_false, Estep; [by exists x2, km2|]. intros E. apply Ecmp. rewrite strncmp_loop_zero, Enm, Ec. done.
Qed.

(** [dirlookup] is the table search, and an [iget] of what it finds. *)
Lemma dirlookup_ok dp name n x it km C k :
  let d := i_d (it dp) in let nm := cstr (Z.to_nat DIRSIZ) (k_mem km) name in
  tx x [] C k → 0 ≤ k → i_dev (it dp) = d0 → di_type d = T_DIR → dir_wf C d n →
  slot_ok (kaddr SLookupDe) → name_ok name (kaddr SLookupDe) →
  ∃ x' km',
    dirlookup me pagetable kaddr dp name (mkFsys x sb it km) =
      match dir_find n (fbyte C d) 0 nm with
      | None => Ok (None, mkFsys x' sb it km')
      | Some (j, inum) => (ip ← iget d0 inum; mret (Some (ip, DIRENT_SIZE * j))) (mkFsys x' sb it km')
      end ∧
    tx x' [] C k ∧
    (∀ b, b < kaddr SLookupDe ∨ kaddr SLookupDe + DIRENT_SIZE ≤ b → ¬ buf_byte kaddr b → ld8 (k_mem km') b = ld8 (k_mem km) b).
Proof.
  intros d nm Ht Hk Hdev Htype Hw Hsl Hnm. unfold dirlookup, iget_f. rewrite bind_gets. cbn [itable]. fold d.
  rewrite Htype. change (negb (T_DIR =? T_DIR)) with false. cbv iota.
  change 0 with (DIRENT_SIZE * 0) at 1. apply (dirlookup_loop_ok dp name n); try done. unfold dir_fuel.
  rewrite (dw_size _ _ _ Hw). fold d. rewrite Z.mul_comm, Z.div_mul by done. lia.
Qed.

Lemma dirlink_loop_ok dp n fuel : ∀ x it km C k j i,
  let d := i_d (it dp) in
  tx x [] C k → 0 ≤ k → i_dev (it dp) = d0 → dir_wf C d n → slot_ok (kaddr SLinkDe) →
  0 ≤ j → j + Z.of_nat i = Z.of_nat n → (i < fuel)%nat →
  ∃ x' km',
    dirlink_loop me pagetable kaddr fuel dp (DIRENT_SIZE * j) (mkFsys x sb it km) =
      Ok (DIRENT_SIZE * dir_free i (fbyte C d) j, mkFsys x' sb it km') ∧
    tx x' [] C k ∧
    (∀ b, b < kaddr SLinkDe ∨ kaddr SLinkDe + DIRENT_SIZE ≤ b → ¬ buf_byte kaddr b → ld8 (k_mem km') b = ld8 (k_mem km) b).
Proof.
  induction fuel as [|fuel IH]; intros x it km C k j i d Ht Hk Hdev Hw Hsl Hj Hn Hf; [lia|].
  cbn [dirlink_loop]. unfold iget_f. rewrite bind_gets. cbn [itable]. fold d.
  pose proof (dw_size _ _ _ Hw) as Es. pose proof (dw_max _ _ _ Hw) as Hm. change (MAXFILE * BSIZE) with 274432 in Hm. fold d in Es, Hm.
  rewrite Es. destruct i as [|i].
  { destruct (Z.ltb_spec (DIRENT_SIZE * j) (DIRENT_SIZE * Z.of_nat n)); [unfold DIRENT_SIZE in *; lia|]. by exists x, km. }
  destruct (Z.ltb_spec (DIRENT_SIZE * j) (DIRENT_SIZE * Z.of_nat n)); [|unfold DIRENT_SIZE in *; lia].
  destruct (read_entry dp x it km C k n (kaddr SLinkDe) j Ht Hk Hdev Hw Hsl ltac:(lia)) as (x1 & km1 & R1 & Ht1 & En & Ec & Hfr).
  rewrite (bind_ok _ _ _ _ _ R1). change (negb (DIRENT_SIZE =? DIRENT_SIZE)) with false. cbv iota.
  rewrite bind_read_mem, En. fold d. cbn [dir_free].
  destruct (Z.eqb_spec (dnum (fbyte C d) j) 0) as [Ez|Ez]; [by exists x1, km1|].
  destruct (IH x1 it km1 C k (j + 1) i Ht1 Hk Hdev Hw Hsl ltac:(lia) ltac:(lia) ltac:(lia)) as (x2 & km2 & R2 & Ht2 & Hfr2).
  exists x2, km2. split_and!; [|done|].
  - replace (i32 (DIRENT_SIZE * j + DIRENT_SIZE)) with (DIRENT_SIZE * (j + 1)); [exact R2|].
    unfold DIRENT_SIZE in *. rewrite i32_small; lia.
  - intros b Hb Hnb. rewrite Hfr2 by done. by apply Hfr.
Qed.

(** The [struct dirent] that [dirlink] writes. *)
Lemma new_entry m name inum (g : Z → Z) j :
  let a := kaddr SLinkDe in let m' := st16 (strncpy m (de_name a) name DIRSIZ) a inum in
  slot_ok a → name_ok name a → 0 ≤ inum < 65536 →
  (∀ i, 0 ≤ i < DIRENT_SIZE → g (DIRENT_SIZE * j + i) = ld8 m' (a + i)) →
  dnum g j = inum ∧ dname g j = cstr (Z.to_nat DIRSIZ) m name.
Proof.
  intros a m' Hs Hn Hi Hg. unfold DIRENT_SIZE in Hg. split.
  - unfold dnum, DIRENT_SIZE. rewrite Hg by lia. pose proof (Hg 0 ltac:(lia)) as E. rewrite !Z.add_0_r in E. rewrite E.
    transitivity (ld16 m' a); [unfold ld16; cbn [ldle]; lia|]. unfold m'. rewrite ld16_st16_eq. apply Z.mod_small. lia.
  - unfold dname. etransitivity; [symmetry; apply (cstr_fstr _ m' _ (de_name a))|].
    + intros i Hi'. change (Z.of_nat (Z.to_nat DIRSIZ)) with 14 in Hi'. unfold de_name, DIRENT_SIZE. rewrite <- !Z.add_assoc. symmetry. apply Hg. lia.
    + rewrite <- (cstr_strncpy (Z.to_nat DIRSIZ) m (de_name a) name).
      * apply cstr_ext. intros i Hi'. unfold m', de_name. unfold st16; by rewrite ld8_stle by lia.
      * unfold de_name. change (Z.of_nat (Z.to_nat DIRSIZ)) with 14. destruct (Hn 0 ltac:(by vm_compute)) as [_ H0].
        destruct (Hn 13 ltac:(by vm_compute)) as [_ H13]. unfold DIRENT_SIZE, DIRSIZ in *. lia.
Qed.

(** A 16-byte entry lies in one block. *)
Lemma nblk_entry j : nblk (DIRENT_SIZE * j) DIRENT_SIZE = 1.
Proof. unfold nblk, DIRENT_SIZE. change BSIZE with 1024. cbn [Z.leb Z.compare]. zdiv. Qed.

(** Writing the entry at [j], at or before the end of the table. *)
Lemma write_entry dp name inum n x it km C k j :
  let d := i_d (it dp) in let a := kaddr SLinkDe in
  let m' := st16 (strncpy (k_mem km) (de_name a) name DIRSIZ) a inum in
  tx x [] C k → meta_used sb C → inode_wf sb C d → dinode_ok d → i_dev (it dp) = d0 → inum_ok sb (i_inum (it dp)) →
  dir_wf C d n → di_size d + DIRENT_SIZE ≤ MAXFILE * BSIZE → slot_ok a → name_ok name a →
  0 ≤ inum < 65536 → 7 ≤ k → 0 ≤ j ≤ Z.of_nat n →
  ∃ t x' C' d' it' km',
    writei me pagetable kaddr dp false a (DIRENT_SIZE * j) DIRENT_SIZE (mkFsys x sb it (mkKmem m' (k_freelist km))) = Ok (t, mkFsys x' sb it' km') ∧
    tx x' [] C' (k - 7) ∧ itable_set dp d' it it' ∧ 0 ≤ t ≤ DIRENT_SIZE ∧
    (t < DIRENT_SIZE → ∀ b, 0 ≤ b < sb_size sb → used sb C' b = true) ∧
    (t = DIRENT_SIZE → dir_wf C' d' (Nat.max n (S (Z.to_nat j))) ∧
      dnum (fbyte C' d') j = inum ∧ dname (fbyte C' d') j = cstr (Z.to_nat DIRSIZ) (k_mem km) name ∧
      ∀ i, 0 ≤ i < Z.of_nat n → i ≠ j →
        dnum (fbyte C' d') i = dnum (fbyte C d) i ∧ dname (fbyte C' d') i = dname (fbyte C d) i).
Proof.
  intros d a m' Ht Hm Hw Hok Hdev Hi Hdw Hsz (Ha0 & Ha64 & Hab) Hnm Hin Hk Hj.
  pose proof (dw_size _ _ _ Hdw) as Es. fold d in Es. unfold DIRENT_SIZE in Es, Hsz, Ha64. change (MAXFILE * BSIZE) with 274432 in Hsz.
  destruct (writei_ok me d0 Hd0 sb Hsb ops pagetable kaddr (us := false) (env := kenv) (src_ok := ksrc kaddr) dp x it (mkKmem m' (k_freelist km)) C k
    a (DIRENT_SIZE * j) DIRENT_SIZE (λ i, ld8 m' (a + i)) Ht Hm Hw Hok Hdev Hi)
    as (t & x' & C' & d' & it' & km' & R & Htt & Hfull & Ht' & Hit & _ & Hwr & _).
  { done. }
  { split_and!; [done | done |]. intros i Hi'. split; [by apply Hab | done]. }
  { fold d. unfold DIRENT_SIZE. lia. }
  { done. }
  { unfold DIRENT_SIZE. change (MAXFILE * BSIZE) with 274432. lia. }
  { rewrite nblk_entry. lia. }
  rewrite nblk_entry in Ht'. replace (k - 6 * 1 - 1) with (k - 7) in Ht' by lia.
  exists t, x', C', d', it', km'. split_and!; [exact R | exact Ht' | exact Hit | lia | lia | exact Hfull |]. intros ->.
  pose proof (wr_size _ _ _ _ _ _ _ _ _ Hwr) as Es'. fold d in Es'. unfold DIRENT_SIZE in Es'.
  pose proof (wr_byte _ _ _ _ _ _ _ _ _ Hwr) as Hb. change (MAXFILE * BSIZE) with 274432 in Hb. fold d in Hb. unfold DIRENT_SIZE in Hb.
  assert (Hnew : dnum (fbyte C' d') j = inum ∧ dname (fbyte C' d') j = cstr (Z.to_nat DIRSIZ) (k_mem km) name).
  { apply new_entry; [split_and!; [done | done | exact Hab] | done | lia |]. unfold DIRENT_SIZE. intros i Hi'. rewrite Hb by lia.
    unfold bytes_set. rewrite decide_True by lia. fold a. f_equal. lia. }
  destruct Hnew as [E1 E2]. split_and!; [split | exact E1 | exact E2 |].
  - apply (wr_holes _ _ _ _ _ _ _ _ _ Hwr); [fold d; change (MAXFILE * BSIZE) with 274432; lia | fold d; unfold DIRENT_SIZE; lia | apply Hdw].
  - unfold DIRENT_SIZE. lia.
  - change (MAXFILE * BSIZE) with 274432. lia.
  - intros i Hi' Hne. apply entry_ext. unfold DIRENT_SIZE. intros o Ho. rewrite Hb by lia. unfold bytes_set. by rewrite decide_False by lia.
Qed.

(** Directory lookup.  On a well-formed directory, [dirlookup] finds the first live
    entry whose name agrees with [name] on [DIRSIZ] characters: it then returns the inode
    [iget] gives for its number, and the entry's byte offset; when there is none it returns
    0.  The disk's contents and all memory but the local entry and the buffers are as before.
    On anything but a directory it panics. *)
Theorem dirlookup_spec dp name n x it km C k :
  let d := i_d (it dp) in let nm := cstr (Z.to_nat DIRSIZ) (k_mem km) name in
  tx x [] C k → 0 ≤ k → i_dev (it dp) = d0 → dir_wf C d n →
  slot_ok (kaddr SLookupDe) → name_ok name (kaddr SLookupDe) →
  if negb (di_type d =? T_DIR) then
    dirlookup me pagetable kaddr dp name (mkFsys x sb it km) = Panic "dirlookup not DIR"
  else ∃ x' km',
    dirlookup me pagetable kaddr dp name (mkFsys x sb it km) =
      match dir_find n (fbyte C d) 0 nm with
      | None => Ok (None, mkFsys x' sb it km')
      | Some (j, inum) => (ip ← iget d0 inum; mret (Some (ip, DIRENT_SIZE * j))) (mkFsys x' sb it km')
      end ∧
    tx x' [] C k ∧
    (∀ b, b < kaddr SLookupDe ∨ kaddr SLookupDe + DIRENT_SIZE ≤ b → ¬ buf_byte kaddr b → ld8 (k_mem km') b = ld8 (k_mem km) b).
Proof.
  intros d nm Ht Hk Hdev Hw Hsl Hnm. destruct (Z.eqb_spec (di_type d) T_DIR) as [E|E]; cbn [negb].
  - by apply dirlookup_ok.
  - unfold dirlookup, iget_f. rewrite bind_gets. cbn [itable]. fold d. by destruct (Z.eqb_spec (di_type d) T_DIR).
Qed.

(** C8. Directory insertion.  When [name] is in the directory, [dirlink] changes nothing on
    disk, drops the reference [dirlookup] took and returns -1.  Otherwise it returns -1
    only when every block is in use; else 0, and the directory is again well-formed and is
    the old one plus the new name: a lookup of [name] finds the new number, in the first
    free entry, and a lookup of any other name finds what it found before. *)
Theorem dirlink_spec dp name inum n x it km C k :
  let d := i_d (it dp) in let nm := cstr (Z.to_nat DIRSIZ) (k_mem km) name in
  tx x [] C k → meta_used sb C → inode_wf sb C d → dinode_ok d → i_dev (it dp) = d0 → inum_ok sb (i_inum (it dp)) →
  di_type d = T_DIR → dir_wf C d n → di_size d + DIRENT_SIZE ≤ MAXFILE * BSIZE →
  slot_ok (kaddr SLookupDe) → name_ok name (kaddr SLookupDe) → slot_ok (kaddr SLinkDe) → name_ok name (kaddr SLinkDe) →
  0 < inum < 65536 → 7 ≤ k →
  match dir_find n (fbyte C d) 0 nm with
  | Some (_, i) => ∃ x' km',
      dirlink me pagetable kaddr dp name inum (mkFsys x sb it km) = (ip ← iget d0 i; iput me ip;; mret err) (mkFsys x' sb it km') ∧
      tx x' [] C k
  | None => ∃ r x' C' d' it' km',
      dirlink me pagetable kaddr dp name inum (mkFsys x sb it km) = Ok (r, mkFsys x' sb it' km') ∧
      tx x' [] C' (k - 7) ∧ itable_set dp d' it it' ∧
      (r = err ∧ (∀ b, 0 ≤ b < sb_size sb → used sb C' b = true) ∨
       r = 0 ∧ ∃ n', dir_wf C' d' n' ∧ ∀ nm', dir_find n' (fbyte C' d') 0 nm' =
         if decide (nm' = nm) then Some (dir_free n (fbyte C d) 0, inum) else dir_find n (fbyte C d) 0 nm')
  end.
Proof.
  intros d nm Ht Hm Hw Hok Hdev Hi Htype Hdw Hsz Hs1 Hn1 Hs2 Hn2 Hin Hk.
  destruct (dirlookup_ok dp name n x it km C k Ht ltac:(lia) Hdev Htype Hdw Hs1 Hn1) as (x1 & km1 & R1 & Ht1 & Hfr1).
  fold d nm in R1. unfold dirlink. destruct (dir_find n (fbyte C d) 0 nm) as [[j i]|] eqn:Efind.
  { exists x1, km1. split; [|done]. unfold mbind at 1, M_bind at 1. rewrite R1. unfold mbind, M_bind. by destruct (iget d0 i _) as [[] | | |]. }
  rewrite (bind_ok _ _ _ _ _ R1). cbv iota. unfold iget_f. rewrite bind_gets. cbn [itable]. fold d.
  destruct (dirlink_loop_ok dp n (dir_fuel (di_size d)) x1 it km1 C k 0 n Ht1 ltac:(lia) Hdev Hdw Hs2) as (x2 & km2 & R2 & Ht2 & Hfr2); [lia | lia | |].
  { unfold dir_fuel. rewrite (dw_size _ _ _ Hdw). fold d. rewrite Z.mul_comm, Z.div_mul by done. lia. }
  fold d in R2. rewrite Z.mul_0_r in R2. rewrite (bind_ok _ _ _ _ _ R2).
  rewrite (bind_ok _ _ _ _ _ (write_mem_run sb _ _ _ _)), (bind_ok _ _ _ _ _ (write_mem_run sb _ _ _ _)). cbn [k_mem k_freelist].
  destruct (dir_free_spec n (fbyte C d) 0) as [Hj Hfree]. set (j := dir_free n (fbyte C d) 0) in *.
  destruct (write_entry dp name inum n x2 it km2 C k j Ht2 Hm Hw Hok Hdev Hi Hdw Hsz Hs2 Hn2 ltac:(lia) Hk ltac:(lia))
    as (t & x3 & C3 & d3 & it3 & km3 & R3 & Ht3 & Hit3 & Htt & Hfull & Hdone).
  rewrite (bind_ok _ _ _ _ _ R3). exists (if negb (t =? DIRENT_SIZE) then err else 0), x3, C3, d3, it3, km3.
  split_and!; [done | exact Ht3 | exact Hit3 |]. destruct (Z.eqb_spec t DIRENT_SIZE) as [->|Hne]; cbn [negb].
  - right. split; [done|]. destruct (Hdone eq_refl) as (Hw' & E1 & E2 & Hoth). exists (Nat.max n (S (Z.to_nat j))).
    split; [done|]. apply dir_find_insert; [lia | lia | lia | done | | done | done]. rewrite E2.
    transitivity (cstr (Z.to_nat DIRSIZ) (k_mem km1) name); apply cstr_ext; intros b Hb;
      change (Z.of_nat (Z.to_nat DIRSIZ)) with DIRSIZ in Hb; [destruct (Hn2 b Hb); by apply Hfr2 | destruct (Hn1 b Hb); by apply Hfr1].
  - left. split; [done|]. apply Hfull. lia.
Qed.

End dir.

(** ** The inode table *)

(** At most one entry in use per inode. *)
Record inodes_ok (t : nat → inode) : Prop := {
  io_ref ip : (ip < Z.to_nat NINODE)%nat → 0 ≤ i_ref (t ip);
  io_uniq ip jp : (ip < Z.to_nat NINODE)%nat → (jp < Z.to_nat NINODE)%nat → 0 < i_ref (t ip) → 0 < i_ref (t jp) →
    i_dev (t ip) = i_dev (t jp) → i_inum (t ip) = i_inum (t jp) → ip = jp;
}.

(** Entry [ip] is in use for inode [inum] of [dev]. *)
Definition entry_for (t : nat → inode) (dev inum : Z) (ip : nat) : bool :=
  (0 <? i_ref (t ip)) && (i_dev (t ip) =? dev) && (i_inum (t ip) =? inum).

Lemma iget_loop_spec dev inum t k : ∀ ip empty,
  match iget_loop k ip empty dev inum t with
  | inl i => (ip ≤ i < ip + k)%nat ∧ entry_for t dev inum i = true
  | inr e =>
      (∀ i, (ip ≤ i < ip + k)%nat → entry_for t dev inum i = false) ∧
      match e with
      | Some i => empty = Some i ∨ empty = None ∧ (ip ≤ i < ip + k)%nat ∧ i_ref (t i) = 0
      | None => empty = None ∧ ∀ i, (ip ≤ i < ip + k)%nat → i_ref (t i) ≠ 0
      end
  end.
Proof.
  induction k as [|k IH]; intros ip empty; cbn [iget_loop].
  { split; [lia|]. destruct empty; [by left | split; [done | lia]]. }
  fold (entry_for t dev inum ip). destruct (entry_for t dev inum ip) eqn:E; [split; [lia | done]|].
  specialize (IH (S ip) (match empty with Some e => Some e | None => if i_ref (t ip) =? 0 then Some ip else None end)).
  destruct (iget_loop k (S ip) _ dev inum t) as [i|e].
  { split; [lia | apply IH]. }
  destruct IH as [H1 H2]. split.
  { intros i Hi. destruct (decide (i = ip)) as [->|]; [done | apply H1; lia]. }
  destruct empty as [e0|].
  { destruct e as [e|]; [|by destruct H2]. destruct H2 as [?|[? _]]; [by left | done]. }
  destruct (Z.eqb_spec (i_ref (t ip)) 0) as [E0|E0], e as [e|].
  - destruct H2 as [[= <-]|[? _]]; [|done]. right. split_and!; [done | lia | lia | done].
  - by destruct H2.
  - destruct H2 as [?|(_ & ? & ?)]; [done|]. right. split_and!; [done | lia | lia | done].
  - split; [done|]. intros i Hi. destruct (decide (i = ip)) as [->|]; [done | apply H2; lia].
Qed.

(** In-memory inodes.  [iget] returns the one entry of the table that is in use for
    inode [inum] of [dev], with one more reference; if there is none, a free entry,
    initialised and not yet read from disk; it panics exactly when there is neither.
    No other entry changes, and no inode ever has two entries in use. *)
Theorem iget_spec dev inum s :
  inodes_ok (itable s) → (∀ ip, i_ref (itable s ip) < 2 ^ 31 - 1) →
  match iget dev inum s with
  | Ok (ip, s') =>
      (ip < Z.to_nat NINODE)%nat ∧ inodes_ok (itable s') ∧
      itable s' ip = (if entry_for (itable s) dev inum ip then set_ref (i_ref (itable s ip) + 1) (itable s ip)
                      else mkInode dev inum 1 (i_lock (itable s ip)) false (i_d (itable s ip))) ∧
      (entry_for (itable s) dev inum ip = false → i_ref (itable s ip) = 0) ∧
      (∀ jp, jp ≠ ip → itable s' jp = itable s jp) ∧
      (∀ jp, (jp < Z.to_nat NINODE)%nat → entry_for (itable s') dev inum jp = true → jp = ip)
  | Panic _ => ∀ ip, (ip < Z.to_nat NINODE)%nat → entry_for (itable s) dev inum ip = false ∧ i_ref (itable s ip) ≠ 0
  | _ => False
  end.
Proof.
  intros Ho Hmax. unfold iget. rewrite bind_gets.
  pose proof (iget_loop_spec dev inum (itable s) (Z.to_nat NINODE) 0 None) as H.
  assert (Huniq : ∀ t ip, inodes_ok t → (ip < Z.to_nat NINODE)%nat → entry_for t dev inum ip = true →
    ∀ jp, (jp < Z.to_nat NINODE)%nat → entry_for t dev inum jp = true → jp = ip).
  { intros t ip [_ Hu] Hi E jp Hj E'. unfold entry_for in E, E'. apply Hu; (done || lia). }
  destruct (iget_loop _ _ _ _ _ _) as [ip|[ip|]].
  - destruct H as [Hip He]. pose proof (io_ref _ Ho ip ltac:(lia)). specialize (Hmax ip). unfold iupd. rewrite bind_modify. unfold mret, M_ret. cbn [itable].
    rewrite fn_lookup_insert, He, i32_small by lia. set (t' := <[ip:=_]> _).
    assert (Hk : ∀ j, i_dev (t' j) = i_dev (itable s j) ∧ i_inum (t' j) = i_inum (itable s j) ∧ (0 < i_ref (t' j) → 0 < i_ref (itable s j)) ∧ (0 ≤ i_ref (itable s j) → 0 ≤ i_ref (t' j))).
    { intros j. subst t'. destruct (decide (j = ip)) as [->|]; [rewrite fn_lookup_insert | by rewrite fn_lookup_insert_ne].
      cbn. unfold entry_for in He. split_and!; (done || lia). }
    assert (Ho' : inodes_ok t').
    { split; [intros j Hj; apply Hk; by apply Ho|]. intros i j Hi Hj. destruct (Hk i) as (-> & -> & Hi' & _), (Hk j) as (-> & -> & Hj' & _).
      intros ? ?. apply Ho; auto. }
    split_and!; [lia | done | done | done | intros j Hj; subst t'; by rewrite fn_lookup_insert_ne |].
    apply Huniq; [done | lia |]. subst t'. unfold entry_for in *. rewrite fn_lookup_insert. cbn. lia.
  - destruct H as [Hno [?|(_ & Hip & Hz)]]; [done|]. unfold iupd. rewrite bind_modify. unfold mret, M_ret. cbn [itable]. rewrite fn_lookup_insert.
    rewrite Hno by lia. set (t' := <[ip:=_]> _).
    assert (Hj : ∀ j, j ≠ ip → t' j = itable s j) by (intros j ?; subst t'; by rewrite fn_lookup_insert_ne).
    assert (Ei : t' ip = mkInode dev inum 1 (i_lock (itable s ip)) false (i_d (itable s ip))) by (subst t'; by rewrite fn_lookup_insert).
    assert (Hne : ∀ j, (j < Z.to_nat NINODE)%nat → j ≠ ip → 0 < i_ref (t' j) → dev = i_dev (t' j) → inum = i_inum (t' j) → False).
    { intros j Hj' Hne. rewrite Hj by done. specialize (Hno j ltac:(lia)). unfold entry_for in Hno. lia. }
    assert (Ho' : inodes_ok t').
    { split; [intros j Hj'; destruct (decide (j = ip)) as [->|]; [by rewrite Ei | rewrite Hj by done; by apply Ho]|].
      intros i j Hi Hj' Hri Hrj Ed En. destruct (decide (i = ip)) as [->|], (decide (j = ip)) as [->|]; [done | exfalso.. |].
      - rewrite Ei in Ed, En. by apply (Hne j).
      - rewrite Ei in Ed, En. by apply (Hne i).
      - rewrite !Hj in * by done. by apply Ho. }
    split_and!; [lia | done | done | done | done |].
    apply Huniq; [done | lia |]. unfold entry_for. rewrite Ei. cbn. lia.
  - destruct H as (Hno & _ & Hnz). intros ip Hip. split; [apply Hno; lia | apply Hnz; lia].
Qed.

(** ** A first entry *)

(** Inode 2 as an empty directory, and the name at 3 MiB. *)
Definition ex_dir : dinode := mkDinode T_DIR 0 0 1 0 (replicate 13 0).
Definition ex_dir_it (ip : nat) : inode := mkInode ROOTDEV 2 1 (Some 1) true ex_dir.

Lemma ex_dir_wf : dir_wf ex_C ex_dir 0.
Proof. split; [|done | by vm_compute]. intros bn Hbn Hs. change (bn * 1024 < 0) in Hs. lia. Qed.

Lemma ex_slot_ok : slot_ok ex_kaddr 2097152.
Proof. split_and!; [lia | by vm_compute |]. intros i Hi. apply ex_not_buf. lia. Qed.

Lemma ex_name_ok : name_ok ex_kaddr 3145728 2097152.
Proof. intros i Hi. unfold DIRENT_SIZE. split; [apply ex_not_buf|]; lia. Qed.

Lemma dirlookup_spec_witness :
  ∃ x s', dirlookup 1 0 ex_kaddr 0 3145728 (mkFsys x mkfs_sb ex_dir_it (mkKmem ex_mem 0)) = Ok (None, s').
Proof.
  destruct (boot_tx (λ _, ex_C)) as [x Ht].
  pose proof (dirlookup_spec 1 ROOTDEV ltac:(done) mkfs_sb 1 0 ex_kaddr 0%nat 3145728 0%nat x ex_dir_it (mkKmem ex_mem 0) ex_C 28
    Ht ltac:(lia) ltac:(done) ex_dir_wf ex_slot_ok ex_name_ok) as H.
  destruct H as (x' & km' & R & _). by exists x, (mkFsys x' mkfs_sb ex_dir_it km').
Defined.

(** The directory has a free block to grow into, so the name is entered. *)
Lemma dirlink_spec_witness :
  ∃ x r s', dirlink 1 0 ex_kaddr 0 3145728 7 (mkFsys x mkfs_sb ex_dir_it (mkKmem ex_mem 0)) = Ok (r, s').
Proof.
  destruct (boot_tx (λ _, ex_C)) as [x Ht].
  pose proof (dirlink_spec 1 ROOTDEV ltac:(done) mkfs_sb mkfs_sb_wf 1 0 ex_kaddr 0%nat 3145728 7 0%nat x ex_dir_it (mkKmem ex_mem 0) ex_C 28
    Ht ex_meta_used) as H.
  destruct H as (r & x' & C' & d' & it' & km' & R & _).
  { by apply empty_wf. }
  { split; cbn [di_type di_major di_minor di_nlink di_size di_addrs i_d ex_dir_it ex_dir]; [unfold T_DIR; lia | lia.. | done | apply Forall_replicate; lia]. }
  { done. }
  { split; by vm_compute. }
  { done. }
  { exact ex_dir_wf. }
  { by vm_compute. }
  { exact ex_slot_ok. }
  { exact ex_name_ok. }
  { exact ex_slot_ok. }
  { exact ex_name_ok. }
  { lia. }
  { lia. }
  by exists x, r, (mkFsys x' mkfs_sb it' km').
Defined.

(** A table with no inode in use. *)
Lemma iget_spec_witness :
  let s x := mkFsys x mkfs_sb (λ _, mkInode 0 0 0 None false ex_dir) (mkKmem ∅ 0) in
  ∃ x s', iget ROOTDEV 2 (s x) = Ok (0%nat, s') ∧ i_ref (itable s' 0%nat) = 1.
Proof.
  intros s. destruct (boot_tx (λ _, ex_C)) as [x _]. exists x.
  pose proof (iget_spec ROOTDEV 2 (s x)) as H.
  destruct (iget ROOTDEV 2 (s x)) as [[ip s'] | | |] eqn:E.
  - assert (ip = 0%nat) as -> by (vm_compute in E; congruence). exists s'. split; [done|].
    destruct H as (_ & _ & -> & _); [split; [done | intros ip jp _ _ Hr; by vm_compute in Hr] | done | done].
  - exfalso. vm_compute in E. congruence.
  - exfalso. vm_compute in E. congruence.
  - exfalso. vm_compute in E. congruence.
Defined.
