(* ===== verification/FsNamei.v ===== *)
(** * FsNamei: path resolution (iget, ilock, iunlock, iput, namex of src/kernel/fs.c)

    What a path names, as a function of the contents of the disk alone, and that [namei]
    and [nameiparent] compute it through the inode cache: every directory on the way is
    referenced, locked, searched, unlocked and dropped again, and only the inode found
    keeps the reference of the caller. *)

From stdpp Require Import functions.
From S2P Require Import Prelude Mem Layout FsFormat Bio BioPool Log LogCrash Kalloc Vm VmTable VmUser VmCopy.
From S2P Require Import Fs FsTx FsBlocks FsInode FsMap FsCopy FsFile FsSpec FsPath FsDir.
Import CString.

Local Open Scope Z_scope.

(** ** The tree on disk *)

Section tree.
  Context (sb : superblock) (C : Z → block).

(** Number of entries of a directory. *)
Definition dir_len (d : dinode) : nat := Z.to_nat (di_size d / DIRENT_SIZE).

(** The entry [e] of directory [inum]; names count up to DIRSIZ characters. *)
Definition child (inum : Z) (e : list Z) : option Z :=
  let d := dino sb C inum in
  if di_type d =? T_DIR then snd <$> dir_find (dir_len d) (fbyte C d) 0 (take (Z.to_nat DIRSIZ) e) else None.

(** The inode that the components name, from [inum] on. *)
Fixpoint resolve (inum : Z) (es : list (list Z)) : option Z :=
  match es with
  | [] => Some inum
  | e :: es' => child inum e ≫= λ i, resolve i es'
  end.

(** The directory that holds the last component. *)
Definition resolve_parent (inum : Z) (es : list (list Z)) : option Z :=
  match es with
  | [] => None
  | _ => resolve inum (removelast es) ≫= λ p, if di_type (dino sb C p) =? T_DIR then Some p else None
  end.

Lemma resolve_parent_cons i e e' es :
  resolve_parent i (e :: e' :: es) = child i e ≫= λ j, resolve_parent j (e' :: es).
Proof. unfold resolve_parent. change (removelast (e :: e' :: es)) with (e :: removelast (e' :: es)). cbn [resolve]. by destruct (child i e). Qed.

(** The inodes in [I] are a tree of directories and files, or a part of one that every
    entry of its directories stays in. *)
Record tree_ok (I : Z → Prop) : Prop := {
  tr_type i : I i → di_type (dino sb C i) ≠ 0;
  tr_linked i : I i → di_nlink (dino sb C i) ≠ 0;
  tr_dir i : I i → di_type (dino sb C i) = T_DIR → dir_wf C (dino sb C i) (dir_len (dino sb C i));
  tr_closed i j : I i → di_type (dino sb C i) = T_DIR → 0 ≤ j < Z.of_nat (dir_len (dino sb C i)) →
    dnum (fbyte C (dino sb C i)) j ≠ 0 → I (dnum (fbyte C (dino sb C i)) j);
}.

Lemma child_in I i e j : tree_ok I → I i → child i e = Some j → I j.
Proof.
  intros Ht Hi. unfold child. destruct (Z.eqb_spec (di_type (dino sb C i)) T_DIR) as [E|]; [|done].
  pose proof (dir_find_spec (dir_len (dino sb C i)) (fbyte C (dino sb C i)) (take (Z.to_nat DIRSIZ) e) 0) as H.
  destruct (dir_find _ _ _ _) as [[o n]|]; [|done]. intros [= <-]. destruct H as (Ho & -> & Hn & _).
  eapply tr_closed; eauto.
Qed.

Lemma resolve_in I : tree_ok I → ∀ es i j, I i → resolve i es = Some j → I j.
Proof.
  intros Ht. induction es as [|e es IH]; intros i j Hi; cbn; [by intros [= <-]|].
  destruct (child i e) as [i'|] eqn:E; [|done]. cbn. apply IH. by apply (child_in I i e).
Qed.
End tree.

(** ** Components *)

Lemma components_Forall (P : Z → Prop) s : ∀ cur, Forall P cur → Forall P s → Forall (Forall P) (components cur s).
Proof.
  induction s as [|c s IH]; intros cur Hc Hs; cbn.
  - destruct cur; [done|]. constructor; [by apply Forall_rev | done].
  - apply Forall_cons in Hs as [H1 H2]. destruct (_ =? _); [|apply IH; [by constructor | done]].
    destruct cur; [by apply IH|]. constructor; [by apply Forall_rev | by apply IH].
Qed.

Lemma length_components s : ∀ cur, (length (components cur s) ≤ length s + (match cur with [] => 0 | _ => 1 end))%nat.
Proof.
  induction s as [|c s IH]; intros cur; cbn.
  - destruct cur; cbn; lia.
  - destruct (_ =? _); [|specialize (IH (c :: cur)); cbn in IH; destruct cur; lia].
    specialize (IH []). cbn in IH. destruct cur; cbn; lia.
Qed.

Lemma str_at_nonzero m p s : str_at m p s → Forall (.≠ 0) s.
Proof. intros [H _]. apply Forall_lookup. intros i c Hi. by apply (H i). Qed.

Lemma str_at_end m p s : str_at m p s → (ld8 m p =? 0) = bool_decide (s = []).
Proof.
  intros Hs. destruct s as [|c s]; [by rewrite (str_at_nil _ _ Hs)|]. apply str_at_cons in Hs as (-> & Hc & _).
  rewrite bool_decide_false by done. lia.
Qed.

(** A component in the name buffer is the name searched for. *)
Lemma name_at_cstr n : ∀ m name e,
  Forall (.≠ 0) e →
  (∀ i c, e !! i = Some c → (i < n)%nat → ld8 m (name + Z.of_nat i) = c) →
  ((length e < n)%nat → ld8 m (name + Z.of_nat (length e)) = 0) →
  cstr n m name = take n e.
Proof.
  induction n as [|n IH]; intros m name e Hnz Hc Hend; cbn [cstr]; [done|].
  destruct e as [|c e]; cbn [take].
  - rewrite Z.add_0_r in Hend. by rewrite Hend by (cbn; lia).
  - pose proof (Hc 0%nat c eq_refl ltac:(lia)) as H0. rewrite Z.add_0_r in H0. rewrite H0.
    apply Forall_cons in Hnz as [Hc0 Hnz]. destruct (Z.eqb_spec c 0); [done|]. f_equal. apply IH; [done | |].
    + intros i c' Hi Hlt. rewrite <- (Hc (S i) c' Hi ltac:(lia)). f_equal. lia.
    + intros Hlt. rewrite <- Hend by (cbn; lia). f_equal. cbn [length]. lia.
Qed.

(** ** The inode cache *)

(** References to entry [jp] among those in [l]. *)
Definition nrefs (jp : nat) (l : list nat) : Z := Z.of_nat (length (filter (jp =.) l)).

Lemma nrefs_nil jp : nrefs jp [] = 0.
Proof. done. Qed.

Lemma nrefs_cons jp ip l : nrefs jp (ip :: l) = nrefs jp l + (if decide (jp = ip) then 1 else 0).
Proof. unfold nrefs. rewrite filter_cons. destruct (decide _); cbn [length]; lia. Qed.

Lemma nrefs_range jp l : 0 ≤ nrefs jp l ≤ Z.of_nat (length l).
Proof. unfold nrefs. pose proof (length_filter (jp =.) l). lia. Qed.


Lemma ROOTDEV_nz : ROOTDEV ≠ 0.
Proof. done. Qed.

Section cache.
  Context {K : KernelImage} {KOk : KernelImageOk K}.
  Context (me : Z) (sb : superblock) (ops : Z) (pagetable : Z) (cwd : nat) (kaddr : slot → Z).
  Context (C : Z → block) (I : Z → Prop) (HI : tree_ok sb C I).
  Abbreviation tx := (tx me ROOTDEV (sb_logstart sb) (sb_nlog sb) ops).

(** The table [t] that has come of [t0] by taking the references [l] and the lock of [o]:
    one entry per inode, the entries of [t0] in use still there, and the cached copies
    those of the disk. *)
Record cache_ok (t0 t : nat → inode) (l : list nat) (o : option nat) : Prop := {
  co_inodes : inodes_ok t;
  co_ref jp : i_ref (t jp) = i_ref (t0 jp) + nrefs jp l;
  co_same jp : 0 < i_ref (t0 jp) → i_dev (t jp) = i_dev (t0 jp) ∧ i_inum (t jp) = i_inum (t0 jp);
  co_cached jp : 0 < i_ref (t jp) → i_dev (t jp) = ROOTDEV → i_valid (t jp) = true → i_d (t jp) = dino sb C (i_inum (t jp));
  co_lock jp : i_lock (t jp) = if decide (o = Some jp) then Some me else None;
}.

(** Two entries are free, and no reference count is near its maximum. *)
Record room (t0 : nat → inode) : Prop := {
  ro_free : ∃ e e', e ≠ e' ∧ (e < Z.to_nat NINODE)%nat ∧ (e' < Z.to_nat NINODE)%nat ∧ i_ref (t0 e) = 0 ∧ i_ref (t0 e') = 0;
  ro_max jp : 0 ≤ i_ref (t0 jp) < 2 ^ 31 - 3;
}.

(** Entry [ip] is held for inode [inum]. *)
Definition at_inode (t : nat → inode) (ip : nat) (inum : Z) : Prop :=
  (ip < Z.to_nat NINODE)%nat ∧ i_dev (t ip) = ROOTDEV ∧ i_inum (t ip) = inum.

(** Changes to one entry that keep its identity and give the other fields their due values. *)
Lemma cache_upd t0 t l o l' o' ip f :
  cache_ok t0 t l o →
  i_dev (f (t ip)) = i_dev (t ip) → i_inum (f (t ip)) = i_inum (t ip) →
  i_ref (f (t ip)) = i_ref (t0 ip) + nrefs ip l' → 0 ≤ i_ref (f (t ip)) → (0 < i_ref (f (t ip)) → 0 < i_ref (t ip)) →
  (∀ jp, jp ≠ ip → nrefs jp l' = nrefs jp l) →
  (0 < i_ref (f (t ip)) → i_dev (t ip) = ROOTDEV → i_valid (f (t ip)) = true → i_d (f (t ip)) = dino sb C (i_inum (t ip))) →
  (∀ jp, jp ≠ ip → (o' = Some jp ↔ o = Some jp)) → i_lock (f (t ip)) = (if decide (o' = Some ip) then Some me else None) →
  cache_ok t0 (<[ip := f (t ip)]> t) l' o'.
Proof.
  intros [H1 H2 H3 H4 H5] Ed En Er Hr0 Hr Hl Hc Ho Hlk. set (t' := <[ip := _]> t).
  assert (Ei : t' ip = f (t ip)) by apply fn_lookup_insert.
  assert (Ej : ∀ jp, jp ≠ ip → t' jp = t jp) by (intros jp ?; by apply fn_lookup_insert_ne).
  assert (Hid : ∀ jp, i_dev (t' jp) = i_dev (t jp) ∧ i_inum (t' jp) = i_inum (t jp) ∧ (0 < i_ref (t' jp) → 0 < i_ref (t jp))).
  { intros jp. destruct (decide (jp = ip)) as [->|]; [by rewrite Ei | by rewrite Ej]. }
  split.
  - split.
    + intros jp Hjp. destruct (decide (jp = ip)) as [->|]; [by rewrite Ei | rewrite Ej by done; by apply H1].
    + intros a b Ha Hb. destruct (Hid a) as (-> & -> & Hra), (Hid b) as (-> & -> & Hrb). intros ? ?. apply H1; auto.
  - intros jp. destruct (decide (jp = ip)) as [->|]; [by rewrite Ei | by rewrite Ej, H2, Hl].
  - intros jp. destruct (Hid jp) as (-> & -> & _). apply H3.
  - intros jp. destruct (decide (jp = ip)) as [->|]; [|rewrite Ej by done; apply H4]. by rewrite Ei, Ed, En.
  - intros jp. destruct (decide (jp = ip)) as [->|Hne]; [by rewrite Ei | rewrite Ej, H5 by done].
    specialize (Ho jp Hne). by destruct (decide (o = Some jp)), (decide (o' = Some jp)); tauto.
Qed.

(** A free entry taken for an inode that has none. *)
Lemma cache_new t0 t l o ip inum :
  cache_ok t0 t l o → (∀ jp, 0 ≤ i_ref (t0 jp)) → (ip < Z.to_nat NINODE)%nat → i_ref (t ip) = 0 →
  (∀ jp, (jp < Z.to_nat NINODE)%nat → entry_for t ROOTDEV inum jp = false) →
  cache_ok t0 (<[ip := mkInode ROOTDEV inum 1 (i_lock (t ip)) false (i_d (t ip))]> t) (ip :: l) o.
Proof.
  intros [H1 H2 H3 H4 H5] H0 Hip Hz Hno. set (t' := <[ip := _]> t).
  assert (Ei : t' ip = mkInode ROOTDEV inum 1 (i_lock (t ip)) false (i_d (t ip))) by apply fn_lookup_insert.
  assert (Ej : ∀ jp, jp ≠ ip → t' jp = t jp) by (intros jp ?; by apply fn_lookup_insert_ne).
  assert (Hne : ∀ jp, (jp < Z.to_nat NINODE)%nat → jp ≠ ip → 0 < i_ref (t' jp) → ROOTDEV = i_dev (t' jp) → inum = i_inum (t' jp) → False).
  { intros jp Hjp Hn. rewrite Ej by done. specialize (Hno jp Hjp). unfold entry_for in Hno. lia. }
  split.
  - split.
    + intros jp Hjp. destruct (decide (jp = ip)) as [->|]; [by rewrite Ei | rewrite Ej by done; by apply H1].
    + intros i j Hi Hj Hri Hrj Ed En. destruct (decide (i = ip)) as [->|], (decide (j = ip)) as [->|]; [done | exfalso.. |].
      * rewrite Ei in Ed, En. by apply (Hne j).
      * rewrite Ei in Ed, En. by apply (Hne i).
      * rewrite !Ej in * by done. by apply H1.
  - intros jp. rewrite nrefs_cons. pose proof (nrefs_range ip l). destruct (decide (jp = ip)) as [->|]; [rewrite Ei | rewrite Ej, H2 by done; lia].
    specialize (H2 ip). specialize (H0 ip). cbn. lia.
  - intros jp Hjp. destruct (decide (jp = ip)) as [->|]; [|rewrite Ej by done; by apply H3].
    specialize (H2 ip). pose proof (nrefs_range ip l). lia.
  - intros jp. destruct (decide (jp = ip)) as [->|]; [by rewrite Ei | rewrite Ej by done; apply H4].
  - intros jp. destruct (decide (jp = ip)) as [->|]; [rewrite Ei; apply H5 | by rewrite Ej].
Qed.

Lemma iget_ok t0 t l o x km inum :
  cache_ok t0 t l o → room t0 → (length l ≤ 1)%nat →
  ∃ ip t', iget ROOTDEV inum (mkFsys x sb t km) = Ok (ip, mkFsys x sb t' km) ∧
    cache_ok t0 t' (ip :: l) o ∧ at_inode t' ip inum ∧
    (∀ jp, 0 < i_ref (t jp) → i_dev (t' jp) = i_dev (t jp) ∧ i_inum (t' jp) = i_inum (t jp) ∧
       i_valid (t' jp) = i_valid (t jp) ∧ i_d (t' jp) = i_d (t jp)).
Proof.
  intros Hc [(e & e' & Hee & He & He' & Ee & Ee') Hmax] Hl.
  assert (Hr : ∀ jp, 0 ≤ i_ref (t jp) < 2 ^ 31 - 2).
  { intros jp. rewrite (co_ref _ _ _ _ Hc). pose proof (nrefs_range jp l). specialize (Hmax jp). lia. }
  unfold iget. rewrite bind_gets. cbn [itable].
  pose proof (iget_loop_spec ROOTDEV inum t (Z.to_nat NINODE) 0 None) as H.
  destruct (iget_loop _ _ _ _ _ _) as [ip|[ip|]]; [| |exfalso].
  - destruct H as [Hip Hen]. unfold entry_for in Hen. unfold iupd. rewrite bind_modify. cbn [itable fs_ls fs_sb fs_km].
    specialize (Hr ip). exists ip. eexists. split; [done|]. rewrite i32_small by lia. split_and!; [|split_and!|].
    + apply (cache_upd t0 t l o _ _ ip (set_ref (i_ref (t ip) + 1))); [done | done | done | | cbn; lia | cbn; lia | | | done | apply Hc].
      * cbn. rewrite (co_ref _ _ _ _ Hc), nrefs_cons, decide_True by done. lia.
      * intros jp Hjp. rewrite nrefs_cons, decide_False by done. lia.
      * cbn. intros _. apply Hc. lia.
    + lia.
    + rewrite fn_lookup_insert. cbn. lia.
    + rewrite fn_lookup_insert. cbn. lia.
    + intros jp _. destruct (decide (jp = ip)) as [->|]; [by rewrite fn_lookup_insert | by rewrite fn_lookup_insert_ne].
  - destruct H as [Hno [?|(_ & Hip & Hz)]]; [done|]. unfold iupd. rewrite bind_modify. cbn [itable fs_ls fs_sb fs_km].
    exists ip. eexists. split; [done|]. split_and!; [|split_and!|].
    + apply cache_new; [done | intros jp; specialize (Hmax jp); lia | lia | done |]. intros jp Hjp. apply Hno. lia.
    + lia.
    + by rewrite fn_lookup_insert.
    + by rewrite fn_lookup_insert.
    + intros jp Hjp. rewrite fn_lookup_insert_ne by (intros ->; lia). done.
  - destruct H as (_ & _ & Hnz). pose proof (Hnz e ltac:(lia)) as H. pose proof (Hnz e' ltac:(lia)) as H'.
    rewrite (co_ref _ _ _ _ Hc) in H, H'. destruct l as [|a [|]]; [| |cbn in Hl; lia]; rewrite ?nrefs_cons, ?nrefs_nil in *; [lia|].
    destruct (decide (e = a)), (decide (e' = a)); lia.
Qed.
(** Entries keep their inode and their references. *)
Definition same_ids (t t' : nat → inode) : Prop :=
  ∀ jp, i_dev (t' jp) = i_dev (t jp) ∧ i_inum (t' jp) = i_inum (t jp).

Lemma same_ids_upd t ip (f : inode → inode) :
  i_dev (f (t ip)) = i_dev (t ip) → i_inum (f (t ip)) = i_inum (t ip) → same_ids t (<[ip := f (t ip)]> t).
Proof. intros E1 E2 jp. destruct (decide (jp = ip)) as [->|]; [by rewrite fn_lookup_insert | by rewrite fn_lookup_insert_ne]. Qed.

Lemma same_ids_trans t t' t'' : same_ids t t' → same_ids t' t'' → same_ids t t''.
Proof. intros H H' jp. destruct (H jp), (H' jp). split; congruence. Qed.

Lemma same_ids_at t t' ip inum : same_ids t t' → at_inode t ip inum → at_inode t' ip inum.
Proof. intros H (H1 & H2 & H3). destruct (H ip). split_and!; congruence. Qed.

(** A change to the fields of [ip] other than its references. *)
Lemma cache_field t0 t l o o' ip f :
  cache_ok t0 t l o →
  i_dev (f (t ip)) = i_dev (t ip) → i_inum (f (t ip)) = i_inum (t ip) → i_ref (f (t ip)) = i_ref (t ip) → 0 ≤ i_ref (t ip) →
  (i_valid (f (t ip)) = true → i_dev (t ip) = ROOTDEV → 0 < i_ref (t ip) → i_d (f (t ip)) = dino sb C (i_inum (t ip))) →
  (∀ jp, jp ≠ ip → (o' = Some jp ↔ o = Some jp)) → i_lock (f (t ip)) = (if decide (o' = Some ip) then Some me else None) →
  cache_ok t0 (<[ip := f (t ip)]> t) l o'.
Proof.
  intros Hc Ed En Er H0 Hv Ho Hl. eapply cache_upd; try done; rewrite ?Er; try done; [apply Hc|]. intros; by apply Hv.
Qed.

Lemma ilock_ok t0 t l x km k ip inum :
  cache_ok t0 t l None → at_inode t ip inum → 0 < i_ref (t ip) → I inum → tx x [] C k → 0 ≤ k →
  ∃ x' t', ilock me ip (mkFsys x sb t km) = Ok (tt, mkFsys x' sb t' km) ∧ tx x' [] C k ∧
    cache_ok t0 t' l (Some ip) ∧ same_ids t t' ∧ i_valid (t' ip) = true ∧ i_d (t' ip) = dino sb C inum.
Proof.
  intros Hc (Hip & Hdev & Hin) Hr Hi Ht Hk. unfold ilock, acquiresleep_i, iget_f, iupd. rewrite bind_gets. cbn [itable].
  destruct (Z.ltb_spec (i_ref (t ip)) 1); [lia|]. rewrite bind_assoc, bind_gets. cbn [itable].
  rewrite (co_lock _ _ _ _ Hc), decide_False by done. rewrite bind_modify, bind_gets. cbn [itable fs_ls fs_sb fs_km].
  rewrite fn_lookup_insert. cbn [id set_ilock i_valid i_dev i_inum].
  assert (Hc1 : cache_ok t0 (<[ip := set_ilock (Some me) (t ip)]> t) l (Some ip)).
  { eapply (cache_field t0 t l None); [done..| lia | | |].
    - cbn. intros. by apply Hc.
    - intros jp Hjp. split; congruence.
    - by rewrite decide_True. }
  assert (Hs1 : same_ids t (<[ip := set_ilock (Some me) (t ip)]> t)) by (by apply same_ids_upd).
  set (t1 := <[ip := set_ilock (Some me) (t ip)]> t) in *.
  assert (Et1 : t1 ip = set_ilock (Some me) (t ip)) by apply fn_lookup_insert.
  destruct (i_valid (t ip)) eqn:Ev.
  { exists x, t1. split_and!; [done | done | done | done | by rewrite Et1 |]. rewrite Et1. cbn. rewrite <- Hin. by apply Hc. }
  rewrite bind_gets. cbn [fs_sb]. rewrite Hdev, Hin.
  destruct (tx_bread ROOTDEV_nz (IBLOCK inum sb) Ht) as (b & x1 & R1 & Ht1 & Hb & _); [by intros ? ?%elem_of_nil | cbn; lia |].
  run_ls R1. rewrite bind_data. rewrite (tx_data ROOTDEV_nz b Ht1) by (by left). rewrite Hb.
  change (get_dinode (C (IBLOCK inum sb)) (DINODE_SIZE * (inum mod IPB))) with (dino sb C inum). cbv zeta.
  rewrite bind_modify. cbn [itable fs_ls fs_sb fs_km].
  destruct (tx_brelse ROOTDEV_nz [] b Ht1 ltac:(done)) as (x2 & R2 & Ht2 & _). run_ls R2.
  rewrite bind_modify. cbn [itable fs_ls fs_sb fs_km].
  destruct (Z.eqb_spec (di_type (dino sb C inum)) 0) as [Ez|_]; [by destruct (tr_type _ _ _ HI inum Hi)|].
  assert (Hc2 : cache_ok t0 (<[ip := set_i_d (dino sb C inum) (t1 ip)]> t1) l (Some ip)).
  { eapply (cache_field t0 t1 l (Some ip)); [done..| rewrite Et1; cbn; lia | | done |].
    - rewrite Et1. cbn. congruence.
    - rewrite Et1. by rewrite decide_True. }
  set (t2 := <[ip := set_i_d (dino sb C inum) (t1 ip)]> t1) in *.
  assert (Et2 : t2 ip = set_i_d (dino sb C inum) (t1 ip)) by apply fn_lookup_insert.
  assert (Hs2 : same_ids t t2) by (eapply same_ids_trans; [exact Hs1 | by apply same_ids_upd]).
  eexists x2, (<[ip := set_ivalid true (t2 ip)]> t2). split_and!; [done | done | | | by rewrite fn_lookup_insert | by rewrite fn_lookup_insert, Et2].
  - eapply (cache_field t0 t2 l (Some ip)); [done..| rewrite Et2, Et1; cbn; lia | | done |].
    + rewrite Et2, Et1. cbn. congruence.
    + rewrite Et2, Et1. by rewrite decide_True.
  - eapply same_ids_trans; [exact Hs2 | by apply same_ids_upd].
Qed.

Lemma iunlock_ok t0 t l x km ip :
  cache_ok t0 t l (Some ip) → 0 < i_ref (t ip) →
  ∃ t', iunlock me ip (mkFsys x sb t km) = Ok (tt, mkFsys x sb t' km) ∧ cache_ok t0 t' l None ∧ same_ids t t' ∧ i_ref (t' ip) = i_ref (t ip).
Proof.
  intros Hc Hr. unfold iunlock, holdingsleep_i, releasesleep_i, iget_f, iupd. rewrite bind_assoc, bind_gets, bind_ret, bind_gets. cbn [itable].
  rewrite (co_lock _ _ _ _ Hc), decide_True, bool_decide_true by done. destruct (Z.ltb_spec (i_ref (t ip)) 1); [lia|].
  eexists. split; [done|]. split_and!; [|by apply same_ids_upd | by rewrite fn_lookup_insert].
  eapply (cache_field t0 t l (Some ip)); [done..| lia | | | done].
  - cbn. intros. by apply Hc.
  - intros jp Hjp. split; congruence.
Qed.

(** Dropping a reference to a linked inode. *)
Lemma iput_ok t0 t l l' x km ip inum :
  cache_ok t0 t l None → room t0 → l ≡ₚ ip :: l' → (length l ≤ 2)%nat → at_inode t ip inum → I inum →
  ∃ t', iput me ip (mkFsys x sb t km) = Ok (tt, mkFsys x sb t' km) ∧ cache_ok t0 t' l' None ∧ same_ids t t'.
Proof.
  intros Hc Hro Hl Hlen (Hip & Hdev & Hin) Hi. unfold iput, iget_f. rewrite bind_gets. cbn [itable id].
  assert (Hrefs : ∀ jp, nrefs jp l = nrefs jp l' + (if decide (jp = ip) then 1 else 0)).
  { intros jp. rewrite <- nrefs_cons. unfold nrefs. by rewrite Hl. }
  pose proof (co_ref _ _ _ _ Hc ip) as Er. rewrite Hrefs, decide_True in Er by done.
  pose proof (nrefs_range ip l') as Hr'. pose proof (ro_max _ Hro ip) as Hm. pose proof (Permutation_length Hl) as El. cbn in El.
  assert (Hno : (i_ref (t ip) =? 1) && i_valid (t ip) && (di_nlink (i_d (t ip)) =? 0) = false).
  { destruct (i_valid (t ip)) eqn:Ev; [|lia]. rewrite (co_cached _ _ _ _ Hc ip) by (done || lia).
    pose proof (tr_linked _ _ _ HI inum Hi). rewrite Hin. lia. }
  rewrite Hno, bind_ret. unfold iupd, modify. cbn [itable fs_ls fs_sb fs_km]. rewrite i32_small by lia.
  eexists. split; [done|]. split; [|by apply (same_ids_upd t ip (λ x, set_ref (i_ref x - 1) x))].
  eapply (cache_upd t0 t l None l' None ip (λ x, set_ref (i_ref x - 1) x)); [done | done | done | | | | | | done | apply Hc].
  - cbn. lia.
  - cbn. lia.
  - cbn. lia.
  - intros jp Hjp. rewrite Hrefs, decide_False by done. lia.
  - cbn. intros _ ? ?. apply Hc; (done || lia).
Qed.

Lemma iunlockput_ok t0 t l l' x km ip inum :
  cache_ok t0 t l (Some ip) → room t0 → l ≡ₚ ip :: l' → (length l ≤ 2)%nat → at_inode t ip inum → I inum →
  ∃ t', iunlockput me ip (mkFsys x sb t km) = Ok (tt, mkFsys x sb t' km) ∧ cache_ok t0 t' l' None ∧ same_ids t t'.
Proof.
  intros Hc Hro Hl Hlen Hat Hi.
  assert (Hr : 0 < i_ref (t ip)).
  { rewrite (co_ref _ _ _ _ Hc). pose proof (ro_max _ Hro ip). assert (nrefs ip l = nrefs ip (ip :: l')) as -> by (unfold nrefs; by rewrite Hl).
    rewrite nrefs_cons, decide_True by done. pose proof (nrefs_range ip l'). lia. }
  destruct (iunlock_ok t0 t l x km ip Hc Hr) as (t1 & R1 & Hc1 & Hs1 & _).
  destruct (iput_ok t0 t1 l l' x km ip inum Hc1 Hro Hl Hlen) as (t2 & R2 & Hc2 & Hs2); [by eapply same_ids_at | done |].
  unfold iunlockput. rewrite (bind_ok _ _ _ _ _ R1). exists t2. split_and!; [exact R2 | done | by eapply same_ids_trans].
Qed.

(** ** The walk *)

Context (name : Z) (Hslot : slot_ok kaddr (kaddr SLookupDe)) (Hname : name_ok kaddr name (kaddr SLookupDe)).

(** A path of [n] characters, apart from the buffers, the name and the local entry. *)
Record path_ok (path n : Z) : Prop := {
  po_pos : 0 < path;
  po_name : name + DIRSIZ ≤ path ∨ path + n < name;
  po_apart i : 0 ≤ i ≤ n → ¬ buf_byte kaddr (path + i) ∧ (path + i < kaddr SLookupDe ∨ kaddr SLookupDe + DIRENT_SIZE ≤ path + i);
}.

Lemma path_ok_suffix path n path' n' : path_ok path n → path ≤ path' → path' + n' = path + n → path_ok path' n'.
Proof.
  intros [H1 H2 H3] Hp E. split; [lia | lia |]. intros i Hi. replace (path' + i) with (path + (path' + i - path)) by lia. apply H3. lia.
Qed.

(** Memory that the walk leaves alone. *)
Definition walk_frame (m m' : memory) : Prop :=
  ∀ a, (a < name ∨ name + DIRSIZ ≤ a) → (a < kaddr SLookupDe ∨ kaddr SLookupDe + DIRENT_SIZE ≤ a) → ¬ buf_byte kaddr a →
    ld8 m' a = ld8 m a.

Lemma walk_frame_trans m m' m'' : walk_frame m m' → walk_frame m' m'' → walk_frame m m''.
Proof. intros H H' a Ha Hb Hc. rewrite H' by done. by apply H. Qed.

(** The result of a walk: nothing, and no reference kept; or an entry for the inode [r],
    and for [nameiparent] the last component in the name buffer. *)
Definition found (np : bool) (es : list (list Z)) (t0 t' : nat → inode) (m : memory) (r : option Z) (o : option nat) : Prop :=
  match r, o with
  | None, None => cache_ok t0 t' [] None
  | Some i, Some ip => cache_ok t0 t' [ip] None ∧ at_inode t' ip i ∧ (np = true → ∀ e, last es = Some e → name_at m name e)
  | _, _ => False
  end.

Definition target (np : bool) (inum : Z) (es : list (list Z)) : option Z :=
  if np then resolve_parent sb C inum es else resolve sb C inum es.

Lemma target_notdir np i e es : di_type (dino sb C i) ≠ T_DIR → target np i (e :: es) = None.
Proof.
  intros H. assert (Hc : child sb C i e = None) by (unfold child; by destruct (Z.eqb_spec (di_type (dino sb C i)) T_DIR)).
  destruct np; cbn [target]; [|cbn; by rewrite Hc]. destruct es as [|e' es]; [|rewrite resolve_parent_cons; by rewrite Hc].
  cbn [resolve_parent removelast resolve mbind option_bind]. by destruct (Z.eqb_spec (di_type (dino sb C i)) T_DIR).
Qed.

Lemma target_last i e : di_type (dino sb C i) = T_DIR → target true i [e] = Some i.
Proof. intros H. cbn [target resolve_parent removelast resolve mbind option_bind]. by rewrite H. Qed.

Lemma target_cons np i e es : di_type (dino sb C i) = T_DIR → np = false ∨ es ≠ [] →
  target np i (e :: es) = child sb C i e ≫= λ j, target np j es.
Proof. intros H [->|Hes]; [done|]. destruct np; [|done]. destruct es as [|e' es]; [done|]. apply resolve_parent_cons. Qed.

(** One directory of the way: search it, drop it, and hold what was found instead. *)
Lemma walk_step t0 t x km k ip inum e :
  tx x [] C k → 0 ≤ k → cache_ok t0 t [ip] (Some ip) → room t0 → at_inode t ip inum → I inum →
  i_d (t ip) = dino sb C inum → di_type (dino sb C inum) = T_DIR → i_valid (t ip) = true →
  cstr (Z.to_nat DIRSIZ) (k_mem km) name = take (Z.to_nat DIRSIZ) e →
  ∃ x' t' km' o, dirlookup me pagetable kaddr ip name (mkFsys x sb t km) = Ok (o, mkFsys x' sb t' km') ∧ tx x' [] C k ∧
    walk_frame (k_mem km) (k_mem km') ∧ at_inode t' ip inum ∧
    match child sb C inum e, o with
    | None, None => cache_ok t0 t' [ip] (Some ip)
    | Some i, Some (jp, _) => cache_ok t0 t' [jp; ip] (Some ip) ∧ at_inode t' jp i
    | _, _ => False
    end.
Proof.
  intros Ht Hk Hc Hro (Hip & Hdev & Hin) Hi Ed Ety Hv Enm.
  pose proof (dirlookup_ok me ROOTDEV ROOTDEV_nz sb ops pagetable kaddr ip name (dir_len (dino sb C inum)) x t km C k) as H.
  cbv zeta in H. rewrite Ed, Enm in H.
  destruct H as (x1 & km1 & R1 & Ht1 & Hfr); [done | done | done | done | by apply (tr_dir _ _ _ HI) | done | done |].
  assert (Hf : walk_frame (k_mem km) (k_mem km1)) by (intros a _ Ha Hb; by apply Hfr).
  rewrite R1. unfold child. rewrite Ety, Z.eqb_refl. destruct (dir_find _ _ _ _) as [[j i]|]; cbn [fmap option_fmap option_map snd].
  2: { by exists x1, t, km1, None. }
  destruct (iget_ok t0 t [ip] (Some ip) x1 km1 i Hc Hro ltac:(done)) as (jp & t' & R2 & Hc2 & Hat & Hsame).
  rewrite (bind_ok _ _ _ _ _ R2). exists x1, t', km1, (Some (jp, DIRENT_SIZE * j)).
  assert (Hr : 0 < i_ref (t ip)).
  { rewrite (co_ref _ _ _ _ Hc), nrefs_cons, decide_True by done. rewrite nrefs_nil. pose proof (ro_max _ Hro ip). lia. }
  destruct (Hsame ip Hr) as (E1 & E2 & _). split_and!; [done.. | | done | done]. split_and!; congruence.
Qed.

(** The same with the directory given up. *)
Lemma walk_next t0 t x km k ip inum e (F : nat → FM (option nat)) :
  tx x [] C k → 0 ≤ k → cache_ok t0 t [ip] (Some ip) → room t0 → at_inode t ip inum → I inum →
  i_d (t ip) = dino sb C inum → di_type (dino sb C inum) = T_DIR → i_valid (t ip) = true →
  name_at (k_mem km) name e → Forall (.≠ 0) e →
  let m := (o ← dirlookup me pagetable kaddr ip name;
            match o with None => iunlockput me ip;; mret None | Some (jp, _) => iunlockput me ip;; F jp end) (mkFsys x sb t km) in
  ∃ x' t' km', tx x' [] C k ∧ walk_frame (k_mem km) (k_mem km') ∧
    match child sb C inum e with
    | None => m = Ok (None, mkFsys x' sb t' km') ∧ cache_ok t0 t' [] None
    | Some i => ∃ jp, m = F jp (mkFsys x' sb t' km') ∧ cache_ok t0 t' [jp] None ∧ at_inode t' jp i
    end.
Proof.
  intros Ht Hk Hc Hro Hat Hi Ed Ety Hv Hnm Hnz m.
  destruct (walk_step t0 t x km k ip inum e Ht Hk Hc Hro Hat Hi Ed Ety Hv) as (x2 & t2 & km2 & o & R2 & Ht2 & Hf2 & Hat2 & Ho).
  { apply name_at_cstr; [done | intros i c He Hlt; apply Hnm; [done | unfold DIRSIZ in *; lia] |]. intros Hlt. apply Hnm. unfold DIRSIZ in *. lia. }
  subst m. rewrite (bind_ok _ _ _ _ _ R2).
  destruct (child sb C inum e) as [i|] eqn:Ech, o as [[jp off]|]; try done.
  - destruct Ho as [Hc2 Hjp].
    destruct (iunlockput_ok t0 t2 [jp; ip] [jp] x2 km2 ip inum Hc2 Hro) as (t3 & R3 & Hc3 & Hs3); [apply Permutation_swap | done | done | done |].
    rewrite (bind_ok _ _ _ _ _ R3). exists x2, t3, km2. split_and!; [done | done |]. exists jp. split_and!; [done | done | by eapply same_ids_at].
  - destruct (iunlockput_ok t0 t2 [ip] [] x2 km2 ip inum Ho Hro ltac:(done) ltac:(cbn; lia) Hat2 Hi) as (t3 & R3 & Hc3 & _).
    rewrite (bind_ok _ _ _ _ _ R3). by exists x2, t3, km2.
Qed.

Lemma namex_loop_ok np t0 k fuel : ∀ x t km path s ip inum,
  tx x [] C k → 0 ≤ k → cache_ok t0 t [ip] None → room t0 → at_inode t ip inum → I inum →
  str_at (k_mem km) path s → Z.of_nat (length s) < MAXPATH → path_ok path (Z.of_nat (length s)) →
  (length (components [] s) < fuel)%nat →
  ∃ x' t' km' o, namex_loop me pagetable kaddr fuel ip path np name (mkFsys x sb t km) = Ok (o, mkFsys x' sb t' km') ∧
    tx x' [] C k ∧ walk_frame (k_mem km) (k_mem km') ∧
    found np (components [] s) t0 t' (k_mem km') (target np inum (components [] s)) o.
Proof.
  induction fuel as [|fuel IH]; intros x t km path s ip inum Ht Hk Hc Hro Hat Hi Hs Hmax Hpo Hf; [lia|].
  cbn [namex_loop]. pose proof (skipelem_spec sb x t km path name s Hs Hmax (po_pos _ _ Hpo) (po_name _ _ Hpo)) as Hsk.
  pose proof (components_Forall (.≠ 0) s [] ltac:(done) (str_at_nonzero _ _ _ Hs)) as Hnz.
  destruct (components [] s) as [|e es] eqn:Ecomp.
  { rewrite (bind_ok _ _ _ _ _ Hsk). cbn [Z.eqb]. destruct np; cbn [target resolve resolve_parent].
    - destruct (iput_ok t0 t [ip] [] x km ip inum Hc Hro ltac:(done) ltac:(cbn; lia) Hat Hi) as (t1 & R1 & Hc1 & _).
      rewrite (bind_ok _ _ _ _ _ R1). by exists x, t1, km, None.
    - by exists x, t, km, (Some ip). }
  destruct Hsk as (path' & s' & m' & R0 & Hpp & Hs' & Ecs & _ & Hemp & Esum & Hnm & Hfr). rewrite (bind_ok _ _ _ _ _ R0).
  destruct (Z.eqb_spec path' 0); [pose proof (po_pos _ _ Hpo); lia|].
  set (km1 := mkKmem m' (k_freelist km)).
  assert (Hpo' : path_ok path' (Z.of_nat (length s'))) by (eapply path_ok_suffix; [exact Hpo | lia | done]).
  assert (Hf0 : walk_frame (k_mem km) m') by (intros a Ha _ _; by apply Hfr).
  assert (Hnz1 : Forall (.≠ 0) e) by (by apply Forall_cons in Hnz as [? _]).
  assert (Hr : 0 < i_ref (t ip)).
  { rewrite (co_ref _ _ _ _ Hc), nrefs_cons, decide_True, nrefs_nil by done. pose proof (ro_max _ Hro ip). lia. }
  destruct (ilock_ok t0 t [ip] x km1 k ip inum Hc Hat Hr Hi Ht Hk) as (x1 & t1 & R1 & Ht1 & Hc1 & Hs1 & Hv1 & Ed1).
  rewrite (bind_ok _ _ _ _ _ R1). pose proof (same_ids_at _ _ _ _ Hs1 Hat) as Hat1. unfold iget_f. rewrite bind_gets. cbn [itable]. rewrite Ed1.
  assert (Hdrop : ∃ t2, (iunlockput me ip ;; mret None) (mkFsys x1 sb t1 km1) = Ok (@None nat, mkFsys x1 sb t2 km1) ∧ cache_ok t0 t2 [] None).
  { destruct (iunlockput_ok t0 t1 [ip] [] x1 km1 ip inum Hc1 Hro ltac:(done) ltac:(cbn; lia) Hat1 Hi) as (t2 & R2 & Hc2 & _).
    exists t2. by rewrite (bind_ok _ _ _ _ _ R2). }
  destruct (Z.eqb_spec (di_type (dino sb C inum)) T_DIR) as [Ety|Ety]; cbn [negb].
  2: { destruct Hdrop as (t2 & R2 & Hc2). rewrite R2, target_notdir by done. by exists x1, t2, km1, None. }
  rewrite bind_read_mem. cbn [k_mem km1]. rewrite (str_at_end _ _ _ Hs').
  destruct (np && bool_decide (s' = [])) eqn:Elast.
  { apply andb_true_iff in Elast as [-> ->%bool_decide_eq_true]. assert (es = []) as -> by (by apply Hemp). rewrite target_last by done.
    destruct (iunlock_ok t0 t1 [ip] x1 km1 ip Hc1) as (t2 & R2 & Hc2 & Hs2 & _).
    { rewrite (co_ref _ _ _ _ Hc1), <- (co_ref _ _ _ _ Hc). done. }
    rewrite (bind_ok _ _ _ _ _ R2). exists x1, t2, km1, (Some ip). split_and!; [done..|]. split_and!; [done | by eapply same_ids_at |].
    by intros _ e' [= <-]. }
  rewrite target_cons; [|done|].
  2: { destruct np; [right | by left]. intros ->. rewrite bool_decide_true in Elast by (by apply Hemp). done. }
  destruct (walk_next t0 t1 x1 km1 k ip inum e (λ jp, namex_loop me pagetable kaddr fuel jp path' np name) Ht1 Hk Hc1 Hro Hat1 Hi Ed1 Ety Hv1 Hnm Hnz1)
    as (x2 & t2 & km2 & Ht2 & Hf2 & Hnext).
  pose proof (walk_frame_trans _ _ _ Hf0 Hf2) as Hf02.
  destruct (child sb C inum e) as [i|] eqn:Ech; cbn [mbind option_bind].
  2: { destruct Hnext as [R2 Hc2]. rewrite R2. by exists x2, t2, km2, None. }
  destruct Hnext as (jp & R2 & Hc2 & Hjp). rewrite R2.
  destruct (IH x2 t2 km2 path' s' jp i Ht2 Hk Hc2 Hro) as (x4 & t4 & km4 & o & R4 & Ht4 & Hf4 & Hfd).
  { done. }
  { by apply (child_in sb C I inum e). }
  { apply (str_at_ext m'); [|done]. intros j Hj.
    destruct (po_apart _ _ Hpo' j Hj) as [Hb1 Hb2]. apply Hf2; [|done..].
    pose proof (po_name _ _ Hpo). unfold DIRSIZ in *. lia. }
  { lia. }
  { exact Hpo'. }
  { rewrite Ecs. cbn in Hf. lia. }
  rewrite Ecs in Hfd. exists x4, t4, km4, o. split_and!; [done | done | by eapply walk_frame_trans |].
  unfold found in *. destruct (target np i es), o; try done. destruct Hfd as (H1 & H2 & H3). split_and!; [done | done |].
  intros Hnp e' He'. apply H3; [done|]. destruct es; [|done]. exfalso.
  subst np. rewrite bool_decide_true in Elast by (by apply Hemp). done.
Qed.

(** Where the walk starts: at the root for a path that begins with a slash, else at the
    current directory. *)
Definition start_inum (t : nat → inode) (s : list Z) : Z :=
  match s with c :: _ => if c =? slash then ROOTINO else i_inum (t cwd) | [] => i_inum (t cwd) end.

Lemma idup_ok t0 x km :
  cache_ok t0 t0 [] None → room t0 → 0 < i_ref (t0 cwd) →
  ∃ t', idup cwd (mkFsys x sb t0 km) = Ok (cwd, mkFsys x sb t' km) ∧ cache_ok t0 t' [cwd] None ∧ same_ids t0 t'.
Proof.
  intros Hc Hro Hr. pose proof (ro_max _ Hro cwd). unfold idup, iupd. rewrite bind_modify. cbn [itable fs_ls fs_sb fs_km].
  rewrite i32_small by lia. eexists. split; [done|]. split; [|by apply (same_ids_upd t0 cwd (λ x, set_ref (i_ref x + 1) x))].
  eapply (cache_upd t0 t0 [] None [cwd] None cwd (λ x, set_ref (i_ref x + 1) x)); [done | done | done | | | done | | | done | apply Hc].
  - cbn. rewrite nrefs_cons, decide_True, nrefs_nil by done. lia.
  - cbn. lia.
  - intros jp Hjp. by rewrite nrefs_cons, decide_False.
  - cbn. intros _. by apply Hc.
Qed.

Lemma namex_ok np path s t0 x km k :
  tx x [] C k → 0 ≤ k → cache_ok t0 t0 [] None → room t0 →
  str_at (k_mem km) path s → Z.of_nat (length s) < MAXPATH → path_ok path (Z.of_nat (length s)) →
  I ROOTINO → (head s ≠ Some slash → 0 < i_ref (t0 cwd) ∧ at_inode t0 cwd (i_inum (t0 cwd)) ∧ I (i_inum (t0 cwd))) →
  let es := components [] s in
  ∃ x' t' km' o, namex me pagetable cwd kaddr path np name (mkFsys x sb t0 km) = Ok (o, mkFsys x' sb t' km') ∧
    tx x' [] C k ∧ walk_frame (k_mem km) (k_mem km') ∧
    found np es t0 t' (k_mem km') (target np (start_inum t0 s) es) o.
Proof.
  intros Ht Hk Hc Hro Hs Hmax Hpo Hroot Hcwd es. unfold namex. rewrite bind_read_mem.
  assert (Hstart : ∃ ip t1, (if ld8 (k_mem km) path =? slash then iget ROOTDEV ROOTINO else idup cwd) (mkFsys x sb t0 km) = Ok (ip, mkFsys x sb t1 km) ∧
    cache_ok t0 t1 [ip] None ∧ at_inode t1 ip (start_inum t0 s) ∧ I (start_inum t0 s)).
  { assert (Hrel : head s ≠ Some slash → ∃ t1, idup cwd (mkFsys x sb t0 km) = Ok (cwd, mkFsys x sb t1 km) ∧
      cache_ok t0 t1 [cwd] None ∧ at_inode t1 cwd (i_inum (t0 cwd)) ∧ I (i_inum (t0 cwd))).
    { intros (Hr & Hat & Hi)%Hcwd. destruct (idup_ok t0 x km Hc Hro Hr) as (t1 & R1 & Hc1 & Hs1). exists t1. eauto using same_ids_at. }
    destruct s as [|c s]; [destruct (Hrel ltac:(done)) as [t1 H]; rewrite (str_at_nil _ _ Hs); by exists cwd, t1|].
    apply str_at_cons in Hs as (-> & _). cbn [start_inum]. destruct (Z.eqb_spec c slash) as [|Hne].
    - destruct (iget_ok t0 t0 [] None x km ROOTINO Hc Hro ltac:(cbn; lia)) as (ip & t2 & R2 & Hc2 & Hat2 & _). by exists ip, t2.
    - destruct Hrel as [t1 H]; [cbn; congruence|]. by exists cwd, t1. }
  destruct Hstart as (ip & t1 & R1 & Hc1 & Hat1 & Hi1). rewrite (bind_ok _ _ _ _ _ R1).
  apply (namex_loop_ok np t0 k path_fuel x t1 km path s ip); try done.
  pose proof (length_components s []). unfold path_fuel. cbn in *. lia.
Qed.

(** C6. Path resolution.  On a file system whose directories are well-formed and whose cached
    inodes agree with the disk, [namex] returns what the path names on disk: [namei] the
    inode that the path's components lead to from the root or the current directory, and
    [nameiparent] the directory that should hold the last component, with that component
    in [name]; null exactly when there is none.  The entry returned holds one new reference
    and no other count changes; no inode stays locked; the disk is as before, and memory is
    too but for the name, the local entry and the buffers. *)
Theorem namex_spec (np : bool) path s t0 x km k :
  tx x [] C k → 0 ≤ k → cache_ok t0 t0 [] None → room t0 →
  str_at (k_mem km) path s → Z.of_nat (length s) < MAXPATH → path_ok path (Z.of_nat (length s)) →
  I ROOTINO → (head s ≠ Some slash → 0 < i_ref (t0 cwd) ∧ at_inode t0 cwd (i_inum (t0 cwd)) ∧ I (i_inum (t0 cwd))) →
  let es := components [] s in let start := start_inum t0 s in
  ∃ x' t' km', tx x' [] C k ∧ walk_frame (k_mem km) (k_mem km') ∧
    match (if np then resolve_parent sb C start es else resolve sb C start es) with
    | None => namex me pagetable cwd kaddr path np name (mkFsys x sb t0 km) = Ok (None, mkFsys x' sb t' km') ∧ cache_ok t0 t' [] None
    | Some i => ∃ ip, namex me pagetable cwd kaddr path np name (mkFsys x sb t0 km) = Ok (Some ip, mkFsys x' sb t' km') ∧
        cache_ok t0 t' [ip] None ∧ at_inode t' ip i ∧ (np = true → ∀ e, last es = Some e → name_at (k_mem km') name e)
    end.
Proof.
  intros Ht Hk Hc Hro Hs Hmax Hpo Hroot Hcwd es start.
  destruct (namex_ok np path s t0 x km k Ht Hk Hc Hro Hs Hmax Hpo Hroot Hcwd) as (x' & t' & km' & o & R & Ht' & Hf & Hfd).
  fold es start in Hfd. exists x', t', km'. split_and!; [done | done |]. fold (target np start es). rewrite R. unfold found in Hfd.
  destruct (target np start es) as [i|], o as [ip|]; try done. by exists ip.
Qed.

End cache.

(** ** A directory with an entry for itself *)

Definition ex_loop_dir : dinode := mkDinode T_DIR 0 0 1 16 (46 :: replicate 12 0).
Definition ex_loop_C (n : Z) : block :=
  if n =? 32 then put_dinode ∅ 64 ex_loop_dir else if n =? 46 then <[0 := 1]> (<[2 := 97]> ∅) else ∅.
Definition ex_loop_it (ip : nat) : inode := mkInode 0 0 0 None false ex_dir.

Lemma ex_loop_dino : dino mkfs_sb ex_loop_C 1 = ex_loop_dir.
Proof. by vm_compute. Qed.

Lemma ex_loop_tree : tree_ok mkfs_sb ex_loop_C (λ i, i = 1).
Proof.
  split; intros i; [intros ->.. |]; rewrite ?ex_loop_dino; try done.
  - intros _. split; [|done | by vm_compute]. intros bn Hbn Hs. change (bn * 1024 < 16) in Hs. assert (bn = 0) as -> by lia. by vm_compute.
  - intros j -> _. rewrite ex_loop_dino. change (dir_len ex_loop_dir) with 1%nat. intros Hj _. assert (j = 0) as -> by lia. by vm_compute.
Qed.

Lemma ex_loop_cache : cache_ok 1 mkfs_sb ex_loop_C ex_loop_it ex_loop_it [] None ∧ room ex_loop_it.
Proof.
  split.
  - split; [split; [done|] | done | done | done | done]. intros ip jp _ _ H. by vm_compute in H.
  - split; [|done]. exists 0%nat, 1%nat. split_and!; [done | apply Nat.ltb_lt; by vm_compute.. | done | done].
Qed.

Lemma ex_low_not_buf a : a < 1048576 → ¬ buf_byte ex_kaddr a.
Proof. intros Ha (b & Hb & H). cbn in H. lia. Qed.

(** The parent of "/a//bc". *)
Lemma namex_spec_witness : ∃ x s' ip,
  namex 1 0 0 ex_kaddr 100 true 200 (mkFsys x mkfs_sb ex_loop_it (mkKmem ex_path_mem 0)) = Ok (Some ip, s') ∧ i_inum (itable s' ip) = 1 ∧
  name_at (k_mem (fs_km s')) 200 [98; 99].
Proof.
  destruct (boot_tx (λ _, ex_loop_C)) as [x Ht]. destruct ex_loop_cache as [Hc Hro].
  destruct (namex_spec 1 mkfs_sb 1 0 0 ex_kaddr ex_loop_C _ ex_loop_tree 200 ex_slot_ok) with
    (np := true) (path := 100) (s := [47; 97; 47; 47; 98; 99]) (t0 := ex_loop_it) (x := x) (km := mkKmem ex_path_mem 0) (k := 28) as (x' & t' & km' & _ & _ & Hres).
  { intros i Hi. unfold DIRSIZ in Hi. split; [apply ex_low_not_buf; lia | left; cbn; lia]. }
  { exact Ht. }
  { lia. }
  { exact Hc. }
  { exact Hro. }
  { split; [|by vm_compute]. intros i c Hi. do 6 (destruct i as [|i]; [injection Hi as <-; by vm_compute|]). done. }
  { done. }
  { split; [lia | right; cbn; lia |]. intros i Hi. cbn in Hi. split; [apply ex_low_not_buf; lia | left; cbn; lia]. }
  { done. }
  { done. }
  assert (E : resolve_parent mkfs_sb ex_loop_C 1 [[97]; [98; 99]] = Some 1) by (by vm_compute).
  change (components [] [47; 97; 47; 47; 98; 99]) with [[97]; [98; 99]] in Hres. change (start_inum 0 ex_loop_it [47; 97; 47; 47; 98; 99]) with 1 in Hres.
  rewrite E in Hres. destruct Hres as (ip & R & _ & (_ & _ & Hi) & Hn).
  exists x, (mkFsys x' mkfs_sb t' km'), ip. split_and!; [exact R | exact Hi | by apply Hn].
Defined.
