(* ===== verification/Kern.v ===== *)
(** * Kern: the state of the kernel

    The process table, the file table, pipes, the console and the UART, around the file
    system's state (Fs.v), which holds memory, the buffer cache and the inode table.
    Operations on this state are the system calls' code, as the process [cur] runs it; a
    critical section under a spin lock is atomic (Spinlock.v), so the locks themselves are
    not part of the state. *)

From stdpp Require Import functions.
From S2P Require Import Prelude Mem Layout Kalloc Vm FsFormat Bio Log Fs.

Local Open Scope Z_scope.

(** ** Processes (src/kernel/proc.h) *)

Inductive procstate := UNUSED | USED | SLEEPING | RUNNABLE | RUNNING | ZOMBIE.
#[export] Instance procstate_eq_dec : EqDecision procstate.
Proof. solve_decision. Defined.

(** Channels that processes sleep on, each the address of a variable in the code. *)
Inductive chan :=
  | ChPipeRead (pi : Z)    (* &pi->nread *)
  | ChPipeWrite (pi : Z)   (* &pi->nwrite *)
  | ChCons                 (* &cons.r *)
  | ChUart                 (* &uart_tx_r *)
  | ChTicks                (* &ticks *)
  | ChDesc                 (* &disk.free[0] *)
  | ChBuf (b : nat)        (* a struct buf *)
  | ChProc (p : nat).      (* &proc[p], the channel of wait *)
#[export] Instance chan_eq_dec : EqDecision chan.
Proof. solve_decision. Defined.

(** [struct context]; [c_s] holds s0 to s11. *)
Record context := mkContext { c_ra : Z; c_sp : Z; c_s : list Z }.

(** [struct proc].  [p->name] is memory, at [kaddr (SProcName p)]; [p->trapframe] is the
    address of a page. *)
Record proc := mkProc {
  p_state : procstate;
  p_chan : option chan;
  p_killed : Z;
  p_xstate : Z;
  p_pid : Z;
  p_parent : option nat;
  p_kstack : Z;
  p_sz : Z;
  p_pagetable : Z;
  p_trapframe : Z;
  p_context : context;
  p_ofile : list (option nat);
  p_cwd : option nat;
  p_trace_mask : Z;
}.

Definition set_p_state (v : procstate) (x : proc) : proc :=
  mkProc v (p_chan x) (p_killed x) (p_xstate x) (p_pid x) (p_parent x) (p_kstack x) (p_sz x) (p_pagetable x) (p_trapframe x) (p_context x) (p_ofile x) (p_cwd x) (p_trace_mask x).
Definition set_p_chan (v : option chan) (x : proc) : proc :=
  mkProc (p_state x) v (p_killed x) (p_xstate x) (p_pid x) (p_parent x) (p_kstack x) (p_sz x) (p_pagetable x) (p_trapframe x) (p_context x) (p_ofile x) (p_cwd x) (p_trace_mask x).
Definition set_p_killed (v : Z) (x : proc) : proc :=
  mkProc (p_state x) (p_chan x) v (p_xstate x) (p_pid x) (p_parent x) (p_kstack x) (p_sz x) (p_pagetable x) (p_trapframe x) (p_context x) (p_ofile x) (p_cwd x) (p_trace_mask x).
Definition set_p_xstate (v : Z) (x : proc) : proc :=
  mkProc (p_state x) (p_chan x) (p_killed x) v (p_pid x) (p_parent x) (p_kstack x) (p_sz x) (p_pagetable x) (p_trapframe x) (p_context x) (p_ofile x) (p_cwd x) (p_trace_mask x).
Definition set_p_pid (v : Z) (x : proc) : proc :=
  mkProc (p_state x) (p_chan x) (p_killed x) (p_xstate x) v (p_parent x) (p_kstack x) (p_sz x) (p_pagetable x) (p_trapframe x) (p_context x) (p_ofile x) (p_cwd x) (p_trace_mask x).
Definition set_p_parent (v : option nat) (x : proc) : proc :=
  mkProc (p_state x) (p_chan x) (p_killed x) (p_xstate x) (p_pid x) v (p_kstack x) (p_sz x) (p_pagetable x) (p_trapframe x) (p_context x) (p_ofile x) (p_cwd x) (p_trace_mask x).
Definition set_p_kstack (v : Z) (x : proc) : proc :=
  mkProc (p_state x) (p_chan x) (p_killed x) (p_xstate x) (p_pid x) (p_parent x) v (p_sz x) (p_pagetable x) (p_trapframe x) (p_context x) (p_ofile x) (p_cwd x) (p_trace_mask x).
Definition set_p_sz (v : Z) (x : proc) : proc :=
  mkProc (p_state x) (p_chan x) (p_killed x) (p_xstate x) (p_pid x) (p_parent x) (p_kstack x) v (p_pagetable x) (p_trapframe x) (p_context x) (p_ofile x) (p_cwd x) (p_trace_mask x).
Definition set_p_pagetable (v : Z) (x : proc) : proc :=
  mkProc (p_state x) (p_chan x) (p_killed x) (p_xstate x) (p_pid x) (p_parent x) (p_kstack x) (p_sz x) v (p_trapframe x) (p_context x) (p_ofile x) (p_cwd x) (p_trace_mask x).
Definition set_p_trapframe (v : Z) (x : proc) : proc :=
  mkProc (p_state x) (p_chan x) (p_killed x) (p_xstate x) (p_pid x) (p_parent x) (p_kstack x) (p_sz x) (p_pagetable x) v (p_context x) (p_ofile x) (p_cwd x) (p_trace_mask x).
Definition set_p_context (v : context) (x : proc) : proc :=
  mkProc (p_state x) (p_chan x) (p_killed x) (p_xstate x) (p_pid x) (p_parent x) (p_kstack x) (p_sz x) (p_pagetable x) (p_trapframe x) v (p_ofile x) (p_cwd x) (p_trace_mask x).
Definition set_p_ofile (v : list (option nat)) (x : proc) : proc :=
  mkProc (p_state x) (p_chan x) (p_killed x) (p_xstate x) (p_pid x) (p_parent x) (p_kstack x) (p_sz x) (p_pagetable x) (p_trapframe x) (p_context x) v (p_cwd x) (p_trace_mask x).
Definition set_p_cwd (v : option nat) (x : proc) : proc :=
  mkProc (p_state x) (p_chan x) (p_killed x) (p_xstate x) (p_pid x) (p_parent x) (p_kstack x) (p_sz x) (p_pagetable x) (p_trapframe x) (p_context x) (p_ofile x) v (p_trace_mask x).
Definition set_p_trace_mask (v : Z) (x : proc) : proc :=
  mkProc (p_state x) (p_chan x) (p_killed x) (p_xstate x) (p_pid x) (p_parent x) (p_kstack x) (p_sz x) (p_pagetable x) (p_trapframe x) (p_context x) (p_ofile x) (p_cwd x) v.

(** Offsets in [struct trapframe]. *)
Definition TF_kernel_satp : Z := 0.
Definition TF_kernel_sp : Z := 8.
Definition TF_kernel_trap : Z := 16.
Definition TF_epc : Z := 24.
Definition TF_kernel_hartid : Z := 32.
Definition TF_sp : Z := 48.
Definition TF_a0 : Z := 112.
Definition TF_a1 : Z := 120.
Definition TF_a7 : Z := 168.
Definition TF_SIZE : Z := 288.

(** ** Files and pipes (src/kernel/file.h, src/kernel/pipe.c) *)

Inductive filetype := FD_NONE | FD_PIPE | FD_INODE | FD_DEVICE.
#[export] Instance filetype_eq_dec : EqDecision filetype.
Proof. solve_decision. Defined.

Record file := mkFile {
  f_type : filetype;
  f_ref : Z;
  f_readable : bool;
  f_writable : bool;
  f_pipe : Z;
  f_ip : nat;
  f_off : Z;
  f_major : Z;
}.

Definition set_f_type (v : filetype) (x : file) : file :=
  mkFile v (f_ref x) (f_readable x) (f_writable x) (f_pipe x) (f_ip x) (f_off x) (f_major x).
Definition set_f_ref (v : Z) (x : file) : file :=
  mkFile (f_type x) v (f_readable x) (f_writable x) (f_pipe x) (f_ip x) (f_off x) (f_major x).
Definition set_f_readable (v : bool) (x : file) : file :=
  mkFile (f_type x) (f_ref x) v (f_writable x) (f_pipe x) (f_ip x) (f_off x) (f_major x).
Definition set_f_writable (v : bool) (x : file) : file :=
  mkFile (f_type x) (f_ref x) (f_readable x) v (f_pipe x) (f_ip x) (f_off x) (f_major x).
Definition set_f_pipe (v : Z) (x : file) : file :=
  mkFile (f_type x) (f_ref x) (f_readable x) (f_writable x) v (f_ip x) (f_off x) (f_major x).
Definition set_f_ip (v : nat) (x : file) : file :=
  mkFile (f_type x) (f_ref x) (f_readable x) (f_writable x) (f_pipe x) v (f_off x) (f_major x).
Definition set_f_off (v : Z) (x : file) : file :=
  mkFile (f_type x) (f_ref x) (f_readable x) (f_writable x) (f_pipe x) (f_ip x) v (f_major x).
Definition set_f_major (v : Z) (x : file) : file :=
  mkFile (f_type x) (f_ref x) (f_readable x) (f_writable x) (f_pipe x) (f_ip x) (f_off x) v.

Definition PIPESIZE : Z := 512.

(** [struct pipe]; it lives in a page of its own, whose address names it. *)
Record pipe := mkPipe {
  pi_data : Z → Z;
  pi_nread : Z;
  pi_nwrite : Z;
  pi_readopen : bool;
  pi_writeopen : bool;
}.

Definition set_pi_data (v : Z → Z) (x : pipe) : pipe :=
  mkPipe v (pi_nread x) (pi_nwrite x) (pi_readopen x) (pi_writeopen x).
Definition set_pi_nread (v : Z) (x : pipe) : pipe :=
  mkPipe (pi_data x) v (pi_nwrite x) (pi_readopen x) (pi_writeopen x).
Definition set_pi_nwrite (v : Z) (x : pipe) : pipe :=
  mkPipe (pi_data x) (pi_nread x) v (pi_readopen x) (pi_writeopen x).
Definition set_pi_readopen (v : bool) (x : pipe) : pipe :=
  mkPipe (pi_data x) (pi_nread x) (pi_nwrite x) v (pi_writeopen x).
Definition set_pi_writeopen (v : bool) (x : pipe) : pipe :=
  mkPipe (pi_data x) (pi_nread x) (pi_nwrite x) (pi_readopen x) v.

(** ** Console and UART (src/kernel/console.c, src/kernel/uart.c) *)

Definition INPUT_BUF_SIZE : Z := 128.

Record cons := mkCons {
  c_buf : Z → Z;
  c_r : Z;
  c_w : Z;
  c_e : Z;
}.

Definition set_c_buf (v : Z → Z) (x : cons) : cons :=
  mkCons v (c_r x) (c_w x) (c_e x).
Definition set_c_r (v : Z) (x : cons) : cons :=
  mkCons (c_buf x) v (c_w x) (c_e x).
Definition set_c_w (v : Z) (x : cons) : cons :=
  mkCons (c_buf x) (c_r x) v (c_e x).
Definition set_c_e (v : Z) (x : cons) : cons :=
  mkCons (c_buf x) (c_r x) (c_w x) v.

Definition UART_TX_BUF_SIZE : Z := 32.

(** The driver's transmit buffer, and the device: [u_regs] the control registers as last
    written, [u_sent] the bytes written to THR, [u_rx] the bytes waiting in RHR.  After
    the [k]-th byte the device reports busy for [u_delay k] reads of LSR, of which
    [u_busy] are to come. *)
Record uart := mkUart {
  u_tx_buf : Z → Z;
  u_tx_w : Z;
  u_tx_r : Z;
  u_regs : Z → Z;
  u_busy : nat;
  u_delay : nat → nat;
  u_sent : list Z;
  u_rx : list Z;
}.

Definition set_u_tx_buf (v : Z → Z) (x : uart) : uart :=
  mkUart v (u_tx_w x) (u_tx_r x) (u_regs x) (u_busy x) (u_delay x) (u_sent x) (u_rx x).
Definition set_u_tx_w (v : Z) (x : uart) : uart :=
  mkUart (u_tx_buf x) v (u_tx_r x) (u_regs x) (u_busy x) (u_delay x) (u_sent x) (u_rx x).
Definition set_u_tx_r (v : Z) (x : uart) : uart :=
  mkUart (u_tx_buf x) (u_tx_w x) v (u_regs x) (u_busy x) (u_delay x) (u_sent x) (u_rx x).
Definition set_u_regs (v : Z → Z) (x : uart) : uart :=
  mkUart (u_tx_buf x) (u_tx_w x) (u_tx_r x) v (u_busy x) (u_delay x) (u_sent x) (u_rx x).
Definition set_u_busy (v : nat) (x : uart) : uart :=
  mkUart (u_tx_buf x) (u_tx_w x) (u_tx_r x) (u_regs x) v (u_delay x) (u_sent x) (u_rx x).
Definition set_u_sent (v : list Z) (x : uart) : uart :=
  mkUart (u_tx_buf x) (u_tx_w x) (u_tx_r x) (u_regs x) (u_busy x) (u_delay x) v (u_rx x).
Definition set_u_rx (v : list Z) (x : uart) : uart :=
  mkUart (u_tx_buf x) (u_tx_w x) (u_tx_r x) (u_regs x) (u_busy x) (u_delay x) (u_sent x) v.

(** ** The disk driver (src/kernel/virtio_disk.c, src/kernel/virtio.h) *)

(** What a descriptor points to: a request header, a buffer's data, a status byte. *)
Inductive dma :=
  | DNull
  | DOp (i : nat)       (* &disk.ops[i] *)
  | DData (b : nat)     (* b->data *)
  | DStatus (i : nat).  (* &disk.info[i].status *)

(** [struct virtq_desc], [struct virtio_blk_req] *)
Record virtq_desc := mkDesc { vd_addr : dma; vd_len : Z; vd_flags : Z; vd_next : Z }.
Record virtio_blk_req := mkReq { rq_type : Z; rq_reserved : Z; rq_sector : Z }.

(** [struct disk] with the rings it points to.  [d_dev_idx] and [d_used_ring] are the
    [idx] and the [ring[].id] of the used ring, which the device writes; [d_buf_disk b] is
    [b->disk]; [d_regs] are the device's registers. *)
Record disk := mkDisk {
  d_desc : nat → virtq_desc;
  d_avail_idx : Z;
  d_avail_ring : Z → Z;
  d_dev_idx : Z;
  d_used_ring : Z → Z;
  d_free : nat → bool;
  d_used_idx : Z;
  d_info_b : nat → option nat;
  d_info_status : nat → Z;
  d_ops : nat → virtio_blk_req;
  d_buf_disk : nat → bool;
  d_regs : Z → Z;
}.

Definition set_d_desc (v : nat → virtq_desc) (x : disk) : disk :=
  mkDisk v (d_avail_idx x) (d_avail_ring x) (d_dev_idx x) (d_used_ring x) (d_free x) (d_used_idx x) (d_info_b x) (d_info_status x) (d_ops x) (d_buf_disk x) (d_regs x).
Definition set_d_avail_idx (v : Z) (x : disk) : disk :=
  mkDisk (d_desc x) v (d_avail_ring x) (d_dev_idx x) (d_used_ring x) (d_free x) (d_used_idx x) (d_info_b x) (d_info_status x) (d_ops x) (d_buf_disk x) (d_regs x).
Definition set_d_avail_ring (v : Z → Z) (x : disk) : disk :=
  mkDisk (d_desc x) (d_avail_idx x) v (d_dev_idx x) (d_used_ring x) (d_free x) (d_used_idx x) (d_info_b x) (d_info_status x) (d_ops x) (d_buf_disk x) (d_regs x).
Definition set_d_dev_idx (v : Z) (x : disk) : disk :=
  mkDisk (d_desc x) (d_avail_idx x) (d_avail_ring x) v (d_used_ring x) (d_free x) (d_used_idx x) (d_info_b x) (d_info_status x) (d_ops x) (d_buf_disk x) (d_regs x).
Definition set_d_used_ring (v : Z → Z) (x : disk) : disk :=
  mkDisk (d_desc x) (d_avail_idx x) (d_avail_ring x) (d_dev_idx x) v (d_free x) (d_used_idx x) (d_info_b x) (d_info_status x) (d_ops x) (d_buf_disk x) (d_regs x).
Definition set_d_free (v : nat → bool) (x : disk) : disk :=
  mkDisk (d_desc x) (d_avail_idx x) (d_avail_ring x) (d_dev_idx x) (d_used_ring x) v (d_used_idx x) (d_info_b x) (d_info_status x) (d_ops x) (d_buf_disk x) (d_regs x).
Definition set_d_used_idx (v : Z) (x : disk) : disk :=
  mkDisk (d_desc x) (d_avail_idx x) (d_avail_ring x) (d_dev_idx x) (d_used_ring x) (d_free x) v (d_info_b x) (d_info_status x) (d_ops x) (d_buf_disk x) (d_regs x).
Definition set_d_info_b (v : nat → option nat) (x : disk) : disk :=
  mkDisk (d_desc x) (d_avail_idx x) (d_avail_ring x) (d_dev_idx x) (d_used_ring x) (d_free x) (d_used_idx x) v (d_info_status x) (d_ops x) (d_buf_disk x) (d_regs x).
Definition set_d_info_status (v : nat → Z) (x : disk) : disk :=
  mkDisk (d_desc x) (d_avail_idx x) (d_avail_ring x) (d_dev_idx x) (d_used_ring x) (d_free x) (d_used_idx x) (d_info_b x) v (d_ops x) (d_buf_disk x) (d_regs x).
Definition set_d_ops (v : nat → virtio_blk_req) (x : disk) : disk :=
  mkDisk (d_desc x) (d_avail_idx x) (d_avail_ring x) (d_dev_idx x) (d_used_ring x) (d_free x) (d_used_idx x) (d_info_b x) (d_info_status x) v (d_buf_disk x) (d_regs x).
Definition set_d_buf_disk (v : nat → bool) (x : disk) : disk :=
  mkDisk (d_desc x) (d_avail_idx x) (d_avail_ring x) (d_dev_idx x) (d_used_ring x) (d_free x) (d_used_idx x) (d_info_b x) (d_info_status x) (d_ops x) v (d_regs x).
Definition set_d_regs (v : Z → Z) (x : disk) : disk :=
  mkDisk (d_desc x) (d_avail_idx x) (d_avail_ring x) (d_dev_idx x) (d_used_ring x) (d_free x) (d_used_idx x) (d_info_b x) (d_info_status x) (d_ops x) (d_buf_disk x) v.

(** ** The kernel *)

(** [kn_devsw d] tells whether [devsw[d]] is set; the only device is the console. *)
Record kernel := mkKernel {
  kn_fs : fsys;
  kn_procs : nat → proc;
  kn_cpus : nat → option nat;   (* cpus[NCPU].proc *)
  kn_nextpid : Z;
  kn_initproc : option nat;
  kn_files : nat → file;        (* ftable.file[NFILE] *)
  kn_pipes : Z → pipe;
  kn_devsw : Z → bool;
  kn_cons : cons;
  kn_uart : uart;
  kn_disk : disk;
  kn_ticks : Z;
  kn_first : bool;              (* first of forkret *)
  kn_panicked : bool;           (* panicked of printf.c: another cpu has panicked *)
}.

Definition set_kn_fs (v : fsys) (x : kernel) : kernel :=
  mkKernel v (kn_procs x) (kn_cpus x) (kn_nextpid x) (kn_initproc x) (kn_files x) (kn_pipes x) (kn_devsw x) (kn_cons x) (kn_uart x) (kn_disk x) (kn_ticks x) (kn_first x) (kn_panicked x).
Definition set_kn_procs (v : nat → proc) (x : kernel) : kernel :=
  mkKernel (kn_fs x) v (kn_cpus x) (kn_nextpid x) (kn_initproc x) (kn_files x) (kn_pipes x) (kn_devsw x) (kn_cons x) (kn_uart x) (kn_disk x) (kn_ticks x) (kn_first x) (kn_panicked x).
Definition set_kn_cpus (v : nat → option nat) (x : kernel) : kernel :=
  mkKernel (kn_fs x) (kn_procs x) v (kn_nextpid x) (kn_initproc x) (kn_files x) (kn_pipes x) (kn_devsw x) (kn_cons x) (kn_uart x) (kn_disk x) (kn_ticks x) (kn_first x) (kn_panicked x).
Definition set_kn_nextpid (v : Z) (x : kernel) : kernel :=
  mkKernel (kn_fs x) (kn_procs x) (kn_cpus x) v (kn_initproc x) (kn_files x) (kn_pipes x) (kn_devsw x) (kn_cons x) (kn_uart x) (kn_disk x) (kn_ticks x) (kn_first x) (kn_panicked x).
Definition set_kn_initproc (v : option nat) (x : kernel) : kernel :=
  mkKernel (kn_fs x) (kn_procs x) (kn_cpus x) (kn_nextpid x) v (kn_files x) (kn_pipes x) (kn_devsw x) (kn_cons x) (kn_uart x) (kn_disk x) (kn_ticks x) (kn_first x) (kn_panicked x).
Definition set_kn_files (v : nat → file) (x : kernel) : kernel :=
  mkKernel (kn_fs x) (kn_procs x) (kn_cpus x) (kn_nextpid x) (kn_initproc x) v (kn_pipes x) (kn_devsw x) (kn_cons x) (kn_uart x) (kn_disk x) (kn_ticks x) (kn_first x) (kn_panicked x).
Definition set_kn_pipes (v : Z → pipe) (x : kernel) : kernel :=
  mkKernel (kn_fs x) (kn_procs x) (kn_cpus x) (kn_nextpid x) (kn_initproc x) (kn_files x) v (kn_devsw x) (kn_cons x) (kn_uart x) (kn_disk x) (kn_ticks x) (kn_first x) (kn_panicked x).
Definition set_kn_devsw (v : Z → bool) (x : kernel) : kernel :=
  mkKernel (kn_fs x) (kn_procs x) (kn_cpus x) (kn_nextpid x) (kn_initproc x) (kn_files x) (kn_pipes x) v (kn_cons x) (kn_uart x) (kn_disk x) (kn_ticks x) (kn_first x) (kn_panicked x).
Definition set_kn_cons (v : cons) (x : kernel) : kernel :=
  mkKernel (kn_fs x) (kn_procs x) (kn_cpus x) (kn_nextpid x) (kn_initproc x) (kn_files x) (kn_pipes x) (kn_devsw x) v (kn_uart x) (kn_disk x) (kn_ticks x) (kn_first x) (kn_panicked x).
Definition set_kn_uart (v : uart) (x : kernel) : kernel :=
  mkKernel (kn_fs x) (kn_procs x) (kn_cpus x) (kn_nextpid x) (kn_initproc x) (kn_files x) (kn_pipes x) (kn_devsw x) (kn_cons x) v (kn_disk x) (kn_ticks x) (kn_first x) (kn_panicked x).
Definition set_kn_disk (v : disk) (x : kernel) : kernel :=
  mkKernel (kn_fs x) (kn_procs x) (kn_cpus x) (kn_nextpid x) (kn_initproc x) (kn_files x) (kn_pipes x) (kn_devsw x) (kn_cons x) (kn_uart x) v (kn_ticks x) (kn_first x) (kn_panicked x).
Definition set_kn_ticks (v : Z) (x : kernel) : kernel :=
  mkKernel (kn_fs x) (kn_procs x) (kn_cpus x) (kn_nextpid x) (kn_initproc x) (kn_files x) (kn_pipes x) (kn_devsw x) (kn_cons x) (kn_uart x) (kn_disk x) v (kn_first x) (kn_panicked x).
Definition set_kn_first (v : bool) (x : kernel) : kernel :=
  mkKernel (kn_fs x) (kn_procs x) (kn_cpus x) (kn_nextpid x) (kn_initproc x) (kn_files x) (kn_pipes x) (kn_devsw x) (kn_cons x) (kn_uart x) (kn_disk x) (kn_ticks x) v (kn_panicked x).
Definition set_kn_panicked (v : bool) (x : kernel) : kernel :=
  mkKernel (kn_fs x) (kn_procs x) (kn_cpus x) (kn_nextpid x) (kn_initproc x) (kn_files x) (kn_pipes x) (kn_devsw x) (kn_cons x) (kn_uart x) (kn_disk x) (kn_ticks x) (kn_first x) v.

Abbreviation XM := (M kernel).

Definition in_fs {A} (m : FM A) : XM A := zoom kn_fs set_kn_fs m.
Definition in_km {A} (m : KM A) : XM A := in_fs (in_mem m).
Definition in_log {A} (m : LM A) : XM A := in_fs (in_ls m).
Definition in_uart {A} (m : M uart A) : XM A := zoom kn_uart set_kn_uart m.

Definition rd_proc {A} (p : nat) (f : proc → A) : XM A := gets (λ s, f (kn_procs s p)).
Definition upd_proc (p : nat) (f : proc → proc) : XM unit :=
  modify (λ s, set_kn_procs (<[p := f (kn_procs s p)]> (kn_procs s)) s).
Definition rd_file {A} (i : nat) (f : file → A) : XM A := gets (λ s, f (kn_files s i)).
Definition upd_file (i : nat) (f : file → file) : XM unit :=
  modify (λ s, set_kn_files (<[i := f (kn_files s i)]> (kn_files s)) s).
Definition rd_pipe {A} (pi : Z) (f : pipe → A) : XM A := gets (λ s, f (kn_pipes s pi)).
Definition upd_pipe (pi : Z) (f : pipe → pipe) : XM unit :=
  modify (λ s, set_kn_pipes (<[pi := f (kn_pipes s pi)]> (kn_pipes s)) s).
Definition upd_cons (f : cons → cons) : XM unit := modify (λ s, set_kn_cons (f (kn_cons s)) s).
Definition upd_disk (f : disk → disk) : XM unit := modify (λ s, set_kn_disk (f (kn_disk s)) s).
Definition kmemory (s : kernel) : memory := k_mem (fs_km (kn_fs s)).
Definition rd_mem {A} (f : memory → A) : XM A := gets (λ s, f (kmemory s)).
Definition wr_mem (f : memory → memory) : XM unit := in_km (mem_modify f).

(** [p->trapframe->r] *)
Definition rd_tf (p : nat) (r : Z) : XM Z :=
  tf ← rd_proc p p_trapframe; rd_mem (λ m, ld64 m (tf + r)).
Definition wr_tf (p : nat) (r v : Z) : XM unit :=
  tf ← rd_proc p p_trapframe; wr_mem (λ m, st64 m (tf + r) v).

(** ** Blocking

    Code that may call [sleep()] is cut there: it runs with a lock held until it returns or
    sleeps, and a sleep gives the locals it resumes with. *)
Inductive step (L R : Type) : Type :=
  | Done (r : R)
  | Blocked (l : L).
Arguments Done {L R} r.
Arguments Blocked {L R} l.

(** Run to completion; to sleep is an outcome of its own. *)
Definition blocking {L R} (m : XM (step L R)) : XM R :=
  r ← m; match r with Done v => mret v | Blocked _ => sleeps end.
