(* ===== verification/Pres.v ===== *)
(** * Pres: what every run of a piece of code relates

    [pres R m]: each run of [m] that returns goes from a state to one related by [R].  For a
    preorder [R] it is compositional, so that a frame property of a whole system call follows
    from those of the operations it is made of; the tactic [pres] follows the code. *)

From S2P Require Import Prelude Mem Layout Kalloc Vm FsFormat Bio Log Fs Kern.

Local Open Scope Z_scope.

Definition pres {S A} (R : S → S → Prop) (m : M S A) : Prop := ∀ s a s', m s = Ok (a, s') → R s s'.

(** An invariant as a preorder. *)
Definition keeps {S} (I : S → Prop) (s s' : S) : Prop := I s → I s'.
#[export] Instance keeps_preorder {S} (I : S → Prop) : PreOrder (keeps I).
Proof. split; unfold keeps; [by intros s | intros s1 s2 s3; auto]. Qed.

Create HintDb pres.

Section pres.
  Context {S : Type} (R : S → S → Prop) `{!PreOrder R}.

Lemma pres_ret {A} (a : A) : pres R (mret a).
Proof. intros s a' s' [= <- <-]. done. Qed.
Lemma pres_bind {A B} (m : M S A) (f : A → M S B) : pres R m → (∀ a, pres R (f a)) → pres R (m ≫= f).
Proof. intros Hm Hf s b s' (a & s1 & R1 & R2)%bind_ok_inv. etransitivity; [by eapply Hm | by eapply Hf]. Qed.
Lemma pres_gets {A} (f : S → A) : pres R (gets f).
Proof. intros s a s' [= <- <-]. done. Qed.
Lemma pres_modify f : (∀ s, R s (f s)) → pres R (modify f).
Proof. intros Hf s a s' [= <- <-]. apply Hf. Qed.
Lemma pres_panic {A} msg : pres R (panic (A := A) msg).
Proof. by intros s a s'. Qed.
Lemma pres_sleeps {A} : pres R (sleeps (A := A)).
Proof. by intros s a s'. Qed.
Lemma pres_out_of_fuel {A} : pres R (out_of_fuel (A := A)).
Proof. by intros s a s'. Qed.
End pres.

#[export] Hint Resolve pres_ret pres_gets pres_panic pres_sleeps pres_out_of_fuel : pres.

(** Follow the code: sequence, branch, leaf. *)
Ltac pres_step :=
  match goal with
  | |- pres _ (_ ≫= _) => apply pres_bind; [exact _ | | intros ?]
  | |- pres _ (if ?b then _ else _) => destruct b
  | |- pres _ (match ?x with _ => _ end) => destruct x
  | |- pres _ (let _ := _ in _) => cbv zeta
  | |- pres _ _ => solve [eauto with pres typeclass_instances]
  end.
Ltac pres := repeat pres_step.

Lemma pres_blocking {R : kernel → kernel → Prop} `{!PreOrder R} {L A} (m : XM (step L A)) : pres R m → pres R (blocking m).
Proof. intros Hm. unfold blocking. pres. Qed.
#[export] Hint Resolve pres_blocking : pres.
