(* ===== verification/Sched.v ===== *)
(** * Sched: sleeping, waking, killing and scheduling (src/kernel/proc.c)

    The operations on the process table that the rest of the kernel uses.  [cur] is the
    running process, [myproc()]. *)

From stdpp Require Import functions.
From S2P Require Import Prelude Mem Layout Kalloc Vm FsFormat Bio Log Fs Kern.

Local Open Scope Z_scope.

Section sched.
  Context (cur : nat).

(** [for(p = proc; p < &proc[NPROC]; p++) if(p != myproc()) ...] *)
Fixpoint wakeup_loop (k p : nat) (ch : option chan) : XM unit :=
  match k with
  | O => mret tt
  | S k' =>
      (if decide (p ≠ cur) then
         x ← rd_proc p id;
         if bool_decide (p_state x = SLEEPING) && bool_decide (p_chan x = ch)
         then upd_proc p (set_p_state RUNNABLE) else mret tt
       else mret tt);;
      wakeup_loop k' (S p) ch
  end.
(** [None] is a null channel. *)
Definition wakeup_on (ch : option chan) : XM unit := wakeup_loop (Z.to_nat NPROC) 0 ch.
Definition wakeup (ch : chan) : XM unit := wakeup_on (Some ch).

(** [sleep(chan, lk)] up to the switch to the scheduler, and from there on. *)
Definition sleep_enter (ch : chan) : XM unit :=
  upd_proc cur (λ x, set_p_state SLEEPING (set_p_chan (Some ch) x)).
Definition sleep_exit : XM unit := upd_proc cur (set_p_chan None).

(** What [sched()] demands of the state of its caller. *)
Definition sched_check : XM unit :=
  st ← rd_proc cur p_state;
  if bool_decide (st = RUNNING) then panic "sched running" else mret tt.

(** [yield()] up to the switch. *)
Definition yield : XM unit := upd_proc cur (set_p_state RUNNABLE);; sched_check.

Fixpoint kill_loop (k p : nat) (pid : Z) : XM Z :=
  match k with
  | O => mret err
  | S k' =>
      x ← rd_proc p id;
      if p_pid x =? pid then
        upd_proc p (set_p_killed 1);;
        (if bool_decide (p_state x = SLEEPING) then upd_proc p (set_p_state RUNNABLE) else mret tt);;
        mret 0
      else kill_loop k' (S p) pid
  end.
Definition kill (pid : Z) : XM Z := kill_loop (Z.to_nat NPROC) 0 pid.

Definition setkilled (p : nat) : XM unit := upd_proc p (set_p_killed 1).
Definition killed (p : nat) : XM Z := rd_proc p p_killed.

Fixpoint count_active_loop (k p : nat) (count : Z) : XM Z :=
  match k with
  | O => mret count
  | S k' =>
      st ← rd_proc p p_state;
      count_active_loop k' (S p) (if negb (bool_decide (st = UNUSED)) then u64 (count + 1) else count)
  end.
Definition count_active_processes : XM Z := count_active_loop (Z.to_nat NPROC) 0 0.

Fixpoint procinit_loop (k p : nat) : XM unit :=
  match k with
  | O => mret tt
  | S k' =>
      upd_proc p (λ x, set_p_kstack (KSTACK (Z.of_nat p)) (set_p_state UNUSED x));;
      procinit_loop k' (S p)
  end.
Definition procinit : XM unit := procinit_loop (Z.to_nat NPROC) 0.

Definition allocpid : XM Z :=
  pid ← gets kn_nextpid;
  modify (set_kn_nextpid (i32 (pid + 1)));;
  mret pid.

End sched.

(** One pass of [scheduler()] over the table, on cpu [c].  [run p] stands for what process
    [p] does between the two switches; [found] as in the code. *)
Section scheduler.
  Context (c : nat) (run : nat → XM unit).

Fixpoint scheduler_pass (k p : nat) (found : bool) : XM bool :=
  match k with
  | O => mret found
  | S k' =>
      st ← rd_proc p p_state;
      if bool_decide (st = RUNNABLE) then
        upd_proc p (set_p_state RUNNING);;
        modify (λ s, set_kn_cpus (<[c := Some p]> (kn_cpus s)) s);;
        run p;;
        modify (λ s, set_kn_cpus (<[c := None]> (kn_cpus s)) s);;
        scheduler_pass k' (S p) true
      else scheduler_pass k' (S p) found
  end.

(** [for(;;)]: [n] passes; each one that found nothing waits for an interrupt, in which
    [wfi] stands for what the handlers do. *)
Fixpoint scheduler_loop (n : nat) (wfi : XM unit) : XM unit :=
  match n with
  | O => mret tt
  | S n' =>
      found ← scheduler_pass (Z.to_nat NPROC) 0 false;
      (if found : bool then mret tt else wfi);;
      scheduler_loop n' wfi
  end.
Definition scheduler (n : nat) (wfi : XM unit) : XM unit :=
  modify (λ s, set_kn_cpus (<[c := None]> (kn_cpus s)) s);;
  scheduler_loop n wfi.
End scheduler.

(** ** Lemmas *)

(** The kernel with other memory. *)
Definition set_km (km : kmem) (s : kernel) : kernel :=
  set_kn_fs (mkFsys (fs_ls (kn_fs s)) (fs_sb (kn_fs s)) (itable (kn_fs s)) km) s.

Lemma in_km_run {A} (m : KM A) s a km :
  m (fs_km (kn_fs s)) = Ok (a, km) → in_km m s = Ok (a, set_km km s).
Proof. unfold in_km, in_fs, in_mem, zoom. by intros ->. Qed.

Lemma bind_rd_proc {A B} p (g : proc → A) (f : A → XM B) s : (rd_proc p g ≫= f) s = f (g (kn_procs s p)) s.
Proof. done. Qed.
Lemma bind_upd_proc {B} p g (f : unit → XM B) s :
  (upd_proc p g ≫= f) s = f tt (set_kn_procs (<[p := g (kn_procs s p)]> (kn_procs s)) s).
Proof. done. Qed.
Lemma bind_rd_mem {A B} (g : memory → A) (f : A → XM B) s : (rd_mem g ≫= f) s = f (g (kmemory s)) s.
Proof. done. Qed.
Lemma bind_wr_mem {B} g (f : unit → XM B) s :
  (wr_mem g ≫= f) s = f tt (set_km (mkKmem (g (kmemory s)) (k_freelist (fs_km (kn_fs s)))) s).
Proof. done. Qed.
#[export] Hint Rewrite @bind_rd_proc @bind_upd_proc @bind_rd_mem @bind_wr_mem : xv6_monad.

(** Process [p] after [wakeup(ch)] by [cur]. *)
Definition woken (cur : nat) (ch : option chan) (p : nat) (x : proc) : proc :=
  if decide (p ≠ cur ∧ p_state x = SLEEPING ∧ p_chan x = ch) then set_p_state RUNNABLE x else x.

Lemma wakeup_loop_ok cur ch k : ∀ p s,
  ∃ f, wakeup_loop cur k p ch s = Ok (tt, set_kn_procs f s) ∧
    ∀ q, f q = if decide (p ≤ q < p + k)%nat then woken cur ch q (kn_procs s q) else kn_procs s q.
Proof.
  induction k as [|k IH]; intros p s; cbn [wakeup_loop].
  { exists (kn_procs s). split; [by destruct s|]. intros q. by rewrite decide_False by lia. }
  set (x := kn_procs s p).
  assert (Hhd : ∃ g, (if decide (p ≠ cur) then x0 ← rd_proc p id;
      if bool_decide (p_state x0 = SLEEPING) && bool_decide (p_chan x0 = ch)
      then upd_proc p (set_p_state RUNNABLE) else mret tt else mret tt) s = Ok (tt, set_kn_procs g s) ∧
    ∀ q, g q = if decide (q = p) then woken cur ch p x else kn_procs s q).
  { unfold woken. destruct (decide (p ≠ cur)) as [Hne|Heq].
    - rewrite bind_rd_proc. fold x. unfold id. destruct (bool_decide_reflect (p_state x = SLEEPING)), (bool_decide_reflect (p_chan x = ch)); cbn [andb].
      1:{ eexists. split; [done|]. intros q. rewrite (decide_True (P := _ ∧ _)) by done.
        destruct (decide (q = p)) as [->|]; [by rewrite fn_lookup_insert | by rewrite fn_lookup_insert_ne]. }
      all: exists (kn_procs s); (split; [by destruct s|]); intros q; rewrite (decide_False (P := _ ∧ _)) by tauto;
        destruct (decide (q = p)) as [->|]; done.
    - exists (kn_procs s). split; [by destruct s|]. intros q. rewrite (decide_False (P := _ ∧ _)) by tauto.
      by destruct (decide (q = p)) as [->|]. }
  destruct Hhd as (g & R & Hg). rewrite (bind_ok _ _ _ _ _ R).
  destruct (IH (S p) (set_kn_procs g s)) as (f & R2 & Hf). exists f. split; [exact R2|].
  intros q. rewrite Hf. cbn [kn_procs set_kn_procs]. rewrite Hg.
  destruct (decide (q = p)) as [->|]; [rewrite decide_False, decide_True by lia; done|].
  destruct (decide (S p ≤ q < S p + k)%nat); [by rewrite decide_True by lia | by rewrite decide_False by lia].
Qed.

Lemma wakeup_ok cur ch s :
  ∃ f, wakeup_on cur ch s = Ok (tt, set_kn_procs f s) ∧
    ∀ q, f q = if decide (q < Z.to_nat NPROC)%nat then woken cur ch q (kn_procs s q) else kn_procs s q.
Proof.
  destruct (wakeup_loop_ok cur ch (Z.to_nat NPROC) 0 s) as (f & R & Hf). exists f. split; [exact R|].
  intros q. rewrite Hf. by destruct (decide (q < _)%nat); [rewrite decide_True by lia | rewrite decide_False by lia].
Qed.

(** [wakeup] leaves the caller as it is. *)
Lemma wakeup_cur cur ch s :
  ∃ f, wakeup_on cur ch s = Ok (tt, set_kn_procs f s) ∧ f cur = kn_procs s cur ∧
    ∀ q, f q = kn_procs s q ∨ f q = set_p_state RUNNABLE (kn_procs s q).
Proof.
  destruct (wakeup_ok cur ch s) as (f & R & Hf). exists f. split_and!; [exact R | |].
  - rewrite Hf. unfold woken. rewrite (decide_False (P := _ ∧ _)) by tauto. by destruct (decide _).
  - intros q. rewrite Hf. unfold woken. repeat destruct (decide _); auto.
Qed.
