(* ===== verification/UserByte.v ===== *)
(** * UserByte: a byte between a process and a local variable of the kernel

    [pipewrite], [piperead], [consolewrite] and [consoleread] move one byte at a time through
    a [char] on the kernel stack, with [copyin] and [copyout] of src/kernel/vm.c. *)

From stdpp Require Import functions.
From S2P Require Import Prelude Mem Layout Kalloc Vm VmTable VmUser VmCopy FsFormat Bio Log Fs Kern Sched.

Local Open Scope Z_scope.

Section byte.
  Context {K : KernelImage} {KOk : KernelImageOk K}.
  Context (kaddr : slot → Z) (pt : Z) (T : gmap Z nat).

(** The caller's address space, and its local byte in kernel memory. *)
Definition benv (m : memory) : Prop := user_space m pt T ∧ kernel_byte m pt T (kaddr SChar).

(** The bytes of the caller at [a]. *)
Definition user_bytes (m : memory) (a : Z) (l : list Z) : Prop :=
  ∀ j c, l !! j = Some c → user_ld m pt (a + Z.of_nat j) = Some c.

(** A byte of the caller's, into the local variable. *)
Lemma fetch_local a s :
  benv (kmemory s) → 0 ≤ a < 2 ^ 64 →
  ∃ r km, in_km (copyin pt (kaddr SChar) (u64 a) 1) s = Ok (r, set_km km s) ∧ benv (k_mem km) ∧ k_freelist km = k_freelist (fs_km (kn_fs s)) ∧
    (∀ va, 0 ≤ va → user_ld (k_mem km) pt va = user_ld (kmemory s) pt va) ∧
    ((r = 0 ∧ user_ld (kmemory s) pt a = Some (ld8 (k_mem km) (kaddr SChar))) ∨
     (r = err ∧ user_ld (kmemory s) pt a = None)).
Proof.
  intros [Hu Hk] Ha. rewrite u64_small by done. unfold copyin.
  destruct (copyin_loop_ok pt T (copy_fuel 1) (fs_km (kn_fs s)) (kaddr SChar) a 1) as (r & km' & R & Hfl & Hout & Hres);
    [done | lia | | apply copy_fuel_enough; lia | unfold copy_fuel; lia |].
  { intros b Hb. by replace b with (kaddr SChar) by lia. }
  assert (Hsame : ∀ b, ¬ kernel_byte (kmemory s) pt T b → ld8 (k_mem km') b = ld8 (kmemory s) b).
  { intros b Hb. apply Hout. apply dec_stable. intros Hin. apply Hb. by replace b with (kaddr SChar) by lia. }
  assert (Hs : same_tables T (kmemory s) (k_mem km')).
  { intros p b Hp' Hb. apply Hsame. intros [Hk' _]. by apply Hk' in Hp'. }
  exists r, km'. split_and!; [by apply in_km_run | | done | |].
  - split; [by eapply same_user_space | eapply same_kernel_byte; [done | apply Hu | done]].
  - intros va Hva. eapply user_ld_kernel; [apply Hu | done..].
  - destruct Hres as [[-> Hin]|[-> (i & Hi & Hn)]]; [left | right]; (split; [done|]).
    + specialize (Hin 0 ltac:(lia)). rewrite !Z.add_0_r in Hin. exact Hin.
    + replace i with 0 in Hn by lia. rewrite Z.add_0_r in Hn. unfold user_ld, kmemory. by rewrite Hn.
Qed.

(** A byte from the local variable to the caller. *)
Lemma store_local a c s :
  benv (kmemory s) → 0 ≤ a < 2 ^ 64 → 0 ≤ c < 256 →
  let s0 := set_km (mkKmem (st8 (kmemory s) (kaddr SChar) c) (k_freelist (fs_km (kn_fs s)))) s in
  ∃ r km, in_km (copyout pt (u64 a) (kaddr SChar) 1) s0 = Ok (r, set_km km s) ∧ benv (k_mem km) ∧ k_freelist km = k_freelist (fs_km (kn_fs s)) ∧
    (∀ va, 0 ≤ va → va ≠ a → user_ld (k_mem km) pt va = user_ld (kmemory s) pt va) ∧
    (∀ va, user_writable (k_mem km) pt va = user_writable (kmemory s) pt va) ∧
    ((r = 0 ∧ user_writable (kmemory s) pt a = true ∧ user_ld (k_mem km) pt a = Some c) ∨
     (r = err ∧ user_writable (kmemory s) pt a = false)).
Proof.
  intros [Hu Hk] Ha Hc s0. rewrite u64_small by done. unfold copyout.
  set (m0 := st8 (kmemory s) (kaddr SChar) c) in *.
  assert (Hsame : ∀ b, ¬ kernel_byte (kmemory s) pt T b → ld8 m0 b = ld8 (kmemory s) b).
  { intros b Hb. unfold m0. rewrite ld8_st8_ne; [done|]. by intros <-. }
  assert (Hs0 : same_tables T (kmemory s) m0).
  { intros p b Hp' Hb. apply Hsame. intros [Hk' _]. by apply Hk' in Hp'. }
  assert (Hu0 : user_space m0 pt T) by (by eapply same_user_space).
  assert (Hk0 : kernel_byte m0 pt T (kaddr SChar)) by (eapply same_kernel_byte; [done | apply Hu | done]).
  destruct (copyout_loop_ok pt T (copy_fuel 1) (mkKmem m0 (k_freelist (fs_km (kn_fs s)))) a (kaddr SChar) 1)
    as (r & km' & R & Hfl & Hs1 & Hkb & Hout & Hres); [done | lia | | apply copy_fuel_enough; lia | unfold copy_fuel; lia |].
  { intros b Hb. by replace b with (kaddr SChar) by lia. }
  cbn [k_mem k_freelist] in *.
  exists r, km'. split_and!; [change (set_km km' s) with (set_km km' s0); by apply in_km_run | | done | | |].
  - split; [by eapply same_user_space | eapply same_kernel_byte; [exact Hs1 | apply Hu0 | done]].
  - intros va Hva Hne. rewrite Hout by lia. eapply user_ld_kernel; [apply Hu | done..].
  - intros va. rewrite (same_user_writable T m0) by (done || apply Hu0).
    by rewrite (same_user_writable T (kmemory s)) by (done || apply Hu).
  - destruct Hres as [[-> Hin]|[-> (i & Hi & Hn)]]; [left | right]; (split; [done|]).
    + destruct (Hin 0 ltac:(lia)) as [Hw Hl]. rewrite !Z.add_0_r in Hw, Hl. rewrite Hl. split.
      * by rewrite (same_user_writable T (kmemory s)) in Hw by (done || apply Hu).
      * f_equal. rewrite Z.add_0_r. unfold m0. rewrite ld8_st8_eq. by apply u8_small.
    + replace i with 0 in Hn by lia. rewrite Z.add_0_r in Hn. by rewrite (same_user_writable T (kmemory s)) in Hn by (done || apply Hu).
Qed.
End byte.
