(* ===== verification/Printf.v ===== *)
(** * Printf: UART output and kernel printf (src/kernel/uart.c, src/kernel/printf.c)

    The UART driver, [consputc] of src/kernel/console.c, and the formatted output built on
    it.  Characters are bytes; strings are lists of them without the NUL. *)

From stdpp Require Import functions.
From S2P Require Import Prelude Mem Layout Kalloc Vm FsFormat Bio Log Fs Kern Sched.

Local Open Scope Z_scope.

(** ** UART registers *)

Definition RHR : Z := 0.
Definition THR : Z := 0.
Definition IER : Z := 1.
Definition IER_RX_ENABLE : Z := Z.shiftl 1 0.
Definition IER_TX_ENABLE : Z := Z.shiftl 1 1.
Definition FCR : Z := 2.
Definition FCR_FIFO_ENABLE : Z := Z.shiftl 1 0.
Definition FCR_FIFO_CLEAR : Z := Z.shiftl 3 1.
Definition LCR : Z := 3.
Definition LCR_EIGHT_BITS : Z := Z.shiftl 3 0.
Definition LCR_BAUD_LATCH : Z := Z.shiftl 1 7.
Definition LSR_RX_READY : Z := Z.shiftl 1 0.
Definition LSR_TX_IDLE : Z := Z.shiftl 1 5.

(** The device: a read of LSR, of RHR, and a write of a control register or of THR. *)
Definition read_LSR : M uart Z :=
  u ← get;
  put (set_u_busy (pred (u_busy u)) u);;
  mret (Z.lor (if bool_decide (u_rx u = []) then 0 else LSR_RX_READY)
              (if (u_busy u =? 0)%nat then LSR_TX_IDLE else 0)).
Definition read_RHR : M uart Z :=
  u ← get;
  match u_rx u with
  | [] => mret 0
  | c :: l => put (set_u_rx l u);; mret c
  end.
Definition write_reg (r v : Z) : M uart unit := modify (λ u, set_u_regs (<[r := v]> (u_regs u)) u).
Definition write_THR (c : Z) : M uart unit :=
  modify (λ u, set_u_busy (u_delay u (S (length (u_sent u)))) (set_u_sent (u_sent u ++ [u8 c]) u)).

Definition uartinit : M uart unit :=
  write_reg IER 0x00;;
  write_reg LCR LCR_BAUD_LATCH;;
  write_reg 0 0x03;;
  write_reg 1 0x00;;
  write_reg LCR LCR_EIGHT_BITS;;
  write_reg FCR (Z.lor FCR_FIFO_ENABLE FCR_FIFO_CLEAR);;
  write_reg IER (Z.lor IER_TX_ENABLE IER_RX_ENABLE).

(** [while((ReadReg(LSR) & LSR_TX_IDLE) == 0);] *)
Fixpoint wait_idle (fuel : nat) : M uart unit :=
  match fuel with
  | O => out_of_fuel
  | S f =>
      l ← read_LSR;
      if Z.land l LSR_TX_IDLE =? 0 then wait_idle f else mret tt
  end.

(** [if(panicked) for(;;);]: the machine is frozen. *)
Definition check_panicked : XM unit :=
  p ← gets kn_panicked; if p : bool then panic "panicked" else mret tt.

Definition uartputc_sync (c : Z) : XM unit :=
  check_panicked;;
  b ← gets (λ s, u_busy (kn_uart s));
  in_uart (wait_idle (S b));;
  in_uart (write_THR c).

Definition uartgetc : M uart Z :=
  l ← read_LSR;
  if negb (Z.land l 0x01 =? 0) then read_RHR else mret (-1).

Section output.
  Context (cur : nat).

(** [while(1)] of [uartstart]: at most one iteration per byte in the buffer. *)
Fixpoint uartstart_loop (fuel : nat) : XM unit :=
  match fuel with
  | O => out_of_fuel
  | S f =>
      u ← gets kn_uart;
      if u_tx_w u =? u_tx_r u then mret tt
      else
        l ← in_uart read_LSR;
        if Z.land l LSR_TX_IDLE =? 0 then mret tt
        else
          let c := u_tx_buf u (u_tx_r u mod UART_TX_BUF_SIZE) in
          in_uart (modify (λ x, set_u_tx_r (u64 (u_tx_r x + 1)) x));;
          wakeup cur ChUart;;
          in_uart (write_THR c);;
          uartstart_loop f
  end.
Definition uartstart : XM unit :=
  n ← gets (λ s, u64 (u_tx_w (kn_uart s) - u_tx_r (kn_uart s)));
  uartstart_loop (S (Z.to_nat n)).

(** [uartputc(c)] from when it holds the lock. *)
Definition uartputc (c : Z) : XM (step unit unit) :=
  check_panicked;;
  u ← gets kn_uart;
  if u_tx_w u =? u64 (u_tx_r u + UART_TX_BUF_SIZE) then
    sleep_enter cur ChUart;; mret (Blocked tt)
  else
    in_uart (modify (λ x, set_u_tx_buf (<[u_tx_w x mod UART_TX_BUF_SIZE := u8 c]> (u_tx_buf x)) x));;
    in_uart (modify (λ x, set_u_tx_w (u64 (u_tx_w x + 1)) x));;
    uartstart;;
    mret (Done tt).

End output.

(** ** consputc *)

Definition BACKSPACE : Z := 0x100.

Definition consputc (c : Z) : XM unit :=
  if c =? BACKSPACE then
    uartputc_sync 8;; uartputc_sync 32;; uartputc_sync 8
  else uartputc_sync c.

Fixpoint consputs (l : list Z) : XM unit :=
  match l with
  | [] => mret tt
  | c :: l' => consputc c;; consputs l'
  end.

(** ** Numbers *)

(** [digits[]]: the character of a digit. *)
Definition digits (d : Z) : Z := if d <? 10 then 48 + d else 87 + d.

(** The size of [buf] in [printint]. *)
Definition printint_buf : nat := 16.

(** [do { buf[i++] = digits[x % base]; } while((x /= base) != 0);]  [buf] is what has been
    stored so far, last first.  [None] is a store outside [buf]. *)
Fixpoint printint_loop (fuel : nat) (x base : Z) (buf : list Z) : option (list Z) :=
  match fuel with
  | O => None
  | S f =>
      if (length buf <? printint_buf)%nat then
        let buf' := digits (x mod base) :: buf in
        if x / base =? 0 then Some buf' else printint_loop f (x / base) base buf'
      else None
  end.

(** [printint(xx, base, sign)]: the characters it prints. *)
Definition printint (xx base : Z) (sign : bool) : option (list Z) :=
  let neg := sign && (xx <? 0) in
  let x := if neg then u64 (- xx) else u64 xx in
  buf ← printint_loop 64 x base [];
  if neg then if (length buf <? printint_buf)%nat then Some (45 :: buf) else None
  else Some buf.

(** [for (i = 0; i < (sizeof(uint64) * 2); i++, x <<= 4)] of [printptr]. *)
Fixpoint printptr_loop (k : nat) (x : Z) : list Z :=
  match k with
  | O => []
  | S k' => digits (Z.shiftr x 60) :: printptr_loop k' (u64 (Z.shiftl x 4))
  end.
Definition printptr (x : Z) : list Z := 48 :: 120 :: printptr_loop 16 x.

(** ** Formats *)

(** An argument of [printf]: a machine word, or a string that is not a number. *)
Inductive varg :=
  | AWord (w : Z)
  | AStr (s : option (list Z)).

Definition va_int (ap : list varg) : option (Z * list varg) :=
  match ap with AWord w :: ap' => Some (i32 w, ap') | _ => None end.
Definition va_uint64 (ap : list varg) : option (Z * list varg) :=
  match ap with AWord w :: ap' => Some (u64 w, ap') | _ => None end.
Definition va_str (ap : list varg) : option (list Z * list varg) :=
  match ap with
  | AStr (Some s) :: ap' => Some (s, ap')
  | AStr None :: ap' => Some ([40; 110; 117; 108; 108; 41], ap')   (* "(null)" *)
  | _ => None
  end.

(** One conversion: [c0], [c1], [c2] are the characters after the percent sign; the result
    is what to print, how many of [c1] and [c2] belong to it, and the arguments left.  A
    [long] argument goes to [printint] as [long long]. *)
Definition convert (c0 c1 c2 : Z) (ap : list varg) : option (list Z * nat * list varg) :=
  let int64 base sign skip :=
    '(w, ap') ← va_uint64 ap; l ← printint (i64 w) base sign; Some (l, skip, ap') in
  let int32 base sign :=
    '(w, ap') ← va_int ap; l ← printint w base sign; Some (l, 0%nat, ap') in
  if c0 =? 100 then int32 10 true                                            (* d *)
  else if (c0 =? 108) && (c1 =? 100) then int64 10 true 1%nat                (* ld *)
  else if (c0 =? 108) && (c1 =? 108) && (c2 =? 100) then int64 10 true 2%nat (* lld *)
  else if c0 =? 117 then int32 10 false                                      (* u *)
  else if (c0 =? 108) && (c1 =? 117) then int64 10 false 1%nat               (* lu *)
  else if (c0 =? 108) && (c1 =? 108) && (c2 =? 117) then int64 10 false 2%nat
  else if c0 =? 120 then int32 16 false                                      (* x *)
  else if (c0 =? 108) && (c1 =? 120) then int64 16 false 1%nat               (* lx *)
  else if (c0 =? 108) && (c1 =? 108) && (c2 =? 120) then int64 16 false 2%nat
  else if c0 =? 112 then '(w, ap') ← va_uint64 ap; Some (printptr w, 0%nat, ap')   (* p *)
  else if c0 =? 115 then '(s, ap') ← va_str ap; Some (s, 0%nat, ap')               (* s *)
  else if c0 =? 37 then Some ([37], 0%nat, ap)
  else Some ([37; c0], 0%nat, ap).

(** The loop over [fmt]: what is printed, [None] when an argument is missing or of the
    wrong kind, or [printint] leaves its buffer. *)
Fixpoint format (fuel : nat) (fmt : list Z) (ap : list varg) : option (list Z) :=
  match fuel with
  | O => None
  | S f =>
      match fmt with
      | [] => Some []
      | cx :: r =>
          if negb (cx =? 37) then l ← format f r ap; Some (cx :: l)
          else
            match r with
            | [] => Some []
            | c0 :: r0 =>
                let c1 := default 0 (r0 !! 0%nat) in
                let c2 := if c1 =? 0 then 0 else default 0 (r0 !! 1%nat) in
                '(l, skip, ap') ← convert c0 c1 c2 ap;
                l' ← format f (drop skip r0) ap';
                Some (l ++ l')
            end
      end
  end.

(** The characters of a string constant. *)
Definition chars (s : string) : list Z := (λ a, Z.of_nat (Ascii.nat_of_ascii a)) <$> String.list_ascii_of_string s.
Definition nl : Z := 10.

(** [printf(fmt, ...)] *)
Definition printf (fmt : list Z) (ap : list varg) : XM unit :=
  match format (S (length fmt)) fmt ap with
  | Some l => consputs l
  | None => panic "undefined behaviour"
  end.
