(* ===== verification/PrintfSpec.v ===== *)
(** * PrintfSpec: the numbers printf prints (src/kernel/printf.c)

    [printint] prints the number it is given, and stays within its 16-byte buffer exactly
    when the number, with its sign, has at most 16 characters. *)

From S2P Require Import Prelude Mem Layout Kalloc Vm FsFormat Bio Log Fs Kern Sched Printf.

Local Open Scope Z_scope.

(** The value of a digit character and of a string of digits. *)
Definition digit_val (c : Z) : Z := if c <? 58 then c - 48 else c - 87.
Definition digits_val (base : Z) (l : list Z) : Z := foldl (λ a c, a * base + digit_val c) 0 l.

Lemma digit_val_digits d : 0 ≤ d < 16 → digit_val (digits d) = d.
Proof. intros Hd. unfold digit_val, digits. destruct (Z.ltb_spec d 10), (Z.ltb_spec (48 + d) 58), (Z.ltb_spec (87 + d) 58); lia. Qed.

Lemma digits_val_from base l : ∀ a, foldl (λ a c, a * base + digit_val c) a l = a * base ^ Z.of_nat (length l) + digits_val base l.
Proof.
  unfold digits_val. induction l as [|c l IH]; intros a; cbn [foldl length]; [rewrite Z.pow_0_r; lia|].
  rewrite IH, (IH (0 * base + digit_val c)), Nat2Z.inj_succ, Z.pow_succ_r by lia. ring.
Qed.

(** [l] are the digits of [x]: as many as it takes. *)
Definition digits_of (base x : Z) (l : list Z) : Prop :=
  digits_val base l = x ∧ ∀ m, (1 ≤ m)%nat → x < base ^ Z.of_nat m ↔ (length l ≤ m)%nat.

Section base.
  Context (base : Z) (Hbase : 2 ≤ base ≤ 16).

Lemma digits_of_one x : 0 ≤ x < base → digits_of base x [digits x].
Proof.
  intros Hx. split; [unfold digits_val; cbn; rewrite digit_val_digits by lia; lia|].
  intros m Hm. cbn. split; [lia|]. intros _. replace (Z.of_nat m) with (Z.succ (Z.of_nat (m - 1))) by lia.
  rewrite Z.pow_succ_r by lia. pose proof (Z.pow_pos_nonneg base (Z.of_nat (m - 1))). nia.
Qed.
Lemma digits_of_snoc x l : base ≤ x → digits_of base (x / base) l → digits_of base x (l ++ [digits (x mod base)]).
Proof.
  intros Hx [Hv Hl]. pose proof (Z.div_mod x base ltac:(lia)) as E. pose proof (Z.mod_pos_bound x base ltac:(lia)). split.
  - unfold digits_val in *. rewrite foldl_app, Hv. cbn. rewrite digit_val_digits by lia. lia.
  - intros m Hm. rewrite length_app. cbn [length]. destruct (decide (m = 1%nat)) as [->|].
    + change (Z.of_nat 1) with 1. rewrite Z.pow_1_r. split; [lia|]. intros ?. assert (E0 : length l = 0%nat) by lia. destruct l; [|done].
      cbn in Hv. unfold digits_val in Hv. cbn in Hv. nia.
    + assert (H1 : x < base ^ Z.of_nat m ↔ x / base < base ^ Z.of_nat (m - 1)).
      { replace (Z.of_nat m) with (Z.succ (Z.of_nat (m - 1))) by lia. rewrite Z.pow_succ_r by lia. split; intros.
        - apply Z.div_lt_upper_bound; lia.
        - nia. }
      rewrite H1, Hl by lia. lia.
Qed.

(** The loop stores the digits of [x] in front of [buf], in which [r] bytes are free, or
    leaves the buffer when there are too many. *)
Lemma printint_loop_spec r : ∀ fuel x buf, 0 ≤ x → (r < fuel)%nat → (length buf + r)%nat = printint_buf →
  ((1 ≤ r)%nat → x < base ^ Z.of_nat r → ∃ l, printint_loop fuel x base buf = Some (l ++ buf) ∧ digits_of base x l) ∧
  (r = 0%nat ∨ base ^ Z.of_nat r ≤ x → printint_loop fuel x base buf = None).
Proof.
  induction r as [|r IH]; intros fuel x buf Hx Hf Hb; (destruct fuel as [|fuel]; [lia|]); cbn [printint_loop].
  { split; [lia|]. intros _. destruct (Nat.ltb_spec (length buf) printint_buf); [lia | done]. }
  destruct (Nat.ltb_spec (length buf) printint_buf); [|lia]. cbv zeta.
  pose proof (Z.div_mod x base ltac:(lia)) as E. pose proof (Z.mod_pos_bound x base ltac:(lia)).
  assert (Hp : base ^ Z.of_nat (S r) = base * base ^ Z.of_nat r) by (rewrite Nat2Z.inj_succ; apply Z.pow_succ_r; lia).
  pose proof (Z.pow_pos_nonneg base (Z.of_nat r) ltac:(lia) ltac:(lia)) as Hpos.
  destruct (Z.eqb_spec (x / base) 0) as [E0|E0].
  - assert (x < base) by nia. split; [|intros [?|?]; [lia | nia]]. intros _ _. exists [digits (x mod base)]. split; [done|].
    rewrite Z.mod_small by lia. apply digits_of_one. lia.
  - assert (base ≤ x) by nia. destruct (IH fuel (x / base) (digits (x mod base) :: buf)) as [IH1 IH2]; [nia | lia | cbn [length]; lia|]. split.
    + intros _ Hlt. destruct (decide (r = 0%nat)) as [->|]; [change (Z.of_nat 0) with 0 in Hp; rewrite Z.pow_0_r in Hp; nia|].
      destruct IH1 as (l & R & Hl); [lia | apply Z.div_lt_upper_bound; lia|]. exists (l ++ [digits (x mod base)]).
      split; [rewrite R; by rewrite <- app_assoc | by apply digits_of_snoc].
    + intros [?|?]; [lia|]. apply IH2. destruct (decide (r = 0%nat)); [by left | right]. apply Z.div_le_lower_bound; lia.
Qed.
End base.

(** The number [printint] prints, without its sign. *)
Definition magnitude (xx : Z) (sign : bool) : Z := if sign && (xx <? 0) then - xx else u64 xx.

(** [printint] prints the digits of its argument, after a minus sign when it is signed and
    negative, exactly when they fit the 16 bytes of [buf]; a longer number is stored outside
    of it. *)
Theorem printint_spec xx base sign :
  2 ≤ base ≤ 16 → - 2 ^ 63 ≤ xx < 2 ^ 63 →
  let neg := sign && (xx <? 0) in
  if decide (magnitude xx sign < base ^ (if neg then 15 else 16))
  then ∃ l, printint xx base sign = Some (if neg then 45 :: l else l) ∧ digits_of base (magnitude xx sign) l
  else printint xx base sign = None.
Proof.
  intros Hb Hxx neg.
  assert (Hm : 0 ≤ magnitude xx sign) by (unfold magnitude; fold neg; destruct neg eqn:En; [subst neg; lia | apply u64_range]).
  unfold printint. fold neg.
  assert (Ex : (if neg then u64 (- xx) else u64 xx) = magnitude xx sign).
  { unfold magnitude. fold neg. destruct neg eqn:En; [|done]. subst neg. apply andb_true_iff in En as [_ En]. apply u64_small. lia. }
  rewrite Ex. destruct (printint_loop_spec base Hb 16 64 (magnitude xx sign) [] Hm ltac:(lia) eq_refl) as [H1 H2]. cbv zeta.
  change (Z.of_nat 16) with 16 in H1, H2. pose proof (Z.pow_lt_mono_r base 15 16 ltac:(lia) ltac:(lia) ltac:(lia)) as Hp.
  destruct (decide (magnitude xx sign < base ^ 16)) as [Hlt|Hge].
  - destruct (H1 ltac:(lia) Hlt) as (l & R & Hl). rewrite R, app_nil_r. cbn [mbind option_bind]. destruct neg.
    + pose proof (proj2 Hl 15%nat ltac:(lia)) as E15. change (Z.of_nat 15) with 15 in E15.
      destruct (decide _) as [H15|H15]; destruct (Nat.ltb_spec (length l) printint_buf) as [Hll|Hll]; unfold printint_buf in Hll; try done; try (exfalso; lia).
      by exists l.
    + rewrite decide_True by done. by exists l.
  - rewrite H2 by lia. rewrite decide_False; [done|]. destruct neg; lia.
Qed.

(** [%ld] of -1000000000000000 needs 17 characters; [%d] never more than 11. *)
Lemma printint_spec_witness : printint (- 10 ^ 15) 10 true = None ∧ ∃ l, printint (- 2 ^ 31) 10 true = Some (45 :: l).
Proof.
  split.
  - pose proof (printint_spec (- 10 ^ 15) 10 true ltac:(lia) ltac:(lia)) as H. exact H.
  - pose proof (printint_spec (- 2 ^ 31) 10 true ltac:(lia) ltac:(lia)) as H. cbv zeta in H.
    rewrite decide_True in H by (vm_compute; reflexivity). destruct H as (l & R & _). exists l. exact R.
Defined.
