(* ===== verification/Console.v ===== *)
(** * Console: line-at-a-time input and output (src/kernel/console.c)

    [consoleintr] edits the current line and commits it, [consoleread] delivers committed
    input, [consolewrite] sends output; with [uartintr] of src/kernel/uart.c, which feeds
    [consoleintr], and [procdump] of src/kernel/proc.c, which Control-P runs. *)

From stdpp Require Import functions.
From S2P Require Import Prelude Mem Layout Kalloc Vm FsFormat Bio Log Fs Kern Sched Printf.
Import CString.

Local Open Scope Z_scope.

(** [C(x)] *)
Definition ctrl (x : Z) : Z := x - 64.
Definition CONSOLE : Z := 1.

Section console.
  Context (cur : nat) (kaddr : slot → Z).

(** [states[]] of [procdump] *)
Definition state_name (st : procstate) : list Z :=
  chars match st with
        | UNUSED => "unused" | USED => "used" | SLEEPING => "sleep "
        | RUNNABLE => "runble" | RUNNING => "run   " | ZOMBIE => "zombie"
        end.

Fixpoint procdump_loop (k p : nat) : XM unit :=
  match k with
  | O => mret tt
  | S k' =>
      x ← rd_proc p id;
      (if bool_decide (p_state x = UNUSED) then mret tt
       else
         name ← rd_mem (λ m, cstr 16 m (kaddr (SProcName p)));
         printf (chars "%d %s %s") [AWord (p_pid x); AStr (Some (state_name (p_state x))); AStr (Some name)];;
         printf [nl] []);;
      procdump_loop k' (S p)
  end.
Definition procdump : XM unit := printf [nl] [];; procdump_loop (Z.to_nat NPROC) 0.

(** [consolewrite(user_src, src, n)]; it blocks when the transmit buffer is full, with the
    byte it holds. *)
Fixpoint consolewrite_loop (fuel : nat) (user_src : bool) (src n i : Z) : XM (step (Z * Z) Z) :=
  match fuel with
  | O => out_of_fuel
  | S f =>
      if i <? n then
        pt ← rd_proc cur p_pagetable;
        r ← in_km (either_copyin pt (kaddr SChar) user_src (u64 (src + i)) 1);
        if r =? err then mret (Done i)
        else
          c ← rd_mem (λ m, ld8 m (kaddr SChar));
          b ← uartputc cur c;
          match b with
          | Blocked _ => mret (Blocked (i, c))
          | Done _ => consolewrite_loop f user_src src n (i + 1)
          end
      else mret (Done i)
  end.
Definition consolewrite (user_src : bool) (src n : Z) : XM Z :=
  blocking (consolewrite_loop (S (Z.to_nat n)) user_src src n 0).

(** The loop of [consoleread] with [cons.lock] held; [target] is the count asked for. *)
Fixpoint consoleread_loop (fuel : nat) (user_dst : bool) (target dst n : Z) : XM (step (Z * Z) Z) :=
  match fuel with
  | O => out_of_fuel
  | S f =>
      if 0 <? n then
        k ← gets kn_cons;
        if c_r k =? c_w k then
          kl ← killed cur;
          if negb (kl =? 0) then mret (Done err)
          else sleep_enter cur ChCons;; mret (Blocked (dst, n))
        else
          let c := c_buf k (c_r k mod INPUT_BUF_SIZE) in
          upd_cons (λ k, set_c_r (u32 (c_r k + 1)) k);;
          if c =? ctrl 68 then
            (if n <? target then upd_cons (λ k, set_c_r (u32 (c_r k - 1)) k) else mret tt);;
            mret (Done (target - n))
          else
            wr_mem (λ m, st8 m (kaddr SChar) c);;
            pt ← rd_proc cur p_pagetable;
            r ← in_km (either_copyout pt user_dst dst (kaddr SChar) 1);
            if r =? err then mret (Done (target - n))
            else
              if c =? nl then mret (Done (target - (n - 1)))
              else consoleread_loop f user_dst target (u64 (dst + 1)) (n - 1)
      else mret (Done (target - n))
  end.
Definition consoleread (user_dst : bool) (dst n : Z) : XM Z :=
  blocking (consoleread_loop (S (Z.to_nat n)) user_dst n dst n).

(** [while(cons.e != cons.w && ...)] of Control-U: at most one step per character. *)
Fixpoint kill_line (fuel : nat) : XM unit :=
  match fuel with
  | O => out_of_fuel
  | S f =>
      k ← gets kn_cons;
      if negb (c_e k =? c_w k) && negb (c_buf k (u32 (c_e k - 1) mod INPUT_BUF_SIZE) =? nl) then
        upd_cons (λ k, set_c_e (u32 (c_e k - 1)) k);;
        consputc BACKSPACE;;
        kill_line f
      else mret tt
  end.

Definition consoleintr (c : Z) : XM unit :=
  if c =? ctrl 80 then procdump
  else if c =? ctrl 85 then
    k ← gets kn_cons;
    kill_line (S (Z.to_nat (u32 (c_e k - c_w k))))
  else if (c =? ctrl 72) || (c =? 0x7f) then
    k ← gets kn_cons;
    if negb (c_e k =? c_w k) then
      upd_cons (λ k, set_c_e (u32 (c_e k - 1)) k);;
      consputc BACKSPACE
    else mret tt
  else
    k ← gets kn_cons;
    if negb (c =? 0) && (u32 (c_e k - c_r k) <? INPUT_BUF_SIZE) then
      let c := if c =? 13 then nl else c in
      consputc c;;
      upd_cons (λ k, set_c_e (u32 (c_e k + 1)) (set_c_buf (<[c_e k mod INPUT_BUF_SIZE := u8 c]> (c_buf k)) k));;
      k ← gets kn_cons;
      if (c =? nl) || (c =? ctrl 68) || (u32 (c_e k - c_r k) =? INPUT_BUF_SIZE) then
        upd_cons (λ k, set_c_w (c_e k) k);;
        wakeup cur ChCons
      else mret tt
    else mret tt.

Definition consoleinit : XM unit :=
  in_uart uartinit;;
  modify (λ s, set_kn_devsw (<[CONSOLE := true]> (kn_devsw s)) s).

(** [while(1)] of [uartintr]: one iteration per byte received. *)
Fixpoint uartintr_loop (fuel : nat) : XM unit :=
  match fuel with
  | O => out_of_fuel
  | S f =>
      c ← in_uart uartgetc;
      if c =? -1 then mret tt
      else consoleintr c;; uartintr_loop f
  end.
Definition uartintr : XM unit :=
  n ← gets (λ s, length (u_rx (kn_uart s)));
  uartintr_loop (S n);;
  uartstart cur.

End console.
