(* ===== verification/File.v ===== *)
(** * File: open files and pipes (src/kernel/file.c, src/kernel/pipe.c) *)

From stdpp Require Import functions.
From S2P Require Import Prelude Mem Layout Kalloc Vm FsFormat Bio Log Fs Kern Sched Printf Console.
Import CString.

Local Open Scope Z_scope.

Section file.
  Context `{KernelImage} (cur : nat) (kaddr : slot → Z).

(** File-system code run by the current process: its pid, page table and directory. *)
Definition with_proc {A} (f : Z → Z → nat → FM A) : XM A :=
  x ← rd_proc cur id;
  in_fs (f (p_pid x) (p_pagetable x) (default 0%nat (p_cwd x))).

Definition begin_op_x : XM unit := in_log begin_op.
Definition end_op_x : XM unit := pid ← rd_proc cur p_pid; in_log (end_op pid).

(** ** Pipes *)

Definition pipeclose (pi : Z) (writable : bool) : XM unit :=
  (if writable then
     upd_pipe pi (set_pi_writeopen false);; wakeup cur (ChPipeRead pi)
   else
     upd_pipe pi (set_pi_readopen false);; wakeup cur (ChPipeWrite pi));;
  x ← rd_pipe pi id;
  if negb (pi_readopen x) && negb (pi_writeopen x) then in_km (kfree pi) else mret tt.

(** [while(i < n)] of [pipewrite] with [pi->lock] held. *)
Fixpoint pipewrite_loop (fuel : nat) (pi addr n i : Z) : XM (step Z Z) :=
  match fuel with
  | O => out_of_fuel
  | S f =>
      if i <? n then
        x ← rd_pipe pi id;
        kl ← killed cur;
        if negb (pi_readopen x) || negb (kl =? 0) then mret (Done err)
        else if pi_nwrite x =? u32 (pi_nread x + PIPESIZE) then
          wakeup cur (ChPipeRead pi);;
          sleep_enter cur (ChPipeWrite pi);;
          mret (Blocked i)
        else
          pt ← rd_proc cur p_pagetable;
          r ← in_km (copyin pt (kaddr SChar) (u64 (addr + i)) 1);
          if r =? err then wakeup cur (ChPipeRead pi);; mret (Done i)
          else
            ch ← rd_mem (λ m, ld8 m (kaddr SChar));
            upd_pipe pi (λ x, set_pi_nwrite (u32 (pi_nwrite x + 1))
              (set_pi_data (<[pi_nwrite x mod PIPESIZE := ch]> (pi_data x)) x));;
            pipewrite_loop f pi addr n (i + 1)
      else wakeup cur (ChPipeRead pi);; mret (Done i)
  end.
(** The call, and what follows a wakeup with [i] bytes written. *)
Definition pipewrite_start (pi addr n : Z) : XM (step Z Z) :=
  pipewrite_loop (S (Z.to_nat n)) pi addr n 0.
Definition pipewrite_resume (pi addr n i : Z) : XM (step Z Z) :=
  sleep_exit cur;; pipewrite_loop (S (Z.to_nat (n - i))) pi addr n i.
Definition pipewrite (pi addr n : Z) : XM Z := blocking (pipewrite_start pi addr n).

(** [for(i = 0; i < n; i++)] of [piperead]. *)
Fixpoint piperead_loop (fuel : nat) (pi addr n i : Z) : XM Z :=
  match fuel with
  | O => out_of_fuel
  | S f =>
      if i <? n then
        x ← rd_pipe pi id;
        if pi_nread x =? pi_nwrite x then mret i
        else
          let ch := pi_data x (pi_nread x mod PIPESIZE) in
          upd_pipe pi (λ x, set_pi_nread (u32 (pi_nread x + 1)) x);;
          wr_mem (λ m, st8 m (kaddr SChar) ch);;
          pt ← rd_proc cur p_pagetable;
          r ← in_km (copyout pt (u64 (addr + i)) (kaddr SChar) 1);
          if r =? err then mret i
          else piperead_loop f pi addr n (i + 1)
      else mret i
  end.

(** [piperead] with [pi->lock] held: it sleeps while the pipe is empty and open. *)
Definition piperead_start (pi addr n : Z) : XM (step unit Z) :=
  x ← rd_pipe pi id;
  if (pi_nread x =? pi_nwrite x) && pi_writeopen x then
    kl ← killed cur;
    if negb (kl =? 0) then mret (Done err)
    else sleep_enter cur (ChPipeRead pi);; mret (Blocked tt)
  else
    i ← piperead_loop (S (Z.to_nat n)) pi addr n 0;
    wakeup cur (ChPipeWrite pi);;
    mret (Done i).
Definition piperead_resume (pi addr n : Z) : XM (step unit Z) :=
  sleep_exit cur;; piperead_start pi addr n.
Definition piperead (pi addr n : Z) : XM Z := blocking (piperead_start pi addr n).

(** ** The file table *)

Fixpoint filealloc_loop (k f : nat) : XM (option nat) :=
  match k with
  | O => mret None
  | S k' =>
      r ← rd_file f f_ref;
      if r =? 0 then upd_file f (set_f_ref 1);; mret (Some f)
      else filealloc_loop k' (S f)
  end.
Definition filealloc : XM (option nat) := filealloc_loop (Z.to_nat NFILE) 0.

Definition filedup (f : nat) : XM nat :=
  r ← rd_file f f_ref;
  if r <? 1 then panic "filedup"
  else upd_file f (λ x, set_f_ref (i32 (f_ref x + 1)) x);; mret f.

Definition fileclose (f : nat) : XM unit :=
  r ← rd_file f f_ref;
  if r <? 1 then panic "fileclose"
  else
    upd_file f (λ x, set_f_ref (i32 (f_ref x - 1)) x);;
    ff ← rd_file f id;
    if 0 <? f_ref ff then mret tt
    else
      upd_file f (λ x, set_f_type FD_NONE (set_f_ref 0 x));;
      match f_type ff with
      | FD_PIPE => pipeclose (f_pipe ff) (f_writable ff)
      | FD_INODE | FD_DEVICE =>
          begin_op_x;;
          with_proc (λ me _ _, iput me (f_ip ff));;
          end_op_x
      | FD_NONE => mret tt
      end.

(** [pipealloc(&f0, &f1)]: [None] is -1. *)
Definition pipealloc : XM (option (nat * nat)) :=
  let bad (f0 f1 : option nat) : XM (option (nat * nat)) :=
    (match f0 with Some f => fileclose f | None => mret tt end);;
    (match f1 with Some f => fileclose f | None => mret tt end);;
    mret None in
  o0 ← filealloc;
  match o0 with
  | None => bad None None
  | Some f0 =>
      o1 ← filealloc;
      match o1 with
      | None => bad (Some f0) None
      | Some f1 =>
          pi ← in_km kalloc;
          if pi =? 0 then bad (Some f0) (Some f1)
          else
            upd_pipe pi (λ x, set_pi_nread 0 (set_pi_nwrite 0 (set_pi_writeopen true (set_pi_readopen true x))));;
            upd_file f0 (λ x, set_f_pipe pi (set_f_writable false (set_f_readable true (set_f_type FD_PIPE x))));;
            upd_file f1 (λ x, set_f_pipe pi (set_f_writable true (set_f_readable false (set_f_type FD_PIPE x))));;
            mret (Some (f0, f1))
      end
  end.

(** [struct stat] in memory: the bytes between [nlink] and [size] are padding. *)
Definition STAT_SIZE : Z := 24.
Definition put_stat (m : memory) (a : Z) (st : stat) : memory :=
  st64 (st16 (st16 (st32 (st32 m a (st_dev st)) (a + 4) (st_ino st)) (a + 8) (st_type st)) (a + 10) (st_nlink st))
    (a + 16) (st_size st).

Definition filestat (f : nat) (addr : Z) : XM Z :=
  x ← rd_file f id;
  match f_type x with
  | FD_INODE | FD_DEVICE =>
      with_proc (λ me _ _, ilock me (f_ip x));;
      st ← in_fs (stati (f_ip x));
      with_proc (λ me _ _, iunlock me (f_ip x));;
      wr_mem (λ m, put_stat m (kaddr SStat) st);;
      pt ← rd_proc cur p_pagetable;
      r ← in_km (copyout pt addr (kaddr SStat) STAT_SIZE);
      mret (if r <? 0 then err else 0)
  | _ => mret err
  end.

(** [f->major < 0 || f->major >= NDEV || !devsw[f->major].read] *)
Definition no_device (major : Z) : XM bool :=
  gets (λ s, (major <? 0) || (NDEV <=? major) || negb (kn_devsw s major)).

Definition fileread (f : nat) (addr n : Z) : XM Z :=
  x ← rd_file f id;
  if negb (f_readable x) then mret err
  else
    match f_type x with
    | FD_PIPE => piperead (f_pipe x) addr n
    | FD_DEVICE =>
        b ← no_device (f_major x);
        if b : bool then mret err else consoleread cur kaddr true addr n
    | FD_INODE =>
        with_proc (λ me _ _, ilock me (f_ip x));;
        r ← with_proc (λ me pt _, readi me pt kaddr (f_ip x) true addr (f_off x) (u32 n));
        let r := i32 r in
        (if 0 <? r then upd_file f (λ y, set_f_off (u32 (f_off y + r)) y) else mret tt);;
        with_proc (λ me _ _, iunlock me (f_ip x));;
        mret r
    | FD_NONE => panic "fileread"
    end.

(** [((MAXOPBLOCKS-1-1-2) / 2) * BSIZE] *)
Definition filewrite_max : Z := ((MAXOPBLOCKS - 1 - 1 - 2) / 2) * BSIZE.

(** [while(i < n)] of [filewrite]: at most one iteration per byte. *)
Fixpoint filewrite_loop (fuel : nat) (f : nat) (addr n i : Z) : XM Z :=
  match fuel with
  | O => out_of_fuel
  | S fl =>
      if i <? n then
        let n1 := Z.min (n - i) filewrite_max in
        x ← rd_file f id;
        begin_op_x;;
        with_proc (λ me _ _, ilock me (f_ip x));;
        r ← with_proc (λ me pt _, writei me pt kaddr (f_ip x) true (u64 (addr + i)) (f_off x) n1);
        (if 0 <? r then upd_file f (λ y, set_f_off (u32 (f_off y + r)) y) else mret tt);;
        with_proc (λ me _ _, iunlock me (f_ip x));;
        end_op_x;;
        if negb (r =? n1) then mret i
        else filewrite_loop fl f addr n (i + r)
      else mret i
  end.

Definition filewrite (f : nat) (addr n : Z) : XM Z :=
  x ← rd_file f id;
  if negb (f_writable x) then mret err
  else
    match f_type x with
    | FD_PIPE => pipewrite (f_pipe x) addr n
    | FD_DEVICE =>
        b ← no_device (f_major x);
        if b : bool then mret err else consolewrite cur kaddr true addr n
    | FD_INODE =>
        i ← filewrite_loop (S (Z.to_nat n)) f addr n 0;
        mret (if i =? n then n else err)
    | FD_NONE => panic "filewrite"
    end.

Fixpoint count_open_loop (k f : nat) (count : Z) : XM Z :=
  match k with
  | O => mret count
  | S k' =>
      r ← rd_file f f_ref;
      count_open_loop k' (S f) (if 0 <? r then u64 (count + 1) else count)
  end.
Definition count_open_files : XM Z := count_open_loop (Z.to_nat NFILE) 0 0.

End file.
