(* ===== verification/Pipe.v ===== *)
(** * Pipe: pipes are bounded queues (src/kernel/pipe.c)

    What [pipewrite] and [piperead] of File.v do, stated over the queue of bytes that the
    ring buffer and its two counters stand for. *)

From stdpp Require Import functions.
From S2P Require Import Prelude Mem Layout Kalloc Vm VmTable VmUser VmCopy VmExample FsFormat Bio Log LogCrash.
From S2P Require Import Fs FsSpec Kern Sched UserByte Printf Console File.

Local Open Scope Z_scope.

(** ** The queue of a pipe *)

Definition pipe_len (x : pipe) : Z := u32 (pi_nwrite x - pi_nread x).

(** The bytes written and not yet read, oldest first. *)
Definition pipe_q (x : pipe) : list Z :=
  (λ j, pi_data x ((pi_nread x + Z.of_nat j) mod PIPESIZE)) <$> seq 0 (Z.to_nat (pipe_len x)).

(** The counters are 32-bit and at most [PIPESIZE] apart, modulo [2^32]; the data are bytes. *)
Record pipe_ok (x : pipe) : Prop := {
  po_byte j : 0 ≤ pi_data x j < 256;
  po_nread : 0 ≤ pi_nread x < 2 ^ 32;
  po_nwrite : 0 ≤ pi_nwrite x < 2 ^ 32;
  po_len : pipe_len x ≤ PIPESIZE;
}.

Lemma length_pipe_q x : Z.of_nat (length (pipe_q x)) = pipe_len x.
Proof. unfold pipe_q. rewrite length_fmap, length_seq. apply Z2Nat.id, u32_range. Qed.

(** [2^32] is a multiple of [PIPESIZE], so positions survive the wrap-around. *)
Lemma u32_mod_pipe z : u32 z mod PIPESIZE = z mod PIPESIZE.
Proof. unfold u32, PIPESIZE. zdiv. Qed.

Lemma pipe_full_iff x : pipe_ok x → pi_nwrite x = u32 (pi_nread x + PIPESIZE) ↔ pipe_len x = PIPESIZE.
Proof. intros [_ ? ? Hl]. unfold pipe_len, u32, PIPESIZE in *. zdiv. Qed.

Lemma pipe_empty_iff x : pipe_ok x → pi_nread x = pi_nwrite x ↔ pipe_q x = [].
Proof.
  intros [_ ? ? Hl]. pose proof (length_pipe_q x) as Hlen. split.
  - intros E. apply nil_length_inv. unfold pipe_len in Hlen. rewrite E, Z.sub_diag in Hlen. change (u32 0) with 0 in Hlen. lia.
  - intros E. rewrite E in Hlen. cbn in Hlen. unfold pipe_len, u32 in *. zdiv.
Qed.

Lemma slot_neq a i j : 0 ≤ i < PIPESIZE → 0 ≤ j < PIPESIZE → i ≠ j → (a + i) mod PIPESIZE ≠ (a + j) mod PIPESIZE.
Proof. unfold PIPESIZE. intros. zdiv. Qed.

Definition push (ch : Z) (x : pipe) : pipe :=
  set_pi_nwrite (u32 (pi_nwrite x + 1)) (set_pi_data (<[pi_nwrite x mod PIPESIZE := ch]> (pi_data x)) x).
Definition pop (x : pipe) : pipe := set_pi_nread (u32 (pi_nread x + 1)) x.

Lemma push_len x ch : pipe_ok x → pipe_len x ≠ PIPESIZE → pipe_len (push ch x) = pipe_len x + 1.
Proof. intros [_ ? ? Hl] Hne. unfold pipe_len, u32, PIPESIZE in *. cbn. unfold u32. zdiv. Qed.

Lemma push_ok x ch :
  pipe_ok x → pipe_len x ≠ PIPESIZE → 0 ≤ ch < 256 → pipe_ok (push ch x) ∧ pipe_q (push ch x) = pipe_q x ++ [ch].
Proof.
  intros Hok Hne Hch. pose proof (push_len x ch Hok Hne) as El. pose proof (u32_range (pi_nwrite x - pi_nread x)) as Hr.
  fold (pipe_len x) in Hr. pose proof (po_len _ Hok). split.
  { split; [|apply Hok | apply u32_range | lia]. intros j. cbn [pi_data push set_pi_data set_pi_nwrite].
    destruct (decide (j = pi_nwrite x mod PIPESIZE)) as [->|]; [by rewrite fn_lookup_insert | rewrite fn_lookup_insert_ne by done; apply Hok]. }
  unfold pipe_q at 1. rewrite El, Z2Nat.inj_add by lia. change (Z.to_nat 1) with 1%nat.
  rewrite seq_app, fmap_app. cbn [seq Nat.add fmap list_fmap]. f_equal.
  - apply list_fmap_ext. intros _ j Hj%list_elem_of_lookup_2%elem_of_seq. cbn.
    rewrite fn_lookup_insert_ne; [done|].
    assert (E : pi_nwrite x mod PIPESIZE = (pi_nread x + pipe_len x) mod PIPESIZE).
    { unfold pipe_len, u32, PIPESIZE. zdiv. }
    rewrite E. apply slot_neq; unfold PIPESIZE in *; lia.
  - cbn. rewrite Z2Nat.id by lia. f_equal.
    replace ((pi_nread x + pipe_len x) mod PIPESIZE) with (pi_nwrite x mod PIPESIZE); [by rewrite fn_lookup_insert|].
    unfold pipe_len, u32, PIPESIZE. zdiv.
Qed.

Lemma pop_ok x :
  pipe_ok x → pi_nread x ≠ pi_nwrite x →
  pipe_ok (pop x) ∧ pipe_q x = pi_data x (pi_nread x mod PIPESIZE) :: pipe_q (pop x).
Proof.
  intros Hok Hne. assert (El : pipe_len x = pipe_len (pop x) + 1).
  { destruct Hok as [_ ? ? Hl]. unfold pipe_len, u32 in *. cbn. unfold u32. zdiv. }
  pose proof (u32_range (pi_nwrite (pop x) - pi_nread (pop x))) as Hr. fold (pipe_len (pop x)) in Hr.
  pose proof (po_len _ Hok). split; [split; [apply Hok | apply u32_range | apply Hok | lia]|].
  unfold pipe_q at 1. rewrite El, Z2Nat.inj_add, Nat.add_comm by lia. change (Z.to_nat 1) with 1%nat. cbn [Nat.add seq fmap list_fmap].
  change (Z.of_nat 0) with 0. rewrite Z.add_0_r. f_equal. rewrite <- seq_shift, <- list_fmap_compose. apply list_fmap_ext.
  intros _ j _. cbn. f_equal. rewrite <- (u32_mod_pipe (pi_nread x + _)), <- (u32_mod_pipe (u32 _ + _)).
  f_equal. unfold u32. zdiv.
Qed.

(** ** The operations *)

Section pipe.
  Context {K : KernelImage} {KOk : KernelImageOk K}.
  Context (cur : nat) (kaddr : slot → Z) (pi pt : Z) (T : gmap Z nat).

(** What a caller of the pipe operations relies on. *)
Record pipe_pre (s : kernel) : Prop := {
  pp_pt : p_pagetable (kn_procs s cur) = pt;
  pp_env : benv kaddr pt T (kmemory s);
  pp_ok : pipe_ok (kn_pipes s pi);
}.

(** What the operations leave alone. *)
Record pipe_frame (s s' : kernel) : Prop := {
  pf_other q : q ≠ pi → kn_pipes s' q = kn_pipes s q;
  pf_open : pi_readopen (kn_pipes s' pi) = pi_readopen (kn_pipes s pi) ∧
            pi_writeopen (kn_pipes s' pi) = pi_writeopen (kn_pipes s pi);
  pf_files : kn_files s' = kn_files s;
  pf_fs : fs_ls (kn_fs s') = fs_ls (kn_fs s) ∧ itable (kn_fs s') = itable (kn_fs s) ∧
          k_freelist (fs_km (kn_fs s')) = k_freelist (fs_km (kn_fs s));
  pf_proc q : p_killed (kn_procs s' q) = p_killed (kn_procs s q) ∧ p_pagetable (kn_procs s' q) = p_pagetable (kn_procs s q);
}.

#[local] Instance pipe_frame_refl : Reflexive pipe_frame.
Proof. by split. Qed.
#[local] Instance pipe_frame_trans : Transitive pipe_frame.
Proof.
  intros s1 s2 s3 [A1 [A2 A2'] A3 (A4 & A4' & A4'') A5] [B1 [B2 B2'] B3 (B4 & B4' & B4'') B5]. split; [| split | | split_and! |]; try congruence.
  - intros q Hq. by rewrite B1, A1.
  - intros q. destruct (A5 q), (B5 q). split; congruence.
Qed.

Lemma bind_rd_pipe {A B} q (g : pipe → A) (f : A → XM B) s : (rd_pipe q g ≫= f) s = f (g (kn_pipes s q)) s.
Proof. done. Qed.
Lemma bind_upd_pipe {B} q g (f : unit → XM B) s :
  (upd_pipe q g ≫= f) s = f tt (set_kn_pipes (<[q := g (kn_pipes s q)]> (kn_pipes s)) s).
Proof. done. Qed.

(** Waking others does not concern the caller or the pipe. *)
Lemma wakeup_pipe ch s :
  pipe_pre s → ∃ s', wakeup cur ch s = Ok (tt, s') ∧ pipe_pre s' ∧ pipe_frame s s' ∧
    kn_pipes s' = kn_pipes s ∧ kmemory s' = kmemory s ∧ kn_procs s' cur = kn_procs s cur.
Proof.
  intros [Hp He Ho]. destruct (wakeup_cur cur (Some ch) s) as (f & R & Hc & Hq). exists (set_kn_procs f s).
  split_and!; [exact R | | | done | done | exact Hc].
  - split; [cbn; congruence | done | done].
  - split; try done. intros q. cbn. by destruct (Hq q) as [-> | ->].
Qed.

Lemma sleep_pipe ch s :
  pipe_pre s → ∃ s', sleep_enter cur ch s = Ok (tt, s') ∧ pipe_pre s' ∧ pipe_frame s s' ∧
    kn_pipes s' = kn_pipes s ∧ kmemory s' = kmemory s ∧
    p_state (kn_procs s' cur) = SLEEPING ∧ p_chan (kn_procs s' cur) = Some ch.
Proof.
  intros [Hp He Ho]. eexists. split; [done|]. cbn. rewrite !fn_lookup_insert. split_and!; try done.
  - split; [cbn; by rewrite fn_lookup_insert | done | done].
  - split; try done. intros q. cbn. destruct (decide (q = cur)) as [->|]; [by rewrite fn_lookup_insert | by rewrite fn_lookup_insert_ne].
Qed.

Lemma exit_pipe s :
  pipe_pre s → ∃ s', sleep_exit cur s = Ok (tt, s') ∧ pipe_pre s' ∧ pipe_frame s s' ∧
    kn_pipes s' = kn_pipes s ∧ kmemory s' = kmemory s ∧ p_killed (kn_procs s' cur) = p_killed (kn_procs s cur).
Proof.
  intros [Hp He Ho]. eexists. split; [done|]. cbn. rewrite fn_lookup_insert. split_and!; try done.
  - split; [cbn; by rewrite fn_lookup_insert | done | done].
  - split; try done. intros q. cbn. destruct (decide (q = cur)) as [->|]; [by rewrite fn_lookup_insert | by rewrite fn_lookup_insert_ne].
Qed.

(** A byte of the caller's, into the local variable. *)
Lemma fetch_byte a s :
  pipe_pre s → 0 ≤ a < 2 ^ 64 →
  ∃ r s', in_km (copyin pt (kaddr SChar) (u64 a) 1) s = Ok (r, s') ∧ pipe_pre s' ∧ pipe_frame s s' ∧
    kn_pipes s' = kn_pipes s ∧ kn_procs s' = kn_procs s ∧
    (∀ va, 0 ≤ va → user_ld (kmemory s') pt va = user_ld (kmemory s) pt va) ∧
    ((r = 0 ∧ user_ld (kmemory s) pt a = Some (ld8 (kmemory s') (kaddr SChar))) ∨
     (r = err ∧ user_ld (kmemory s) pt a = None)).
Proof.
  intros [Hp He Ho] Ha. destruct (fetch_local kaddr pt T a s He Ha) as (r & km & R & He' & Hfl & Hld & Hres).
  exists r, (set_km km s). by split_and!.
Qed.

(** One byte in. *)
Lemma push_step ch s :
  pipe_pre s → pipe_len (kn_pipes s pi) ≠ PIPESIZE → 0 ≤ ch < 256 →
  let s' := set_kn_pipes (<[pi := push ch (kn_pipes s pi)]> (kn_pipes s)) s in
  pipe_pre s' ∧ pipe_frame s s' ∧ pipe_q (kn_pipes s' pi) = pipe_q (kn_pipes s pi) ++ [ch].
Proof.
  intros [Hp He Ho] Hne Hch s'. destruct (push_ok _ ch Ho Hne Hch) as [Ho' Eq]. subst s'. cbn [kn_pipes set_kn_pipes]. split_and!.
  - split; cbn [kn_pipes kn_procs set_kn_pipes]; [done | done | by rewrite fn_lookup_insert].
  - split; cbn [kn_pipes kn_procs set_kn_pipes]; try done; [intros q Hq; by rewrite fn_lookup_insert_ne | by rewrite fn_lookup_insert].
  - by rewrite fn_lookup_insert.
Qed.

(** [pipewrite] from when it holds the lock with [i] of [n] bytes written, to its return
    or its next sleep. *)
Lemma pipewrite_loop_ok addr n fuel : ∀ s i,
  pipe_pre s → 0 ≤ addr → addr + Z.max n i < 2 ^ 64 → 0 ≤ i → n - i < Z.of_nat fuel → (0 < fuel)%nat →
  let x := kn_pipes s pi in
  ∃ r s' l, pipewrite_loop cur kaddr fuel pi addr n i s = Ok (r, s') ∧
    pipe_pre s' ∧ pipe_frame s s' ∧
    pipe_q (kn_pipes s' pi) = pipe_q x ++ l ∧ user_bytes pt (kmemory s) (addr + i) l ∧
    match r with
    | Blocked i' => i' = i + Z.of_nat (length l) ∧ i' < n ∧ pi_readopen x = true ∧
        Z.of_nat (length (pipe_q (kn_pipes s' pi))) = PIPESIZE ∧
        p_state (kn_procs s' cur) = SLEEPING ∧ p_chan (kn_procs s' cur) = Some (ChPipeWrite pi)
    | Done v =>
        v = err ∧ l = [] ∧ i < n ∧ (pi_readopen x = false ∨ p_killed (kn_procs s cur) ≠ 0) ∨
        v = i + Z.of_nat (length l) ∧ (n ≤ v ∨ user_ld (kmemory s) pt (addr + v) = None)
    end.
Proof.
  induction fuel as [|fuel IH]; intros s i Hs Ha Hn Hi Hf Hpos x; [lia|]. cbn [pipewrite_loop].
  destruct (Z.ltb_spec i n) as [Hlt|Hge].
  2:{ destruct (wakeup_pipe (ChPipeRead pi) s Hs) as (s' & R & Hs' & Hfr & Ep & _). rewrite (bind_ok _ _ _ _ _ R).
      exists (Done i), s', []. rewrite Ep, app_nil_r. split_and!; try done. right. cbn. lia. }
  rewrite bind_rd_pipe. unfold killed. rewrite bind_rd_proc. fold x. unfold id.
  destruct (pi_readopen x) eqn:Eo; cbn [negb orb].
  2:{ exists (Done err), s, []. fold x. rewrite app_nil_r. split_and!; try done. left. eauto. }
  destruct (Z.eqb_spec (p_killed (kn_procs s cur)) 0) as [Ek|Ek]; cbn [negb].
  2:{ exists (Done err), s, []. fold x. rewrite app_nil_r. split_and!; try done. left. eauto. }
  pose proof (pp_ok _ Hs) as Ho. fold x in Ho. destruct (Z.eqb_spec (pi_nwrite x) (u32 (pi_nread x + PIPESIZE))) as [Efull|Efull].
  { apply pipe_full_iff in Efull; [|done].
    destruct (wakeup_pipe (ChPipeRead pi) s Hs) as (s1 & R1 & Hs1 & Hfr1 & Ep1 & _). rewrite (bind_ok _ _ _ _ _ R1).
    destruct (sleep_pipe (ChPipeWrite pi) s1 Hs1) as (s2 & R2 & Hs2 & Hfr2 & Ep2 & _ & Est & Ech). rewrite (bind_ok _ _ _ _ _ R2).
    exists (Blocked i), s2, []. rewrite Ep2, Ep1, app_nil_r. fold x.
    split_and!; try done; [by etransitivity | cbn; lia | by rewrite length_pipe_q]. }
  rewrite bind_rd_proc, (pp_pt _ Hs).
  destruct (fetch_byte (addr + i) s Hs ltac:(lia)) as (r & s1 & R1 & Hs1 & Hfr1 & Ep1 & Eq1 & Hld1 & Hres).
  rewrite (bind_ok _ _ _ _ _ R1). destruct Hres as [[-> Hch]|[-> Hnone]].
  2:{ change (err =? err) with true. cbv iota.
      destruct (wakeup_pipe (ChPipeRead pi) s1 Hs1) as (s2 & R2 & Hs2 & Hfr2 & Ep2 & _). rewrite (bind_ok _ _ _ _ _ R2).
      exists (Done i), s2, []. rewrite Ep2, Ep1, app_nil_r. fold x.
      split_and!; try done; [by etransitivity |]. right. cbn [length]. rewrite Z.add_0_r. by eauto. }
  change (0 =? err) with false. cbv iota. rewrite bind_rd_mem, bind_upd_pipe. fold x. set (ch := ld8 (kmemory s1) _) in *.
  assert (Hne : pipe_len (kn_pipes s1 pi) ≠ PIPESIZE) by (rewrite Ep1; fold x; by rewrite <- pipe_full_iff).
  destruct (push_step ch s1 Hs1 Hne (ld8_range _ _)) as (Hs2 & Hfr2 & Eq2). fold (push ch (kn_pipes s1 pi)).
  set (s2 := set_kn_pipes _ s1) in *.
  destruct (IH s2 (i + 1) Hs2 Ha) as (r & s3 & l & R3 & Hs3 & Hfr3 & Eq3 & Hl & Hr); [lia.. |].
  exists r, s3, (ch :: l). rewrite R3. split_and!; try done.
  - by do 2 etransitivity.
  - rewrite Eq3, Eq2, Ep1, <- app_assoc. done.
  - intros [|j] c; cbn [lookup list_lookup].
    + intros [= <-]. rewrite Z.add_0_r. exact Hch.
    + intros Hj. rewrite <- Hld1 by lia. replace (addr + i + Z.of_nat (S j)) with (addr + (i + 1) + Z.of_nat j) by lia. by apply Hl.
  - assert (E2 : pi_readopen (kn_pipes s2 pi) = true).
    { destruct (pf_open _ _ Hfr2) as [-> _]. rewrite Ep1. exact Eo. }
    assert (E3 : p_killed (kn_procs s2 cur) = 0).
    { destruct (pf_proc _ _ Hfr2 cur) as [-> _]. by rewrite Eq1. }
    destruct r as [v|i']; cbn [length].
    + destruct Hr as [(-> & -> & _ & [E|E])|[-> Hend]]; [congruence.. |]. right. split; [lia|].
      destruct Hend as [?|Hend]; [left; lia | right]. rewrite Hld1 in Hend by lia. done.
    + destruct Hr as (-> & ? & ? & ? & ? & ?). split_and!; try done; lia.
Qed.

(** A byte from the local variable to the caller. *)
Lemma store_byte a c s :
  pipe_pre s → 0 ≤ a < 2 ^ 64 → 0 ≤ c < 256 →
  let s0 := set_km (mkKmem (st8 (kmemory s) (kaddr SChar) c) (k_freelist (fs_km (kn_fs s)))) s in
  ∃ r s', in_km (copyout pt (u64 a) (kaddr SChar) 1) s0 = Ok (r, s') ∧ pipe_pre s' ∧ pipe_frame s s' ∧
    kn_pipes s' = kn_pipes s ∧ kn_procs s' = kn_procs s ∧
    (∀ va, 0 ≤ va → va ≠ a → user_ld (kmemory s') pt va = user_ld (kmemory s) pt va) ∧
    (∀ va, user_writable (kmemory s') pt va = user_writable (kmemory s) pt va) ∧
    ((r = 0 ∧ user_writable (kmemory s) pt a = true ∧ user_ld (kmemory s') pt a = Some c) ∨
     (r = err ∧ user_writable (kmemory s) pt a = false)).
Proof.
  intros [Hp He Ho] Ha Hc s0. destruct (store_local kaddr pt T a c s He Ha Hc) as (r & km & R & He' & Hfl & Hld & Hw & Hres).
  exists r, (set_km km s). by split_and!.
Qed.

(** One byte out. *)
Lemma pop_step s :
  pipe_pre s → pi_nread (kn_pipes s pi) ≠ pi_nwrite (kn_pipes s pi) →
  let s' := set_kn_pipes (<[pi := pop (kn_pipes s pi)]> (kn_pipes s)) s in
  pipe_pre s' ∧ pipe_frame s s' ∧
  pipe_q (kn_pipes s pi) = pi_data (kn_pipes s pi) (pi_nread (kn_pipes s pi) mod PIPESIZE) :: pipe_q (kn_pipes s' pi).
Proof.
  intros [Hp He Ho] Hne s'. destruct (pop_ok _ Ho Hne) as [Ho' Eq]. subst s'. cbn [kn_pipes set_kn_pipes]. split_and!.
  - split; cbn [kn_pipes kn_procs set_kn_pipes]; [done | done | by rewrite fn_lookup_insert].
  - split; cbn [kn_pipes kn_procs set_kn_pipes]; try done; [intros q Hq; by rewrite fn_lookup_insert_ne | by rewrite fn_lookup_insert].
  - by rewrite fn_lookup_insert.
Qed.

(** The loop of [piperead] with [i] of [n] bytes read. *)
Lemma piperead_loop_ok addr n fuel : ∀ s i,
  pipe_pre s → 0 ≤ addr → addr + Z.max n i < 2 ^ 64 → 0 ≤ i → n - i < Z.of_nat fuel → (0 < fuel)%nat →
  ∃ s' l d, piperead_loop cur kaddr fuel pi addr n i s = Ok (i + Z.of_nat (length l), s') ∧
    pipe_pre s' ∧ pipe_frame s s' ∧
    pipe_q (kn_pipes s pi) = l ++ d ++ pipe_q (kn_pipes s' pi) ∧
    user_bytes pt (kmemory s') (addr + i) l ∧
    (∀ va, 0 ≤ va → va < addr + i ∨ addr + i + Z.of_nat (length l + length d) ≤ va →
       user_ld (kmemory s') pt va = user_ld (kmemory s) pt va) ∧
    (d = [] ∧ (n ≤ i + Z.of_nat (length l) ∨ pipe_q (kn_pipes s' pi) = []) ∨
     length d = 1%nat ∧ i + Z.of_nat (length l) < n ∧ user_writable (kmemory s) pt (addr + i + Z.of_nat (length l)) = false).
Proof.
  induction fuel as [|fuel IH]; intros s i Hs Ha Hn Hi Hf Hpos; [lia|]. cbn [piperead_loop].
  destruct (Z.ltb_spec i n) as [Hlt|Hge].
  2:{ exists s, [], []. rewrite Z.add_0_r. split_and!; try done. left. cbn [length]. split; [done | left; lia]. }
  rewrite bind_rd_pipe. unfold id. set (x := kn_pipes s pi) in *.
  destruct (Z.eqb_spec (pi_nread x) (pi_nwrite x)) as [Ee|Ee].
  { apply pipe_empty_iff in Ee; [|apply Hs]. exists s, [], []. fold x. rewrite Ee, Z.add_0_r. split_and!; try done. left. by eauto. }
  rewrite bind_upd_pipe. fold x. destruct (pop_step s Hs Ee) as (Hs1 & Hfr1 & Eq1). fold x in Hs1, Hfr1, Eq1. fold (pop x).
  set (s1 := set_kn_pipes _ s) in *. set (c := pi_data x _) in *.
  rewrite bind_wr_mem, bind_rd_proc.
  change (kn_procs (set_km _ s1) cur) with (kn_procs s1 cur). rewrite (pp_pt _ Hs1).
  destruct (store_byte (addr + i) c s1 Hs1 ltac:(lia) (po_byte _ (pp_ok _ Hs) _)) as (r & s2 & R2 & Hs2 & Hfr2 & Ep2 & Eq2 & Hld2 & Hw2 & Hres).
  rewrite (bind_ok _ _ _ _ _ R2). destruct Hres as [(-> & _ & Hc)|[-> Hno]].
  2:{ change (err =? err) with true. cbv iota. exists s2, [], [c]. rewrite Ep2, Eq1, Z.add_0_r. cbn [length app Nat.add].
      split_and!; try done; [by etransitivity | intros va Hva Hne; apply Hld2; lia | right; rewrite !Z.add_0_r; by split_and!]. }
  change (0 =? err) with false. cbv iota.
  destruct (IH s2 (i + 1) Hs2) as (s3 & l & d & R3 & Hs3 & Hfr3 & Eq3 & Hl & Hld3 & Hend); [lia.. |].
  exists s3, (c :: l), d. rewrite R3. cbn [length app]. split_and!; try done.
  - do 2 f_equal. lia.
  - by do 2 etransitivity.
  - by rewrite Eq1, <- Eq3, Ep2.
  - intros [|j] c'; cbn [lookup list_lookup].
    + intros [= <-]. rewrite Z.add_0_r, Hld3 by lia. exact Hc.
    + intros Hj. replace (addr + i + Z.of_nat (S j)) with (addr + (i + 1) + Z.of_nat j) by lia. by apply Hl.
  - intros va Hva Hne. rewrite Hld3 by lia. apply Hld2; lia.
  - destruct Hend as [[-> [?|?]]|(Hd & Hv & Hnw)]; [left; split; [done | left; lia] | by left; eauto | right]. split_and!; [done | lia |].
    rewrite Hw2 in Hnw. replace (addr + i + Z.of_nat (S (length l))) with (addr + (i + 1) + Z.of_nat (length l)) by lia. done.
Qed.

(** [piperead] from when it holds the lock to its return or its sleep. *)
Lemma piperead_start_ok addr n s :
  pipe_pre s → 0 ≤ addr → addr + Z.max n 0 < 2 ^ 64 →
  let x := kn_pipes s pi in
  ∃ r s', piperead_start cur kaddr pi addr n s = Ok (r, s') ∧ pipe_pre s' ∧ pipe_frame s s' ∧
    match r with
    | Blocked _ => pipe_q x = [] ∧ pi_writeopen x = true ∧ kn_pipes s' pi = x ∧
        p_state (kn_procs s' cur) = SLEEPING ∧ p_chan (kn_procs s' cur) = Some (ChPipeRead pi)
    | Done v =>
        v = err ∧ s' = s ∧ pipe_q x = [] ∧ pi_writeopen x = true ∧ p_killed (kn_procs s cur) ≠ 0 ∨
        (pipe_q x = [] → pi_writeopen x = false) ∧ ∃ l d,
          v = Z.of_nat (length l) ∧ pipe_q x = l ++ d ++ pipe_q (kn_pipes s' pi) ∧ user_bytes pt (kmemory s') addr l ∧
          (d = [] ∧ (n ≤ v ∨ pipe_q (kn_pipes s' pi) = []) ∨ length d = 1%nat ∧ v < n ∧ user_writable (kmemory s) pt (addr + v) = false)
    end.
Proof.
  intros Hs Ha Hn x. unfold piperead_start. rewrite bind_rd_pipe. unfold id. fold x.
  pose proof (pipe_empty_iff x (pp_ok _ Hs)) as Hem.
  destruct ((pi_nread x =? pi_nwrite x) && pi_writeopen x) eqn:E.
  - apply andb_true_iff in E as [E1%Z.eqb_eq E2]. apply Hem in E1. unfold killed. rewrite bind_rd_proc.
    destruct (Z.eqb_spec (p_killed (kn_procs s cur)) 0) as [Ek|Ek]; cbn [negb].
    + destruct (sleep_pipe (ChPipeRead pi) s Hs) as (s' & R & Hs' & Hfr & Ep & _ & Est & Ech). rewrite (bind_ok _ _ _ _ _ R).
      exists (Blocked tt), s'. rewrite Ep. by split_and!.
    + exists (Done err), s. split_and!; try done. left. by split_and!.
  - destruct (piperead_loop_ok addr n (S (Z.to_nat n)) s 0 Hs Ha) as (s1 & l & d & R1 & Hs1 & Hfr1 & Eq & Hl & _ & Hend); [lia.. |].
    rewrite (bind_ok _ _ _ _ _ R1). destruct (wakeup_pipe (ChPipeWrite pi) s1 Hs1) as (s2 & R2 & Hs2 & Hfr2 & Ep2 & Em2 & _).
    rewrite (bind_ok _ _ _ _ _ R2). exists (Done (0 + Z.of_nat (length l))), s2. rewrite Ep2, Em2.
    rewrite !Z.add_0_r in *. rewrite Z.add_0_l in *. split_and!; try done; [by etransitivity|]. right. split; [|by eauto 10].
    intros E1%Hem. apply Z.eqb_eq in E1. rewrite E1 in E. exact E.
Qed.

(** Writing to a pipe.  From any state in which [pipewrite] holds the lock with [i] of
    its [n] bytes written, at its start or after a sleep, it runs to its return or its next
    sleep and appends to the queue of the pipe exactly the caller's next bytes.  It sleeps
    only on a full pipe.  It returns the number of bytes written when all are, or when the
    next one is not readable; and -1, writing nothing, when no reader is left or the caller
    is killed.  No other pipe or file changes. *)
Lemma pipewrite_run addr n i s call :
  call = pipewrite_start cur kaddr pi addr n ∧ i = 0 ∨ call = pipewrite_resume cur kaddr pi addr n i →
  pipe_pre s → 0 ≤ addr → 0 ≤ i → addr + Z.max n i < 2 ^ 64 →
  let x := kn_pipes s pi in
  ∃ r s' l, call s = Ok (r, s') ∧ pipe_pre s' ∧ pipe_frame s s' ∧
    pipe_q (kn_pipes s' pi) = pipe_q x ++ l ∧ user_bytes pt (kmemory s) (addr + i) l ∧
    match r with
    | Blocked i' => i' = i + Z.of_nat (length l) ∧ i' < n ∧
        Z.of_nat (length (pipe_q (kn_pipes s' pi))) = PIPESIZE ∧
        p_state (kn_procs s' cur) = SLEEPING ∧ p_chan (kn_procs s' cur) = Some (ChPipeWrite pi)
    | Done v =>
        v = err ∧ l = [] ∧ i < n ∧ (pi_readopen x = false ∨ p_killed (kn_procs s cur) ≠ 0) ∨
        v = i + Z.of_nat (length l) ∧ (n ≤ v ∨ user_ld (kmemory s) pt (addr + v) = None)
    end.
Proof.
  intros Hcall Hs Ha Hi Hn x.
  assert (∃ s0, call s = pipewrite_loop cur kaddr (S (Z.to_nat (n - i))) pi addr n i s0 ∧ pipe_pre s0 ∧ pipe_frame s s0 ∧
    kn_pipes s0 = kn_pipes s ∧ kmemory s0 = kmemory s ∧ p_killed (kn_procs s0 cur) = p_killed (kn_procs s cur)) as (s0 & E & Hs0 & Hfr0 & Ep & Em & Ek).
  { destruct Hcall as [[-> ->] | ->].
    - exists s. rewrite Z.sub_0_r. by split_and!.
    - destruct (exit_pipe s Hs) as (s0 & R & ?). exists s0. split; [|done]. unfold pipewrite_resume. by rewrite (bind_ok _ _ _ _ _ R). }
  rewrite E. destruct (pipewrite_loop_ok addr n (S (Z.to_nat (n - i))) s0 i Hs0 Ha Hn Hi) as (r & s' & l & R & Hs' & Hfr & Eq & Hl & Hr); [lia.. |].
  rewrite Ep, Em, Ek in *. fold x in Eq, Hr. exists r, s', l. split_and!; try done; [by etransitivity|].
  destruct r; [done | tauto].
Qed.

(** Reading from a pipe.  [piperead] sleeps, or returns -1 when killed, only while the
    pipe is empty and a writer is left.  Otherwise it takes the oldest bytes off the queue,
    as many as asked for or as there are, stores them at the caller's address in order and
    returns their number; 0 with a request for more is the end of the stream.  When the
    destination is not writable, one byte more than it returns is taken off the queue and
    lost. *)
Lemma piperead_run addr n s call :
  call = piperead_start cur kaddr pi addr n ∨ call = piperead_resume cur kaddr pi addr n →
  pipe_pre s → 0 ≤ addr → addr + Z.max n 0 < 2 ^ 64 →
  let x := kn_pipes s pi in
  ∃ r s', call s = Ok (r, s') ∧ pipe_pre s' ∧ pipe_frame s s' ∧
    match r with
    | Blocked _ => pipe_q x = [] ∧ pi_writeopen x = true ∧ kn_pipes s' pi = x ∧
        p_state (kn_procs s' cur) = SLEEPING ∧ p_chan (kn_procs s' cur) = Some (ChPipeRead pi)
    | Done v =>
        v = err ∧ pipe_q x = [] ∧ pi_writeopen x = true ∧ p_killed (kn_procs s cur) ≠ 0 ∧ kn_pipes s' pi = x ∨
        (pipe_q x = [] → pi_writeopen x = false) ∧ ∃ l d,
          v = Z.of_nat (length l) ∧ pipe_q x = l ++ d ++ pipe_q (kn_pipes s' pi) ∧ user_bytes pt (kmemory s') addr l ∧
          (d = [] ∧ (n ≤ v ∨ pipe_q (kn_pipes s' pi) = []) ∨ length d = 1%nat ∧ v < n ∧ user_writable (kmemory s) pt (addr + v) = false)
    end.
Proof.
  intros Hcall Hs Ha Hn x.
  assert (∃ s0, call s = piperead_start cur kaddr pi addr n s0 ∧ pipe_pre s0 ∧ pipe_frame s s0 ∧
    kn_pipes s0 = kn_pipes s ∧ kmemory s0 = kmemory s ∧ p_killed (kn_procs s0 cur) = p_killed (kn_procs s cur)) as (s0 & E & Hs0 & Hfr0 & Ep & Em & Ek).
  { destruct Hcall as [-> | ->].
    - exists s. by split_and!.
    - destruct (exit_pipe s Hs) as (s0 & R & ?). exists s0. split; [|done]. unfold piperead_resume. by rewrite (bind_ok _ _ _ _ _ R). }
  rewrite E. destruct (piperead_start_ok addr n s0 Hs0 Ha Hn) as (r & s' & R & Hs' & Hfr & Hr).
  rewrite Ep, Em, Ek in Hr. fold x in Hr. exists r, s'. split_and!; try done; [by etransitivity|].
  destruct r as [v|]; [|done]. destruct Hr as [(-> & -> & ? & ? & ?)|Hr]; [left; by rewrite Ep | by right].
Qed.

(** A read that fails loses data.  When the first byte of the destination is not
    writable, [piperead] on a pipe that holds bytes returns 0, as at the end of the stream,
    and the oldest byte is gone from the pipe: the counter is advanced before the copy is
    known to succeed. *)
Theorem piperead_loses_byte addr n s c q :
  pipe_pre s → 0 ≤ addr → addr + n < 2 ^ 64 → 0 < n →
  pipe_q (kn_pipes s pi) = c :: q → user_writable (kmemory s) pt addr = false →
  ∃ s', piperead_start cur kaddr pi addr n s = Ok (Done 0, s') ∧ pipe_q (kn_pipes s' pi) = q.
Proof.
  intros Hs Ha Hn Hpos Eq Hw. unfold piperead_start. rewrite bind_rd_pipe. unfold id. set (x := kn_pipes s pi) in *.
  assert (Hne : pi_nread x ≠ pi_nwrite x) by (intros E; apply pipe_empty_iff in E; [congruence | apply Hs]).
  destruct (Z.eqb_spec (pi_nread x) (pi_nwrite x)) as [|Hne']; [done|]. cbn [andb piperead_loop].
  destruct (Z.ltb_spec 0 n); [|lia]. rewrite bind_assoc, bind_rd_pipe. unfold id. fold x.
  destruct (Z.eqb_spec (pi_nread x) (pi_nwrite x)) as [|_]; [done|].
  rewrite bind_assoc, bind_upd_pipe. fold x (pop x). destruct (pop_step s Hs Hne) as (Hs1 & _ & Eq1). fold x in Hs1, Eq1.
  set (s1 := set_kn_pipes _ s) in *. rewrite bind_assoc, bind_wr_mem, bind_assoc, bind_rd_proc.
  change (kn_procs (set_km _ s1) cur) with (kn_procs s1 cur). rewrite (pp_pt _ Hs1), bind_assoc, Z.add_0_r.
  destruct (store_byte addr (pi_data x (pi_nread x mod PIPESIZE)) s1 Hs1 ltac:(lia) (po_byte _ (pp_ok _ Hs) _))
    as (r & s2 & R2 & Hs2 & _ & Ep2 & _ & _ & _ & Hres). rewrite (bind_ok _ _ _ _ _ R2).
  destruct Hres as [(-> & Hwr & _)|[-> _]].
  - change (kmemory s1) with (kmemory s) in Hwr. congruence.
  - change (err =? err) with true. cbv iota. rewrite bind_ret.
    destruct (wakeup_pipe (ChPipeWrite pi) s2 Hs2) as (s3 & R3 & _ & _ & Ep3 & _). rewrite (bind_ok _ _ _ _ _ R3).
    exists s3. split; [done|]. rewrite Ep3, Ep2. rewrite Eq in Eq1. by injection Eq1.
Qed.

End pipe.

(** ** Streams *)

Section stream.
  Context {K : KernelImage} {KOk : KernelImageOk K} (kaddr : slot → Z) (pi : Z).

(** Bytes a stretch of [pipewrite] wrote, and of [piperead] read, from its result. *)
Definition wrote (i : Z) (r : step Z Z) : Z :=
  match r with Done v => if v =? err then 0 else v - i | Blocked i' => i' - i end.
Definition fetched (r : step unit Z) : Z :=
  match r with Done v => if v =? err then 0 else v | Blocked _ => 0 end.

(** Same bytes queued; the ends may be closed or opened. *)
Definition same_ring (x y : pipe) : Prop :=
  pi_data y = pi_data x ∧ pi_nread y = pi_nread x ∧ pi_nwrite y = pi_nwrite x.

(** Executions seen from one pipe: any processes write to it and read from it, each with
    its own page table, in any order and cut at every sleep, and anything else happens in
    between.  The lists are the bytes written and the bytes read since [s0]. *)
Inductive pipe_run (s0 : kernel) : list Z → list Z → kernel → Prop :=
  | run_start : pipe_ok (kn_pipes s0 pi) → pipe_run s0 [] [] s0
  | run_write W R s cur pt T addr n i call r s' l :
      pipe_run s0 W R s → pipe_pre cur kaddr pi pt T s →
      call = pipewrite_start cur kaddr pi addr n ∧ i = 0 ∨ call = pipewrite_resume cur kaddr pi addr n i →
      0 ≤ addr → 0 ≤ i → addr + Z.max n i < 2 ^ 64 →
      call s = Ok (r, s') →
      user_bytes pt (kmemory s) (addr + i) l → Z.of_nat (length l) = wrote i r →
      pipe_run s0 (W ++ l) R s'
  | run_read W R s cur pt T addr n call r s' l :
      pipe_run s0 W R s → pipe_pre cur kaddr pi pt T s →
      call = piperead_start cur kaddr pi addr n ∨ call = piperead_resume cur kaddr pi addr n →
      0 ≤ addr → addr + Z.max n 0 < 2 ^ 64 →
      (∀ j, 0 ≤ j < n → user_writable (kmemory s) pt (addr + j) = true) →
      call s = Ok (r, s') →
      user_bytes pt (kmemory s') addr l → Z.of_nat (length l) = fetched r →
      pipe_run s0 W (R ++ l) s'
  | run_other W R s s' :
      pipe_run s0 W R s → same_ring (kn_pipes s pi) (kn_pipes s' pi) → pipe_run s0 W R s'.

Lemma user_bytes_inj pt m a l l' : user_bytes pt m a l → user_bytes pt m a l' → length l = length l' → l = l'.
Proof.
  intros H1 H2 Hl. apply list_eq_same_length with (length l'); [done..|]. intros i x y Hi Hx Hy.
  apply H1 in Hx. apply H2 in Hy. congruence.
Qed.

Lemma same_ring_ok x y : same_ring x y → pipe_ok x → pipe_ok y ∧ pipe_q y = pipe_q x.
Proof. intros (E1 & E2 & E3) [H1 H2 H3 H4]. unfold pipe_q, pipe_len in *. rewrite E1, E2, E3. split; [split|]; unfold pipe_len; rewrite ?E1, ?E2, ?E3; done. Qed.


End stream.

(** ** A pipe in use *)

#[local] Existing Instance xv6_image.
#[local] Existing Instance xv6_image_ok.

(** Process 1 with one user page (VmExample.v), and a pipe whose counters are about to
    wrap, with the byte 7 queued. *)
Definition ex_proc : proc :=
  mkProc RUNNING None 0 0 5 None 0 4096 ex_root ex_f1 (mkContext 0 0 []) (replicate 16 None) None 0.
Definition ex_pipe : pipe := mkPipe (λ _, 7) (2 ^ 32 - 1) 0 true true.
Definition ex_file : file := mkFile FD_NONE 0 false false 0 0 0 0.
Definition ex_disk : disk :=
  mkDisk (λ _, mkDesc DNull 0 0 0) 0 (λ _, 0) 0 (λ _, 0) (λ _, true) 0 (λ _, None) (λ _, 0) (λ _, mkReq 0 0 0) (λ _, false) (λ _, 0).
Definition ex_kernel (x : lstate) : kernel :=
  mkKernel (mkFsys x mkfs_sb ex_it ex_state) (λ _, ex_proc) (λ _, None) 6 (Some 0%nat) (λ _, ex_file) (λ _, ex_pipe)
    (λ _, false) (mkCons (λ _, 0) 0 0 0) (mkUart (λ _, 0) 0 0 (λ _, 0) 0 (λ _, 0%nat) [] []) ex_disk 0 false false.
Definition ex_slots (s : slot) : Z := ex_buf.

Lemma ex_pipe_pre x : pipe_pre 1 ex_slots ex_f2 ex_root ex_T (ex_kernel x).
Proof.
  split; [done | split; [apply ex_space | apply ex_kernel_byte; unfold ex_slots, PGSIZE; lia] |].
  split; cbn [pi_data pi_nread pi_nwrite kn_pipes ex_kernel ex_pipe]; [lia | lia | lia | by vm_compute].
Qed.

(** Address 4096 is not mapped. *)
Lemma piperead_loses_byte_witness :
  ∃ x s', piperead_start 1 ex_slots ex_f2 4096 1 (ex_kernel x) = Ok (Done 0, s') ∧ pipe_q (kn_pipes s' ex_f2) = [].
Proof.
  destruct (boot_tx (λ _, ex_C)) as [x _]. exists x.
  apply (piperead_loses_byte 1 ex_slots ex_f2 ex_root ex_T 4096 1 (ex_kernel x) 7 []);
    [apply ex_pipe_pre | lia | lia | lia | by vm_compute |].
  unfold user_writable. cbn [kmemory ex_kernel kn_fs fs_km ex_state k_mem]. rewrite ex_lookup by lia.
  rewrite decide_False by (unfold PGSIZE; lia). apply andb_false_r.
Defined.

