(* ===== verification/Proc.v ===== *)
(** * Proc: creating and ending processes (src/kernel/proc.c)

    [cur] is the running process.  [exit] and [forkret] are followed up to the switch to
    the scheduler or to user space, which do not come back. *)

From stdpp Require Import functions.
From S2P Require Import Prelude Mem Layout Kalloc Vm FsFormat Bio Log Fs Kern Sched Printf Console File.
Import CString.

Local Open Scope Z_scope.

(** A null pointer is followed. *)
Definition undefined {A} : XM A := panic "undefined behaviour".

Definition opt_get {A} (o : option A) : XM A :=
  match o with Some a => mret a | None => undefined end.

(** Bytes of [p->name]. *)
Definition NAME_SIZE : Z := 16.

(** The program in [initcode[]]. *)
Definition initcode : list Z :=
  [0x17; 0x05; 0x00; 0x00; 0x13; 0x05; 0x45; 0x02;
   0x97; 0x05; 0x00; 0x00; 0x93; 0x85; 0x35; 0x02;
   0x93; 0x08; 0x70; 0x00; 0x73; 0x00; 0x00; 0x00;
   0x93; 0x08; 0x20; 0x00; 0x73; 0x00; 0x00; 0x00;
   0xef; 0xf0; 0x9f; 0xff; 0x2f; 0x69; 0x6e; 0x69;
   0x74; 0x00; 0x00; 0x24; 0x00; 0x00; 0x00; 0x00;
   0x00; 0x00; 0x00; 0x00].

Section proc.
  Context `{KernelImage} (cur : nat) (kaddr : slot → Z).
  (** The address of [forkret]. *)
  Context (forkret_addr : Z).

Definition freeproc (p : nat) : XM unit :=
  x ← rd_proc p id;
  (if negb (p_trapframe x =? 0) then in_km (kfree (p_trapframe x)) else mret tt);;
  upd_proc p (set_p_trapframe 0);;
  (if negb (p_pagetable x =? 0) then in_km (proc_freepagetable (p_pagetable x) (p_sz x)) else mret tt);;
  upd_proc p (λ x, set_p_parent None (set_p_pid 0 (set_p_sz 0 (set_p_pagetable 0 x))));;
  wr_mem (λ m, st8 m (kaddr (SProcName p)) 0);;
  upd_proc p (λ x, set_p_state UNUSED (set_p_xstate 0 (set_p_killed 0 (set_p_chan None x)))).

(** The search of [allocproc]. *)
Fixpoint find_unused (k p : nat) : XM (option nat) :=
  match k with
  | O => mret None
  | S k' =>
      st ← rd_proc p p_state;
      if bool_decide (st = UNUSED) then mret (Some p) else find_unused k' (S p)
  end.

Definition allocproc : XM (option nat) :=
  o ← find_unused (Z.to_nat NPROC) 0;
  match o with
  | None => mret None
  | Some p =>
      pid ← allocpid;
      upd_proc p (λ x, set_p_state USED (set_p_pid pid x));;
      tf ← in_km kalloc;
      upd_proc p (set_p_trapframe tf);;
      if tf =? 0 then freeproc p;; mret None
      else
        pt ← in_km (proc_pagetable tf);
        upd_proc p (set_p_pagetable pt);;
        if pt =? 0 then freeproc p;; mret None
        else
          ks ← rd_proc p p_kstack;
          upd_proc p (set_p_context (mkContext forkret_addr (u64 (ks + PGSIZE)) (replicate 12 0)));;
          mret (Some p)
  end.

Definition userinit : XM unit :=
  o ← allocproc;
  modify (set_kn_initproc o);;
  p ← opt_get o;
  pt ← rd_proc p p_pagetable;
  in_km (uvmfirst pt (kaddr SInitcode) (Z.of_nat (length initcode)));;
  upd_proc p (set_p_sz PGSIZE);;
  wr_tf p TF_epc 0;;
  wr_tf p TF_sp PGSIZE;;
  wr_mem (λ m, safestrcpy m (kaddr (SProcName p)) (kaddr (SStr "initcode")) NAME_SIZE);;
  cwd ← with_proc cur (λ me pt cwd, namei me pt cwd kaddr (kaddr (SStr "/")));
  upd_proc p (set_p_cwd cwd);;
  upd_proc p (set_p_state RUNNABLE).

Definition growproc (n : Z) : XM Z :=
  x ← rd_proc cur id;
  let sz := p_sz x in
  if 0 <? n then
    r ← in_km (uvmalloc (p_pagetable x) sz (u64 (sz + n)) PTE_W);
    if r =? 0 then mret err else upd_proc cur (set_p_sz r);; mret 0
  else if n <? 0 then
    r ← in_km (uvmdealloc (p_pagetable x) sz (u64 (sz + n)));
    upd_proc cur (set_p_sz r);; mret 0
  else upd_proc cur (set_p_sz sz);; mret 0.

(** [for(i = 0; i < NOFILE; i++) if(p->ofile[i]) np->ofile[i] = filedup(p->ofile[i]);] *)
Fixpoint dup_files (k i np : nat) : XM unit :=
  match k with
  | O => mret tt
  | S k' =>
      o ← rd_proc cur (λ x, p_ofile x !! i ≫= id);
      (match o with
       | Some f => f' ← filedup f; upd_proc np (λ x, set_p_ofile (<[i := Some f']> (p_ofile x)) x)
       | None => mret tt
       end);;
      dup_files k' (S i) np
  end.

(** [fork()] while it holds [np->lock]: the child, its pid, ready but for its parent. *)
Definition fork_copy : XM (option (nat * Z)) :=
  o ← allocproc;
  match o with
  | None => mret None
  | Some np =>
      p ← rd_proc cur id;
      npt ← rd_proc np p_pagetable;
      r ← in_km (uvmcopy (p_pagetable p) npt (p_sz p));
      if r <? 0 then freeproc np;; mret None
      else
        upd_proc np (set_p_sz (p_sz p));;
        ntf ← rd_proc np p_trapframe;
        wr_mem (λ m, memmove m ntf (p_trapframe p) TF_SIZE);;
        upd_proc np (set_p_trace_mask (p_trace_mask p));;
        wr_tf np TF_a0 0;;
        dup_files (Z.to_nat NOFILE) 0 np;;
        cwd ← opt_get (p_cwd p);
        cwd' ← in_fs (idup cwd);
        upd_proc np (set_p_cwd (Some cwd'));;
        wr_mem (λ m, safestrcpy m (kaddr (SProcName np)) (kaddr (SProcName cur)) NAME_SIZE);;
        pid ← rd_proc np p_pid;
        mret (Some (np, pid))
  end.

(** Its two other critical sections, under [wait_lock] and under [np->lock]. *)
Definition fork_parent (np : nat) : XM unit := upd_proc np (set_p_parent (Some cur)).
Definition fork_run (np : nat) : XM unit := upd_proc np (set_p_state RUNNABLE).

Definition fork : XM Z :=
  o ← fork_copy;
  match o with
  | None => mret err
  | Some (np, pid) => fork_parent np;; fork_run np;; mret pid
  end.

Fixpoint reparent_loop (k pp p : nat) : XM unit :=
  match k with
  | O => mret tt
  | S k' =>
      par ← rd_proc pp p_parent;
      (if bool_decide (par = Some p) then
         init ← gets kn_initproc;
         upd_proc pp (set_p_parent init);;
         wakeup_on cur (ChProc <$> init)
       else mret tt);;
      reparent_loop k' (S pp) p
  end.
Definition reparent (p : nat) : XM unit := reparent_loop (Z.to_nat NPROC) 0 p.

(** [for(int fd = 0; fd < NOFILE; fd++)] of [exit]. *)
Fixpoint close_files (k fd : nat) : XM unit :=
  match k with
  | O => mret tt
  | S k' =>
      o ← rd_proc cur (λ x, p_ofile x !! fd ≫= id);
      (match o with
       | Some f => fileclose cur f;; upd_proc cur (λ x, set_p_ofile (<[fd := None]> (p_ofile x)) x)
       | None => mret tt
       end);;
      close_files k' (S fd)
  end.

(** [exit(status)] from where it takes [wait_lock] up to the switch to the scheduler. *)
Definition exit_zombie (status : Z) : XM unit :=
  reparent cur;;
  par ← rd_proc cur p_parent;
  wakeup_on cur (ChProc <$> par);;
  upd_proc cur (λ x, set_p_state ZOMBIE (set_p_xstate status x));;
  sched_check cur.

Definition exit (status : Z) : XM unit :=
  init ← gets kn_initproc;
  if bool_decide (init = Some cur) then panic "init exiting"
  else
    close_files (Z.to_nat NOFILE) 0;;
    begin_op_x;;
    cwd ← rd_proc cur p_cwd;
    cwd ← opt_get cwd;
    with_proc cur (λ me _ _, iput me cwd);;
    end_op_x cur;;
    upd_proc cur (set_p_cwd None);;
    exit_zombie status.

(** The scan of [wait] from entry [pp]: the result to return, or whether it saw a child. *)
Fixpoint wait_scan (k pp : nat) (addr : Z) (havekids : bool) : XM (Z + bool) :=
  match k with
  | O => mret (inr havekids)
  | S k' =>
      x ← rd_proc pp id;
      if bool_decide (p_parent x = Some cur) then
        if bool_decide (p_state x = ZOMBIE) then
          let pid := p_pid x in
          pt ← rd_proc cur p_pagetable;
          r ← (if negb (addr =? 0) then
                 wr_mem (λ m, st32 m (kaddr (SXstate pp)) (p_xstate x));;
                 in_km (copyout pt addr (kaddr (SXstate pp)) 4)
               else mret 0);
          if r <? 0 then mret (inl err)
          else freeproc pp;; mret (inl pid)
        else wait_scan k' (S pp) addr true
      else wait_scan k' (S pp) addr havekids
  end.

(** [wait(addr)] from when it holds [wait_lock]: to its return or its sleep. *)
Definition wait_start (addr : Z) : XM (step unit Z) :=
  r ← wait_scan (Z.to_nat NPROC) 0 addr false;
  match r with
  | inl v => mret (Done v)
  | inr havekids =>
      kl ← killed cur;
      if negb havekids || negb (kl =? 0) then mret (Done err)
      else sleep_enter cur (ChProc cur);; mret (Blocked tt)
  end.
Definition wait_resume (addr : Z) : XM (step unit Z) := sleep_exit cur;; wait_start addr.
Definition wait (addr : Z) : XM Z := blocking (wait_start addr).

(** [forkret()] up to [usertrapret()]. *)
Definition forkret : XM unit :=
  first ← gets kn_first;
  if first : bool then
    pid ← rd_proc cur p_pid;
    in_fs (fsinit pid ROOTDEV);;
    modify (set_kn_first false)
  else mret tt.

End proc.
