(* ===== verification/ProcTree.v ===== *)
(** * ProcTree: the tree of processes (src/kernel/proc.c)

    fork, exit, wait, kill, sleep, wakeup and the scheduler, interleaved at their critical
    sections, keep the process table a tree: live processes have distinct pids, every
    process but the first has a live parent, and a zombie is always someone's to reap. *)

From stdpp Require Import functions.
From S2P Require Import Prelude Mem Layout Kalloc Vm FsFormat Bio Log Fs Kern Sched Printf Console File Proc.

Local Open Scope Z_scope.

(** ** What operations do to the table *)

(** The channel a process sleeps on. *)
Definition asleep (x : proc) : option chan := if bool_decide (p_state x = SLEEPING) then p_chan x else None.

(** The part of a process the tree is made of. *)
Definition core (x : proc) : procstate * Z * option nat * option chan := (p_state x, p_pid x, p_parent x, asleep x).

Lemma core_inj x st pid par ch : core x = (st, pid, par, ch) → p_state x = st ∧ p_pid x = pid ∧ p_parent x = par ∧ asleep x = ch.
Proof. unfold core. by intros [= -> -> -> ->]. Qed.
Lemma core_eq x y : core x = core y → p_state x = p_state y ∧ p_pid x = p_pid y ∧ p_parent x = p_parent y ∧ asleep x = asleep y.
Proof. unfold core. by intros [= -> -> -> ->]. Qed.

(** Same table up to other fields. *)
Record same_tab (s s' : kernel) : Prop := {
  sm_core q : core (kn_procs s' q) = core (kn_procs s q);
  sm_next : kn_nextpid s' = kn_nextpid s;
  sm_init : kn_initproc s' = kn_initproc s;
}.

(** Only process [p] changed, to core [c]. *)
Record one_tab (p : nat) (c : procstate * Z * option nat * option chan) (s s' : kernel) : Prop := {
  ot_other q : q ≠ p → core (kn_procs s' q) = core (kn_procs s q);
  ot_core : core (kn_procs s' p) = c;
  ot_next : kn_nextpid s' = kn_nextpid s;
  ot_init : kn_initproc s' = kn_initproc s;
}.

#[export] Instance same_tab_refl : Reflexive same_tab.
Proof. by split. Qed.
#[export] Instance same_tab_trans : Transitive same_tab.
Proof. intros s1 s2 s3 [A1 A2 A3] [B1 B2 B3]. split; intros; congruence. Qed.

Lemma same_one p c s s1 s' : same_tab s s1 → one_tab p c s1 s' → one_tab p c s s'.
Proof.
  intros [A1 A2 A3] [B1 B2 B3 B4]. split; [| done | congruence..]. intros q Hq. by rewrite B1, A1.
Qed.
Lemma one_same p c s s1 s' : one_tab p c s s1 → same_tab s1 s' → one_tab p c s s'.
Proof.
  intros [B1 B2 B3 B4] [A1 A2 A3]. split; [| by rewrite A1 | congruence..]. intros q Hq. by rewrite A1, B1.
Qed.
Lemma one_one p c c' s s1 s' : one_tab p c s s1 → one_tab p c' s1 s' → one_tab p c' s s'.
Proof.
  intros [A1 A2 A3 A4] [B1 B2 B3 B4]. split; [| done | congruence..]. intros q Hq. by rewrite B1, A1.
Qed.

Lemma in_fs_inv {A} (m : FM A) s a s' : in_fs m s = Ok (a, s') → ∃ f, s' = set_kn_fs f s.
Proof. unfold in_fs, zoom. destruct (m (kn_fs s)) as [[]| | |]; try done. intros [= -> <-]. eauto. Qed.

Lemma in_fs_same {A} (m : FM A) s a s' : in_fs m s = Ok (a, s') → same_tab s s'.
Proof. intros [f ->]%in_fs_inv. by split. Qed.

Lemma when_same (b : bool) (m : KM unit) s s' : (if b then in_km m else mret tt) s = Ok (tt, s') → same_tab s s'.
Proof. destruct b; [apply in_fs_same | by intros [= <-]]. Qed.

Lemma with_proc_same {A} cur (f : Z → Z → nat → FM A) s a s' : with_proc cur f s = Ok (a, s') → same_tab s s'.
Proof. apply in_fs_same. Qed.

Lemma upd_proc_one p g s s' : upd_proc p g s = Ok (tt, s') → one_tab p (core (g (kn_procs s p))) s s'.
Proof.
  intros [= <-]. split; cbn; [|by rewrite fn_lookup_insert|done..]. intros q Hq. by rewrite fn_lookup_insert_ne.
Qed.

Lemma upd_proc_same p g s s' :
  upd_proc p g s = Ok (tt, s') → core (g (kn_procs s p)) = core (kn_procs s p) → same_tab s s'.
Proof.
  intros [A1 A2 A3 A4]%upd_proc_one E. split; [|done..]. intros q. destruct (decide (q = p)) as [->|]; [congruence | by apply A1].
Qed.

Lemma wr_tf_same p r v s s' : wr_tf p r v s = Ok (tt, s') → same_tab s s'.
Proof. apply in_fs_same. Qed.

Lemma upd_file_same f g s s' : upd_file f g s = Ok (tt, s') → same_tab s s'.
Proof. by intros [= <-]. Qed.

Section tab.
  Context `{KernelImage} (cur : nat) (kaddr : slot → Z) (forkret_addr : Z).

Lemma freeproc_tab p s s' : freeproc kaddr p s = Ok (tt, s') → one_tab p (UNUSED, 0, None, None) s s'.
Proof.
  unfold freeproc. intros R. rewrite bind_rd_proc in R. set (x := id (kn_procs s p)) in R. apply bind_ok_inv in R as ([] & s1 & R1 & R).
  apply bind_ok_inv in R as ([] & s2 & R2 & R). apply bind_ok_inv in R as ([] & s3 & R3 & R).
  apply bind_ok_inv in R as ([] & s4 & R4 & R). apply bind_ok_inv in R as ([] & s5 & R5 & R).
  assert (H1 : same_tab s s1) by (by eapply when_same).
  assert (H2 : same_tab s1 s2) by (by eapply upd_proc_same).
  assert (H3 : same_tab s2 s3) by (by eapply when_same).
  apply upd_proc_one in R4. apply in_fs_same in R5. pose proof (upd_proc_one _ _ _ _ R) as R6.
  eapply same_one; [exact H1|]. eapply same_one; [exact H2|]. eapply same_one; [exact H3|].
  eapply one_one; [exact R4|]. eapply same_one; [exact R5|].
  assert (E : core (kn_procs s5 p) = core (kn_procs s4 p)) by (by rewrite (sm_core _ _ R5)).
  destruct R6 as [B1 B2 B3 B4]. split; [done | | done..]. rewrite B2. destruct R4 as [_ C2 _ _]. rewrite C2 in E.
  apply core_inj in E as (_ & E2 & E3 & _). unfold core. cbn. by rewrite E2, E3.
Qed.

Lemma find_unused_spec k : ∀ p s, ∃ o, find_unused k p s = Ok (o, s) ∧
  match o with
  | Some q => (p ≤ q < p + k)%nat ∧ p_state (kn_procs s q) = UNUSED ∧ ∀ r, (p ≤ r < q)%nat → p_state (kn_procs s r) ≠ UNUSED
  | None => ∀ q, (p ≤ q < p + k)%nat → p_state (kn_procs s q) ≠ UNUSED
  end.
Proof.
  induction k as [|k IH]; intros p s; cbn [find_unused].
  { exists None. split; [done | lia]. }
  rewrite bind_rd_proc. destruct (bool_decide_reflect (p_state (kn_procs s p) = UNUSED)) as [E|E].
  { exists (Some p). split; [done|]. split_and!; [lia | lia | done | lia]. }
  destruct (IH (S p) s) as (o & R & Ho). exists o. split; [done|]. destruct o as [q|].
  { destruct Ho as (Hq & Hst & Hf). split_and!; [lia | lia | done|]. intros r Hr. destruct (decide (r = p)) as [->|]; [done | apply Hf; lia]. }
  intros q Hq. destruct (decide (q = p)) as [->|]; [done | apply Ho; lia].
Qed.

(** [allocproc]: a free entry, with a new pid; or nothing, up to the pid counter. *)
Lemma allocproc_tab s o s' :
  allocproc kaddr forkret_addr s = Ok (o, s') →
  match o with
  | Some p =>
      (p < Z.to_nat NPROC)%nat ∧ p_state (kn_procs s p) = UNUSED ∧
      (∀ q, q ≠ p → core (kn_procs s' q) = core (kn_procs s q)) ∧
      core (kn_procs s' p) = (USED, kn_nextpid s, p_parent (kn_procs s p), None) ∧
      (∀ q, (q < p)%nat → p_state (kn_procs s q) ≠ UNUSED) ∧ p_killed (kn_procs s' p) = p_killed (kn_procs s p) ∧
      kn_nextpid s' = i32 (kn_nextpid s + 1) ∧ kn_initproc s' = kn_initproc s
  | None =>
      same_tab s s' ∨ ∃ p, (p < Z.to_nat NPROC)%nat ∧ p_state (kn_procs s p) = UNUSED ∧
        (∀ q, q ≠ p → core (kn_procs s' q) = core (kn_procs s q)) ∧ core (kn_procs s' p) = (UNUSED, 0, None, None) ∧
        kn_nextpid s' = i32 (kn_nextpid s + 1) ∧ kn_initproc s' = kn_initproc s
  end.
Proof.
  unfold allocproc. intros R. destruct (find_unused_spec (Z.to_nat NPROC) 0 s) as (o0 & R0 & Ho).
  rewrite (bind_ok _ _ _ _ _ R0) in R. destruct o0 as [p|]; [|injection R as <- <-; by left]. destruct Ho as (Hp & Hst & Hfirst).
  unfold allocpid in R. rewrite bind_assoc, bind_gets, bind_assoc, bind_modify, bind_ret, bind_upd_proc in R.
  apply bind_ok_inv in R as (tf & s1 & R1 & R). apply in_fs_inv in R1 as [f1 ->]. rewrite bind_upd_proc in R.
  set (s2 := set_kn_procs _ _) in R.
  assert (H2 : (∀ q, q ≠ p → kn_procs s2 q = kn_procs s q) ∧ kn_procs s2 p = set_p_trapframe tf (set_p_state USED (set_p_pid (kn_nextpid s) (kn_procs s p))) ∧
    kn_nextpid s2 = i32 (kn_nextpid s + 1) ∧ kn_initproc s2 = kn_initproc s).
  { subst s2. cbn. split_and!; [|by rewrite !fn_lookup_insert|done..]. intros q Hq. by rewrite !fn_lookup_insert_ne. }
  clearbody s2. destruct H2 as (H2 & E2 & N2 & I2).
  assert (Hfail : ∀ s3 s', same_tab s2 s3 → (freeproc kaddr p;; mret None) s3 = Ok (o, s') → o = None ∧
    (∀ q, q ≠ p → core (kn_procs s' q) = core (kn_procs s q)) ∧ core (kn_procs s' p) = (UNUSED, 0, None, None) ∧
    kn_nextpid s' = i32 (kn_nextpid s + 1) ∧ kn_initproc s' = kn_initproc s).
  { intros s3 s4 H3 Rf. apply bind_ok_inv in Rf as ([] & s5 & Rf & [= <- <-]). apply freeproc_tab in Rf.
    pose proof (same_one _ _ _ _ _ H3 Rf) as [C1 C2 C3 C4]. split_and!; [done | | done | congruence | congruence].
    intros q Hq. rewrite C1, H2 by done. done. }
  destruct (tf =? 0).
  { destruct (Hfail s2 s' (reflexivity _) R) as (-> & Hres). right. exists p. split_and!; [lia | done | apply Hres..]. }
  apply bind_ok_inv in R as (pt & s3 & R3 & R). apply in_fs_inv in R3 as [f3 ->]. rewrite bind_upd_proc in R.
  set (s4 := set_kn_procs _ _) in R.
  assert (H4 : (∀ q, q ≠ p → kn_procs s4 q = kn_procs s2 q) ∧ kn_procs s4 p = set_p_pagetable pt (kn_procs s2 p) ∧
    kn_nextpid s4 = kn_nextpid s2 ∧ kn_initproc s4 = kn_initproc s2).
  { subst s4. cbn. split_and!; [|by rewrite fn_lookup_insert|done..]. intros q Hq. by rewrite fn_lookup_insert_ne. }
  clearbody s4. destruct H4 as (H4 & E4 & N4 & I4). destruct (pt =? 0).
  { assert (H24 : same_tab s2 s4).
    { split; [|done..]. intros q. destruct (decide (q = p)) as [->|]; [by rewrite E4 | by rewrite H4]. }
    destruct (Hfail s4 s' H24 R) as (-> & Hres). right. exists p. split_and!; [lia | done | apply Hres..]. }
  rewrite bind_rd_proc, bind_upd_proc in R. injection R as <- <-. cbn. rewrite fn_lookup_insert, E4, E2.
  split_and!; try done; [lia | | intros q Hq; apply Hfirst; lia | congruence..]. intros q Hq. by rewrite fn_lookup_insert_ne, H4, H2 by done.
Qed.

Lemma filedup_same f s a s' : filedup f s = Ok (a, s') → same_tab s s'.
Proof.
  unfold filedup. intros R. apply bind_ok_inv in R as (r & s1 & [= <- <-] & R). destruct (_ <? 1); [done|].
  apply bind_ok_inv in R as ([] & s2 & R2 & [= <- <-]). by eapply upd_file_same.
Qed.

Lemma dup_files_same np k : ∀ i s s', dup_files cur k i np s = Ok (tt, s') → same_tab s s'.
Proof.
  induction k as [|k IH]; intros i s s'; cbn [dup_files]; [by intros [= <-]|].
  rewrite bind_rd_proc. intros R. apply bind_ok_inv in R as ([] & s1 & R1 & R). etransitivity; [|by eapply IH].
  destruct (_ ≫= id) as [f|]; [|by injection R1 as <-]. apply bind_ok_inv in R1 as (f' & s2 & R2 & R1).
  etransitivity; [by eapply filedup_same | by eapply upd_proc_same].
Qed.

(** [fork] up to the child's pid: a new process without a parent, or nothing. *)
Lemma fork_copy_tab s o s' :
  fork_copy cur kaddr forkret_addr s = Ok (o, s') →
  match o with
  | Some (p, pid) =>
      (p < Z.to_nat NPROC)%nat ∧ p_state (kn_procs s p) = UNUSED ∧ pid = kn_nextpid s ∧
      (∀ q, q ≠ p → core (kn_procs s' q) = core (kn_procs s q)) ∧
      core (kn_procs s' p) = (USED, kn_nextpid s, p_parent (kn_procs s p), None) ∧
      kn_nextpid s' = i32 (kn_nextpid s + 1) ∧ kn_initproc s' = kn_initproc s
  | None =>
      same_tab s s' ∨ ∃ p, (p < Z.to_nat NPROC)%nat ∧ p_state (kn_procs s p) = UNUSED ∧
        (∀ q, q ≠ p → core (kn_procs s' q) = core (kn_procs s q)) ∧ core (kn_procs s' p) = (UNUSED, 0, None, None) ∧
        kn_nextpid s' = i32 (kn_nextpid s + 1) ∧ kn_initproc s' = kn_initproc s
  end.
Proof.
  unfold fork_copy. intros R. apply bind_ok_inv in R as (o0 & s0 & R0 & R). apply allocproc_tab in R0.
  destruct o0 as [p|]; [|by injection R as <- <-]. destruct R0 as (Hp & Hst & Hq & Hc & _ & _ & Hn & Hi).
  rewrite !bind_rd_proc in R. apply bind_ok_inv in R as (r & s1 & R1 & R). apply in_fs_same in R1. destruct (r <? 0).
  { apply bind_ok_inv in R as ([] & s2 & R2 & [= <- <-]). apply freeproc_tab in R2.
    destruct (same_one _ _ _ _ _ R1 R2) as [C1 C2 C3 C4]. right. exists p. split_and!; try done; [|congruence..].
    intros q Hqp. by rewrite C1, Hq. }
  assert (Hsame : same_tab s1 s' ∧ o = Some (p, p_pid (kn_procs s' p))).
  { apply bind_ok_inv in R as ([] & s2 & R2 & R). rewrite bind_rd_proc in R.
    apply bind_ok_inv in R as ([] & s3 & R3 & R). apply bind_ok_inv in R as ([] & s4 & R4 & R).
    apply bind_ok_inv in R as ([] & s5 & R5 & R). apply bind_ok_inv in R as ([] & s6 & R6 & R).
    destruct (p_cwd _) as [cwd|]; [|done]. cbn [opt_get] in R. rewrite bind_ret in R.
    apply bind_ok_inv in R as (cwd' & s7 & R7 & R). apply bind_ok_inv in R as ([] & s8 & R8 & R).
    apply bind_ok_inv in R as ([] & s9 & R9 & R). rewrite bind_rd_proc in R. injection R as <- <-. split; [|done].
    etransitivity; [by eapply upd_proc_same|]. etransitivity; [by eapply in_fs_same|]. etransitivity; [by eapply upd_proc_same|].
    etransitivity; [by eapply wr_tf_same|]. etransitivity; [by eapply dup_files_same|]. etransitivity; [by eapply in_fs_same|].
    etransitivity; [by eapply upd_proc_same | by eapply in_fs_same]. }
  destruct Hsame as [Hs ->]. pose proof (transitivity R1 Hs) as [C1 C2 C3]. pose proof (C1 p) as Cp. rewrite Hc in Cp.
  split_and!; try done; [by injection Cp | | congruence | congruence]. intros q Hqp. by rewrite C1, Hq.
Qed.

(** Moves between the states of a live process. *)
Definition lively (st : procstate) : Prop := st = SLEEPING ∨ st = RUNNABLE ∨ st = RUNNING.
Definition moved (st st' : procstate) : Prop := st' = st ∨ lively st ∧ lively st'.

(** No process goes to sleep on a process's channel, where [wait] sleeps. *)
Definition waits (x : proc) (r : nat) : Prop := asleep x = Some (ChProc r).
Definition calm (x y : proc) : Prop := ∀ r, waits y r → waits x r.

Lemma calm_refl x : calm x x.
Proof. by intros r. Qed.
Lemma calm_trans x y z : calm x y → calm y z → calm x z.
Proof. unfold calm. auto. Qed.
Lemma calm_awake x y : p_state y ≠ SLEEPING → calm x y.
Proof. intros Hy r. unfold waits, asleep. by rewrite bool_decide_false. Qed.
#[local] Hint Resolve calm_refl : core.

Record move_tab (s s' : kernel) : Prop := {
  mv_state q : moved (p_state (kn_procs s q)) (p_state (kn_procs s' q));
  mv_pid q : p_pid (kn_procs s' q) = p_pid (kn_procs s q);
  mv_parent q : p_parent (kn_procs s' q) = p_parent (kn_procs s q);
  mv_calm q : calm (kn_procs s q) (kn_procs s' q);
  mv_next : kn_nextpid s' = kn_nextpid s;
  mv_init : kn_initproc s' = kn_initproc s;
}.

Lemma moved_trans st1 st2 st3 : moved st1 st2 → moved st2 st3 → moved st1 st3.
Proof. unfold moved. intuition congruence. Qed.

Lemma same_move s s' : same_tab s s' → move_tab s s'.
Proof.
  intros [A1 A2 A3]. split; try done; intros q; specialize (A1 q); injection A1 as E1 E2 E3 E4; [by left | done..|].
  intros r. unfold waits. by rewrite E4.
Qed.

Lemma move_tab_trans s1 s2 s3 : move_tab s1 s2 → move_tab s2 s3 → move_tab s1 s3.
Proof. intros [] []. split; try congruence; intros q; [by eapply moved_trans | by eapply calm_trans]. Qed.

Lemma upd_proc_move p g s s' :
  upd_proc p g s = Ok (tt, s') → moved (p_state (kn_procs s p)) (p_state (g (kn_procs s p))) →
  calm (kn_procs s p) (g (kn_procs s p)) →
  p_pid (g (kn_procs s p)) = p_pid (kn_procs s p) → p_parent (g (kn_procs s p)) = p_parent (kn_procs s p) → move_tab s s'.
Proof.
  intros [= <-] Hst Hcm H1 H2. split; try done; intros q; cbn;
    (destruct (decide (q = p)) as [->|]; [by rewrite fn_lookup_insert | rewrite fn_lookup_insert_ne by done; try done; by left]).
Qed.

Lemma wakeup_on_move ch s s' : wakeup_on cur ch s = Ok (tt, s') → move_tab s s' ∧ kn_procs s' cur = kn_procs s cur.
Proof.
  destruct (wakeup_ok cur ch s) as (f & R & Hf). rewrite R. intros [= <-]. split; [|cbn; rewrite Hf; unfold woken; rewrite (decide_False (P := _ ∧ _)) by tauto; by destruct (decide _)].
  split; try done; intros q; cbn; rewrite Hf; (destruct (decide (q < _)%nat); [unfold woken; destruct (decide (_ ∧ _)) as [(_ & E & _)|]|]);
    try done; try by left.
  right. rewrite E. unfold lively. cbn. auto.
Qed.

Lemma kill_move k pid : ∀ p s r s', kill_loop k p pid s = Ok (r, s') → move_tab s s'.
Proof.
  induction k as [|k IH]; intros p s r s'; cbn [kill_loop]; [intros [= _ <-]; by apply same_move|].
  rewrite bind_rd_proc. unfold id. destruct (_ =? pid); [|apply IH]. intros R.
  apply bind_ok_inv in R as ([] & s1 & R1 & R). apply bind_ok_inv in R as ([] & s2 & R2 & [= _ <-]).
  eapply move_tab_trans; [by eapply same_move, upd_proc_same|].
  destruct (bool_decide_reflect (p_state (kn_procs s p) = SLEEPING)) as [E|]; [|injection R2 as <-; by apply same_move].
  eapply upd_proc_move; [exact R2 | | done..]. injection R1 as <-. cbn. rewrite fn_lookup_insert. cbn. rewrite E. right. unfold lively. auto.
Qed.

(** A process woken through its own channel does not wait any more. *)
Lemma wakeup_wakes i s s' : wakeup_on cur (Some (ChProc i)) s = Ok (tt, s') → (i < Z.to_nat NPROC)%nat → p_state (kn_procs s cur) ≠ SLEEPING →
  ¬ waits (kn_procs s' i) i.
Proof.
  intros R Hi Hc. destruct (wakeup_ok cur (Some (ChProc i)) s) as (f & R' & Hf). rewrite R' in R. injection R as <-. cbn.
  rewrite Hf, decide_True by done. unfold woken, waits, asleep. destruct (decide (_ ∧ _)) as [|Hn]; [done|].
  destruct (bool_decide_reflect (p_state (kn_procs s i) = SLEEPING)) as [E|]; [|done]. intros Hch. apply Hn. split_and!; [congruence | done..].
Qed.

(** One iteration of [reparent]. *)
Lemma reparent_one_tab p pp s s' :
  (if bool_decide (p_parent (kn_procs s pp) = Some p) then init ← gets kn_initproc; upd_proc pp (set_p_parent init);; wakeup_on cur (ChProc <$> init)
   else mret tt) s = Ok (tt, s') →
  (∀ q, p_parent (kn_procs s' q) = (if decide (q = pp ∧ p_parent (kn_procs s q) = Some p) then kn_initproc s else p_parent (kn_procs s q)) ∧
    moved (p_state (kn_procs s q)) (p_state (kn_procs s' q)) ∧ p_pid (kn_procs s' q) = p_pid (kn_procs s q) ∧
    calm (kn_procs s q) (kn_procs s' q)) ∧
  p_state (kn_procs s' cur) = p_state (kn_procs s cur) ∧ kn_nextpid s' = kn_nextpid s ∧ kn_initproc s' = kn_initproc s ∧
  (p_parent (kn_procs s pp) = Some p → p_state (kn_procs s cur) ≠ SLEEPING →
     ∀ i, kn_initproc s = Some i → (i < Z.to_nat NPROC)%nat → ¬ waits (kn_procs s' i) i).
Proof.
  destruct (bool_decide_reflect (p_parent (kn_procs s pp) = Some p)) as [E|E]; intros R.
  2:{ injection R as <-. split_and!; try done. intros q. rewrite decide_False by (intros [-> ?]; done). split_and!; try done. by left. }
  rewrite bind_gets, bind_upd_proc in R. set (s1 := set_kn_procs _ s) in R.
  assert (Hcur : p_state (kn_procs s1 cur) = p_state (kn_procs s cur)).
  { subst s1. cbn. destruct (decide (cur = pp)) as [->|]; [by rewrite fn_lookup_insert | by rewrite fn_lookup_insert_ne]. }
  split_and!.
  - intros q. apply wakeup_on_move in R as [[M1 M2 M3 M4 M5 M6] _]. specialize (M1 q). specialize (M2 q). specialize (M3 q). specialize (M4 q).
    rewrite M2, M3. subst s1. cbn in *. destruct (decide (q = pp)) as [->|].
    + rewrite !fn_lookup_insert in *. rewrite decide_True by done. done.
    + rewrite !fn_lookup_insert_ne in * by done. rewrite decide_False by tauto. done.
  - apply wakeup_on_move in R as [_ ->]. done.
  - by apply wakeup_on_move in R as [[] _].
  - by apply wakeup_on_move in R as [[] _].
  - intros _ Hc i Hi Hlt. rewrite Hi in R. cbn [fmap option_fmap option_map] in R. eapply wakeup_wakes; [exact R | done | by rewrite Hcur].
Qed.

(** [reparent]: the children of [p] become [init]'s, which is woken if there are any. *)
Lemma reparent_tab p k : ∀ pp s s', reparent_loop cur k pp p s = Ok (tt, s') →
  (∀ q, p_parent (kn_procs s' q) = (if decide ((pp ≤ q < pp + k)%nat ∧ p_parent (kn_procs s q) = Some p) then kn_initproc s else p_parent (kn_procs s q)) ∧
    moved (p_state (kn_procs s q)) (p_state (kn_procs s' q)) ∧ p_pid (kn_procs s' q) = p_pid (kn_procs s q) ∧
    calm (kn_procs s q) (kn_procs s' q)) ∧
  p_state (kn_procs s' cur) = p_state (kn_procs s cur) ∧ kn_nextpid s' = kn_nextpid s ∧ kn_initproc s' = kn_initproc s ∧
  (p_state (kn_procs s cur) ≠ SLEEPING → ∀ q i, (pp ≤ q < pp + k)%nat → p_parent (kn_procs s q) = Some p →
     kn_initproc s = Some i → (i < Z.to_nat NPROC)%nat → ¬ waits (kn_procs s' i) i).
Proof.
  induction k as [|k IH]; intros pp s s'; cbn [reparent_loop].
  { intros [= <-]. split_and!; try done; [|lia]. intros q. rewrite decide_False by lia. split_and!; try done. by left. }
  rewrite bind_rd_proc. intros R. apply bind_ok_inv in R as ([] & s1 & R1 & R).
  apply reparent_one_tab in R1 as (H1 & C1 & N1 & I1 & W1). destruct (IH (S pp) s1 s' R) as (H2 & C2 & N2 & I2 & W2).
  split_and!; try congruence.
  - intros q. destruct (H1 q) as (P1 & S1 & D1 & A1), (H2 q) as (P2 & S2 & D2 & A2).
    split_and!; [|by eapply moved_trans | congruence | by eapply calm_trans]. rewrite P2, P1, I1. clear.
    destruct (decide (q = pp)) as [->|Hne].
    + rewrite (decide_False (P := (S pp ≤ pp < S pp + k)%nat ∧ _)) by (intros [? _]; lia).
      destruct (decide (pp = pp ∧ _)) as [[_ E]|E]; [by rewrite decide_True by (split; [lia | done]) | by rewrite decide_False by tauto].
    + rewrite (decide_False (P := q = pp ∧ _)) by tauto.
      destruct (decide ((S pp ≤ q < S pp + k)%nat ∧ _)) as [[? E]|E]; [by rewrite decide_True by (split; [lia | done])|].
      rewrite decide_False; [done|]. intros [? ?]. apply E. split; [lia | done].
  - intros Hc q i Hq Hp Hi Hlt. destruct (H2 i) as (_ & _ & _ & A2). destruct (decide (q = pp)) as [->|Hne].
    + intros Hw. apply A2 in Hw. by eapply (W1 Hp Hc).
    + eapply (W2 ltac:(by rewrite C1) q); [lia | | by rewrite I1 | done]. destruct (H1 q) as (-> & _). by rewrite decide_False by tauto.
Qed.

(** [exit] from where it takes [wait_lock]. *)
Lemma exit_zombie_tab status s s' : exit_zombie cur status s = Ok (tt, s') → p_state (kn_procs s cur) ≠ SLEEPING →
  (∀ q, p_parent (kn_procs s' q) = (if decide ((q < Z.to_nat NPROC)%nat ∧ p_parent (kn_procs s q) = Some cur) then kn_initproc s else p_parent (kn_procs s q)) ∧
    p_pid (kn_procs s' q) = p_pid (kn_procs s q) ∧
    (if decide (q = cur) then p_state (kn_procs s' q) = ZOMBIE ∧ p_xstate (kn_procs s' q) = status
     else moved (p_state (kn_procs s q)) (p_state (kn_procs s' q))) ∧
    calm (kn_procs s q) (kn_procs s' q)) ∧
  kn_nextpid s' = kn_nextpid s ∧ kn_initproc s' = kn_initproc s ∧
  (∀ q i, (q < Z.to_nat NPROC)%nat → p_parent (kn_procs s q) = Some cur →
     kn_initproc s = Some i → (i < Z.to_nat NPROC)%nat → ¬ waits (kn_procs s' i) i) ∧
  (∀ r, p_parent (kn_procs s cur) = Some r → r ≠ cur → (r < Z.to_nat NPROC)%nat → ¬ waits (kn_procs s' r) r).
Proof.
  unfold exit_zombie, reparent. intros R Hc. apply bind_ok_inv in R as ([] & s1 & R1 & R).
  apply reparent_tab in R1 as (H1 & C1 & N1 & I1 & W1). rewrite bind_rd_proc in R.
  apply bind_ok_inv in R as ([] & s2 & R2 & R). pose proof (wakeup_on_move _ _ _ R2) as [[M1 M2 M3 M4 M5 M6] _].
  rewrite bind_upd_proc in R. unfold sched_check in R. rewrite bind_rd_proc in R. destruct (bool_decide _); [done|].
  assert (Hz : ∀ q, q ≠ cur → kn_procs s' q = kn_procs s2 q) by (intros q Hq; injection R as <-; cbn; by rewrite fn_lookup_insert_ne).
  assert (Hzc : kn_procs s' cur = set_p_state ZOMBIE (set_p_xstate status (kn_procs s2 cur))) by (injection R as <-; cbn; by rewrite fn_lookup_insert).
  assert (Hn : kn_nextpid s' = kn_nextpid s2 ∧ kn_initproc s' = kn_initproc s2) by (by injection R as <-). clear R.
  assert (Hcalm : ∀ q, calm (kn_procs s2 q) (kn_procs s' q)).
  { intros q. destruct (decide (q = cur)) as [->|]; [apply calm_awake; by rewrite Hzc | by rewrite Hz]. }
  split_and!; [|destruct Hn; congruence | destruct Hn; congruence | |].
  - intros q. destruct (H1 q) as (P1 & S1 & D1 & A1). split_and!.
    + transitivity (p_parent (kn_procs s2 q)); [destruct (decide (q = cur)) as [->|]; [by rewrite Hzc | by rewrite Hz]|].
      rewrite M3, P1. destruct (decide ((q < _)%nat ∧ _)) as [[? ?]|Hf]; [by rewrite decide_True by (split; [lia | done])|].
      rewrite decide_False; [done|]. intros [? ?]. apply Hf. split; [lia | done].
    + transitivity (p_pid (kn_procs s2 q)); [destruct (decide (q = cur)) as [->|]; [by rewrite Hzc | by rewrite Hz] | by rewrite M2].
    + destruct (decide (q = cur)) as [->|]; [by rewrite Hzc|]. rewrite Hz by done. by eapply moved_trans.
    + eapply calm_trans; [exact A1|]. eapply calm_trans; [apply M4 | apply Hcalm].
  - intros q i Hq Hp Hi Hlt Hw. apply Hcalm, M4 in Hw. eapply (W1 Hc q i); eauto. lia.
  - intros r Hr Hne Hlt Hw. apply Hcalm in Hw. destruct (H1 cur) as (Hpar & _). rewrite decide_False in Hpar by (intros [_ ?]; congruence).
    rewrite Hpar, Hr in R2. by eapply (wakeup_wakes r s1 s2 R2); [| rewrite C1 |].
Qed.

(** The scan of [wait]. *)
Lemma wait_scan_tab addr k : ∀ pp hk s r s', wait_scan cur kaddr k pp addr hk s = Ok (r, s') →
  same_tab s s' ∧ (∀ hk', r = inr hk' → ∀ q, (pp ≤ q < pp + k)%nat → p_parent (kn_procs s q) = Some cur → p_state (kn_procs s q) ≠ ZOMBIE) ∨
  ∃ q, (pp ≤ q < pp + k)%nat ∧ p_parent (kn_procs s q) = Some cur ∧ p_state (kn_procs s q) = ZOMBIE ∧
    r = inl (p_pid (kn_procs s q)) ∧ one_tab q (UNUSED, 0, None, None) s s'.
Proof.
  induction k as [|k IH]; intros pp hk s r s'; cbn [wait_scan]; [intros [= _ <-]; left; split; [done | lia]|].
  rewrite bind_rd_proc. unfold id. intros R.
  assert (Hrec : ∀ hk', wait_scan cur kaddr k (S pp) addr hk' s = Ok (r, s') → (p_parent (kn_procs s pp) = Some cur → p_state (kn_procs s pp) ≠ ZOMBIE) →
    same_tab s s' ∧ (∀ hk', r = inr hk' → ∀ q, (pp ≤ q < pp + S k)%nat → p_parent (kn_procs s q) = Some cur → p_state (kn_procs s q) ≠ ZOMBIE) ∨
    ∃ q, (pp ≤ q < pp + S k)%nat ∧ p_parent (kn_procs s q) = Some cur ∧ p_state (kn_procs s q) = ZOMBIE ∧
      r = inl (p_pid (kn_procs s q)) ∧ one_tab q (UNUSED, 0, None, None) s s').
  { intros hk' R' Hpp. destruct (IH _ _ _ _ _ R') as [[Hs Hq]|(q & Hq & ?)]; [left | right].
    - split; [done|]. intros hk'' Hr q Hrange. destruct (decide (q = pp)) as [->|]; [done | eapply Hq; [done | lia]].
    - exists q. split; [lia | done]. }
  destruct (bool_decide_reflect (p_parent (kn_procs s pp) = Some cur)) as [Ep|]; [|by eapply Hrec].
  destruct (bool_decide_reflect (p_state (kn_procs s pp) = ZOMBIE)) as [Ez|]; [|by eapply Hrec].
  rewrite bind_rd_proc in R. apply bind_ok_inv in R as (v & s1 & R1 & R).
  assert (H1 : same_tab s s1).
  { destruct (negb (addr =? 0)); [|by injection R1 as _ <-]. apply bind_ok_inv in R1 as ([] & s2 & R2 & R1).
    etransitivity; by eapply in_fs_same. }
  destruct (v <? 0); [injection R as <- <-; left; split; done|]. apply bind_ok_inv in R as ([] & s2 & R2 & [= <- <-]).
  apply freeproc_tab in R2. right. exists pp. split_and!; [lia | lia | done | done | done | by eapply same_one].
Qed.

Lemma wait_start_tab addr s r s' : wait_start cur kaddr addr s = Ok (r, s') →
  same_tab s s' ∨
  (∃ q, (q < Z.to_nat NPROC)%nat ∧ p_parent (kn_procs s q) = Some cur ∧ p_state (kn_procs s q) = ZOMBIE ∧
    r = Done (p_pid (kn_procs s q)) ∧ one_tab q (UNUSED, 0, None, None) s s') ∨
  (∃ s1, same_tab s s1 ∧ (∀ q, (q < Z.to_nat NPROC)%nat → p_parent (kn_procs s q) = Some cur → p_state (kn_procs s q) ≠ ZOMBIE) ∧
     r = Blocked tt ∧ sleep_enter cur (ChProc cur) s1 = Ok (tt, s')).
Proof.
  unfold wait_start. intros R. apply bind_ok_inv in R as (v & s1 & R1 & R). apply wait_scan_tab in R1.
  destruct v as [v|hk].
  - injection R as <- <-. destruct R1 as [[? _]|(q & Hq & ? & ? & [= ->] & ?)]; [by left | right; left]. exists q. split_and!; (done || lia).
  - destruct R1 as [[H1 Hz]|(q & _ & _ & _ & [=] & _)]. unfold killed in R. rewrite bind_rd_proc in R. destruct (negb hk || _).
    + injection R as <- <-. by left.
    + apply bind_ok_inv in R as ([] & s2 & R2 & [= <- <-]). right. right. exists s1. split_and!; [done | | done | done].
      intros q Hq. eapply Hz; [done | lia].
Qed.

End tab.

(** ** The system *)

(** Where a process is in [fork]: not in it, with a child that has no parent yet, or with
    a child that is not runnable yet. *)
Inductive fork_pc :=
| PUser
| PForked (np : nat)
| PParented (np : nat).

Definition child (x : fork_pc) : option nat :=
  match x with PUser => None | PForked np | PParented np => Some np end.

(** The kernel, and each process's place in [fork]. *)
Definition tstate : Type := kernel * (nat → fork_pc).

Definition NP : nat := Z.to_nat NPROC.

(** Process [cur] runs, at [pc]. *)
Definition runs (cur : nat) (pc : fork_pc) (t : tstate) : Prop :=
  (cur < NP)%nat ∧ p_state (kn_procs t.1 cur) = RUNNING ∧ t.2 cur = pc.

(** One critical section of one process, of an interrupt or of the scheduler.  [pid_room]
    says that [nextpid++] does not overflow. *)
Definition pid_room (s : kernel) : Prop := kn_nextpid s < 2 ^ 31 - 1.

Section steps.
  Context `{KernelImage} (kaddr : slot → Z) (forkret_addr : Z).

Inductive tstep : tstate → tstate → Prop :=
| t_fork cur s c np pid s' :
    runs cur PUser (s, c) → pid_room s → fork_copy cur kaddr forkret_addr s = Ok (Some (np, pid), s') →
    tstep (s, c) (s', <[cur := PForked np]> c)
| t_fork_fails cur s c s' :
    runs cur PUser (s, c) → pid_room s → fork_copy cur kaddr forkret_addr s = Ok (None, s') →
    tstep (s, c) (s', c)
| t_fork_parent cur s c np s' :
    runs cur (PForked np) (s, c) → fork_parent cur np s = Ok (tt, s') →
    tstep (s, c) (s', <[cur := PParented np]> c)
| t_fork_run cur s c np s' :
    runs cur (PParented np) (s, c) → fork_run np s = Ok (tt, s') →
    tstep (s, c) (s', <[cur := PUser]> c)
| t_exit cur s c status s' :
    runs cur PUser (s, c) → kn_initproc s ≠ Some cur → exit_zombie cur status s = Ok (tt, s') →
    tstep (s, c) (s', c)
| t_wait cur s c addr r s' :
    runs cur PUser (s, c) → wait_start cur kaddr addr s = Ok (r, s') →
    tstep (s, c) (s', c)
| t_kill s c pid r s' :
    kill pid s = Ok (r, s') → tstep (s, c) (s', c)
| t_sleep cur s c ch s' :
    runs cur PUser (s, c) → (∀ p, ch ≠ ChProc p) → sleep_enter cur ch s = Ok (tt, s') → tstep (s, c) (s', c)
| t_wakeup cur s c ch s' :
    wakeup_on cur ch s = Ok (tt, s') → tstep (s, c) (s', c)
| t_yield cur s c s' :
    p_state (kn_procs s cur) = RUNNING → yield cur s = Ok (tt, s') → tstep (s, c) (s', c)
| t_run p s c s' :
    p_state (kn_procs s p) = RUNNABLE → upd_proc p (set_p_state RUNNING) s = Ok (tt, s') → tstep (s, c) (s', c)
| t_other s c s' :
    same_tab s s' → tstep (s, c) (s', c).

(** [procinit] and [userinit] over zeroed memory. *)
Definition booted (t : tstate) : Prop :=
  ∃ s0 s1, kn_nextpid s0 = 1 ∧ (∀ q, core (kn_procs s0 q) = (UNUSED, 0, None, None)) ∧
    procinit s0 = Ok (tt, s1) ∧ userinit 0 kaddr forkret_addr s1 = Ok (tt, t.1) ∧ ∀ q, t.2 q = PUser.

(** What the table looks like at every moment. *)
Record tree_ok (t : tstate) : Prop := {
  to_unused q : (q < NP)%nat → p_state (kn_procs t.1 q) = UNUSED → p_pid (kn_procs t.1 q) = 0 ∧ p_parent (kn_procs t.1 q) = None;
  to_pid q : (q < NP)%nat → p_state (kn_procs t.1 q) ≠ UNUSED → 0 < p_pid (kn_procs t.1 q) < kn_nextpid t.1;
  to_distinct q r : (q < NP)%nat → (r < NP)%nat → p_state (kn_procs t.1 q) ≠ UNUSED → p_state (kn_procs t.1 r) ≠ UNUSED →
    p_pid (kn_procs t.1 q) = p_pid (kn_procs t.1 r) → q = r;
  to_parent q r : (q < NP)%nat → p_parent (kn_procs t.1 q) = Some r →
    (r < NP)%nat ∧ lively (p_state (kn_procs t.1 r)) ∧ p_pid (kn_procs t.1 r) < p_pid (kn_procs t.1 q);
  to_orphan q : (q < NP)%nat → p_state (kn_procs t.1 q) ≠ UNUSED → p_parent (kn_procs t.1 q) = None →
    kn_initproc t.1 = Some q ∨ ∃ r, t.2 r = PForked q;
  to_init : ∃ i, kn_initproc t.1 = Some i ∧ (i < NP)%nat ∧ lively (p_state (kn_procs t.1 i)) ∧ p_parent (kn_procs t.1 i) = None ∧
    ∀ q, (q < NP)%nat → p_state (kn_procs t.1 q) ≠ UNUSED → q ≠ i → p_pid (kn_procs t.1 i) < p_pid (kn_procs t.1 q);
  to_child r np : child (t.2 r) = Some np →
    (r < NP)%nat ∧ lively (p_state (kn_procs t.1 r)) ∧ (np < NP)%nat ∧ p_state (kn_procs t.1 np) = USED;
  to_own r r' np : child (t.2 r) = Some np → child (t.2 r') = Some np → r = r';
  to_forked r np : t.2 r = PForked np → p_parent (kn_procs t.1 np) = None ∧ p_pid (kn_procs t.1 r) < p_pid (kn_procs t.1 np);
  to_parented r np : t.2 r = PParented np → p_parent (kn_procs t.1 np) = Some r;
  to_waits q r : (q < NP)%nat → p_parent (kn_procs t.1 q) = Some r → p_state (kn_procs t.1 q) = ZOMBIE → ¬ waits (kn_procs t.1 r) r;
}.

Lemma moved_lively st st' : moved st st' → lively st → lively st'.
Proof. unfold moved, lively. intuition congruence. Qed.
Lemma moved_unused st st' : moved st st' → st' = UNUSED ↔ st = UNUSED.
Proof. unfold moved, lively. intuition congruence. Qed.
Lemma moved_used st st' : moved st st' → st = USED → st' = USED.
Proof. unfold moved, lively. intuition congruence. Qed.
Lemma moved_zombie st st' : moved st st' → st' = ZOMBIE ↔ st = ZOMBIE.
Proof. unfold moved, lively. intuition congruence. Qed.
Lemma lively_used st : lively st → st ≠ UNUSED ∧ st ≠ USED ∧ st ≠ ZOMBIE.
Proof. unfold lively. intuition congruence. Qed.

Lemma tree_moved s s' c :
  (∀ q, moved (p_state (kn_procs s q)) (p_state (kn_procs s' q))) → (∀ q, p_pid (kn_procs s' q) = p_pid (kn_procs s q)) →
  (∀ q, p_parent (kn_procs s' q) = p_parent (kn_procs s q)) → kn_nextpid s' = kn_nextpid s → kn_initproc s' = kn_initproc s →
  (∀ q r, (q < NP)%nat → p_parent (kn_procs s q) = Some r → p_state (kn_procs s q) = ZOMBIE → ¬ waits (kn_procs s' r) r) →
  tree_ok (s, c) → tree_ok (s', c).
Proof.
  intros V P R N I A [U D E F G J K L M O W]. cbn in *.
  split; cbn; intros *; rewrite ?P, ?R, ?N, ?I, ?(moved_unused _ _ (V _)); auto.
  - intros Hq Hr. destruct (F _ _ Hq Hr) as (? & ? & ?). eauto using moved_lively.
  - destruct J as (i & ? & ? & ? & ? & Hi). exists i. split_and!; [done | done | by eapply moved_lively | by rewrite R|].
    intros q. rewrite !P, (moved_unused _ _ (V _)). apply Hi.
  - intros Hr. destruct (K _ _ Hr) as (? & ? & ? & ?). eauto 6 using moved_lively, moved_used.
  - apply L.
  - rewrite (moved_zombie _ _ (V _)). apply A.
Qed.

Lemma tree_move s s' c : move_tab s s' → tree_ok (s, c) → tree_ok (s', c).
Proof.
  intros [V P R A N I] T. apply (tree_moved s); try done. intros q r H1 H2 H3 Hw. by eapply (to_waits _ T), A.
Qed.

(** The entry taken by [fork] is no one's parent or child. *)
Lemma unused_fresh s c p : tree_ok (s, c) → (p < NP)%nat → p_state (kn_procs s p) = UNUSED →
  (∀ q r, (q < NP)%nat → p_parent (kn_procs s q) = Some r → r ≠ p) ∧
  (∀ r np, child (c r) = Some np → np ≠ p ∧ r ≠ p) ∧ (∀ i, kn_initproc s = Some i → i ≠ p).
Proof.
  intros [U D E F G J K L M O W] Hp Hst. cbn in *. split_and!.
  - intros q r Hq Hr. destruct (F _ _ Hq Hr) as (_ & []%lively_used & _). congruence.
  - intros r np Hr. destruct (K _ _ Hr) as (_ & []%lively_used & _ & ?). split; congruence.
  - intros j Hi. destruct J as (i & Hi' & _ & []%lively_used & _). congruence.
Qed.

(** Entry [p] changes to [(st, pid, par, ch)]. *)
Lemma change_tab s s' p st pid par ch :
  (∀ q, q ≠ p → core (kn_procs s' q) = core (kn_procs s q)) → core (kn_procs s' p) = (st, pid, par, ch) →
  ∀ q, p_state (kn_procs s' q) = (if decide (q = p) then st else p_state (kn_procs s q)) ∧
       p_pid (kn_procs s' q) = (if decide (q = p) then pid else p_pid (kn_procs s q)) ∧
       p_parent (kn_procs s' q) = (if decide (q = p) then par else p_parent (kn_procs s q)) ∧
       asleep (kn_procs s' q) = (if decide (q = p) then ch else asleep (kn_procs s q)).
Proof.
  intros Ho Hp q. destruct (decide (q = p)) as [->|Hne]; [by apply core_inj|]. by apply core_eq, Ho.
Qed.

Lemma tree_fork cur s s' c p :
  tree_ok (s, c) → runs cur PUser (s, c) → (p < NP)%nat → p_state (kn_procs s p) = UNUSED →
  (∀ q, q ≠ p → core (kn_procs s' q) = core (kn_procs s q)) →
  core (kn_procs s' p) = (USED, kn_nextpid s, p_parent (kn_procs s p), None) →
  kn_nextpid s' = kn_nextpid s + 1 → kn_initproc s' = kn_initproc s →
  tree_ok (s', <[cur := PForked p]> c).
Proof.
  intros T (Hcur & Hrun & Hpc) Hp Hst Hq Hc Hn Hi. destruct (unused_fresh _ _ _ T Hp Hst) as (F1 & F2 & F3).
  pose proof (change_tab _ _ _ _ _ _ _ Hq Hc) as Htab. clear Hq Hc. destruct T as [U D E F G J K L M O W]. cbn in *.
  destruct (U _ Hp Hst) as [Up Upar]. rewrite Upar in Htab.
  assert (Hcp : cur ≠ p) by congruence.
  assert (HS : ∀ q, p_state (kn_procs s' q) = if decide (q = p) then USED else p_state (kn_procs s q)) by apply Htab.
  assert (HP : ∀ q, p_pid (kn_procs s' q) = if decide (q = p) then kn_nextpid s else p_pid (kn_procs s q)) by apply Htab.
  assert (HR : ∀ q, p_parent (kn_procs s' q) = if decide (q = p) then None else p_parent (kn_procs s q)) by apply Htab.
  assert (HC : ∀ r, (<[cur := PForked p]> c) r = if decide (r = cur) then PForked p else c r).
  { intros r. destruct (decide (r = cur)) as [->|]; [by rewrite fn_lookup_insert | by rewrite fn_lookup_insert_ne]. }
  assert (Hlcur : lively (p_state (kn_procs s cur))) by (rewrite Hrun; unfold lively; auto).
  assert (Dcur : 0 < p_pid (kn_procs s cur) < kn_nextpid s) by (apply D; [done | by apply lively_used]).
  split; cbn; rewrite ?Hn, ?Hi.
  - intros q. rewrite HS, HP, HR. case_decide; [done | apply U].
  - intros q. rewrite HS, HP. case_decide; [lia|]. intros H1 H2. specialize (D q H1 H2). lia.
  - intros q r. rewrite !HS, !HP. intros H1 H2. specialize (D q H1) as Dq. specialize (D r H2) as Dr.
    repeat case_decide; subst; [done | intros _ H4; specialize (Dr H4); lia | intros H3 _; specialize (Dq H3); lia | by apply E].
  - intros q r. rewrite HR, HS, !HP. case_decide; [done|]. intros H1 H2. pose proof (F1 _ _ H1 H2). rewrite !decide_False by done. by apply F.
  - intros q. rewrite HS, HR. setoid_rewrite HC. case_decide as Hqp.
    + subst. right. exists cur. by rewrite decide_True.
    + intros H1 H2 H3. destruct (G _ H1 H2 H3) as [?|[r Hr]]; [by left | right]. exists r. rewrite decide_False; [done | intros ->; congruence].
  - destruct J as (i & J1 & J2 & J3 & J4 & J5). exists i. pose proof (F3 _ J1). rewrite HS, HP, HR, !decide_False by done.
    split_and!; try done. intros q. rewrite HS, HP. case_decide; [|by apply J5]. intros _ _ _. apply D; [done | by apply lively_used].
  - intros r np. rewrite HC, !HS. case_decide; [intros [= <-]; subst; rewrite decide_False, decide_True by done; done|].
    intros Hr. destruct (F2 _ _ Hr). rewrite !decide_False by done. by apply K.
  - intros r r' np. rewrite !HC. repeat case_decide; subst; [done | | | apply L]; cbn.
    + intros [= <-] Hr. by destruct (F2 _ _ Hr).
    + intros Hr [= <-]. by destruct (F2 _ _ Hr).
  - intros r np. rewrite HC, HR, !HP. case_decide as Hrc.
    + intros [= <-]. rewrite Hrc, !(decide_True (P := p = p)), (decide_False (P := cur = p)) by done. split; [done | lia].
    + intros Hr. destruct (F2 r np) as [? ?]; [by rewrite Hr|]. rewrite !decide_False by done. by apply M.
  - intros r np. rewrite HC, HR. case_decide; [done|]. intros Hr. destruct (F2 r np) as [? ?]; [by rewrite Hr|].
    rewrite decide_False by done. by apply O.
  - intros q r. rewrite HR, HS. unfold waits. rewrite (proj2 (proj2 (proj2 (Htab r)))). case_decide; [done|]. intros H1 H2.
    rewrite decide_False by (by eapply F1). by apply W.
Qed.

(** A failed [fork] leaves the entry free again; [wait] frees the entry of a zombie. *)
Lemma tree_free s s' c p :
  tree_ok (s, c) → (p < NP)%nat → p_state (kn_procs s p) = UNUSED ∨ p_state (kn_procs s p) = ZOMBIE →
  (∀ q, q ≠ p → core (kn_procs s' q) = core (kn_procs s q)) → core (kn_procs s' p) = (UNUSED, 0, None, None) →
  kn_nextpid s ≤ kn_nextpid s' → kn_initproc s' = kn_initproc s →
  tree_ok (s', c).
Proof.
  intros T Hp Hst Hq Hc Hn Hi. pose proof (change_tab _ _ _ _ _ _ _ Hq Hc) as Htab. clear Hq Hc.
  assert (HS : ∀ q, p_state (kn_procs s' q) = if decide (q = p) then UNUSED else p_state (kn_procs s q)) by apply Htab.
  assert (HP : ∀ q, p_pid (kn_procs s' q) = if decide (q = p) then 0 else p_pid (kn_procs s q)) by apply Htab.
  assert (HR : ∀ q, p_parent (kn_procs s' q) = if decide (q = p) then None else p_parent (kn_procs s q)) by apply Htab.
  destruct T as [U D E F G J K L M O W]. cbn in *.
  assert (HL : ∀ r, lively (p_state (kn_procs s r)) → r ≠ p) by (intros r []%lively_used ->; destruct Hst; intuition congruence).
  assert (HU : ∀ r, p_state (kn_procs s r) = USED → r ≠ p) by (intros r ? ->; destruct Hst; congruence).
  split; cbn; rewrite ?Hi.
  - intros q. rewrite HS, HP, HR. case_decide; [done | apply U].
  - intros q. rewrite HS, HP. case_decide; [done|]. intros H1 H2. specialize (D q H1 H2). lia.
  - intros q r. rewrite !HS, !HP. repeat case_decide; [done.. | apply E].
  - intros q r. rewrite HR, HS, !HP. case_decide; [done|]. intros H1 H2. destruct (F _ _ H1 H2) as (? & Hl & ?).
    rewrite !decide_False by (by apply HL). done.
  - intros q. rewrite HS, HR. case_decide; [done | apply G].
  - destruct J as (i & J1 & J2 & J3 & J4 & J5). exists i. rewrite HS, HP, HR, !decide_False by (by apply HL).
    split_and!; try done. intros q. rewrite HS, HP. case_decide; [done | apply J5].
  - intros r np Hr. destruct (K _ _ Hr) as (? & ? & ? & ?). rewrite !HS, !decide_False by auto. done.
  - apply L.
  - intros r np Hr. destruct (K r np) as (? & ? & ? & ?); [by rewrite Hr|]. rewrite HR, !HP, !decide_False by auto. by apply M.
  - intros r np Hr. destruct (K r np) as (? & ? & ? & ?); [by rewrite Hr|]. rewrite HR, !decide_False by auto. by apply O.
  - intros q r. rewrite HR, HS. unfold waits. rewrite (proj2 (proj2 (proj2 (Htab r)))). case_decide; [done|]. intros H1 H2.
    destruct (F _ _ H1 H2) as (_ & ? & _). rewrite decide_False by auto. by apply W.
Qed.

Lemma tree_fork_parent cur s s' c np :
  tree_ok (s, c) → runs cur (PForked np) (s, c) → fork_parent cur np s = Ok (tt, s') →
  tree_ok (s', <[cur := PParented np]> c).
Proof.
  intros T (Hcur & Hrun & Hpc) [Hq Hc Hn Hi]%upd_proc_one. pose proof (change_tab _ _ _ _ _ _ _ Hq Hc) as Htab. clear Hq Hc.
  assert (HC : ∀ r, (<[cur := PParented np]> c) r = if decide (r = cur) then PParented np else c r).
  { intros r. destruct (decide (r = cur)) as [->|]; [by rewrite fn_lookup_insert | by rewrite fn_lookup_insert_ne]. }
  assert (Hch : ∀ r, child ((<[cur := PParented np]> c) r) = child (c r)).
  { intros r. rewrite HC. case_decide; [subst; cbn in Hpc; by rewrite Hpc | done]. }
  destruct T as [U D E F G J K L M O W]. cbn in *.
  assert (HS : ∀ q, p_state (kn_procs s' q) = p_state (kn_procs s q)) by (intros q; destruct (Htab q) as [-> _]; case_decide; congruence).
  assert (HP : ∀ q, p_pid (kn_procs s' q) = p_pid (kn_procs s q)) by (intros q; destruct (Htab q) as (_ & -> & _); case_decide; congruence).
  assert (HR : ∀ q, p_parent (kn_procs s' q) = if decide (q = np) then Some cur else p_parent (kn_procs s q)) by apply Htab.
  destruct (M _ _ Hpc) as [Mn Mp]. destruct (K cur np) as (K1 & K2 & K3 & K4); [by rewrite Hpc|].
  split; cbn; try setoid_rewrite HS; try setoid_rewrite HP; rewrite ?Hn, ?Hi; try done.
  - intros q H1 H2. rewrite HR, decide_False by congruence. auto.
  - intros q r Hq'. rewrite HR. case_decide; [intros [= <-]; subst; done | by apply F].
  - intros q H1 H2. rewrite HR. case_decide; [done|]. intros H3. destruct (G q H1 H2 H3) as [?|[r Hr]]; [by left | right].
    exists r. rewrite HC, decide_False; [done | congruence].
  - destruct J as (i & J1 & J2 & J3 & J4 & J5). exists i. rewrite HR, decide_False; [done|]. intros ->.
    apply lively_used in J3. tauto.
  - intros r np'. rewrite Hch. apply K.
  - intros r r' np'. rewrite !Hch. apply L.
  - intros r np'. rewrite HC, HR. case_decide; [done|]. intros Hr. rewrite decide_False; [by apply M|]. intros ->.
    assert (r = cur) by (eapply L; [by rewrite Hr | by rewrite Hpc]). done.
  - intros r np'. rewrite HC, HR. case_decide; [intros [= <-]; subst; by rewrite decide_True|]. intros Hr.
    rewrite decide_False; [by apply O|]. intros ->. assert (r = cur) by (eapply L; [by rewrite Hr | by rewrite Hpc]). done.
  - intros q r Hq. rewrite HR. unfold waits. destruct (Htab r) as (_ & _ & _ & ->). case_decide; [congruence|]. intros H1 H2.
    case_decide; [|by eapply W]. subst. by eapply (W q).
Qed.

Lemma tree_fork_run cur s s' c np :
  tree_ok (s, c) → runs cur (PParented np) (s, c) → fork_run np s = Ok (tt, s') →
  tree_ok (s', <[cur := PUser]> c).
Proof.
  intros T (Hcur & Hrun & Hpc) [Hq Hc Hn Hi]%upd_proc_one. pose proof (change_tab _ _ _ _ _ _ _ Hq Hc) as Htab. clear Hq Hc.
  assert (HC : ∀ r, (<[cur := PUser]> c) r = if decide (r = cur) then PUser else c r).
  { intros r. destruct (decide (r = cur)) as [->|]; [by rewrite fn_lookup_insert | by rewrite fn_lookup_insert_ne]. }
  destruct T as [U D E F G J K L M O W]. cbn in *.
  destruct (K cur np) as (K1 & K2 & K3 & K4); [by rewrite Hpc|].
  assert (HS : ∀ q, p_state (kn_procs s' q) = if decide (q = np) then RUNNABLE else p_state (kn_procs s q)) by apply Htab.
  assert (HL : ∀ q, lively (p_state (kn_procs s q)) → lively (p_state (kn_procs s' q))).
  { intros q. rewrite HS. case_decide; [unfold lively; auto | done]. }
  assert (HU : ∀ q, p_state (kn_procs s' q) = UNUSED ↔ p_state (kn_procs s q) = UNUSED).
  { intros q. rewrite HS. case_decide; [subst; by rewrite K4 | done]. }
  assert (HP : ∀ q, p_pid (kn_procs s' q) = p_pid (kn_procs s q)) by (intros q; destruct (Htab q) as (_ & -> & _); case_decide; congruence).
  assert (HR : ∀ q, p_parent (kn_procs s' q) = p_parent (kn_procs s q)) by (intros q; destruct (Htab q) as (_ & _ & -> & _); case_decide; congruence).
  assert (Hne : ∀ r, r ≠ cur → child (c r) ≠ Some np) by (intros r Hr Hr'; apply Hr, (L _ _ np); [done | by rewrite Hpc]).
  split; cbn; try setoid_rewrite HU; try setoid_rewrite HP; try setoid_rewrite HR; rewrite ?Hn, ?Hi; try done.
  - intros q r H1 H2. destruct (F _ _ H1 H2) as (? & ? & ?). auto.
  - intros q H1 H2 H3. destruct (G q H1 H2 H3) as [?|[r Hr]]; [by left | right]. exists r. rewrite HC, decide_False; [done | congruence].
  - destruct J as (i & ? & ? & ? & ? & Hi'). exists i. split_and!; auto.
  - intros r np'. rewrite HC. case_decide as Hr; [done|]. intros Hc. destruct (K _ _ Hc) as (? & ? & ? & ?).
    split_and!; auto. rewrite HS, decide_False; [done|]. intros ->. by eapply Hne.
  - intros r r' np'. rewrite !HC. repeat case_decide; [done.. | apply L].
  - intros r np'. rewrite HC. case_decide; [done | apply M].
  - intros r np'. rewrite HC. case_decide; [done | apply O].
  - intros q r H1 H2. rewrite HS. unfold waits. destruct (Htab r) as (_ & _ & _ & ->). case_decide; [done|]. intros H3.
    case_decide; [done | by eapply W].
Qed.

Lemma tree_exit cur status s s' c :
  tree_ok (s, c) → runs cur PUser (s, c) → kn_initproc s ≠ Some cur → exit_zombie cur status s = Ok (tt, s') →
  tree_ok (s', c).
Proof.
  intros T (Hcur & Hrun & Hpc) Hni R. cbn [fst snd] in Hrun, Hpc.
  apply exit_zombie_tab in R as (Htab & Hn & Hi & Wi & Wp); [|congruence]. destruct T as [U D E F G J K L M O W]. cbn in *.
  destruct J as (i & J1 & J2 & J3 & J4 & J5). assert (Hic : i ≠ cur) by congruence.
  assert (HS : ∀ q, q ≠ cur → moved (p_state (kn_procs s q)) (p_state (kn_procs s' q))).
  { intros q Hq. destruct (Htab q) as (_ & _ & Hm & _). by rewrite decide_False in Hm. }
  assert (HZ : p_state (kn_procs s' cur) = ZOMBIE).
  { destruct (Htab cur) as (_ & _ & Hm & _). rewrite decide_True in Hm by done. apply Hm. }
  assert (HU : ∀ q, p_state (kn_procs s' q) = UNUSED ↔ p_state (kn_procs s q) = UNUSED).
  { intros q. destruct (decide (q = cur)) as [->|]; [by rewrite HZ, Hrun | by apply moved_unused, HS]. }
  assert (HP : ∀ q, p_pid (kn_procs s' q) = p_pid (kn_procs s q)) by apply Htab.
  assert (HR : ∀ q, (q < NP)%nat → p_parent (kn_procs s' q) = if decide (p_parent (kn_procs s q) = Some cur) then Some i else p_parent (kn_procs s q)).
  { intros q Hq. destruct (Htab q) as (-> & _). case_decide as H1; case_decide as H2; (done || tauto). }
  split; cbn; try setoid_rewrite HU; try setoid_rewrite HP; rewrite ?Hn, ?Hi; try done.
  - intros q Hq H1. destruct (U _ Hq H1) as [? Hu]. by rewrite HR, Hu, decide_False.
  - intros q r Hq. rewrite HR by done. case_decide as Hqc.
    + intros [= <-]. split_and!; [done | by eapply moved_lively, J3; apply HS | ]. apply J5; [done | | congruence].
      intros Hu. destruct (U _ Hq Hu). congruence.
    + intros Hr. destruct (F _ _ Hq Hr) as (? & ? & ?). split_and!; [done | | done]. eapply moved_lively; [apply HS; congruence | done].
  - intros q Hq H1. rewrite HR by done. case_decide; [done | by apply G].
  - exists i. rewrite HR, J4, decide_False by done. split_and!; try done. by eapply moved_lively, J3; apply HS.
  - intros r np Hr. destruct (K _ _ Hr) as (? & ? & ? & ?). assert (r ≠ cur) by (intros ->; by rewrite Hpc in Hr).
    assert (np ≠ cur) by congruence. split_and!; [done | by eapply moved_lively; [apply HS|] | done | by eapply moved_used; [apply HS|]].
  - intros r np Hr. destruct (K r np) as (? & ? & ? & ?); [by rewrite Hr|]. rewrite HR by done.
    destruct (M _ _ Hr) as [Hm ?]. by rewrite Hm, decide_False.
  - intros r np Hr. destruct (K r np) as (? & ? & ? & ?); [by rewrite Hr|]. rewrite HR by done. rewrite (O _ _ Hr), decide_False; [done|].
    intros [= ->]. congruence.
  - intros q r Hq. rewrite HR by done. case_decide as Hqc; [intros [= <-] _; by eapply Wi|]. intros Hr Hz Hw.
    destruct (decide (q = cur)) as [->|]; [destruct (F _ _ Hcur Hr) as (? & _ & ?); eapply Wp; eauto; intros ->; lia|].
    destruct (Htab r) as (_ & _ & _ & Hcm). eapply W; [exact Hq | exact Hr | by apply (moved_zombie _ _ (HS q n)) | by apply Hcm].
Qed.

Lemma sleep_move cur ch s s' : p_state (kn_procs s cur) = RUNNING → (∀ p, ch ≠ ChProc p) → sleep_enter cur ch s = Ok (tt, s') → move_tab s s'.
Proof.
  intros E Hch R. eapply upd_proc_move; [exact R | | | done..]; [rewrite E; right; unfold lively; cbn; auto|].
  intros r [= ?]. by destruct (Hch r).
Qed.

(** [wait] goes to sleep when no child is a zombie. *)
Lemma tree_wait_sleep cur s s' c : tree_ok (s, c) → p_state (kn_procs s cur) = RUNNING →
  (∀ q, (q < NP)%nat → p_parent (kn_procs s q) = Some cur → p_state (kn_procs s q) ≠ ZOMBIE) →
  sleep_enter cur (ChProc cur) s = Ok (tt, s') → tree_ok (s', c).
Proof.
  intros T Hrun Hz [= <-]. pose proof T as T0. revert T. apply tree_moved; cbn; try done.
  - intros q. destruct (decide (q = cur)) as [->|]; [|rewrite fn_lookup_insert_ne by done; by left].
    rewrite fn_lookup_insert, Hrun. right. unfold lively. cbn. auto.
  - intros q. destruct (decide (q = cur)) as [->|]; [by rewrite fn_lookup_insert | by rewrite fn_lookup_insert_ne].
  - intros q. destruct (decide (q = cur)) as [->|]; [by rewrite fn_lookup_insert | by rewrite fn_lookup_insert_ne].
  - intros q r Hq Hr Hs. destruct (decide (r = cur)) as [->|]; [by destruct (Hz q)|]. rewrite fn_lookup_insert_ne by done.
    by eapply (to_waits _ T0).
Qed.

Lemma yield_move cur s s' : p_state (kn_procs s cur) = RUNNING → yield cur s = Ok (tt, s') → move_tab s s'.
Proof.
  intros E R. unfold yield in R. apply bind_ok_inv in R as ([] & s1 & R1 & R). unfold sched_check in R. rewrite bind_rd_proc in R.
  destruct (bool_decide _); [done|]. injection R as <-.
  eapply upd_proc_move; [exact R1 | rewrite E; right; unfold lively; cbn; auto | by apply calm_awake | done..].
Qed.

Lemma run_move p s s' : p_state (kn_procs s p) = RUNNABLE → upd_proc p (set_p_state RUNNING) s = Ok (tt, s') → move_tab s s'.
Proof.
  intros E R. eapply upd_proc_move; [exact R | rewrite E; right; unfold lively; cbn; auto | by apply calm_awake | done..].
Qed.

Lemma pid_next s c : tree_ok (s, c) → pid_room s → i32 (kn_nextpid s + 1) = kn_nextpid s + 1.
Proof.
  intros [_ D _ _ _ (i & _ & Hi & Hl & _) _ _ _ _ _] Hr. unfold pid_room in Hr. destruct (D i Hi); [by apply lively_used|].
  cbn in *. apply i32_small. lia.
Qed.

(** Every step keeps the tree. *)
Lemma tstep_tree t t' : tstep t t' → tree_ok t → tree_ok t'.
Proof.
  intros St T. destruct St as [cur s c np pid s' Hr Hp R|cur s c s' Hr Hp R|cur s c np s' Hr R|cur s c np s' Hr R|cur s c st s' Hr Hi R
    |cur s c a r s' Hr R|s c pid r s' R|cur s c ch s' Hr Hch R|cur s c ch s' R|cur s c s' Hr R|p s c s' Hr R|s c s' R].
  - apply fork_copy_tab in R as (? & ? & _ & ? & ? & Hn & ?). rewrite (pid_next _ _ T Hp) in Hn. by eapply tree_fork.
  - apply fork_copy_tab in R as [?|(p & ? & ? & ? & ? & Hn & ?)]; [by eapply tree_move, T; apply same_move|].
    rewrite (pid_next _ _ T Hp) in Hn. eapply (tree_free s); eauto. lia.
  - by eapply tree_fork_parent.
  - by eapply tree_fork_run.
  - by eapply tree_exit.
  - destruct Hr as (? & Hrun & _). apply wait_start_tab in R as [?|[(q & ? & ? & ? & _ & [Ho Hc Hn Hi])|(s1 & Hs & Hz & _ & R)]].
    + by eapply tree_move, T; apply same_move.
    + eapply (tree_free s); eauto. lia.
    + eapply tree_wait_sleep, R; [by eapply tree_move, T; apply same_move | |].
      * destruct (core_eq _ _ (sm_core _ _ Hs cur)) as (-> & _). done.
      * intros q. destruct (core_eq _ _ (sm_core _ _ Hs q)) as (-> & _ & -> & _). apply Hz.
  - by eapply tree_move, T; eapply kill_move.
  - destruct Hr as (_ & ? & _). by eapply tree_move, T; eapply sleep_move.
  - eapply tree_move, T. by apply wakeup_on_move in R as [? _].
  - by eapply tree_move, T; eapply yield_move.
  - by eapply tree_move, T; eapply run_move.
  - by eapply tree_move, T; apply same_move.
Qed.

Lemma procinit_same k : ∀ p s s', procinit_loop k p s = Ok (tt, s') →
  (∀ q, core (kn_procs s q) = (UNUSED, 0, None, None)) → (∀ q, core (kn_procs s' q) = (UNUSED, 0, None, None)) ∧ kn_nextpid s' = kn_nextpid s.
Proof.
  induction k as [|k IH]; intros p s s'; cbn [procinit_loop]; [by intros [= <-]|]. intros R Hs.
  apply bind_ok_inv in R as ([] & s1 & R1 & R). apply upd_proc_one in R1 as [Ho Hc Hn _].
  destruct (IH _ _ _ R) as [? Hn']; [|split; [done | congruence]]. intros q. destruct (decide (q = p)) as [->|]; [|by rewrite Ho].
  rewrite Hc. destruct (core_inj _ _ _ _ _ (Hs p)) as (_ & E2 & E3 & _). unfold core. cbn. by rewrite E2, E3.
Qed.

Lemma userinit_tab s s' : userinit 0 kaddr forkret_addr s = Ok (tt, s') →
  (∀ q, core (kn_procs s q) = (UNUSED, 0, None, None)) →
  ∃ p, (p < NP)%nat ∧ kn_initproc s' = Some p ∧ core (kn_procs s' p) = (RUNNABLE, kn_nextpid s, None, None) ∧
    (∀ q, q ≠ p → core (kn_procs s' q) = (UNUSED, 0, None, None)) ∧ kn_nextpid s' = i32 (kn_nextpid s + 1).
Proof.
  unfold userinit. intros R Hs. apply bind_ok_inv in R as (o & s1 & R1 & R). apply allocproc_tab in R1.
  rewrite bind_modify in R. destruct o as [p|]; [|done]. destruct R1 as (Hp & _ & Ho & Hc & _ & _ & Hn & _). cbn [opt_get] in R.
  rewrite bind_ret, bind_rd_proc in R. apply bind_ok_inv in R as ([] & s2 & R2 & R). apply bind_ok_inv in R as ([] & s3 & R3 & R).
  apply bind_ok_inv in R as ([] & s4 & R4 & R). apply bind_ok_inv in R as ([] & s5 & R5 & R). apply bind_ok_inv in R as ([] & s6 & R6 & R).
  apply bind_ok_inv in R as (cwd & s7 & R7 & R). apply bind_ok_inv in R as ([] & s8 & R8 & R). exists p.
  assert (H8 : same_tab (set_kn_initproc (Some p) s1) s8).
  { etransitivity; [by eapply in_fs_same|]. etransitivity; [by eapply upd_proc_same|]. etransitivity; [by eapply wr_tf_same|].
    etransitivity; [by eapply wr_tf_same|]. etransitivity; [by eapply in_fs_same|]. etransitivity; [by eapply with_proc_same|].
    by eapply upd_proc_same. }
  destruct (same_one _ _ _ _ _ H8 (upd_proc_one _ _ _ _ R)) as [Ao Ac An Ai]. cbn in *. split_and!; [done | done | | | congruence].
  - rewrite Ac. pose proof (sm_core _ _ H8 p) as E. cbn in E. rewrite Hc in E. apply core_inj in E as (_ & E2 & E3 & _).
    destruct (core_inj _ _ _ _ _ (Hs p)) as (_ & _ & E4 & _). unfold core. cbn. by rewrite E2, E3, E4.
  - intros q Hq. rewrite Ao, Ho by done. apply Hs.
Qed.

Local Opaque procinit_loop.

Lemma booted_tab t : booted t → ∃ p, (p < NP)%nat ∧ kn_initproc t.1 = Some p ∧ core (kn_procs t.1 p) = (RUNNABLE, 1, None, None) ∧
    (∀ q, q ≠ p → core (kn_procs t.1 q) = (UNUSED, 0, None, None)) ∧ kn_nextpid t.1 = 2 ∧ ∀ q, t.2 q = PUser.
Proof.
  intros (s0 & s1 & Hn0 & H0 & R0 & R & Hc). unfold procinit in R0. destruct (procinit_same _ _ _ _ R0 H0) as [H1 Hn1].
  destruct (userinit_tab _ _ R H1) as (p & Hp & Hi & Ep & Eo & Hn). exists p. rewrite Hn1, Hn0 in Ep, Hn. rewrite i32_small in Hn by lia. by split_and!.
Qed.

Lemma booted_tree t : booted t → tree_ok t.
Proof.
  intros (p & Hp & Hi & (P1 & P2 & P3 & _)%core_inj & Eo & Hn & Hc)%booted_tab.
  assert (HO : ∀ q, p_state (kn_procs t.1 q) ≠ UNUSED → q = p).
  { intros q Hq. destruct (decide (q = p)) as [|Hne]; [done|]. by destruct (core_inj _ _ _ _ _ (Eo q Hne)). }
  assert (HN : ∀ q, p_parent (kn_procs t.1 q) = None).
  { intros q. destruct (decide (q = p)) as [->|Hne]; [done|]. by destruct (core_inj _ _ _ _ _ (Eo q Hne)) as (_ & _ & ? & _). }
  split.
  - intros q _ Hq. split; [|apply HN]. destruct (decide (q = p)) as [->|Hne]; [congruence | by destruct (core_inj _ _ _ _ _ (Eo q Hne)) as (_ & ? & _)].
  - intros q _ ->%HO. rewrite P2, Hn. done.
  - by intros q r _ _ ->%HO ->%HO.
  - intros q r _. by rewrite HN.
  - intros q _ ->%HO _. by left.
  - exists p. split_and!; try done; [rewrite P1; unfold lively; auto|]. by intros q _ ->%HO.
  - intros r np. by rewrite Hc.
  - intros r r' np. by rewrite Hc.
  - intros r np. by rewrite Hc.
  - intros r np. by rewrite Hc.
  - intros q r _. by rewrite HN.
Qed.

(** Reached from boot. *)
Definition reached (t : tstate) : Prop := ∃ t0, booted t0 ∧ rtc tstep t0 t.

Lemma reached_tree t : reached t → tree_ok t.
Proof. intros (t0 & ?%booted_tree & Hr). induction Hr; eauto using tstep_tree. Qed.

Definition parent_of (t : tstate) (q r : nat) : Prop := p_parent (kn_procs t.1 q) = Some r.

(** Parent pointers lead to [init]. *)
Lemma ancestors t i n : tree_ok t → kn_initproc t.1 = Some i → ∀ q, (q < NP)%nat → p_pid (kn_procs t.1 q) < Z.of_nat n →
  p_state (kn_procs t.1 q) ≠ UNUSED → (∀ r, t.2 r ≠ PForked q) → rtc (parent_of t) q i.
Proof.
  intros T Hi. pose proof T as [U D E F G J K L M O W]. induction n as [|n IH]; intros q Hq Hn Hu Hf.
  { specialize (D q Hq Hu). lia. }
  destruct (p_parent (kn_procs t.1 q)) as [r|] eqn:Hr.
  - destruct (F _ _ Hq Hr) as (H1 & H2 & H3). eapply rtc_l; [exact Hr|]. apply IH; [done | lia | by apply lively_used |].
    intros r' Hr'. destruct (K r' r) as (_ & _ & _ & ?); [by rewrite Hr'|]. apply lively_used in H2. tauto.
  - destruct (G q Hq Hu Hr) as [Hiq|[r Hr']]; [by simplify_eq | by destruct (Hf r)].
Qed.

(** C4. However forks, exits, waits, kills, sleeps, wakeups and context switches interleave,
    processes have distinct pids, [init] lives, and every process, but for one whose [fork] has not yet
    set its parent, is below [init] in the tree of parents and has a live parent to [wait]
    for it. *)
Theorem process_tree t : reached t →
  (∀ q r, (q < NP)%nat → (r < NP)%nat → p_state (kn_procs t.1 q) ≠ UNUSED → p_state (kn_procs t.1 r) ≠ UNUSED →
     p_pid (kn_procs t.1 q) = p_pid (kn_procs t.1 r) → q = r) ∧
  ∃ i, kn_initproc t.1 = Some i ∧ lively (p_state (kn_procs t.1 i)) ∧
    ∀ q, (q < NP)%nat → p_state (kn_procs t.1 q) ≠ UNUSED → (∀ r, t.2 r ≠ PForked q) →
      rtc (parent_of t) q i ∧ (q ≠ i → ∃ r, parent_of t q r ∧ lively (p_state (kn_procs t.1 r))).
Proof.
  intros T%reached_tree. split; [apply to_distinct, T|]. destruct (to_init _ T) as (i & Hi & _ & Hl & _). exists i. split_and!; [done..|].
  intros q Hq Hu Hf. split; [eapply ancestors; eauto; instantiate (1 := Z.to_nat (p_pid (kn_procs t.1 q) + 1)); lia|].
  intros Hne. destruct (p_parent (kn_procs t.1 q)) as [r|] eqn:Hr; [exists r; split; [done | by eapply to_parent]|].
  destruct (to_orphan _ T q Hq Hu Hr) as [|[r Hr']]; [congruence | by destruct (Hf r)].
Qed.

(** C9. No wakeup of [wait] is lost: at no moment does a process sleep in [wait] while one of
    its children is a zombie, whether the child exited or was handed over to [init] by an
    exiting parent. *)
Theorem wait_no_lost_wakeup t q r :
  reached t → (q < NP)%nat → p_parent (kn_procs t.1 q) = Some r → p_state (kn_procs t.1 q) = ZOMBIE →
  ¬ (p_state (kn_procs t.1 r) = SLEEPING ∧ p_chan (kn_procs t.1 r) = Some (ChProc r)).
Proof.
  intros T%reached_tree Hq Hr Hz [H1 H2]. apply (to_waits _ T q r Hq Hr Hz). unfold waits, asleep. by rewrite bool_decide_true.
Qed.

(** [kill] finds the first entry with the pid. *)
Lemma kill_loop_first pid k : ∀ p q s, (p ≤ q < p + k)%nat → p_pid (kn_procs s q) = pid →
  (∀ r, (p ≤ r < q)%nat → p_pid (kn_procs s r) ≠ pid) →
  ∃ f, kill_loop k p pid s = Ok (0, set_kn_procs f s) ∧ (∀ r, r ≠ q → f r = kn_procs s r) ∧
    f q = set_p_state (if bool_decide (p_state (kn_procs s q) = SLEEPING) then RUNNABLE else p_state (kn_procs s q)) (set_p_killed 1 (kn_procs s q)).
Proof.
  induction k as [|k IH]; intros p q s Hq Hpid Hf; [lia|]. cbn [kill_loop]. rewrite bind_rd_proc. unfold id.
  destruct (decide (q = p)) as [->|Hne].
  - rewrite Hpid, Z.eqb_refl, bind_upd_proc. destruct (bool_decide_reflect (p_state (kn_procs s p) = SLEEPING)).
    + rewrite bind_upd_proc. eexists. split; [reflexivity|]. cbn. rewrite !fn_lookup_insert. split; [|done].
      intros r Hr. by rewrite !fn_lookup_insert_ne.
    + rewrite bind_ret. eexists. split; [reflexivity|]. cbn. rewrite fn_lookup_insert. split; [|by destruct (kn_procs s p)].
      intros r Hr. by rewrite fn_lookup_insert_ne.
  - destruct (Z.eqb_spec (p_pid (kn_procs s p)) pid) as [E|]; [destruct (Hf p); [lia | done]|].
    apply IH; [lia | done|]. intros r Hr. apply Hf. lia.
Qed.

(** C40. When some entry of the table is free, [kill(0)] succeeds: it marks the first free
    entry, whose pid is 0, as killed, and the next process that [allocproc] makes is born
    killed. *)
Theorem kill_zero_unborn t q : reached t → (q < NP)%nat → p_state (kn_procs t.1 q) = UNUSED →
  ∃ s', kill 0 t.1 = Ok (0, s') ∧
    ∀ p s'', allocproc kaddr forkret_addr s' = Ok (Some p, s'') → p_killed (kn_procs s'' p) = 1.
Proof.
  intros [U D _ _ _ _ _ _ _ _ _]%reached_tree Hq Hst.
  destruct (find_unused_spec (Z.to_nat NPROC) 0 t.1) as ([p|] & _ & Ho); [|destruct (Ho q); [fold NP; lia | done]].
  destruct Ho as (Hp & Hu & Hf). destruct (U p) as [Hpid _]; [unfold NP; lia | done|].
  destruct (kill_loop_first 0 (Z.to_nat NPROC) 0 p t.1) as (f & R & Hne & Ef); [lia | done | |].
  { intros r Hr Hr'. specialize (D r ltac:(unfold NP; lia) (Hf r Hr)). lia. }
  eexists. split; [exact R|]. rewrite Hu in Ef. cbn in Ef.
  intros p' s'' (Hp' & Hu' & _ & _ & Hfirst & -> & _)%allocproc_tab. cbn in *.
  assert (p' = p) as ->; [|by rewrite Ef].
  destruct (decide (p' < p)%nat) as [Hlt|]; [rewrite Hne in Hu' by lia; destruct (Hf p'); [lia | done]|].
  destruct (decide (p < p')%nat) as [Hlt|]; [|lia]. destruct (Hfirst p Hlt). by rewrite Ef.
Qed.
End steps.
