(* ===== verification/ProcExample.v ===== *)
(** * ProcExample: a machine that boots, forks, exits and waits

    The definitions of Proc.v evaluated on a kernel with some free pages and an empty
    process table; the lemmas named [.._witness] apply theorems about processes to it. *)

From stdpp Require Import functions.
From S2P Require Import Prelude Mem Layout Kalloc Vm FsFormat Bio Log Fs Kern Sched Printf Console File Proc ProcTree.

Local Open Scope Z_scope.
#[local] Existing Instance xv6_image.

(** Run [m] and check the rest. *)
Definition run_then {A} (m : XM A) (k : A → kernel → bool) (s : kernel) : bool :=
  match m s with Ok (a, s') => k a s' | _ => false end.

Lemma run_then_inv {A} (m : XM A) k s : run_then m k s = true → ∃ a s', m s = Ok (a, s') ∧ k a s' = true.
Proof. unfold run_then. destruct (m s) as [[a s']| | |]; try done. eauto. Qed.

(** Twenty free pages. *)
Definition free_mem : memory :=
  foldr (λ i m, st64 m (0x87000000 + PGSIZE * i) (0x87000000 + PGSIZE * (i + 1))) ∅ (seqZ 0 20).
Definition zero_proc : proc :=
  mkProc UNUSED None 0 0 0 None 0 0 0 0 (mkContext 0 0 []) (replicate 16 None) None 0.
Definition zero_inode : inode := mkInode 0 0 0 None false (mkDinode 0 0 0 0 0 (replicate 13 0)).
Definition zero_file : file := mkFile FD_NONE 0 false false 0 0 0 0.
Definition zero_disk : disk :=
  mkDisk (λ _, mkDesc DNull 0 0 0) 0 (λ _, 0) 0 (λ _, 0) (λ _, true) 0 (λ _, None) (λ _, 0) (λ _, mkReq 0 0 0) (λ _, false) (λ _, 0).
Definition boot_slots (s : slot) : Z :=
  match s with SStr s => if bool_decide (s = "/") then 0x80001000 else 0x80001010 | _ => 0x80002000 end.
Definition boot_mem : memory := st8 free_mem 0x80001000 47.

Definition zero_ls : lstate :=
  mkLstate (mkBcache (λ _, mkBuf false 0 0 None 0 0 0 ∅) (λ _ _, ∅) []) (mkLog 0 0 0 false 0 0 (λ _, 0)).

Definition zero_kernel : kernel :=
  mkKernel (mkFsys zero_ls (mkSuperblock 0 0 0 0 0 0 0 0) (λ _, zero_inode) (mkKmem boot_mem 0x87000000)) (λ _, zero_proc) (λ _, None) 1 None
    (λ _, zero_file) (λ _, mkPipe (λ _, 0) 0 0 true true) (λ _, false) (mkCons (λ _, 0) 0 0 0)
    (mkUart (λ _, 0) 0 0 (λ _, 0) 0 (λ _, 0%nat) [] []) zero_disk 0 false false.

Definition state_is (q : nat) (st : procstate) (s : kernel) : bool := bool_decide (p_state (kn_procs s q) = st).

(** Boot; run process 0, which forks process 1 and waits; run process 1, which exits.  The
    checks are what the steps of ProcTree.v ask for. *)
Definition boot_run : bool :=
  run_then procinit (λ _, run_then (userinit 0 boot_slots 0x80002000) (λ _ s,
    state_is 0 RUNNABLE s && run_then (upd_proc 0 (set_p_state RUNNING)) (λ _ s,
    state_is 0 RUNNING s && (kn_nextpid s =? 2) && run_then (fork_copy 0 boot_slots 0x80002000) (λ o s,
    bool_decide (o = Some (1%nat, 2)) && state_is 0 RUNNING s && run_then (fork_parent 0 1) (λ _ s,
    state_is 0 RUNNING s && run_then (fork_run 1) (λ _ s,
    state_is 0 RUNNING s && state_is 5 UNUSED s && run_then (wait_start 0 boot_slots 0) (λ r s,
    state_is 1 RUNNABLE s && run_then (upd_proc 1 (set_p_state RUNNING)) (λ _ s,
    state_is 0 SLEEPING s && bool_decide (p_chan (kn_procs s 0) = Some (ChProc 0)) &&
    state_is 1 RUNNING s && bool_decide (kn_initproc s = Some 0%nat) && run_then (exit_zombie 1 7) (λ _ s,
    state_is 1 ZOMBIE s && bool_decide (p_parent (kn_procs s 1) = Some 0%nat) && bool_decide (kn_initproc s = Some 0%nat)) s) s) s) s) s) s) s)) zero_kernel.

Lemma boot_run_ok : boot_run = true.
Proof. vm_compute. reflexivity. Qed.

Definition at_user : nat → fork_pc := λ _, PUser.
Definition in_fork : nat → fork_pc := <[0%nat := PUser]> (<[0%nat := PParented 1]> (<[0%nat := PForked 1]> at_user)).

Local Opaque procinit userinit fork_copy fork_parent fork_run wait_start exit_zombie upd_proc.

(** One operation of the run, and the checks before the next. *)
Ltac next_run H a s R :=
  repeat match type of H with _ && _ = true => let H' := fresh "Hs" in apply andb_true_iff in H as [H' H] end;
  apply run_then_inv in H; destruct H as (a & s & R & H).
Ltac split_checks :=
  repeat match goal with
  | H : (_ && _) = true |- _ => apply andb_true_iff in H as [? ?]
  | H : state_is _ _ _ = true |- _ => apply bool_decide_eq_true in H
  | H : bool_decide _ = true |- _ => apply bool_decide_eq_true in H
  | H : (_ =? _) = true |- _ => apply Z.eqb_eq in H
  end.

Ltac at_pc := split; [vm_compute; lia | split; [assumption | reflexivity]].

(** The state after the fork and the states before and after the exit. *)
Lemma boot_reached :
  ∃ s6 s8 s9, reached boot_slots 0x80002000 (s6, in_fork) ∧ p_state (kn_procs s6 5) = UNUSED ∧
    p_state (kn_procs s8 0) = SLEEPING ∧ p_chan (kn_procs s8 0) = Some (ChProc 0) ∧ exit_zombie 1 7 s8 = Ok (tt, s9) ∧
    reached boot_slots 0x80002000 (s9, in_fork) ∧ p_state (kn_procs s9 1) = ZOMBIE ∧ p_parent (kn_procs s9 1) = Some 0%nat ∧
    kn_initproc s9 = Some 0%nat.
Proof.
  pose proof boot_run_ok as H. unfold boot_run in H. next_run H u1 s1 R1. next_run H u2 s2 R2. next_run H u3 s3 R3. next_run H o s4 R4.
  next_run H u5 s5 R5. next_run H u6 s6 R6. next_run H r s7 R7. next_run H v8 s8 R8. next_run H u9 s9 R9. split_checks.
  subst o. destruct u1, u2, u3, u5, u6, v8, u9.
  assert (Hfork : reached boot_slots 0x80002000 (s6, in_fork)).
  { exists (s2, at_user). split; [by exists zero_kernel, s1|].
    eapply rtc_l; [by apply (t_run _ _ 0 s2 at_user s3)|].
    eapply rtc_l; [apply (t_fork _ _ 0 s3 at_user 1 2 s4); [at_pc | unfold pid_room; lia | done]|].
    eapply rtc_l; [apply (t_fork_parent _ _ 0 s4 (<[0%nat := PForked 1]> at_user) 1 s5); [at_pc | done]|].
    eapply rtc_l; [apply (t_fork_run _ _ 0 s5 (<[0%nat := PParented 1]> (<[0%nat := PForked 1]> at_user)) 1 s6); [at_pc | done]|]. apply rtc_refl. }
  exists s6, s8, s9. split_and!; try done. destruct Hfork as (t0 & Hb & Hr). exists t0. split; [done|]. etransitivity; [exact Hr|].
  eapply rtc_l; [apply (t_wait _ _ 0 s6 in_fork 0 r s7); [at_pc | done]|].
  eapply rtc_l; [by apply (t_run _ _ 1 s7 in_fork s8)|].
  eapply rtc_l; [apply (t_exit _ _ 1 s8 in_fork 7 s9); [at_pc | congruence | done]|]. apply rtc_refl.
Qed.

(** Process 1 has exited while [init] slept in [wait]. *)
Lemma process_tree_witness : ∃ t,
  p_state (kn_procs t.1 1) = ZOMBIE ∧ rtc (parent_of t) 1%nat 0%nat ∧ ∃ r, parent_of t 1 r ∧ lively (p_state (kn_procs t.1 r)).
Proof.
  destruct boot_reached as (_ & _ & s9 & _ & _ & _ & _ & _ & Hr & Hz & _ & Hi0). exists (s9, in_fork). split; [exact Hz|].
  destruct (process_tree _ _ _ Hr) as (_ & i & Hi & _ & H). cbn [fst] in Hi. rewrite Hi0 in Hi. injection Hi as <-.
  destruct (H 1%nat) as [H1 H2]; [vm_compute; lia | cbn; rewrite Hz; discriminate | |].
  - intros r. cbn [snd]. unfold in_fork. destruct (decide (r = 0%nat)) as [->|]; [discriminate|].
    rewrite !fn_lookup_insert_ne by done. discriminate.
  - split; [exact H1 | apply H2; discriminate].
Defined.

Lemma wait_no_lost_wakeup_witness : ∃ s s',
  p_state (kn_procs s 0) = SLEEPING ∧ p_chan (kn_procs s 0) = Some (ChProc 0) ∧ exit_zombie 1 7 s = Ok (tt, s') ∧
  ¬ (p_state (kn_procs s' 0) = SLEEPING ∧ p_chan (kn_procs s' 0) = Some (ChProc 0)).
Proof.
  destruct boot_reached as (_ & s8 & s9 & _ & _ & Hs & Hch & Rx & Hr & Hz & Hp & _). exists s8, s9. split; [exact Hs|]. split; [exact Hch|].
  split; [exact Rx|]. apply (wait_no_lost_wakeup _ _ _ 1 0 Hr); [vm_compute; lia | exact Hp | exact Hz].
Defined.

Lemma kill_zero_unborn_witness : ∃ s s',
  p_state (kn_procs s 5) = UNUSED ∧ kill 0 s = Ok (0, s') ∧
    ∀ p s'', allocproc boot_slots 0x80002000 s' = Ok (Some p, s'') → p_killed (kn_procs s'' p) = 1.
Proof.
  destruct boot_reached as (s6 & _ & _ & Hr & Hu & _). exists s6.
  destruct (kill_zero_unborn _ _ _ 5 Hr) as (s' & R & H); [vm_compute; lia | exact Hu|]. exists s'. split; [exact Hu|]. split; [exact R | exact H].
Defined.
