(* ===== verification/ConsoleSpec.v ===== *)
(** * ConsoleSpec: the console is a line editor (src/kernel/console.c, src/kernel/uart.c)

    [consoleintr] refines an editor of lines: a committed queue of bytes and a line being
    typed; [consoleread] delivers committed bytes up to the end of a line. *)

From stdpp Require Import functions.
From S2P Require Import Prelude Mem Layout Kalloc Vm VmTable VmUser VmCopy VmExample FsFormat Bio Log Fs Kern Sched UserByte Printf PrintfSpec Console File Proc ProcTree ProcExample.

Import CString.

Local Open Scope Z_scope.

(** ** Output *)

(** [l] has been sent; the transmit buffer and the receiver are as they were. *)
Record sent (l : list Z) (u u' : uart) : Prop := {
  se_sent : u_sent u' = u_sent u ++ l;
  se_tx : u_tx_buf u' = u_tx_buf u ∧ u_tx_w u' = u_tx_w u ∧ u_tx_r u' = u_tx_r u;
  se_rx : u_rx u' = u_rx u;
}.

Lemma sent_refl u : sent [] u u.
Proof. split; [by rewrite app_nil_r | done | done]. Qed.
Lemma sent_trans l l' u1 u2 u3 : sent l u1 u2 → sent l' u2 u3 → sent (l ++ l') u1 u3.
Proof.
  intros [A1 (A2 & A3 & A4) A5] [B1 (B2 & B3 & B4) B5].
  split; [by rewrite B1, A1, app_assoc | split_and!; congruence | congruence].
Qed.

Lemma wait_idle_ok b : ∀ u, (u_busy u ≤ b)%nat → ∃ u', wait_idle (S b) u = Ok (tt, u') ∧ sent [] u u'.
Proof.
  induction b as [|b IH]; intros u Hb; cbn [wait_idle]; unfold read_LSR; rewrite bind_assoc, bind_get, bind_assoc, bind_put, bind_ret.
  - destruct (Nat.eqb_spec (u_busy u) 0); [|lia]. destruct (bool_decide _); (eexists; split; [reflexivity|]; by split; [rewrite app_nil_r|..]).
  - destruct (Nat.eqb_spec (u_busy u) 0).
    + destruct (bool_decide _); (eexists; split; [reflexivity|]; by split; [rewrite app_nil_r|..]).
    + destruct (IH (set_u_busy (pred (u_busy u)) u)) as (u' & R & Hs); [cbn; lia|]. exists u'.
      split; [by destruct (bool_decide _)|]. destruct Hs as [? ? ?]. by split.
Qed.

Lemma in_uart_run {A} (m : M uart A) s a u : m (kn_uart s) = Ok (a, u) → in_uart m s = Ok (a, set_kn_uart u s).
Proof. unfold in_uart, zoom. by intros ->. Qed.

Lemma uartputc_sync_ok c s : kn_panicked s = false → ∃ u, uartputc_sync c s = Ok (tt, set_kn_uart u s) ∧ sent [u8 c] (kn_uart s) u.
Proof.
  intros Hp. unfold uartputc_sync, check_panicked. rewrite bind_assoc, bind_gets, Hp. rewrite bind_ret, bind_gets.
  destruct (wait_idle_ok (u_busy (kn_uart s)) (kn_uart s) (le_n _)) as (u & R & Hs). rewrite (bind_ok _ _ _ _ _ (in_uart_run _ _ _ _ R)).
  eexists. split; [reflexivity|]. cbn. destruct Hs as [A1 (A2 & A3 & A4) A5]. split; cbn; [by rewrite A1, app_nil_r | done | done].
Qed.

(** What [consputc(c)] sends. *)
Definition echo (c : Z) : list Z := if c =? BACKSPACE then [8; 32; 8] else [u8 c].

Lemma consputc_ok c s : kn_panicked s = false → ∃ u, consputc c s = Ok (tt, set_kn_uart u s) ∧ sent (echo c) (kn_uart s) u.
Proof.
  intros Hp. unfold consputc, echo. destruct (c =? BACKSPACE); [|by apply uartputc_sync_ok].
  destruct (uartputc_sync_ok 8 s Hp) as (u1 & R1 & H1). destruct (uartputc_sync_ok 32 (set_kn_uart u1 s) Hp) as (u2 & R2 & H2).
  destruct (uartputc_sync_ok 8 (set_kn_uart u2 s) Hp) as (u3 & R3 & H3). exists u3.
  rewrite (bind_ok _ _ _ _ _ R1), (bind_ok _ _ _ _ _ R2). split; [exact R3|]. by apply (sent_trans [8] [32; 8] _ u1), (sent_trans [32] [8] _ u2).
Qed.

Lemma consputs_ok l : ∀ s, kn_panicked s = false → ∃ u, consputs l s = Ok (tt, set_kn_uart u s).
Proof.
  induction l as [|c l IH]; intros s Hp; cbn [consputs]; [exists (kn_uart s); by destruct s|].
  destruct (consputc_ok c s Hp) as (u & R & _). rewrite (bind_ok _ _ _ _ _ R). destruct (IH (set_kn_uart u s) Hp) as (u' & R'). by exists u'.
Qed.

Lemma printf_ok fmt ap l s : format (S (length fmt)) fmt ap = Some l → kn_panicked s = false →
  ∃ u, printf fmt ap s = Ok (tt, set_kn_uart u s).
Proof. intros E Hp. unfold printf. rewrite E. by apply consputs_ok. Qed.

Lemma i32_range w : - 2 ^ 31 ≤ i32 w < 2 ^ 31.
Proof. unfold i32. pose proof (Z.mod_pos_bound w (2 ^ 32) ltac:(lia)). case_match; lia. Qed.

Lemma printint_d w : ∃ l, printint (i32 w) 10 true = Some l.
Proof.
  pose proof (i32_range w). pose proof (printint_spec (i32 w) 10 true ltac:(lia) ltac:(lia)) as Hs. cbv zeta in Hs.
  rewrite decide_True in Hs; [destruct Hs as (l & -> & _); eauto|]. unfold magnitude. cbn [andb].
  change (10 ^ 15) with 1000000000000000. change (10 ^ 16) with 10000000000000000. destruct (Z.ltb_spec (i32 w) 0); [lia|]. rewrite u64_small; lia.
Qed.

(** ** The input buffer *)

(** [n] bytes of the circular buffer from index [a]. *)
Definition ring (f : Z → Z) (a : Z) (n : nat) : list Z := (λ j, f ((a + Z.of_nat j) mod INPUT_BUF_SIZE)) <$> seq 0 n.

Lemma length_ring f a n : length (ring f a n) = n.
Proof. unfold ring. by rewrite length_fmap, length_seq. Qed.
Lemma ring_mod f a b n : a mod INPUT_BUF_SIZE = b mod INPUT_BUF_SIZE → ring f a n = ring f b n.
Proof.
  intros E. apply list_fmap_ext. intros _ j _. f_equal. unfold INPUT_BUF_SIZE in *. zdiv.
Qed.
Lemma ring_app f a n m : ring f a (n + m) = ring f a n ++ ring f (a + Z.of_nat n) m.
Proof.
  unfold ring. rewrite seq_app, fmap_app. f_equal. rewrite Nat.add_0_l. rewrite <- (Nat.add_0_r n) at 1. rewrite <- fmap_add_seq, <- list_fmap_compose.
  apply list_fmap_ext. intros _ j _. cbn. do 2 f_equal. lia.
Qed.
Lemma ring_insert f a n k v : (n ≤ k)%nat → Z.of_nat k < INPUT_BUF_SIZE → ring (<[(a + Z.of_nat k) mod INPUT_BUF_SIZE := v]> f) a n = ring f a n.
Proof.
  intros Hn Hk. apply list_fmap_ext. intros _ j Hj%list_elem_of_lookup_2%elem_of_seq. apply fn_lookup_insert_ne.
  unfold INPUT_BUF_SIZE in *. zdiv.
Qed.
Lemma ring_one f a : ring f a 1 = [f (a mod INPUT_BUF_SIZE)].
Proof. unfold ring. cbn. by rewrite Z.add_0_r. Qed.

Definition len_c (k : cons) : nat := Z.to_nat (u32 (c_w k - c_r k)).
Definition len_p (k : cons) : nat := Z.to_nat (u32 (c_e k - c_w k)).

(** The committed bytes and the line being typed. *)
Definition committed (k : cons) : list Z := ring (c_buf k) (c_r k) (len_c k).
Definition pending (k : cons) : list Z := ring (c_buf k) (c_w k) (len_p k).

Record ring_ok (k : cons) : Prop := {
  co_byte j : 0 ≤ c_buf k j < 256;
  co_r : 0 ≤ c_r k < 2 ^ 32;
  co_w : 0 ≤ c_w k < 2 ^ 32;
  co_e : 0 ≤ c_e k < 2 ^ 32;
  co_len : Z.of_nat (len_c k + len_p k) ≤ INPUT_BUF_SIZE;
}.
(** A line ends when it is committed. *)
Definition cons_ok (k : cons) : Prop := ring_ok k ∧ nl ∉ pending k.

Lemma length_committed k : length (committed k) = len_c k.
Proof. apply length_ring. Qed.
Lemma length_pending k : length (pending k) = len_p k.
Proof. apply length_ring. Qed.

Lemma len_all k : ring_ok k → u32 (c_e k - c_r k) = Z.of_nat (len_c k + len_p k).
Proof. intros [_ ? ? ? Hl]. unfold len_c, len_p, INPUT_BUF_SIZE, u32 in *. zdiv. Qed.
Lemma e_mod k : ring_ok k → c_e k mod INPUT_BUF_SIZE = (c_w k + Z.of_nat (len_p k)) mod INPUT_BUF_SIZE ∧
  c_e k mod INPUT_BUF_SIZE = (c_r k + Z.of_nat (len_c k + len_p k)) mod INPUT_BUF_SIZE.
Proof. intros [_ ? ? ? Hl]. unfold len_c, len_p, INPUT_BUF_SIZE, u32 in *. split; zdiv. Qed.
Lemma w_mod k : ring_ok k → c_w k mod INPUT_BUF_SIZE = (c_r k + Z.of_nat (len_c k)) mod INPUT_BUF_SIZE.
Proof. intros [_ ? ? ? Hl]. unfold len_c, len_p, INPUT_BUF_SIZE, u32 in *. zdiv. Qed.
Lemma pending_nil k : ring_ok k → c_e k = c_w k ↔ pending k = [].
Proof.
  intros [_ ? ? ? Hl]. pose proof (length_pending k) as L. split.
  - intros E. apply nil_length_inv. rewrite L. unfold len_p. rewrite E, Z.sub_diag. done.
  - intros E. rewrite E in L. cbn in L. unfold len_p, u32 in L. zdiv.
Qed.
Lemma committed_nil k : ring_ok k → c_r k = c_w k ↔ committed k = [].
Proof.
  intros [_ ? ? ? Hl]. pose proof (length_committed k) as L. split.
  - intros E. apply nil_length_inv. rewrite L. unfold len_c. rewrite E, Z.sub_diag. done.
  - intros E. rewrite E in L. cbn in L. unfold len_c, u32 in L. zdiv.
Qed.

(** [cons.buf[cons.e++ % INPUT_BUF_SIZE] = c;] *)
Definition type_char (c : Z) (k : cons) : cons := set_c_e (u32 (c_e k + 1)) (set_c_buf (<[c_e k mod INPUT_BUF_SIZE := u8 c]> (c_buf k)) k).
(** [cons.w = cons.e;] *)
Definition commit_line (k : cons) : cons := set_c_w (c_e k) k.
(** [cons.e--;] *)
Definition rubout (k : cons) : cons := set_c_e (u32 (c_e k - 1)) k.
(** [cons.r++] *)
Definition take_char (k : cons) : cons := set_c_r (u32 (c_r k + 1)) k.

Lemma type_char_ok c k : ring_ok k → Z.of_nat (len_c k + len_p k) < INPUT_BUF_SIZE →
  ring_ok (type_char c k) ∧ committed (type_char c k) = committed k ∧ pending (type_char c k) = pending k ++ [u8 c].
Proof.
  intros Hk Hl. destruct (e_mod k Hk) as [E1 E2].
  assert (El : len_p (type_char c k) = S (len_p k)).
  { destruct Hk as [_ ? ? ? _]. unfold len_p, len_c, INPUT_BUF_SIZE, u32 in *. cbn. unfold u32. zdiv. }
  split.
  - destruct Hk as [A B C D E]. split; [| done | done | apply u32_range | rewrite El; change (len_c (type_char c k)) with (len_c k); lia].
    intros j. cbn. destruct (decide (j = c_e k mod INPUT_BUF_SIZE)) as [->|]; [rewrite fn_lookup_insert; apply u8_range | by rewrite fn_lookup_insert_ne].
  - unfold committed, pending. rewrite El. change (len_c (type_char c k)) with (len_c k). cbn [c_buf c_r c_w type_char set_c_e set_c_buf]. split.
    + rewrite E2. apply ring_insert; lia.
    + rewrite <- Nat.add_1_r, ring_app. f_equal; [rewrite E1; apply ring_insert; lia|]. rewrite ring_one, E1. by rewrite fn_lookup_insert.
Qed.

Lemma commit_line_ok k : ring_ok k →
  ring_ok (commit_line k) ∧ committed (commit_line k) = committed k ++ pending k ∧ pending (commit_line k) = [].
Proof.
  intros Hk. pose proof (w_mod k Hk) as Ew.
  assert (El : len_c (commit_line k) = (len_c k + len_p k)%nat ∧ len_p (commit_line k) = 0%nat).
  { destruct Hk as [_ ? ? ? Hl]. unfold len_p, len_c, INPUT_BUF_SIZE, u32 in *. cbn. rewrite Z.sub_diag. split; [zdiv | done]. }
  destruct El as [E1 E2]. split_and!.
  - destruct Hk as [A B C D E]. split; try done. rewrite E1, E2. lia.
  - unfold committed, pending. rewrite E1. cbn [c_buf c_r c_w commit_line set_c_w]. rewrite ring_app. f_equal. by apply ring_mod.
  - unfold pending. by rewrite E2.
Qed.

Lemma rubout_ok k : ring_ok k → c_e k ≠ c_w k →
  ring_ok (rubout k) ∧ committed (rubout k) = committed k ∧ pending k = pending (rubout k) ++ [c_buf k (u32 (c_e k - 1) mod INPUT_BUF_SIZE)].
Proof.
  intros Hk Hne.
  assert (El : len_p k = (len_p (rubout k) + 1)%nat).
  { destruct Hk as [_ ? ? ? Hl]. unfold len_p, len_c, INPUT_BUF_SIZE, u32 in *. cbn. unfold u32. zdiv. }
  split_and!; [|done|].
  - destruct Hk as [A B C D E]. split; try done; [apply u32_range|]. change (len_c (rubout k)) with (len_c k). lia.
  - unfold pending at 1. rewrite El, ring_app. f_equal. rewrite ring_one. do 2 f_equal. destruct Hk as [_ ? ? ? Hl].
    unfold len_p, len_c, INPUT_BUF_SIZE, u32 in *. cbn in *. unfold u32 in *. zdiv.
Qed.

Lemma take_char_ok k : ring_ok k → c_r k ≠ c_w k →
  ring_ok (take_char k) ∧ committed k = c_buf k (c_r k mod INPUT_BUF_SIZE) :: committed (take_char k) ∧ pending (take_char k) = pending k ∧
  c_r k = u32 (c_r (take_char k) - 1).
Proof.
  intros Hk Hne.
  assert (El : len_c k = (1 + len_c (take_char k))%nat).
  { destruct Hk as [_ ? ? ? Hl]. unfold len_p, len_c, INPUT_BUF_SIZE, u32 in *. cbn. unfold u32. zdiv. }
  split_and!; [| |done|].
  - destruct Hk as [A B C D E]. split; try done; [apply u32_range|]. change (len_p (take_char k)) with (len_p k). lia.
  - unfold committed at 1. rewrite El, ring_app, ring_one. cbn [app]. f_equal. apply ring_mod. cbn. unfold INPUT_BUF_SIZE, u32. zdiv.
  - cbn. destruct Hk as [_ ? ? ? _]. unfold u32 in *. zdiv.
Qed.

(** ** The line editor *)

(** What a key does to the committed bytes and the line being typed. *)
Definition spec_key (c : Z) (l : list Z * list Z) : list Z * list Z :=
  let '(done, line) := l in
  if c =? ctrl 80 then l
  else if c =? ctrl 85 then (done, [])
  else if (c =? ctrl 72) || (c =? 0x7f) then (done, take (pred (length line)) line)
  else if negb (c =? 0) && (Z.of_nat (length done + length line) <? INPUT_BUF_SIZE) then
    let c := if c =? 13 then nl else c in
    if (c =? nl) || (c =? ctrl 68) || (Z.of_nat (length done + length line + 1) =? INPUT_BUF_SIZE)
    then (done ++ line ++ [c], [])
    else (done, line ++ [c])
  else l.

(** What it echoes; Control-P prints the process table. *)
Definition spec_echo (c : Z) (l : list Z * list Z) : list Z :=
  let '(done, line) := l in
  if c =? ctrl 85 then concat (replicate (length line) [8; 32; 8])
  else if (c =? ctrl 72) || (c =? 0x7f) then if bool_decide (line = []) then [] else [8; 32; 8]
  else if negb (c =? 0) && (Z.of_nat (length done + length line) <? INPUT_BUF_SIZE) then [if c =? 13 then nl else c]
  else [].
Section console.
  Context (cur : nat) (kaddr : slot → Z).

Lemma procdump_ok s : kn_panicked s = false → ∃ u, procdump kaddr s = Ok (tt, set_kn_uart u s).
Proof.
  assert (Hnl : ∀ s, kn_panicked s = false → ∃ u, printf [nl] [] s = Ok (tt, set_kn_uart u s)) by (intros; by eapply printf_ok).
  intros Hp. unfold procdump. destruct (Hnl s Hp) as (u & R). rewrite (bind_ok _ _ _ _ _ R).
  assert (Hl : ∀ k p s, kn_panicked s = false → ∃ u, procdump_loop kaddr k p s = Ok (tt, set_kn_uart u s));
    [|by destruct (Hl (Z.to_nat NPROC) 0%nat (set_kn_uart u s) Hp) as (u' & R'); exists u'].
  clear s u R Hp. induction k as [|k IH]; intros p s Hp; cbn [procdump_loop]; [exists (kn_uart s); by destruct s|].
  rewrite bind_rd_proc. unfold id. set (x := kn_procs s p). destruct (bool_decide (p_state x = UNUSED)); [by rewrite bind_ret; apply IH|].
  rewrite bind_assoc, bind_rd_mem. destruct (printint_d (p_pid x)) as (l & El).
  destruct (printf_ok (chars "%d %s %s") [AWord (p_pid x); AStr (Some (state_name (p_state x))); AStr (Some (cstr 16 (kmemory s) (kaddr (SProcName p))))]
    (l ++ 32 :: (state_name (p_state x)) ++ 32 :: (cstr 16 (kmemory s) (kaddr (SProcName p))) ++ []) s) as (u1 & R1); [|done|].
  { change (chars "%d %s %s") with [37; 100; 32; 37; 115; 32; 37; 115]. cbn -[printint i32 state_name cstr]. by rewrite El. }
  rewrite bind_assoc, (bind_ok _ _ _ _ _ R1). destruct (Hnl (set_kn_uart u1 s) Hp) as (u2 & R2). rewrite (bind_ok _ _ _ _ _ R2).
  destruct (IH (S p) (set_kn_uart u2 s) Hp) as (u3 & R3). by exists u3.
Qed.

Lemma bind_upd_cons {B} g (f : unit → XM B) s : (upd_cons g ≫= f) s = f tt (set_kn_cons (g (kn_cons s)) s).
Proof. done. Qed.

(** The kernel with another console and UART. *)
Definition set_cu (k : cons) (u : uart) (s : kernel) : kernel := set_kn_uart u (set_kn_cons k s).

Lemma kill_line_ok n : ∀ s, kn_panicked s = false → cons_ok (kn_cons s) → len_p (kn_cons s) = n →
  ∃ k u, kill_line (S n) s = Ok (tt, set_cu k u s) ∧ cons_ok k ∧ committed k = committed (kn_cons s) ∧ pending k = [] ∧
    sent (concat (replicate n [8; 32; 8])) (kn_uart s) u.
Proof.
  induction n as [|n IH]; intros s Hp [Hk Hnl] Hn.
  - cbn [kill_line]. rewrite bind_gets. assert (E : pending (kn_cons s) = []) by (apply nil_length_inv; by rewrite length_pending).
    pose proof (proj2 (pending_nil _ Hk) E) as Ee. rewrite Ee, Z.eqb_refl. cbn [negb andb].
    exists (kn_cons s), (kn_uart s). split_and!; try done; [by destruct s | apply sent_refl].
  - set (f := S n). cbn [kill_line]. rewrite bind_gets.
    assert (Hne : c_e (kn_cons s) ≠ c_w (kn_cons s)).
    { intros E. apply pending_nil in E; [|done]. rewrite <- length_pending, E in Hn. done. }
    destruct (rubout_ok _ Hk Hne) as (Hk1 & Ec1 & Ep1). destruct (Z.eqb_spec (c_e (kn_cons s)) (c_w (kn_cons s))) as [|_]; [done|]. cbn [negb andb].
    destruct (Z.eqb_spec (c_buf (kn_cons s) (u32 (c_e (kn_cons s) - 1) mod INPUT_BUF_SIZE)) nl) as [En|_].
    { destruct Hnl. rewrite Ep1, <- En. apply elem_of_app. right. by left. }
    cbn [negb]. rewrite bind_upd_cons. fold (rubout (kn_cons s)). set (s1 := set_kn_cons _ s).
    destruct (consputc_ok BACKSPACE s1 Hp) as (u & R & Hs). rewrite (bind_ok _ _ _ _ _ R).
    destruct (IH (set_kn_uart u s1)) as (k2 & u2 & R2 & Hk2 & Ec2 & Ep2 & Hs2); [done | split; [done|] | |].
    + cbn. intros Hin. apply Hnl. rewrite Ep1. apply elem_of_app. by left.
    + cbn. apply (f_equal length) in Ep1. rewrite length_app, !length_pending in Ep1. cbn in Ep1. lia.
    + exists k2, u2. split_and!; try done. by apply (sent_trans [8; 32; 8] _ _ u).
Qed.

(** Readers waiting for input. *)
Definition cons_awake (s : kernel) : Prop :=
  ∀ q, (q < Z.to_nat NPROC)%nat → q ≠ cur → ¬ (p_state (kn_procs s q) = SLEEPING ∧ p_chan (kn_procs s q) = Some ChCons).

(** A character that is taken. *)
Lemma char_key_ok c' s :
  cons_ok (kn_cons s) → kn_panicked s = false → 0 ≤ c' < 256 → Z.of_nat (len_c (kn_cons s) + len_p (kn_cons s)) < INPUT_BUF_SIZE →
  let k := kn_cons s in
  ∃ s', (consputc c';;
         upd_cons (λ k, set_c_e (u32 (c_e k + 1)) (set_c_buf (<[c_e k mod INPUT_BUF_SIZE := u8 c']> (c_buf k)) k));;
         k ← gets kn_cons;
         if (c' =? nl) || (c' =? ctrl 68) || (u32 (c_e k - c_r k) =? INPUT_BUF_SIZE) then
           upd_cons (λ k, set_c_w (c_e k) k);; wakeup cur ChCons
         else mret tt) s = Ok (tt, s') ∧ cons_ok (kn_cons s') ∧
    (committed (kn_cons s'), pending (kn_cons s')) =
      (if (c' =? nl) || (c' =? ctrl 68) || (Z.of_nat (len_c k + len_p k + 1) =? INPUT_BUF_SIZE)
       then (committed k ++ pending k ++ [c'], []) else (committed k, pending k ++ [c'])) ∧
    u_sent (kn_uart s') = u_sent (kn_uart s) ++ [c'] ∧
    (committed (kn_cons s') ≠ committed k → cons_awake s').
Proof.
  intros [Hr Hnl] Hp Hc' Hroom k. fold k in Hr, Hnl, Hroom. destruct (consputc_ok c' s Hp) as (u & R & Hs). rewrite (bind_ok _ _ _ _ _ R).
  assert (Eu : u_sent u = u_sent (kn_uart s) ++ [c']).
  { rewrite (se_sent _ _ _ Hs). unfold echo, BACKSPACE. destruct (Z.eqb_spec c' 256); [lia|]. by rewrite u8_small. }
  rewrite bind_upd_cons. change (kn_cons (set_kn_uart u s)) with k. fold (type_char c' k).
  destruct (type_char_ok c' k Hr Hroom) as (Hr1 & Ec1 & Ep1). rewrite (u8_small _ Hc') in Ep1.
  rewrite bind_gets. change (kn_cons (set_kn_cons (type_char c' k) (set_kn_uart u s))) with (type_char c' k). rewrite (len_all _ Hr1).
  assert (El : (len_c (type_char c' k) + len_p (type_char c' k) = len_c k + len_p k + 1)%nat).
  { rewrite <- (length_committed (type_char c' k)), <- (length_pending (type_char c' k)), Ec1, Ep1, length_app, length_committed, length_pending. cbn. lia. }
  rewrite El. destruct ((c' =? nl) || (c' =? ctrl 68) || (Z.of_nat (len_c k + len_p k + 1) =? INPUT_BUF_SIZE)) eqn:Hend.
  - rewrite bind_upd_cons. destruct (commit_line_ok _ Hr1) as (Hr2 & Ec2 & Ep2). set (s2 := set_kn_cons _ _).
    destruct (wakeup_ok cur (Some ChCons) s2) as (f & Rw & Hf). exists (set_kn_procs f s2). split_and!; [exact Rw | | | |].
    + split; [exact Hr2|]. change (kn_cons (set_kn_procs f s2)) with (commit_line (type_char c' k)). rewrite Ep2. apply not_elem_of_nil.
    + change (kn_cons (set_kn_procs f s2)) with (commit_line (type_char c' k)). by rewrite Ec2, Ep2, Ec1, Ep1.
    + exact Eu.
    + intros _ q Hq Hne. cbn. rewrite Hf, decide_True by done. unfold woken. destruct (decide (_ ∧ _)) as [|Hn]; [by intros [[=] _]|].
      intros [? ?]. apply Hn. done.
  - exists (set_cu (type_char c' k) u s). split_and!; [done | | by cbn; rewrite Ec1, Ep1 | exact Eu |].
    + split; [done|]. cbn. rewrite Ep1, elem_of_app, list_elem_of_singleton. intros [?|E]; [done|]. rewrite <- E in Hend. by rewrite Z.eqb_refl in Hend.
    + cbn. by rewrite Ec1.
Qed.

(** C22. [consoleintr] implements the line editor, and echoes what it takes; when a line is
    committed, readers are woken. *)
Theorem consoleintr_refines c s :
  cons_ok (kn_cons s) → kn_panicked s = false → 0 ≤ c < 256 →
  ∃ s', consoleintr cur kaddr c s = Ok (tt, s') ∧ cons_ok (kn_cons s') ∧
    (committed (kn_cons s'), pending (kn_cons s')) = spec_key c (committed (kn_cons s), pending (kn_cons s)) ∧
    (c ≠ ctrl 80 → u_sent (kn_uart s') = u_sent (kn_uart s) ++ spec_echo c (committed (kn_cons s), pending (kn_cons s))) ∧
    (committed (kn_cons s') ≠ committed (kn_cons s) → cons_awake s').
Proof.
  intros Hk Hp Hc. pose proof Hk as [Hr Hnl]. unfold consoleintr, spec_key, spec_echo. set (k := kn_cons s) in *.
  destruct (Z.eqb_spec c (ctrl 80)) as [->|H80].
  { destruct (procdump_ok s Hp) as (u & R). exists (set_kn_uart u s). by split_and!. }
  destruct (Z.eqb_spec c (ctrl 85)) as [->|H85].
  { rewrite bind_gets. fold k. destruct (kill_line_ok (len_p k) s Hp Hk eq_refl) as (k' & u & R & Hk' & Ec & Ep & Hs).
    exists (set_cu k' u s). split_and!; try done; [cbn; by rewrite Ec, Ep | intros _; cbn; rewrite (se_sent _ _ _ Hs), length_pending; done]. }
  destruct ((c =? ctrl 72) || (c =? 127)) eqn:Hbs.
  { rewrite bind_gets. fold k. destruct (Z.eqb_spec (c_e k) (c_w k)) as [E|E]; cbn [negb].
    - apply pending_nil in E; [|done]. exists s. fold k. rewrite E, bool_decide_true, app_nil_r by done. by split_and!.
    - rewrite bind_upd_cons. fold k (rubout k). destruct (consputc_ok BACKSPACE (set_kn_cons (rubout k) s) Hp) as (u & R & Hs).
      destruct (rubout_ok k Hr E) as (Hr1 & Ec1 & Ep1). exists (set_cu (rubout k) u s). split_and!; try done.
      + split; [done|]. cbn. intros Hin. apply Hnl. rewrite Ep1. apply elem_of_app. by left.
      + cbn. rewrite Ec1, Ep1, length_app. cbn [length]. f_equal. rewrite Nat.add_1_r. cbn [pred]. by rewrite take_app_length.
      + intros _. cbn. rewrite (se_sent _ _ _ Hs). cbn. rewrite bool_decide_false; [done|]. rewrite Ep1. by destruct (pending (rubout k)). }
  rewrite bind_gets. fold k. rewrite (len_all k Hr). rewrite length_committed, length_pending.
  destruct (negb (c =? 0) && (Z.of_nat (len_c k + len_p k) <? INPUT_BUF_SIZE)) eqn:Hroom.
  2:{ exists s. fold k. rewrite app_nil_r. by split_and!. }
  apply andb_true_iff in Hroom as [Hc0 Hroom]. apply Z.ltb_lt in Hroom. cbv zeta.
  destruct (char_key_ok (if c =? 13 then nl else c) s Hk Hp ltac:(unfold nl; destruct (c =? 13); lia) Hroom) as (s' & R & Hk' & Es & Eu & Hw).
  exists s'. rewrite Es. by split_and!.
Qed.

(** ** Reading *)

(** What a read of [n] bytes delivers, what it leaves, and whether it still waits; [fresh]:
    nothing has been delivered yet. *)
Fixpoint spec_read (n : nat) (fresh : bool) (l : list Z) : list Z * list Z * bool :=
  match n, l with
  | O, _ => ([], l, false)
  | S _, [] => ([], [], true)
  | S n', c :: l' =>
      if c =? ctrl 68 then if fresh then ([], l', false) else ([], l, false)
      else if c =? nl then ([c], l', false)
      else let '(d, rest, more) := spec_read n' false l' in (c :: d, rest, more)
  end.
End console.

Section read.
  Context {K : KernelImage} {KOk : KernelImageOk K}.
  Context (cur : nat) (kaddr : slot → Z) (pt : Z) (T : gmap Z nat).

(** What a reader relies on: its page table, memory it can write, its life. *)
Record read_pre (dst : Z) (n : nat) (s : kernel) : Prop := {
  rp_pt : p_pagetable (kn_procs s cur) = pt;
  rp_env : benv kaddr pt T (kmemory s);
  rp_killed : p_killed (kn_procs s cur) = 0;
  rp_cons : cons_ok (kn_cons s);
  rp_range : 0 ≤ dst ∧ dst + Z.of_nat n < 2 ^ 64;
  rp_write i : (i < n)%nat → user_writable (kmemory s) pt (dst + Z.of_nat i) = true;
}.

(** The rest of the user's memory. *)
Definition elsewhere (a : Z) (n : nat) (m m' : memory) : Prop :=
  ∀ va, 0 ≤ va → va < a ∨ a + Z.of_nat n ≤ va → user_ld m' pt va = user_ld m pt va.

(** A step of the loop: the first committed byte goes to the reader. *)
Lemma deliver_ok dst n s :
  read_pre dst (S n) s → c_r (kn_cons s) ≠ c_w (kn_cons s) →
  let c := c_buf (kn_cons s) (c_r (kn_cons s) mod INPUT_BUF_SIZE) in
  let s1 := set_kn_cons (take_char (kn_cons s)) s in
  ∃ km, in_km (either_copyout pt true dst (kaddr SChar) 1) (set_km (mkKmem (st8 (kmemory s1) (kaddr SChar) c) (k_freelist (fs_km (kn_fs s1)))) s1) =
      Ok (0, set_km km s1) ∧ read_pre (dst + 1) n (set_km km s1) ∧ user_ld (k_mem km) pt dst = Some c ∧ elsewhere dst 1 (kmemory s) (k_mem km).
Proof.
  intros [Hp He Hki [Hk Hnl] Hr Hw] Hne c s1. destruct (take_char_ok _ Hk Hne) as (Hk1 & _ & Ep & _).
  destruct (store_local kaddr pt T dst c s1 He ltac:(lia) (co_byte _ Hk _)) as (r & km & R & He' & _ & Hld & Hwr & Hres).
  rewrite u64_small in R by lia. specialize (Hw 0%nat ltac:(lia)) as Hw0. rewrite Z.add_0_r in Hw0.
  destruct Hres as [(-> & _ & Hc)|[_ Hf]]; [|change (kmemory s1) with (kmemory s) in Hf; congruence]. exists km. split_and!; [exact R | | done |].
  - split; [done | done | done | split; [exact Hk1 | cbn; by rewrite Ep] | lia|]. intros i Hi. change (kmemory (set_km km s1)) with (k_mem km). rewrite Hwr.
    replace (dst + 1 + Z.of_nat i) with (dst + Z.of_nat (S i)) by lia. apply Hw. lia.
  - intros va Hva Hn. apply Hld; lia.
Qed.

(** C23. [consoleread], with [n] of the [target] bytes asked for still to come, delivers to the
    user what the specification says and takes it from the committed bytes; it sleeps
    exactly when it has to wait for more, and otherwise returns the number delivered. *)
Theorem consoleread_refines target n : ∀ fuel dst s, read_pre dst n s → Z.of_nat n ≤ target → (n < fuel)%nat →
  let '(d, rest, more) := spec_read n (Z.of_nat n =? target) (committed (kn_cons s)) in
  ∃ s', consoleread_loop cur kaddr fuel true target dst (Z.of_nat n) s =
      Ok (if more : bool then Blocked (dst + Z.of_nat (length d), Z.of_nat n - Z.of_nat (length d)) else Done (target - Z.of_nat n + Z.of_nat (length d)), s') ∧
    cons_ok (kn_cons s') ∧ committed (kn_cons s') = rest ∧ pending (kn_cons s') = pending (kn_cons s) ∧
    user_bytes pt (kmemory s') dst d ∧ elsewhere dst (length d) (kmemory s) (kmemory s') ∧
    (if more then p_state (kn_procs s' cur) = SLEEPING ∧ p_chan (kn_procs s' cur) = Some ChCons else kn_procs s' = kn_procs s).
Proof.
  induction n as [|n IH]; intros fuel dst s Hs Ht Hf; (destruct fuel as [|fuel]; [lia|]); cbn [spec_read consoleread_loop].
  { exists s. change (0 <? Z.of_nat 0) with false. cbn [length]. split_and!; try done; [by rewrite Z.add_0_r | apply Hs]. }
  destruct (Z.ltb_spec 0 (Z.of_nat (S n))); [|lia]. rewrite bind_gets. pose proof (rp_cons _ _ _ Hs) as [Hk Hnl]. set (k := kn_cons s) in *.
  destruct (Z.eqb_spec (c_r k) (c_w k)) as [E|E].
  { apply committed_nil in E; [|done]. rewrite E. unfold killed. rewrite bind_rd_proc, (rp_killed _ _ _ Hs). cbn [negb Z.eqb].
    eexists. split; [cbn [length]; rewrite Z.add_0_r, Z.sub_0_r; reflexivity|]. cbn. rewrite fn_lookup_insert. by split_and!. }
  destruct (take_char_ok k Hk E) as (Hk1 & Ec1 & Ep1 & Er1). set (c := c_buf k (c_r k mod INPUT_BUF_SIZE)) in *. rewrite Ec1.
  rewrite bind_upd_cons. fold k (take_char k). cbv zeta. destruct (Z.eqb_spec c (ctrl 68)) as [Ed|Ed].
  { destruct (Z.eqb_spec (Z.of_nat (S n)) target) as [Et|Et].
    - destruct (Z.ltb_spec (Z.of_nat (S n)) target); [lia|]. rewrite bind_ret. eexists. split; [cbn [length]; rewrite Z.add_0_r; reflexivity|].
      by split_and!.
    - destruct (Z.ltb_spec (Z.of_nat (S n)) target); [|lia]. rewrite bind_upd_cons. eexists. split; [cbn [length]; rewrite Z.add_0_r; reflexivity|].
      cbn [kn_cons set_kn_cons]. assert (Eback : set_c_r (u32 (c_r (take_char k) - 1)) (take_char k) = k) by (rewrite <- Er1; by destruct k).
      rewrite Eback. by split_and!. }
  rewrite bind_wr_mem, bind_rd_proc. destruct (deliver_ok dst n s Hs E) as (km & R & Hs1 & Hc & Hels). cbv zeta in R, Hs1. fold k c in R, Hs1, Hc.
  change (kn_procs (set_km _ (set_kn_cons (take_char k) s)) cur) with (kn_procs s cur). rewrite (rp_pt _ _ _ Hs), (bind_ok _ _ _ _ _ R).
  change (0 =? err) with false. cbv iota. set (s1 := set_km km (set_kn_cons (take_char k) s)) in *. destruct (Z.eqb_spec c nl) as [En|En].
  { exists s1. cbn [length]. split_and!; try done.
    - by replace (target - (Z.of_nat (S n) - 1)) with (target - Z.of_nat (S n) + Z.of_nat 1) by lia.
    - intros [|j] c'; [|done]. intros [= <-]. by rewrite Z.add_0_r. }
  rewrite u64_small by (pose proof (rp_range _ _ _ Hs); lia). replace (Z.of_nat (S n) - 1) with (Z.of_nat n) by lia.
  specialize (IH fuel (dst + 1) s1 Hs1 ltac:(lia) ltac:(lia)). change (kn_cons s1) with (take_char k) in IH.
  destruct (Z.eqb_spec (Z.of_nat n) target); [lia|].
  destruct (spec_read n false (committed (take_char k))) as [[d rest] more]. destruct IH as (s' & R' & Hk' & Ec' & Ep' & Hb' & He' & Hm').
  exists s'. rewrite R'. cbn [length]. split_and!; try done.
  - replace (dst + 1 + Z.of_nat (length d)) with (dst + Z.of_nat (S (length d))) by lia.
    replace (Z.of_nat n - Z.of_nat (length d)) with (Z.of_nat (S n) - Z.of_nat (S (length d))) by lia.
    by replace (target - Z.of_nat n + Z.of_nat (length d)) with (target - Z.of_nat (S n) + Z.of_nat (S (length d))) by lia.
  - intros [|j] c'; cbn [lookup list_lookup].
    + intros [= <-]. rewrite Z.add_0_r. rewrite He' by (pose proof (rp_range _ _ _ Hs); lia). exact Hc.
    + intros Hj. replace (dst + Z.of_nat (S j)) with (dst + 1 + Z.of_nat j) by lia. by apply Hb'.
  - intros va Hva Hn. rewrite He' by lia. apply Hels; lia.
Qed.
End read.

(** ** Examples *)

#[local] Existing Instance xv6_image.
#[local] Existing Instance xv6_image_ok.

(** "hi" and a newline have been typed. *)
Definition hi_cons : cons := mkCons (λ j, if j =? 126 then 104 else if j =? 127 then 105 else nl) (2 ^ 32 - 2) 1 1.
Definition hi_kernel : kernel :=
  set_kn_cons hi_cons (set_kn_procs (λ _, set_p_pagetable ex_root zero_proc)
    (set_kn_fs (mkFsys zero_ls (mkSuperblock 0 0 0 0 0 0 0 0) (λ _, zero_inode) ex_state) zero_kernel)).

Lemma hi_ok : cons_ok hi_cons.
Proof.
  split; [split|]; cbn [c_buf c_r c_w c_e hi_cons]; try lia; [|by vm_compute | by intros ?%elem_of_nil].
  intros j. unfold nl. destruct (j =? 126), (j =? 127); lia.
Qed.

Lemma consoleintr_refines_witness :
  ∃ s', consoleintr 0 (λ _, 0) 97 hi_kernel = Ok (tt, s') ∧ committed (kn_cons s') = [104; 105; nl] ∧ pending (kn_cons s') = [97] ∧ u_sent (kn_uart s') = [97].
Proof.
  destruct (consoleintr_refines 0 (λ _, 0) 97 hi_kernel hi_ok eq_refl ltac:(lia)) as (s' & R & _ & E & Eu & _). exists s'. split; [exact R|].
  injection E as E1 E2. split; [exact E1|]. split; [exact E2|]. apply Eu. discriminate.
Defined.

Lemma consoleread_refines_witness :
  ∃ s', consoleread_loop 0 (λ _, ex_buf) 11 true 10 0 10 hi_kernel = Ok (Done 3, s') ∧ user_bytes ex_root (kmemory s') 0 [104; 105; nl].
Proof.
  assert (Hpre : read_pre 0 (λ _, ex_buf) ex_root ex_T 0 10 hi_kernel).
  { split; [reflexivity | split; [apply ex_space | apply ex_kernel_byte; unfold PGSIZE; lia] | reflexivity | apply hi_ok | lia |].
    intros i Hi. unfold user_writable. change (kmemory hi_kernel) with ex_mem. rewrite ex_lookup by lia. rewrite decide_True by (unfold PGSIZE; lia).
    assert (0 + Z.of_nat i < MAXVA) as ->%Z.ltb_lt by (change MAXVA with (2 ^ 38); lia). reflexivity. }
  destruct (consoleread_refines 0 (λ _, ex_buf) ex_root ex_T 10 10 11 0 hi_kernel Hpre ltac:(lia) ltac:(lia)) as (s' & R & _ & _ & _ & Hb & _).
  exists s'. split; [exact R | exact Hb].
Defined.
