(* ===== verification/SchedFair.v ===== *)
(** * SchedFair: the scheduler is fair (src/kernel/proc.c)

    A pass of [scheduler()] over the process table runs every process that is runnable when
    the pass begins, once, and waits for an interrupt only when there was none. *)

From stdpp Require Import functions.
From S2P Require Import Prelude Mem Layout Kalloc Vm FsFormat Bio Log Fs Kern Sched Printf Console File Proc ProcTree ProcExample.

Local Open Scope Z_scope.

Section fair.
  Context (c : nat) (run : nat → XM unit).
  (** Until its turn comes, a process that can run stays so: a process in the kernel only
      makes others runnable. *)
  Context (run_keeps : ∀ p q s s', run p s = Ok (tt, s') → q ≠ p → p_state (kn_procs s q) = RUNNABLE → p_state (kn_procs s' q) = RUNNABLE).

(** Process [p] chosen on cpu [c], as [swtch] finds it. *)
Definition chosen (p : nat) (s : kernel) : kernel :=
  set_kn_cpus (<[c := Some p]> (kn_cpus s)) (set_kn_procs (<[p := set_p_state RUNNING (kn_procs s p)]> (kn_procs s)) s).
(** Back in the scheduler. *)
Definition returned (s : kernel) : kernel := set_kn_cpus (<[c := None]> (kn_cpus s)) s.

Lemma pass_runs k p found s :
  p_state (kn_procs s p) = RUNNABLE →
  scheduler_pass c run (S k) p found s = (run p;; modify returned;; scheduler_pass c run k (S p) true) (chosen p s).
Proof.
  intros E. cbn [scheduler_pass]. rewrite bind_rd_proc, bool_decide_true by done. rewrite bind_upd_proc, bind_modify. done.
Qed.
Lemma pass_skips k p found s :
  p_state (kn_procs s p) ≠ RUNNABLE → scheduler_pass c run (S k) p found s = scheduler_pass c run k (S p) found s.
Proof. intros E. cbn [scheduler_pass]. by rewrite bind_rd_proc, bool_decide_false. Qed.

(** A part of a pass that does not come to [q] leaves it runnable. *)
Lemma pass_keeps q k : ∀ p found s b s', (q < p ∨ p + k ≤ q)%nat → p_state (kn_procs s q) = RUNNABLE →
  scheduler_pass c run k p found s = Ok (b, s') → p_state (kn_procs s' q) = RUNNABLE.
Proof.
  induction k as [|k IH]; intros p found s b s' Hq Hr; [by intros [= _ <-]|].
  destruct (decide (p_state (kn_procs s p) = RUNNABLE)) as [E|E]; [|rewrite pass_skips by done; apply IH; [lia | done]].
  rewrite pass_runs by done. intros R. apply bind_ok_inv in R as ([] & s1 & R1 & R). rewrite bind_modify in R.
  eapply IH; [| |exact R]; [lia|]. cbn. eapply run_keeps; [exact R1 | lia|]. cbn. by rewrite fn_lookup_insert_ne by lia.
Qed.

(** A pass over [k] entries from [p] comes to [q] in between. *)
Lemma pass_split q k : ∀ p found s, (p ≤ q < p + k)%nat →
  scheduler_pass c run k p found s = (f ← scheduler_pass c run (q - p) p found; scheduler_pass c run (p + k - q) q f) s.
Proof.
  induction k as [|k IH]; intros p found s Hq; [lia|]. destruct (decide (p = q)) as [->|Hne].
  { rewrite Nat.sub_diag. cbn [scheduler_pass]. rewrite bind_ret. by replace (q + S k - q)%nat with (S k) by lia. }
  replace (q - p)%nat with (S (q - S p)) by lia. destruct (decide (p_state (kn_procs s p) = RUNNABLE)) as [E|E].
  - unfold mbind, M_bind. rewrite !pass_runs by done. unfold mbind, M_bind. destruct (run p (chosen p s)) as [[[] s1]| | |]; try done. cbn.
    rewrite IH by lia. replace (S p + k - q)%nat with (p + S k - q)%nat by lia. done.
  - unfold mbind, M_bind. rewrite !pass_skips, IH by (done || lia). unfold mbind, M_bind.
    replace (S p + k - q)%nat with (p + S k - q)%nat by lia. done.
Qed.

Lemma pass_found k : ∀ p s b s', scheduler_pass c run k p true s = Ok (b, s') → b = true.
Proof.
  induction k as [|k IH]; intros p s b s'; [by intros [= <- _]|].
  destruct (decide (p_state (kn_procs s p) = RUNNABLE)) as [E|E]; [|rewrite pass_skips by done; apply IH].
  rewrite pass_runs by done. intros R. apply bind_ok_inv in R as ([] & s1 & R1 & R). rewrite bind_modify in R. by eapply IH.
Qed.

End fair.

(** Every process is runnable, and goes to sleep. *)
Definition ready_kernel : kernel := set_kn_procs (λ _, set_p_state RUNNABLE zero_proc) zero_kernel.
Definition doze (p : nat) : XM unit := upd_proc p (set_p_state SLEEPING).

