(* ===== verification/Syscall.v ===== *)
(** * Syscall: arguments of system calls (src/kernel/syscall.c)

    The registers of the process are in its trap frame; strings and pointers are fetched
    through its page table. *)

From stdpp Require Import functions.
From S2P Require Import Prelude Mem Layout Kalloc Vm FsFormat Bio Log Fs Kern Sched Printf Console File Proc.
Import CString.

Local Open Scope Z_scope.

(** The length of a string that ends within the bound given to [strlen]. *)
Definition in_bounds {A} (o : option A) : XM A :=
  match o with Some a => mret a | None => out_of_fuel end.

Section args.
  Context `{KernelImage} (cur : nat) (kaddr : slot → Z).

(** [fetchaddr(addr, &x)], with [x] at [dst]. *)
Definition fetchaddr (addr dst : Z) : XM Z :=
  x ← rd_proc cur id;
  if (p_sz x <=? addr) || (p_sz x <? u64 (addr + 8)) then mret err
  else
    r ← in_km (copyin (p_pagetable x) dst addr 8);
    mret (if negb (r =? 0) then err else 0).

Definition fetchstr (addr buf max : Z) : XM Z :=
  pt ← rd_proc cur p_pagetable;
  r ← in_km (copyinstr pt buf addr max);
  if r <? 0 then mret err else n ← rd_mem (λ m, strlen (Z.to_nat max) m buf); in_bounds n.

Definition argraw (n : Z) : XM Z :=
  if (0 <=? n) && (n <=? 5) then rd_tf cur (TF_a0 + 8 * n) else panic "argraw".

Definition argint (n : Z) : XM Z := v ← argraw n; mret (i32 v).
Definition argaddr (n : Z) : XM Z := argraw n.
Definition argstr (n buf max : Z) : XM Z := addr ← argaddr n; fetchstr addr buf max.

End args.
