(* ===== verification/Exec.v ===== *)
(** * Exec: replacing a process's program (src/kernel/exec.c, src/kernel/elf.h) *)

From stdpp Require Import functions.
From S2P Require Import Prelude Mem Layout Kalloc Vm FsFormat Bio Log Fs Kern Sched Printf Console File Proc Syscall.
Import CString.

Local Open Scope Z_scope.

(** ** ELF headers *)

Definition ELF_MAGIC : Z := 0x464C457F.
Definition ELFHDR_SIZE : Z := 64.
Definition PROGHDR_SIZE : Z := 56.
Definition ELF_PROG_LOAD : Z := 1.

(** [struct elfhdr], the fields [exec] looks at. *)
Record elfhdr := mkElfhdr { e_magic : Z; e_entry : Z; e_phoff : Z; e_phnum : Z }.
Definition get_elfhdr (m : memory) (a : Z) : elfhdr :=
  mkElfhdr (ld32 m a) (ld64 m (a + 24)) (ld64 m (a + 32)) (ld16 m (a + 56)).

(** [struct proghdr] *)
Record proghdr := mkProghdr {
  ph_type : Z; ph_flags : Z; ph_off : Z; ph_vaddr : Z; ph_paddr : Z; ph_filesz : Z; ph_memsz : Z; ph_align : Z }.
Definition get_proghdr (m : memory) (a : Z) : proghdr :=
  mkProghdr (ld32 m a) (ld32 m (a + 4)) (ld64 m (a + 8)) (ld64 m (a + 16)) (ld64 m (a + 24)) (ld64 m (a + 32))
    (ld64 m (a + 40)) (ld64 m (a + 48)).

Definition flags2perm (flags : Z) : Z :=
  let perm := if negb (Z.land flags 0x1 =? 0) then PTE_X else 0 in
  if negb (Z.land flags 0x2 =? 0) then Z.lor perm PTE_W else perm.

Section exec.
  Context `{KernelImage} (cur : nat) (kaddr : slot → Z).

Definition readi_x (ip : nat) (dst off n : Z) : XM Z :=
  with_proc cur (λ me pt _, readi me pt kaddr ip false dst off n).

(** [for(i = 0; i < sz; i += PGSIZE)] *)
Fixpoint loadseg_loop (fuel : nat) (pagetable va : Z) (ip : nat) (offset sz i : Z) : XM Z :=
  match fuel with
  | O => out_of_fuel
  | S f =>
      if i <? sz then
        pa ← in_km (walkaddr pagetable (u64 (va + i)));
        if pa =? 0 then panic "loadseg: address should exist"
        else
          let n := if sz - i <? PGSIZE then sz - i else PGSIZE in
          r ← readi_x ip pa (u32 (offset + i)) n;
          if negb (r =? n) then mret err
          else loadseg_loop f pagetable va ip offset sz (u32 (i + PGSIZE))
      else mret 0
  end.
Definition loadseg (pagetable va : Z) (ip : nat) (offset sz : Z) : XM Z :=
  loadseg_loop (S (S (Z.to_nat (sz / PGSIZE)))) pagetable va ip offset sz 0.

(** The loop over the program headers, [k] of them from file offset [off]: whether all
    went well, and the size of the image so far. *)
Fixpoint load_program (k : nat) (pagetable : Z) (ip : nat) (off sz : Z) : XM (bool * Z) :=
  match k with
  | O => mret (true, sz)
  | S k' =>
      r ← readi_x ip (kaddr SPh) (u32 off) PROGHDR_SIZE;
      if negb (r =? PROGHDR_SIZE) then mret (false, sz)
      else
        ph ← rd_mem (λ m, get_proghdr m (kaddr SPh));
        let off' := i32 (off + PROGHDR_SIZE) in
        if negb (ph_type ph =? ELF_PROG_LOAD) then load_program k' pagetable ip off' sz
        else if ph_memsz ph <? ph_filesz ph then mret (false, sz)
        else if u64 (ph_vaddr ph + ph_memsz ph) <? ph_vaddr ph then mret (false, sz)
        else if negb (ph_vaddr ph mod PGSIZE =? 0) then mret (false, sz)
        else
          sz1 ← in_km (uvmalloc pagetable sz (u64 (ph_vaddr ph + ph_memsz ph)) (flags2perm (ph_flags ph)));
          if sz1 =? 0 then mret (false, sz)
          else
            r ← loadseg pagetable (ph_vaddr ph) ip (u32 (ph_off ph)) (u32 (ph_filesz ph));
            if r <? 0 then mret (false, sz1)
            else load_program k' pagetable ip off' sz1
  end.

(** The label [bad]. *)
Definition exec_bad (pagetable sz : Z) (ip : option nat) : XM Z :=
  (if negb (pagetable =? 0) then in_km (proc_freepagetable pagetable sz) else mret tt);;
  (match ip with
   | Some ip => with_proc cur (λ me _ _, iunlockput me ip);; end_op_x cur
   | None => mret tt
   end);;
  mret err.

(** Where the next string of length [len] goes. *)
Definition push_sp (sp len : Z) : Z :=
  let sp := u64 (sp - (len + 1)) in u64 (sp - sp mod 16).

(** [for(argc = 0; argv[argc]; argc++)]: the strings pushed, the stack pointer and
    [ustack], or [None] for [goto bad]. *)
Fixpoint push_args (fuel : nat) (pagetable stackbase : Z) (argv : list Z) (argc sp : Z) (ustack : list Z) :
    XM (option (Z * Z * list Z)) :=
  match fuel with
  | O => undefined
  | S f =>
      a ← opt_get (argv !! Z.to_nat argc);
      if a =? 0 then mret (Some (argc, sp, ustack))
      else if MAXARG <=? argc then mret None
      else
        len ← rd_mem (λ m, strlen (Z.to_nat PGSIZE) m a);
        len ← in_bounds len;
        let sp := push_sp sp len in
        if sp <? stackbase then mret None
        else
          r ← in_km (copyout pagetable sp a (len + 1));
          if r <? 0 then mret None
          else push_args f pagetable stackbase argv (argc + 1) sp (ustack ++ [sp])
  end.

(** [ustack] in memory. *)
Fixpoint put_words (m : memory) (a : Z) (l : list Z) : memory :=
  match l with
  | [] => m
  | w :: l' => put_words (st64 m a w) (a + 8) l'
  end.

(** [for(last=s=path; *s; s++) if( *s == '/') last = s+1;] *)
Fixpoint last_elem (fuel : nat) (m : memory) (s last : Z) : option Z :=
  match fuel with
  | O => None
  | S f =>
      if ld8 m s =? 0 then Some last
      else last_elem f m (s + 1) (if ld8 m s =? slash then s + 1 else last)
  end.

(** [exec] from the user stack on: [pagetable] holds the program, of [sz] bytes. *)
Definition exec_stack (path : Z) (argv : list Z) (pagetable sz entry : Z) : XM Z :=
  x ← rd_proc cur id;
  let oldsz := p_sz x in
  let sz := PGROUNDUP sz in
  sz1 ← in_km (uvmalloc pagetable sz (u64 (sz + (USERSTACK + 1) * PGSIZE)) PTE_W);
  if sz1 =? 0 then exec_bad pagetable sz None
  else
    in_km (uvmclear pagetable (u64 (sz1 - (USERSTACK + 1) * PGSIZE)));;
    let stackbase := u64 (sz1 - USERSTACK * PGSIZE) in
    o ← push_args (S (S (Z.to_nat MAXARG))) pagetable stackbase argv 0 sz1 [];
    match o with
    | None => exec_bad pagetable sz1 None
    | Some (argc, sp, ustack) =>
        wr_mem (λ m, put_words m (kaddr SArgs) (ustack ++ [0]));;
        let sp := u64 (sp - (argc + 1) * 8) in
        let sp := u64 (sp - sp mod 16) in
        if sp <? stackbase then exec_bad pagetable sz1 None
        else
          r ← in_km (copyout pagetable sp (kaddr SArgs) ((argc + 1) * 8));
          if r <? 0 then exec_bad pagetable sz1 None
          else
            wr_tf cur TF_a1 sp;;
            last ← rd_mem (λ m, last_elem path_fuel m path path);
            last ← in_bounds last;
            wr_mem (λ m, safestrcpy m (kaddr (SProcName cur)) last NAME_SIZE);;
            upd_proc cur (λ y, set_p_sz sz1 (set_p_pagetable pagetable y));;
            wr_tf cur TF_epc entry;;
            wr_tf cur TF_sp sp;;
            in_km (proc_freepagetable (p_pagetable x) oldsz);;
            mret argc
    end.

Definition exec (path : Z) (argv : list Z) : XM Z :=
  begin_op_x;;
  o ← with_proc cur (λ me pt cwd, namei me pt cwd kaddr path);
  match o with
  | None => end_op_x cur;; mret err
  | Some ip =>
      with_proc cur (λ me _ _, ilock me ip);;
      r ← readi_x ip (kaddr SElf) 0 ELFHDR_SIZE;
      if negb (r =? ELFHDR_SIZE) then exec_bad 0 0 (Some ip)
      else
        elf ← rd_mem (λ m, get_elfhdr m (kaddr SElf));
        if negb (e_magic elf =? ELF_MAGIC) then exec_bad 0 0 (Some ip)
        else
          tf ← rd_proc cur p_trapframe;
          pagetable ← in_km (proc_pagetable tf);
          if pagetable =? 0 then exec_bad 0 0 (Some ip)
          else
            '(ok, sz) ← load_program (Z.to_nat (e_phnum elf)) pagetable ip (i32 (e_phoff elf)) 0;
            if negb ok then exec_bad pagetable sz (Some ip)
            else
              with_proc cur (λ me _ _, iunlockput me ip);;
              end_op_x cur;;
              exec_stack path argv pagetable sz (e_entry elf)
  end.

End exec.
