(* ===== verification/ExecSpec.v ===== *)
(** * ExecSpec: exec replaces the image of a process or leaves it alone (src/kernel/exec.c) *)

From stdpp Require Import functions.
From S2P Require Import Prelude Mem Layout Kalloc Vm FsFormat Bio Log Fs Kern Pres Sched Printf Console File Proc Syscall Exec ProcTree ProcExample.

Local Open Scope Z_scope.

(** Only memory and the file system change. *)
Definition only_fs (s s' : kernel) : Prop := ∃ f, s' = set_kn_fs f s.

#[export] Instance only_fs_preorder : PreOrder only_fs.
Proof.
  split; [intros s; exists (kn_fs s); by destruct s|]. intros s1 s2 s3 [f ->] [g ->]. by exists g.
Qed.

Lemma only_in_fs {A} (m : FM A) : pres only_fs (in_fs m).
Proof. intros s a s'. unfold in_fs, zoom. destruct (m (kn_fs s)) as [[]| | |]; try done. intros [= -> <-]. by eexists. Qed.
Lemma only_gets {A} (g : kernel → A) : pres only_fs (gets g).
Proof. apply pres_gets; exact _. Qed.
#[local] Hint Resolve @only_in_fs @only_gets : pres.

Section exec.
  Context `{KernelImage} (cur : nat) (kaddr : slot → Z).

Lemma only_wr_tf r v : pres only_fs (wr_tf cur r v).
Proof. unfold wr_tf, rd_proc, wr_mem, in_km. pres. Qed.
Lemma only_readi_x ip dst off n : pres only_fs (readi_x cur kaddr ip dst off n).
Proof. unfold readi_x, with_proc, rd_proc. pres. Qed.
#[local] Hint Resolve only_wr_tf only_readi_x : pres.
Lemma only_loadseg pt va ip off sz : pres only_fs (loadseg cur kaddr pt va ip off sz).
Proof.
  unfold loadseg. generalize (S (S (Z.to_nat (sz / PGSIZE)))) as k, 0 as i.
  induction k as [|k IH]; intros i; cbn [loadseg_loop]; unfold in_km; pres.
Qed.
#[local] Hint Resolve only_loadseg : pres.
Lemma only_load_program k : ∀ pt ip off sz, pres only_fs (load_program cur kaddr k pt ip off sz).
Proof. induction k as [|k IH]; intros pt ip off sz; cbn [load_program]; unfold in_km, rd_mem; pres. Qed.
Lemma only_exec_bad pt sz ip : pres only_fs (exec_bad cur pt sz ip).
Proof. unfold exec_bad, in_km, with_proc, end_op_x, in_log, rd_proc. pres. Qed.
Lemma only_push_args k : ∀ pt sb argv argc sp us, pres only_fs (push_args k pt sb argv argc sp us).
Proof.
  induction k as [|k IH]; intros pt sb argv argc sp us; cbn [push_args]; unfold undefined, opt_get, in_bounds, rd_mem, in_km; pres.
Qed.
#[local] Hint Resolve only_load_program only_exec_bad only_push_args : pres.

(** [argc] counts up from where it is, to [MAXARG] at most. *)
Lemma push_args_count k : ∀ pt sb argv argc sp us s argc' sp' us' s',
  push_args k pt sb argv argc sp us s = Ok (Some (argc', sp', us'), s') → 0 ≤ argc ≤ MAXARG → 0 ≤ argc' ≤ MAXARG.
Proof.
  induction k as [|k IH]; intros pt sb argv argc sp us s argc' sp' us' s'; cbn [push_args]; [done|].
  intros R Ha. apply bind_ok_inv in R as (a & s1 & _ & R). destruct (a =? 0); [injection R as <- _ _ _; lia|].
  destruct (Z.leb_spec MAXARG argc); [done|]. apply bind_ok_inv in R as (len & s2 & _ & R). apply bind_ok_inv in R as (len' & s3 & _ & R).
  cbv zeta in R. destruct (_ <? sb); [done|]. apply bind_ok_inv in R as (r & s4 & _ & R). destruct (r <? 0); [done|].
  eapply IH; [exact R | lia].
Qed.

Lemma exec_bad_err pt sz ip s r s' : exec_bad cur pt sz ip s = Ok (r, s') → r = err.
Proof. unfold exec_bad. intros (u1 & s1 & _ & R)%bind_ok_inv. by apply bind_ok_inv in R as (u2 & s2 & _ & [= <- _]). Qed.

(** What becomes of the kernel, [p_pagetable] and [p_sz] apart: nothing. *)
Definition replaced (pagetable sz : Z) (s s' : kernel) : Prop :=
  ∃ f, s' = set_kn_fs f (set_kn_procs (<[cur := set_p_sz sz (set_p_pagetable pagetable (kn_procs s cur))]> (kn_procs s)) s).

Lemma only_replaced pt sz s s1 s' : only_fs s s1 → replaced pt sz s1 s' → replaced pt sz s s'.
Proof. intros [f ->] [g ->]. by exists g. Qed.
Lemma only_with_proc {A} (f : Z → Z → nat → FM A) : pres only_fs (with_proc cur f).
Proof. unfold with_proc, rd_proc. pres. Qed.
Lemma only_end_op : pres only_fs (end_op_x cur).
Proof. unfold end_op_x, in_log, rd_proc. pres. Qed.

Lemma exec_stack_all path argv pt sz entry s r s' :
  exec_stack cur kaddr path argv pt sz entry s = Ok (r, s') →
  (r = err ∧ only_fs s s') ∨ (0 ≤ r ≤ MAXARG ∧ ∃ sz', replaced pt sz' s s').
Proof.
  unfold exec_stack. intros R. apply bind_ok_inv in R as (x & s1 & [= <- <-] & R). cbv zeta in R. apply bind_ok_inv in R as (sz1 & s2 & R2 & R).
  assert (H2 : only_fs s s2) by (by eapply only_in_fs).
  assert (Hbad : ∀ pt sz s3, only_fs s s3 → exec_bad cur pt sz None s3 = Ok (r, s') → r = err ∧ only_fs s s').
  { intros pt' sz' s3 H3 R3. split; [by eapply exec_bad_err|]. etransitivity; [exact H3 | by eapply only_exec_bad]. }
  destruct (sz1 =? 0); [left; by eapply Hbad|]. apply bind_ok_inv in R as ([] & s3 & R3 & R). assert (H3 : only_fs s2 s3) by (by eapply only_in_fs).
  apply bind_ok_inv in R as (o & s4 & R4 & R). pose proof (only_push_args _ _ _ _ _ _ _ _ _ _ R4) as H4.
  pose proof (transitivity H2 (transitivity H3 H4)) as H24. destruct o as [[[argc sp] us]|]; [|left; by eapply Hbad].
  apply push_args_count in R4; [|unfold MAXARG; lia]. apply bind_ok_inv in R as ([] & s5 & R5 & R).
  assert (H5 : only_fs s s5) by (etransitivity; [exact H24 | by eapply only_in_fs]).
  destruct (_ <? _); [left; by eapply Hbad|]. apply bind_ok_inv in R as (r1 & s6 & R6 & R).
  assert (H6 : only_fs s s6) by (etransitivity; [exact H5 | by eapply only_in_fs]). destruct (r1 <? 0); [left; by eapply Hbad|]. right.
  apply bind_ok_inv in R as ([] & s7 & R7 & R). apply bind_ok_inv in R as (l & s8 & R8 & R). apply bind_ok_inv in R as (l' & s9 & R9 & R).
  apply bind_ok_inv in R as ([] & s10 & R10 & R). rewrite bind_upd_proc in R.
  assert (H10 : only_fs s s10).
  { etransitivity; [exact H6|]. etransitivity; [by eapply only_wr_tf|]. etransitivity; [by eapply only_gets|].
    etransitivity; [|by eapply only_in_fs]. unfold in_bounds in R9. destruct l; [by injection R9 as _ <- | done]. }
  destruct H10 as [f10 ->]. apply bind_ok_inv in R as ([] & s11 & [f11 ->]%only_wr_tf & R). apply bind_ok_inv in R as ([] & s12 & [f12 ->]%only_wr_tf & R).
  apply bind_ok_inv in R as ([] & s13 & [f13 ->]%only_in_fs & [= <- <-]). split; [lia|]. exists sz1, f13. done.
Qed.

End exec.

(** The path is empty, so that [namei] gives the current directory, which is no program. *)
Definition exec_kernel : kernel :=
  set_kn_procs (λ _, set_p_cwd (Some 0%nat) (set_p_state RUNNING zero_proc))
    (set_kn_fs (mkFsys zero_ls (mkSuperblock 0 0 0 0 0 0 0 0) (λ _, mkInode ROOTDEV 1 2 None true (mkDinode T_DIR 0 0 1 0 (replicate 13 0)))
      (mkKmem ∅ 0)) zero_kernel).

