(* ===== verification/Sysfile.v ===== *)
(** * Sysfile: system calls on files (src/kernel/sysfile.c, src/kernel/fcntl.h)

    Each [sys_..] takes its arguments from the trap frame and returns what the process
    finds in [a0]. *)

From stdpp Require Import functions.
From S2P Require Import Prelude Mem Layout Kalloc Vm FsFormat Bio Log Fs Kern Sched Printf Console File Proc Syscall Exec.
Import CString.

Local Open Scope Z_scope.

Definition O_RDONLY : Z := 0x000.
Definition O_WRONLY : Z := 0x001.
Definition O_RDWR : Z := 0x002.
Definition O_CREATE : Z := 0x200.
Definition O_TRUNC : Z := 0x400.

Section sysfile.
  Context `{KernelImage} (cur : nat) (kaddr : slot → Z).

(** The file-system operations as this process runs them. *)
Abbreviation namei_x path := (with_proc cur (λ me pt cwd, namei me pt cwd kaddr path)).
Abbreviation nameiparent_x path name := (with_proc cur (λ me pt cwd, nameiparent me pt cwd kaddr path name)).
Abbreviation ilock_x ip := (with_proc cur (λ me _ _, ilock me ip)).
Abbreviation iunlock_x ip := (with_proc cur (λ me _ _, iunlock me ip)).
Abbreviation iput_x ip := (with_proc cur (λ me _ _, iput me ip)).
Abbreviation iunlockput_x ip := (with_proc cur (λ me _ _, iunlockput me ip)).
Abbreviation iupdate_x ip := (with_proc cur (λ me _ _, iupdate me ip)).
Abbreviation dirlookup_x dp name := (with_proc cur (λ me pt _, dirlookup me pt kaddr dp name)).
Abbreviation dirlink_x dp name inum := (with_proc cur (λ me pt _, dirlink me pt kaddr dp name inum)).
Abbreviation end_op := (end_op_x cur).
Definition rd_ino {A} (ip : nat) (f : inode → A) : XM A := in_fs (iget_f ip f).
Definition upd_ino (ip : nat) (f : inode → inode) : XM unit := in_fs (iupd ip f).
Definition i_type (x : inode) : Z := di_type (i_d x).
Definition add_nlink (d : Z) (x : inode) : inode := set_i_nlink (i16 (di_nlink (i_d x) + d)) x.

(** ** Descriptors *)

(** [argfd(n, &fd, &f)]; [None] is -1. *)
Definition argfd (n : Z) : XM (option (Z * nat)) :=
  fd ← argint cur n;
  if (fd <? 0) || (NOFILE <=? fd) then mret None
  else
    o ← rd_proc cur (λ x, p_ofile x !! Z.to_nat fd ≫= id);
    mret (match o with Some f => Some (fd, f) | None => None end).

Fixpoint fdalloc_loop (k fd f : nat) : XM Z :=
  match k with
  | O => mret err
  | S k' =>
      o ← rd_proc cur (λ x, p_ofile x !! fd ≫= id);
      match o with
      | None => upd_proc cur (λ x, set_p_ofile (<[fd := Some f]> (p_ofile x)) x);; mret (Z.of_nat fd)
      | Some _ => fdalloc_loop k' (S fd) f
      end
  end.
Definition fdalloc (f : nat) : XM Z := fdalloc_loop (Z.to_nat NOFILE) 0 f.

(** [p->ofile[fd] = 0] *)
Definition fdclear (fd : Z) : XM unit :=
  upd_proc cur (λ x, set_p_ofile (<[Z.to_nat fd := None]> (p_ofile x)) x).

Definition sys_dup : XM Z :=
  o ← argfd 0;
  match o with
  | None => mret err
  | Some (_, f) =>
      fd ← fdalloc f;
      if fd <? 0 then mret err else filedup f;; mret fd
  end.

Definition sys_read : XM Z :=
  p ← argaddr cur 1;
  n ← argint cur 2;
  o ← argfd 0;
  match o with None => mret err | Some (_, f) => fileread cur kaddr f p n end.

Definition sys_write : XM Z :=
  p ← argaddr cur 1;
  n ← argint cur 2;
  o ← argfd 0;
  match o with None => mret err | Some (_, f) => filewrite cur kaddr f p n end.

Definition sys_close : XM Z :=
  o ← argfd 0;
  match o with
  | None => mret err
  | Some (fd, f) => fdclear fd;; fileclose cur f;; mret 0
  end.

Definition sys_fstat : XM Z :=
  st ← argaddr cur 1;
  o ← argfd 0;
  match o with None => mret err | Some (_, f) => filestat cur kaddr f st end.

(** ** Links *)

(** The label [bad] of [sys_link]. *)
Definition link_bad (ip : nat) : XM Z :=
  ilock_x ip;;
  upd_ino ip (add_nlink (-1));;
  iupdate_x ip;;
  iunlockput_x ip;;
  end_op;;
  mret err.

Definition sys_link : XM Z :=
  r ← argstr cur 0 (kaddr SPath) MAXPATH;
  if r <? 0 then mret err
  else
    r ← argstr cur 1 (kaddr SPath2) MAXPATH;
    if r <? 0 then mret err
    else
      begin_op_x;;
      o ← namei_x (kaddr SPath);
      match o with
      | None => end_op;; mret err
      | Some ip =>
          ilock_x ip;;
          t ← rd_ino ip i_type;
          if t =? T_DIR then iunlockput_x ip;; end_op;; mret err
          else
            upd_ino ip (add_nlink 1);;
            iupdate_x ip;;
            iunlock_x ip;;
            o ← nameiparent_x (kaddr SPath2) (kaddr SName);
            match o with
            | None => link_bad ip
            | Some dp =>
                ilock_x dp;;
                ddev ← rd_ino dp i_dev;
                x ← rd_ino ip id;
                bad ← (if negb (ddev =? i_dev x) then mret true
                       else r ← dirlink_x dp (kaddr SName) (i_inum x); mret (r <? 0));
                if bad : bool then iunlockput_x dp;; link_bad ip
                else
                  iunlockput_x dp;;
                  iput_x ip;;
                  end_op;;
                  mret 0
            end
      end.

(** [for(off=2*sizeof(de); off<dp->size; off+=sizeof(de))] *)
Fixpoint isdirempty_loop (fuel dp : nat) (off : Z) : XM bool :=
  match fuel with
  | O => out_of_fuel
  | S f =>
      size ← rd_ino dp (λ x, di_size (i_d x));
      if u32 off <? size then
        r ← readi_x cur kaddr dp (kaddr SDe) (u32 off) DIRENT_SIZE;
        if negb (r =? DIRENT_SIZE) then panic "isdirempty: readi"
        else
          inum ← rd_mem (λ m, de_inum m (kaddr SDe));
          if negb (inum =? 0) then mret false
          else isdirempty_loop f dp (i32 (off + DIRENT_SIZE))
      else mret true
  end.
Definition isdirempty (dp : nat) : XM bool :=
  size ← rd_ino dp (λ x, di_size (i_d x));
  isdirempty_loop (dir_fuel size) dp (2 * DIRENT_SIZE).

Definition sys_unlink : XM Z :=
  let bad dp : XM Z := iunlockput_x dp;; end_op;; mret err in
  r ← argstr cur 0 (kaddr SPath) MAXPATH;
  if r <? 0 then mret err
  else
    begin_op_x;;
    o ← nameiparent_x (kaddr SPath) (kaddr SName);
    match o with
    | None => end_op;; mret err
    | Some dp =>
        ilock_x dp;;
        c1 ← rd_mem (λ m, namecmp m (kaddr SName) (kaddr (SStr ".")));
        c2 ← rd_mem (λ m, namecmp m (kaddr SName) (kaddr (SStr "..")));
        if (c1 =? 0) || (c2 =? 0) then bad dp
        else
          o ← dirlookup_x dp (kaddr SName);
          match o with
          | None => bad dp
          | Some (ip, off) =>
              ilock_x ip;;
              x ← rd_ino ip id;
              if di_nlink (i_d x) <? 1 then panic "unlink: nlink < 1"
              else
                full ← (if i_type x =? T_DIR then e ← isdirempty ip; mret (negb e) else mret false);
                if full : bool then iunlockput_x ip;; bad dp
                else
                  wr_mem (λ m, memset m (kaddr SDe) 0 DIRENT_SIZE);;
                  r ← with_proc cur (λ me pt _, writei me pt kaddr dp false (kaddr SDe) off DIRENT_SIZE);
                  if negb (r =? DIRENT_SIZE) then panic "unlink: writei"
                  else
                    (if i_type x =? T_DIR then upd_ino dp (add_nlink (-1));; iupdate_x dp else mret tt);;
                    iunlockput_x dp;;
                    upd_ino ip (add_nlink (-1));;
                    iupdate_x ip;;
                    iunlockput_x ip;;
                    end_op;;
                    mret 0
          end
    end.

(** ** Creating and opening *)

(** The label [fail] of [create]. *)
Definition create_fail (ip dp : nat) : XM (option nat) :=
  upd_ino ip (set_i_nlink 0);;
  iupdate_x ip;;
  iunlockput_x ip;;
  iunlockput_x dp;;
  mret None.

Definition create (path type major minor : Z) : XM (option nat) :=
  o ← nameiparent_x path (kaddr SName);
  match o with
  | None => mret None
  | Some dp =>
      ilock_x dp;;
      o ← dirlookup_x dp (kaddr SName);
      match o with
      | Some (ip, _) =>
          iunlockput_x dp;;
          ilock_x ip;;
          t ← rd_ino ip i_type;
          if (type =? T_FILE) && ((t =? T_FILE) || (t =? T_DEVICE)) then mret (Some ip)
          else iunlockput_x ip;; mret None
      | None =>
          dev ← rd_ino dp i_dev;
          o ← with_proc cur (λ me _ _, ialloc me dev type);
          match o with
          | None => iunlockput_x dp;; mret None
          | Some ip =>
              ilock_x ip;;
              upd_ino ip (λ x, set_i_nlink 1 (set_i_majmin major minor x));;
              iupdate_x ip;;
              inum ← rd_ino ip i_inum;
              dinum ← rd_ino dp i_inum;
              ok ← (if type =? T_DIR then
                      r ← dirlink_x ip (kaddr (SStr ".")) inum;
                      if r <? 0 then mret false
                      else r ← dirlink_x ip (kaddr (SStr "..")) dinum; mret (negb (r <? 0))
                    else mret true);
              if negb ok then create_fail ip dp
              else
                r ← dirlink_x dp (kaddr SName) inum;
                if r <? 0 then create_fail ip dp
                else
                  (if type =? T_DIR then upd_ino dp (add_nlink 1);; iupdate_x dp else mret tt);;
                  iunlockput_x dp;;
                  mret (Some ip)
          end
      end
  end.

Definition sys_open : XM Z :=
  omode ← argint cur 1;
  n ← argstr cur 0 (kaddr SPath) MAXPATH;
  if n <? 0 then mret err
  else
    begin_op_x;;
    o ← (if negb (Z.land omode O_CREATE =? 0) then create (kaddr SPath) T_FILE 0 0
         else
           o ← namei_x (kaddr SPath);
           match o with
           | None => mret None
           | Some ip =>
               ilock_x ip;;
               t ← rd_ino ip i_type;
               if (t =? T_DIR) && negb (omode =? O_RDONLY) then iunlockput_x ip;; mret None
               else mret (Some ip)
           end);
    match o with
    | None => end_op;; mret err
    | Some ip =>
        x ← rd_ino ip id;
        if (i_type x =? T_DEVICE) && ((di_major (i_d x) <? 0) || (NDEV <=? di_major (i_d x))) then
          iunlockput_x ip;; end_op;; mret err
        else
          ofile ← filealloc;
          match ofile with
          | None => iunlockput_x ip;; end_op;; mret err
          | Some f =>
              fd ← fdalloc f;
              if fd <? 0 then fileclose cur f;; iunlockput_x ip;; end_op;; mret err
              else
                (if i_type x =? T_DEVICE
                 then upd_file f (λ y, set_f_major (di_major (i_d x)) (set_f_type FD_DEVICE y))
                 else upd_file f (λ y, set_f_off 0 (set_f_type FD_INODE y)));;
                upd_file f (λ y, set_f_writable (negb (Z.land omode O_WRONLY =? 0) || negb (Z.land omode O_RDWR =? 0))
                  (set_f_readable (Z.land omode O_WRONLY =? 0) (set_f_ip ip y)));;
                (if negb (Z.land omode O_TRUNC =? 0) && (i_type x =? T_FILE)
                 then with_proc cur (λ me _ _, itrunc me ip) else mret tt);;
                iunlock_x ip;;
                end_op;;
                mret fd
          end
    end.

Definition sys_mkdir : XM Z :=
  begin_op_x;;
  r ← argstr cur 0 (kaddr SPath) MAXPATH;
  o ← (if r <? 0 then mret None else create (kaddr SPath) T_DIR 0 0);
  match o with
  | None => end_op;; mret err
  | Some ip => iunlockput_x ip;; end_op;; mret 0
  end.

Definition sys_mknod : XM Z :=
  begin_op_x;;
  major ← argint cur 1;
  minor ← argint cur 2;
  r ← argstr cur 0 (kaddr SPath) MAXPATH;
  o ← (if r <? 0 then mret None else create (kaddr SPath) T_DEVICE (i16 major) (i16 minor));
  match o with
  | None => end_op;; mret err
  | Some ip => iunlockput_x ip;; end_op;; mret 0
  end.

Definition sys_chdir : XM Z :=
  begin_op_x;;
  r ← argstr cur 0 (kaddr SPath) MAXPATH;
  o ← (if r <? 0 then mret None else namei_x (kaddr SPath));
  match o with
  | None => end_op;; mret err
  | Some ip =>
      ilock_x ip;;
      t ← rd_ino ip i_type;
      if negb (t =? T_DIR) then iunlockput_x ip;; end_op;; mret err
      else
        iunlock_x ip;;
        cwd ← rd_proc cur p_cwd;
        cwd ← opt_get cwd;
        iput_x cwd;;
        end_op;;
        upd_proc cur (set_p_cwd (Some ip));;
        mret 0
  end.

(** ** exec and pipe *)

(** [for(i = 0; i < NELEM(argv) && argv[i] != 0; i++) kfree(argv[i]);] *)
Fixpoint free_args (argv : list Z) : XM unit :=
  match argv with
  | [] => mret tt
  | a :: l => if a =? 0 then mret tt else in_km (kfree a);; free_args l
  end.

(** The loop that fetches [argv]: all went well, and the array so far. *)
Fixpoint fetch_args (k : nat) (uargv i : Z) (argv : list Z) : XM (bool * list Z) :=
  match k with
  | O => mret (false, argv)
  | S k' =>
      r ← fetchaddr cur (u64 (uargv + 8 * i)) (kaddr SUarg);
      if r <? 0 then mret (false, argv)
      else
        uarg ← rd_mem (λ m, ld64 m (kaddr SUarg));
        if uarg =? 0 then mret (true, argv)
        else
          a ← in_km kalloc;
          let argv := <[Z.to_nat i := a]> argv in
          if a =? 0 then mret (false, argv)
          else
            r ← fetchstr cur uarg a PGSIZE;
            if r <? 0 then mret (false, argv)
            else fetch_args k' uargv (i + 1) argv
  end.

Definition sys_exec : XM Z :=
  uargv ← argaddr cur 1;
  r ← argstr cur 0 (kaddr SPath) MAXPATH;
  if r <? 0 then mret err
  else
    '(ok, argv) ← fetch_args (Z.to_nat MAXARG) uargv 0 (replicate (Z.to_nat MAXARG) 0);
    if ok : bool then
      ret ← exec cur kaddr (kaddr SPath) argv;
      free_args argv;;
      mret ret
    else free_args argv;; mret err.

Definition sys_pipe : XM Z :=
  fdarray ← argaddr cur 0;
  o ← pipealloc cur;
  match o with
  | None => mret err
  | Some (rf, wf) =>
      let close_both : XM Z := fileclose cur rf;; fileclose cur wf;; mret err in
      fd0 ← fdalloc rf;
      if fd0 <? 0 then close_both
      else
        fd1 ← fdalloc wf;
        if fd1 <? 0 then fdclear fd0;; close_both
        else
          wr_mem (λ m, st32 (st32 m (kaddr SFd0) fd0) (kaddr SFd1) fd1);;
          pt ← rd_proc cur p_pagetable;
          r ← in_km (copyout pt fdarray (kaddr SFd0) 4);
          r ← (if r <? 0 then mret err else in_km (copyout pt (u64 (fdarray + 4)) (kaddr SFd1) 4));
          if r <? 0 then fdclear fd0;; fdclear fd1;; close_both
          else mret 0
  end.

End sysfile.
