(* ===== verification/Sysproc.v ===== *)
(** * Sysproc: system calls on processes, and the dispatcher
    (src/kernel/sysproc.c, src/kernel/syscall.c, src/kernel/syscall.h) *)

From stdpp Require Import functions.
From S2P Require Import Prelude Mem Layout Kalloc Vm FsFormat Bio Log Fs Kern Sched Printf Console File Proc Syscall Exec Sysfile.
Import CString.

Local Open Scope Z_scope.

(** ** Numbers and names *)

Inductive sysnum :=
  | SYS_fork | SYS_exit | SYS_wait | SYS_pipe | SYS_read | SYS_kill | SYS_exec | SYS_fstat | SYS_chdir
  | SYS_dup | SYS_getpid | SYS_sbrk | SYS_sleep | SYS_uptime | SYS_open | SYS_write | SYS_mknod | SYS_unlink
  | SYS_link | SYS_mkdir | SYS_close | SYS_hello | SYS_xv6 | SYS_trace | SYS_sysinfo.
#[export] Instance sysnum_eq_dec : EqDecision sysnum.
Proof. solve_decision. Defined.

(** The system calls in the order of their numbers, from 1. *)
Definition sysnums : list sysnum :=
  [SYS_fork; SYS_exit; SYS_wait; SYS_pipe; SYS_read; SYS_kill; SYS_exec; SYS_fstat; SYS_chdir; SYS_dup; SYS_getpid;
   SYS_sbrk; SYS_sleep; SYS_uptime; SYS_open; SYS_write; SYS_mknod; SYS_unlink; SYS_link; SYS_mkdir; SYS_close;
   SYS_hello; SYS_xv6; SYS_trace; SYS_sysinfo].

(** [NELEM(syscalls)] *)
Definition NSYSCALLS : Z := 26.

Definition syscall_name (n : sysnum) : list Z :=
  chars match n with
        | SYS_fork => "fork" | SYS_exit => "exit" | SYS_wait => "wait" | SYS_pipe => "pipe" | SYS_read => "read"
        | SYS_kill => "kill" | SYS_exec => "exec" | SYS_fstat => "fstat" | SYS_chdir => "chdir" | SYS_dup => "dup"
        | SYS_getpid => "getpid" | SYS_sbrk => "sbrk" | SYS_sleep => "sleep" | SYS_uptime => "uptime"
        | SYS_open => "open" | SYS_write => "write" | SYS_mknod => "mknod" | SYS_unlink => "unlink"
        | SYS_link => "link" | SYS_mkdir => "mkdir" | SYS_close => "close" | SYS_hello => "hello"
        | SYS_xv6 => "xv6" | SYS_trace => "trace" | SYS_sysinfo => "sysinfo"
        end.

Section sysproc.
  Context `{KernelImage} (cur : nat) (kaddr : slot → Z) (forkret_addr : Z).

Definition sys_exit : XM unit := n ← argint cur 0; exit cur n.
Definition sys_getpid : XM Z := rd_proc cur p_pid.
Definition sys_fork : XM Z := fork cur kaddr forkret_addr.
Definition sys_wait : XM Z := p ← argaddr cur 0; wait cur kaddr p.

Definition sys_sbrk : XM Z :=
  n ← argint cur 0;
  addr ← rd_proc cur p_sz;
  r ← growproc cur n;
  mret (if r <? 0 then err else addr).

(** The loop of [sys_sleep] with [tickslock] held. *)
Definition sleep_ticks (n ticks0 : Z) : XM (step Z Z) :=
  t ← gets kn_ticks;
  if u32 (t - ticks0) <? n then
    kl ← killed cur;
    if negb (kl =? 0) then mret (Done err)
    else sleep_enter cur ChTicks;; mret (Blocked ticks0)
  else mret (Done 0).
Definition sys_sleep_start : XM (step Z Z) :=
  n ← argint cur 0;
  ticks0 ← gets kn_ticks;
  sleep_ticks (Z.max n 0) ticks0.
Definition sys_sleep_resume (n ticks0 : Z) : XM (step Z Z) := sleep_exit cur;; sleep_ticks n ticks0.
Definition sys_sleep : XM Z := blocking sys_sleep_start.

Definition sys_kill : XM Z := pid ← argint cur 0; kill pid.
Definition sys_uptime : XM Z := gets kn_ticks.

Definition sys_hello : XM Z := printf (chars "Hello, world!" ++ [nl]) [];; mret 0.

(** [for (int i = 0; i < n; i++)] *)
Fixpoint xv6_loop (k : nat) : XM unit :=
  match k with
  | O => mret tt
  | S k' => printf (chars "Hello_xv6" ++ [nl]) [];; xv6_loop k'
  end.
Definition sys_xv6 : XM Z := n ← argint cur 0; xv6_loop (Z.to_nat n);; mret 0.

Definition sys_trace : XM Z :=
  mask ← argint cur 0;
  upd_proc cur (set_p_trace_mask mask);;
  mret 0.

(** [struct sysinfo] in memory. *)
Definition SYSINFO_SIZE : Z := 24.
Definition put_sysinfo (m : memory) (a freemem nproc nopenfiles : Z) : memory :=
  st64 (st64 (st64 m a freemem) (a + 8) nproc) (a + 16) nopenfiles.

Definition sys_sysinfo : XM Z :=
  addr ← argaddr cur 0;
  freemem ← in_km kfree_memsize;
  nproc ← count_active_processes;
  nopenfiles ← count_open_files;
  wr_mem (λ m, put_sysinfo m (kaddr SInfo) freemem nproc nopenfiles);;
  pt ← rd_proc cur p_pagetable;
  r ← in_km (copyout pt addr (kaddr SInfo) SYSINFO_SIZE);
  mret (if r <? 0 then err else 0).

(** ** The dispatcher *)

Definition returns (m : XM Z) : XM (option Z) := v ← m; mret (Some v).

(** The handler of a system call: its return value, or [None] when the process has
    exited. *)
Definition handler (n : sysnum) : XM (option Z) :=
  match n with
  | SYS_exit => sys_exit;; mret None
  | SYS_fork => returns sys_fork
  | SYS_wait => returns sys_wait
  | SYS_pipe => returns (sys_pipe cur kaddr)
  | SYS_read => returns (sys_read cur kaddr)
  | SYS_kill => returns sys_kill
  | SYS_exec => returns (sys_exec cur kaddr)
  | SYS_fstat => returns (sys_fstat cur kaddr)
  | SYS_chdir => returns (sys_chdir cur kaddr)
  | SYS_dup => returns (sys_dup cur)
  | SYS_getpid => returns sys_getpid
  | SYS_sbrk => returns sys_sbrk
  | SYS_sleep => returns sys_sleep
  | SYS_uptime => returns sys_uptime
  | SYS_open => returns (sys_open cur kaddr)
  | SYS_write => returns (sys_write cur kaddr)
  | SYS_mknod => returns (sys_mknod cur kaddr)
  | SYS_unlink => returns (sys_unlink cur kaddr)
  | SYS_link => returns (sys_link cur kaddr)
  | SYS_mkdir => returns (sys_mkdir cur kaddr)
  | SYS_close => returns (sys_close cur)
  | SYS_hello => returns sys_hello
  | SYS_xv6 => returns sys_xv6
  | SYS_trace => returns sys_trace
  | SYS_sysinfo => returns sys_sysinfo
  end.

(** [syscalls[num]] *)
Definition lookup_syscall (num : Z) : option sysnum :=
  if (0 <? num) && (num <? NSYSCALLS) then sysnums !! Z.to_nat (num - 1) else None.

(** [syscall()]; the result tells whether the process goes on. *)
Definition syscall : XM bool :=
  a7 ← rd_tf cur TF_a7;
  let num := i32 a7 in
  match lookup_syscall num with
  | Some n =>
      r ← handler n;
      match r with
      | None => mret false
      | Some v =>
          wr_tf cur TF_a0 (u64 v);;
          x ← rd_proc cur id;
          (if negb (Z.land (p_trace_mask x) (Z.shiftl 1 num) =? 0) then
             a0 ← rd_tf cur TF_a0;
             printf (chars "%d: syscall %s -> %ld" ++ [nl]) [AWord (p_pid x); AStr (Some (syscall_name n)); AWord a0]
           else mret tt);;
          mret true
      end
  | None =>
      x ← rd_proc cur id;
      name ← rd_mem (λ m, cstr (Z.to_nat NAME_SIZE) m (kaddr (SProcName cur)));
      printf (chars "%d %s: unknown sys call %d" ++ [nl]) [AWord (p_pid x); AStr (Some name); AWord num];;
      wr_tf cur TF_a0 (u64 (-1));;
      mret true
  end.

End sysproc.
