(* ===== verification/FdTable.v ===== *)
(** * FdTable: open files and the descriptors that refer to them
    (src/kernel/file.c, src/kernel/sysfile.c, src/kernel/proc.c)

    The reference count of an entry of [ftable] is the number of descriptors, over all
    processes, that point to it, plus the references that calls in progress hold; every
    system call keeps it so. *)

From stdpp Require Import functions.
From S2P Require Import Prelude Mem Layout Kalloc Vm FsFormat Bio Log Fs Kern Pres Sched Printf Console File Proc ProcTree Syscall Exec Sysfile Sysproc.

Local Open Scope Z_scope.

(** ** Counting *)

(** How many entries of a descriptor table are [f]. *)
Definition fd_count (f : nat) (l : list (option nat)) : Z := Z.of_nat (length (filter (λ o, o = Some f) l)).
Definition pts (o : option nat) (f : nat) : Z := if decide (o = Some f) then 1 else 0.

Fixpoint total (g : nat → Z) (n : nat) : Z := match n with O => 0 | S n' => total g n' + g n' end.

Lemma fd_count_insert f l i o o' : l !! i = Some o → fd_count f (<[i := o']> l) = fd_count f l - pts o f + pts o' f.
Proof.
  unfold fd_count, pts. intros Hi. rewrite insert_take_drop by (by eapply lookup_lt_Some). rewrite <- (take_drop_middle l i o Hi) at 3.
  rewrite !filter_app, !filter_cons, !length_app. repeat case_decide; cbn [length]; lia.
Qed.
Lemma fd_count_bound f l : 0 ≤ fd_count f l ≤ Z.of_nat (length l).
Proof. unfold fd_count. pose proof (length_filter (λ o, o = Some f) l). lia. Qed.
Lemma fd_count_none f l : (∀ i, l !! i ≠ Some (Some f)) → fd_count f l = 0.
Proof.
  intros Hl. unfold fd_count. destruct (filter _ l) as [|o l'] eqn:E; [done|].
  assert (Ho : o ∈ filter (λ o, o = Some f) l) by (rewrite E; by left).
  apply list_elem_of_filter in Ho as [-> [i Hi]%list_elem_of_lookup]. by destruct (Hl i).
Qed.
Lemma fd_count_pos f l i : l !! i = Some (Some f) → 1 ≤ fd_count f l.
Proof.
  intros Hi. unfold fd_count. assert (Ho : Some f ∈ filter (λ o, o = Some f) l).
  { apply list_elem_of_filter. split; [done | by eapply list_elem_of_lookup_2]. }
  destruct (filter _ l); [by apply elem_of_nil in Ho | cbn [length]; lia].
Qed.

Lemma total_ext g g' n : (∀ q, (q < n)%nat → g' q = g q) → total g' n = total g n.
Proof. induction n as [|n IH]; intros Hg; cbn; [done|]. rewrite IH, Hg by auto with lia. done. Qed.
Lemma total_upd g g' n p : (p < n)%nat → (∀ q, (q < n)%nat → q ≠ p → g' q = g q) → total g' n = total g n - g p + g' p.
Proof.
  induction n as [|n IH]; intros Hp Hg; [lia|]. cbn. destruct (decide (p = n)) as [->|].
  - rewrite (total_ext g g') by (intros; apply Hg; lia). lia.
  - rewrite IH, (Hg n) by (auto with lia). lia.
Qed.
Lemma total_bound g n b : (∀ q, (q < n)%nat → 0 ≤ g q ≤ b) → 0 ≤ total g n ≤ Z.of_nat n * b.
Proof.
  induction n as [|n IH]; intros Hg; cbn [total]; [lia|]. pose proof (Hg n ltac:(lia)). specialize (IH ltac:(auto with lia)). nia.
Qed.
Lemma total_ge g n p : (p < n)%nat → (∀ q, (q < n)%nat → 0 ≤ g q) → g p ≤ total g n.
Proof.
  induction n as [|n IH]; intros Hp Hg; [lia|]. cbn. pose proof (Hg n ltac:(lia)). destruct (decide (p = n)) as [->|].
  - assert (0 ≤ total g n); [|lia]. clear IH Hp. induction n as [|n IH]; cbn; [lia|]. pose proof (Hg n ltac:(lia)).
    assert (0 ≤ total g n) by (apply IH; [intros; apply Hg; lia | apply Hg; lia]). lia.
  - specialize (IH ltac:(lia) ltac:(auto with lia)). lia.
Qed.

(** The descriptors that refer to [f]. *)
Definition refs (s : kernel) (f : nat) : Z := total (λ q, fd_count f (p_ofile (kn_procs s q))) NP.

(** ** Code that leaves descriptors and counts alone *)

(** A process without descriptors. *)
Definition dead (x : proc) : Prop := p_state x = UNUSED ∨ p_state x = ZOMBIE.

Record quiet (s s' : kernel) : Prop := {
  q_ref f : f_ref (kn_files s' f) = f_ref (kn_files s f);
  q_ofile q : p_ofile (kn_procs s' q) = p_ofile (kn_procs s q);
  q_dead q : dead (kn_procs s' q) → dead (kn_procs s q);
}.

(** Descriptor tables are well formed, dead processes have no descriptors, and the counts
    are right: [H f] references to [f] are held by calls in progress. *)
Record counts (s : kernel) (H : nat → Z) : Prop := {
  ct_len q : (q < NP)%nat → length (p_ofile (kn_procs s q)) = Z.to_nat NOFILE;
  ct_file q i f : (q < NP)%nat → p_ofile (kn_procs s q) !! i = Some (Some f) → (f < Z.to_nat NFILE)%nat;
  ct_dead q i f : (q < NP)%nat → dead (kn_procs s q) → p_ofile (kn_procs s q) !! i ≠ Some (Some f);
  ct_ref f : (f < Z.to_nat NFILE)%nat → f_ref (kn_files s f) = refs s f + H f;
}.

(** Only the count of [f] changes, by [d]. *)
Record shift (f : nat) (d : Z) (s s' : kernel) : Prop := {
  sh_ref f' : f_ref (kn_files s' f') = f_ref (kn_files s f') + (if decide (f' = f) then d else 0);
  sh_ofile q : p_ofile (kn_procs s' q) = p_ofile (kn_procs s q);
  sh_dead q : dead (kn_procs s' q) → dead (kn_procs s q);
}.

(** [H] with [d] more references to [f]. *)
Definition plus (f : nat) (d : Z) (H : nat → Z) (f' : nat) : Z := H f' + (if decide (f' = f) then d else 0).

Lemma counts_ext s H H' : counts s H → (∀ f, (f < Z.to_nat NFILE)%nat → H' f = H f) → counts s H'.
Proof. intros [A B C D] E. split; try done. intros f Hf. rewrite E by done. by apply D. Qed.

Lemma refs_same s s' : (∀ q, p_ofile (kn_procs s' q) = p_ofile (kn_procs s q)) → ∀ f, refs s' f = refs s f.
Proof. intros E f. apply total_ext. intros q _. by rewrite E. Qed.

Lemma shift_counts f d s s' H : counts s H → shift f d s s' → counts s' (plus f d H).
Proof.
  intros [A B C D] [E1 E2 E3]. split; try (intros q; rewrite E2).
  - apply A.
  - apply B.
  - intros i f' Hq Hd. apply C; auto.
  - intros f' Hf. rewrite E1, D, (refs_same _ _ E2) by done. unfold plus. lia.
Qed.

Lemma quiet_shift f s s' : quiet s s' → shift f 0 s s'.
Proof. intros [A B C]. split; try done. intros f'. rewrite A. case_decide; lia. Qed.
Lemma quiet_counts s s' H : quiet s s' → counts s H → counts s' H.
Proof.
  intros Hq Hc. eapply counts_ext; [eapply (shift_counts 0 0); [exact Hc | by apply quiet_shift]|].
  intros f _. unfold plus. case_decide; lia.
Qed.
Lemma shift_quiet f d s s1 s' : shift f d s s1 → quiet s1 s' → shift f d s s'.
Proof. intros [A B C] [A' B' C']. split; intros; [by rewrite A' | by rewrite B' | auto]. Qed.

Lemma refs_bound s H f : counts s H → 0 ≤ refs s f ≤ 1024.
Proof.
  intros Hc. unfold refs. assert (Hb : 0 ≤ total (λ q, fd_count f (p_ofile (kn_procs s q))) NP ≤ Z.of_nat NP * 16); [|done].
  apply total_bound. intros q Hq. pose proof (fd_count_bound f (p_ofile (kn_procs s q))) as Hf. rewrite (ct_len _ _ Hc q Hq) in Hf. exact Hf.
Qed.

(** Descriptor [i] of [p] is set to [o']. *)
Lemma counts_set_fd s H p i o o' g :
  counts s H → (p < NP)%nat → p_ofile (kn_procs s p) !! i = Some o → (∀ f, o' = Some f → (f < Z.to_nat NFILE)%nat) →
  (∀ f, o' = Some f → ¬ dead (kn_procs s p)) →
  p_ofile (g (kn_procs s p)) = <[i := o']> (p_ofile (kn_procs s p)) → (dead (g (kn_procs s p)) → dead (kn_procs s p)) →
  counts (set_kn_procs (<[p := g (kn_procs s p)]> (kn_procs s)) s) (λ f, H f + pts o f - pts o' f).
Proof.
  intros [A B C D] Hp Ho Hf Hnd Hg Hdg.
  assert (E : ∀ q, q ≠ p → (<[p := g (kn_procs s p)]> (kn_procs s)) q = kn_procs s q) by (intros; by rewrite fn_lookup_insert_ne).
  assert (Ep : (<[p := g (kn_procs s p)]> (kn_procs s)) p = g (kn_procs s p)) by (by rewrite fn_lookup_insert).
  split; cbn; try (intros q; destruct (decide (q = p)) as [->|Hq]; [rewrite Ep, ?Hg | rewrite (E q Hq); eauto]).
  - rewrite length_insert. apply A.
  - intros i' f' _ [[-> [E1 _]]|[? ?]]%list_lookup_insert_Some; [by apply Hf | by eapply B].
  - intros i' f' _ Hd%Hdg [[-> [E1 _]]|[? ?]]%list_lookup_insert_Some; [by eapply Hnd | by eapply C].
  - intros f' Hf'. rewrite D by done. unfold refs. cbn.
    rewrite (total_upd (λ q, fd_count f' (p_ofile (kn_procs s q)))
      (λ q, fd_count f' (p_ofile ((<[p := g (kn_procs s p)]> (kn_procs s)) q))) NP p Hp) by (intros q _ Hq; cbn; by rewrite E).
    cbn. rewrite Ep, Hg, (fd_count_insert _ _ _ _ _ Ho). lia.
Qed.

#[export] Instance quiet_preorder : PreOrder quiet.
Proof.
  split; [by split|]. intros s1 s2 s3 [A1 A2 A3] [B1 B2 B3]. split; intros; [by rewrite B1 | by rewrite B2 | auto].
Qed.

(** Code that does not touch the process table or the file table. *)
Lemma quiet_frame {A} (m : XM A) :
  (∀ s a s', m s = Ok (a, s') → kn_files s' = kn_files s ∧ kn_procs s' = kn_procs s) → pres quiet m.
Proof. intros Hm s a s' [E1 E2]%Hm. split; intros; by rewrite ?E1, ?E2 in *. Qed.

Lemma quiet_in_fs {A} (m : FM A) : pres quiet (in_fs m).
Proof. apply quiet_frame. by intros s a s' [f ->]%in_fs_inv. Qed.
Lemma quiet_in_uart {A} (m : M uart A) : pres quiet (in_uart m).
Proof. apply quiet_frame. intros s a s'. unfold in_uart, zoom. destruct (m _) as [[]| | |]; try done. by intros [= _ <-]. Qed.
Lemma quiet_upd_pipe p g : pres quiet (upd_pipe p g).
Proof. apply quiet_frame. by intros s a s' [= _ <-]. Qed.
Lemma quiet_upd_cons g : pres quiet (upd_cons g).
Proof. apply quiet_frame. by intros s a s' [= _ <-]. Qed.

Lemma quiet_upd_file f g : (∀ x, f_ref (g x) = f_ref x) → pres quiet (upd_file f g).
Proof.
  intros Hg s [] s' [= <-]. split; cbn; try done. intros f'.
  destruct (decide (f' = f)) as [->|]; [by rewrite fn_lookup_insert | by rewrite fn_lookup_insert_ne].
Qed.
Lemma quiet_upd_proc p g : (∀ x, p_ofile (g x) = p_ofile x) → (∀ x, dead (g x) → dead x) → pres quiet (upd_proc p g).
Proof.
  intros Hg Hd s [] s' [= <-]. split; cbn; try done; intros q;
    (destruct (decide (q = p)) as [->|]; [rewrite fn_lookup_insert; auto | by rewrite fn_lookup_insert_ne]).
Qed.
#[local] Hint Resolve quiet_in_fs quiet_in_uart quiet_upd_pipe quiet_upd_cons : pres.

(** Leaves in terms of those. *)
Lemma quiet_in_km {A} (m : KM A) : pres quiet (in_km m).
Proof. apply quiet_in_fs. Qed.
Lemma quiet_in_log {A} (m : LM A) : pres quiet (in_log m).
Proof. apply quiet_in_fs. Qed.
Lemma quiet_rd_proc {A} p (g : proc → A) : pres quiet (rd_proc p g).
Proof. apply pres_gets; exact _. Qed.
Lemma quiet_rd_file {A} p (g : file → A) : pres quiet (rd_file p g).
Proof. apply pres_gets; exact _. Qed.
Lemma quiet_rd_pipe {A} p (g : pipe → A) : pres quiet (rd_pipe p g).
Proof. apply pres_gets; exact _. Qed.
Lemma quiet_rd_mem {A} (g : memory → A) : pres quiet (rd_mem g).
Proof. apply pres_gets; exact _. Qed.
Lemma quiet_wr_mem g : pres quiet (wr_mem g).
Proof. apply quiet_in_km. Qed.
#[local] Hint Resolve quiet_in_km quiet_in_log @quiet_rd_proc @quiet_rd_file @quiet_rd_pipe @quiet_rd_mem quiet_wr_mem : pres.
Lemma quiet_rd_tf p r : pres quiet (rd_tf p r).
Proof. unfold rd_tf. pres. Qed.
Lemma quiet_wr_tf p r v : pres quiet (wr_tf p r v).
Proof. unfold wr_tf. pres. Qed.
Lemma quiet_undefined {A} : pres quiet (undefined (A := A)).
Proof. apply pres_panic. Qed.
#[local] Hint Resolve quiet_rd_tf quiet_wr_tf @quiet_undefined : pres.
Lemma quiet_opt_get {A} (o : option A) : pres quiet (opt_get o).
Proof. unfold opt_get. pres. Qed.
Lemma quiet_in_bounds {A} (o : option A) : pres quiet (in_bounds o).
Proof. unfold in_bounds. pres. Qed.
#[local] Hint Resolve @quiet_opt_get @quiet_in_bounds : pres.

(** Updates of other fields. *)
Ltac quiet_upd :=
  first [apply quiet_upd_file; done | apply quiet_upd_proc; [done | by intros ? | ..]
       | apply quiet_upd_proc; [done | by intros ? [[=]|[=]] | ..]].
#[local] Hint Extern 1 (pres quiet (upd_file _ _)) => quiet_upd : pres.
#[local] Hint Extern 1 (pres quiet (upd_proc _ _)) => quiet_upd : pres.

Section quiet.
  Context `{KernelImage} (cur : nat) (kaddr : slot → Z) (forkret_addr : Z).

Lemma quiet_with_proc {A} (f : Z → Z → nat → FM A) : pres quiet (with_proc cur f).
Proof. unfold with_proc. pres. Qed.
Lemma quiet_wakeup_on ch : pres quiet (wakeup_on cur ch).
Proof.
  unfold wakeup_on. generalize 0%nat as p. induction (Z.to_nat NPROC) as [|k IH]; intros p; cbn [wakeup_loop]; pres.
Qed.
#[local] Hint Resolve @quiet_with_proc quiet_wakeup_on : pres.
Lemma quiet_wakeup ch : pres quiet (wakeup cur ch).
Proof. apply quiet_wakeup_on. Qed.
Lemma quiet_sleep_enter ch : pres quiet (sleep_enter cur ch).
Proof. unfold sleep_enter. pres. Qed.
Lemma quiet_killed p : pres quiet (killed p).
Proof. unfold killed. pres. Qed.
#[local] Hint Resolve quiet_wakeup quiet_sleep_enter quiet_killed : pres.
Lemma quiet_kill pid : pres quiet (kill pid).
Proof.
  unfold kill. generalize 0%nat as p. induction (Z.to_nat NPROC) as [|k IH]; intros p; cbn [kill_loop]; pres.
Qed.
Lemma quiet_begin_op : pres quiet begin_op_x.
Proof. unfold begin_op_x. pres. Qed.
Lemma quiet_end_op : pres quiet (end_op_x cur).
Proof. unfold end_op_x. pres. Qed.
#[local] Hint Resolve quiet_begin_op quiet_end_op : pres.

(** Console output and input. *)
Lemma quiet_uartputc_sync c : pres quiet (uartputc_sync c).
Proof. unfold uartputc_sync, check_panicked. pres. Qed.
#[local] Hint Resolve quiet_uartputc_sync : pres.
Lemma quiet_consputc c : pres quiet (consputc c).
Proof. unfold consputc. pres. Qed.
#[local] Hint Resolve quiet_consputc : pres.
Lemma quiet_printf fmt ap : pres quiet (printf fmt ap).
Proof.
  unfold printf. destruct (format _ _ _) as [l|]; [|pres]. induction l as [|c l IH]; cbn [consputs]; pres.
Qed.
Lemma quiet_uartstart : pres quiet (uartstart cur).
Proof.
  unfold uartstart. pres. generalize (S (Z.to_nat a)) as k. induction k as [|k IH]; cbn [uartstart_loop]; pres.
Qed.
#[local] Hint Resolve quiet_printf quiet_uartstart : pres.
Lemma quiet_uartputc c : pres quiet (uartputc cur c).
Proof. unfold uartputc, check_panicked. pres. Qed.
#[local] Hint Resolve quiet_uartputc : pres.
Lemma quiet_consolewrite u src n : pres quiet (consolewrite cur kaddr u src n).
Proof.
  unfold consolewrite. apply pres_blocking. generalize (S (Z.to_nat n)) as k, 0 as i.
  induction k as [|k IH]; intros i; cbn [consolewrite_loop]; pres.
Qed.
Lemma quiet_consoleread u dst n : pres quiet (consoleread cur kaddr u dst n).
Proof.
  unfold consoleread. apply pres_blocking. generalize n at 2 as tg. intros tg. revert dst. generalize (S (Z.to_nat n)) as k. intros k. revert n.
  induction k as [|k IH]; intros n dst; cbn [consoleread_loop]; pres.
Qed.
#[local] Hint Resolve quiet_consolewrite quiet_consoleread : pres.

(** Reading and writing files. *)
Lemma quiet_pipewrite pi addr n : pres quiet (pipewrite cur kaddr pi addr n).
Proof.
  unfold pipewrite, pipewrite_start. apply pres_blocking. generalize (S (Z.to_nat n)) as k, 0 as i.
  induction k as [|k IH]; intros i; cbn [pipewrite_loop]; pres.
Qed.
Lemma quiet_piperead_loop pi addr n k : ∀ i, pres quiet (piperead_loop cur kaddr k pi addr n i).
Proof. induction k as [|k IH]; intros i; cbn [piperead_loop]; pres. Qed.
#[local] Hint Resolve quiet_pipewrite quiet_piperead_loop : pres.
Lemma quiet_piperead pi addr n : pres quiet (piperead cur kaddr pi addr n).
Proof. unfold piperead, piperead_start. apply pres_blocking. pres. Qed.
Lemma quiet_pipeclose pi w : pres quiet (pipeclose cur pi w).
Proof. unfold pipeclose. pres. Qed.
#[local] Hint Resolve quiet_piperead quiet_pipeclose : pres.
Lemma quiet_no_device m : pres quiet (no_device m).
Proof. apply pres_gets; exact _. Qed.
#[local] Hint Resolve quiet_no_device : pres.
Lemma quiet_fileread f addr n : pres quiet (fileread cur kaddr f addr n).
Proof. unfold fileread. pres. Qed.
Lemma quiet_filewrite_loop f addr n k : ∀ i, pres quiet (filewrite_loop cur kaddr k f addr n i).
Proof. induction k as [|k IH]; intros i; cbn [filewrite_loop]; pres. Qed.
#[local] Hint Resolve quiet_fileread quiet_filewrite_loop : pres.
Lemma quiet_filewrite f addr n : pres quiet (filewrite cur kaddr f addr n).
Proof. unfold filewrite. pres. Qed.
Lemma quiet_filestat f addr : pres quiet (filestat cur kaddr f addr).
Proof. unfold filestat. pres. Qed.
#[local] Hint Resolve quiet_filewrite quiet_filestat : pres.

(** Arguments and exec. *)
Lemma quiet_argraw n : pres quiet (argraw cur n).
Proof. unfold argraw. pres. Qed.
#[local] Hint Resolve quiet_argraw : pres.
Lemma quiet_argint n : pres quiet (argint cur n).
Proof. unfold argint. pres. Qed.
Lemma quiet_argaddr n : pres quiet (argaddr cur n).
Proof. unfold argaddr. pres. Qed.
Lemma quiet_fetchaddr a d : pres quiet (fetchaddr cur a d).
Proof. unfold fetchaddr. pres. Qed.
Lemma quiet_fetchstr a b m : pres quiet (fetchstr cur a b m).
Proof. unfold fetchstr. pres. Qed.
#[local] Hint Resolve quiet_argint quiet_argaddr quiet_fetchaddr quiet_fetchstr : pres.
Lemma quiet_argstr n b m : pres quiet (argstr cur n b m).
Proof. unfold argstr. pres. Qed.
Lemma quiet_argfd n : pres quiet (argfd cur n).
Proof. unfold argfd. pres. Qed.
#[local] Hint Resolve quiet_argstr quiet_argfd : pres.

Lemma quiet_readi_x ip dst off n : pres quiet (readi_x cur kaddr ip dst off n).
Proof. apply quiet_with_proc. Qed.
#[local] Hint Resolve quiet_readi_x : pres.
Lemma quiet_loadseg pt va ip off sz : pres quiet (loadseg cur kaddr pt va ip off sz).
Proof.
  unfold loadseg. generalize (S (S (Z.to_nat (sz / PGSIZE)))) as k, 0 as i. induction k as [|k IH]; intros i; cbn [loadseg_loop]; pres.
Qed.
#[local] Hint Resolve quiet_loadseg : pres.
Lemma quiet_load_program k : ∀ pt ip off sz, pres quiet (load_program cur kaddr k pt ip off sz).
Proof. induction k as [|k IH]; intros pt ip off sz; cbn [load_program]; pres. Qed.
Lemma quiet_exec_bad pt sz ip : pres quiet (exec_bad cur pt sz ip).
Proof. unfold exec_bad. pres. Qed.
Lemma quiet_push_args k : ∀ pt sb argv argc sp us, pres quiet (push_args k pt sb argv argc sp us).
Proof. induction k as [|k IH]; intros pt sb argv argc sp us; cbn [push_args]; pres. Qed.
#[local] Hint Resolve quiet_load_program quiet_exec_bad quiet_push_args : pres.
Lemma quiet_exec_stack path argv pt sz entry : pres quiet (exec_stack cur kaddr path argv pt sz entry).
Proof. unfold exec_stack. pres. Qed.
#[local] Hint Resolve quiet_exec_stack : pres.
Lemma quiet_exec path argv : pres quiet (exec cur kaddr path argv).
Proof. unfold exec. pres. Qed.
Lemma quiet_free_args argv : pres quiet (free_args argv).
Proof. induction argv as [|a l IH]; cbn [free_args]; pres. Qed.
Lemma quiet_fetch_args k : ∀ u i argv, pres quiet (fetch_args cur kaddr k u i argv).
Proof. induction k as [|k IH]; intros u i argv; cbn [fetch_args]; pres. Qed.
#[local] Hint Resolve quiet_exec quiet_free_args quiet_fetch_args : pres.
Lemma quiet_sys_exec : pres quiet (sys_exec cur kaddr).
Proof. unfold sys_exec. pres. Qed.

(** Names. *)
Lemma quiet_rd_ino {A} ip (g : inode → A) : pres quiet (rd_ino ip g).
Proof. apply quiet_in_fs. Qed.
Lemma quiet_upd_ino ip g : pres quiet (upd_ino ip g).
Proof. apply quiet_in_fs. Qed.
#[local] Hint Resolve @quiet_rd_ino quiet_upd_ino : pres.
Lemma quiet_link_bad ip : pres quiet (link_bad cur ip).
Proof. unfold link_bad. pres. Qed.
#[local] Hint Resolve quiet_link_bad : pres.
Lemma quiet_sys_link : pres quiet (sys_link cur kaddr).
Proof. unfold sys_link. pres. Qed.
Lemma quiet_isdirempty dp : pres quiet (isdirempty cur kaddr dp).
Proof.
  unfold isdirempty. pres. generalize (dir_fuel a) as k, (2 * DIRENT_SIZE) as off.
  induction k as [|k IH]; intros off; cbn [isdirempty_loop]; pres.
Qed.
#[local] Hint Resolve quiet_isdirempty : pres.
Lemma quiet_sys_unlink : pres quiet (sys_unlink cur kaddr).
Proof. unfold sys_unlink. pres. Qed.
Lemma quiet_create_fail ip dp : pres quiet (create_fail cur ip dp).
Proof. unfold create_fail. pres. Qed.
#[local] Hint Resolve quiet_create_fail : pres.
Lemma quiet_create path type major minor : pres quiet (create cur kaddr path type major minor).
Proof. unfold create. pres. Qed.
#[local] Hint Resolve quiet_create : pres.
Lemma quiet_sys_mkdir : pres quiet (sys_mkdir cur kaddr).
Proof. unfold sys_mkdir. pres. Qed.
Lemma quiet_sys_mknod : pres quiet (sys_mknod cur kaddr).
Proof. unfold sys_mknod. pres. Qed.
Lemma quiet_sys_chdir : pres quiet (sys_chdir cur kaddr).
Proof. unfold sys_chdir. pres. Qed.

(** Processes. *)
Lemma quiet_growproc n : pres quiet (growproc cur n).
Proof. unfold growproc. pres. Qed.
Lemma quiet_count_active : pres quiet count_active_processes.
Proof.
  unfold count_active_processes. generalize 0%nat as p, 0 as c.
  induction (Z.to_nat NPROC) as [|k IH]; intros p c; cbn [count_active_loop]; pres.
Qed.
Lemma quiet_count_open : pres quiet count_open_files.
Proof.
  unfold count_open_files. generalize 0%nat as p, 0 as c.
  induction (Z.to_nat NFILE) as [|k IH]; intros p c; cbn [count_open_loop]; pres.
Qed.
#[local] Hint Resolve quiet_growproc quiet_count_active quiet_count_open quiet_kill : pres.
Lemma quiet_xv6_loop k : pres quiet (xv6_loop k).
Proof. induction k as [|k IH]; cbn [xv6_loop]; pres. Qed.
#[local] Hint Resolve quiet_xv6_loop : pres.

(** ** The operations on references *)

Lemma upd_file_shift f g d s s' : upd_file f g s = Ok (tt, s') → f_ref (g (kn_files s f)) = f_ref (kn_files s f) + d → shift f d s s'.
Proof.
  intros [= <-] Hg. split; cbn; try done. intros f'. destruct (decide (f' = f)) as [->|]; [by rewrite fn_lookup_insert|].
  rewrite fn_lookup_insert_ne by done. lia.
Qed.

Lemma filealloc_shift k : ∀ f s o s', filealloc_loop k f s = Ok (o, s') →
  match o with Some f' => (f ≤ f' < f + k)%nat ∧ shift f' 1 s s' | None => s' = s end.
Proof.
  induction k as [|k IH]; intros f s o s'; cbn [filealloc_loop]; [by intros [= <- <-]|].
  intros R. apply bind_ok_inv in R as (r & s1 & [= <- <-] & R). destruct (Z.eqb_spec (f_ref (kn_files s f)) 0) as [E|].
  - apply bind_ok_inv in R as ([] & s2 & R & [= <- <-]). split; [lia|]. eapply upd_file_shift; [exact R|]. cbn. lia.
  - apply IH in R. destruct o; [|done]. destruct R. split; [lia | done].
Qed.

Lemma filedup_shift f s a s' : filedup f s = Ok (a, s') → f_ref (kn_files s f) < 2 ^ 31 - 1 → a = f ∧ shift f 1 s s'.
Proof.
  unfold filedup. intros R Hb. apply bind_ok_inv in R as (r & s1 & [= <- <-] & R). destruct (Z.ltb_spec (f_ref (kn_files s f)) 1); [done|].
  apply bind_ok_inv in R as ([] & s2 & R & [= <- <-]). split; [done|]. eapply upd_file_shift; [exact R|]. cbn. rewrite i32_small by lia. lia.
Qed.

Lemma fileclose_shift f s s' : fileclose cur f s = Ok (tt, s') → f_ref (kn_files s f) < 2 ^ 31 → shift f (-1) s s'.
Proof.
  unfold fileclose. intros R Hb. apply bind_ok_inv in R as (r & s1 & [= <- <-] & R). destruct (Z.ltb_spec (f_ref (kn_files s f)) 1); [done|].
  apply bind_ok_inv in R as ([] & s2 & R2 & R).
  assert (H2 : shift f (-1) s s2) by (eapply upd_file_shift; [exact R2|]; cbn; rewrite i32_small by lia; lia).
  apply bind_ok_inv in R as (ff & s3 & [= <- <-] & R). unfold id in R.
  destruct (Z.ltb_spec 0 (f_ref (kn_files s2 f))) as [|Hle]; [by injection R as <-|].
  apply bind_ok_inv in R as ([] & s4 & R4 & R).
  assert (H4 : shift f (-1) s s4).
  { pose proof (sh_ref _ _ _ _ H2 f) as E. rewrite decide_True in E by done.
    eapply (shift_quiet _ _ _ s2); [done|]. injection R4 as <-. split; cbn; try done. intros f'.
    destruct (decide (f' = f)) as [->|]; [rewrite fn_lookup_insert; cbn; lia | by rewrite fn_lookup_insert_ne]. }
  eapply shift_quiet; [exact H4|]. revert R. generalize (kn_files s2 f) as ff. intros ff R.
  assert (Hp : pres quiet (match f_type ff with
      | FD_PIPE => pipeclose cur (f_pipe ff) (f_writable ff)
      | FD_INODE | FD_DEVICE => begin_op_x;; with_proc cur (λ me _ _, iput me (f_ip ff));; end_op_x cur
      | FD_NONE => mret tt end)) by pres.
  destruct (f_type ff); by eapply Hp.
Qed.

Lemma argfd_spec n s o s' : argfd cur n s = Ok (o, s') →
  s' = s ∧ ∀ fd f, o = Some (fd, f) → 0 ≤ fd < NOFILE ∧ p_ofile (kn_procs s cur) !! Z.to_nat fd = Some (Some f).
Proof.
  unfold argfd, argint, argraw, rd_tf. cbn [andb Z.leb]. intros R. apply bind_ok_inv in R as (fd & s1 & R1 & R).
  assert (s1 = s) as ->.
  { apply bind_ok_inv in R1 as (v & s2 & R2 & [= _ <-]). destruct ((0 <=? n) && (n <=? 5)); [|done].
    apply bind_ok_inv in R2 as (tf & s3 & [= _ <-] & [= _ <-]). done. }
  destruct ((fd <? 0) || (NOFILE <=? fd)) eqn:Hfd; [by injection R as <- <-|]. rewrite bind_rd_proc in R. injection R as <- <-.
  split; [done|]. intros fd' f. destruct (p_ofile (kn_procs s cur) !! Z.to_nat fd) as [[f'|]|] eqn:E; [|done..].
  cbn. intros [= <- <-]. split; [lia | done].
Qed.

Lemma fdalloc_spec f k : ∀ fd s r s', fdalloc_loop cur k fd f s = Ok (r, s') →
  (r = err ∧ s' = s) ∨
  ∃ i, (fd ≤ i < fd + k)%nat ∧ r = Z.of_nat i ∧ p_ofile (kn_procs s cur) !! i ≫= id = None ∧
    s' = set_kn_procs (<[cur := set_p_ofile (<[i := Some f]> (p_ofile (kn_procs s cur))) (kn_procs s cur)]> (kn_procs s)) s.
Proof.
  induction k as [|k IH]; intros fd s r s'; cbn [fdalloc_loop]; [intros [= <- <-]; by left|].
  rewrite bind_rd_proc. destruct (p_ofile (kn_procs s cur) !! fd ≫= id) as [f'|] eqn:E.
  - intros [?|(i & Hi & ?)]%IH; [by left | right]. exists i. split; [lia | done].
  - intros R. injection R as <- <-. right. exists fd. split_and!; try done; lia.
Qed.

(** ** System calls *)

Definition held_ok (Hh : nat → Z) : Prop := ∀ f, 0 ≤ Hh f ≤ 2 ^ 30.

Lemma ref_bound s Hh f : counts s Hh → (f < Z.to_nat NFILE)%nat → Hh f ≤ 2 ^ 30 + 5 → f_ref (kn_files s f) < 2 ^ 31 - 1.
Proof. intros Hc Hf Hb. rewrite (ct_ref _ _ Hc f Hf). pose proof (refs_bound s Hh f Hc). lia. Qed.

Lemma fdalloc_counts f s Hh r s' :
  counts s Hh → (cur < NP)%nat → ¬ dead (kn_procs s cur) → (f < Z.to_nat NFILE)%nat → fdalloc cur f s = Ok (r, s') →
  (r = err ∧ s' = s) ∨
  0 ≤ r < NOFILE ∧ counts s' (plus f (-1) Hh) ∧ ¬ dead (kn_procs s' cur) ∧
  p_ofile (kn_procs s' cur) = <[Z.to_nat r := Some f]> (p_ofile (kn_procs s cur)) ∧ p_ofile (kn_procs s cur) !! Z.to_nat r = Some None.
Proof.
  intros Hc Hcur Hnd Hf [?|(i & Hi & -> & Hn & ->)]%fdalloc_spec; [by left | right].
  assert (Hlen : (i < length (p_ofile (kn_procs s cur)))%nat) by (rewrite (ct_len _ _ Hc cur Hcur); lia).
  apply lookup_lt_is_Some in Hlen as [o Ho]. rewrite Ho in Hn. cbn in Hn. destruct o as [?|]; [done|].
  change (Z.to_nat NOFILE) with 16%nat in Hi. split; [unfold NOFILE; lia|]. rewrite Nat2Z.id. cbn. rewrite fn_lookup_insert. split_and!; try done.
  eapply counts_ext; [eapply (counts_set_fd s Hh cur i None (Some f) (set_p_ofile (<[i := Some f]> (p_ofile (kn_procs s cur))))); try done; by intros ? [= <-]|].
  intros f' _. unfold plus, pts. cbn. repeat case_decide; simplify_eq; lia.
Qed.

Lemma fdclear_counts fd f s Hh s' :
  counts s Hh → (cur < NP)%nat → p_ofile (kn_procs s cur) !! Z.to_nat fd = Some (Some f) → fdclear cur fd s = Ok (tt, s') →
  counts s' (plus f 1 Hh) ∧ (dead (kn_procs s' cur) → dead (kn_procs s cur)) ∧
  p_ofile (kn_procs s' cur) = <[Z.to_nat fd := None]> (p_ofile (kn_procs s cur)).
Proof.
  intros Hc Hcur Ho [= <-]. cbn. rewrite fn_lookup_insert. split_and!; try done.
  eapply counts_ext; [eapply (counts_set_fd s Hh cur (Z.to_nat fd) (Some f) None (set_p_ofile (<[Z.to_nat fd := None]> (p_ofile (kn_procs s cur))))); done|].
  intros f' _. unfold plus, pts. cbn. repeat case_decide; simplify_eq; lia.
Qed.

Lemma fileclose_counts f s Hh s' :
  counts s Hh → (f < Z.to_nat NFILE)%nat → Hh f ≤ 2 ^ 30 + 5 → fileclose cur f s = Ok (tt, s') →
  counts s' (plus f (-1) Hh) ∧ shift f (-1) s s'.
Proof.
  intros Hc Hf Hb R. apply fileclose_shift in R; [|pose proof (ref_bound _ _ _ Hc Hf Hb); lia].
  split; [by eapply shift_counts | done].
Qed.

Lemma plus_bound f d Hh f' : held_ok Hh → -5 ≤ d ≤ 5 → plus f d Hh f' ≤ 2 ^ 30 + 5.
Proof. intros Hb Hd. unfold plus. specialize (Hb f'). case_decide; lia. Qed.

(** [H] is back where it was. *)
Ltac held Hc := eapply counts_ext; [exact Hc | intros ? _; unfold plus; repeat case_decide; simplify_eq; lia].

Lemma sys_dup_counts s Hh r s' : counts s Hh → held_ok Hh → (cur < NP)%nat → ¬ dead (kn_procs s cur) →
  sys_dup cur s = Ok (r, s') → counts s' Hh.
Proof.
  intros Hc Hb Hcur Hnd R. unfold sys_dup in R. apply bind_ok_inv in R as (o & s1 & [-> Hfd]%argfd_spec & R).
  destruct o as [[fd f]|]; [|by injection R as <- <-]. destruct (Hfd _ _ eq_refl) as [_ Ho].
  pose proof (ct_file _ _ Hc _ _ _ Hcur Ho) as Hf. apply bind_ok_inv in R as (r1 & s2 & R1 & R).
  destruct (fdalloc_counts _ _ _ _ _ Hc Hcur Hnd Hf R1) as [[-> ->]|(Hr & Hc2 & _)]; [by injection R as <- <-|].
  destruct (Z.ltb_spec r1 0); [lia|]. apply bind_ok_inv in R as (a & s3 & R3 & [= <- <-]).
  apply filedup_shift in R3 as [_ R3]; [|eapply ref_bound; [exact Hc2 | done | by apply plus_bound; [|lia]]].
  pose proof (shift_counts _ _ _ _ _ Hc2 R3) as Hc3. held Hc3.
Qed.

Lemma sys_close_counts s Hh r s' : counts s Hh → held_ok Hh → (cur < NP)%nat → ¬ dead (kn_procs s cur) →
  sys_close cur s = Ok (r, s') → counts s' Hh.
Proof.
  intros Hc Hb Hcur Hnd R. unfold sys_close in R. apply bind_ok_inv in R as (o & s1 & [-> Hfd]%argfd_spec & R).
  destruct o as [[fd f]|]; [|by injection R as <- <-]. destruct (Hfd _ _ eq_refl) as [_ Ho].
  pose proof (ct_file _ _ Hc _ _ _ Hcur Ho) as Hf. apply bind_ok_inv in R as ([] & s2 & R2 & R).
  destruct (fdclear_counts _ _ _ _ _ Hc Hcur Ho R2) as (Hc2 & _ & _). apply bind_ok_inv in R as ([] & s3 & R3 & [= <- <-]).
  destruct (fileclose_counts _ _ _ _ Hc2 Hf ltac:(by apply plus_bound; [|lia]) R3) as [Hc3 _]. held Hc3.
Qed.

Lemma pres_run {A} (R : kernel → kernel → Prop) (m : XM A) s a s' : pres R m → m s = Ok (a, s') → R s s'.
Proof. intros Hm. apply Hm. Qed.

(** A quiet run from a state with right counts. *)
Lemma quiet_run {A} (m : XM A) s a s' Hh : m s = Ok (a, s') → counts s Hh → ¬ dead (kn_procs s cur) → pres quiet m →
  counts s' Hh ∧ ¬ dead (kn_procs s' cur).
Proof. intros R Hc Hnd Hm. specialize (Hm _ _ _ R). split; [by eapply quiet_counts | intros Hd; by apply Hnd, Hm]. Qed.

Ltac quiet_end R Hc Hnd := eapply (quiet_run _ _ _ _ _ R Hc Hnd); pres.

(** [fileclose] of a file a call holds. *)
Lemma close_held f s Hh s' : counts s Hh → ¬ dead (kn_procs s cur) → (f < Z.to_nat NFILE)%nat → Hh f ≤ 2 ^ 30 + 5 →
  fileclose cur f s = Ok (tt, s') → counts s' (plus f (-1) Hh) ∧ ¬ dead (kn_procs s' cur).
Proof.
  intros Hc Hn Hf Hb R. destruct (fileclose_counts _ _ _ _ Hc Hf Hb R) as [Hc' Hsh]. split; [done|]. intros Hd. by apply Hn, Hsh.
Qed.
Lemma alloc_held s Hh o s' : counts s Hh → ¬ dead (kn_procs s cur) → filealloc s = Ok (o, s') →
  match o with
  | Some f => (f < Z.to_nat NFILE)%nat ∧ counts s' (plus f 1 Hh) ∧ ¬ dead (kn_procs s' cur)
  | None => s' = s
  end.
Proof.
  intros Hc Hn R%filealloc_shift. destruct o as [f|]; [|done]. destruct R as [Hf Hsh].
  split_and!; [lia | by eapply shift_counts | intros Hd; by apply Hn, Hsh].
Qed.

Lemma sys_open_counts s Hh r s' : counts s Hh → held_ok Hh → (cur < NP)%nat → ¬ dead (kn_procs s cur) →
  sys_open cur kaddr s = Ok (r, s') → counts s' Hh.
Proof.
  intros Hc Hb Hcur Hnd R. unfold sys_open in R.
  apply bind_ok_inv in R as (om & s1 & R1 & R). destruct (quiet_run _ _ _ _ _ R1 Hc Hnd) as [Hc1 Hn1]; [pres|].
  apply bind_ok_inv in R as (n & s2 & R2 & R). destruct (quiet_run _ _ _ _ _ R2 Hc1 Hn1) as [Hc2 Hn2]; [pres|].
  destruct (n <? 0); [by injection R as <- <-|].
  apply bind_ok_inv in R as ([] & s3 & R3 & R). destruct (quiet_run _ _ _ _ _ R3 Hc2 Hn2) as [Hc3 Hn3]; [pres|].
  apply bind_ok_inv in R as (o & s4 & R4 & R). destruct (quiet_run _ _ _ _ _ R4 Hc3 Hn3) as [Hc4 Hn4]; [pres|].
  destruct o as [ip|]; [|quiet_end R Hc4 Hn4].
  apply bind_ok_inv in R as (x & s5 & R5 & R). destruct (quiet_run _ _ _ _ _ R5 Hc4 Hn4) as [Hc5 Hn5]; [pres|].
  destruct (_ && _); [quiet_end R Hc5 Hn5|].
  apply bind_ok_inv in R as (fo & s6 & R6 & R). pose proof (alloc_held _ _ _ _ Hc5 Hn5 R6) as H6.
  destruct fo as [f|]; [|subst; quiet_end R Hc5 Hn5]. destruct H6 as (Hf & Hc6 & Hn6). apply bind_ok_inv in R as (fd & s7 & R7 & R).
  destruct (fdalloc_counts _ _ _ _ _ Hc6 Hcur Hn6 Hf R7) as [[-> ->]|(Hr & Hc7 & Hn7 & _)].
  - change (err <? 0) with true in R. cbv iota in R. apply bind_ok_inv in R as ([] & s8 & R8 & R).
    destruct (close_held _ _ _ _ Hc6 Hn6 Hf ltac:(by apply plus_bound; [|lia]) R8) as [Hc8 Hn8].
    eapply quiet_run in R as [Hc9 _]; [| exact Hc8 | done | pres]. held Hc9.
  - destruct (Z.ltb_spec fd 0); [lia|]. eapply quiet_run in R as [Hc9 _]; [| exact Hc7 | done | pres]. held Hc9.
Qed.

(** Both ends are closed. *)
Lemma close_both_counts {A} (a0 : A) f0 f1 s Hh a s' : counts s (plus f1 1 (plus f0 1 Hh)) → held_ok Hh → ¬ dead (kn_procs s cur) →
  (f0 < Z.to_nat NFILE)%nat → (f1 < Z.to_nat NFILE)%nat →
  (fileclose cur f0;; fileclose cur f1;; mret a0) s = Ok (a, s') → a = a0 ∧ counts s' Hh.
Proof.
  intros Hc Hb Hn Hf0 Hf1 R.
  assert (Hbd : ∀ f, plus f1 1 (plus f0 1 Hh) f ≤ 2 ^ 30 + 5) by (intros f; unfold plus; specialize (Hb f); repeat case_decide; lia).
  apply bind_ok_inv in R as ([] & s4 & R4 & R). destruct (close_held _ _ _ _ Hc Hn Hf0 (Hbd _) R4) as [Hc4 Hn4].
  apply bind_ok_inv in R as ([] & s5 & R5 & [= <- <-]).
  assert (Hb1 : plus f0 (-1) (plus f1 1 (plus f0 1 Hh)) f1 ≤ 2 ^ 30 + 5) by (specialize (Hbd f1); unfold plus in *; repeat case_decide; lia).
  destruct (close_held _ _ _ _ Hc4 Hn4 Hf1 Hb1 R5) as [Hc5 _]. split; [done|]. held Hc5.
Qed.

Lemma pipealloc_counts s Hh o s' : counts s Hh → held_ok Hh → ¬ dead (kn_procs s cur) → pipealloc cur s = Ok (o, s') →
  match o with
  | Some (f0, f1) => (f0 < Z.to_nat NFILE)%nat ∧ (f1 < Z.to_nat NFILE)%nat ∧ counts s' (plus f1 1 (plus f0 1 Hh)) ∧ ¬ dead (kn_procs s' cur)
  | None => counts s' Hh
  end.
Proof.
  intros Hc Hb Hn R. unfold pipealloc in R. apply bind_ok_inv in R as (o0 & s1 & R1 & R).
  pose proof (alloc_held _ _ _ _ Hc Hn R1) as H1. clear R1. destruct o0 as [f0|].
  2:{ subst s1. by injection R as <- <-. }
  destruct H1 as (Hf0 & Hc1 & Hn1). apply bind_ok_inv in R as (o1 & s2 & R2 & R).
  pose proof (alloc_held _ _ _ _ Hc1 Hn1 R2) as H2. clear R2. destruct o1 as [f1|].
  2:{ subst s2. apply bind_ok_inv in R as ([] & s3 & R3 & R).
      destruct (close_held _ _ _ _ Hc1 Hn1 Hf0 ltac:(by apply plus_bound; [|lia]) R3) as [Hc3 _]. injection R as <- <-. held Hc3. }
  destruct H2 as (Hf1 & Hc2 & Hn2).
  apply bind_ok_inv in R as (pi & s3 & R3 & R). destruct (quiet_run _ _ _ _ _ R3 Hc2 Hn2) as [Hc3 Hn3]; [pres|]. destruct (pi =? 0).
  - by eapply (close_both_counts None f0 f1) in R as [-> ?].
  - apply bind_ok_inv in R as ([] & s4 & R4 & R). destruct (quiet_run _ _ _ _ _ R4 Hc3 Hn3) as [Hc4 Hn4]; [pres|].
    apply bind_ok_inv in R as ([] & s5 & R5 & R). destruct (quiet_run _ _ _ _ _ R5 Hc4 Hn4) as [Hc5 Hn5]; [pres|].
    apply bind_ok_inv in R as ([] & s6 & R6 & [= <- <-]). destruct (quiet_run _ _ _ _ _ R6 Hc5 Hn5) as [Hc6 Hn6]; [pres|]. done.
Qed.

Lemma sys_pipe_counts s Hh r s' : counts s Hh → held_ok Hh → (cur < NP)%nat → ¬ dead (kn_procs s cur) →
  sys_pipe cur kaddr s = Ok (r, s') → counts s' Hh.
Proof.
  intros Hc Hb Hcur Hnd R. unfold sys_pipe in R.
  apply bind_ok_inv in R as (fa & s1 & R1 & R). destruct (quiet_run _ _ _ _ _ R1 Hc Hnd) as [Hc1 Hn1]; [pres|].
  apply bind_ok_inv in R as (o & s2 & R2 & R). apply (pipealloc_counts _ _ _ _ Hc1 Hb Hn1) in R2.
  destruct o as [[rf wf]|]; [|by injection R as <- <-]. destruct R2 as (Hrf & Hwf & Hc2 & Hn2).
  apply bind_ok_inv in R as (fd0 & s3 & R3 & R).
  destruct (fdalloc_counts _ _ _ _ _ Hc2 Hcur Hn2 Hrf R3) as [[-> ->]|(Hr & Hc3 & Hn3 & Ho3 & He3)].
  { change (err <? 0) with true in R. by eapply (close_both_counts err rf wf) in R as [_ ?]. }
  destruct (Z.ltb_spec fd0 0); [lia|]. apply bind_ok_inv in R as (fd1 & s4 & R4 & R).
  destruct (fdalloc_counts _ _ _ _ _ Hc3 Hcur Hn3 Hwf R4) as [[-> ->]|(Hr4 & Hc4 & Hn4 & Ho4 & He4)].
  { change (err <? 0) with true in R. cbv iota in R. apply bind_ok_inv in R as ([] & s5 & R5 & R).
    assert (Hl : p_ofile (kn_procs s3 cur) !! Z.to_nat fd0 = Some (Some rf)) by (rewrite Ho3; apply list_lookup_insert_eq; by eapply lookup_lt_Some).
    destruct (fdclear_counts _ _ _ _ _ Hc3 Hcur Hl R5) as (Hc5 & Hn5 & _).
    eapply (close_both_counts err rf wf) in R as [_ ?]; [done | | done | by intros ?%Hn5 | done | done]. held Hc5. }
  destruct (Z.ltb_spec fd1 0); [lia|].
  assert (Hl1 : p_ofile (kn_procs s4 cur) !! Z.to_nat fd1 = Some (Some wf)) by (rewrite Ho4; apply list_lookup_insert_eq; by eapply lookup_lt_Some).
  assert (Hne : Z.to_nat fd0 ≠ Z.to_nat fd1).
  { intros E. rewrite Ho3, <- E, list_lookup_insert_eq in He4 by (by eapply lookup_lt_Some). done. }
  assert (Hl0 : p_ofile (kn_procs s4 cur) !! Z.to_nat fd0 = Some (Some rf)).
  { rewrite Ho4, list_lookup_insert_ne, Ho3 by done. apply list_lookup_insert_eq. by eapply lookup_lt_Some. }
  apply bind_ok_inv in R as ([] & s5 & R5 & R). pose proof (quiet_wr_mem _ _ _ _ R5) as Q5. destruct (quiet_run _ _ _ _ _ R5 Hc4 Hn4) as [Hc5 Hn5]; [pres|].
  rewrite bind_rd_proc in R. apply bind_ok_inv in R as (r1 & s6 & R6 & R). pose proof (quiet_in_km _ _ _ _ R6) as Q6.
  destruct (quiet_run _ _ _ _ _ R6 Hc5 Hn5) as [Hc6 Hn6]; [pres|].
  apply bind_ok_inv in R as (r2 & s7 & R7 & R).
  assert (Q7 : quiet s6 s7) by (destruct (r1 <? 0); [by injection R7 as <- <- | by eapply quiet_in_km]).
  pose proof (quiet_counts _ _ _ Q7 Hc6) as Hc7. destruct (r2 <? 0); [|injection R as <- <-; held Hc7].
  assert (Eo : p_ofile (kn_procs s7 cur) = p_ofile (kn_procs s4 cur)) by (by rewrite (q_ofile _ _ Q7), (q_ofile _ _ Q6), (q_ofile _ _ Q5)).
  rewrite <- Eo in Hl0, Hl1. apply bind_ok_inv in R as ([] & s8 & R8 & R). destruct (fdclear_counts _ _ _ _ _ Hc7 Hcur Hl0 R8) as (Hc8 & Hn8 & Ho8).
  apply bind_ok_inv in R as ([] & s9 & R9 & R).
  assert (Hl9 : p_ofile (kn_procs s8 cur) !! Z.to_nat fd1 = Some (Some wf)) by (by rewrite Ho8, list_lookup_insert_ne).
  destruct (fdclear_counts _ _ _ _ _ Hc8 Hcur Hl9 R9) as (Hc9 & Hn9 & _).
  eapply (close_both_counts err rf wf) in R as [_ ?]; [done | | done | by intros ?%Hn9%Hn8%(q_dead _ _ Q7) | done | done]. held Hc9.
Qed.

(** ** fork, exit and wait *)

(** Nothing happens to descriptors, whatever becomes of processes. *)
Record fds (s s' : kernel) : Prop := {
  fd_ref f : f_ref (kn_files s' f) = f_ref (kn_files s f);
  fd_ofile q : p_ofile (kn_procs s' q) = p_ofile (kn_procs s q);
}.
#[local] Instance fds_preorder : PreOrder fds.
Proof. split; [by split|]. intros s1 s2 s3 [A1 A2] [B1 B2]. split; intros; [by rewrite B1 | by rewrite B2]. Qed.

Lemma fds_quiet {A} (m : XM A) : pres quiet m → pres fds m.
Proof. intros Hm s a s' [? ? _]%Hm. by split. Qed.
Lemma fds_upd_proc p g : (∀ x, p_ofile (g x) = p_ofile x) → pres fds (upd_proc p g).
Proof.
  intros Hg s [] s' [= <-]. split; cbn; try done; intros q.
  destruct (decide (q = p)) as [->|]; [by rewrite fn_lookup_insert | by rewrite fn_lookup_insert_ne].
Qed.
#[local] Hint Extern 1 (pres fds (upd_proc _ _)) => apply fds_upd_proc; done : pres.
#[local] Hint Extern 3 (pres fds _) => apply fds_quiet : pres.

Lemma fds_freeproc p : pres fds (freeproc kaddr p).
Proof. unfold freeproc. pres. Qed.
Lemma fds_find_unused k : ∀ p, pres fds (find_unused k p).
Proof. induction k as [|k IH]; intros p; cbn [find_unused]; pres. Qed.
Lemma fds_allocpid : pres fds allocpid.
Proof. unfold allocpid. pres. apply pres_modify. by split. Qed.
#[local] Hint Resolve fds_freeproc fds_find_unused fds_allocpid : pres.
Lemma fds_allocproc : pres fds (allocproc kaddr forkret_addr).
Proof. unfold allocproc. pres. Qed.
Lemma fds_wait_scan k : ∀ pp addr hk, pres fds (wait_scan cur kaddr k pp addr hk).
Proof. induction k as [|k IH]; intros pp addr hk; cbn [wait_scan]; pres. Qed.

Lemma core_dead x y : core x = core y → dead x → dead y.
Proof. intros (E & _)%core_eq. unfold dead. by rewrite E. Qed.

(** Only entries that were dead die. *)
Lemma fds_dead_quiet s s' p : fds s s' → (∀ q, q ≠ p → core (kn_procs s' q) = core (kn_procs s q)) → dead (kn_procs s p) → quiet s s'.
Proof.
  intros [A B] Hq Hp. split; [done | done|]. intros q. destruct (decide (q = p)) as [->|]; [done|]. by apply core_dead, Hq.
Qed.
Lemma fds_same_quiet s s' : fds s s' → same_tab s s' → quiet s s'.
Proof. intros [A B] [C _ _]. split; [done | done|]. intros q. apply core_dead, C. Qed.

Lemma allocproc_quiet s o s' : allocproc kaddr forkret_addr s = Ok (o, s') → quiet s s'.
Proof.
  intros R. pose proof (fds_allocproc _ _ _ R) as Hf. apply allocproc_tab in R. destruct o as [p|].
  - destruct R as (_ & Hu & Ho & _). eapply (fds_dead_quiet _ _ p); [done | done | by left].
  - destruct R as [?|(p & _ & Hu & Ho & _)]; [by apply fds_same_quiet | eapply (fds_dead_quiet _ _ p); [done | done | by left]].
Qed.

#[local] Opaque wait_scan.

Lemma wait_quiet addr : pres quiet (wait cur kaddr addr).
Proof.
  intros s a s' R. unfold wait, blocking in R. apply bind_ok_inv in R as (r & s1 & R1 & R). destruct r as [v|]; [|done].
  injection R as <- <-. pose proof R1 as R2. unfold wait_start in R2. apply bind_ok_inv in R2 as (r & s2 & R2 & R3).
  assert (Hf : fds s s1).
  { etransitivity; [by eapply fds_wait_scan|]. destruct r as [v'|hk]; [by injection R3 as _ <-|].
    assert (Hp : pres fds (kl ← killed cur; if negb hk || negb (kl =? 0) then mret (Done err) else sleep_enter cur (ChProc cur);; mret (Blocked tt))) by pres.
    by eapply Hp. }
  apply wait_start_tab in R1 as [?|[(q & _ & _ & Hz & _ & [Ho _ _ _])|(s3 & _ & _ & [=] & _)]].
  - by apply fds_same_quiet.
  - eapply (fds_dead_quiet _ _ q); [done | done | by right].
Qed.

(** The child's table starts empty and becomes a copy. *)
Lemma dup_files_counts np Hh k : ∀ i s s', (i + k)%nat = Z.to_nat NOFILE → counts s Hh → held_ok Hh → (cur < NP)%nat → (np < NP)%nat → np ≠ cur →
  ¬ dead (kn_procs s np) → ¬ dead (kn_procs s cur) → (∀ j f, (i ≤ j)%nat → p_ofile (kn_procs s np) !! j ≠ Some (Some f)) →
  dup_files cur k i np s = Ok (tt, s') → counts s' Hh ∧ ¬ dead (kn_procs s' cur).
Proof.
  induction k as [|k IH]; intros i s s' Hik Hc Hb Hcur Hnp Hne Hd Hdc Hnone; cbn [dup_files]; [by intros [= <-]|].
  rewrite bind_rd_proc. intros R. apply bind_ok_inv in R as ([] & s1 & R1 & R). destruct (_ ≫= id) as [f|] eqn:Ho.
  2:{ injection R1 as <-. eapply (IH (S i) s); [lia | done.. | | exact R]. intros j f Hj. apply Hnone. lia. }
  apply bind_Some in Ho as (o & Ho & Eo). unfold id in Eo. subst o. pose proof (ct_file _ _ Hc _ _ _ Hcur Ho) as Hf.
  apply bind_ok_inv in R1 as (f' & s2 & R2 & R1).
  apply filedup_shift in R2 as [-> Hsh]; [|eapply ref_bound; [exact Hc | done | specialize (Hb f); lia]].
  pose proof (shift_counts _ _ _ _ _ Hc Hsh) as Hc2. injection R1 as <-.
  assert (Hi : p_ofile (kn_procs s2 np) !! i = Some None).
  { rewrite (sh_ofile _ _ _ _ Hsh). destruct (p_ofile (kn_procs s np) !! i) as [[f2|]|] eqn:E; [by destruct (Hnone i f2) | done|].
    apply lookup_ge_None in E. rewrite (ct_len _ _ Hc np Hnp) in E. lia. }
  assert (Hd2 : ¬ dead (kn_procs s2 np)) by (intros Hx; by apply Hd, Hsh).
  pose proof (counts_set_fd s2 _ np i None (Some f) (λ x, set_p_ofile (<[i := Some f]> (p_ofile x)) x) Hc2 Hnp Hi
    ltac:(by intros ? [= <-]) ltac:(by intros ? [= <-]) eq_refl ltac:(done)) as Hc3.
  eapply (IH (S i) _ s') in R; [done | lia | | done.. | | |].
  - eapply counts_ext; [exact Hc3|]. intros f2 _. unfold plus, pts. cbn. repeat case_decide; simplify_eq; lia.
  - cbn. rewrite fn_lookup_insert. done.
  - cbn. rewrite fn_lookup_insert_ne by done. intros Hx. by apply Hdc, Hsh.
  - cbn. rewrite fn_lookup_insert. cbn. intros j f2 Hj. rewrite list_lookup_insert_ne by lia. rewrite (sh_ofile _ _ _ _ Hsh). apply Hnone. lia.
Qed.

Lemma fork_counts s Hh r s' : counts s Hh → held_ok Hh → (cur < NP)%nat → ¬ dead (kn_procs s cur) →
  fork cur kaddr forkret_addr s = Ok (r, s') → counts s' Hh.
Proof.
  intros Hc Hb Hcur Hnd R. unfold fork in R. apply bind_ok_inv in R as (o & s1 & R1 & R).
  assert (H1 : counts s1 Hh ∧ ¬ dead (kn_procs s1 cur)).
  2:{ destruct H1 as [Hc1 Hn1]. destruct o as [[np pid]|]; [|by injection R as <- <-]. unfold fork_parent, fork_run in R. quiet_end R Hc1 Hn1. }
  clear R. unfold fork_copy in R1. apply bind_ok_inv in R1 as (p & s2 & R2 & R).
  pose proof (allocproc_quiet _ _ _ R2) as Q2. pose proof (quiet_counts _ _ _ Q2 Hc) as Hc2.
  assert (Hn2 : ¬ dead (kn_procs s2 cur)) by (intros Hx; by apply Hnd, Q2).
  apply allocproc_tab in R2. destruct p as [np|]; [|by injection R as <- <-]. destruct R2 as (Hnp & Hu & _ & Hcore & _).
  assert (Hne : np ≠ cur) by (intros ->; apply Hnd; by left).
  apply core_inj in Hcore as (Hst & _). rewrite !bind_rd_proc in R. apply bind_ok_inv in R as (v & s3 & R3 & R).
  pose proof (quiet_in_km _ _ _ _ R3) as Q3. pose proof (quiet_counts _ _ _ Q3 Hc2) as Hc3.
  assert (Hn3 : ¬ dead (kn_procs s3 cur)) by (intros Hx; by apply Hn2, Q3). destruct (v <? 0).
  { apply bind_ok_inv in R as ([] & s4 & R4 & [= <- <-]). pose proof (fds_freeproc _ _ _ _ R4) as F4. apply freeproc_tab in R4 as [Ho _ _ _].
    assert (Q4 : quiet s s4).
    { destruct (transitivity Q2 Q3) as [A B C]. destruct F4 as [A4 B4]. split; [intros; by rewrite A4 | intros; by rewrite B4|].
      intros q. destruct (decide (q = np)) as [->|]; [intros _; by left|]. intros Hx. apply C. revert Hx. by apply core_dead, Ho. }
    split; [by eapply quiet_counts | intros Hx; by apply Hnd, Q4]. }
  apply bind_ok_inv in R as ([] & s4 & R4 & R). destruct (quiet_run _ _ _ _ _ R4 Hc3 Hn3) as [Hc4 Hn4]; [pres|].
  rewrite bind_rd_proc in R. apply bind_ok_inv in R as ([] & s5 & R5 & R). destruct (quiet_run _ _ _ _ _ R5 Hc4 Hn4) as [Hc5 Hn5]; [pres|].
  apply bind_ok_inv in R as ([] & s6 & R6 & R). destruct (quiet_run _ _ _ _ _ R6 Hc5 Hn5) as [Hc6 Hn6]; [pres|].
  apply bind_ok_inv in R as ([] & s7 & R7 & R). destruct (quiet_run _ _ _ _ _ R7 Hc6 Hn6) as [Hc7 Hn7]; [pres|].
  apply bind_ok_inv in R as ([] & s8 & R8 & R).
  assert (Q7 : quiet s s7).
  { etransitivity; [exact Q2|]. etransitivity; [exact Q3|]. transitivity s4; [eapply pres_run, R4; pres|].
    transitivity s5; [eapply pres_run, R5; pres|]. transitivity s6; [eapply pres_run, R6; pres | eapply pres_run, R7; pres]. }
  assert (Hst7 : p_state (kn_procs s7 np) = USED).
  { apply wr_tf_same in R7. apply upd_proc_same in R6; [|done]. apply in_fs_same in R5. apply upd_proc_same in R4; [|done]. apply in_fs_same in R3.
    pose proof (transitivity R3 (transitivity R4 (transitivity R5 (transitivity R6 R7)))) as [Hs _ _]. destruct (core_eq _ _ (Hs np)) as (-> & _). done. }
  assert (Hdup : counts s8 Hh ∧ ¬ dead (kn_procs s8 cur)).
  { eapply (dup_files_counts np Hh _ 0 s7); [done | done | done | done | done | done | | done | | exact R8].
    - unfold dead. rewrite Hst7. by intros [?|?].
    - intros j f _. rewrite (q_ofile _ _ Q7). apply (ct_dead _ _ Hc); [done | by left]. }
  destruct Hdup as [Hc8 Hn8]. eapply quiet_run in R; [exact R | exact Hc8 | done | pres].
Qed.

Lemma close_files_counts Hh k : ∀ fd s s', (fd + k)%nat = Z.to_nat NOFILE → counts s Hh → held_ok Hh → (cur < NP)%nat → ¬ dead (kn_procs s cur) →
  (∀ j f, (j < fd)%nat → p_ofile (kn_procs s cur) !! j ≠ Some (Some f)) → close_files cur k fd s = Ok (tt, s') →
  counts s' Hh ∧ ¬ dead (kn_procs s' cur) ∧ ∀ j f, p_ofile (kn_procs s' cur) !! j ≠ Some (Some f).
Proof.
  induction k as [|k IH]; intros fd s s' Hk Hc Hb Hcur Hnd Hlt; cbn [close_files].
  { intros [= <-]. split_and!; [done | done|]. intros j f. destruct (decide (j < fd)%nat) as [|Hge]; [by apply Hlt|].
    rewrite lookup_ge_None_2; [done|]. rewrite (ct_len _ _ Hc cur Hcur). lia. }
  rewrite bind_rd_proc. intros R. apply bind_ok_inv in R as ([] & s1 & R1 & R).
  destruct (p_ofile (kn_procs s cur) !! fd ≫= id) as [f|] eqn:Ho.
  2:{ injection R1 as <-. eapply (IH (S fd) s); [lia | done.. | | exact R]. intros j f Hj. destruct (decide (j = fd)) as [->|]; [|apply Hlt; lia].
      intros E. by rewrite E in Ho. }
  apply bind_Some in Ho as (o & Ho & Eo). unfold id in Eo. subst o. pose proof (ct_file _ _ Hc _ _ _ Hcur Ho) as Hf.
  apply bind_ok_inv in R1 as ([] & s2 & R2 & R1).
  destruct (fileclose_counts _ _ _ _ Hc Hf ltac:(specialize (Hb f); lia) R2) as [Hc2 Hsh]. rewrite <- (sh_ofile _ _ _ _ Hsh) in Ho.
  assert (R1' : fdclear cur (Z.of_nat fd) s2 = Ok (tt, s1)) by (unfold fdclear; by rewrite Nat2Z.id).
  destruct (fdclear_counts (Z.of_nat fd) f _ _ _ Hc2 Hcur ltac:(by rewrite Nat2Z.id) R1') as (Hc1 & Hd1 & Ho1). rewrite Nat2Z.id in Ho1.
  eapply (IH (S fd) s1); [lia | held Hc1 | done | done | | | exact R].
  - intros Hx. by apply Hnd, Hsh, Hd1.
  - intros j f' Hj. rewrite Ho1. destruct (decide (j = fd)) as [->|]; [rewrite list_lookup_insert_eq by (by eapply lookup_lt_Some); done|].
    rewrite list_lookup_insert_ne, (sh_ofile _ _ _ _ Hsh) by done. apply Hlt. lia.
Qed.

Lemma quiet_reparent p : pres quiet (reparent cur p).
Proof.
  unfold reparent. generalize 0%nat as pp. induction (Z.to_nat NPROC) as [|k IH]; intros pp; cbn [reparent_loop]; pres.
Qed.
#[local] Hint Resolve quiet_reparent : pres.

(** A process without descriptors becomes a zombie. *)
Lemma counts_zombie s Hh g : counts s Hh → (∀ j f, p_ofile (kn_procs s cur) !! j ≠ Some (Some f)) →
  p_ofile (g (kn_procs s cur)) = p_ofile (kn_procs s cur) → counts (set_kn_procs (<[cur := g (kn_procs s cur)]> (kn_procs s)) s) Hh.
Proof.
  intros [A B C D] Hno Hg.
  assert (E : ∀ q, p_ofile ((<[cur := g (kn_procs s cur)]> (kn_procs s)) q) = p_ofile (kn_procs s q)).
  { intros q. destruct (decide (q = cur)) as [->|]; [by rewrite fn_lookup_insert | by rewrite fn_lookup_insert_ne]. }
  split; cbn.
  - intros q. rewrite E. apply A.
  - intros q i f. rewrite E. apply B.
  - intros q i f Hq. rewrite E. destruct (decide (q = cur)) as [->|]; [intros _; apply Hno|]. rewrite fn_lookup_insert_ne by done. by apply C.
  - intros f Hf. rewrite D by done. f_equal. symmetry. apply total_ext. intros q _. cbn. by rewrite E.
Qed.

Lemma exit_counts status s Hh s' : counts s Hh → held_ok Hh → (cur < NP)%nat → ¬ dead (kn_procs s cur) →
  exit cur status s = Ok (tt, s') → counts s' Hh.
Proof.
  intros Hc Hb Hcur Hnd R. unfold exit in R. rewrite bind_gets in R. destruct (bool_decide _); [done|].
  apply bind_ok_inv in R as ([] & s1 & R1 & R). destruct (close_files_counts Hh _ 0 _ _ eq_refl Hc Hb Hcur Hnd ltac:(lia) R1) as (Hc1 & Hn1 & Hno).
  apply bind_ok_inv in R as ([] & s2 & R2 & R). apply bind_ok_inv in R as (o & s3 & R3 & R). apply bind_ok_inv in R as (cwd & s4 & R4 & R).
  apply bind_ok_inv in R as ([] & s5 & R5 & R). apply bind_ok_inv in R as ([] & s6 & R6 & R). apply bind_ok_inv in R as ([] & s7 & R7 & R).
  unfold exit_zombie in R. apply bind_ok_inv in R as ([] & s8 & R8 & R). rewrite bind_rd_proc in R. apply bind_ok_inv in R as ([] & s9 & R9 & R).
  assert (Q : quiet s1 s9).
  { transitivity s2; [eapply pres_run, R2; pres|]. transitivity s3; [eapply pres_run, R3; pres|]. transitivity s4; [eapply pres_run, R4; pres|].
    transitivity s5; [eapply pres_run, R5; pres|]. transitivity s6; [eapply pres_run, R6; pres|]. transitivity s7; [eapply pres_run, R7; pres|].
    transitivity s8; [eapply pres_run, R8; pres | eapply pres_run, R9; pres]. }
  pose proof (quiet_counts _ _ _ Q Hc1) as Hc9. rewrite bind_upd_proc in R. unfold sched_check in R. rewrite bind_rd_proc in R.
  destruct (bool_decide _); [done|]. injection R as <-. eapply (counts_zombie s9 Hh (λ x, set_p_state ZOMBIE (set_p_xstate status x))); [done | | done].
  intros j f. rewrite (q_ofile _ _ Q). apply Hno.
Qed.

(** ** Every system call *)

#[local] Hint Resolve wait_quiet quiet_sys_exec quiet_sys_link quiet_sys_unlink quiet_sys_mkdir quiet_sys_mknod quiet_sys_chdir : pres.
#[local] Opaque wait_start sys_exec sys_link sys_unlink create sys_open sys_pipe.

Lemma handler_quiet n : n ∉ [SYS_fork; SYS_exit; SYS_pipe; SYS_open; SYS_close; SYS_dup] → pres quiet (handler cur kaddr forkret_addr n).
Proof.
  intros Hn. destruct n; try (exfalso; apply Hn; repeat constructor; fail); unfold handler, returns.
  all: unfold sys_wait, sys_read, sys_write, sys_kill, sys_fstat, sys_getpid, sys_sbrk, sys_sleep, sys_uptime, sys_hello, sys_xv6, sys_trace, sys_sysinfo; try pres.
  apply pres_blocking. unfold sys_sleep_start, sleep_ticks. pres.
Qed.

Lemma handler_counts n s Hh r s' : counts s Hh → held_ok Hh → (cur < NP)%nat → ¬ dead (kn_procs s cur) →
  handler cur kaddr forkret_addr n s = Ok (r, s') → counts s' Hh.
Proof.
  intros Hc Hb Hcur Hnd R. destruct (decide (n ∈ [SYS_fork; SYS_exit; SYS_pipe; SYS_open; SYS_close; SYS_dup])) as [Hn|Hn].
  2:{ eapply quiet_counts; [eapply (handler_quiet n); done | done]. }
  assert (Hret : ∀ m : XM Z, (∀ v, m s = Ok (v, s') → counts s' Hh) → returns m s = Ok (r, s') → counts s' Hh).
  { intros m Hm (v & s1 & R1 & [= <- <-])%bind_ok_inv. by eapply Hm. }
  repeat (apply elem_of_cons in Hn as [->|Hn]); [..|by apply elem_of_nil in Hn]; cbn [handler] in R.
  - eapply Hret, R. intros v. by apply fork_counts.
  - apply bind_ok_inv in R as ([] & s1 & R & [= <- <-]). unfold sys_exit in R. apply bind_ok_inv in R as (n & s2 & R2 & R).
    destruct (quiet_run _ _ _ _ _ R2 Hc Hnd) as [Hc2 Hn2]; [pres|]. by eapply exit_counts.
  - eapply Hret, R. intros v. by apply sys_pipe_counts.
  - eapply Hret, R. intros v. by apply sys_open_counts.
  - eapply Hret, R. intros v. by apply sys_close_counts.
  - eapply Hret, R. intros v. by apply sys_dup_counts.
Qed.
End quiet.

(** C16. Every system call keeps the file table right: when descriptor tables are well formed,
    dead processes have no descriptors, and each count is the number of descriptors that
    refer to the file plus the references other calls hold, then so it is afterwards, and
    no descriptor refers to a free entry. *)
Theorem syscall_keeps_counts `{KernelImage} cur kaddr forkret_addr s Hh b s' :
  counts s Hh → held_ok Hh → (cur < NP)%nat → p_state (kn_procs s cur) = RUNNING →
  syscall cur kaddr forkret_addr s = Ok (b, s') →
  counts s' Hh ∧ ∀ q i f, (q < NP)%nat → p_ofile (kn_procs s' q) !! i = Some (Some f) → 1 ≤ f_ref (kn_files s' f).
Proof.
  intros Hc Hb Hcur Hrun R.
  assert (Hc' : counts s' Hh).
  { assert (Hnd : ¬ dead (kn_procs s cur)) by (unfold dead; rewrite Hrun; by intros [?|?]).
    unfold syscall in R. apply bind_ok_inv in R as (a7 & s1 & R1 & R). pose proof (quiet_rd_tf _ _ _ _ _ R1) as Q1.
    pose proof (quiet_counts _ _ _ Q1 Hc) as Hc1. assert (Hn1 : ¬ dead (kn_procs s1 cur)) by (intros Hx; by apply Hnd, Q1).
    destruct (lookup_syscall (i32 a7)) as [n|].
    - apply bind_ok_inv in R as (r & s2 & R2 & R). pose proof (handler_counts _ _ _ _ _ _ _ _ Hc1 Hb Hcur Hn1 R2) as Hc2.
      eapply (quiet_counts s2); [|done]. eapply pres_run, R. destruct r; pres; eauto using quiet_printf, quiet_wr_tf, quiet_rd_tf.
    - eapply (quiet_counts s1); [|done]. eapply pres_run, R. pres; eauto using quiet_printf, quiet_wr_tf. }
  split; [done|]. intros q i f Hq Ho. rewrite (ct_ref _ _ Hc') by (by eapply ct_file).
  pose proof (total_ge (λ q, fd_count f (p_ofile (kn_procs s' q))) NP q Hq ltac:(intros; apply fd_count_bound)) as Hge. cbn in Hge.
  pose proof (fd_count_pos _ _ _ Ho). unfold refs. specialize (Hb f). lia.
Qed.

(** ** An example *)

(** Process 0, whose first two descriptors are file 0, calls [dup(0)]. *)
Definition fd_tf : Z := 0x87000000.
Definition fd_none : list (option nat) := replicate (Z.to_nat NOFILE) None.
Definition fd_mem : memory := st64 (st64 ∅ (fd_tf + TF_a7) 10) (fd_tf + TF_a0) 0.
Definition fd_kernel : kernel :=
  mkKernel
    (mkFsys (mkLstate (mkBcache (λ _, mkBuf false 0 0 None 0 0 0 ∅) (λ _ _, ∅) []) (mkLog 0 0 0 false 0 0 (λ _, 0)))
       (mkSuperblock 0 0 0 0 0 0 0 0) (λ _, mkInode 0 0 0 None false (mkDinode 0 0 0 0 0 [])) (mkKmem fd_mem 0))
    (λ q, match q with
          | O => mkProc RUNNING None 0 0 1 None 0 0 0 fd_tf (mkContext 0 0 []) (<[0%nat := Some 0%nat]> (<[1%nat := Some 0%nat]> fd_none)) None 0
          | _ => mkProc UNUSED None 0 0 0 None 0 0 0 0 (mkContext 0 0 []) fd_none None 0
          end)
    (λ _, None) 2 (Some 0%nat)
    (λ f, match f with O => mkFile FD_INODE 2 true true 0 0 0 0 | _ => mkFile FD_NONE 0 false false 0 0 0 0 end)
    (λ _, mkPipe (λ _, 0) 0 0 true true) (λ _, false) (mkCons (λ _, 0) 0 0 0) (mkUart (λ _, 0) 0 0 (λ _, 0) 0 (λ _, 0%nat) [] [])
    (mkDisk (λ _, mkDesc DNull 0 0 0) 0 (λ _, 0) 0 (λ _, 0) (λ _, true) 0 (λ _, None) (λ _, 0) (λ _, mkReq 0 0 0) (λ _, false) (λ _, 0))
    0 false false.

Lemma fd_counts : counts fd_kernel (λ _, 0).
Proof.
  split.
  - by intros [|q] _.
  - intros [|q] i f _; cbn [kn_procs fd_kernel p_ofile].
    + rewrite !list_lookup_insert_Some. unfold fd_none. rewrite lookup_replicate. intros [(_ & [= <-] & _)|(_ & [(_ & [= <-] & _)|(_ & [=] & _)])]; vm_compute; lia.
    + unfold fd_none. rewrite lookup_replicate. by intros [[=] _].
  - intros [|q] i f _; [by intros [[=]|[=]]|]. intros _. cbn [kn_procs fd_kernel p_ofile]. unfold fd_none. rewrite lookup_replicate. by intros [[=] _].
  - assert (Hall : forallb (λ f, f_ref (kn_files fd_kernel f) =? refs fd_kernel f) (seq 0 (Z.to_nat NFILE)) = true) by (vm_compute; reflexivity).
    intros f Hf. rewrite forallb_forall in Hall. specialize (Hall f). rewrite in_seq in Hall. lia.
Qed.

Lemma ok_true (m : XM bool) s (P : kernel → Prop) :
  match m s with Ok (true, s') => P s' | _ => False end → ∃ s', m s = Ok (true, s') ∧ P s'.
Proof. destruct (m s) as [[[] s']| | |]; try done. eauto. Qed.

Lemma syscall_keeps_counts_witness :
  ∃ s', syscall (H := xv6_image) 0 (λ _, 0) 0 fd_kernel = Ok (true, s') ∧ counts s' (λ _, 0) ∧ f_ref (kn_files s' 0%nat) = 3.
Proof.
  destruct (ok_true (syscall (H := xv6_image) 0 (λ _, 0) 0) fd_kernel (λ s', f_ref (kn_files s' 0%nat) = 3)) as (s' & E & R);
    [vm_compute; reflexivity|]. exists s'. split; [exact E|]. split; [|exact R].
  apply (syscall_keeps_counts (H := xv6_image) 0 (λ _, 0) 0 fd_kernel (λ _, 0) true s'); [apply fd_counts | intros f; lia | vm_compute; lia | reflexivity | exact E].
Defined.
