(* ===== verification/Virtio.v ===== *)
(** * Virtio: the disk driver (src/kernel/virtio_disk.c, src/kernel/virtio.h)

    Requests are chains of three descriptors that the driver hands to the device through
    the available ring and gets back through the used ring.  The device is modelled as the
    other party of the two rings. *)

From stdpp Require Import functions.
From S2P Require Import Prelude Mem Layout Kalloc Vm FsFormat Bio Log Fs Kern Sched Printf Console File Proc.
Import CString.

Local Open Scope Z_scope.

Definition NUM : Z := 8.
Definition VRING_DESC_F_NEXT : Z := 1.
Definition VRING_DESC_F_WRITE : Z := 2.
Definition VIRTIO_BLK_T_IN : Z := 0.
Definition VIRTIO_BLK_T_OUT : Z := 1.

(** MMIO registers *)
Definition VIRTIO_MMIO_MAGIC_VALUE : Z := 0x000.
Definition VIRTIO_MMIO_VERSION : Z := 0x004.
Definition VIRTIO_MMIO_DEVICE_ID : Z := 0x008.
Definition VIRTIO_MMIO_VENDOR_ID : Z := 0x00c.
Definition VIRTIO_MMIO_DEVICE_FEATURES : Z := 0x010.
Definition VIRTIO_MMIO_DRIVER_FEATURES : Z := 0x020.
Definition VIRTIO_MMIO_QUEUE_SEL : Z := 0x030.
Definition VIRTIO_MMIO_QUEUE_NUM_MAX : Z := 0x034.
Definition VIRTIO_MMIO_QUEUE_NUM : Z := 0x038.
Definition VIRTIO_MMIO_QUEUE_READY : Z := 0x044.
Definition VIRTIO_MMIO_QUEUE_NOTIFY : Z := 0x050.
Definition VIRTIO_MMIO_INTERRUPT_STATUS : Z := 0x060.
Definition VIRTIO_MMIO_INTERRUPT_ACK : Z := 0x064.
Definition VIRTIO_MMIO_STATUS : Z := 0x070.
Definition VIRTIO_MMIO_QUEUE_DESC_LOW : Z := 0x080.
Definition VIRTIO_MMIO_QUEUE_DESC_HIGH : Z := 0x084.
Definition VIRTIO_MMIO_DRIVER_DESC_LOW : Z := 0x090.
Definition VIRTIO_MMIO_DRIVER_DESC_HIGH : Z := 0x094.
Definition VIRTIO_MMIO_DEVICE_DESC_LOW : Z := 0x0a0.
Definition VIRTIO_MMIO_DEVICE_DESC_HIGH : Z := 0x0a4.

Definition VIRTIO_CONFIG_S_ACKNOWLEDGE : Z := 1.
Definition VIRTIO_CONFIG_S_DRIVER : Z := 2.
Definition VIRTIO_CONFIG_S_DRIVER_OK : Z := 4.
Definition VIRTIO_CONFIG_S_FEATURES_OK : Z := 8.

Definition VIRTIO_BLK_F_RO : Z := 5.
Definition VIRTIO_BLK_F_SCSI : Z := 7.
Definition VIRTIO_BLK_F_CONFIG_WCE : Z := 11.
Definition VIRTIO_BLK_F_MQ : Z := 12.
Definition VIRTIO_F_ANY_LAYOUT : Z := 27.
Definition VIRTIO_RING_F_INDIRECT_DESC : Z := 28.
Definition VIRTIO_RING_F_EVENT_IDX : Z := 29.

Section virtio.
  Context `{KernelImage} (cur : nat).

Definition rd_disk {A} (f : disk → A) : XM A := gets (λ s, f (kn_disk s)).
(** [*R(r)] *)
Definition rd_reg (r : Z) : XM Z := rd_disk (λ d, d_regs d r).
Definition wr_reg (r v : Z) : XM unit := upd_disk (λ d, set_d_regs (<[r := u32 v]> (d_regs d)) d).

Definition alloc_free (i : nat) (v : bool) : XM unit := upd_disk (λ d, set_d_free (<[i := v]> (d_free d)) d).

(** ** Descriptors *)

Fixpoint alloc_desc_loop (k i : nat) : XM Z :=
  match k with
  | O => mret (-1)
  | S k' =>
      f ← rd_disk (λ d, d_free d i);
      if f : bool then alloc_free i false;; mret (Z.of_nat i)
      else alloc_desc_loop k' (S i)
  end.
Definition alloc_desc : XM Z := alloc_desc_loop (Z.to_nat NUM) 0.

Definition free_desc (i : Z) : XM unit :=
  if NUM <=? i then panic "free_desc 1"
  else
    f ← rd_disk (λ d, d_free d (Z.to_nat i));
    if f : bool then panic "free_desc 2"
    else
      upd_disk (λ d, set_d_desc (<[Z.to_nat i := mkDesc DNull 0 0 0]> (d_desc d)) d);;
      alloc_free (Z.to_nat i) true;;
      wakeup cur ChDesc.

(** [while(1)] of [free_chain]: each iteration frees a descriptor, and freeing one twice
    panics. *)
Fixpoint free_chain_loop (fuel : nat) (i : Z) : XM unit :=
  match fuel with
  | O => out_of_fuel
  | S f =>
      x ← rd_disk (λ d, d_desc d (Z.to_nat i));
      free_desc i;;
      if negb (Z.land (vd_flags x) VRING_DESC_F_NEXT =? 0) then free_chain_loop f (vd_next x)
      else mret tt
  end.
Definition free_chain (i : Z) : XM unit := free_chain_loop (S (Z.to_nat NUM)) i.

Fixpoint free_descs (l : list Z) : XM unit :=
  match l with
  | [] => mret tt
  | i :: l' => free_desc i;; free_descs l'
  end.

(** [for(int i = 0; i < 3; i++)] of [alloc3_desc], with the descriptors got so far;
    [None] is -1. *)
Fixpoint alloc_descs (k : nat) (idx : list Z) : XM (option (list Z)) :=
  match k with
  | O => mret (Some idx)
  | S k' =>
      i ← alloc_desc;
      if i <? 0 then free_descs idx;; mret None
      else alloc_descs k' (idx ++ [i])
  end.
Definition alloc3_desc : XM (option (list Z)) := alloc_descs 3 [].

(** ** Requests *)

(** [virtio_disk_rw] once it has its three descriptors, up to the wait: it fills them in
    and hands the chain to the device. *)
Definition submit (b : nat) (sector : Z) (write : bool) (i0 i1 i2 : Z) : XM unit :=
  let n0 := Z.to_nat i0 in let n1 := Z.to_nat i1 in let n2 := Z.to_nat i2 in
  upd_disk (λ d, set_d_ops (<[n0 := mkReq (if write then VIRTIO_BLK_T_OUT else VIRTIO_BLK_T_IN) 0 sector]> (d_ops d)) d);;
  upd_disk (λ d, set_d_desc (<[n0 := mkDesc (DOp n0) 16 VRING_DESC_F_NEXT i1]> (d_desc d)) d);;
  upd_disk (λ d, set_d_desc
    (<[n1 := mkDesc (DData b) BSIZE (Z.lor (if write then 0 else VRING_DESC_F_WRITE) VRING_DESC_F_NEXT) i2]> (d_desc d)) d);;
  upd_disk (λ d, set_d_info_status (<[n0 := 0xff]> (d_info_status d)) d);;
  upd_disk (λ d, set_d_desc (<[n2 := mkDesc (DStatus n0) 1 VRING_DESC_F_WRITE 0]> (d_desc d)) d);;
  upd_disk (λ d, set_d_buf_disk (<[b := true]> (d_buf_disk d)) d);;
  upd_disk (λ d, set_d_info_b (<[n0 := Some b]> (d_info_b d)) d);;
  upd_disk (λ d, set_d_avail_ring (<[d_avail_idx d mod NUM := i0]> (d_avail_ring d)) d);;
  upd_disk (λ d, set_d_avail_idx (u16 (d_avail_idx d + 1)) d);;
  wr_reg VIRTIO_MMIO_QUEUE_NOTIFY 0.

(** Where [virtio_disk_rw] sleeps: for descriptors, or for its request, whose first
    descriptor it keeps. *)
Inductive rw_wait := WaitDesc | WaitDone (i0 : Z).

(** [while(b->disk == 1) sleep(b, ...)] and what follows. *)
Definition rw_finish (b : nat) (i0 : Z) : XM (step rw_wait unit) :=
  busy ← rd_disk (λ d, d_buf_disk d b);
  if busy : bool then sleep_enter cur (ChBuf b);; mret (Blocked (WaitDone i0))
  else
    upd_disk (λ d, set_d_info_b (<[Z.to_nat i0 := None]> (d_info_b d)) d);;
    free_chain i0;;
    mret (Done tt).

(** [virtio_disk_rw(b, write)] with the lock held: to its sleep or its return. *)
Definition virtio_disk_rw_start (b : nat) (blockno : Z) (write : bool) : XM (step rw_wait unit) :=
  let sector := u32 (blockno * (BSIZE / 512)) in
  o ← alloc3_desc;
  match o with
  | Some [i0; i1; i2] => submit b sector write i0 i1 i2;; rw_finish b i0
  | _ => sleep_enter cur ChDesc;; mret (Blocked WaitDesc)
  end.
Definition virtio_disk_rw_resume (b : nat) (blockno : Z) (write : bool) (w : rw_wait) : XM (step rw_wait unit) :=
  sleep_exit cur;;
  match w with
  | WaitDesc => virtio_disk_rw_start b blockno write
  | WaitDone i0 => rw_finish b i0
  end.

(** [while(disk.used_idx != disk.used->idx)]: the used ring has [NUM] entries. *)
Fixpoint intr_loop (fuel : nat) : XM unit :=
  match fuel with
  | O => out_of_fuel
  | S f =>
      d ← rd_disk id;
      if d_used_idx d =? d_dev_idx d then mret tt
      else
        let i := Z.to_nat (d_used_ring d (d_used_idx d mod NUM)) in
        if negb (d_info_status d i =? 0) then panic "virtio_disk_intr status"
        else
          b ← opt_get (d_info_b d i);
          upd_disk (λ d, set_d_buf_disk (<[b := false]> (d_buf_disk d)) d);;
          wakeup cur (ChBuf b);;
          upd_disk (λ d, set_d_used_idx (u16 (d_used_idx d + 1)) d);;
          intr_loop f
  end.
Definition virtio_disk_intr : XM unit :=
  st ← rd_reg VIRTIO_MMIO_INTERRUPT_STATUS;
  wr_reg VIRTIO_MMIO_INTERRUPT_ACK (Z.land st 0x3);;
  n ← rd_disk (λ d, u16 (d_dev_idx d - d_used_idx d));
  intr_loop (S (Z.to_nat n)).

(** ** Initialisation *)

Definition clear_bits (l : list Z) (x : Z) : Z := fold_left (λ x b, Z.land x (Z.lnot (Z.shiftl 1 b))) l x.

(** [for(int i = 0; i < NUM; i++) disk.free[i] = 1;] *)
Fixpoint free_all (k i : nat) : XM unit :=
  match k with
  | O => mret tt
  | S k' => alloc_free i true;; free_all k' (S i)
  end.

(** What a write of the status register leaves to be read back: the device may refuse
    [FEATURES_OK]. *)
Definition virtio_disk_init (accepts : bool) : XM unit :=
  magic ← rd_reg VIRTIO_MMIO_MAGIC_VALUE;
  version ← rd_reg VIRTIO_MMIO_VERSION;
  device ← rd_reg VIRTIO_MMIO_DEVICE_ID;
  vendor ← rd_reg VIRTIO_MMIO_VENDOR_ID;
  if negb (magic =? 0x74726976) || negb (version =? 2) || negb (device =? 2) || negb (vendor =? 0x554d4551)
  then panic "could not find virtio disk"
  else
    wr_reg VIRTIO_MMIO_STATUS 0;;
    let status := Z.lor 0 VIRTIO_CONFIG_S_ACKNOWLEDGE in
    wr_reg VIRTIO_MMIO_STATUS status;;
    let status := Z.lor status VIRTIO_CONFIG_S_DRIVER in
    wr_reg VIRTIO_MMIO_STATUS status;;
    features ← rd_reg VIRTIO_MMIO_DEVICE_FEATURES;
    wr_reg VIRTIO_MMIO_DRIVER_FEATURES
      (clear_bits [VIRTIO_BLK_F_RO; VIRTIO_BLK_F_SCSI; VIRTIO_BLK_F_CONFIG_WCE; VIRTIO_BLK_F_MQ; VIRTIO_F_ANY_LAYOUT;
                   VIRTIO_RING_F_EVENT_IDX; VIRTIO_RING_F_INDIRECT_DESC] features);;
    let status := Z.lor status VIRTIO_CONFIG_S_FEATURES_OK in
    wr_reg VIRTIO_MMIO_STATUS (if accepts then status else Z.land status (Z.lnot VIRTIO_CONFIG_S_FEATURES_OK));;
    status ← rd_reg VIRTIO_MMIO_STATUS;
    if Z.land status VIRTIO_CONFIG_S_FEATURES_OK =? 0 then panic "virtio disk FEATURES_OK unset"
    else
      wr_reg VIRTIO_MMIO_QUEUE_SEL 0;;
      ready ← rd_reg VIRTIO_MMIO_QUEUE_READY;
      if negb (ready =? 0) then panic "virtio disk should not be ready"
      else
        max ← rd_reg VIRTIO_MMIO_QUEUE_NUM_MAX;
        if max =? 0 then panic "virtio disk has no queue 0"
        else if max <? NUM then panic "virtio disk max queue too short"
        else
          desc ← in_km kalloc;
          avail ← in_km kalloc;
          used ← in_km kalloc;
          if (desc =? 0) || (avail =? 0) || (used =? 0) then panic "virtio disk kalloc"
          else
            wr_mem (λ m, memset (memset (memset m desc 0 PGSIZE) avail 0 PGSIZE) used 0 PGSIZE);;
            upd_disk (λ d, set_d_used_ring (λ _, 0) (set_d_dev_idx 0 (set_d_avail_ring (λ _, 0) (set_d_avail_idx 0
              (set_d_desc (λ _, mkDesc DNull 0 0 0) d)))));;
            wr_reg VIRTIO_MMIO_QUEUE_NUM NUM;;
            wr_reg VIRTIO_MMIO_QUEUE_DESC_LOW desc;;
            wr_reg VIRTIO_MMIO_QUEUE_DESC_HIGH (Z.shiftr desc 32);;
            wr_reg VIRTIO_MMIO_DRIVER_DESC_LOW avail;;
            wr_reg VIRTIO_MMIO_DRIVER_DESC_HIGH (Z.shiftr avail 32);;
            wr_reg VIRTIO_MMIO_DEVICE_DESC_LOW used;;
            wr_reg VIRTIO_MMIO_DEVICE_DESC_HIGH (Z.shiftr used 32);;
            wr_reg VIRTIO_MMIO_QUEUE_READY 0x1;;
            free_all (Z.to_nat NUM) 0;;
            wr_reg VIRTIO_MMIO_STATUS (Z.lor status VIRTIO_CONFIG_S_DRIVER_OK).

End virtio.
