(* ===== verification/VirtioRing.v ===== *)
(** * VirtioRing: descriptors, rings and requests of the disk driver
    (src/kernel/virtio_disk.c)

    What each operation of Virtio.v does to the descriptors and to the processes, and the two
    rings as queues of the first descriptors of requests. *)

From stdpp Require Import functions.
From S2P Require Import Prelude Mem Layout Kalloc Vm FsFormat Bio Log Fs Kern Sched Printf Console File Proc Virtio.

Local Open Scope Z_scope.

(** ** Processes *)

Definition NP : nat := Z.to_nat NPROC.

(** [cur] may have woken other processes, and that is all that happened to the table. *)
Record calm (cur : nat) (s s' : kernel) : Prop := {
  ca_cur : kn_procs s' cur = kn_procs s cur;
  ca_asleep q : p_state (kn_procs s' q) = SLEEPING → kn_procs s' q = kn_procs s q;
}.
#[export] Instance calm_preorder cur : PreOrder (calm cur).
Proof.
  split; [by intros s; split|]. intros s1 s2 s3 [A1 A2] [B1 B2]. split; [congruence|].
  intros q Hq. rewrite B2 by done. apply A2. by rewrite <- B2.
Qed.

Lemma calm_eq cur s s' : kn_procs s' = kn_procs s → calm cur s s'.
Proof. intros E. split; intros; by rewrite E. Qed.

(** No process but [cur] sleeps on [ch]. *)
Definition nobody (cur : nat) (ch : chan) (s : kernel) : Prop :=
  ∀ q, (q < NP)%nat → q ≠ cur → p_chan (kn_procs s q) = Some ch → p_state (kn_procs s q) ≠ SLEEPING.

Lemma calm_nobody cur ch s s' : calm cur s s' → nobody cur ch s → nobody cur ch s'.
Proof. intros [_ A] Hn q Hq Hne Hch Hs. pose proof (A q Hs) as E. rewrite E in Hch, Hs. by apply (Hn q). Qed.

Lemma wakeup_nobody cur ch s :
  ∃ s', wakeup cur ch s = Ok (tt, s') ∧ kn_disk s' = kn_disk s ∧ calm cur s s' ∧ nobody cur ch s'.
Proof.
  destruct (wakeup_ok cur (Some ch) s) as (f & R & Hf). exists (set_kn_procs f s). split_and!; [exact R | done | |].
  - split; cbn; [|intros q]; rewrite Hf; unfold woken; repeat destruct (decide _); done || tauto.
  - intros q Hq Hne. cbn. rewrite Hf, decide_True by done. unfold woken.
    destruct (decide (_ ∧ _)) as [|Hn]; [done|]. intros Hc Hs. tauto.
Qed.

(** ** Descriptors *)

Definition ND : nat := Z.to_nat NUM.

(** How many descriptors are free. *)
Definition nfree (f : nat → bool) : nat := sum_list_with (λ i, Nat.b2n (f i)) (seq 0 ND).

Lemma sum_insert (f : nat → bool) (i : nat) (v : bool) : ∀ n k, (k ≤ i < k + n)%nat →
  (sum_list_with (λ j, Nat.b2n (<[i := v]> f j)) (seq k n) + Nat.b2n (f i) =
   sum_list_with (λ j, Nat.b2n (f j)) (seq k n) + Nat.b2n v)%nat.
Proof.
  induction n as [|n IH]; intros k Hk; [lia|]. cbn [seq sum_list_with].
  destruct (decide (k = i)) as [->|Hne].
  - rewrite fn_lookup_insert. assert (E : ∀ m l, (i < l)%nat →
      sum_list_with (λ j, Nat.b2n (<[i := v]> f j)) (seq l m) = sum_list_with (λ j, Nat.b2n (f j)) (seq l m)).
    { induction m as [|m IHm]; intros l Hl; cbn; [done|]. rewrite fn_lookup_insert_ne, IHm by lia. done. }
    rewrite E by lia. lia.
  - rewrite fn_lookup_insert_ne by done. specialize (IH (S k)). lia.
Qed.

Lemma nfree_insert f i v : (i < ND)%nat → (nfree (<[i := v]> f) + Nat.b2n (f i) = nfree f + Nat.b2n v)%nat.
Proof. intros Hi. apply sum_insert. lia. Qed.

Lemma nfree_none f : (∀ i, (i < ND)%nat → f i = false) → nfree f = 0%nat.
Proof. intros Hf. unfold nfree. change ND with 8%nat in *. cbn. rewrite !Hf by lia. done. Qed.

Lemma nfree_taken f : (nfree f < 3)%nat → ∃ i, (i < ND)%nat ∧ f i = false.
Proof.
  intros H. destruct (f 0%nat) eqn:E0; [|by exists 0%nat; split; [vm_compute; lia|]]. destruct (f 1%nat) eqn:E1; [|by exists 1%nat; split; [vm_compute; lia|]].
  destruct (f 2%nat) eqn:E2; [|by exists 2%nat; split; [vm_compute; lia|]]. unfold nfree in H. change ND with 8%nat in H. cbn in H. rewrite E0, E1, E2 in H. cbn in H. lia.
Qed.
Lemma nfree_le f g : (∀ i, f i = true → g i = true) → (nfree f ≤ nfree g)%nat.
Proof.
  intros H. unfold nfree. induction (seq 0 ND) as [|i l IH]; cbn; [done|]. specialize (H i).
  destruct (f i); [rewrite (H eq_refl) | destruct (g i)]; cbn; lia.
Qed.

(** The disk with other marks of free descriptors, and with one descriptor cleared. *)
Definition marked (i : nat) (v : bool) (d : disk) : disk := set_d_free (<[i := v]> (d_free d)) d.
Definition cleared (i : nat) (d : disk) : disk := marked i true (set_d_desc (<[i := mkDesc DNull 0 0 0]> (d_desc d)) d).

Lemma alloc_desc_loop_ok k : ∀ i s,
  (∃ j, (i ≤ j < i + k)%nat ∧ d_free (kn_disk s) j = true ∧
     alloc_desc_loop k i s = Ok (Z.of_nat j, set_kn_disk (marked j false (kn_disk s)) s)) ∨
  ((∀ j, (i ≤ j < i + k)%nat → d_free (kn_disk s) j = false) ∧ alloc_desc_loop k i s = Ok (-1, s)).
Proof.
  induction k as [|k IH]; intros i s; cbn [alloc_desc_loop]; [right; split; [lia | done]|].
  unfold rd_disk. destruct (d_free (kn_disk s) i) eqn:E.
  - left. exists i. split_and!; [lia.. | done | by rewrite bind_gets, E].
  - destruct (IH (S i) s) as [(j & Hj & Hf & R)|[Hn R]]; [left; exists j; split_and!; [lia.. | done | by rewrite bind_gets, E]|].
    right. split; [|by rewrite bind_gets, E]. intros j Hj. destruct (decide (j = i)) as [->|]; [done | apply Hn; lia].
Qed.

Lemma alloc_desc_ok s :
  (∃ j, (j < ND)%nat ∧ d_free (kn_disk s) j = true ∧
     alloc_desc s = Ok (Z.of_nat j, set_kn_disk (marked j false (kn_disk s)) s)) ∨
  ((∀ j, (j < ND)%nat → d_free (kn_disk s) j = false) ∧ alloc_desc s = Ok (-1, s)).
Proof.
  destruct (alloc_desc_loop_ok ND 0 s) as [(j & Hj & Hf & R)|[Hn R]]; [left; exists j; split_and!; [lia | done | exact R]|].
  right. split; [intros j Hj; apply Hn; lia | exact R].
Qed.

Section ops.
  Context (cur : nat).

Lemma free_desc_ok i s : (i < ND)%nat → d_free (kn_disk s) i = false →
  ∃ s', free_desc cur (Z.of_nat i) s = Ok (tt, s') ∧ kn_disk s' = cleared i (kn_disk s) ∧ calm cur s s' ∧ nobody cur ChDesc s'.
Proof.
  intros Hi Hf. unfold free_desc. change ND with 8%nat in Hi. destruct (Z.leb_spec NUM (Z.of_nat i)) as [H|_]; [unfold NUM in H; lia|].
  unfold rd_disk. rewrite bind_gets, Nat2Z.id, Hf. unfold upd_disk at 1. rewrite bind_modify. unfold alloc_free, upd_disk. rewrite bind_modify.
  match goal with |- context [wakeup cur ChDesc ?t] => destruct (wakeup_nobody cur ChDesc t) as (s' & R & Hd & Hc & Hn) end.
  exists s'. split_and!; [exact R | rewrite Hd; done | | exact Hn].
  etransitivity; [|exact Hc]. by apply calm_eq.
Qed.

(** Giving descriptors back, of which one at least. *)
Fixpoint clear_list (l : list nat) (d : disk) : disk :=
  match l with
  | [] => d
  | i :: l' => clear_list l' (cleared i d)
  end.

Lemma free_descs_ok l : ∀ s, NoDup l → Forall (λ i, (i < ND)%nat ∧ d_free (kn_disk s) i = false) l →
  ∃ s', free_descs cur (Z.of_nat <$> l) s = Ok (tt, s') ∧ kn_disk s' = clear_list l (kn_disk s) ∧ calm cur s s'.
Proof.
  induction l as [|i l IH]; intros s Hnd Hl; cbn [free_descs fmap list_fmap]; [by exists s|].
  apply NoDup_cons in Hnd as [Hi Hnd]. apply Forall_cons in Hl as [[Hlt Hf] Hl].
  destruct (free_desc_ok i s Hlt Hf) as (s1 & R1 & D1 & C1 & _). run R1.
  destruct (IH s1 Hnd) as (s2 & R2 & D2 & C2).
  { rewrite D1. apply Forall_forall. intros j Hj. pose proof (proj1 (Forall_forall _ _) Hl j Hj) as [? ?].
    cbn. rewrite fn_lookup_insert_ne by congruence. done. }
  exists s2. split_and!; [exact R2 | by rewrite D2, D1 | by etransitivity].
Qed.

(** The disk after descriptors were taken and given back: only free ones may differ. *)
Record same_reqs (d d' : disk) : Prop := {
  sr_free i : d_free d' i = d_free d i;
  sr_desc i : (i < ND)%nat → d_free d i = false → d_desc d' i = d_desc d i;
  sr_rest : ∃ x f, d' = set_d_desc x (set_d_free f d);
}.

Lemma nfree_ext f g : (∀ i, f i = g i) → nfree f = nfree g.
Proof. intros H. unfold nfree. change ND with 8%nat. cbn. by rewrite !H. Qed.

(** Descriptors that can be taken, and the disk once they are. *)
Definition avail (d : disk) (l : list nat) : Prop := NoDup l ∧ Forall (λ i, (i < ND)%nat ∧ d_free d i = true) l.
Fixpoint mark_list (l : list nat) (d : disk) : disk :=
  match l with
  | [] => d
  | i :: l' => mark_list l' (marked i false d)
  end.

Lemma mark_list_free l : ∀ d i, d_free (mark_list l d) i = if decide (i ∈ l) then false else d_free d i.
Proof.
  induction l as [|j l IH]; intros d i; cbn [mark_list]; [by rewrite decide_False by set_solver|]. rewrite IH. cbn.
  destruct (decide (i ∈ l)); [by rewrite decide_True by set_solver|]. destruct (decide (i = j)) as [->|].
  - by rewrite fn_lookup_insert, decide_True by set_solver.
  - by rewrite fn_lookup_insert_ne, decide_False by set_solver.
Qed.
Lemma clear_list_free l : ∀ d i, d_free (clear_list l d) i = if decide (i ∈ l) then true else d_free d i.
Proof.
  induction l as [|j l IH]; intros d i; cbn [clear_list]; [by rewrite decide_False by set_solver|]. rewrite IH. cbn.
  destruct (decide (i ∈ l)); [by rewrite decide_True by set_solver|]. destruct (decide (i = j)) as [->|].
  - by rewrite fn_lookup_insert, decide_True by set_solver.
  - by rewrite fn_lookup_insert_ne, decide_False by set_solver.
Qed.
Lemma clear_list_desc l : ∀ d i, i ∉ l → d_desc (clear_list l d) i = d_desc d i.
Proof.
  induction l as [|j l IH]; intros d i Hi; cbn [clear_list]; [done|]. rewrite IH by set_solver. cbn. by rewrite fn_lookup_insert_ne by set_solver.
Qed.
Lemma mark_list_rest l : ∀ d, ∃ f, mark_list l d = set_d_free f d.
Proof.
  induction l as [|j l IH]; intros d; cbn [mark_list]; [exists (d_free d); by destruct d|].
  destruct (IH (marked j false d)) as [f ->]. by exists f.
Qed.
Lemma clear_list_rest l : ∀ d, ∃ x f, clear_list l d = set_d_desc x (set_d_free f d).
Proof.
  induction l as [|j l IH]; intros d; cbn [clear_list]; [exists (d_desc d), (d_free d); by destruct d|].
  destruct (IH (cleared j d)) as (x & f & ->). by exists x, f.
Qed.

Lemma avail_cons d i l : (i < ND)%nat → d_free d i = true → avail (marked i false d) l → avail d (i :: l).
Proof.
  intros Hi Hf [Hnd Hl]. rewrite Forall_forall in Hl. split.
  - apply NoDup_cons. split; [|done]. intros [_ H]%Hl. cbn in H. by rewrite fn_lookup_insert in H.
  - apply Forall_cons. split; [done|]. apply Forall_forall. intros j [Hj H]%Hl. split; [done|]. cbn in H.
    destruct (decide (j = i)) as [->|]; [done | by rewrite fn_lookup_insert_ne in H].
Qed.

Lemma alloc_descs_ok k : ∀ idx s, NoDup idx → Forall (λ i, (i < ND)%nat ∧ d_free (kn_disk s) i = false) idx →
  (∃ l, avail (kn_disk s) l ∧ length l = k ∧
     alloc_descs cur k (Z.of_nat <$> idx) s = Ok (Some (Z.of_nat <$> idx ++ l), set_kn_disk (mark_list l (kn_disk s)) s)) ∨
  (∃ l s', avail (kn_disk s) l ∧ alloc_descs cur k (Z.of_nat <$> idx) s = Ok (None, s') ∧ (nfree (d_free (kn_disk s)) < k)%nat ∧
     kn_disk s' = clear_list (idx ++ l) (mark_list l (kn_disk s)) ∧ calm cur s s').
Proof.
  assert (H0 : ∀ d, avail d []) by (split; constructor).
  induction k as [|k IH]; intros idx s Hnd Hidx; cbn [alloc_descs].
  { left. exists []. rewrite app_nil_r. split_and!; [done.. | by destruct s]. }
  destruct (alloc_desc_ok s) as [(i & Hi & Hf & R)|[N R]]; rewrite (bind_ok _ _ _ _ _ R).
  - rewrite (proj2 (Z.ltb_ge _ _)) by lia. replace ((Z.of_nat <$> idx) ++ [Z.of_nat i]) with (Z.of_nat <$> (idx ++ [i])) by by rewrite fmap_app.
    rewrite Forall_forall in Hidx. assert (Hn : i ∉ idx) by (intros [_ H]%Hidx; congruence).
    set (s1 := set_kn_disk _ s). destruct (IH (idx ++ [i]) s1) as [(l & Ha & Hl & R1)|(l & s' & Ha & R1 & Hc & Hd & C)].
    + apply NoDup_app. split_and!; [done | set_solver | apply NoDup_singleton].
    + apply Forall_forall. intros j [Hj| ->%list_elem_of_singleton]%elem_of_app; cbn; [|by rewrite fn_lookup_insert].
      rewrite fn_lookup_insert_ne by set_solver. by apply Hidx.
    + left. exists (i :: l). split_and!; [by apply avail_cons | cbn; by rewrite Hl | rewrite R1, <- app_assoc; done].
    + right. exists (i :: l), s'. split_and!; [by apply avail_cons | exact R1 | | rewrite Hd, <- app_assoc; done | etransitivity; [|exact C]; by apply calm_eq].
      pose proof (nfree_insert (d_free (kn_disk s)) i false Hi) as E. rewrite Hf in E. cbn in E, Hc. lia.
  - right. change (-1 <? 0) with true. cbn iota. destruct (free_descs_ok idx s Hnd Hidx) as (s' & R' & D' & C'). run R'.
    exists [], s'. split_and!; [done | done | rewrite nfree_none by done; lia | by rewrite app_nil_r | done].
Qed.

Lemma mark_clear d l : avail d l → same_reqs d (clear_list l (mark_list l d)).
Proof.
  intros [_ Hl]. rewrite Forall_forall in Hl. destruct (mark_list_rest l d) as [f E]. split.
  - intros i. rewrite clear_list_free, mark_list_free. destruct (decide (i ∈ l)) as [[_ Hi]%Hl|]; done.
  - intros i _ Hi. rewrite clear_list_desc; [by rewrite E | intros [_ ?]%Hl; congruence].
  - rewrite E. destruct (clear_list_rest l (set_d_free f d)) as (x & g & ->). by exists x, g.
Qed.

(** [alloc3_desc] takes three free descriptors, or fails because there are fewer. *)
Lemma alloc3_ok s :
  (∃ i0 i1 i2, avail (kn_disk s) [i0; i1; i2] ∧
     alloc3_desc cur s = Ok (Some [Z.of_nat i0; Z.of_nat i1; Z.of_nat i2], set_kn_disk (mark_list [i0; i1; i2] (kn_disk s)) s)) ∨
  (∃ s', alloc3_desc cur s = Ok (None, s') ∧ (nfree (d_free (kn_disk s)) < 3)%nat ∧ same_reqs (kn_disk s) (kn_disk s') ∧ calm cur s s').
Proof.
  destruct (alloc_descs_ok 3 [] s) as [(l & Ha & Hl & R)|(l & s' & Ha & R & Hn & D & C)]; [constructor | constructor | |].
  - left. destruct l as [|i0 [|i1 [|i2 [|]]]]; try done. by exists i0, i1, i2.
  - right. exists s'. split_and!; [done | done | rewrite D; by apply mark_clear | done].
Qed.

(** ** Requests *)

Inductive stage := Avail | Taken | Used | Finished.

(** A request, by its first descriptor: the process, the other two descriptors, buffer, block,
    direction, the contents it moves, and how far it is. *)
Record areq := mkAreq {
  a_p : nat; a_i1 : nat; a_i2 : nat; a_b : nat; a_bn : Z; a_w : bool; a_c : block; a_st : stage }.

Definition set_st (x : stage) (r : areq) : areq := mkAreq (a_p r) (a_i1 r) (a_i2 r) (a_b r) (a_bn r) (a_w r) (a_c r) x.
Definition owns (h : nat) (r : areq) (i : nat) : Prop := i = h ∨ i = a_i1 r ∨ i = a_i2 r.

(** The request [r] as [virtio_disk_rw] lays it out. *)
Record laid (d : disk) (h : nat) (r : areq) : Prop := {
  la_0 : d_desc d h = mkDesc (DOp h) 16 VRING_DESC_F_NEXT (Z.of_nat (a_i1 r));
  la_1 : d_desc d (a_i1 r) = mkDesc (DData (a_b r)) BSIZE (Z.lor (if a_w r then 0 else VRING_DESC_F_WRITE) VRING_DESC_F_NEXT) (Z.of_nat (a_i2 r));
  la_2 : d_desc d (a_i2 r) = mkDesc (DStatus h) 1 VRING_DESC_F_WRITE 0;
  la_op : d_ops d h = mkReq (if a_w r then VIRTIO_BLK_T_OUT else VIRTIO_BLK_T_IN) 0 (2 * a_bn r);
  la_b : d_info_b d h = Some (a_b r);
}.

Record apart3 (h : nat) (r : areq) : Prop := {
  ap_lt i : owns h r i → (i < ND)%nat;
  ap_01 : h ≠ a_i1 r; ap_02 : h ≠ a_i2 r; ap_12 : a_i1 r ≠ a_i2 r;
}.

(** [free_chain] gives back the three descriptors of a request. *)
Lemma free_chain_ok h r d s :
  apart3 h r → laid d h r → d_desc (kn_disk s) = d_desc d → (∀ i, owns h r i → d_free (kn_disk s) i = false) →
  ∃ s', free_chain cur (Z.of_nat h) s = Ok (tt, s') ∧ kn_disk s' = clear_list [h; a_i1 r; a_i2 r] (kn_disk s) ∧
    calm cur s s' ∧ nobody cur ChDesc s'.
Proof.
  intros [Hlt H01 H02 H12] [L0 L1 L2 _ _] Ed Hf. rewrite <- Ed in L0, L1, L2. unfold owns in *. unfold free_chain. change (S (Z.to_nat NUM)) with 9%nat.
  destruct (free_desc_ok h s) as (s1 & R1 & D1 & C1 & _); [auto..|].
  destruct (free_desc_ok (a_i1 r) s1) as (s2 & R2 & D2 & C2 & _); [auto | rewrite D1; cbn; rewrite fn_lookup_insert_ne by done; auto|].
  destruct (free_desc_ok (a_i2 r) s2) as (s3 & R3 & D3 & C3 & N3); [auto | rewrite D2, D1; cbn; rewrite !fn_lookup_insert_ne by done; auto|].
  exists s3. split_and!; [| by rewrite D3, D2, D1 | by rewrite C1, C2 | exact N3].
  cbn [free_chain_loop]. unfold rd_disk. rewrite bind_gets, Nat2Z.id, L0. run R1. cbn [vd_flags vd_next].
  change (negb (Z.land VRING_DESC_F_NEXT VRING_DESC_F_NEXT =? 0)) with true. cbn iota.
  rewrite bind_gets, Nat2Z.id, D1. cbn [cleared marked d_desc set_d_desc set_d_free]. rewrite fn_lookup_insert_ne, L1 by done. run R2.
  assert (E : Z.land (Z.lor (if a_w r then 0 else VRING_DESC_F_WRITE) VRING_DESC_F_NEXT) VRING_DESC_F_NEXT = 1) by by destruct (a_w r).
  cbn [vd_flags vd_next]. rewrite E. change (negb (1 =? 0)) with true. cbn iota.
  rewrite bind_gets, Nat2Z.id, D2, D1. cbn [cleared marked d_desc set_d_desc set_d_free]. rewrite !fn_lookup_insert_ne, L2 by done. by run R3.
Qed.
End ops.

(** ** Rings *)

(** From index [n] on, the ring holds the queue [q]. *)
Definition ringq (ring : Z → Z) (n : Z) (q : list nat) : Prop :=
  ∀ k h, q !! k = Some h → ring ((n + Z.of_nat k) mod NUM) = Z.of_nat h.

Lemma u16_mod x : u16 x mod NUM = x mod NUM.
Proof. unfold u16, NUM. zdiv. Qed.
Lemma u16_succ x : u16 (u16 x + 1) = u16 (x + 1).
Proof. unfold u16. apply Zplus_mod_idemp_l. Qed.
Lemma u16_ne n (q : list nat) : (length q ≤ ND)%nat → q ≠ [] → u16 n ≠ u16 (n + Z.of_nat (length q)).
Proof. change ND with 8%nat. intros Hq Hne. destruct q as [|h q]; [done|]. cbn [length] in *. unfold u16. zdiv. Qed.

Lemma ringq_push ring n q h : (length q < ND)%nat → ringq ring n q →
  ringq (<[(n + Z.of_nat (length q)) mod NUM := Z.of_nat h]> ring) n (q ++ [h]).
Proof.
  change ND with 8%nat. intros Hq Hr k x Hk. destruct (decide (k = length q)) as [->|Hne].
  - rewrite list_lookup_middle in Hk by done. injection Hk as <-. by rewrite fn_lookup_insert.
  - apply lookup_app_Some in Hk as [Hk|[? Hk%list_lookup_singleton_Some]]; [|lia].
    pose proof (lookup_lt_Some _ _ _ Hk). rewrite fn_lookup_insert_ne by (unfold NUM; zdiv). by apply Hr.
Qed.
Lemma ringq_pop ring n h q : ringq ring n (h :: q) → ring (n mod NUM) = Z.of_nat h ∧ ringq ring (n + 1) q.
Proof.
  intros Hr. split; [rewrite <- (Hr 0%nat h); [f_equal; f_equal; lia | done]|].
  intros k x Hk. rewrite <- (Hr (S k) x Hk). f_equal. f_equal. lia.
Qed.

Lemma heads_le (q : list nat) : NoDup q → (∀ h, h ∈ q → (h < ND)%nat) → (length q ≤ ND)%nat.
Proof.
  intros Hnd Hlt. rewrite <- (length_seq ND 0). apply submseteq_length, NoDup_submseteq; [done|].
  intros h Hh. apply elem_of_seq. specialize (Hlt h Hh). lia.
Qed.

(** ** The driver's invariant

    [R] are the requests by their first descriptors; [AQ] is what the device has not yet taken
    of the available ring, [TQ] what it works on, and [UQ] what the driver has not yet seen of
    the used ring.  [av] and [un] count what has been taken and seen. *)
Definition at_stage (R : nat → option areq) (x : stage) (q : list nat) : Prop :=
  NoDup q ∧ ∀ h, h ∈ q ↔ ∃ r, R h = Some r ∧ a_st r = x.

(** The requests have descriptors of their own, which are all that is not free. *)
Record shape (d : disk) (R : nat → option areq) : Prop := {
  sh_apart h r : R h = Some r → apart3 h r;
  sh_laid h r : R h = Some r → laid d h r;
  sh_bn h r : R h = Some r → 0 ≤ a_bn r < 2 ^ 31;
  sh_free i : (i < ND)%nat → d_free d i = false ↔ ∃ h r, R h = Some r ∧ owns h r i;
  sh_disj h h' r r' i : R h = Some r → R h' = Some r' → owns h r i → owns h' r' i → h = h';
}.

Record dinv (d : disk) (R : nat → option areq) (AQ TQ UQ : list nat) (av un : Z) : Prop := {
  di_shape : shape d R;
  di_avail : at_stage R Avail AQ;
  di_taken : at_stage R Taken TQ;
  di_used : at_stage R Used UQ;
  di_aring : ringq (d_avail_ring d) av AQ;
  di_aidx : d_avail_idx d = u16 (av + Z.of_nat (length AQ));
  di_uring : ringq (d_used_ring d) un UQ;
  di_uidx : d_used_idx d = u16 un;
  di_didx : d_dev_idx d = u16 (un + Z.of_nat (length UQ));
  di_status h r : R h = Some r → a_st r = Used → d_info_status d h = 0;
  di_busy b : d_buf_disk d b = true ↔ ∃ h r, R h = Some r ∧ a_b r = b ∧ a_st r ≠ Finished;
}.

Lemma shape_lt d R h r i : shape d R → R h = Some r → owns h r i → (i < ND)%nat ∧ d_free d i = false.
Proof.
  intros S Hr Ho. pose proof (ap_lt _ _ (sh_apart _ _ S h r Hr) i Ho) as Hi. split; [done|]. apply (sh_free _ _ S i Hi). eauto.
Qed.

Lemma stage_lt d R x q : shape d R → at_stage R x q → (length q ≤ ND)%nat.
Proof.
  intros S [Hnd Hq]. apply heads_le; [done|]. intros h (r & Hr & _)%Hq. by apply (shape_lt d R h r h S Hr); left.
Qed.

(** *** Changing the stage of a request *)

Section at_stage.
  Context (R : nat → option areq) (x : stage) (h : nat) (o : option areq).

Lemma at_stage_other q :
  (∀ r, R h = Some r → a_st r ≠ x) → (∀ r, o = Some r → a_st r ≠ x) → at_stage R x q → at_stage (<[h := o]> R) x q.
Proof.
  intros H1 H2 [Hnd Hq]. split; [done|]. intros k. rewrite Hq. destruct (decide (k = h)) as [->|].
  - rewrite fn_lookup_insert. split; intros (r & Hr & Hx); [by destruct (H1 r Hr) | by destruct (H2 r Hr)].
  - by rewrite fn_lookup_insert_ne.
Qed.
Lemma at_stage_add q r :
  (∀ r, R h = Some r → a_st r ≠ x) → o = Some r → a_st r = x → at_stage R x q → at_stage (<[h := o]> R) x (q ++ [h]).
Proof.
  intros H1 -> Hx [Hnd Hq]. assert (Hh : h ∉ q) by (rewrite Hq; intros (r0 & Hr & ?); by apply (H1 r0)). split.
  - apply NoDup_app. split_and!; [done | intros k Hk ->%list_elem_of_singleton; done | apply NoDup_singleton].
  - intros k. rewrite elem_of_app, list_elem_of_singleton, Hq. destruct (decide (k = h)) as [->|].
    + rewrite fn_lookup_insert. split; [by eexists | by right].
    + rewrite fn_lookup_insert_ne by done. split; [by intros [?|] | by left].
Qed.
Lemma at_stage_remove q1 q2 :
  (∀ r, o = Some r → a_st r ≠ x) → at_stage R x (q1 ++ h :: q2) → at_stage (<[h := o]> R) x (q1 ++ q2).
Proof.
  intros H2 [Hnd Hq]. rewrite <- Permutation_middle in Hnd. apply NoDup_cons in Hnd as [Hh Hnd]. split; [done|].
  intros k. destruct (decide (k = h)) as [->|Hne].
  - rewrite fn_lookup_insert. split; [done | intros (r & Hr & Hx); by destruct (H2 r Hr)].
  - rewrite fn_lookup_insert_ne, <- Hq by done. rewrite !elem_of_app, elem_of_cons. tauto.
Qed.
End at_stage.

(** A request with a new stage is where it was. *)
Lemma advance_inv (R : nat → option areq) h r x k r' :
  R h = Some r → <[h := Some (set_st x r)]> R k = Some r' → ∃ r0 y, R k = Some r0 ∧ r' = set_st y r0.
Proof.
  intros Hr. destruct (decide (k = h)) as [->|].
  - rewrite fn_lookup_insert. intros [= <-]. by exists r, x.
  - rewrite fn_lookup_insert_ne by done. intros Hk. exists r', (a_st r'). by destruct r'.
Qed.
Lemma advance_fwd (R : nat → option areq) h r x k r0 :
  R h = Some r → R k = Some r0 → ∃ y, <[h := Some (set_st x r)]> R k = Some (set_st y r0).
Proof.
  intros Hr Hk. destruct (decide (k = h)) as [->|].
  - rewrite fn_lookup_insert. exists x. congruence.
  - rewrite fn_lookup_insert_ne, Hk by done. exists (a_st r0). by destruct r0.
Qed.

Lemma laid_st d h r x : laid d h r → laid d h (set_st x r).
Proof. intros []. by split. Qed.
Lemma apart3_st h r x : apart3 h r → apart3 h (set_st x r).
Proof. intros []. by split. Qed.

Lemma shape_advance d R h r x : R h = Some r → shape d R → shape d (<[h := Some (set_st x r)]> R).
Proof.
  intros Hr [S1 S2 S3 S4 S5]. split.
  - intros k r' (r0 & y & Hk & ->)%(advance_inv R h r x k r' Hr). by apply apart3_st, S1.
  - intros k r' (r0 & y & Hk & ->)%(advance_inv R h r x k r' Hr). by apply laid_st, S2.
  - intros k r' (r0 & y & Hk & ->)%(advance_inv R h r x k r' Hr). exact (S3 k r0 Hk).
  - intros i Hi. rewrite (S4 i Hi). split.
    + intros (k & r0 & Hk & Ho). destruct (advance_fwd R h r x k r0 Hr Hk) as [y Hy]. by exists k, (set_st y r0).
    + intros (k & r' & Hk & Ho). apply (advance_inv R h r x k r' Hr) in Hk as (r0 & y & Hk & ->). by exists k, r0.
  - intros k k' r1 r2 i (r1' & y1 & H1 & ->)%(advance_inv R h r x k r1 Hr) (r2' & y2 & H2 & ->)%(advance_inv R h r x k' r2 Hr) O1 O2.
    by apply (S5 k k' r1' r2' i).
Qed.

(** What the shape depends on. *)
Lemma shape_ext d d' R :
  d_ops d' = d_ops d → d_info_b d' = d_info_b d → (∀ i, d_free d' i = d_free d i) →
  (∀ i, (i < ND)%nat → d_free d i = false → d_desc d' i = d_desc d i) → shape d R → shape d' R.
Proof.
  intros Eo Eb Ef Ed S. pose proof S as [S1 S2 S3 S4 S5]. split; try done.
  - intros h r Hr. assert (Hown : ∀ i, owns h r i → d_desc d' i = d_desc d i).
    { intros i Ho. destruct (shape_lt d R h r i S Hr Ho). by apply Ed. }
    destruct (S2 h r Hr) as [L0 L1 L2 L3 L4]. unfold owns in Hown. split; rewrite ?Hown, ?Eo, ?Eb by auto; done.
  - intros i Hi. rewrite Ef. by apply S4.
Qed.

Lemma same_reqs_dinv d d' R AQ TQ UQ av un : same_reqs d d' → dinv d R AQ TQ UQ av un → dinv d' R AQ TQ UQ av un.
Proof.
  intros [Sf Sd (x & f & E)] []. split; try (rewrite E; done); try done.
  apply (shape_ext d); try done; by rewrite E.
Qed.
