(* ===== verification/VirtioReq.v ===== *)
(** * VirtioReq: requests on their way through the device (src/kernel/virtio_disk.c)

    The device as the other party of the two rings, and what each step of the driver and of the
    device does to the invariant of VirtioRing.v. *)

From stdpp Require Import functions.
From S2P Require Import Prelude Mem Layout Kalloc Vm FsFormat Bio Log Fs Kern Sched Printf Console File Proc Virtio VirtioRing.

Local Open Scope Z_scope.

(** ** The device

    What the virtio specification says of a block device: it takes the chains of the available
    ring in order, serves them in any order, and reports each in the used ring once the data
    has been moved and the status written.  It works on blocks of [BSIZE] bytes, two sectors. *)

(** A request as the device reads it from a chain of descriptors. *)
Record dreq := mkDreq { q_write : bool; q_bn : Z; q_buf : nat; q_status : nat }.

Definition has (flags f : Z) : bool := negb (Z.land flags f =? 0).

(** The chain that starts at [h]: a header and, when writing, data to read, and then a status
    byte, with the data of a read before it, to write. *)
Definition chain (d : disk) (h : nat) : option dreq :=
  let x0 := d_desc d h in
  let x1 := d_desc d (Z.to_nat (vd_next x0)) in
  let x2 := d_desc d (Z.to_nat (vd_next x1)) in
  match vd_addr x0, vd_addr x1, vd_addr x2 with
  | DOp i, DData b, DStatus j =>
      let q := d_ops d i in
      let write := rq_type q =? VIRTIO_BLK_T_OUT in
      if ((vd_len x0 =? 16) && (vd_len x1 =? BSIZE) && (vd_len x2 =? 1))
        && (has (vd_flags x0) VRING_DESC_F_NEXT && has (vd_flags x1) VRING_DESC_F_NEXT && negb (has (vd_flags x2) VRING_DESC_F_NEXT))
        && (negb (has (vd_flags x0) VRING_DESC_F_WRITE) && has (vd_flags x2) VRING_DESC_F_WRITE)
        && eqb (has (vd_flags x1) VRING_DESC_F_WRITE) (negb write)
        && (write || (rq_type q =? VIRTIO_BLK_T_IN)) && (rq_sector q mod 2 =? 0)
      then Some (mkDreq write (rq_sector q / 2) b j)
      else None
  | _, _, _ => None
  end.

(** The chain at [h] reported as used. *)
Definition completed (h j : nat) (d : disk) : disk :=
  set_d_dev_idx (u16 (d_dev_idx d + 1)) (set_d_used_ring (<[d_dev_idx d mod NUM := Z.of_nat h]> (d_used_ring d))
    (set_d_info_status (<[j := 0]> (d_info_status d)) d)).

(** ** The steps of the driver and of the device *)

Lemma laid_chain d h r : laid d h r → chain d h = Some (mkDreq (a_w r) (a_bn r) (a_b r) h).
Proof.
  intros [L0 L1 L2 L3 _]. unfold chain. rewrite L0. cbn [vd_next vd_addr]. rewrite Nat2Z.id, L1. cbn [vd_next vd_addr]. rewrite Nat2Z.id, L2, L3.
  cbn [vd_next vd_addr vd_len vd_flags rq_type rq_sector].
  replace (2 * a_bn r) with (a_bn r * 2) by lia. rewrite Z.mod_mul, Z.div_mul by done. by destruct (a_w r).
Qed.

Lemma busy_advance (R : nat → option areq) h r x b : R h = Some r → a_st r ≠ Finished → x ≠ Finished →
  (∃ k r', <[h := Some (set_st x r)]> R k = Some r' ∧ a_b r' = b ∧ a_st r' ≠ Finished) ↔
  (∃ k r', R k = Some r' ∧ a_b r' = b ∧ a_st r' ≠ Finished).
Proof.
  intros Hr H1 H2. split; intros (k & r' & Hk & Hb & Hs); destruct (decide (k = h)) as [->|].
  - rewrite fn_lookup_insert in Hk. injection Hk as <-. by exists h, r.
  - rewrite fn_lookup_insert_ne in Hk by done. by exists k, r'.
  - exists h, (set_st x r). rewrite fn_lookup_insert. split_and!; [done | rewrite Hr in Hk; by injection Hk as -> | done].
  - exists k, r'. by rewrite fn_lookup_insert_ne.
Qed.

(** The device takes the next chain. *)
Lemma dinv_fetch d R h AQ TQ UQ av un r :
  R h = Some r → dinv d R (h :: AQ) TQ UQ av un →
  d_avail_ring d (av mod NUM) = Z.of_nat h ∧ dinv d (<[h := Some (set_st Taken r)]> R) AQ (TQ ++ [h]) UQ (av + 1) un.
Proof.
  intros Hr [S A T U Ra Ia Ru Iu Id St B]. destruct (ringq_pop _ _ _ _ Ra) as [Hh Ra'].
  assert (Hst : a_st r = Avail) by (destruct A as [_ A]; destruct (proj1 (A h)) as (r0 & ? & ?); [left | congruence]).
  split; [exact Hh|]. split; try done.
  - by apply shape_advance.
  - by apply (at_stage_remove R Avail h _ [] AQ); [intros ? [= <-]|].
  - eapply at_stage_add; [intros ??; congruence | done | done | done].
  - apply at_stage_other; [intros ??; congruence | intros ? [= <-]; done | done].
  - rewrite Ia. f_equal. cbn [length]. lia.
  - intros k r'. destruct (decide (k = h)) as [->|]; [rewrite fn_lookup_insert; by intros [= <-] | rewrite fn_lookup_insert_ne by done; apply St].
  - intros b. rewrite busy_advance; [apply B | done | by rewrite Hst | done].
Qed.

(** The device reports a chain it has served. *)
Lemma dinv_complete d R h AQ T1 T2 UQ av un r :
  R h = Some r → dinv d R AQ (T1 ++ h :: T2) UQ av un →
  dinv (completed h h d) (<[h := Some (set_st Used r)]> R) AQ (T1 ++ T2) (UQ ++ [h]) av un.
Proof.
  intros Hr [S A T U Ra Ia Ru Iu Id St B].
  assert (Hst : a_st r = Taken) by (destruct T as [_ T]; destruct (proj1 (T h)) as (r0 & ? & ?); [apply elem_of_app; right; left | congruence]).
  assert (HU : at_stage (<[h := Some (set_st Used r)]> R) Used (UQ ++ [h])) by (eapply at_stage_add; [intros ??; congruence | done | done | done]).
  pose proof (shape_advance d R h r Used Hr S) as S'. pose proof (stage_lt _ _ _ _ S' HU) as Hlen. rewrite length_app in Hlen. cbn in Hlen.
  split; try done.
  - by apply (shape_ext d).
  - apply at_stage_other; [intros ??; congruence | by intros ? [= <-] | done].
  - by apply at_stage_remove; [intros ? [= <-]|].
  - cbn. rewrite Id, u16_mod. apply ringq_push; [lia | done].
  - cbn. rewrite Id, u16_succ, length_app. f_equal. cbn. lia.
  - cbn. intros k r'. destruct (decide (k = h)) as [->|]; [by rewrite !fn_lookup_insert | rewrite !fn_lookup_insert_ne by done; apply St].
  - cbn. intros b. rewrite busy_advance; [apply B | done | by rewrite Hst | done].
Qed.

(** The driver sees the next entry of the used ring. *)
Lemma dinv_seen d R h AQ TQ UQ av un r :
  R h = Some r → (∀ k r', R k = Some r' → a_b r' = a_b r → k = h) → dinv d R AQ TQ (h :: UQ) av un →
  dinv (set_d_used_idx (u16 (d_used_idx d + 1)) (set_d_buf_disk (<[a_b r := false]> (d_buf_disk d)) d))
    (<[h := Some (set_st Finished r)]> R) AQ TQ UQ av (un + 1).
Proof.
  intros Hr Hub [S A T U Ra Ia Ru Iu Id St B]. destruct (ringq_pop _ _ _ _ Ru) as [Hh Ru'].
  assert (Hst : a_st r = Used) by (destruct U as [_ U]; destruct (proj1 (U h)) as (r0 & ? & ?); [left | congruence]).
  split; try done.
  - apply (shape_ext d); try done. by apply shape_advance.
  - apply at_stage_other; [intros ??; congruence | by intros ? [= <-] | done].
  - apply at_stage_other; [intros ??; congruence | by intros ? [= <-] | done].
  - by apply (at_stage_remove R Used h _ [] UQ); [intros ? [= <-]|].
  - cbn. by rewrite Iu, u16_succ.
  - cbn. rewrite Id. f_equal. cbn [length]. lia.
  - cbn. intros k r'. destruct (decide (k = h)) as [->|]; [rewrite fn_lookup_insert; by intros [= <-] | rewrite fn_lookup_insert_ne by done; apply St].
  - cbn. intros b. destruct (decide (b = a_b r)) as [->|Hb].
    + rewrite fn_lookup_insert. split; [done|]. intros (k & r' & Hk & Eb & Hs). exfalso. destruct (decide (k = h)) as [->|Hk'].
      * rewrite fn_lookup_insert in Hk. by injection Hk as <-.
      * rewrite fn_lookup_insert_ne in Hk by done. by apply Hk', (Hub k r').
    + rewrite fn_lookup_insert_ne by done. rewrite (B b). split; intros (k & r' & Hk & Eb & Hs); exists k, r'; (split_and!; [|done..]).
      * rewrite fn_lookup_insert_ne; [done|]. intros ->. congruence.
      * destruct (decide (k = h)) as [->|]; [rewrite fn_lookup_insert in Hk; by injection Hk as <- | by rewrite fn_lookup_insert_ne in Hk].
Qed.

(** A finished request gives its descriptors back. *)
Definition released (h : nat) (r : areq) (d : disk) : disk :=
  clear_list [h; a_i1 r; a_i2 r] (set_d_info_b (<[h := None]> (d_info_b d)) d).

Lemma owns_list h r i : owns h r i ↔ i ∈ [h; a_i1 r; a_i2 r].
Proof. unfold owns. rewrite !elem_of_cons, elem_of_nil. tauto. Qed.

Lemma shape_release d R h r : R h = Some r → shape d R → shape (released h r d) (<[h := None]> R).
Proof.
  intros Hr S. pose proof S as [S1 S2 S3 S4 S5].
  assert (Hinv : ∀ k r', <[h := None]> R k = Some r' → k ≠ h ∧ R k = Some r').
  { intros k r'. destruct (decide (k = h)) as [->|]; [by rewrite fn_lookup_insert | by rewrite fn_lookup_insert_ne]. }
  assert (Hout : ∀ k r' i, k ≠ h → R k = Some r' → owns k r' i → i ∉ [h; a_i1 r; a_i2 r]).
  { intros k r' i Hk Hr' Ho Hi%owns_list. by apply Hk, (S5 k h r' r i). }
  split.
  - intros k r' [_ Hk]%Hinv. by apply S1.
  - intros k r' [Hne Hk]%Hinv. destruct (S2 k r' Hk) as [L0 L1 L2 L3 L4]. unfold released.
    split; [rewrite clear_list_desc by (apply (Hout k r'); unfold owns; auto); done.. | done |].
    cbn. by rewrite fn_lookup_insert_ne.
  - intros k r' [_ Hk]%Hinv. by apply (S3 k).
  - intros i Hi. unfold released. rewrite clear_list_free. destruct (decide (i ∈ _)) as [Hin|Hin].
    + split; [done|]. intros (k & r' & [Hne Hk]%Hinv & Ho). by destruct (Hout k r' i Hne Hk Ho).
    + cbn [d_free set_d_info_b]. rewrite (S4 i Hi). split; intros (k & r' & Hk & Ho).
      * exists k, r'. split; [|done]. rewrite fn_lookup_insert_ne; [done|]. intros ->. apply Hin, owns_list. congruence.
      * apply Hinv in Hk as [_ Hk]. by exists k, r'.
  - intros k k' r1 r2 i [_ H1]%Hinv [_ H2]%Hinv. by apply (S5 k k').
Qed.

Lemma dinv_release d R h AQ TQ UQ av un r :
  R h = Some r → a_st r = Finished → dinv d R AQ TQ UQ av un → dinv (released h r d) (<[h := None]> R) AQ TQ UQ av un.
Proof.
  intros Hr Hst [S A T U Ra Ia Ru Iu Id St B]. split; try done.
  1: by apply shape_release.
  1-3: by apply at_stage_other; [intros ??; congruence | |].
  - intros k r'. destruct (decide (k = h)) as [->|]; [by rewrite fn_lookup_insert | rewrite fn_lookup_insert_ne by done; apply St].
  - intros b. cbn. rewrite (B b). split; intros (k & r' & Hk & Eb & Hs); exists k, r'; (split_and!; [|done..]).
    + rewrite fn_lookup_insert_ne; [done|]. intros ->. congruence.
    + destruct (decide (k = h)) as [->|]; [by rewrite fn_lookup_insert in Hk | by rewrite fn_lookup_insert_ne in Hk].
Qed.

(** A new request. *)
Definition submitted (b : nat) (sector : Z) (write : bool) (i0 i1 i2 : nat) (d : disk) : disk :=
  mkDisk
    (<[i2 := mkDesc (DStatus i0) 1 VRING_DESC_F_WRITE 0]>
      (<[i1 := mkDesc (DData b) BSIZE (Z.lor (if write then 0 else VRING_DESC_F_WRITE) VRING_DESC_F_NEXT) (Z.of_nat i2)]>
        (<[i0 := mkDesc (DOp i0) 16 VRING_DESC_F_NEXT (Z.of_nat i1)]> (d_desc d))))
    (u16 (d_avail_idx d + 1)) (<[d_avail_idx d mod NUM := Z.of_nat i0]> (d_avail_ring d))
    (d_dev_idx d) (d_used_ring d) (d_free d) (d_used_idx d)
    (<[i0 := Some b]> (d_info_b d)) (<[i0 := 0xff]> (d_info_status d))
    (<[i0 := mkReq (if write then VIRTIO_BLK_T_OUT else VIRTIO_BLK_T_IN) 0 sector]> (d_ops d))
    (<[b := true]> (d_buf_disk d)) (<[VIRTIO_MMIO_QUEUE_NOTIFY := u32 0]> (d_regs d)).

Lemma submit_run b sector write i0 i1 i2 s :
  submit b sector write (Z.of_nat i0) (Z.of_nat i1) (Z.of_nat i2) s = Ok (tt, set_kn_disk (submitted b sector write i0 i1 i2 (kn_disk s)) s).
Proof. unfold submit, upd_disk, wr_reg, upd_disk. cbv zeta. rewrite !Nat2Z.id. done. Qed.

Lemma shape_submit d R b bn write i0 i1 i2 p c :
  avail d [i0; i1; i2] → 0 ≤ bn < 2 ^ 31 → shape d R →
  R i0 = None ∧
  shape (submitted b (2 * bn) write i0 i1 i2 (mark_list [i0; i1; i2] d)) (<[i0 := Some (mkAreq p i1 i2 b bn write c Avail)]> R).
Proof.
  intros [Hnd Hl] Hbn S. pose proof S as [S1 S2 S3 S4 S5]. rewrite Forall_forall in Hl.
  assert (Hout : ∀ k r i, R k = Some r → owns k r i → i ∉ [i0; i1; i2]).
  { intros k r i Hk Ho Hi. destruct (shape_lt d R k r i S Hk Ho) as [_ Hf]. destruct (Hl i Hi). congruence. }
  assert (H0 : R i0 = None). { destruct (R i0) as [r|] eqn:E; [|done]. destruct (Hout i0 r i0 E); [by left | left]. }
  split; [done|]. set (r := mkAreq p i1 i2 b bn write c Avail). set (dm := mark_list _ d).
  assert (Hinv : ∀ k r', <[i0 := Some r]> R k = Some r' → (k = i0 ∧ r' = r) ∨ (k ≠ i0 ∧ R k = Some r')).
  { intros k r'. destruct (decide (k = i0)) as [->|]; [rewrite fn_lookup_insert; intros [= <-]; auto | rewrite fn_lookup_insert_ne by done; auto]. }
  apply NoDup_cons in Hnd as [N0 Hnd]. apply NoDup_cons in Hnd as [N1 _].
  assert (H01 : i0 ≠ i1) by set_solver. assert (H02 : i0 ≠ i2) by set_solver. assert (H12 : i1 ≠ i2) by set_solver.
  split.
  - intros k r' [[-> ->]|[_ Hk]]%Hinv; [|by apply S1]. split; [intros i Ho%owns_list; by apply Hl | done..].
  - intros k r' [[-> ->]|[Hne Hk]]%Hinv.
    + split; cbn; rewrite ?fn_lookup_insert, ?fn_lookup_insert_ne, ?fn_lookup_insert by done; done.
    + destruct (S2 k r' Hk) as [L0 L1 L2 L3 L4]. assert (Ho : ∀ i, owns k r' i → d_desc (submitted b (2 * bn) write i0 i1 i2 dm) i = d_desc d i).
      { intros i Hi%(Hout k r' i Hk). cbn. rewrite !fn_lookup_insert_ne by set_solver. done. }
      unfold owns in Ho. split; rewrite ?Ho by auto; try done; cbn; by rewrite fn_lookup_insert_ne.
  - intros k r' [[-> ->]|[_ Hk]]%Hinv; [done | by apply (S3 k)].
  - intros i Hi. unfold dm. cbn [submitted d_free]. rewrite mark_list_free. destruct (decide (i ∈ _)) as [Hin|Hin].
    + split; [|done]. intros _. exists i0, r. rewrite fn_lookup_insert. split; [done | by apply owns_list].
    + rewrite (S4 i Hi). split; intros (k & r' & Hk & Ho).
      * exists k, r'. split; [|done]. rewrite fn_lookup_insert_ne; [done | congruence].
      * apply Hinv in Hk as [[-> ->]|[_ Hk]]; [by apply owns_list in Ho | by exists k, r'].
  - intros k k' r1 r2 i [[-> ->]|[_ H1]]%Hinv [[-> ->]|[_ H2]]%Hinv O1 O2; [done | | | by apply (S5 k k' r1 r2 i)].
    + apply owns_list in O1. by destruct (Hout k' r2 i H2 O2).
    + apply owns_list in O2. by destruct (Hout k r1 i H1 O1).
Qed.

Lemma dinv_submit d R AQ TQ UQ av un b bn write i0 i1 i2 p c :
  avail d [i0; i1; i2] → 0 ≤ bn < 2 ^ 31 → dinv d R AQ TQ UQ av un →
  R i0 = None ∧
  dinv (submitted b (2 * bn) write i0 i1 i2 (mark_list [i0; i1; i2] d))
    (<[i0 := Some (mkAreq p i1 i2 b bn write c Avail)]> R) (AQ ++ [i0]) TQ UQ av un.
Proof.
  intros Ha Hbn [S A T U Ra Ia Ru Iu Id St B]. destruct (shape_submit d R b bn write i0 i1 i2 p c Ha Hbn S) as [H0 S'].
  split; [done|]. set (r := mkAreq p i1 i2 b bn write c Avail) in *.
  assert (A' : at_stage (<[i0 := Some r]> R) Avail (AQ ++ [i0])) by (eapply at_stage_add; [intros ??; congruence | done | done | done]).
  pose proof (stage_lt _ _ _ _ S' A') as Hlen. rewrite length_app in Hlen. cbn [length] in Hlen.
  split; try done.
  1-2: by apply at_stage_other; [intros ??; congruence | intros ? [= <-] |].
  - cbn [submitted d_avail_ring mark_list marked d_avail_idx set_d_free]. rewrite Ia, u16_mod. apply ringq_push; [lia | done].
  - cbn [submitted d_avail_idx mark_list marked set_d_free]. rewrite Ia, u16_succ, length_app. f_equal. cbn [length]. lia.
  - intros k r'. destruct (decide (k = i0)) as [->|]; [rewrite fn_lookup_insert; by intros [= <-] | rewrite fn_lookup_insert_ne by done; cbn; rewrite fn_lookup_insert_ne by done; apply St].
  - intros b'. cbn [submitted d_buf_disk mark_list marked set_d_free]. destruct (decide (b' = b)) as [->|Hb].
    + rewrite fn_lookup_insert. split; [|done]. intros _. exists i0, r. by rewrite fn_lookup_insert.
    + rewrite fn_lookup_insert_ne, (B b') by done. split; intros (k & r' & Hk & Eb & Hs); exists k, r'; (split_and!; [|done..]).
      * rewrite fn_lookup_insert_ne; [done | congruence].
      * destruct (decide (k = i0)) as [->|]; [|by rewrite fn_lookup_insert_ne in Hk]. rewrite fn_lookup_insert in Hk. injection Hk as <-. by destruct Hb.
Qed.
