(* ===== verification/VirtioSpec.v ===== *)
(** * VirtioSpec: the disk driver is a synchronous store of blocks
    (src/kernel/virtio_disk.c)

    Processes in [virtio_disk_rw], the device and its interrupts, interleaved.  However they
    interleave, a call returns only when its block has been transferred, nothing panics, and no
    process sleeps through the event it waits for: the driver does what the buffer cache
    (Bio.v) takes it to do. *)

From stdpp Require Import functions.
From S2P Require Import Prelude Mem Layout Kalloc Vm FsFormat Bio Log Fs Kern Sched Printf Console File Proc ProcExample Virtio VirtioRing VirtioReq.

Local Open Scope Z_scope.

(** ** The machine *)

(** Where a process is: not in the driver, or asleep in [virtio_disk_rw(b, write)] for block
    [bn].  [c] is what the call has to transfer: the buffer's contents when it began, or the
    block's. *)
Inductive thread := Out | In (b : nat) (bn : Z) (write : bool) (c : block) (w : rw_wait).

(** The kernel, the data of the buffers, the blocks on the disk, how many chains the device has
    taken and which of them it works on, and the processes. *)
Record vmach := mkV {
  v_k : kernel; v_data : nat → block; v_store : Z → block; v_av : Z; v_taken : list nat; v_thr : nat → thread }.

Definition after (b : nat) (bn : Z) (write : bool) (c : block) (r : step rw_wait unit) : thread :=
  match r with Done _ => Out | Blocked w => In b bn write c w end.

(** No process but [p] uses the buffer or the block. *)
Definition exclusive (thr : nat → thread) (p b : nat) (bn : Z) : Prop :=
  ∀ q b' bn' w c x, q ≠ p → thr q = In b' bn' w c x → b' ≠ b ∧ bn' ≠ bn.

Definition running (k : kernel) (p : nat) : Prop := (p < NP)%nat ∧ p_state (kn_procs k p) = RUNNING.

(** The process holds the buffer's lock, and the cache has one buffer for a block (Bio.v), so
    that calls in progress differ in both. *)
Inductive vstep : vmach → vmach → Prop :=
| v_start p b bn write r k k' data store av tk thr :
    thr p = Out → running k p → 0 ≤ bn < 2 ^ 31 → exclusive thr p b bn →
    virtio_disk_rw_start p b bn write k = Ok (r, k') →
    vstep (mkV k data store av tk thr)
      (mkV k' data store av tk (<[p := after b bn write (if write then data b else store bn) r]> thr))
| v_resume p b bn write c w r k k' data store av tk thr :
    thr p = In b bn write c w → running k p →
    virtio_disk_rw_resume p b bn write w k = Ok (r, k') →
    vstep (mkV k data store av tk thr) (mkV k' data store av tk (<[p := after b bn write c r]> thr))
| v_intr cur k k' data store av tk thr :
    p_state (kn_procs k cur) ≠ SLEEPING → virtio_disk_intr cur k = Ok (tt, k') →
    vstep (mkV k data store av tk thr) (mkV k' data store av tk thr)
| v_fetch k data store av tk thr :
    u16 av ≠ d_avail_idx (kn_disk k) →
    vstep (mkV k data store av tk thr)
      (mkV k data store (av + 1) (tk ++ [Z.to_nat (d_avail_ring (kn_disk k) (av mod NUM))]) thr)
| v_complete h q t1 t2 k data store av thr :
    chain (kn_disk k) h = Some q →
    vstep (mkV k data store av (t1 ++ h :: t2) thr)
      (mkV (set_kn_disk (completed h (q_status q) (kn_disk k)) k)
        (if q_write q then data else <[q_buf q := store (q_bn q)]> data)
        (if q_write q then <[q_bn q := data (q_buf q)]> store else store) av (t1 ++ t2) thr)
| v_edit b x k data store av tk thr :
    (∀ q b' bn w c y, thr q = In b' bn w c y → b' ≠ b) →
    vstep (mkV k data store av tk thr) (mkV k (<[b := x]> data) store av tk thr)
| v_other k k' data store av tk thr :
    kn_disk k' = kn_disk k →
    (∀ p, thr p ≠ Out → p_state (kn_procs k' p) = SLEEPING →
       p_state (kn_procs k p) = SLEEPING ∧ p_chan (kn_procs k' p) = p_chan (kn_procs k p)) →
    vstep (mkV k data store av tk thr) (mkV k' data store av tk thr).

(** The driver once it is initialised. *)
Record idle (v : vmach) : Prop := {
  id_free i : (i < ND)%nat → d_free (kn_disk (v_k v)) i = true;
  id_avail : d_avail_idx (kn_disk (v_k v)) = 0;
  id_dev : d_dev_idx (kn_disk (v_k v)) = 0;
  id_used : d_used_idx (kn_disk (v_k v)) = 0;
  id_busy b : d_buf_disk (kn_disk (v_k v)) b = false;
  id_av : v_av v = 0;
  id_taken : v_taken v = [];
  id_thr p : v_thr v p = Out;
}.

Definition reached (v : vmach) : Prop := ∃ v0, idle v0 ∧ rtc vstep v0 v.

(** ** The invariant *)

(** Why a process that sleeps does so. *)
Definition waits_for (k : kernel) (p b : nat) (x : rw_wait) : Prop :=
  match x with
  | WaitDesc => p_chan (kn_procs k p) = Some ChDesc ∧ (nfree (d_free (kn_disk k)) < 3)%nat
  | WaitDone _ => p_chan (kn_procs k p) = Some (ChBuf b) ∧ d_buf_disk (kn_disk k) b = true
  end.

(** The contents of a request, before and after its transfer. *)
Definition moved (data : nat → block) (store : Z → block) (r : areq) : Prop :=
  match a_st r with
  | Avail | Taken => a_c r = if a_w r then data (a_b r) else store (a_bn r)
  | Used | Finished => data (a_b r) = a_c r ∧ store (a_bn r) = a_c r
  end.

Record tinv (thr : nat → thread) (R : nat → option areq) (data : nat → block) (store : Z → block) : Prop := {
  ti_req h r : R h = Some r → thr (a_p r) = In (a_b r) (a_bn r) (a_w r) (a_c r) (WaitDone (Z.of_nat h));
  ti_done p b bn w c i : thr p = In b bn w c (WaitDone i) → ∃ h r, i = Z.of_nat h ∧ R h = Some r ∧ a_p r = p;
  ti_lt p : thr p ≠ Out → (p < NP)%nat;
  ti_apart p b bn w c x : thr p = In b bn w c x → exclusive thr p b bn;
  ti_desc p b bn w c : thr p = In b bn w c WaitDesc → 0 ≤ bn < 2 ^ 31 ∧ c = if w then data b else store bn;
  ti_data h r : R h = Some r → moved data store r;
}.

Definition sinv (k : kernel) (thr : nat → thread) : Prop :=
  ∀ p b bn w c x, thr p = In b bn w c x → p_state (kn_procs k p) = SLEEPING → waits_for k p b x.

Definition vinv (v : vmach) : Prop :=
  ∃ R AQ UQ un, dinv (kn_disk (v_k v)) R AQ (v_taken v) UQ (v_av v) un ∧ tinv (v_thr v) R (v_data v) (v_store v) ∧ sinv (v_k v) (v_thr v).

Lemma idle_inv v : idle v → vinv v.
Proof.
  intros [F A D U B V T Th]. exists (λ _, None), [], [], 0. rewrite V, T. split_and!.
  - split; try (by split; [constructor | intros h; rewrite elem_of_nil; naive_solver]); try done.
    + split; try done. intros i Hi. rewrite F by done. naive_solver.
    + intros b. rewrite B. naive_solver.
  - split; try done; intros p; try intros b bn w c; intros; congruence.
  - intros p b bn w c x H. by rewrite Th in H.
Qed.

(** Two requests differ in buffer and block. *)
Lemma req_unique thr R data store h r h' r' :
  tinv thr R data store → R h = Some r → R h' = Some r' → (a_b r' = a_b r ∨ a_bn r' = a_bn r) → h' = h.
Proof.
  intros [T1 _ _ T4 _ _] Hr Hr' Heq. pose proof (T1 h r Hr) as E. pose proof (T1 h' r' Hr') as E'.
  destruct (decide (a_p r' = a_p r)) as [Ep|Hne].
  - rewrite Ep, E in E'. injection E' as _ _ _ _ ?. lia.
  - destruct (T4 _ _ _ _ _ _ E _ _ _ _ _ _ Hne E') as [? ?]. naive_solver.
Qed.

(** ** The device and the rest of the kernel *)

Lemma vinv_fetch k data store av tk thr :
  u16 av ≠ d_avail_idx (kn_disk k) → vinv (mkV k data store av tk thr) →
  vinv (mkV k data store (av + 1) (tk ++ [Z.to_nat (d_avail_ring (kn_disk k) (av mod NUM))]) thr).
Proof.
  intros Hne (R & AQ & UQ & un & D & T & S). cbn in *. destruct AQ as [|h AQ].
  { destruct Hne. rewrite (di_aidx _ _ _ _ _ _ _ D). f_equal. cbn. lia. }
  destruct (proj1 (proj2 (di_avail _ _ _ _ _ _ _ D) h)) as (r & Hr & Hst); [left|].
  destruct (dinv_fetch _ R h AQ tk UQ av un r Hr D) as [-> D']. rewrite Nat2Z.id.
  exists (<[h := Some (set_st Taken r)]> R), AQ, UQ, un. split_and!; [exact D' | | exact S].
  destruct T as [T1 T2 T3 T4 T5 T6]. split; try done.
  - intros k' r' (r0 & y & Hk & ->)%(advance_inv R h r Taken k' r' Hr). exact (T1 k' r0 Hk).
  - intros p b bn w c i (k' & r0 & -> & Hk & <-)%T2. destruct (advance_fwd R h r Taken k' r0 Hr Hk) as [y Hy]. by exists k', (set_st y r0).
  - intros k' r'. destruct (decide (k' = h)) as [->|]; [|rewrite fn_lookup_insert_ne by done; apply T6].
    rewrite fn_lookup_insert. intros [= <-]. specialize (T6 h r Hr). unfold moved in *. rewrite Hst in T6. done.
Qed.

Lemma vinv_complete h q t1 t2 k data store av thr :
  chain (kn_disk k) h = Some q → vinv (mkV k data store av (t1 ++ h :: t2) thr) →
  vinv (mkV (set_kn_disk (completed h (q_status q) (kn_disk k)) k)
    (if q_write q then data else <[q_buf q := store (q_bn q)]> data)
    (if q_write q then <[q_bn q := data (q_buf q)]> store else store) av (t1 ++ t2) thr).
Proof.
  intros Hq (R & AQ & UQ & un & D & T & S). cbn [v_k v_data v_store v_av v_taken v_thr] in *.
  destruct (proj1 (proj2 (di_taken _ _ _ _ _ _ _ D) h)) as (r & Hr & Hst); [apply elem_of_app; right; left|].
  rewrite (laid_chain _ _ r (sh_laid _ _ (di_shape _ _ _ _ _ _ _ D) h r Hr)) in Hq. injection Hq as <-. cbn [q_write q_bn q_buf q_status].
  exists (<[h := Some (set_st Used r)]> R), AQ, (UQ ++ [h]), un. cbn [v_k v_data v_store v_av v_taken v_thr kn_disk set_kn_disk].
  split_and!; [by apply dinv_complete | | exact S].
  assert (Hu : ∀ k' r', k' ≠ h → R k' = Some r' → a_b r' ≠ a_b r ∧ a_bn r' ≠ a_bn r).
  { intros k' r' Hne Hk'. split; intros E; apply Hne; eapply (req_unique thr R data store h r k' r' T); eauto. }
  pose proof (ti_data _ _ _ _ T h r Hr) as Hm. unfold moved in Hm. rewrite Hst in Hm. destruct T as [T1 T2 T3 T4 T5 T6]. split; try done.
  - intros k' r' (r0 & y & Hk & ->)%(advance_inv R h r Used k' r' Hr). exact (T1 k' r0 Hk).
  - intros p b bn w c i (k' & r0 & -> & Hk & <-)%T2. destruct (advance_fwd R h r Used k' r0 Hr Hk) as [y Hy]. by exists k', (set_st y r0).
  - intros p b bn w c Hp. destruct (T5 p b bn w c Hp) as [Hbn ->]. split; [done|].
    assert (Hpr : a_p r ≠ p). { intros Ep. pose proof (T1 h r Hr) as E. rewrite Ep, Hp in E. done. }
    destruct (T4 _ _ _ _ _ _ Hp _ _ _ _ _ _ Hpr (T1 h r Hr)) as [Hb Hn].
    destruct (a_w r), w; rewrite ?fn_lookup_insert_ne by done; done.
  - intros k' r'. destruct (decide (k' = h)) as [->|Hne].
    + rewrite fn_lookup_insert. intros [= <-]. unfold moved. cbn. destruct (a_w r); rewrite ?fn_lookup_insert; done.
    + rewrite fn_lookup_insert_ne by done. intros Hk'. specialize (T6 k' r' Hk'). destruct (Hu k' r' Hne Hk') as [Hb Hn].
      unfold moved in *. destruct (a_w r), (a_st r'), (a_w r'); rewrite ?fn_lookup_insert_ne by done; done.
Qed.

Lemma vinv_edit b x k data store av tk thr :
  (∀ q b' bn w c y, thr q = In b' bn w c y → b' ≠ b) → vinv (mkV k data store av tk thr) → vinv (mkV k (<[b := x]> data) store av tk thr).
Proof.
  intros Hb (R & AQ & UQ & un & D & T & S). exists R, AQ, UQ, un. split_and!; [exact D | | exact S]. destruct T as [T1 T2 T3 T4 T5 T6]. split; try done.
  - intros p b' bn w c Hp. pose proof (Hb _ _ _ _ _ _ Hp) as Hne. destruct (T5 p b' bn w c Hp) as [? ->]. split; [done|]. cbn. by rewrite fn_lookup_insert_ne.
  - intros h r Hr. pose proof (Hb _ _ _ _ _ _ (T1 h r Hr)) as Hne. specialize (T6 h r Hr). unfold moved in *. cbn in *.
    by rewrite fn_lookup_insert_ne.
Qed.

Lemma vinv_other k k' data store av tk thr :
  kn_disk k' = kn_disk k →
  (∀ p, thr p ≠ Out → p_state (kn_procs k' p) = SLEEPING →
     p_state (kn_procs k p) = SLEEPING ∧ p_chan (kn_procs k' p) = p_chan (kn_procs k p)) →
  vinv (mkV k data store av tk thr) → vinv (mkV k' data store av tk thr).
Proof.
  intros Hd Hp (R & AQ & UQ & un & D & T & S). exists R, AQ, UQ, un. cbn in *. rewrite Hd. split_and!; [done..|].
  intros p b bn w c x E Hs. destruct (Hp p) as [Hs' Hc]; [congruence | done|]. specialize (S p b bn w c x E Hs'). unfold waits_for in *. by rewrite Hd, Hc.
Qed.

(** ** The driver *)

Lemma exclusive_set thr p b bn w c x :
  (∀ q b' bn' w' c' x', thr q = In b' bn' w' c' x' → exclusive thr q b' bn') → exclusive thr p b bn →
  ∀ q b' bn' w' c' x', <[p := In b bn w c x]> thr q = In b' bn' w' c' x' → exclusive (<[p := In b bn w c x]> thr) q b' bn'.
Proof.
  intros Hall Hp q b' bn' w' c' x' Hq q2 b2 bn2 w2 c2 x2 Hne Hq2.
  destruct (decide (q = p)) as [->|]; [rewrite fn_lookup_insert in Hq; injection Hq as <- <- _ _ _; rewrite fn_lookup_insert_ne in Hq2 by done; by eapply Hp|].
  rewrite fn_lookup_insert_ne in Hq by done. destruct (decide (q2 = p)) as [->|].
  - rewrite fn_lookup_insert in Hq2. injection Hq2 as <- <- _ _ _. destruct (Hp q b' bn' w' c' x') as [? ?]; [done | done | split; by apply not_eq_sym].
  - rewrite fn_lookup_insert_ne in Hq2 by done. by eapply Hall.
Qed.

Section thread.
  Context (thr : nat → thread) (R : nat → option areq) (data : nat → block) (store : Z → block) (p b : nat) (bn : Z) (w : bool) (c : block).
  Context (T : tinv thr R data store) (Hlt : (p < NP)%nat).

(** [p] is about to ask for descriptors. *)
Definition asking : Prop :=
  (thr p = Out ∨ thr p = In b bn w c WaitDesc) ∧ exclusive thr p b bn ∧ 0 ≤ bn < 2 ^ 31 ∧ c = if w then data b else store bn.

Lemma asking_fresh : asking → ∀ h r, R h = Some r → a_p r ≠ p.
Proof. intros [H _] h r Hr E. pose proof (ti_req _ _ _ _ T h r Hr) as E'. rewrite E in E'. destruct H; congruence. Qed.

Lemma tinv_wait : asking → tinv (<[p := In b bn w c WaitDesc]> thr) R data store.
Proof.
  intros Ha. pose proof (asking_fresh Ha) as Hf. destruct Ha as (Hp & He & Hbn & Hc). destruct T as [T1 T2 T3 T4 T5 T6]. split; try done.
  - intros h r Hr. rewrite fn_lookup_insert_ne; [by apply T1 | by apply not_eq_sym, (Hf h)].
  - intros q b' bn' w' c' i. destruct (decide (q = p)) as [->|]; [by rewrite fn_lookup_insert | rewrite fn_lookup_insert_ne by done; apply T2].
  - intros q. destruct (decide (q = p)) as [->|]; [done | rewrite fn_lookup_insert_ne by done; apply T3].
  - by apply exclusive_set.
  - intros q b' bn' w' c'. destruct (decide (q = p)) as [->|]; [rewrite fn_lookup_insert; by intros [= <- <- <- <-] | rewrite fn_lookup_insert_ne by done; apply T5].
Qed.

Lemma tinv_add h i1 i2 : asking → R h = None →
  tinv (<[p := In b bn w c (WaitDone (Z.of_nat h))]> thr) (<[h := Some (mkAreq p i1 i2 b bn w c Avail)]> R) data store.
Proof.
  intros Ha HR. pose proof (asking_fresh Ha) as Hf. destruct Ha as (Hp & He & Hbn & Hc). destruct T as [T1 T2 T3 T4 T5 T6]. split; try done.
  - intros k r. destruct (decide (k = h)) as [->|]; [rewrite fn_lookup_insert; intros [= <-]; cbn; by rewrite fn_lookup_insert|].
    rewrite fn_lookup_insert_ne by done. intros Hr. rewrite fn_lookup_insert_ne; [by apply T1 | by apply not_eq_sym, (Hf k)].
  - intros q b' bn' w' c' i. destruct (decide (q = p)) as [->|].
    + rewrite fn_lookup_insert. intros [= _ _ _ _ <-]. exists h, (mkAreq p i1 i2 b bn w c Avail). by rewrite fn_lookup_insert.
    + rewrite fn_lookup_insert_ne by done. intros (k & r & -> & Hk & <-)%T2. exists k, r. rewrite fn_lookup_insert_ne; [done | congruence].
  - intros q. destruct (decide (q = p)) as [->|]; [done | rewrite fn_lookup_insert_ne by done; apply T3].
  - by apply exclusive_set.
  - intros q b' bn' w' c'. destruct (decide (q = p)) as [->|]; [by rewrite fn_lookup_insert | rewrite fn_lookup_insert_ne by done; apply T5].
  - intros k r. destruct (decide (k = h)) as [->|]; [rewrite fn_lookup_insert; by intros [= <-] | rewrite fn_lookup_insert_ne by done; apply T6].
Qed.

Lemma tinv_leave h r : R h = Some r → a_p r = p → tinv (<[p := Out]> thr) (<[h := None]> R) data store.
Proof.
  intros Hr Hp. destruct T as [T1 T2 T3 T4 T5 T6].
  assert (Hin : ∀ q t, t ≠ Out → <[p := Out]> thr q = t → q ≠ p ∧ thr q = t).
  { intros q t Ht. destruct (decide (q = p)) as [->|]; [rewrite fn_lookup_insert; congruence | by rewrite fn_lookup_insert_ne]. }
  assert (HR : ∀ k r', <[h := None]> R k = Some r' → k ≠ h ∧ R k = Some r').
  { intros k r'. destruct (decide (k = h)) as [->|]; [by rewrite fn_lookup_insert | by rewrite fn_lookup_insert_ne]. }
  split.
  - intros k r' [Hk Hr']%HR. rewrite fn_lookup_insert_ne; [by apply T1|]. intros E. apply Hk.
    pose proof (T1 h r Hr) as E1. pose proof (T1 k r' Hr') as E2. rewrite <- E, <- Hp, E1 in E2. injection E2 as _ _ _ _ ?. lia.
  - intros q b' bn' w' c' i [Hq (k & r' & -> & Hk & <-)%T2]%Hin; [|done]. exists k, r'. rewrite fn_lookup_insert_ne; [done | congruence].
  - intros q. destruct (decide (q = p)) as [->|]; [done | rewrite fn_lookup_insert_ne by done; apply T3].
  - intros q b' bn' w' c' x [Hq E]%Hin q2 b2 bn2 w2 c2 x2 Hne [Hq2 E2]%Hin; [|done..]. by eapply T4.
  - intros q b' bn' w' c' [Hq E]%Hin; [|done]. by eapply T5.
  - intros k r' [Hk Hr']%HR. by apply (T6 k).
Qed.
End thread.

Lemma tinv_ext thr thr' R data store : (∀ q, thr' q = thr q) → tinv thr R data store → tinv thr' R data store.
Proof.
  intros E [T1 T2 T3 T4 T5 T6]. split; intros *; rewrite ?E; eauto. intros Hq q2 *. rewrite E. by eapply T4.
Qed.
Lemma vinv_ext k data store av tk thr thr' :
  (∀ q, thr' q = thr q) → vinv (mkV k data store av tk thr) → vinv (mkV k data store av tk thr').
Proof.
  intros E (R & AQ & UQ & un & D & T & S). exists R, AQ, UQ, un. split_and!; [exact D | by eapply tinv_ext|].
  intros p b bn w c x. cbn. rewrite E. apply S.
Qed.
Lemma insert_same (thr : nat → thread) p t q : thr p = t → <[p := t]> thr q = thr q.
Proof. intros <-. destruct (decide (q = p)) as [->|]; [by rewrite fn_lookup_insert | by rewrite fn_lookup_insert_ne]. Qed.
Lemma insert_twice (thr : nat → thread) p t u q : <[p := t]> thr q = <[p := t]> (<[p := u]> thr) q.
Proof. destruct (decide (q = p)) as [->|]; [by rewrite !fn_lookup_insert | by rewrite !fn_lookup_insert_ne]. Qed.

(** [sinv] when [p] goes to [t] and the others may have been woken. *)
Lemma sinv_set k k' thr p t :
  sinv k thr → calm p k k' →
  (∀ q b bn w c x, q ≠ p → thr q = In b bn w c x → p_state (kn_procs k' q) = SLEEPING → waits_for k q b x → waits_for k' q b x) →
  (∀ b bn w c x, t = In b bn w c x → p_state (kn_procs k' p) = SLEEPING → waits_for k' p b x) → sinv k' (<[p := t]> thr).
Proof.
  intros S C Hq Hp q b bn w c x. destruct (decide (q = p)) as [->|].
  - rewrite fn_lookup_insert. by apply Hp.
  - rewrite fn_lookup_insert_ne by done. intros E Hs. eapply Hq; [done | done | done|].
    eapply S; [done|]. by rewrite <- (ca_asleep _ _ _ C q Hs).
Qed.

Lemma sleep_enter_run p ch k :
  ∃ k', sleep_enter p ch k = Ok (tt, k') ∧ kn_disk k' = kn_disk k ∧ (∀ q, q ≠ p → kn_procs k' q = kn_procs k q) ∧ p_chan (kn_procs k' p) = Some ch.
Proof.
  eexists. split_and!; [reflexivity | done | intros q Hq; cbn; by rewrite fn_lookup_insert_ne | cbn; by rewrite fn_lookup_insert].
Qed.

(** The last part of [virtio_disk_rw]: it sleeps while the device has the buffer, and otherwise
    the data has been transferred. *)
Lemma rw_finish_ok k data store av tk thr p b bn w c i :
  thr p = In b bn w c (WaitDone i) → p_state (kn_procs k p) ≠ SLEEPING → vinv (mkV k data store av tk thr) →
  ∃ r k', rw_finish p b i k = Ok (r, k') ∧ vinv (mkV k' data store av tk (<[p := after b bn w c r]> thr)) ∧
    (if d_buf_disk (kn_disk k) b then r = Blocked (WaitDone i) else r = Done tt ∧ data b = c ∧ store bn = c).
Proof.
  intros Hp Hrun (R & AQ & UQ & un & D & T & S). cbn [v_k v_data v_store v_av v_taken v_thr] in *.
  destruct (ti_done _ _ _ _ T p b bn w c i Hp) as (h & r & -> & Hr & Hpr).
  pose proof (ti_req _ _ _ _ T h r Hr) as E. rewrite Hpr, Hp in E. injection E as Eb En Ew Ec.
  unfold rw_finish, rd_disk. rewrite bind_gets. destruct (d_buf_disk (kn_disk k) b) eqn:Hbusy.
  - destruct (sleep_enter_run p (ChBuf b) k) as (k' & Rk & Dk & Pk & Ck). run Rk. exists (Blocked (WaitDone (Z.of_nat h))), k'. split_and!; [done | | done].
    exists R, AQ, UQ, un. cbn. rewrite Dk. split_and!; [done | eapply tinv_ext; [|exact T]; intros q; by apply insert_same|].
    intros q b' bn' w' c' x. destruct (decide (q = p)) as [->|Hq].
    + rewrite fn_lookup_insert. intros [= <- _ _ _ <-] _. cbn. by rewrite Dk.
    + rewrite fn_lookup_insert_ne, (Pk q Hq) by done. intros Eq Hs. specialize (S q b' bn' w' c' x Eq Hs). unfold waits_for in *. by rewrite Dk, (Pk q Hq).
  - unfold upd_disk at 1. rewrite bind_modify, Nat2Z.id.
    assert (Hst : a_st r = Finished). { destruct (a_st r) eqn:Est; try done; exfalso; (assert (d_buf_disk (kn_disk k) b = true); [apply (di_busy _ _ _ _ _ _ _ D); exists h, r; by rewrite Est | congruence]). }
    pose proof (di_shape _ _ _ _ _ _ _ D) as Sh. set (k1 := set_kn_disk _ k).
    destruct (free_chain_ok p h r (kn_disk k) k1) as (k' & Rk & Dk & Ck & Nk).
    { by apply (sh_apart _ _ Sh). } { by apply (sh_laid _ _ Sh). } { done. } { intros j Ho. by apply (shape_lt _ R h r j Sh). }
    run Rk. exists (Done tt), k'. pose proof (ti_data _ _ _ _ T h r Hr) as Hm. unfold moved in Hm. rewrite Hst, <- Eb, <- En, <- Ec in Hm.
    split_and!; [done | | done | apply Hm | apply Hm]. exists (<[h := None]> R), AQ, UQ, un. cbn [v_k v_data v_store v_av v_taken v_thr after].
    split_and!; [rewrite Dk; by apply dinv_release | apply (tinv_leave thr R data store p T) with (r := r); [apply (ti_lt _ _ _ _ T); congruence | done | done]|].
    apply (sinv_set k); [done | by rewrite <- Ck; apply calm_eq | | done].
    intros q b' bn' w' c' x Hq Eq Hs Hw. pose proof (ca_asleep _ _ _ Ck q Hs) as Eproc. cbn in Eproc. unfold waits_for in *. rewrite Eproc. destruct x.
    + exfalso. apply (Nk q); [apply (ti_lt _ _ _ _ T); congruence | done | rewrite Eproc; apply Hw | done].
    + rewrite Dk. exact Hw.
Qed.

Lemma sector_ok bn : 0 ≤ bn < 2 ^ 31 → u32 (bn * (BSIZE / 512)) = 2 * bn.
Proof. intros H. change (BSIZE / 512) with 2. rewrite u32_small by lia. lia. Qed.

(** The first part: it sleeps for descriptors, or makes its request. *)
Lemma rw_start_ok k data store av tk thr p b bn w c :
  asking thr data store p b bn w c → (p < NP)%nat → p_state (kn_procs k p) ≠ SLEEPING → vinv (mkV k data store av tk thr) →
  ∃ x k', virtio_disk_rw_start p b bn w k = Ok (Blocked x, k') ∧ vinv (mkV k' data store av tk (<[p := In b bn w c x]> thr)).
Proof.
  intros Ha Hlt Hrun (R & AQ & UQ & un & D & T & S). cbn [v_k v_data v_store v_av v_taken v_thr] in *. pose proof Ha as (_ & _ & Hbn & _).
  unfold virtio_disk_rw_start. rewrite (sector_ok bn Hbn). destruct (alloc3_ok p k) as [(i0 & i1 & i2 & Hav & Rk)|(k1 & Rk & Hn & Hsame & Ck)]; run Rk.
  - rewrite (bind_ok _ _ _ _ _ (submit_run _ _ _ _ _ _ _)). set (k2 := set_kn_disk (submitted _ _ _ _ _ _ _) _).
    destruct (dinv_submit _ R AQ tk UQ av un b bn w i0 i1 i2 p c Hav Hbn D) as [H0 D2].
    destruct (rw_finish_ok k2 data store av tk (<[p := In b bn w c (WaitDone (Z.of_nat i0))]> thr) p b bn w c (Z.of_nat i0)) as (r & k' & Rf & V & Hr).
    { by rewrite fn_lookup_insert. } { done. }
    { exists (<[i0 := Some (mkAreq p i1 i2 b bn w c Avail)]> R), (AQ ++ [i0]), UQ, un. split_and!; [exact D2 | by apply tinv_add|].
      apply (sinv_set k); [done | by apply calm_eq | | intros ?????; by intros _ ?].
      intros q b' bn' w' c' x Hq Eq _ Hw. unfold waits_for in *. destruct x; (split; [apply Hw|]); destruct Hw as [_ Hw].
      + eapply Nat.le_lt_trans, Hw. apply nfree_le. intros i Hi.
        change (d_free (mark_list [i0; i1; i2] (kn_disk k)) i = true) in Hi. rewrite mark_list_free in Hi. by destruct (decide _).
      + cbn. destruct (decide (b' = b)) as [->|]; [by rewrite fn_lookup_insert | by rewrite fn_lookup_insert_ne]. }
    cbn [k2 kn_disk set_kn_disk submitted d_buf_disk] in Hr. rewrite fn_lookup_insert in Hr. subst r. exists (WaitDone (Z.of_nat i0)), k'. split; [exact Rf|].
    eapply vinv_ext; [|exact V]. intros q. apply insert_twice.
  - destruct (sleep_enter_run p ChDesc k1) as (k' & Rs & Dk & Pk & Chk). run Rs. exists WaitDesc, k'. split; [done|].
    exists R, AQ, UQ, un. cbn. rewrite Dk. split_and!; [by eapply same_reqs_dinv | by apply tinv_wait|].
    assert (Hnf : nfree (d_free (kn_disk k')) = nfree (d_free (kn_disk k))) by (rewrite Dk; apply nfree_ext, Hsame).
    intros q b' bn' w' c' x. destruct (decide (q = p)) as [->|Hq].
    + rewrite fn_lookup_insert. intros [= <- _ _ _ <-] _. cbn. by rewrite Hnf.
    + rewrite fn_lookup_insert_ne, (Pk q Hq) by done. intros Eq Hs. pose proof (ca_asleep _ _ _ Ck q Hs) as Eproc.
      specialize (S q b' bn' w' c' x Eq). rewrite <- Eproc in S. specialize (S Hs). unfold waits_for in *. rewrite (Pk q Hq), Eproc, Hnf.
      destruct x; [done|]. rewrite Dk. destruct Hsame as [_ _ (y & f & ->)]. exact S.
Qed.

Lemma tinv_finished thr R data store h r : R h = Some r → a_st r = Used → tinv thr R data store → tinv thr (<[h := Some (set_st Finished r)]> R) data store.
Proof.
  intros Hr Hst [T1 T2 T3 T4 T5 T6]. split; try done.
  - intros k' r' (r0 & y & Hk & ->)%(advance_inv R h r Finished k' r' Hr). exact (T1 k' r0 Hk).
  - intros p b bn w c i (k' & r0 & -> & Hk & <-)%T2. destruct (advance_fwd R h r Finished k' r0 Hr Hk) as [y Hy]. by exists k', (set_st y r0).
  - intros k' r'. destruct (decide (k' = h)) as [->|]; [|rewrite fn_lookup_insert_ne by done; apply T6].
    rewrite fn_lookup_insert. intros [= <-]. specialize (T6 h r Hr). unfold moved in *. rewrite Hst in T6. done.
Qed.

(** The interrupt handler: it sees every entry of the used ring, and wakes who waits for it. *)
Lemma intr_loop_ok cur data store av tk thr : ∀ UQ fuel k R AQ un,
  (length UQ < fuel)%nat → p_state (kn_procs k cur) ≠ SLEEPING →
  dinv (kn_disk k) R AQ tk UQ av un → tinv thr R data store → sinv k thr →
  ∃ k', intr_loop cur fuel k = Ok (tt, k') ∧ vinv (mkV k' data store av tk thr).
Proof.
  induction UQ as [|h UQ IH]; intros fuel k R AQ un Hf Hrun D T S; (destruct fuel as [|f]; [cbn in Hf; lia|]); cbn [intr_loop]; unfold rd_disk at 1; rewrite bind_gets; cbn [id].
  { rewrite (di_uidx _ _ _ _ _ _ _ D), (di_didx _ _ _ _ _ _ _ D). cbn [length]. rewrite Z.add_0_r, Z.eqb_refl. exists k. split; [done|]. by exists R, AQ, [], un. }
  pose proof (stage_lt _ _ _ _ (di_shape _ _ _ _ _ _ _ D) (di_used _ _ _ _ _ _ _ D)) as Hlen.
  destruct (proj1 (proj2 (di_used _ _ _ _ _ _ _ D) h)) as (r & Hr & Hst); [left|].
  rewrite (proj2 (Z.eqb_neq (d_used_idx (kn_disk k)) _)) by (rewrite (di_uidx _ _ _ _ _ _ _ D), (di_didx _ _ _ _ _ _ _ D); by apply u16_ne).
  rewrite (di_uidx _ _ _ _ _ _ _ D). rewrite u16_mod. destruct (ringq_pop _ _ _ _ (di_uring _ _ _ _ _ _ _ D)) as [Hh _]. rewrite Hh, Nat2Z.id.
  rewrite (di_status _ _ _ _ _ _ _ D h r Hr Hst). cbn [Z.eqb negb].
  rewrite (la_b _ _ _ (sh_laid _ _ (di_shape _ _ _ _ _ _ _ D) h r Hr)). unfold opt_get, upd_disk. rewrite bind_ret. cbn beta. rewrite bind_modify.
  set (k1 := set_kn_disk _ k). destruct (wakeup_nobody cur (ChBuf (a_b r)) k1) as (k2 & R2 & D2 & C2 & N2). run R2. rewrite bind_modify.
  set (k3 := set_kn_disk _ k2). assert (D3 : kn_disk k3 = set_d_used_idx (u16 (d_used_idx (kn_disk k) + 1)) (set_d_buf_disk (<[a_b r := false]> (d_buf_disk (kn_disk k))) (kn_disk k))) by (cbn; by rewrite D2).
  apply (IH f k3 (<[h := Some (set_st Finished r)]> R) AQ (un + 1)); [cbn in Hf; lia | | | |].
  - cbn. rewrite (ca_cur _ _ _ C2). done.
  - rewrite D3. apply dinv_seen; [done | | done]. intros k' r' Hk' Hb. eapply (req_unique thr R data store h r k' r' T); eauto.
  - by apply tinv_finished.
  - intros q b bn w c x Eq Hs. pose proof (ca_asleep _ _ _ C2 q Hs) as Eproc. cbn in Hs, Eproc.
    specialize (S q b bn w c x Eq). rewrite <- Eproc in S. specialize (S Hs). unfold waits_for in *. rewrite D3. cbn [k3 kn_procs set_kn_disk]. rewrite Eproc.
    destruct x; [done|]. destruct S as [S1 S2]. split; [done|]. cbn. destruct (decide (b = a_b r)) as [->|]; [|by rewrite fn_lookup_insert_ne].
    exfalso. apply (N2 q); [apply (ti_lt _ _ _ _ T); congruence | intros -> | by rewrite Eproc | done].
    rewrite (ca_cur _ _ _ C2) in Hs. done.
Qed.

Lemma dinv_regs x d R AQ TQ UQ av un : dinv d R AQ TQ UQ av un → dinv (set_d_regs x d) R AQ TQ UQ av un.
Proof. intros []. split; try done. by apply (shape_ext d). Qed.

Lemma intr_ok cur k data store av tk thr :
  p_state (kn_procs k cur) ≠ SLEEPING → vinv (mkV k data store av tk thr) →
  ∃ k', virtio_disk_intr cur k = Ok (tt, k') ∧ vinv (mkV k' data store av tk thr).
Proof.
  intros Hrun (R & AQ & UQ & un & D & T & S). cbn [v_k v_data v_store v_av v_taken v_thr] in *.
  unfold virtio_disk_intr, rd_reg, wr_reg, rd_disk, upd_disk. rewrite bind_gets, bind_modify, bind_gets. set (k1 := set_kn_disk _ k).
  apply (intr_loop_ok cur data store av tk thr UQ _ k1 R AQ un); [| done | by apply dinv_regs | done | exact S].
  pose proof (stage_lt _ _ _ _ (di_shape _ _ _ _ _ _ _ D) (di_used _ _ _ _ _ _ _ D)) as Hlen. change ND with 8%nat in Hlen.
  cbn [k1 kn_disk set_kn_disk set_d_regs d_dev_idx d_used_idx]. rewrite (di_uidx _ _ _ _ _ _ _ D), (di_didx _ _ _ _ _ _ _ D). unfold u16. zdiv.
Qed.

Lemma rw_resume_ok k data store av tk thr p b bn w c x :
  thr p = In b bn w c x → running k p → vinv (mkV k data store av tk thr) →
  ∃ r k', virtio_disk_rw_resume p b bn w x k = Ok (r, k') ∧ vinv (mkV k' data store av tk (<[p := after b bn w c r]> thr)) ∧
    (r = Done tt → data b = c ∧ store bn = c).
Proof.
  intros Hp [Hlt Hrun] V. unfold virtio_disk_rw_resume, sleep_exit. rewrite bind_upd_proc. set (k1 := set_kn_procs _ k).
  assert (Hr1 : p_state (kn_procs k1 p) ≠ SLEEPING) by (cbn; rewrite fn_lookup_insert; cbn; by rewrite Hrun).
  assert (V1 : vinv (mkV k1 data store av tk thr)).
  { revert V. apply vinv_other; [done|]. intros q _. destruct (decide (q = p)) as [->|]; [done|]. cbn. by rewrite fn_lookup_insert_ne. }
  destruct x as [|i].
  - destruct (rw_start_ok k1 data store av tk thr p b bn w c) as (x & k' & Rk & V'); [| done..|by exists (Blocked x), k'].
    destruct V as (R & AQ & UQ & un & _ & T & _). cbn in T. destruct (ti_desc _ _ _ _ T p b bn w c Hp) as [Hbn Hc].
    split_and!; [by right | by eapply (ti_apart _ _ _ _ T) | apply Hbn | apply Hbn | done].
  - destruct (rw_finish_ok k1 data store av tk thr p b bn w c i Hp Hr1 V1) as (r & k' & Rk & V' & Hd). exists r, k'.
    split_and!; [done | done | intros ->]. by destruct (d_buf_disk _ _); [|destruct Hd].
Qed.

Lemma start_asking thr data store p b bn w :
  thr p = Out → exclusive thr p b bn → 0 ≤ bn < 2 ^ 31 → asking thr data store p b bn w (if w then data b else store bn).
Proof. intros Hp He Hbn. split_and!; [by left | done | apply Hbn | apply Hbn | done]. Qed.

Lemma vinv_step v v' : vstep v v' → vinv v → vinv v'.
Proof.
  intros Hst V. destruct Hst as [p b bn write r k k' data store av tk thr Hp [Hlt Hrun] Hbn He Rk
    | p b bn write c w r k k' data store av tk thr Hp Hrun Rk | cur k k' data store av tk thr Hrun Rk | | | |].
  - destruct (rw_start_ok k data store av tk thr p b bn write (if write then data b else store bn)) as (x & k1 & Rk' & V');
      [by apply start_asking | done | by rewrite Hrun | done|]. rewrite Rk in Rk'. by injection Rk' as -> ->.
  - destruct (rw_resume_ok k data store av tk thr p b bn write c w Hp Hrun V) as (r' & k1 & Rk' & V' & _). rewrite Rk in Rk'. by injection Rk' as -> ->.
  - destruct (intr_ok cur k data store av tk thr Hrun V) as (k1 & Rk' & V'). rewrite Rk in Rk'. by injection Rk' as ->.
  - by apply vinv_fetch.
  - by apply vinv_complete.
  - by apply vinv_edit.
  - by eapply vinv_other.
Qed.

Lemma reached_inv v : reached v → vinv v.
Proof. intros (v0 & H0%idle_inv & Hs). induction Hs as [|v1 v2 v3 H12 _ IH]; [done|]. by eapply IH, vinv_step. Qed.

(** *** Initialisation

    [virtio_disk_init] leaves the driver idle when the rest of [struct disk] is as the kernel
    image has it, zero. *)
Lemma free_all_ok n : ∀ i s, ∃ f, free_all n i s = Ok (tt, set_kn_disk (set_d_free f (kn_disk s)) s) ∧
  ∀ j, f j = if decide (i ≤ j < i + n)%nat then true else d_free (kn_disk s) j.
Proof.
  induction n as [|n IH]; intros i s; cbn [free_all].
  { exists (d_free (kn_disk s)). split; [by destruct s as [? ? ? ? ? ? ? ? ? ? [] ? ? ?]|]. intros j. by rewrite decide_False by lia. }
  unfold alloc_free, upd_disk. rewrite bind_modify. set (s1 := set_kn_disk _ s). destruct (IH (S i) s1) as (f & R & Hf). exists f. split; [exact R|].
  intros j. rewrite Hf. cbn. destruct (decide (j = i)) as [->|].
  - rewrite fn_lookup_insert. destruct (decide _), (decide _); try done; lia.
  - rewrite fn_lookup_insert_ne by done. destruct (decide _), (decide _); try done; lia.
Qed.

Lemma in_km_disk {A} (m : KM A) s a s' : in_km m s = Ok (a, s') → kn_disk s' = kn_disk s.
Proof. unfold in_km, in_fs, zoom. destruct (in_mem m _) as [[]| | |]; try done. by intros [= _ <-]. Qed.

Lemma bind_rd_reg {B} r (f : Z → XM B) s : (rd_reg r ≫= f) s = f (d_regs (kn_disk s) r) s.
Proof. done. Qed.
Lemma bind_upd_disk {B} g (f : unit → XM B) s : (upd_disk g ≫= f) s = f tt (set_kn_disk (g (kn_disk s)) s).
Proof. done. Qed.
Lemma bind_wr_reg {B} r v (f : unit → XM B) s :
  (wr_reg r v ≫= f) s = f tt (set_kn_disk (set_d_regs (<[r := u32 v]> (d_regs (kn_disk s))) (kn_disk s)) s).
Proof. done. Qed.

Lemma init_idle `{KernelImage} accepts k k' data store :
  d_used_idx (kn_disk k) = 0 → (∀ b, d_buf_disk (kn_disk k) b = false) →
  virtio_disk_init accepts k = Ok (tt, k') → idle (mkV k' data store 0 [] (λ _, Out)).
Proof.
  intros Hu Hb R. unfold virtio_disk_init in R. cbv zeta in R.
  repeat match type of R with
  | (rd_reg _ ≫= _) _ = _ => rewrite bind_rd_reg in R
  | (wr_reg _ _ ≫= _) _ = _ => rewrite bind_wr_reg in R
  | (if ?b then panic _ else _) _ = _ => destruct b; [discriminate|]
  end.
  match type of R with _ ?s = _ => set (k1 := s) in R end. assert (D1 : d_used_idx (kn_disk k1) = 0 ∧ ∀ b, d_buf_disk (kn_disk k1) b = false) by done. clearbody k1.
  apply bind_ok_inv in R as (desc & k2 & R2%in_km_disk & R). apply bind_ok_inv in R as (avail & k3 & R3%in_km_disk & R).
  apply bind_ok_inv in R as (used & k4 & R4%in_km_disk & R). destruct (_ || _); [discriminate|]. apply bind_ok_inv in R as ([] & k5 & R5%in_km_disk & R).
  assert (D5 : kn_disk k5 = kn_disk k1) by congruence. rewrite <- D5 in D1. clear -R D1. destruct D1 as [U B].
  set (empty k := d_avail_idx (kn_disk k) = 0 ∧ d_dev_idx (kn_disk k) = 0 ∧ d_used_idx (kn_disk k) = 0 ∧ ∀ b, d_buf_disk (kn_disk k) b = false).
  rewrite bind_upd_disk in R. match type of R with _ ?s = _ => assert (E : empty s) by done; generalize dependent s end.
  clear k5 U B. intros k5 R E.
  repeat (rewrite bind_wr_reg in R; match type of R with _ ?s = _ => assert (E' : empty s) by exact E; clear E; rename E' into E; generalize dependent s end;
    clear k5; intros k5 R E).
  destruct (free_all_ok (Z.to_nat NUM) 0 k5) as (f & Rf & Hf). rewrite (bind_ok _ _ _ _ _ Rf) in R. injection R as <-.
  destruct E as (E1 & E2 & E3 & E4). split; try done. cbn. intros i Hi. rewrite Hf. change ND with 8%nat in Hi. change (Z.to_nat NUM) with 8%nat. by rewrite decide_True by lia.
Qed.

(** ** The theorems *)

(** C11. However processes, device and interrupts interleave, [virtio_disk_rw] and the interrupt
    handler neither panic nor run on, every chain the device takes is a well-formed request,
    and a call returns only when the buffer and its block both hold what it had to transfer:
    the buffer's contents when it was called to write, the block's when it was called to
    read. *)
Theorem virtio_rw_served v : reached v →
  (∀ p b bn w, v_thr v p = Out → running (v_k v) p → 0 ≤ bn < 2 ^ 31 → exclusive (v_thr v) p b bn →
     ∃ x k', virtio_disk_rw_start p b bn w (v_k v) = Ok (Blocked x, k')) ∧
  (∀ p b bn w c x, v_thr v p = In b bn w c x → running (v_k v) p →
     ∃ r k', virtio_disk_rw_resume p b bn w x (v_k v) = Ok (r, k') ∧ (r = Done tt → v_data v b = c ∧ v_store v bn = c)) ∧
  (∀ cur, p_state (kn_procs (v_k v) cur) ≠ SLEEPING → ∃ k', virtio_disk_intr cur (v_k v) = Ok (tt, k')) ∧
  (∀ h, h ∈ v_taken v → is_Some (chain (kn_disk (v_k v)) h)).
Proof.
  intros V%reached_inv. destruct v as [k data store av tk thr]. cbn. split_and!.
  - intros p b bn w Hp [Hlt Hrun] Hbn He. destruct (rw_start_ok k data store av tk thr p b bn w (if w then data b else store bn)) as (x & k' & R & _);
      [by apply start_asking | done | by rewrite Hrun | done|]. by exists x, k'.
  - intros p b bn w c x Hp Hrun. destruct (rw_resume_ok k data store av tk thr p b bn w c x Hp Hrun V) as (r & k' & R & _ & Hd). by exists r, k'.
  - intros cur Hcur. destruct (intr_ok cur k data store av tk thr Hcur V) as (k' & R & _). by exists k'.
  - intros h Hh. destruct V as (R & AQ & UQ & un & D & _ & _). cbn in D. destruct (proj1 (proj2 (di_taken _ _ _ _ _ _ _ D) h) Hh) as (r & Hr & _).
    rewrite (laid_chain _ _ r (sh_laid _ _ (di_shape _ _ _ _ _ _ _ D) h r Hr)). done.
Qed.

(** The entries of a ring from [lo] up to [hi]. *)
Definition queued (ring : Z → Z) (lo hi : Z) (h : nat) : Prop :=
  ∃ k, 0 ≤ k < u16 (hi - lo) ∧ ring ((lo + k) mod NUM) = Z.of_nat h.

Lemma ringq_queued ring n lo hi q h :
  (length q ≤ ND)%nat → ringq ring n q → lo = u16 n → hi = u16 (n + Z.of_nat (length q)) → h ∈ q → queued ring lo hi h.
Proof.
  change ND with 8%nat. intros Hq Hr -> -> (k & Hk)%list_elem_of_lookup. pose proof (lookup_lt_Some _ _ _ Hk).
  exists (Z.of_nat k). split; [unfold u16; zdiv|]. rewrite <- (Hr k h Hk). f_equal. rewrite <- (Zplus_mod_idemp_l (u16 n)), u16_mod. apply Zplus_mod_idemp_l.
Qed.

(** C20. No process sleeps in [virtio_disk_rw] with nothing left to wake it.  One that waits for
    descriptors sleeps on the channel [free_desc] wakes, fewer than three are free, and another
    process has a request under way.  One that waits for its request sleeps on its buffer, and
    the request is in the available ring, with the device, or in the part of the used ring that
    the interrupt handler has not seen. *)
Theorem virtio_no_lost_wakeup v p b bn w c x :
  reached v → v_thr v p = In b bn w c x → p_state (kn_procs (v_k v) p) = SLEEPING →
  let d := kn_disk (v_k v) in
  match x with
  | WaitDesc => p_chan (kn_procs (v_k v) p) = Some ChDesc ∧ (nfree (d_free d) < 3)%nat ∧
      ∃ q b' bn' w' c' i, q ≠ p ∧ v_thr v q = In b' bn' w' c' (WaitDone i)
  | WaitDone i => p_chan (kn_procs (v_k v) p) = Some (ChBuf b) ∧ d_buf_disk d b = true ∧
      ∃ h, i = Z.of_nat h ∧ (queued (d_avail_ring d) (u16 (v_av v)) (d_avail_idx d) h ∨ h ∈ v_taken v ∨
        queued (d_used_ring d) (d_used_idx d) (d_dev_idx d) h)
  end.
Proof.
  intros V%reached_inv Hp Hs. destruct v as [k data store av tk thr], V as (R & AQ & UQ & un & D & T & S). cbn in *.
  specialize (S p b bn w c x Hp Hs). destruct D as [Sh A Tk U Ra Ia Ru Iu Id St B]. destruct x as [|i]; cbn in S.
  - destruct S as [S1 S2]. split_and!; [done | done|]. destruct (nfree_taken _ S2) as (i & Hi & Hf).
    apply (sh_free _ _ Sh i Hi) in Hf as (h & r & Hr & _). pose proof (ti_req _ _ _ _ T h r Hr) as E.
    exists (a_p r). do 5 eexists. split; [|exact E]. intros Ep. rewrite Ep, Hp in E. done.
  - destruct S as [S1 S2]. split_and!; [done | done|]. destruct (ti_done _ _ _ _ T p b bn w c i Hp) as (h & r & -> & Hr & Hpr). exists h. split; [done|].
    pose proof (ti_req _ _ _ _ T h r Hr) as E. rewrite Hpr, Hp in E. injection E as Eb _ _ _. apply B in S2 as (h' & r' & Hr' & Hb & Hst).
    assert (h' = h) as -> by (eapply (req_unique thr R data store h r h' r' T); eauto; left; congruence). rewrite Hr in Hr'. injection Hr' as <-.
    destruct (a_st r) eqn:Est; [left | right; left | right; right | done].
    + eapply (ringq_queued _ av _ _ AQ); [by eapply stage_lt | done | done | done | apply A; eauto].
    + apply Tk. eauto.
    + eapply (ringq_queued _ un _ _ UQ); [by eapply stage_lt | done | done | done | apply U; eauto].
Qed.

(** ** A read, from the call to its return

    Process 0 reads block 5 into buffer 3; the device serves it, process 1 takes the interrupt,
    and process 0 runs again. *)

(** The kernel after a run, and what the run returned. *)
Definition kernel_of {A} (o : outcome (A * kernel)) : kernel := match o with Ok (_, k) => k | _ => zero_kernel end.
Definition value_of {A} (o : outcome (A * kernel)) : option A := match o with Ok (a, _) => Some a | _ => None end.
Lemma outcome_eta {A} (o : outcome (A * kernel)) a : value_of o = Some a → o = Ok (a, kernel_of o).
Proof. destruct o as [[]| | |]; try done. by intros [= ->]. Qed.

Definition rd_k0 : kernel := set_kn_procs (λ _, set_p_state RUNNING zero_proc) zero_kernel.
Definition rd_store (n : Z) : block := if n =? 5 then st8 ∅ 0 7 else ∅.
Definition rd_thr : nat → thread := <[0%nat := In 3 5 false (rd_store 5) (WaitDone 0)]> (λ _, Out).
Definition rd_data : nat → block := <[3%nat := rd_store 5]> (λ _, ∅).
Definition rd_k1 : kernel := kernel_of (virtio_disk_rw_start 0 3 5 false rd_k0).
Definition rd_k2 : kernel := set_kn_disk (completed 0 0 (kn_disk rd_k1)) rd_k1.
Definition rd_k3 : kernel := kernel_of (virtio_disk_intr 1 rd_k2).
Definition run_again (k : kernel) : kernel := set_kn_procs (<[0%nat := set_p_state RUNNING (kn_procs k 0%nat)]> (kn_procs k)) k.
Definition rd_k4 : kernel := run_again rd_k3.

Lemma rd_asleep : reached (mkV rd_k1 (λ _, ∅) rd_store 0 [] rd_thr).
Proof.
  exists (mkV rd_k0 (λ _, ∅) rd_store 0 [] (λ _, Out)). split; [by split|]. apply rtc_once.
  apply (v_start 0 3 5 false (Blocked (WaitDone 0)) rd_k0 rd_k1 (λ _, ∅) rd_store 0 [] (λ _, Out));
    [done | | | |].
  - split; [vm_compute; lia | done].
  - lia.
  - done.
  - apply (outcome_eta (virtio_disk_rw_start 0 3 5 false rd_k0)). vm_compute. reflexivity.
Qed.

Lemma rd_awake : reached (mkV rd_k4 rd_data rd_store 1 [] rd_thr).
Proof.
  destruct rd_asleep as (v0 & H0 & Hs). exists v0. split; [done|]. etransitivity; [exact Hs|].
  apply (rtc_l _ _ (mkV rd_k1 (λ _, ∅) rd_store 1 [0%nat] rd_thr)).
  { assert (E : Z.to_nat (d_avail_ring (kn_disk rd_k1) (0 mod NUM)) = 0%nat) by (vm_compute; reflexivity).
    pose proof (v_fetch rd_k1 (λ _, ∅) rd_store 0 [] rd_thr) as F. rewrite E in F. apply F. vm_compute. discriminate. }
  apply (rtc_l _ _ (mkV rd_k2 rd_data rd_store 1 [] rd_thr)).
  { apply (v_complete 0 (mkDreq false 5 3 0) [] [] rd_k1 (λ _, ∅) rd_store 1 rd_thr). vm_compute. reflexivity. }
  apply (rtc_l _ _ (mkV rd_k3 rd_data rd_store 1 [] rd_thr)).
  { apply (v_intr 1 rd_k2 rd_k3); [vm_compute; discriminate | apply (outcome_eta (virtio_disk_intr 1 rd_k2)); vm_compute; reflexivity]. }
  unfold rd_k4. generalize rd_k3 as k. intros k. apply rtc_once, v_other; [done|]. intros p Hp. destruct (decide (p = 0%nat)) as [->|Hne].
  - cbn. by rewrite fn_lookup_insert.
  - destruct Hp. unfold rd_thr. by rewrite fn_lookup_insert_ne.
Qed.

#[local] Opaque rd_k1 rd_k2 rd_k3.

Lemma virtio_rw_served_witness :
  ∃ k', virtio_disk_rw_resume 0 3 5 false (WaitDone 0) rd_k4 = Ok (Done tt, k') ∧ rd_data 3%nat = rd_store 5.
Proof.
  destruct (virtio_rw_served _ rd_awake) as (_ & H & _ & _).
  destruct (H 0%nat 3%nat 5 false (rd_store 5) (WaitDone 0)) as (r & k' & R & Hd); [done | split; [vm_compute; lia | done]|].
  assert (E : value_of (virtio_disk_rw_resume 0 3 5 false (WaitDone 0) rd_k4) = Some (Done tt)) by (vm_compute; reflexivity).
  cbn [v_k v_data v_store] in R, Hd. rewrite R in E. injection E as ->. exists k'. split; [exact R | apply Hd; reflexivity].
Defined.

Lemma virtio_no_lost_wakeup_witness :
  p_state (kn_procs rd_k1 0) = SLEEPING ∧
  ∃ h, 0 = Z.of_nat h ∧ (queued (d_avail_ring (kn_disk rd_k1)) (u16 0) (d_avail_idx (kn_disk rd_k1)) h ∨ h ∈ [] ∨
    queued (d_used_ring (kn_disk rd_k1)) (d_used_idx (kn_disk rd_k1)) (d_dev_idx (kn_disk rd_k1)) h).
Proof.
  assert (Hs : p_state (kn_procs rd_k1 0) = SLEEPING) by (vm_compute; reflexivity). split; [exact Hs|].
  pose proof (virtio_no_lost_wakeup (mkV rd_k1 (λ _, ∅) rd_store 0 [] rd_thr) 0 3 5 false (rd_store 5) (WaitDone 0) rd_asleep) as H.
  cbn [v_k v_av v_taken v_thr] in H. destruct (H eq_refl Hs) as (_ & _ & Hq). exact Hq.
Defined.
