(* ===== verification/Trap.v ===== *)
(** * Trap: traps, interrupts and boot
    (src/kernel/trap.c, src/kernel/plic.c, src/kernel/main.c, src/kernel/start.c)

    The supervisor registers of the hart that runs, and the interrupt controller, next to
    the kernel's state. *)

From stdpp Require Import functions.
From S2P Require Import Prelude Mem Layout Kalloc Vm FsFormat Bio Log Fs Kern Sched Printf Console File Proc Syscall Exec Sysfile Sysproc Virtio.

Local Open Scope Z_scope.

(** ** State *)

(** Registers: supervisor ones, and the machine-mode ones that [start] sets. *)
Record hart := mkHart {
  h_sstatus : Z; h_sepc : Z; h_scause : Z; h_stval : Z; h_stvec : Z; h_satp : Z;
  h_tp : Z; h_time : Z; h_stimecmp : Z; h_sie : Z;
  h_mstatus : Z; h_mepc : Z; h_medeleg : Z; h_mideleg : Z; h_pmpaddr0 : Z; h_pmpcfg0 : Z;
  h_mie : Z; h_menvcfg : Z; h_mcounteren : Z; h_mhartid : Z;
}.

Definition set_h_sstatus (v : Z) (x : hart) : hart :=
  mkHart v (h_sepc x) (h_scause x) (h_stval x) (h_stvec x) (h_satp x) (h_tp x) (h_time x) (h_stimecmp x) (h_sie x) (h_mstatus x) (h_mepc x) (h_medeleg x) (h_mideleg x) (h_pmpaddr0 x) (h_pmpcfg0 x) (h_mie x) (h_menvcfg x) (h_mcounteren x) (h_mhartid x).
Definition set_h_sepc (v : Z) (x : hart) : hart :=
  mkHart (h_sstatus x) v (h_scause x) (h_stval x) (h_stvec x) (h_satp x) (h_tp x) (h_time x) (h_stimecmp x) (h_sie x) (h_mstatus x) (h_mepc x) (h_medeleg x) (h_mideleg x) (h_pmpaddr0 x) (h_pmpcfg0 x) (h_mie x) (h_menvcfg x) (h_mcounteren x) (h_mhartid x).
Definition set_h_stvec (v : Z) (x : hart) : hart :=
  mkHart (h_sstatus x) (h_sepc x) (h_scause x) (h_stval x) v (h_satp x) (h_tp x) (h_time x) (h_stimecmp x) (h_sie x) (h_mstatus x) (h_mepc x) (h_medeleg x) (h_mideleg x) (h_pmpaddr0 x) (h_pmpcfg0 x) (h_mie x) (h_menvcfg x) (h_mcounteren x) (h_mhartid x).
Definition set_h_satp (v : Z) (x : hart) : hart :=
  mkHart (h_sstatus x) (h_sepc x) (h_scause x) (h_stval x) (h_stvec x) v (h_tp x) (h_time x) (h_stimecmp x) (h_sie x) (h_mstatus x) (h_mepc x) (h_medeleg x) (h_mideleg x) (h_pmpaddr0 x) (h_pmpcfg0 x) (h_mie x) (h_menvcfg x) (h_mcounteren x) (h_mhartid x).
Definition set_h_tp (v : Z) (x : hart) : hart :=
  mkHart (h_sstatus x) (h_sepc x) (h_scause x) (h_stval x) (h_stvec x) (h_satp x) v (h_time x) (h_stimecmp x) (h_sie x) (h_mstatus x) (h_mepc x) (h_medeleg x) (h_mideleg x) (h_pmpaddr0 x) (h_pmpcfg0 x) (h_mie x) (h_menvcfg x) (h_mcounteren x) (h_mhartid x).
Definition set_h_stimecmp (v : Z) (x : hart) : hart :=
  mkHart (h_sstatus x) (h_sepc x) (h_scause x) (h_stval x) (h_stvec x) (h_satp x) (h_tp x) (h_time x) v (h_sie x) (h_mstatus x) (h_mepc x) (h_medeleg x) (h_mideleg x) (h_pmpaddr0 x) (h_pmpcfg0 x) (h_mie x) (h_menvcfg x) (h_mcounteren x) (h_mhartid x).
Definition set_h_sie (v : Z) (x : hart) : hart :=
  mkHart (h_sstatus x) (h_sepc x) (h_scause x) (h_stval x) (h_stvec x) (h_satp x) (h_tp x) (h_time x) (h_stimecmp x) v (h_mstatus x) (h_mepc x) (h_medeleg x) (h_mideleg x) (h_pmpaddr0 x) (h_pmpcfg0 x) (h_mie x) (h_menvcfg x) (h_mcounteren x) (h_mhartid x).
Definition set_h_mstatus (v : Z) (x : hart) : hart :=
  mkHart (h_sstatus x) (h_sepc x) (h_scause x) (h_stval x) (h_stvec x) (h_satp x) (h_tp x) (h_time x) (h_stimecmp x) (h_sie x) v (h_mepc x) (h_medeleg x) (h_mideleg x) (h_pmpaddr0 x) (h_pmpcfg0 x) (h_mie x) (h_menvcfg x) (h_mcounteren x) (h_mhartid x).
Definition set_h_mepc (v : Z) (x : hart) : hart :=
  mkHart (h_sstatus x) (h_sepc x) (h_scause x) (h_stval x) (h_stvec x) (h_satp x) (h_tp x) (h_time x) (h_stimecmp x) (h_sie x) (h_mstatus x) v (h_medeleg x) (h_mideleg x) (h_pmpaddr0 x) (h_pmpcfg0 x) (h_mie x) (h_menvcfg x) (h_mcounteren x) (h_mhartid x).
Definition set_h_medeleg (v : Z) (x : hart) : hart :=
  mkHart (h_sstatus x) (h_sepc x) (h_scause x) (h_stval x) (h_stvec x) (h_satp x) (h_tp x) (h_time x) (h_stimecmp x) (h_sie x) (h_mstatus x) (h_mepc x) v (h_mideleg x) (h_pmpaddr0 x) (h_pmpcfg0 x) (h_mie x) (h_menvcfg x) (h_mcounteren x) (h_mhartid x).
Definition set_h_mideleg (v : Z) (x : hart) : hart :=
  mkHart (h_sstatus x) (h_sepc x) (h_scause x) (h_stval x) (h_stvec x) (h_satp x) (h_tp x) (h_time x) (h_stimecmp x) (h_sie x) (h_mstatus x) (h_mepc x) (h_medeleg x) v (h_pmpaddr0 x) (h_pmpcfg0 x) (h_mie x) (h_menvcfg x) (h_mcounteren x) (h_mhartid x).
Definition set_h_pmpaddr0 (v : Z) (x : hart) : hart :=
  mkHart (h_sstatus x) (h_sepc x) (h_scause x) (h_stval x) (h_stvec x) (h_satp x) (h_tp x) (h_time x) (h_stimecmp x) (h_sie x) (h_mstatus x) (h_mepc x) (h_medeleg x) (h_mideleg x) v (h_pmpcfg0 x) (h_mie x) (h_menvcfg x) (h_mcounteren x) (h_mhartid x).
Definition set_h_pmpcfg0 (v : Z) (x : hart) : hart :=
  mkHart (h_sstatus x) (h_sepc x) (h_scause x) (h_stval x) (h_stvec x) (h_satp x) (h_tp x) (h_time x) (h_stimecmp x) (h_sie x) (h_mstatus x) (h_mepc x) (h_medeleg x) (h_mideleg x) (h_pmpaddr0 x) v (h_mie x) (h_menvcfg x) (h_mcounteren x) (h_mhartid x).
Definition set_h_mie (v : Z) (x : hart) : hart :=
  mkHart (h_sstatus x) (h_sepc x) (h_scause x) (h_stval x) (h_stvec x) (h_satp x) (h_tp x) (h_time x) (h_stimecmp x) (h_sie x) (h_mstatus x) (h_mepc x) (h_medeleg x) (h_mideleg x) (h_pmpaddr0 x) (h_pmpcfg0 x) v (h_menvcfg x) (h_mcounteren x) (h_mhartid x).
Definition set_h_menvcfg (v : Z) (x : hart) : hart :=
  mkHart (h_sstatus x) (h_sepc x) (h_scause x) (h_stval x) (h_stvec x) (h_satp x) (h_tp x) (h_time x) (h_stimecmp x) (h_sie x) (h_mstatus x) (h_mepc x) (h_medeleg x) (h_mideleg x) (h_pmpaddr0 x) (h_pmpcfg0 x) (h_mie x) v (h_mcounteren x) (h_mhartid x).
Definition set_h_mcounteren (v : Z) (x : hart) : hart :=
  mkHart (h_sstatus x) (h_sepc x) (h_scause x) (h_stval x) (h_stvec x) (h_satp x) (h_tp x) (h_time x) (h_stimecmp x) (h_sie x) (h_mstatus x) (h_mepc x) (h_medeleg x) (h_mideleg x) (h_pmpaddr0 x) (h_pmpcfg0 x) (h_mie x) (h_menvcfg x) v (h_mhartid x).

(** The interrupt controller: its registers as written, and the interrupts it will hand
    out, highest priority first. *)
Record plic := mkPlic { pl_regs : Z → Z; pl_pending : list Z; pl_done : list Z }.

Record machine := mkMachine { m_k : kernel; m_h : hart; m_plic : plic }.

Abbreviation TM := (M machine).
Definition in_k {A} (m : XM A) : TM A := zoom m_k (λ k s, mkMachine k (m_h s) (m_plic s)) m.
Definition rd_csr {A} (f : hart → A) : TM A := gets (λ s, f (m_h s)).
Definition wr_csr (f : hart → hart) : TM unit := modify (λ s, mkMachine (m_k s) (f (m_h s)) (m_plic s)).
Definition upd_plic (f : plic → plic) : TM unit := modify (λ s, mkMachine (m_k s) (m_h s) (f (m_plic s))).

Definition SSTATUS_SPP : Z := Z.shiftl 1 8.
Definition SSTATUS_SPIE : Z := Z.shiftl 1 5.
Definition SSTATUS_SIE : Z := Z.shiftl 1 1.
Definition SIE_SEIE : Z := Z.shiftl 1 9.
Definition SIE_STIE : Z := Z.shiftl 1 5.
Definition SIE_SSIE : Z := Z.shiftl 1 1.
Definition MIE_STIE : Z := Z.shiftl 1 5.
Definition MSTATUS_MPP_MASK : Z := Z.shiftl 3 11.
Definition MSTATUS_MPP_S : Z := Z.shiftl 1 11.
Definition UART0_IRQ : Z := 10.
Definition VIRTIO0_IRQ : Z := 1.
Definition PLIC_SENABLE (hart : Z) : Z := PLIC + 0x2080 + hart * 0x100.
Definition PLIC_SPRIORITY (hart : Z) : Z := PLIC + 0x201000 + hart * 0x2000.

(** [w_sstatus(r_sstatus() | SSTATUS_SIE)] and its converse, src/kernel/riscv.h *)
Definition intr_on_csr : TM unit := wr_csr (λ h, set_h_sstatus (Z.lor (h_sstatus h) SSTATUS_SIE) h).
Definition intr_off_csr : TM unit := wr_csr (λ h, set_h_sstatus (Z.land (h_sstatus h) (Z.lnot SSTATUS_SIE)) h).

(** ** PLIC *)

Definition wr_plic (a v : Z) : TM unit := upd_plic (λ p, mkPlic (<[a := v]> (pl_regs p)) (pl_pending p) (pl_done p)).

Definition plicinit : TM unit :=
  wr_plic (PLIC + UART0_IRQ * 4) 1;;
  wr_plic (PLIC + VIRTIO0_IRQ * 4) 1.

Definition plicinithart : TM unit :=
  hart ← rd_csr h_tp;
  wr_plic (PLIC_SENABLE hart) (Z.lor (Z.shiftl 1 UART0_IRQ) (Z.shiftl 1 VIRTIO0_IRQ));;
  wr_plic (PLIC_SPRIORITY hart) 0.

(** A read of the claim register takes the interrupt; 0 when there is none. *)
Definition plic_claim : TM Z :=
  l ← gets (λ s, pl_pending (m_plic s));
  match l with
  | [] => mret 0
  | irq :: l' => upd_plic (λ p, mkPlic (pl_regs p) l' (pl_done p));; mret irq
  end.

Definition plic_complete (irq : Z) : TM unit :=
  upd_plic (λ p, mkPlic (pl_regs p) (pl_pending p) (pl_done p ++ [irq])).

Section trap.
  Context `{KernelImage} (cur : nat) (kaddr : slot → Z).
  (** Addresses of code. *)
  Context (forkret_addr usertrap_addr kernelvec uservec userret : Z).

(** ** Interrupts *)

Definition clockintr : TM unit :=
  id ← rd_csr h_tp;
  (if id =? 0 then
     in_k (modify (λ s, set_kn_ticks (u32 (kn_ticks s + 1)) s));;
     in_k (wakeup cur ChTicks)
   else mret tt);;
  wr_csr (λ h, set_h_stimecmp (u64 (h_time h + 1000000)) h).

Definition devintr : TM Z :=
  scause ← rd_csr h_scause;
  if scause =? 0x8000000000000009 then
    irq ← plic_claim;
    (if irq =? UART0_IRQ then in_k (uartintr cur kaddr)
     else if irq =? VIRTIO0_IRQ then in_k (virtio_disk_intr cur)
     else if negb (irq =? 0) then in_k (printf (chars "unexpected interrupt irq=%d" ++ [nl]) [AWord irq])
     else mret tt);;
    (if negb (irq =? 0) then plic_complete irq else mret tt);;
    mret 1
  else if scause =? 0x8000000000000005 then clockintr;; mret 2
  else mret 0.

(** ** Traps from user space *)

(** Returns the [satp] that [userret] is called with. *)
Definition usertrapret : TM Z :=
  intr_off_csr;;
  wr_csr (set_h_stvec (TRAMPOLINE + (uservec - trampoline)));;
  satp ← rd_csr h_satp;
  in_k (wr_tf cur TF_kernel_satp satp);;
  ks ← in_k (rd_proc cur p_kstack);
  in_k (wr_tf cur TF_kernel_sp (u64 (ks + PGSIZE)));;
  in_k (wr_tf cur TF_kernel_trap usertrap_addr);;
  tp ← rd_csr h_tp;
  in_k (wr_tf cur TF_kernel_hartid tp);;
  wr_csr (λ h, set_h_sstatus (Z.lor (Z.land (h_sstatus h) (Z.lnot SSTATUS_SPP)) SSTATUS_SPIE) h);;
  epc ← in_k (rd_tf cur TF_epc);
  wr_csr (set_h_sepc epc);;
  pt ← in_k (rd_proc cur p_pagetable);
  mret (MAKE_SATP pt).

(** How [usertrap] ends: back in user space with a page table, in the scheduler as a
    zombie, or in the scheduler to come back to [usertrapret]. *)
Inductive trap_end := ToUser (satp : Z) | Exited | Yielded.

(** [if(killed(p)) exit(-1);] and then the rest of [usertrap]. *)
Definition usertrap_tail (which_dev : Z) : TM trap_end :=
  kl ← in_k (killed cur);
  if negb (kl =? 0) then in_k (exit cur (-1));; mret Exited
  else if which_dev =? 2 then in_k (yield cur);; mret Yielded
  else satp ← usertrapret; mret (ToUser satp).

Definition usertrap : TM trap_end :=
  st ← rd_csr h_sstatus;
  if negb (Z.land st SSTATUS_SPP =? 0) then panic "usertrap: not from user mode"
  else
    wr_csr (set_h_stvec kernelvec);;
    sepc ← rd_csr h_sepc;
    in_k (wr_tf cur TF_epc sepc);;
    scause ← rd_csr h_scause;
    if scause =? 8 then
      kl ← in_k (killed cur);
      if negb (kl =? 0) then in_k (exit cur (-1));; mret Exited
      else
        epc ← in_k (rd_tf cur TF_epc);
        in_k (wr_tf cur TF_epc (u64 (epc + 4)));;
        intr_on_csr;;
        alive ← in_k (syscall cur kaddr forkret_addr);
        if negb alive then mret Exited else usertrap_tail 0
    else
      which_dev ← devintr;
      if negb (which_dev =? 0) then usertrap_tail which_dev
      else
        pid ← in_k (rd_proc cur p_pid);
        stval ← rd_csr h_stval;
        in_k (printf (chars "usertrap(): unexpected scause 0x%lx pid=%d" ++ [nl]) [AWord scause; AWord pid]);;
        in_k (printf (chars "            sepc=0x%lx stval=0x%lx" ++ [nl]) [AWord sepc; AWord stval]);;
        in_k (setkilled cur);;
        usertrap_tail 0.

(** ** Traps from the kernel *)

(** [running] tells whether a process runs ([myproc() != 0]); the result, whether the hart
    gives up the CPU before it returns to the interrupted code. *)
Definition kerneltrap (running : bool) : TM bool :=
  sepc ← rd_csr h_sepc;
  sstatus ← rd_csr h_sstatus;
  scause ← rd_csr h_scause;
  if Z.land sstatus SSTATUS_SPP =? 0 then panic "kerneltrap: not from supervisor mode"
  else if negb (Z.land sstatus SSTATUS_SIE =? 0) then panic "kerneltrap: interrupts enabled"
  else
    which_dev ← devintr;
    if which_dev =? 0 then
      stval ← rd_csr h_stval;
      in_k (printf (chars "scause=0x%lx sepc=0x%lx stval=0x%lx" ++ [nl]) [AWord scause; AWord sepc; AWord stval]);;
      panic "kerneltrap"
    else
      (if (which_dev =? 2) && running then in_k (yield cur) else mret tt);;
      wr_csr (λ h, set_h_sstatus sstatus (set_h_sepc sepc h));;
      mret ((which_dev =? 2) && running).

Definition trapinithart : TM unit := wr_csr (set_h_stvec kernelvec).

(** ** Boot *)

(** [kvminit] and [kvminithart], src/kernel/vm.c *)
Definition kvminit : TM Z := in_k (in_km kvmmake).
Definition kvminithart (kernel_pagetable : Z) : TM unit := wr_csr (set_h_satp (MAKE_SATP kernel_pagetable)).

(** [main()] on hart 0 up to [started = 1], with no process running: [cur] is not one. *)
Definition main (accepts : bool) : TM unit :=
  in_k consoleinit;;
  in_k (printf [nl] []);;
  in_k (printf (chars "xv6 kernel is booting" ++ [nl]) []);;
  in_k (printf [nl] []);;
  in_k (in_km kinit);;
  kernel_pagetable ← kvminit;
  kvminithart kernel_pagetable;;
  in_k procinit;;
  trapinithart;;
  plicinit;;
  plicinithart;;
  in_k (in_fs (in_buf binit));;
  in_k (in_fs iinit);;
  in_k (virtio_disk_init accepts);;
  in_k (userinit cur kaddr forkret_addr).

(** [main()] on the other harts. *)
Definition main_other (kernel_pagetable : Z) : TM unit :=
  id ← rd_csr h_tp;
  in_k (printf (chars "hart %d starting" ++ [nl]) [AWord id]);;
  kvminithart kernel_pagetable;;
  trapinithart;;
  plicinithart.

End trap.

(** ** Machine mode *)

Definition timerinit : TM unit :=
  wr_csr (λ h, set_h_mie (Z.lor (h_mie h) MIE_STIE) h);;
  wr_csr (λ h, set_h_menvcfg (Z.lor (h_menvcfg h) (Z.shiftl 1 63)) h);;
  wr_csr (λ h, set_h_mcounteren (Z.lor (h_mcounteren h) 2) h);;
  wr_csr (λ h, set_h_stimecmp (u64 (h_time h + 1000000)) h).

(** [start()] up to [mret]; [main_addr] is the address of [main]. *)
Definition start (main_addr : Z) : TM unit :=
  wr_csr (λ h, set_h_mstatus (Z.lor (Z.land (h_mstatus h) (Z.lnot MSTATUS_MPP_MASK)) MSTATUS_MPP_S) h);;
  wr_csr (set_h_mepc main_addr);;
  wr_csr (set_h_satp 0);;
  wr_csr (set_h_medeleg 0xffff);;
  wr_csr (set_h_mideleg 0xffff);;
  wr_csr (λ h, set_h_sie (Z.lor (Z.lor (Z.lor (h_sie h) SIE_SEIE) SIE_STIE) SIE_SSIE) h);;
  wr_csr (set_h_pmpaddr0 0x3fffffffffffff);;
  wr_csr (set_h_pmpcfg0 0xf);;
  timerinit;;
  wr_csr (λ h, set_h_tp (i32 (h_mhartid h)) h).
