(* ===== verification/TrapSpec.v ===== *)
(** * TrapSpec: the way in and out of the kernel (src/kernel/trap.c, src/kernel/plic.c)

    What [usertrap] leaves for the return to user space, on every path and for a system
    call, and that each interrupt claimed from the interrupt controller is completed. *)

From stdpp Require Import functions.
From S2P Require Import Prelude Mem Layout Kalloc Vm FsFormat Bio Log Fs Kern Sched Printf Console File Proc Syscall Exec Sysfile Sysproc Virtio Trap ProcExample.

Local Open Scope Z_scope.

(** ** Running the kernel's operations on the machine *)

Lemma in_k_run {A} (m : XM A) k h p a k' : m k = Ok (a, k') → in_k m (mkMachine k h p) = Ok (a, mkMachine k' h p).
Proof. unfold in_k, zoom. cbn [m_k]. by intros ->. Qed.

Lemma in_k_inv {A} (m : XM A) s a s' : in_k m s = Ok (a, s') → m (m_k s) = Ok (a, m_k s') ∧ m_h s' = m_h s ∧ m_plic s' = m_plic s.
Proof. unfold in_k, zoom. destruct (m (m_k s)) as [[b k]| | |]; try discriminate. by intros [= <- <-]. Qed.

(** The kernel with the word [v] at [a]. *)
Definition poke (a v : Z) (k : kernel) : kernel :=
  set_kn_fs (mkFsys (fs_ls (kn_fs k)) (fs_sb (kn_fs k)) (itable (kn_fs k)) (mkKmem (st64 (kmemory k) a v) (k_freelist (fs_km (kn_fs k))))) k.

Lemma poke_mem a v k : kmemory (poke a v k) = st64 (kmemory k) a v.
Proof. done. Qed.

(** Register [r] in the trapframe of process [p]. *)
Definition tfr (k : kernel) (p : nat) (r : Z) : Z := ld64 (kmemory k) (p_trapframe (kn_procs k p) + r).

Lemma rd_tf_run p r k : rd_tf p r k = Ok (tfr k p r, k).
Proof. done. Qed.

Lemma wr_tf_run p r v k : wr_tf p r v k = Ok (tt, poke (p_trapframe (kn_procs k p) + r) v k).
Proof. done. Qed.

Lemma bind_k_proc {A B} p (f : proc → A) (g : A → TM B) k h pl :
  (in_k (rd_proc p f) ≫= g) (mkMachine k h pl) = g (f (kn_procs k p)) (mkMachine k h pl).
Proof. by rewrite (bind_ok _ _ _ _ _ (in_k_run _ k h pl _ _ eq_refl)). Qed.

Lemma bind_rd_tf {B} p r (g : Z → TM B) k h pl :
  (in_k (rd_tf p r) ≫= g) (mkMachine k h pl) = g (tfr k p r) (mkMachine k h pl).
Proof. by rewrite (bind_ok _ _ _ _ _ (in_k_run _ k h pl _ _ (rd_tf_run p r k))). Qed.

Lemma bind_wr_tf {B} p r v (g : unit → TM B) k h pl :
  (in_k (wr_tf p r v) ≫= g) (mkMachine k h pl) = g tt (mkMachine (poke (p_trapframe (kn_procs k p) + r) v k) h pl).
Proof. by rewrite (bind_ok _ _ _ _ _ (in_k_run _ k h pl _ _ (wr_tf_run p r v k))). Qed.

Lemma bind_rd_csr {A B} (f : hart → A) (g : A → TM B) k h pl : (rd_csr f ≫= g) (mkMachine k h pl) = g (f h) (mkMachine k h pl).
Proof. done. Qed.

Lemma bind_wr_csr {B} (f : hart → hart) (g : unit → TM B) k h pl : (wr_csr f ≫= g) (mkMachine k h pl) = g tt (mkMachine k (f h) pl).
Proof. done. Qed.

(** Words of the trapframe do not overlap. *)
Lemma tfr_poke k p r r' v : 0 ≤ v < 2 ^ 64 → r' = r ∨ r' + 8 ≤ r ∨ r + 8 ≤ r' →
  tfr (poke (p_trapframe (kn_procs k p) + r) v k) p r' = if decide (r' = r) then v else tfr k p r'.
Proof.
  intros Hv Hr. unfold tfr. change (kn_procs (poke _ v k) p) with (kn_procs k p). rewrite poke_mem.
  destruct (decide (r' = r)) as [->|]; [by apply ld64_st64_eq | apply ld64_st64_ne; lia].
Qed.

(** ** The return to user space *)

Section trap.
  Context {K : KernelImage} (cur : nat) (kaddr : slot → Z).
  Context (forkret_addr usertrap_addr kernelvec uservec : Z) (Haddr : 0 ≤ usertrap_addr < 2 ^ 64).

(** Registers hold 64 bits. *)
Definition regs64 (h : hart) : Prop := 0 ≤ h_satp h < 2 ^ 64 ∧ 0 ≤ h_tp h < 2 ^ 64.

(** The machine as [userret] and the [sret] in it need it: traps go to [uservec], [sret]
    goes to user mode at the saved program counter and turns interrupts on, which are off
    until then; and the trapframe as [uservec] needs it at the next trap. *)
Record user_ready (k : kernel) (h : hart) : Prop := {
  ur_stvec : h_stvec h = TRAMPOLINE + (uservec - trampoline);
  ur_spp : Z.testbit (h_sstatus h) 8 = false;
  ur_spie : Z.testbit (h_sstatus h) 5 = true;
  ur_sie : Z.testbit (h_sstatus h) 1 = false;
  ur_sepc : h_sepc h = tfr k cur TF_epc;
  ur_satp : tfr k cur TF_kernel_satp = h_satp h;
  ur_sp : tfr k cur TF_kernel_sp = u64 (p_kstack (kn_procs k cur) + PGSIZE);
  ur_trap : tfr k cur TF_kernel_trap = usertrap_addr;
  ur_hartid : tfr k cur TF_kernel_hartid = h_tp h;
}.

(** Registers of the user program in the trapframe. *)
Definition user_reg (r : Z) : Prop := (r = TF_epc ∨ 40 ≤ r ≤ TF_SIZE - 8) ∧ r mod 8 = 0.

Lemma sret_bits x : let y := Z.lor (Z.land (Z.land x (Z.lnot SSTATUS_SIE)) (Z.lnot SSTATUS_SPP)) SSTATUS_SPIE in
  Z.testbit y 8 = false ∧ Z.testbit y 5 = true ∧ Z.testbit y 1 = false.
Proof.
  cbv zeta. rewrite !Z.lor_spec, !Z.land_spec, !Z.lnot_spec by lia.
  unfold SSTATUS_SIE, SSTATUS_SPP, SSTATUS_SPIE. rewrite !Z.shiftl_1_l, !Z.pow2_bits_eqb by lia. cbn.
  rewrite !andb_true_r, !andb_false_r, !orb_true_r, !orb_false_r. done.
Qed.

Lemma usertrapret_ok k h pl : regs64 h →
  ∃ k' h', usertrapret cur usertrap_addr uservec (mkMachine k h pl) = Ok (MAKE_SATP (p_pagetable (kn_procs k cur)), mkMachine k' h' pl) ∧
    user_ready k' h' ∧ kn_procs k' = kn_procs k ∧ (∀ r, user_reg r → tfr k' cur r = tfr k cur r).
Proof.
  intros [Hs Ht]. unfold usertrapret, intr_off_csr.
  rewrite bind_wr_csr, bind_wr_csr, bind_rd_csr, bind_wr_tf, bind_k_proc, bind_wr_tf, bind_wr_tf, bind_rd_csr, bind_wr_tf, bind_wr_csr, bind_rd_tf, bind_wr_csr, bind_k_proc.
  cbn [h_satp h_tp set_h_stvec set_h_sstatus h_sstatus].
  set (k1 := poke _ _ k). set (k2 := poke _ _ k1). set (k3 := poke _ _ k2). set (k4 := poke _ _ k3).
  eexists k4, _. split; [reflexivity|].
  assert (Hk : ∀ r, r ∈ [0; 8; 16; 24; 32] ∨ 40 ≤ r → tfr k4 cur r =
    if decide (r = 32) then h_tp h else if decide (r = 16) then usertrap_addr
    else if decide (r = 8) then u64 (p_kstack (kn_procs k cur) + PGSIZE) else if decide (r = 0) then h_satp h else tfr k cur r).
  { intros r Hr. rewrite !elem_of_cons, elem_of_nil in Hr. subst k4 k3 k2 k1.
    rewrite !tfr_poke by first [apply u64_range | unfold TF_kernel_satp, TF_kernel_sp, TF_kernel_trap, TF_kernel_hartid; lia]. done. }
  assert (Hin : ∀ r, user_reg r → tfr k4 cur r = tfr k cur r).
  { intros r Hr. unfold user_reg, TF_epc, TF_SIZE in Hr. rewrite Hk by (rewrite !elem_of_cons; lia). by rewrite !decide_False by lia. }
  destruct (sret_bits (h_sstatus h)) as (B1 & B2 & B3). split_and!; [split | done | exact Hin].
  - done.
  - exact B1.
  - exact B2.
  - exact B3.
  - done.
  - rewrite Hk by (rewrite !elem_of_cons; auto). done.
  - rewrite Hk by (rewrite !elem_of_cons; auto). done.
  - rewrite Hk by (rewrite !elem_of_cons; auto). done.
  - rewrite Hk by (rewrite !elem_of_cons; auto 10). done.
Qed.

(** ** Every path *)

Local Opaque printf chars uartintr virtio_disk_intr yield exit setkilled.

(** The interrupts [c] claimed and completed since. *)
Definition served (c : list Z) (pl pl' : plic) : Prop := pl_pending pl = c ++ pl_pending pl' ∧ pl_done pl' = pl_done pl ++ c.

Lemma served_nil pl : served [] pl pl.
Proof. split; [done | by rewrite app_nil_r]. Qed.

Lemma regs_same h h' : h_satp h' = h_satp h → h_tp h' = h_tp h → regs64 h → regs64 h'.
Proof. unfold regs64. by intros -> ->. Qed.

Lemma clockintr_inv s s' : clockintr cur s = Ok (tt, s') →
  m_plic s' = m_plic s ∧ h_satp (m_h s') = h_satp (m_h s) ∧ h_tp (m_h s') = h_tp (m_h s).
Proof.
  destruct s as [k h pl]. unfold clockintr. rewrite bind_rd_csr. intros H. inv_bind H. injection H as <-. cbn [m_plic m_h set_h_stimecmp h_satp h_tp].
  destruct (h_tp h =? 0).
  - inv_bind H_hd. apply in_k_inv in H_hd_hd as (_ & E1 & E2), H_hd as (_ & E3 & E4). cbn in *. by rewrite E3, E1, E4, E2.
  - by injection H_hd as _ <-.
Qed.

Lemma devintr_inv s w s' : devintr cur kaddr s = Ok (w, s') → 0 ∉ pl_pending (m_plic s) →
  (∃ c, served c (m_plic s) (m_plic s') ∧ (length c ≤ 1)%nat) ∧ h_satp (m_h s') = h_satp (m_h s) ∧ h_tp (m_h s') = h_tp (m_h s) ∧ 0 ≤ w ≤ 2 ∧
  (w = 0 → s' = s) ∧ (w = 1 ↔ h_scause (m_h s) = 0x8000000000000009) ∧ (w = 2 ↔ h_scause (m_h s) = 0x8000000000000005).
Proof.
  destruct s as [k h pl]. cbn [m_plic m_h m_k]. intros H H0. unfold devintr in H. rewrite bind_rd_csr in H.
  destruct (Z.eqb_spec (h_scause h) 0x8000000000000009) as [E9|E9].
  - unfold plic_claim in H. rewrite bind_assoc, bind_gets in H. cbn [m_plic] in H.
    destruct (pl_pending pl) as [|irq l] eqn:Epl.
    + rewrite bind_ret in H. cbn in H. injection H as <- <-. split_and!; try done; try lia. exists []. split; [apply served_nil | cbn; lia].
    + apply not_elem_of_cons in H0 as [Hirq _]. unfold upd_plic, plic_complete in H. rewrite bind_assoc, bind_modify, bind_ret in H. cbn [m_k m_h m_plic] in H.
      inv_bind H. inv_bind H. injection H as <- <-.
      assert (Hin : m_h s = h ∧ m_plic s = mkPlic (pl_regs pl) l (pl_done pl)).
      { destruct (irq =? UART0_IRQ); [|destruct (irq =? VIRTIO0_IRQ); [|destruct (negb (irq =? 0)); [|by injection H_hd as _ <-]]];
          by apply in_k_inv in H_hd as (_ & ? & ?). }
      destruct Hin as [Eh Ep]. destruct (Z.eqb_spec irq 0) as [|_]; [done|]. cbn [negb] in H_hd0. injection H_hd0 as _ <-. cbn [m_plic m_h].
      rewrite Eh, Ep. split_and!; try done; try lia. exists [irq]. split; [by split | done].
  - destruct (Z.eqb_spec (h_scause h) 0x8000000000000005) as [E5|E5].
    + inv_bind H. injection H as <- <-. destruct a. apply clockintr_inv in H_hd as (-> & -> & ->). cbn [m_plic m_h].
      split_and!; try done; try lia. exists []. split; [apply served_nil | cbn; lia].
    + injection H as <- <-. split_and!; try done; try lia. exists []. split; [apply served_nil | cbn; lia].
Qed.

(** [usertrap] after the cause is dealt with. *)
Lemma usertrap_tail_inv w s e s' : usertrap_tail cur usertrap_addr uservec w s = Ok (e, s') → regs64 (m_h s) →
  m_plic s' = m_plic s ∧
  match e with
  | ToUser satp => user_ready (m_k s') (m_h s') ∧ satp = MAKE_SATP (p_pagetable (kn_procs (m_k s') cur)) ∧ p_killed (kn_procs (m_k s') cur) = 0 ∧ w ≠ 2
  | Yielded => w = 2
  | Exited => p_killed (kn_procs (m_k s) cur) ≠ 0
  end.
Proof.
  destruct s as [k h pl]. cbn [m_h m_k]. intros H Hr. unfold usertrap_tail, killed in H. rewrite bind_k_proc in H.
  destruct (Z.eqb_spec (p_killed (kn_procs k cur)) 0) as [Ek|Ek]; cbn [negb] in H.
  - destruct (Z.eqb_spec w 2) as [Ew|Ew].
    + inv_bind H. injection H as <- <-. by apply in_k_inv in H_hd as (_ & _ & ->).
    + destruct (usertrapret_ok k h pl Hr) as (k' & h' & R & Hu & Ep & _). rewrite (bind_ok _ _ _ _ _ R) in H. injection H as <- <-.
      cbn [m_plic m_k m_h]. by rewrite Ep.
  - inv_bind H. injection H as <- <-. by apply in_k_inv in H_hd as (_ & _ & ->).
Qed.

Lemma usertrap_inv s e s' : regs64 (m_h s) → 0 ∉ pl_pending (m_plic s) →
  usertrap cur kaddr forkret_addr usertrap_addr kernelvec uservec s = Ok (e, s') →
  (∃ c, served c (m_plic s) (m_plic s') ∧ (length c ≤ 1)%nat) ∧
  match e with
  | ToUser satp => user_ready (m_k s') (m_h s') ∧ satp = MAKE_SATP (p_pagetable (kn_procs (m_k s') cur)) ∧
      p_killed (kn_procs (m_k s') cur) = 0 ∧ h_scause (m_h s) ≠ 0x8000000000000005
  | Yielded => h_scause (m_h s) = 0x8000000000000005
  | Exited => True
  end.
Proof.
  assert (Hnil : ∀ pl pl', pl' = pl → ∃ c, served c pl pl' ∧ (length c ≤ 1)%nat).
  { intros pl pl' ->. exists []. split; [apply served_nil | cbn; lia]. }
  destruct s as [k h pl]. cbn [m_h m_plic]. intros Hr H0 H. unfold usertrap in H. rewrite bind_rd_csr in H. destruct (negb _); [done|].
  rewrite bind_wr_csr, bind_rd_csr, bind_wr_tf, bind_rd_csr in H. cbn [set_h_stvec h_sepc h_scause] in H. set (k1 := poke _ _ k) in H. set (h1 := set_h_stvec _ h) in H.
  assert (Hr1 : regs64 h1) by exact Hr. destruct (Z.eqb_spec (h_scause h) 8) as [E8|E8].
  - unfold killed in H. rewrite bind_k_proc in H. destruct (negb _).
    { inv_bind H. injection H as <- <-. apply in_k_inv in H_hd as (_ & _ & E). split; [by apply Hnil | done]. }
    unfold intr_on_csr in H. rewrite bind_rd_tf, bind_wr_tf, bind_wr_csr in H. inv_bind H. apply in_k_inv in H_hd as (_ & Eh & Ep). cbn [m_h m_plic] in Eh, Ep.
    destruct (negb a); [injection H as <- <-; split; [by apply Hnil | done]|].
    apply usertrap_tail_inv in H as [Ep' H]; [|by rewrite Eh]. split; [apply Hnil; congruence|]. rewrite E8. destruct e; [|done | done]. by destruct H as (H1 & H2 & H3 & _).
  - inv_bind H. destruct (devintr_inv _ _ _ H_hd H0) as ((c & Hc & Hl) & Es & Et & Hw & Hz & _ & H2). cbn [m_h m_plic] in *.
    assert (Hr2 : regs64 (m_h s)) by (by eapply regs_same). change (h_scause h1) with (h_scause h) in H2.
    destruct (Z.eqb_spec a 0) as [Ea|Ea]; cbn [negb] in H.
    + clear Hc Es Et. rewrite (Hz Ea) in *. rewrite bind_k_proc, bind_rd_csr in H. inv_bind H. apply in_k_inv in H_hd0 as (_ & Eh1 & Ep1).
      inv_bind H. apply in_k_inv in H_hd0 as (_ & Eh2 & Ep2). inv_bind H. apply in_k_inv in H_hd0 as (_ & Eh3 & Ep3). cbn [m_h m_plic] in *.
      apply usertrap_tail_inv in H as [Ep' H]; [|by rewrite Eh3, Eh2, Eh1]. split; [apply Hnil; congruence|].
      destruct e; [destruct H as (H1 & H3 & H4 & _) | done | done]. split_and!; [done | done | done |]. intros E. apply H2 in E. lia.
    + apply usertrap_tail_inv in H as [Ep' H]; [|done]. split; [exists c; by rewrite Ep'|].
      destruct e; [destruct H as (H1 & H3 & H4 & H5) | done | by apply H2]. split_and!; [done | done | done |]. intros E. by apply H5, H2.
Qed.

Lemma kerneltrap_inv s running yielded s' : 0 ∉ pl_pending (m_plic s) → kerneltrap cur kaddr running s = Ok (yielded, s') →
  (∃ c, served c (m_plic s) (m_plic s') ∧ (length c ≤ 1)%nat) ∧
  h_sepc (m_h s') = h_sepc (m_h s) ∧ h_sstatus (m_h s') = h_sstatus (m_h s) ∧
  (yielded = true ↔ running = true ∧ h_scause (m_h s) = 0x8000000000000005).
Proof.
  intros H0 H. destruct s as [k h pl]. cbn [m_h m_plic] in *. unfold kerneltrap in H. rewrite !bind_rd_csr in H.
  destruct (_ =? 0); [done|]. destruct (negb _); [done|]. inv_bind H.
  destruct (devintr_inv _ _ _ H_hd) as ((c & Hc & Hl) & _ & _ & Hw & _ & _ & H2); [done|]. cbn [m_h m_plic] in *.
  destruct (Z.eqb_spec a 0); [exfalso; inv_bind H; by inv_bind H|]. inv_bind H. inv_bind H. injection H_hd1 as _ <-. injection H as <- <-. cbn [m_plic m_h].
  assert (Ep : m_plic s0 = m_plic s) by (destruct (_ && _); [by apply in_k_inv in H_hd0 as (_ & _ & ->) | by injection H_hd0 as _ <-]).
  rewrite Ep. split_and!; [by exists c | done | done |]. rewrite andb_true_iff, Z.eqb_eq, H2. tauto.
Qed.


(** ** System calls *)

(** The kernel after [usertrap] has saved the program counter [sepc] and stepped over the
    [ecall]. *)
Definition stepped (k : kernel) (sepc : Z) : kernel :=
  let a := p_trapframe (kn_procs k cur) + TF_epc in poke a (u64 (sepc + 4)) (poke a sepc k).

Lemma stepped_tfr k sepc r : 0 ≤ sepc < 2 ^ 64 → user_reg r →
  tfr (stepped k sepc) cur r = if decide (r = TF_epc) then u64 (sepc + 4) else tfr k cur r.
Proof.
  intros Hs [Hr _]. unfold stepped. cbv zeta. set (k1 := poke _ sepc k).
  change (p_trapframe (kn_procs k cur)) with (p_trapframe (kn_procs k1 cur)). unfold TF_epc, TF_SIZE in *.
  rewrite tfr_poke by (apply u64_range || lia). destruct (decide _); [done|]. subst k1.
  rewrite tfr_poke by lia. by rewrite decide_False.
Qed.

(** C14. A system call.  When a process that has not been killed executes [ecall], [usertrap] runs
    the handler its a7 selects, with the program counter after the [ecall]; when the handler
    returns [v] and the process is still not killed, [usertrap] goes back to user space with
    [v] in a0 and every other register, and all of the process table, as the handler left
    them.  (The process is not traced: tracing prints a line as well.) *)
Theorem usertrap_syscall k h pl n v k1 :
  regs64 h → 0 ≤ h_sepc h < 2 ^ 64 → Z.land (h_sstatus h) SSTATUS_SPP = 0 → h_scause h = 8 →
  p_killed (kn_procs k cur) = 0 →
  lookup_syscall (i32 (tfr k cur TF_a7)) = Some n →
  handler cur kaddr forkret_addr n (stepped k (h_sepc h)) = Ok (Some v, k1) →
  p_killed (kn_procs k1 cur) = 0 → Z.land (p_trace_mask (kn_procs k1 cur)) (Z.shiftl 1 (i32 (tfr k cur TF_a7))) = 0 →
  ∃ k' h', usertrap cur kaddr forkret_addr usertrap_addr kernelvec uservec (mkMachine k h pl) =
      Ok (ToUser (MAKE_SATP (p_pagetable (kn_procs k1 cur))), mkMachine k' h' pl) ∧
    user_ready k' h' ∧ kn_procs k' = kn_procs k1 ∧
    tfr k' cur TF_a0 = u64 v ∧ (∀ r, user_reg r → r ≠ TF_a0 → tfr k' cur r = tfr k1 cur r).
Proof.
  intros Hr Hs Hspp E8 Hk0 Hn Hh Hk1 Htr. set (h1 := set_h_sstatus (Z.lor (h_sstatus h) SSTATUS_SIE) (set_h_stvec kernelvec h)).
  set (k2 := poke (p_trapframe (kn_procs k1 cur) + TF_a0) (u64 v) k1).
  assert (Rs : syscall cur kaddr forkret_addr (stepped k (h_sepc h)) = Ok (true, k2)).
  { unfold syscall. rewrite (bind_ok _ _ _ _ _ (rd_tf_run cur TF_a7 _)). rewrite stepped_tfr; [|done | by split; [right; by vm_compute|]].
    rewrite decide_False by done. cbv zeta. rewrite Hn, (bind_ok _ _ _ _ _ Hh), (bind_ok _ _ _ _ _ (wr_tf_run cur TF_a0 (u64 v) k1)). fold k2.
    rewrite (bind_ok (rd_proc cur id) _ k2 (kn_procs k1 cur) k2 eq_refl), Htr. done. }
  destruct (usertrapret_ok k2 h1 pl Hr) as (k' & h' & R & Hu & Ep & Hregs). change (kn_procs k2) with (kn_procs k1) in R, Ep.
  exists k', h'. split_and!; [|done | done | |].
  - unfold usertrap. rewrite bind_rd_csr, Hspp. cbn [Z.eqb negb]. rewrite bind_wr_csr, bind_rd_csr, bind_wr_tf, bind_rd_csr.
    cbn [set_h_stvec h_sepc h_scause]. rewrite E8. cbn [Z.eqb Pos.eqb]. unfold killed, intr_on_csr. rewrite bind_k_proc.
    change (p_killed (kn_procs (poke _ _ k) cur)) with (p_killed (kn_procs k cur)). rewrite Hk0. cbn [Z.eqb negb].
    rewrite bind_rd_tf, tfr_poke, decide_True by (done || lia). rewrite bind_wr_tf, bind_wr_csr. fold h1.
    change (poke _ (u64 _) _) with (stepped k (h_sepc h)). rewrite (bind_ok _ _ _ _ _ (in_k_run _ _ _ _ _ _ Rs)). cbn [negb].
    unfold usertrap_tail, killed. rewrite bind_k_proc. change (kn_procs k2) with (kn_procs k1). rewrite Hk1. cbn [Z.eqb negb].
    by rewrite (bind_ok _ _ _ _ _ R).
  - rewrite Hregs by (by split; [right; by vm_compute|]). subst k2. rewrite tfr_poke by (apply u64_range || lia). by rewrite decide_True.
  - intros r [Hr1 Hr2] Hne. rewrite Hregs by done. subst k2. rewrite tfr_poke, decide_False by (done || apply u64_range || (revert Hr2 Hne; unfold TF_a0, TF_epc in *; zdiv)). done.
Qed.
End trap.

(** ** A process that asks for its pid *)

#[local] Existing Instance xv6_image.

(** Process 0 with pid 7 and its trapframe at 0x87000000, a7 = SYS_getpid, on hart 0. *)
Definition ex_trap_kernel : kernel :=
  poke (0x87000000 + TF_a7) 11 (set_kn_procs (λ _, mkProc RUNNING None 0 0 7 None 0x3fffffd000 0 0x87001000 0x87000000 (mkContext 0 0 []) (replicate 16 None) None 0) zero_kernel).
Definition ex_hart (cause : Z) : hart := mkHart 0 100 cause 0 0 0x8000000000087fff 0 5000 0 0 0 0 0 0 0 0 0 0 0 0.
Definition ex_plic : plic := mkPlic (λ _, 0) [] [].

Lemma usertrap_syscall_witness : ∃ k' h',
  usertrap 0 boot_slots 0x80002000 0x80003000 0x80004000 0x80005000 (mkMachine ex_trap_kernel (ex_hart 8) ex_plic) =
    Ok (ToUser (MAKE_SATP 0x87001000), mkMachine k' h' ex_plic) ∧
  tfr k' 0 TF_a0 = 7 ∧ h_sepc h' = 104.
Proof.
  destruct (usertrap_syscall 0 boot_slots 0x80002000 0x80003000 0x80004000 0x80005000 ltac:(lia)
    ex_trap_kernel (ex_hart 8) ex_plic SYS_getpid 7 (stepped 0 ex_trap_kernel 100)) as (k' & h' & R & Hu & _ & Ha & Hr).
  { split; cbn; lia. }
  { cbn. lia. }
  { done. }
  { done. }
  { done. }
  { by vm_compute. }
  { done. }
  { done. }
  { by vm_compute. }
  exists k', h'. split; [exact R|]. split; [exact Ha|]. rewrite (ur_sepc _ _ _ _ _ Hu), Hr; [|by split; [left|] | done].
  rewrite stepped_tfr; [done | lia | by split; [left|]].
Defined.

