(* ===== verification/Umalloc.v ===== *)
(** * Umalloc: the user-level allocator (src/user/umalloc.c)

    The free blocks are a circular list sorted by address, threaded through their headers;
    [base] is the header of size 0 it starts from.  A header is 16 bytes: the pointer to
    the next free block and, at offset 8, the block's size in units of 16 bytes, header
    included.  UmallocSpec.v states what the allocator promises its callers. *)

From S2P Require Import Prelude Mem Layout.

Local Open Scope Z_scope.

(** The data segment of the process, as far as the allocator uses it: memory, the static
    variable [freep], the end of the heap, and which of the coming calls of [sbrk] the
    kernel will grant. *)
Record uheap := mkHeap { h_mem : memory; h_freep : Z; h_brk : Z; h_grants : list bool }.

Abbreviation UM := (M uheap).

Definition set_h_mem (m : memory) (h : uheap) : uheap := mkHeap m (h_freep h) (h_brk h) (h_grants h).
Definition set_h_freep (p : Z) (h : uheap) : uheap := mkHeap (h_mem h) p (h_brk h) (h_grants h).
Definition set_h_brk (b : Z) (h : uheap) : uheap := mkHeap (h_mem h) (h_freep h) b (h_grants h).
Definition set_h_grants (g : list bool) (h : uheap) : uheap := mkHeap (h_mem h) (h_freep h) (h_brk h) g.

(** A process cannot be larger than the machine's memory. *)
Definition UMAX : Z := PHYSTOP - KERNBASE.

Definition HEADER : Z := 16.

(** [p->s.ptr] and [p->s.size]. *)
Definition ptr (p : Z) : UM Z := gets (λ h, ld64 (h_mem h) p).
Definition size (p : Z) : UM Z := gets (λ h, ld32 (h_mem h) (p + 8)).
Definition set_ptr (p v : Z) : UM unit := modify (λ h, set_h_mem (st64 (h_mem h) p v) h).
Definition set_size (p v : Z) : UM unit := modify (λ h, set_h_mem (st32 (h_mem h) (p + 8) v) h).

(** The system call as the process sees it: the old end of the heap, or -1.  A break moved
    below 0 stays where it is (uvmdealloc). *)
Definition sbrk (n : Z) : UM Z :=
  h ← get;
  let new := u64 (h_brk h + n) in
  match h_grants h with
  | g :: gs =>
      modify (set_h_grants gs);;
      if negb g || (0 <? n) && (UMAX <? new) then mret (u64 (-1))
      else
        modify (set_h_brk (if n <? 0 then if h_brk h <=? new then h_brk h else new else new));;
        mret (h_brk h)
  | [] => mret (u64 (-1))
  end.

Section Umalloc.
  Context (base : Z).   (** the address of [static Header base] *)

(** No list of free blocks is longer than this. *)
Definition heap_fuel (h : uheap) : nat := Z.to_nat ((h_brk h - base) / HEADER + 2).

(** [for(p = freep; !(bp > p && bp < p->s.ptr); p = p->s.ptr)] *)
Fixpoint free_find (fuel : nat) (bp p : Z) : UM Z :=
  match fuel with
  | O => out_of_fuel
  | S f =>
      q ← ptr p;
      if (p <? bp) && (bp <? q) then mret p
      else if (q <=? p) && ((p <? bp) || (bp <? q)) then mret p
      else free_find f bp q
  end.

(** Join the block [bp] to the free block after it, or link it to it. *)
Definition join_next (bp p : Z) : UM unit :=
  bsz ← size bp;
  q ← ptr p;
  if u64 (bp + HEADER * bsz) =? q then
    qsz ← size q;
    set_size bp (u32 (bsz + qsz));;
    qq ← ptr q;
    set_ptr bp qq
  else set_ptr bp q.

(** Join the free block [p] before it to [bp], or link it to it. *)
Definition join_prev (p bp : Z) : UM unit :=
  psz ← size p;
  if u64 (p + HEADER * psz) =? bp then
    bsz ← size bp;
    set_size p (u32 (psz + bsz));;
    bq ← ptr bp;
    set_ptr p bq
  else set_ptr p bp.

Definition free (ap : Z) : UM unit :=
  let bp := ap - HEADER in
  h ← get;
  p ← free_find (heap_fuel h) bp (h_freep h);
  join_next bp p;;
  join_prev p bp;;
  modify (set_h_freep p).

Definition morecore (nu : Z) : UM Z :=
  let nu := if nu <? 4096 then 4096 else nu in
  p ← sbrk (i32 (nu * HEADER));
  if p =? u64 (-1) then mret 0
  else
    set_size p nu;;
    free (p + HEADER);;
    gets h_freep.

(** The block [p], of [sz] units, serves the request: all of it, or its tail. *)
Definition take_block (nunits prevp p sz : Z) : UM Z :=
  p ← (if sz =? nunits then
         q ← ptr p;
         set_ptr prevp q;;
         mret p
       else
         set_size p (u32 (sz - nunits));;
         let p := u64 (p + HEADER * u32 (sz - nunits)) in
         set_size p nunits;;
         mret p);
  modify (set_h_freep prevp);;
  mret (p + HEADER).

(** [for(p = prevp->s.ptr; ; prevp = p, p = p->s.ptr)] *)
Fixpoint malloc_loop (fuel : nat) (nunits prevp p : Z) : UM Z :=
  match fuel with
  | O => out_of_fuel
  | S f =>
      sz ← size p;
      if nunits <=? sz then take_block nunits prevp p sz
      else
        freep ← gets h_freep;
        if p =? freep then
          p ← morecore nunits;
          if p =? 0 then mret 0 else q ← ptr p; malloc_loop f nunits p q
        else q ← ptr p; malloc_loop f nunits p q
  end.

Definition malloc (nbytes : Z) : UM Z :=
  let nunits := u32 ((nbytes + HEADER - 1) / HEADER + 1) in
  freep ← gets h_freep;
  prevp ← (if freep =? 0 then
             set_ptr base base;;
             modify (set_h_freep base);;
             set_size base 0;;
             mret base
           else mret freep);
  h ← get;
  p ← ptr prevp;
  malloc_loop (2 * heap_fuel h + 2) nunits prevp p.
End Umalloc.
