(* ===== verification/UmallocSpec.v ===== *)
(** * UmallocSpec: malloc and free never hand out the same memory twice
    (src/user/umalloc.c)

    The heap is a list of free blocks and a set of blocks in use, all apart from each
    other; [malloc] moves memory from the first to the second and [free] moves it back,
    and neither touches a byte of another block in use. *)

From stdpp Require Import sorting.
From S2P Require Import Prelude Mem Layout Umalloc.

Local Open Scope Z_scope.

(** A block: the address of its header and its size in units. *)
Abbreviation blk := (Z * Z)%type.

(** The bytes a block takes: at least its header. *)
Definition ext (b : blk) : Z := HEADER * Z.max 1 b.2.

Definition in_blk (b : blk) (x : Z) : Prop := b.1 ≤ x < b.1 + ext b.

(** Free blocks are in order of address, and have something between them. *)
Definition before (b c : blk) : Prop := b.1 + ext b ≤ c.1 ∧ b.1 + HEADER * b.2 < c.1.

Definition apart (b c : blk) : Prop := b.1 + ext b ≤ c.1 ∨ c.1 + ext c ≤ b.1.

Definition head_addr (r : list blk) (z : Z) : Z := match r with [] => z | b :: _ => b.1 end.

(** The headers of [r] are linked, the last one to [z]. *)
Fixpoint lseg (m : memory) (r : list blk) (z : Z) : Prop :=
  match r with
  | [] => True
  | b :: r' => ld64 m b.1 = head_addr r' z ∧ ld32 m (b.1 + 8) = b.2 ∧ lseg m r' z
  end.

Lemma lseg_app m r1 r2 z : lseg m (r1 ++ r2) z ↔ lseg m r1 (head_addr r2 z) ∧ lseg m r2 z.
Proof.
  induction r1 as [|b r1 IH]; cbn [lseg app]; [tauto|]. rewrite IH.
  assert (head_addr (r1 ++ r2) z = head_addr r1 (head_addr r2 z)) as -> by (by destruct r1). tauto.
Qed.

(** ** Headers in memory *)

Lemma ld32_ext m m' a : (∀ i, a ≤ i < a + 4 → ld8 m i = ld8 m' i) → ld32 m a = ld32 m' a.
Proof. intros Hext. apply ldle_ext. intros i Hi. apply Hext. lia. Qed.

Lemma ld8_st32_ne m a v b : b < a ∨ a + 4 ≤ b → ld8 (st32 m a v) b = ld8 m b.
Proof. apply (ld8_stle 4). Qed.

Lemma ld64_st32_ne m a v b : b + 8 ≤ a ∨ a + 4 ≤ b → ld64 (st32 m a v) b = ld64 m b.
Proof. intros H. apply ld64_ext. intros i Hi. apply ld8_st32_ne. lia. Qed.

Lemma ld32_st64_ne m a v b : b + 4 ≤ a ∨ a + 8 ≤ b → ld32 (st64 m a v) b = ld32 m b.
Proof. intros H. apply ld32_ext. intros i Hi. apply ld8_st64_ne. lia. Qed.

#[local] Opaque st64 ld64 st32 ld32.

(** Only the headers at the addresses [A] differ. *)
Definition hdrs (A : list Z) (m m' : memory) : Prop :=
  ∀ x, (∀ a, a ∈ A → x < a ∨ a + HEADER ≤ x) → ld8 m' x = ld8 m x.

Lemma hdrs_refl A m : hdrs A m m.
Proof. done. Qed.

Lemma hdrs_st64 A m m' a v : hdrs A m m' → a ∈ A → hdrs A m (st64 m' a v).
Proof. intros H Ha x Hx. rewrite ld8_st64_ne; [by apply H|]. destruct (Hx a Ha); unfold HEADER in *; lia. Qed.

Lemma hdrs_st32 A m m' a v : hdrs A m m' → a ∈ A → hdrs A m (st32 m' (a + 8) v).
Proof. intros H Ha x Hx. rewrite ld8_st32_ne; [by apply H|]. destruct (Hx a Ha); unfold HEADER in *; lia. Qed.

(** A header apart from those is as it was. *)
Lemma hdrs_keep A m m' b :
  hdrs A m m' → (∀ a, a ∈ A → b + HEADER ≤ a ∨ a + HEADER ≤ b) → ld64 m' b = ld64 m b ∧ ld32 m' (b + 8) = ld32 m (b + 8).
Proof.
  intros H Hb. split; [apply ld64_ext | apply ld32_ext]; intros x Hx; apply H; intros a Ha;
    destruct (Hb a Ha); unfold HEADER in *; lia.
Qed.

Lemma lseg_keep A m m' r z :
  hdrs A m m' → (∀ b a, b ∈ r → a ∈ A → b.1 + HEADER ≤ a ∨ a + HEADER ≤ b.1) → lseg m r z → lseg m' r z.
Proof.
  intros H. induction r as [|b r IH]; [done|]. intros Hr (H1 & H2 & H3).
  destruct (hdrs_keep A m m' b.1 H) as [E1 E2]; [intros a; apply Hr; by constructor|].
  cbn [lseg]. rewrite E1, E2. split_and!; [done..|]. apply IH; [|done]. intros c a Hc. apply Hr. by constructor.
Qed.

Lemma ext_ge b : HEADER ≤ ext b ∧ HEADER * b.2 ≤ ext b.
Proof. unfold ext, HEADER. lia. Qed.

Lemma lseg_in m r z b : lseg m r z → b ∈ r → ld32 m (b.1 + 8) = b.2.
Proof. intros H [r1 [r2 ->]]%list_elem_of_split. apply lseg_app in H as [_ (_ & H & _)]. done. Qed.

Lemma lseg_next m r1 b r2 z : lseg m (r1 ++ b :: r2) z → ld64 m b.1 = head_addr r2 z.
Proof. intros H. apply lseg_app in H as [_ (H & _ & _)]. done. Qed.

Section heap.
  Context (base : Z).

(** ** The invariant *)

(** The free blocks are [r], from [base] on, and the blocks in use are [live]. *)
Record heap_ok (h : uheap) (r live : list blk) : Prop := {
  ho_head : ∃ fs, r = (base, 0) :: fs ∧ ∀ b, b ∈ fs → 1 ≤ b.2;
  ho_link : lseg (h_mem h) r base;
  ho_sort : StronglySorted before r;
  ho_freep : ∃ b, b ∈ r ∧ h_freep h = b.1;
  ho_hdr b : b ∈ live → 1 ≤ b.2 ∧ ld32 (h_mem h) (b.1 + 8) = b.2;
  ho_apart b c : b ∈ r → c ∈ live → apart b c;
  ho_live : ForallOrdPairs apart live;
  ho_range b : b ∈ r ∨ b ∈ live → base ≤ b.1 ∧ b.1 + ext b ≤ h_brk h;
  ho_brk : 0 < base ∧ h_brk h ≤ UMAX;
}.

(** ** Finding the place of a block *)

Fixpoint last_of (p : blk) (l : list blk) : blk := match l with [] => p | c :: l' => last_of c l' end.

Lemma last_of_split p l : ∃ l', p :: l = l' ++ [last_of p l].
Proof. revert p. induction l as [|c l IH]; intros p; [by exists []|]. destruct (IH c) as [l' E]. exists (p :: l'). cbn. by rewrite <- E. Qed.

(** Up the list to the last header below [bp]. *)
Lemma find_up bp l2 h : ∀ l p fuel,
  lseg (h_mem h) (p :: l ++ l2) base → StronglySorted before (p :: l ++ l2) → base ≤ p.1 →
  (∀ b, b ∈ p :: l → b.1 < bp) → (∀ b, b ∈ l2 → bp < b.1) → (length l < fuel)%nat →
  free_find fuel bp p.1 h = Ok ((last_of p l).1, h).
Proof.
  induction l as [|c l IH]; intros p fuel Hl Hs Hb Hlo Hhi Hf; (destruct fuel as [|fuel]; [cbn in Hf; lia|]);
    cbn [free_find]; unfold ptr; rewrite bind_gets; destruct Hl as (E & _ & Hl); rewrite E; pose proof (Hlo p ltac:(by constructor)).
  - cbn [app head_addr]. destruct l2 as [|d l2]; cbn [head_addr].
    + destruct (Z.ltb_spec p.1 bp); [|lia]. destruct (Z.ltb_spec bp base); [lia|].
      destruct (Z.leb_spec base p.1); [|lia]. done.
    + destruct (Z.ltb_spec p.1 bp); [|lia]. pose proof (Hhi d ltac:(by constructor)). by destruct (Z.ltb_spec bp d.1); [|lia].
  - cbn [app head_addr]. assert (Hc : c.1 < bp) by (apply Hlo; do 2 constructor).
    apply StronglySorted_cons in Hs as [Hpc Hs]. assert (Hpc' : before p c) by (by apply Forall_cons in Hpc as [? _]).
    pose proof (ext_ge p). unfold before, HEADER in *.
    destruct (Z.ltb_spec bp c.1); [lia|]. rewrite andb_false_r. destruct (Z.leb_spec c.1 p.1); [lia|]. cbn [andb].
    apply IH; [done | done | lia | | done | cbn in Hf; lia]. intros b Hin. apply Hlo. by constructor.
Qed.

(** From a header above [bp] round to the first one. *)
Lemma find_round bp h : ∀ l p fuel,
  lseg (h_mem h) (p :: l) base → StronglySorted before (p :: l) → base < bp →
  (∀ b, b ∈ p :: l → bp < b.1) → (length l < fuel)%nat →
  free_find fuel bp p.1 h = free_find (fuel - S (length l)) bp base h.
Proof.
  induction l as [|c l IH]; intros p fuel Hl Hs Hb Hhi Hf; (destruct fuel as [|fuel]; [cbn in Hf; lia|]);
    cbn [free_find]; unfold ptr; rewrite bind_gets; destruct Hl as (E & _ & Hl); rewrite E; pose proof (Hhi p ltac:(by constructor)).
  - cbn [head_addr length]. destruct (Z.ltb_spec p.1 bp); [lia|]. cbn [andb orb].
    destruct (Z.ltb_spec bp base); [lia|]. rewrite andb_false_r. f_equal. lia.
  - cbn [head_addr length]. destruct (Z.ltb_spec p.1 bp); [lia|]. cbn [andb orb].
    apply StronglySorted_cons in Hs as [Hpc Hs]. assert (Hpc' : before p c) by (by apply Forall_cons in Hpc as [? _]).
    pose proof (ext_ge p). unfold before, HEADER in *.
    destruct (Z.leb_spec c.1 p.1); [lia|]. cbn [andb].
    rewrite (IH c fuel); [done | done | done | done | | cbn in Hf; lia].
    intros b Hin. apply Hhi. by constructor.
Qed.

Lemma sorted_split bp l :
  StronglySorted before l → (∀ b, b ∈ l → b.1 ≠ bp) →
  ∃ l1 l2, l = l1 ++ l2 ∧ (∀ b, b ∈ l1 → b.1 < bp) ∧ (∀ b, b ∈ l2 → bp < b.1).
Proof.
  induction l as [|c l IH]; intros Hs Hne; [by exists [], []; split_and!; [|intros ??%elem_of_nil..]|].
  apply StronglySorted_cons in Hs as [Hc Hs]. assert (Hcb : c.1 ≠ bp) by (apply Hne; by constructor).
  destruct (decide (c.1 < bp)).
  - destruct IH as (l1 & l2 & -> & H1 & H2); [done | intros b Hb; apply Hne; by constructor|].
    exists (c :: l1), l2. split_and!; [done | | done]. intros b [->|Hb]%elem_of_cons; auto.
  - exists [], (c :: l). split_and!; [done | by intros ??%elem_of_nil|]. intros b [->|Hb]%elem_of_cons; [lia|].
    rewrite Forall_forall in Hc. destruct (Hc b Hb). pose proof (ext_ge c). unfold HEADER in *. lia.
Qed.

Lemma sorted_length l : ∀ lo hi, StronglySorted before l → lo ≤ hi → (∀ b, b ∈ l → lo ≤ b.1 ∧ b.1 + ext b ≤ hi) →
  lo + HEADER * Z.of_nat (length l) ≤ hi.
Proof.
  induction l as [|c l IH]; intros lo hi Hs Hle Hr; cbn [length]; [lia|].
  apply StronglySorted_cons in Hs as [Hc Hs]. pose proof (ext_ge c). destruct (Hr c) as [H1 H2]; [by constructor|].
  specialize (IH (c.1 + ext c) hi Hs H2). rewrite Forall_forall in Hc.
  assert (c.1 + ext c + HEADER * Z.of_nat (length l) ≤ hi); [|unfold HEADER in *; lia].
  apply IH. intros b Hb. split; [by apply Hc | apply Hr; by constructor].
Qed.

Lemma ring_length h r live : heap_ok h r live → (length r < heap_fuel base h)%nat.
Proof.
  intros Hh. destruct (ho_head _ _ _ Hh) as (fs & -> & _). destruct (ho_brk _ _ _ Hh) as [Hb _].
  pose proof (sorted_length _ base (h_brk h) (ho_sort _ _ _ Hh)) as Hl.
  assert (Hr : ∀ b, b ∈ (base, 0) :: fs → base ≤ b.1 ∧ b.1 + ext b ≤ h_brk h) by (intros b Hin; apply (ho_range _ _ _ Hh); by left).
  destruct (Hr (base, 0)) as [_ He]; [by constructor|]. specialize (Hl ltac:(unfold ext, HEADER in He; cbn in He; lia) Hr).
  unfold heap_fuel, HEADER in *. zdiv.
Qed.

(** The loop of [free] finds the free blocks around [bp]. *)
Lemma find_ok h r live bp :
  heap_ok h r live → base < bp → (∀ b, b ∈ r → b.1 ≠ bp) →
  ∃ l1 p l2, r = l1 ++ p :: l2 ∧ free_find (heap_fuel base h) bp (h_freep h) h = Ok (p.1, h) ∧
    p.1 < bp ∧ (∀ b, b ∈ l2 → bp < b.1).
Proof.
  intros Hh Hb Hne. pose proof (ring_length _ _ _ Hh) as Hlen. destruct (ho_head _ _ _ Hh) as (fs & -> & _).
  pose proof (ho_sort _ _ _ Hh) as Hs. pose proof (ho_link _ _ _ Hh) as Hl.
  destruct (ho_freep _ _ _ Hh) as (f & Hf & ->).
  destruct (sorted_split bp fs) as (l & l2 & -> & H1 & H2); [by apply StronglySorted_cons in Hs as [_ ?] | intros b Hin; apply Hne; by constructor|].
  set (p0 := (base, 0) : blk) in *. destruct (last_of_split p0 l) as [l1 E]. set (p := last_of p0 l) in *.
  assert (Hlo : ∀ b, b ∈ p0 :: l → b.1 < bp) by (intros b [->|Hin]%elem_of_cons; [done | auto]).
  assert (Er : p0 :: l ++ l2 = l1 ++ p :: l2) by (rewrite app_comm_cons, E, <- app_assoc; done).
  exists l1, p, l2. split_and!; [done | | apply Hlo; rewrite E; apply elem_of_app; right; by constructor | done].
  assert (Hbase : ∀ fuel, (length l < fuel)%nat → free_find fuel bp base h = Ok (p.1, h)).
  { intros fuel Hfu. by apply (find_up bp l2 h l p0 fuel). }
  rewrite length_cons, length_app in Hlen. rewrite app_comm_cons in Hf. apply elem_of_app in Hf as [Hf|Hf].
  - apply list_elem_of_split in Hf as (a & c & Ea).
    assert (Ep : last_of f c = p).
    { destruct (last_of_split f c) as [c' Ec].
      rewrite Ec, app_assoc, E in Ea. by apply app_inj_tail in Ea as [_ ->]. }
    rewrite <- Ep. rewrite app_comm_cons, Ea, <- app_assoc in Hl, Hs.
    apply lseg_app in Hl as [_ Hl]. apply StronglySorted_app in Hs as (_ & _ & Hs).
    apply (find_up bp l2 h c f); [done | done | | | done |].
    + apply (ho_range _ _ _ Hh). left. rewrite app_comm_cons, Ea, <- app_assoc. apply elem_of_app. right. by constructor.
    + intros b Hin. apply Hlo. rewrite Ea. apply elem_of_app. by right.
    + apply (f_equal length) in Ea. rewrite length_app in Ea. cbn [length] in Ea. lia.
  - apply list_elem_of_split in Hf as (a & c & ->).
    rewrite app_comm_cons, app_assoc in Hl, Hs. apply lseg_app in Hl as [_ Hl]. apply StronglySorted_app in Hs as (_ & _ & Hs).
    rewrite length_app in Hlen. cbn [length] in Hlen.
    rewrite (find_round bp h c f); [|done | done | done | | lia].
    + apply Hbase. lia.
    + intros b Hin. apply H2. apply elem_of_app. by right.
Qed.

(** ** Joining blocks *)

(** The block [b] put before the free blocks [l]: joined to the first when they touch. *)
Definition join (b : blk) (l : list blk) : list blk :=
  match l with
  | c :: l' => if b.1 + HEADER * b.2 =? c.1 then (b.1, b.2 + c.2) :: l' else b :: l
  | [] => [b]
  end.

Lemma UMAX_eq : UMAX = 2 ^ 27.
Proof. done. Qed.

Lemma lseg_bounds m l z : lseg m l z → z < 2 ^ 63 → (∀ b, b ∈ l → b.1 < 2 ^ 63) → head_addr l z < 2 ^ 63.
Proof. destruct l as [|c l]; cbn; [done|]. intros _ _ H. apply H. by constructor. Qed.

Lemma join_next_ok h bp bs p l :
  let m := h_mem h in
  0 < base < bp → 1 ≤ bs → bp + HEADER * bs ≤ UMAX → ld32 m (bp + 8) = bs → ld64 m p = head_addr l base → lseg m l base →
  (∀ b, b ∈ l → bp + HEADER * bs ≤ b.1 ∧ 1 ≤ b.2 ∧ b.1 + ext b ≤ UMAX) →
  ∃ m' n rest, join_next bp p h = Ok (tt, set_h_mem m' h) ∧ join (bp, bs) l = (bp, n) :: rest ∧ hdrs [bp] m m' ∧
    lseg m' ((bp, n) :: rest) base.
Proof.
  intros m Hb Hbs Htop Hsz Hp Hl Hr. pose proof UMAX_eq as HU. unfold join_next, size, ptr, set_size, set_ptr.
  rewrite !bind_gets. fold m. rewrite Hsz, Hp. unfold HEADER in *. rewrite u64_small by lia.
  destruct l as [|c l]; cbn [head_addr join fst snd] in *.
  { destruct (Z.eqb_spec (bp + 16 * bs) base); [lia|]. exists (st64 m bp base), bs, []. split_and!; [done..| |].
    - apply hdrs_st64; [done | by constructor].
    - cbn [lseg head_addr fst snd]. rewrite ld64_st64_eq, ld32_st64_ne by lia. done. }
  destruct (Hr c ltac:(by constructor)) as (Hc1 & Hc2 & Hc3). pose proof (ext_ge c). unfold HEADER in *.
  destruct Hl as (L1 & L2 & L3).
  assert (Hfar : ∀ b a, b ∈ l → a ∈ [bp] → b.1 + HEADER ≤ a ∨ a + HEADER ≤ b.1).
  { intros b a Hin ->%list_elem_of_singleton. destruct (Hr b ltac:(by constructor)). unfold HEADER. lia. }
  assert (Hnx : 0 ≤ head_addr l base < 2 ^ 64).
  { destruct l as [|d l]; cbn; [lia|]. destruct (Hr d ltac:(by do 2 constructor)) as (? & ? & ?). pose proof (ext_ge d). unfold HEADER in *. lia. }
  destruct (Z.eqb_spec (bp + 16 * bs) c.1) as [E|E].
  - rewrite !bind_gets, bind_modify, bind_gets. cbn [h_mem set_h_mem]. fold m. rewrite L2, (u32_small (bs + c.2)) by lia.
    rewrite ld64_st32_ne, L1 by lia.
    set (m' := st64 (st32 m (bp + 8) (bs + c.2)) bp (head_addr l base)).
    assert (Hh : hdrs [bp] m m') by (apply hdrs_st64; [apply hdrs_st32; [done|] |]; by constructor).
    exists m', (bs + c.2), l. split_and!; [done | done | done|]. cbn [lseg head_addr fst snd].
    split_and!; [by apply ld64_st64_eq | | by eapply lseg_keep].
    unfold m'. by rewrite ld32_st64_ne, ld32_st32_eq, u32_small by lia.
  - set (m' := st64 m bp c.1).
    assert (Hh : hdrs [bp] m m') by (apply hdrs_st64; [done | by constructor]).
    exists m', bs, (c :: l). split_and!; [done | done | done|]. cbn [lseg head_addr fst snd].
    split_and!; [apply ld64_st64_eq; lia | unfold m'; by rewrite ld32_st64_ne by lia | | | by eapply lseg_keep];
      (destruct (hdrs_keep [bp] m m' c.1 Hh) as [E1 E2]; [intros a ->%list_elem_of_singleton; unfold HEADER; lia | congruence]).
Qed.

Lemma join_prev_ok h pa ps bp n rest :
  let m := h_mem h in
  0 < pa → 0 ≤ ps → pa + HEADER * ps ≤ bp → pa + HEADER ≤ bp → 1 ≤ n → bp + HEADER * n ≤ UMAX →
  ld32 m (pa + 8) = ps → lseg m ((bp, n) :: rest) base → 0 < base →
  (∀ b, b ∈ rest → bp + HEADER ≤ b.1 ∧ b.1 + ext b ≤ UMAX) →
  ∃ m', join_prev pa bp h = Ok (tt, set_h_mem m' h) ∧ hdrs [pa] m m' ∧ lseg m' (join (pa, ps) ((bp, n) :: rest)) base.
Proof.
  intros m Hpa Hps Hend Hgap Hn Htop Hsz Hl Hb Hr. pose proof UMAX_eq as HU. unfold join_prev, size, ptr, set_size, set_ptr.
  rewrite !bind_gets. fold m. rewrite Hsz. unfold HEADER in *. rewrite u64_small by lia. cbn [join fst snd]. unfold HEADER.
  pose proof Hl as (L1 & L2 & L3). cbn [fst snd] in L1, L2.
  assert (Hfar : ∀ b a, b ∈ (bp, n) :: rest → a ∈ [pa] → b.1 + HEADER ≤ a ∨ a + HEADER ≤ b.1).
  { intros b a Hin ->%list_elem_of_singleton. unfold HEADER. apply elem_of_cons in Hin as [->|Hin]; [cbn; lia|]. destruct (Hr b Hin). lia. }
  assert (Hnx : 0 ≤ head_addr rest base < 2 ^ 64).
  { destruct rest as [|d l]; cbn; [|destruct (Hr d ltac:(by constructor)); pose proof (ext_ge d); unfold HEADER in *; lia].
    pose proof (ld64_range m bp). cbn in L1. lia. }
  destruct (Z.eqb_spec (pa + 16 * ps) bp) as [E|E].
  - rewrite bind_gets, bind_modify, bind_gets. cbn [h_mem set_h_mem]. fold m. rewrite L2, (u32_small (ps + n)) by lia.
    rewrite ld64_st32_ne, L1 by lia. set (m' := st64 (st32 m (pa + 8) (ps + n)) pa (head_addr rest base)).
    assert (Hh : hdrs [pa] m m') by (apply hdrs_st64; [apply hdrs_st32; [done|] |]; by constructor).
    exists m'. split_and!; [done | done|]. cbn [lseg head_addr fst snd].
    split_and!; [by apply ld64_st64_eq | | ].
    + unfold m'. by rewrite ld32_st64_ne, ld32_st32_eq, u32_small by lia.
    + eapply lseg_keep; [exact Hh | intros b a Hin; apply Hfar; by constructor | done].
  - set (m' := st64 m pa bp).
    assert (Hh : hdrs [pa] m m') by (apply hdrs_st64; [done | by constructor]).
    exists m'. split; [done|]. split; [done|]. split; [apply ld64_st64_eq; cbn; lia|].
    split; [unfold m'; by rewrite ld32_st64_ne by (cbn; lia)|]. apply (lseg_keep [pa] m m' ((bp, n) :: rest)); done.
Qed.

Definition units (l : list blk) : Z := foldr (λ b n, b.2 + n) 0 l.

Lemma join_cases b l x :
  x ∈ join b l → x = b ∨ x ∈ l ∨ ∃ c, c ∈ l ∧ b.1 + HEADER * b.2 = c.1 ∧ x = (b.1, b.2 + c.2).
Proof.
  destruct l as [|c l]; cbn [join]; [rewrite list_elem_of_singleton; auto|].
  destruct (Z.eqb_spec (b.1 + HEADER * b.2) c.1) as [E|_]; intros [->|Hx]%elem_of_cons; auto.
  - right. right. exists c. split_and!; [by constructor | done..].
  - right. left. by constructor.
Qed.

Lemma join_units b l : units (join b l) = b.2 + units l.
Proof. destruct l as [|c l]; cbn; [done|]. destruct (_ =? _); cbn; lia. Qed.

Lemma join_sorted b l :
  0 ≤ b.2 → (∀ c, c ∈ l → b.1 + ext b ≤ c.1 ∧ 1 ≤ c.2) → StronglySorted before l → StronglySorted before (join b l).
Proof.
  intros Hb Hbl Hs. destruct l as [|c l]; [by repeat constructor|]. cbn [join].
  destruct (Hbl c ltac:(by constructor)) as [H1 H2]. pose proof (ext_ge b). pose proof Hs as [Hc Hl]%StronglySorted_cons. rewrite Forall_forall in Hc.
  destruct (Z.eqb_spec (b.1 + HEADER * b.2) c.1) as [E|E]; apply StronglySorted_cons; (split; [|done]); apply Forall_forall; intros d Hd.
  - destruct (Hc d Hd) as [H3 H4]. unfold before, ext, HEADER in *. cbn [fst snd]. lia.
  - apply elem_of_cons in Hd as [->|Hd]; [split; lia|]. destruct (Hc d Hd) as [H3 H4]. pose proof (ext_ge c). unfold before, HEADER in *. lia.
Qed.

(** What holds of the blocks joined holds of the result. *)
Lemma join_apart y b l : 0 ≤ b.2 → (∀ c, c ∈ l → b.1 + ext b ≤ c.1 ∧ 1 ≤ c.2) →
  apart b y → (∀ c, c ∈ l → apart c y) → ∀ c, c ∈ join b l → apart c y.
Proof.
  intros Hb Hbl Hy Hl c [->|[Hc|(d & Hd & E & ->)]]%join_cases; auto.
  destruct (Hbl d Hd) as [H1 H2]. specialize (Hl d Hd). pose proof (ext_ge y). unfold apart, ext, HEADER in *. cbn [fst snd]. lia.
Qed.

Lemma join_range b l lo hi : 0 ≤ b.2 → (∀ c, c ∈ l → b.1 + ext b ≤ c.1 ∧ 1 ≤ c.2) →
  lo ≤ b.1 → b.1 + ext b ≤ hi → (∀ c, c ∈ l → c.1 + ext c ≤ hi) → ∀ c, c ∈ join b l → lo ≤ c.1 ∧ b.1 ≤ c.1 ∧ c.1 + ext c ≤ hi.
Proof.
  intros Hb Hbl Hlo Hhi Hl c [->|[Hc|(d & Hd & E & ->)]]%join_cases; [lia | |].
  - destruct (Hbl c Hc). specialize (Hl c Hc). pose proof (ext_ge b). unfold HEADER in *. lia.
  - destruct (Hbl d Hd) as [H1 H2]. specialize (Hl d Hd). unfold ext, HEADER in *. cbn [fst snd]. lia.
Qed.

(** The joined blocks contain the parts. *)
Lemma join_big b l x : 0 ≤ b.2 → (∀ c, c ∈ l → 1 ≤ c.2) → x ∈ b :: l → ∃ c, c ∈ join b l ∧ x.2 ≤ c.2.
Proof.
  intros Hb Hl Hx. destruct l as [|c l]; [by exists x|]. cbn [join]. pose proof (Hl c ltac:(by constructor)).
  destruct (_ =? _); [|by exists x]. apply elem_of_cons in Hx as [->|[->|Hx]%elem_of_cons].
  1,2: exists (b.1, b.2 + c.2); split; [by constructor | cbn; lia].
  exists x. split; [by constructor | done].
Qed.

(** ** free *)

Lemma join_head b l : ∃ n rest, join b l = (b.1, n) :: rest.
Proof. destruct l as [|c l]; cbn; [by exists b.2, []; destruct b|]. destruct (_ =? _); [eauto|]. exists b.2. destruct b; eauto. Qed.

Lemma join_length b l : (length (join b l) ≤ S (length l))%nat.
Proof. destruct l as [|c l]; cbn; [lia|]. destruct (_ =? _); cbn; lia. Qed.

Lemma units_app l1 l2 : units (l1 ++ l2) = units l1 + units l2.
Proof. unfold units. induction l1 as [|b l1 IH]; cbn [app foldr]; lia. Qed.

Section insert.
  Context (h : uheap) (b p : blk) (l1 l2 live : list blk).
  Hypothesis Hh : heap_ok h (l1 ++ p :: l2) (b :: live).
  Hypothesis Hp : p.1 < b.1.
  Hypothesis Hl2 : ∀ c, c ∈ l2 → b.1 < c.1.

Lemma ring_pos c : c ∈ l1 ++ p :: l2 → 0 ≤ c.2 ∧ (c.1 ≠ base → 1 ≤ c.2).
Proof. destruct (ho_head _ _ _ Hh) as (fs & -> & Hpos). intros [->|Hc]%elem_of_cons; [done|]. specialize (Hpos c Hc). lia. Qed.

Lemma ring_base c : c ∈ l1 ++ p :: l2 → base ≤ c.1.
Proof. intros Hc. apply (ho_range _ _ _ Hh). by left. Qed.

Lemma ins_pos : 1 ≤ b.2.
Proof. apply (ho_hdr _ _ _ Hh). by constructor. Qed.

Lemma ins_p : p.1 + ext p ≤ b.1 ∧ 0 ≤ p.2.
Proof.
  assert (Hin : p ∈ l1 ++ p :: l2) by (apply elem_of_app; right; by constructor). split; [|by apply ring_pos].
  destruct (ho_apart _ _ _ Hh p b Hin ltac:(by constructor)); [done|]. pose proof (ext_ge b). unfold HEADER in *. lia.
Qed.

Lemma ins_l2 c : c ∈ l2 → b.1 + ext b ≤ c.1 ∧ 1 ≤ c.2.
Proof.
  intros Hc. assert (Hin : c ∈ l1 ++ p :: l2) by (apply elem_of_app; right; by constructor).
  specialize (Hl2 c Hc). assert (Hpin : base ≤ p.1) by (apply ring_base, elem_of_app; right; by constructor).
  split; [|apply ring_pos; [done | lia]].
  destruct (ho_apart _ _ _ Hh c b Hin ltac:(by constructor)); [|done]. pose proof (ext_ge c). unfold HEADER in *. lia.
Qed.

Lemma ins_mid c : c ∈ join b l2 → p.1 + ext p ≤ c.1 ∧ 1 ≤ c.2.
Proof.
  pose proof ins_p as [Hpp _]. pose proof ins_pos. pose proof (ext_ge b).
  intros [->|[Hc|(d & Hd & E & ->)]]%join_cases; [done | |].
  - apply ins_l2 in Hc. unfold HEADER in *. lia.
  - apply ins_l2 in Hd. cbn. lia.
Qed.

Lemma ins_sorted : StronglySorted before (l1 ++ join p (join b l2)).
Proof.
  pose proof (ho_sort _ _ _ Hh) as (H1 & H2 & [H3 H4]%StronglySorted_cons)%StronglySorted_app.
  pose proof ins_p as [_ Hpp]. apply StronglySorted_app. split_and!; [|done|].
  - intros x y Hx Hy. assert (before x p) as [E1 E2] by (apply H1; [done | by constructor]).
    assert (p.1 ≤ y.1).
    { apply join_cases in Hy as [->|[Hy|(d & Hd & E & ->)]]; [done | | done]. apply ins_mid in Hy. pose proof (ext_ge p). unfold HEADER in *. lia. }
    unfold before. lia.
  - apply join_sorted; [done | apply ins_mid|]. apply join_sorted; [pose proof ins_pos; lia | apply ins_l2 | done].
Qed.

Lemma ins_apart c d : c ∈ l1 ++ join p (join b l2) → d ∈ live → apart c d.
Proof.
  intros Hc Hd. assert (Hr : ∀ x, x ∈ l1 ++ p :: l2 → apart x d) by (intros x Hx; apply (ho_apart _ _ _ Hh); [done | by constructor]).
  apply elem_of_app in Hc as [Hc|Hc]; [apply Hr, elem_of_app; by left|]. revert c Hc.
  apply join_apart; [apply ins_p | apply ins_mid | apply Hr, elem_of_app; right; by constructor|].
  apply join_apart; [pose proof ins_pos; lia | apply ins_l2 | |].
  - pose proof (ho_live _ _ _ Hh) as Hl. inversion Hl as [|? ? Hf _]; subst. by eapply Forall_forall in Hf.
  - intros c Hc. apply Hr, elem_of_app. right. by constructor.
Qed.

Lemma ins_range c : c ∈ l1 ++ join p (join b l2) → base ≤ c.1 ∧ c.1 + ext c ≤ h_brk h.
Proof.
  assert (Hr : ∀ x, x ∈ l1 ++ p :: l2 → base ≤ x.1 ∧ x.1 + ext x ≤ h_brk h) by (intros x Hx; apply (ho_range _ _ _ Hh); by left).
  assert (Hpr : base ≤ p.1 ∧ p.1 + ext p ≤ h_brk h) by (apply Hr, elem_of_app; right; by constructor).
  intros [Hc|Hc]%elem_of_app; [apply Hr, elem_of_app; by left|].
  destruct (join_range p (join b l2) base (h_brk h)) with c as (? & ? & ?); [apply ins_p | apply ins_mid | apply Hpr | apply Hpr | | done | lia].
  intros x Hx. apply (join_range b l2 base (h_brk h)); [pose proof ins_pos; lia | apply ins_l2 | | | | done].
  - apply (ho_range _ _ _ Hh). right. by constructor.
  - apply (ho_range _ _ _ Hh). right. by constructor.
  - intros y Hy. apply Hr, elem_of_app. right. by constructor.
Qed.

Lemma ins_head : ∃ fs, l1 ++ join p (join b l2) = (base, 0) :: fs ∧ ∀ c, c ∈ fs → 1 ≤ c.2.
Proof.
  destruct (ho_head _ _ _ Hh) as (fs & E & Hpos).
  assert ((l1 = [] ∧ p = (base, 0)) ∨ ∃ l1', l1 = (base, 0) :: l1' ∧ fs = l1' ++ p :: l2) as [[E1 E2]|(l1' & E1 & E2)].
  { generalize l1 E. intros [|x l] Ex; [left | right]; injection Ex as -> <-; eauto. }
  - destruct (join_head b l2) as (n & rest & Ej). exists (join b l2). split; [|intros c Hc; by apply ins_mid].
    rewrite E1, E2, Ej. cbn [join fst snd app]. destruct (Z.eqb_spec (base + HEADER * 0) b.1); [|done]. rewrite E2 in Hp. cbn in Hp. lia.
  - exists (l1' ++ join p (join b l2)). split; [by rewrite E1|]. rewrite E2 in Hpos.
    intros c [Hc|[->|[Hc|(d & Hd & _ & ->)]]%join_cases]%elem_of_app.
    + apply Hpos, elem_of_app. by left.
    + apply Hpos, elem_of_app. right. by constructor.
    + by apply ins_mid.
    + apply ins_mid in Hd. pose proof ins_p. cbn. lia.
Qed.
End insert.

(** Headers of blocks apart from each other are apart. *)
Lemma apart_hdr b c : apart b c → b.1 + HEADER ≤ c.1 ∨ c.1 + HEADER ≤ b.1.
Proof. pose proof (ext_ge b). pose proof (ext_ge c). unfold apart. lia. Qed.

Lemma hdrs_in_blk A m m' c x :
  hdrs A m m' → (∀ a, a ∈ A → a + HEADER ≤ c.1 ∨ c.1 + ext c ≤ a) → in_blk c x → ld8 m' x = ld8 m x.
Proof. intros H HA Hx. apply H. intros a Ha. destruct (HA a Ha); unfold in_blk, HEADER in *; lia. Qed.

Lemma hdrs_mono A B m m' : hdrs A m m' → (∀ a, a ∈ A → a ∈ B) → hdrs B m m'.
Proof. intros H HAB x Hx. apply H. intros a Ha. apply Hx. auto. Qed.

Lemma hdrs_trans A m1 m2 m3 : hdrs A m1 m2 → hdrs A m2 m3 → hdrs A m1 m3.
Proof. intros H1 H2 x Hx. rewrite H2, H1; auto. Qed.

(** The memory that [free] leaves behind. *)
Lemma free_run h r b live :
  heap_ok h r (b :: live) →
  ∃ l1 p l2 m', r = l1 ++ p :: l2 ∧ p.1 < b.1 ∧ (∀ c, c ∈ l2 → b.1 < c.1) ∧
    free base (b.1 + HEADER) h = Ok (tt, set_h_freep p.1 (set_h_mem m' h)) ∧
    hdrs [b.1; p.1] (h_mem h) m' ∧ lseg m' (l1 ++ join p (join b l2)) base.
Proof.
  intros Hh. pose proof UMAX_eq as HU. destruct (ho_brk _ _ _ Hh) as [Hb0 Hbrk].
  destruct (ho_hdr _ _ _ Hh b ltac:(by constructor)) as [Hpos Hsz].
  destruct (ho_range _ _ _ Hh b ltac:(right; by constructor)) as [Hbb Hbe]. pose proof (ext_ge b) as Heb.
  assert (Hap : ∀ c, c ∈ r → apart c b) by (intros c Hc; apply (ho_apart _ _ _ Hh); [done | by constructor]).
  assert (Hbase : base < b.1).
  { destruct (ho_head _ _ _ Hh) as (fs & Er & _). destruct (apart_hdr (base, 0) b) as [H|H]; cbn in *; unfold HEADER in *; try lia.
    apply Hap. rewrite Er. by constructor. }
  destruct (find_ok h r (b :: live) b.1 Hh Hbase) as (l1 & p & l2 & -> & Hfind & Hp & Hl2).
  { intros c Hc E. destruct (apart_hdr c b (Hap c Hc)); unfold HEADER in *; lia. }
  exists l1, p, l2. destruct (ins_p h b p l1 l2 live Hh Hp) as [Hpe Hp0]. pose proof (ext_ge p) as Hep.
  assert (Hpb : base ≤ p.1) by (eapply ring_base; [exact Hh | apply elem_of_app; right; by constructor]).
  pose proof (ho_link _ _ _ Hh) as Hl. pose proof Hl as [Hl1 (Lp1 & Lp2 & Ll2)]%lseg_app.
  pose proof (ins_l2 h b p l1 l2 live Hh Hp Hl2) as H2.
  assert (Hl2r : ∀ c, c ∈ l2 → c.1 + ext c ≤ h_brk h).
  { intros c Hc. apply (ho_range _ _ _ Hh). left. apply elem_of_app. right. by constructor. }
  destruct (join_next_ok h b.1 b.2 p.1 l2) as (m1 & n & rest & R1 & Ej & Hm1 & L1); try done.
  { lia. } { intros c Hc. destruct (H2 c Hc). specialize (Hl2r c Hc). lia. }
  replace ((b.1, b.2) : blk) with b in Ej by (by destruct b).
  assert (Hfar : ∀ c a, c ∈ l1 ++ [p] → a ∈ [b.1] → c.1 + HEADER ≤ a ∨ a + HEADER ≤ c.1).
  { intros c a Hc ->%list_elem_of_singleton. apply apart_hdr, Hap. apply elem_of_app in Hc as [Hc| ->%list_elem_of_singleton];
      apply elem_of_app; [by left | right; by constructor]. }
  pose proof (ins_mid h b p l1 l2 live Hh Hp Hl2) as Hmid. rewrite Ej in Hmid.
  assert (Hrr : ∀ c, c ∈ (b.1, n) :: rest → c.1 + ext c ≤ h_brk h).
  { rewrite <- Ej. intros c Hc. apply (join_range b l2 base (h_brk h)); [lia | done | lia | lia | done | done]. }
  destruct (Hmid (b.1, n) ltac:(by constructor)) as [_ Hn]. pose proof (Hrr (b.1, n) ltac:(by constructor)) as Hne.
  pose proof (ext_ge (b.1, n)) as Hen. cbn [fst snd] in *.
  assert (Hs : StronglySorted before ((b.1, n) :: rest)).
  { rewrite <- Ej. apply join_sorted; [lia | done|]. pose proof (ho_sort _ _ _ Hh) as (_ & _ & [_ ?]%StronglySorted_cons)%StronglySorted_app. done. }
  apply StronglySorted_cons in Hs as [Hs _]. rewrite Forall_forall in Hs.
  destruct (join_prev_ok (set_h_mem m1 h) p.1 p.2 b.1 n rest) as (m2 & R2 & Hm2 & L2); cbn [h_mem set_h_mem]; try (done || lia).
  { destruct (hdrs_keep [b.1] (h_mem h) m1 p.1 Hm1) as [_ ->]; [|done]. intros a Ha. apply Hfar; [|done]. apply elem_of_app. right. by constructor. }
  { intros c Hc. destruct (Hs c Hc). specialize (Hrr c ltac:(by constructor)). cbn in *. lia. }
  exists m2. split_and!; [done.. | | |].
  - unfold free. replace (b.1 + HEADER - HEADER) with b.1 by lia. rewrite bind_get. run Hfind. run R1. run R2. done.
  - eapply hdrs_trans; eapply hdrs_mono; [exact Hm1 | | exact Hm2 |]; intros a ->%list_elem_of_singleton; [by constructor | by do 2 constructor].
  - rewrite Ej. replace ((p.1, p.2) : blk) with p in L2 by (by destruct p). apply lseg_app. split; [|done].
    destruct (join_head p ((b.1, n) :: rest)) as (k & rest' & ->). cbn [head_addr fst].
    eapply lseg_keep; [exact Hm2 | |eapply lseg_keep; [exact Hm1 | | exact Hl1]].
    + intros c a Hc ->%list_elem_of_singleton. pose proof (ho_sort _ _ _ Hh) as (Ho & _)%StronglySorted_app.
      destruct (Ho c p Hc ltac:(by constructor)). pose proof (ext_ge c). lia.
    + intros c a Hc. apply Hfar, elem_of_app. by left.
Qed.

Lemma free_ok h r b live :
  heap_ok h r (b :: live) →
  ∃ h' r', free base (b.1 + HEADER) h = Ok (tt, h') ∧ heap_ok h' r' live ∧ h_brk h' = h_brk h ∧ h_grants h' = h_grants h ∧
    units r' = units r + b.2 ∧ (length r' ≤ S (length r))%nat ∧ (∃ c, c ∈ r' ∧ b.2 ≤ c.2) ∧
    (∀ c x, c ∈ live → in_blk c x → ld8 (h_mem h') x = ld8 (h_mem h) x).
Proof.
  intros Hh. destruct (free_run h r b live Hh) as (l1 & p & l2 & m' & -> & Hp & Hl2 & Hrun & Hm & Hl).
  exists (set_h_freep p.1 (set_h_mem m' h)), (l1 ++ join p (join b l2)).
  destruct (ins_p h b p l1 l2 live Hh Hp) as [Hpe Hp0]. pose proof (ins_pos h b p l1 l2 live Hh) as Hb1.
  pose proof (ins_mid h b p l1 l2 live Hh Hp Hl2) as Hmid. pose proof (ins_l2 h b p l1 l2 live Hh Hp Hl2) as H2.
  assert (Hfar : ∀ c a, c ∈ live → a ∈ [b.1; p.1] → a + HEADER ≤ c.1 ∨ c.1 + ext c ≤ a).
  { intros c a Hc Ha. assert (Hbc : apart b c).
    { pose proof (ho_live _ _ _ Hh) as HL. inversion HL as [|? ? Hf _]; subst. by eapply Forall_forall in Hf. }
    assert (Hpc : apart p c) by (apply (ho_apart _ _ _ Hh); [apply elem_of_app; right; by constructor | by constructor]).
    pose proof (ext_ge b). pose proof (ext_ge p). unfold apart in *.
    apply elem_of_cons in Ha as [->| ->%list_elem_of_singleton]; lia. }
  split_and!; [done | | done | done | | | |].
  - split; cbn [h_mem h_freep h_brk set_h_freep set_h_mem].
    + by eapply ins_head.
    + done.
    + by eapply ins_sorted.
    + destruct (join_head p (join b l2)) as (k & rest & ->). exists (p.1, k). split; [|done]. apply elem_of_app. right. by constructor.
    + intros c Hc. destruct (ho_hdr _ _ _ Hh c ltac:(by constructor)) as [H1 H3]. split; [done|].
      destruct (hdrs_keep _ _ _ c.1 Hm) as [_ ->]; [|done]. intros a Ha. pose proof (ext_ge c). destruct (Hfar c a Hc Ha); lia.
    + intros c d Hc Hd. eapply (ins_apart h b p l1 l2 live); eauto.
    + pose proof (ho_live _ _ _ Hh) as HL. by inversion HL.
    + intros c [Hc|Hc]; [by eapply ins_range | apply (ho_range _ _ _ Hh); right; by constructor].
    + apply Hh.
  - rewrite !units_app, !join_units. cbn. unfold units. lia.
  - rewrite !length_app. pose proof (join_length p (join b l2)). pose proof (join_length b l2). cbn [length]. lia.
  - destruct (join_big b l2 b) as (c & Hc & Hle); [lia | intros x Hx; by apply H2 | by constructor|].
    destruct (join_big p (join b l2) c) as (d & Hd & Hle'); [done | intros x Hx; by apply Hmid | by constructor|].
    exists d. split; [apply elem_of_app; by right | lia].
  - intros c x Hc Hx. eapply hdrs_in_blk; [exact Hm | | exact Hx]. intros a Ha. by apply Hfar.
Qed.

(** ** malloc *)

Lemma morecore_ok h r live nunits :
  heap_ok h r live → 1 ≤ nunits → HEADER * nunits < 2 ^ 31 →
  ∃ a h', morecore base nunits h = Ok (a, h') ∧
    ((a = 0 ∧ heap_ok h' r live ∧ h_mem h' = h_mem h ∧ h_brk h' = h_brk h) ∨
     ∃ r' n, a = h_freep h' ∧ heap_ok h' r' live ∧ (∃ c, c ∈ r' ∧ nunits ≤ c.2) ∧ (length r' ≤ S (length r))%nat ∧
       units r' = units r + n ∧ h_brk h' = h_brk h + HEADER * n ∧
       (∀ c x, c ∈ live → in_blk c x → ld8 (h_mem h') x = ld8 (h_mem h) x)).
Proof.
  intros Hh Hn1 Hn2. pose proof UMAX_eq as HU. destruct (ho_brk _ _ _ Hh) as [Hb0 Hbrk].
  assert (Hbase : base + HEADER ≤ h_brk h).
  { destruct (ho_head _ _ _ Hh) as (fs & -> & _). destruct (ho_range _ _ _ Hh (base, 0) ltac:(left; by constructor)) as [_ H].
    pose proof (ext_ge (base, 0)). cbn in *. lia. }
  unfold morecore. set (nu := if nunits <? 4096 then 4096 else nunits).
  assert (Hnu : nunits ≤ nu ∧ 1 ≤ nu ∧ HEADER * nu < 2 ^ 31) by (unfold nu, HEADER in *; destruct (Z.ltb_spec nunits 4096); lia).
  unfold HEADER in *. rewrite i32_small by lia. unfold sbrk. rewrite !bind_assoc, bind_get.
  assert (Hfail : ∀ g, heap_ok (set_h_grants g h) r live) by (intros g; by destruct Hh).
  destruct (h_grants h) as [|g gs].
  { rewrite bind_ret. exists 0, h. split; [done|]. left. done. }
  rewrite bind_assoc, bind_modify, (u64_small (h_brk h + nu * 16)) by lia.
  destruct (negb g || (0 <? nu * 16) && (UMAX <? h_brk h + nu * 16)) eqn:Hg.
  { rewrite bind_ret. exists 0, (set_h_grants gs h). split; [done|]. left. done. }
  assert (Hup : h_brk h + nu * 16 ≤ UMAX) by (destruct g; [cbn in Hg; lia | done]).
  rewrite bind_assoc, bind_modify, bind_ret. destruct (Z.ltb_spec (nu * 16) 0); [lia|].
  destruct (Z.eqb_spec (h_brk h) (u64 (-1))) as [E|_]; [change (u64 (-1)) with (2 ^ 64 - 1) in E; lia|].
  unfold set_size. rewrite bind_modify. cbn [h_mem set_h_mem set_h_brk set_h_grants]. set (h1 := set_h_mem _ _).
  assert (Hm : hdrs [h_brk h] (h_mem h) (h_mem h1)) by (apply hdrs_st32; [done | by constructor]).
  assert (Hend : ∀ c, c ∈ r ∨ c ∈ live → c.1 + ext c ≤ h_brk h) by (intros c Hc; by apply (ho_range _ _ _ Hh)).
  assert (Hhdr : ∀ c a, c ∈ r ∨ c ∈ live → a ∈ [h_brk h] → c.1 + HEADER ≤ a ∨ a + HEADER ≤ c.1).
  { intros c a Hc ->%list_elem_of_singleton. specialize (Hend c Hc). pose proof (ext_ge c). lia. }
  assert (Hh1 : heap_ok h1 r ((h_brk h, nu) :: live)).
  { destruct Hh as [H1 H2 H3 H4 H5 H6 H7 H8 H9]. split; cbn [h1 h_mem h_freep h_brk set_h_mem set_h_brk set_h_grants].
    - done.
    - eapply lseg_keep; [exact Hm | | done]. intros c a Hc. apply Hhdr. by left.
    - done.
    - done.
    - intros c [->|Hc]%elem_of_cons; cbn [fst snd].
      + split; [lia|]. rewrite ld32_st32_eq. apply u32_small. lia.
      + destruct (H5 c Hc) as [H10 H11]. split; [done|]. rewrite <- H11.
        apply (hdrs_keep _ _ _ c.1 Hm). intros a Ha. by apply Hhdr; [right|].
    - intros c d Hc [->|Hd]%elem_of_cons; [|by apply H6]. left. cbn. apply Hend. by left.
    - constructor; [|done]. apply Forall_forall. intros c Hc. right. cbn. apply Hend. by right.
    - intros c [Hc|[->|Hc]%elem_of_cons]; [|unfold ext, HEADER; cbn; lia|].
      + destruct (H8 c (or_introl Hc)). lia.
      + destruct (H8 c (or_intror Hc)). lia.
    - lia. }
  destruct (free_ok h1 r (h_brk h, nu) live Hh1) as (h' & r' & Hrun & Hh' & Ebrk & _ & Hun & Hlen & (c & Hc & Hle) & Hfr). cbn [fst snd] in *.
  unfold HEADER in Hrun. run Hrun. exists (h_freep h'), h'. split; [done|]. right. exists r', nu.
  split_and!; [done | done | exists c; split; [done | lia] | done | done | rewrite Ebrk; cbn; lia |].
  intros d x Hd Hx. rewrite (Hfr d x Hd Hx). eapply hdrs_in_blk; [exact Hm | | exact Hx].
  intros a ->%list_elem_of_singleton. right. apply Hend. by right.
Qed.

Lemma before_apart b c : before b c → apart b c ∧ apart c b.
Proof. intros [H _]. unfold apart. auto. Qed.

(** A block [b] of the list put in use: its last [n] units go, [ks] is what is left. *)
Section replace.
  Context (h : uheap) (A C live : list blk) (prev b : blk) (n : Z).
  Hypothesis Hh : heap_ok h (A ++ prev :: b :: C) live.
  Hypothesis Hn : 1 ≤ n ≤ b.2.

Let ks : list blk := if b.2 =? n then [] else [(b.1, b.2 - n)].
Let a : Z := b.1 + HEADER * (b.2 - n).

Lemma rep_ks k : k ∈ ks → k = (b.1, b.2 - n) ∧ n < b.2.
Proof.
  unfold ks. destruct (Z.eqb_spec b.2 n); [by intros ?%elem_of_nil|]. intros ->%list_elem_of_singleton. split; [done | lia].
Qed.

Lemma rep_in : prev ∈ A ++ prev :: b :: C ∧ b ∈ A ++ prev :: b :: C.
Proof. split; apply elem_of_app; right; [|constructor]; by constructor. Qed.

(** The others lie before or after [b]. *)
Lemma rep_cases c :
  c ∈ A ++ prev :: ks ++ C → (c ∈ A ++ prev :: b :: C ∧ (before c b ∨ before b c)) ∨ c ∈ ks.
Proof.
  pose proof (ho_sort _ _ _ Hh) as (HA & _ & [Hpr [Hbr _]%StronglySorted_cons]%StronglySorted_cons)%StronglySorted_app.
  rewrite Forall_forall in Hpr, Hbr. rewrite !elem_of_app, !elem_of_cons, elem_of_app.
  intros [Hc|[->|[Hc|Hc]]]; [left | left | by right | left].
  - split; [by left|]. left. apply HA; [done | by do 2 constructor].
  - split; [auto|]. left. apply Hpr. by constructor.
  - split; [auto|]. right. by apply Hbr.
Qed.

Lemma rep_sorted : StronglySorted before (A ++ prev :: ks ++ C).
Proof.
  pose proof (ho_sort _ _ _ Hh) as (HA & SA & [Hpr [Hbr SC]%StronglySorted_cons]%StronglySorted_cons)%StronglySorted_app.
  rewrite Forall_forall in Hpr, Hbr.
  assert (Hk : ∀ x, before x b → ∀ k, k ∈ ks → before x k) by (intros x Hx k [-> _]%rep_ks; done).
  apply StronglySorted_app. split_and!; [|done | apply StronglySorted_cons; split].
  - intros x y Hx [->|[Hy|Hy]%elem_of_app]%elem_of_cons; [apply HA; [done | by constructor] | |apply HA; [done | by do 2 constructor]].
    eapply Hk; [|done]. apply HA; [done | by do 2 constructor].
  - apply Forall_forall. intros y [Hy|Hy]%elem_of_app; [|apply Hpr; by constructor]. eapply Hk; [|done]. apply Hpr. by constructor.
  - unfold ks. destruct (Z.eqb_spec b.2 n); [done|]. apply StronglySorted_cons. split; [|done]. apply Forall_forall. intros c Hc.
    destruct (Hbr c Hc). unfold before, ext, HEADER in *. cbn [fst snd]. lia.
Qed.

Lemma rep_apart c d : c ∈ A ++ prev :: ks ++ C → d ∈ (a, n) :: live → apart c d.
Proof.
  pose proof (ext_ge b) as Hb. pose proof (ext_ge c) as Hc. pose proof rep_in as [_ Hbin].
  intros [[Hr Hbc]|[-> Hlt]%rep_ks]%rep_cases [->|Hd]%elem_of_cons.
  - unfold before, apart, ext, a, HEADER in *. cbn [fst snd]. lia.
  - by apply (ho_apart _ _ _ Hh).
  - left. unfold ext, a, HEADER. cbn. lia.
  - pose proof (ho_apart _ _ _ Hh b d Hbin Hd). pose proof (ext_ge d). unfold apart, ext, HEADER in *. cbn [fst snd]. lia.
Qed.

Lemma rep_live d : d ∈ live → apart (a, n) d.
Proof.
  intros Hd. pose proof (ho_apart _ _ _ Hh b d (proj2 rep_in) Hd). pose proof (ext_ge d).
  unfold apart, ext, a, HEADER in *. cbn [fst snd]. lia.
Qed.

Lemma rep_range c : c ∈ A ++ prev :: ks ++ C ∨ c ∈ (a, n) :: live → base ≤ c.1 ∧ c.1 + ext c ≤ h_brk h.
Proof.
  destruct (ho_range _ _ _ Hh b (or_introl (proj2 rep_in))) as [R1 R2].
  intros [[[Hr _]|[-> Hlt]%rep_ks]%rep_cases|[->|Hc]%elem_of_cons].
  - apply (ho_range _ _ _ Hh). by left.
  - unfold ext, HEADER in *. cbn. lia.
  - unfold ext, a, HEADER in *. cbn. lia.
  - apply (ho_range _ _ _ Hh). by right.
Qed.

Lemma rep_head : ∃ fs, A ++ prev :: ks ++ C = (base, 0) :: fs ∧ ∀ c, c ∈ fs → 1 ≤ c.2.
Proof.
  destruct (ho_head _ _ _ Hh) as (fs & E & Hpos). destruct A as [|x A']; cbn [app] in *; injection E as -> E'; rewrite <- E' in Hpos.
  - exists (ks ++ C). split; [done|]. intros c [[-> ?]%rep_ks|Hc]%elem_of_app; [cbn; lia | apply Hpos; by constructor].
  - exists (A' ++ prev :: ks ++ C). split; [done|]. intros c. rewrite elem_of_app, elem_of_cons, elem_of_app.
    intros [Hc|[->|[[-> ?]%rep_ks|Hc]]]; [| |cbn; lia|]; apply Hpos, elem_of_app; [by left | right; by constructor | right; by do 2 constructor].
Qed.

Lemma ring_replace m :
  lseg m (A ++ prev :: ks ++ C) base → hdrs [prev.1; b.1; a] (h_mem h) m → ld32 m (a + 8) = n →
  heap_ok (set_h_freep prev.1 (set_h_mem m h)) (A ++ prev :: ks ++ C) ((a, n) :: live) ∧
  (∀ c x, c ∈ live → in_blk c x → ld8 m x = ld8 (h_mem h) x).
Proof.
  intros Hl Hm Ha.
  assert (Hlive : ∀ c y, c ∈ live → y ∈ [prev.1; b.1; a] → y + HEADER ≤ c.1 ∨ c.1 + ext c ≤ y).
  { intros c y Hc Hy. pose proof (ho_apart _ _ _ Hh prev c (proj1 rep_in) Hc). pose proof (ho_apart _ _ _ Hh b c (proj2 rep_in) Hc).
    pose proof (rep_live c Hc). pose proof (ext_ge prev). pose proof (ext_ge b). pose proof (ext_ge (a, n)).
    apply elem_of_cons in Hy as [->|[->| ->%list_elem_of_singleton]%elem_of_cons]; unfold apart in *; cbn [fst snd] in *; lia. }
  split; [|intros c x Hc Hx; eapply hdrs_in_blk; [exact Hm | | exact Hx]; intros y Hy; by apply Hlive].
  split; cbn [h_mem h_freep h_brk set_h_freep set_h_mem].
  - apply rep_head.
  - done.
  - apply rep_sorted.
  - exists prev. split; [|done]. apply elem_of_app. right. by constructor.
  - intros c [->|Hc]%elem_of_cons; cbn [fst snd]; [lia|]. destruct (ho_hdr _ _ _ Hh c Hc) as [H1 H2]. split; [done|].
    rewrite <- H2. apply (hdrs_keep _ _ _ c.1 Hm). intros y Hy. pose proof (ext_ge c). destruct (Hlive c y Hc Hy); lia.
  - apply rep_apart.
  - constructor; [|apply Hh]. apply Forall_forall. apply rep_live.
  - apply rep_range.
  - apply Hh.
Qed.
End replace.

Lemma take_ok h A prev b C live n :
  heap_ok h (A ++ prev :: b :: C) live → 1 ≤ n ≤ b.2 →
  ∃ a h' r', take_block n prev.1 b.1 b.2 h = Ok (a + HEADER, h') ∧ heap_ok h' r' ((a, n) :: live) ∧ h_brk h' = h_brk h ∧
    units r' + n = units (A ++ prev :: b :: C) ∧ (∀ c x, c ∈ live → in_blk c x → ld8 (h_mem h') x = ld8 (h_mem h) x).
Proof.
  intros Hh Hn. pose proof UMAX_eq as HU. destruct (ho_brk _ _ _ Hh) as [Hb0 Hbrk]. set (a := b.1 + HEADER * (b.2 - n)).
  destruct (ho_range _ _ _ Hh b (or_introl (proj2 (rep_in A C prev b)))) as [R1 R2]. pose proof (ext_ge b) as Heb.
  pose proof (ho_link _ _ _ Hh) as [LA (Lp & Lps & Lb & Lbs & LC)]%lseg_app. cbn [head_addr] in LA, Lp.
  pose proof (ho_sort _ _ _ Hh) as (HA & _ & [Hpr [Hbr _]%StronglySorted_cons]%StronglySorted_cons)%StronglySorted_app. rewrite Forall_forall in Hpr, Hbr.
  destruct (Hpr b ltac:(by constructor)) as [Hpb _]. pose proof (ext_ge prev) as Hep.
  assert (HAf : ∀ c y, c ∈ A → y ∈ [prev.1; b.1; a] → c.1 + HEADER ≤ y ∨ y + HEADER ≤ c.1).
  { intros c y Hc Hy. destruct (HA c prev Hc ltac:(by constructor)) as [H1 _]. pose proof (ext_ge c).
    apply elem_of_cons in Hy as [->|[->| ->%list_elem_of_singleton]%elem_of_cons]; unfold a, HEADER in *; lia. }
  assert (HCf : ∀ c y, c ∈ C → y ∈ [prev.1; b.1; a] → c.1 + HEADER ≤ y ∨ y + HEADER ≤ c.1).
  { intros c y Hc Hy. destruct (Hbr c Hc) as [H1 _].
    apply elem_of_cons in Hy as [->|[->| ->%list_elem_of_singleton]%elem_of_cons]; unfold a, ext, HEADER in *; lia. }
  assert (Hnx : 0 ≤ head_addr C base < 2 ^ 64) by (rewrite <- Lb; apply ld64_range).
  pose proof (ring_replace h A C live prev b n Hh Hn) as Hrep. cbv zeta in Hrep. fold a in Hrep.
  unfold take_block, ptr, set_ptr, set_size. destruct (Z.eqb_spec b.2 n) as [E|E].
  - rewrite bind_assoc, bind_gets, bind_assoc, bind_modify, bind_ret, Lb. cbn [app] in Hrep. set (m := st64 (h_mem h) prev.1 (head_addr C base)).
    assert (Hm : hdrs [prev.1; b.1; a] (h_mem h) m) by (apply hdrs_st64; [done | by constructor]).
    assert (Ea : a = b.1) by (unfold a; rewrite E, Z.sub_diag; lia).
    destruct (Hrep m) as [Hh' Hfr]; [apply lseg_app; split; [by eapply lseg_keep | split; [|split; [|by eapply lseg_keep]]] | done | |].
    + by apply ld64_st64_eq.
    + rewrite <- Lps. unfold m. apply ld32_st64_ne. lia.
    + rewrite Ea, <- E, <- Lbs. unfold m. apply ld32_st64_ne. unfold HEADER in *. lia.
    + eexists a, _, _. split; [rewrite Ea; done|]. split; [exact Hh'|]. split; [done|]. split; [|done].
      rewrite !units_app. unfold units. cbn [foldr]. lia.
  - rewrite bind_assoc, bind_modify. cbn [h_mem set_h_mem]. cbv zeta. rewrite bind_assoc, bind_modify, bind_ret. cbn [h_mem set_h_mem].
    unfold ext, HEADER in *. rewrite (u32_small (b.2 - n)), u64_small by lia. fold a.
    set (m := st32 (st32 (h_mem h) (b.1 + 8) (b.2 - n)) (a + 8) n).
    assert (Hm : hdrs [prev.1; b.1; a] (h_mem h) m) by (apply hdrs_st32; [apply hdrs_st32; [done|] |]; repeat constructor).
    assert (Hab : b.1 + 16 ≤ a) by (unfold a; lia).
    destruct (Hrep m) as [Hh' Hfr]; [apply lseg_app; split; [by eapply lseg_keep | split; [|split; [|split; [|split; [|by eapply lseg_keep]]]]] | done | |].
    + cbn. rewrite <- Lp. unfold m. rewrite !ld64_st32_ne by lia. done.
    + rewrite <- Lps. unfold m. rewrite !ld32_st32_ne by lia. done.
    + cbn. rewrite <- Lb. unfold m. rewrite !ld64_st32_ne by lia. done.
    + cbn. unfold m. rewrite ld32_st32_ne, ld32_st32_eq, u32_small by lia. done.
    + unfold m. rewrite ld32_st32_eq. apply u32_small. lia.
    + eexists a, _, _. split; [done|]. split; [exact Hh'|]. split; [done|]. split; [|done].
      rewrite !units_app. unfold units. cbn [foldr app snd]. lia.
Qed.

(** ** The search *)

Definition nexts (m : memory) (k : nat) (p : Z) : Z := Nat.iter k (ld64 m) p.

Lemma nexts_S m k p : nexts m (S k) p = nexts m k (ld64 m p).
Proof. apply Nat.iter_succ_r. Qed.

Lemma nexts_add m i j p : nexts m (i + j) p = nexts m i (nexts m j p).
Proof. apply Nat.iter_add. Qed.

Lemma lseg_nexts m B : ∀ x C z, lseg m (x :: B ++ C) z → nexts m (S (length B)) x.1 = head_addr C z.
Proof.
  induction B as [|y B IH]; intros x C z (E & _ & Hl); [exact E|].
  cbn [length]. rewrite nexts_S, E. cbn [app head_addr]. by apply IH.
Qed.

(** From every header of the list to every other. *)
Lemma ring_reach h r live x y :
  heap_ok h r live → x ∈ r → y ∈ r → ∃ k, (k < length r)%nat ∧ nexts (h_mem h) (S k) x.1 = y.1.
Proof.
  intros Hh (A & B & ->)%list_elem_of_split Hy. pose proof (ho_link _ _ _ Hh) as Hl. pose proof Hl as [_ Hx]%lseg_app.
  rewrite length_app. cbn [length].
  assert (Hb : nexts (h_mem h) (S (length B)) x.1 = base) by (apply (lseg_nexts _ _ _ [] base); by rewrite app_nil_r).
  rewrite elem_of_app, elem_of_cons in Hy.
  assert (Hy' : y ∈ A ++ [x] ∨ y ∈ B) by (rewrite elem_of_app, list_elem_of_singleton; tauto). clear Hy.
  destruct Hy' as [Hy|Hy].
  - destruct (ho_head _ _ _ Hh) as (fs & E & _).
    assert (EA : ∃ D, A ++ [x] = (base, 0) :: D) by (destruct A; injection E as -> _; by eexists). destruct EA as [D EA].
    assert (Hlen : length A = length D) by (apply (f_equal length) in EA; rewrite length_app in EA; cbn in EA; lia).
    rewrite EA in Hy. apply elem_of_cons in Hy as [->|(D1 & D2 & ->)%list_elem_of_split]; [exists (length B); split; [lia | done]|].
    rewrite length_app in Hlen. cbn [length] in Hlen. exists (length D1 + S (length B))%nat. split; [lia|].
    change (S (length D1 + S (length B))) with (S (length D1) + S (length B))%nat. rewrite nexts_add, Hb.
    change base with ((base, 0) : blk).1 at 1. apply (lseg_nexts _ D1 (base, 0) (y :: D2 ++ B) base).
    replace ((base, 0) :: D1 ++ y :: D2 ++ B) with (A ++ x :: B); [done|].
    change (x :: B) with ([x] ++ B). by rewrite app_assoc, EA; cbn; rewrite <- app_assoc.
  - apply list_elem_of_split in Hy as (B1 & B2 & ->). rewrite length_app. cbn [length]. exists (length B1). split; [lia|].
    by apply (lseg_nexts _ B1 x (y :: B2) base).
Qed.

Lemma least (P : nat → Prop) `{!∀ k, Decision (P k)} k : P k → ∃ j, (j ≤ k)%nat ∧ P j ∧ ∀ i, (i < j)%nat → ¬ P i.
Proof.
  induction (lt_wf k) as [k _ IH]. intros Hk. destruct (decide (Exists P (seq 0 k))) as [He|He].
  - apply Exists_exists in He as (i & Hi & HPi). apply elem_of_seq in Hi. destruct (IH i) as (j & Hj & HPj & Hmin); [lia | done|].
    exists j. split; [lia | done].
  - exists k. split_and!; [done.. |]. intros i Hi HPi. apply He, Exists_exists. exists i. split; [apply elem_of_seq; lia | done].
Qed.

(** A request for [n] units is served: a new block in use, no other touched, and the units
    of the heap accounted for. *)
Definition served (h : uheap) (r live : list blk) (n a : Z) (h' : uheap) : Prop :=
  ∃ a0 r', a = a0 + HEADER ∧ heap_ok h' r' ((a0, n) :: live) ∧
    HEADER * (units r' + n - units r) = h_brk h' - h_brk h ∧
    (∀ c x, c ∈ live → in_blk c x → ld8 (h_mem h') x = ld8 (h_mem h) x).

Section search.
  Context (h : uheap) (r live : list blk) (n : Z).
  Hypothesis Hh : heap_ok h r live.
  Hypothesis Hn : 1 ≤ n.

(** The header after one of the list is of the list. *)
Lemma next_in prev : prev ∈ r → ∃ b, b ∈ r ∧ ld64 (h_mem h) prev.1 = b.1 ∧ ld32 (h_mem h) (b.1 + 8) = b.2 ∧
  (1 ≤ b.2 → ∃ A C, r = A ++ prev :: b :: C).
Proof.
  intros (A & B & E)%list_elem_of_split. pose proof (ho_link _ _ _ Hh) as Hl. pose proof Hl as Hnx. rewrite E in Hnx. apply lseg_next in Hnx.
  destruct B as [|b C].
  - exists (base, 0). destruct (ho_head _ _ _ Hh) as (fs & Er & _).
    assert (Hin : (base, 0) ∈ r) by (rewrite Er; by constructor). split_and!; [done | done | by apply (lseg_in _ _ _ _ Hl) | done].
  - assert (Hin : b ∈ r) by (rewrite E; apply elem_of_app; right; by do 2 constructor).
    exists b. split_and!; [done | done | by apply (lseg_in _ _ _ _ Hl) | eauto].
Qed.

Lemma loop_found prev b f :
  ld64 (h_mem h) prev.1 = b.1 → ld32 (h_mem h) (b.1 + 8) = b.2 → n ≤ b.2 → (∃ A C, r = A ++ prev :: b :: C) →
  ∃ a h', malloc_loop base (S f) n prev.1 b.1 h = Ok (a, h') ∧ served h r live n a h'.
Proof.
  intros Hnx Hsz Hle (A & C & E). cbn [malloc_loop]. unfold size. rewrite bind_gets, Hsz. destruct (Z.leb_spec n b.2); [|lia].
  pose proof Hh as Hh'. rewrite E in Hh'. destruct (take_ok h A prev b C live n Hh') as (a & h1 & r1 & Hrun & H1 & Hbrk & Hun & Hfr); [lia|].
  exists (a + HEADER), h1. split; [done|]. exists a, r1. split_and!; [done | done | rewrite Hbrk, E, <- Hun; unfold HEADER; lia | done].
Qed.

(** Round to [freep]: a block is found on the way, or the heap has to grow. *)
Lemma walk_round k : ∀ prev f, prev ∈ r → nexts (h_mem h) (S k) prev.1 = h_freep h → (k < f)%nat →
  (∃ a h', malloc_loop base f n prev.1 (ld64 (h_mem h) prev.1) h = Ok (a, h') ∧ served h r live n a h') ∨
  (∃ f', (f ≤ f' + S k)%nat ∧ malloc_loop base f n prev.1 (ld64 (h_mem h) prev.1) h =
     (p ← morecore base n; if p =? 0 then mret 0 else q ← ptr p; malloc_loop base f' n p q) h).
Proof.
  induction k as [|k IH]; intros prev f Hp Hk Hf; (destruct f as [|f]; [lia|]);
    destruct (next_in prev Hp) as (b & Hb & Hnx & Hsz & Hsp); rewrite nexts_S, Hnx in Hk; rewrite Hnx;
    (destruct (decide (n ≤ b.2)) as [Hle|Hlt]; [left; eapply loop_found; [done.. | apply Hsp; lia]|]);
    cbn [malloc_loop]; unfold size; rewrite bind_gets, Hsz; (destruct (Z.leb_spec n b.2); [lia|]); rewrite bind_gets.
  - change (b.1 = h_freep h) in Hk. rewrite (proj2 (Z.eqb_eq _ _) Hk). right. exists f. split; [lia | done].
  - destruct (Z.eqb_spec b.1 (h_freep h)) as [E|E]; [right; exists f; split; [lia | done]|].
    unfold ptr. rewrite bind_gets. destruct (IH b f Hb Hk ltac:(lia)) as [Hs|(f' & Hf' & Hr)]; [by left | right].
    exists f'. split; [lia | exact Hr].
Qed.

(** A block large enough is found before [freep] is reached again. *)
Lemma walk_to c k : c ∈ r → n ≤ c.2 → ∀ prev f, prev ∈ r → nexts (h_mem h) (S k) prev.1 = c.1 → 
  (∀ i, (i < k)%nat → nexts (h_mem h) (S i) prev.1 ≠ h_freep h) → (k < f)%nat →
  ∃ a h', malloc_loop base f n prev.1 (ld64 (h_mem h) prev.1) h = Ok (a, h') ∧ served h r live n a h'.
Proof.
  intros Hc Hcn. induction k as [|k IH]; intros prev f Hp Hk Hfp Hf; (destruct f as [|f]; [lia|]);
    destruct (next_in prev Hp) as (b & Hb & Hnx & Hsz & Hsp); rewrite nexts_S, Hnx in Hk; rewrite Hnx;
    (destruct (decide (n ≤ b.2)) as [Hle|Hlt]; [eapply loop_found; [done.. | apply Hsp; lia]|]).
  - exfalso. apply Hlt. pose proof (lseg_in _ _ _ _ (ho_link _ _ _ Hh) Hc) as E. change (b.1 = c.1) in Hk. rewrite Hk in Hsz. lia.
  - cbn [malloc_loop]. unfold size. rewrite bind_gets, Hsz. destruct (Z.leb_spec n b.2); [lia|]. rewrite bind_gets.
    specialize (Hfp 0%nat ltac:(lia)) as Hfp0. rewrite nexts_S, Hnx in Hfp0. change (b.1 ≠ h_freep h) in Hfp0.
    rewrite (proj2 (Z.eqb_neq _ _) Hfp0). unfold ptr. rewrite bind_gets. apply IH; [done | done | | lia].
    intros i Hi. specialize (Hfp (S i) ltac:(lia)). by rewrite nexts_S, Hnx in Hfp.
Qed.

(** A heap with a block large enough serves the request. *)
Lemma loop_has c f : c ∈ r → n ≤ c.2 → (length r ≤ f)%nat →
  ∃ a h', malloc_loop base f n (h_freep h) (ld64 (h_mem h) (h_freep h)) h = Ok (a, h') ∧ served h r live n a h'.
Proof.
  intros Hc Hcn Hf. destruct (ho_freep _ _ _ Hh) as (p & Hp & Ep).
  destruct (ring_reach h r live p c Hh Hp Hc) as (k & Hk & Ek).
  destruct (least (λ k, nexts (h_mem h) (S k) p.1 = c.1) k Ek) as (j & Hj & Ej & Hmin).
  rewrite Ep. apply (walk_to c j Hc Hcn p f Hp Ej); [|lia]. intros i Hi Ei. rewrite Ep in Ei. apply (Hmin (j - S i)%nat); [lia|].
  rewrite <- Ej at 1. replace (S j) with (S (j - S i) + S i)%nat by lia. by rewrite nexts_add, Ei.
Qed.
End search.

Lemma malloc_loop_ok h r live n :
  heap_ok h r live → 1 ≤ n → HEADER * n < 2 ^ 31 →
  ∃ a h', malloc_loop base (2 * heap_fuel base h + 2) n (h_freep h) (ld64 (h_mem h) (h_freep h)) h = Ok (a, h') ∧
    ((a = 0 ∧ heap_ok h' r live ∧ h_mem h' = h_mem h ∧ h_brk h' = h_brk h) ∨ served h r live n a h').
Proof.
  intros Hh Hn1 Hn2. pose proof (ring_length _ _ _ Hh) as Hlen. destruct (ho_freep _ _ _ Hh) as (p & Hp & Ep).
  destruct (ring_reach h r live p p Hh Hp Hp) as (k & Hk & Ek). rewrite <- Ep in Ek at 2. rewrite Ep.
  destruct (walk_round h r live n Hh Hn1 k p (2 * heap_fuel base h + 2) Hp Ek ltac:(lia)) as [(a & h' & R & Hs)|(f & Hf & R)].
  { exists a, h'. split; [done | by right]. }
  destruct (morecore_ok h r live n Hh Hn1 Hn2) as (a & h1 & Rm & [(-> & H1 & Hm & Hb)|(r1 & nu & -> & H1 & (c & Hc & Hcn) & Hl1 & Hun & Hb & Hfr)]).
  - exists 0, h1. split; [|by left]. rewrite R. run Rm. done.
  - destruct (loop_has h1 r1 live n H1 Hn1 c f Hc Hcn ltac:(lia)) as (a & h' & R' & a0 & r' & -> & H' & Hun' & Hfr').
    exists (a0 + HEADER), h'. split.
    + rewrite R. run Rm. destruct (ho_freep _ _ _ H1) as (q & Hq & Eq).
      destruct (Z.eqb_spec (h_freep h1) 0) as [E0|_].
      { destruct (ho_range _ _ _ H1 q (or_introl Hq)). destruct (ho_brk _ _ _ H1). lia. }
      unfold ptr. rewrite bind_gets. exact R'.
    + right. exists a0, r'. split_and!; [done | done | unfold HEADER in *; lia |].
      intros d x Hd Hx. by rewrite (Hfr' d x Hd Hx), (Hfr d x Hd Hx).
Qed.

(** ** What the allocator promises *)

Lemma apart_sym b c : apart b c → apart c b.
Proof. unfold apart. tauto. Qed.

Lemma pairs_perm (l l' : list blk) : l ≡ₚ l' → ForallOrdPairs apart l → ForallOrdPairs apart l'.
Proof.
  induction 1 as [|b l l' Hp IH|b c l|l1 l2 l3 _ IH1 _ IH2]; [done | | | by auto].
  - intros Hl. inversion Hl as [|? ? Hb Hl']; subst. constructor; [by rewrite <- Hp | auto].
  - intros Hl. inversion Hl as [|? ? Hb Hl']; subst. inversion Hl' as [|? ? Hc Hl'']; subst.
    apply Forall_cons in Hb as [Hbc Hb]. constructor; [|by constructor]. constructor; [by apply apart_sym | done].
Qed.

Lemma heap_ok_perm h r live live' : live ≡ₚ live' → heap_ok h r live → heap_ok h r live'.
Proof.
  intros Hp [H1 H2 H3 H4 H5 H6 H7 H8 H9]. split; try done.
  - intros b Hb. apply H5. by rewrite Hp.
  - intros b c Hb Hc. apply H6; [done | by rewrite Hp].
  - by eapply pairs_perm.
  - intros b Hb. apply H8. by rewrite Hp.
Qed.

(** The heap between calls; before the first one the list is not set up. *)
Definition heap_inv (h : uheap) (live : list blk) : Prop :=
  (∃ r, heap_ok h r live) ∨ (h_freep h = 0 ∧ live = [] ∧ 0 < base ∧ base + HEADER ≤ h_brk h ≤ UMAX).

(** What a program writes into a block it owns is none of the allocator's business. *)
Lemma heap_inv_write h live b x v :
  heap_inv h live → b ∈ live → b.1 + HEADER ≤ x < b.1 + HEADER * b.2 → heap_inv (set_h_mem (st8 (h_mem h) x v) h) live.
Proof.
  intros [[r Hh]|(_ & -> & _)] Hb Hx; [|by apply elem_of_nil in Hb]. left. exists r.
  destruct (ho_hdr _ _ _ Hh b Hb) as [Hb1 _].
  assert (Hkeep : ∀ c : blk, c.1 + HEADER ≤ x ∨ x < c.1 → ld64 (st8 (h_mem h) x v) c.1 = ld64 (h_mem h) c.1 ∧
    ld32 (st8 (h_mem h) x v) (c.1 + 8) = ld32 (h_mem h) (c.1 + 8)).
  { intros c Hc. split; [apply ld64_ext | apply ld32_ext]; intros i Hi; apply ld8_st8_ne; unfold HEADER in *; lia. }
  assert (Hr : ∀ c, c ∈ r → c.1 + HEADER ≤ x ∨ x < c.1).
  { intros c Hc. pose proof (ext_ge c). pose proof (ext_ge b). destruct (ho_apart _ _ _ Hh c b Hc Hb); unfold ext, HEADER in *; lia. }
  destruct Hh as [H1 H2 H3 H4 H5 H6 H7 H8 H9]. split; try done; cbn [h_mem set_h_mem].
  - clear - H2 Hr Hkeep. induction r as [|c r IH]; [done|]. destruct H2 as (E1 & E2 & E3). destruct (Hkeep c) as [K1 K2]; [apply Hr; by constructor|].
    split; [congruence|]. split; [congruence|]. apply IH; [done|]. intros d Hd. apply Hr. by constructor.
  - intros c Hc. destruct (H5 c Hc) as [E1 E2]. split; [done|]. destruct (decide (c = b)) as [->|Hne].
    + rewrite <- E2. apply ld32_ext. intros i Hi. apply ld8_st8_ne. unfold HEADER in *. lia.
    + assert (Hcb : apart c b).
      { apply list_elem_of_split in Hb as (l1 & l2 & ->). apply (pairs_perm _ (b :: l1 ++ l2)) in H7; [|by rewrite <- Permutation_middle].
        inversion H7 as [|? ? Hf _]; subst. rewrite Forall_forall in Hf. apply apart_sym, Hf. rewrite elem_of_app, elem_of_cons in Hc. rewrite elem_of_app. tauto. }
      destruct (Hkeep c) as [_ ->]; [|done]. pose proof (ext_ge c). unfold apart, ext, HEADER in *. lia.
Qed.

(** The first call sets up the list. *)
Lemma heap_setup h :
  h_freep h = 0 → 0 < base → base + HEADER ≤ h_brk h ≤ UMAX →
  let h1 := set_h_mem (st32 (st64 (h_mem h) base base) (base + 8) 0) (set_h_freep base h) in heap_ok h1 [(base, 0)] [].
Proof.
  intros Hf Hb Hbrk h1. pose proof UMAX_eq. unfold HEADER in *. split; cbn [h1 h_mem h_freep h_brk set_h_mem set_h_freep].
  - exists []. split; [done|]. by intros b ?%elem_of_nil.
  - split; [|split; [|done]]; cbn.
    + rewrite ld64_st32_ne by lia. apply ld64_st64_eq. lia.
    + by rewrite ld32_st32_eq.
  - by repeat constructor.
  - exists (base, 0). split; [by constructor | done].
  - by intros b ?%elem_of_nil.
  - by intros b c _ ?%elem_of_nil.
  - constructor.
  - intros b [->%list_elem_of_singleton|?%elem_of_nil]; [|done]. unfold ext, HEADER. cbn. lia.
  - lia.
Qed.


End heap.

(** ** A small heap *)

Definition ex_base : Z := 0x2000.

(** One block in use, of two units, at 0x3000. *)
Definition ex_heap : uheap := mkHeap (st32 (st32 (st64 ∅ ex_base ex_base) (ex_base + 8) 0) (0x3000 + 8) 2) ex_base 0x4000 [true].

Lemma ex_heap_inv : heap_inv ex_base ex_heap [(0x3000, 2)].
Proof.
  left. exists [(ex_base, 0)]. split.
  - exists []. split; [done|]. by intros b ?%elem_of_nil.
  - split; [|split; [|done]]; by vm_compute.
  - by repeat constructor.
  - exists (ex_base, 0). split; [by constructor | done].
  - intros b ->%list_elem_of_singleton. split; [done | by vm_compute].
  - intros b c ->%list_elem_of_singleton ->%list_elem_of_singleton. left. by vm_compute.
  - by repeat constructor.
  - intros b [->%list_elem_of_singleton| ->%list_elem_of_singleton]; by vm_compute.
  - by vm_compute.
Qed.



(** A request of almost 4 GiB is not refused: its size in bytes is cut to an [int], which is
    negative, and [sbrk] takes memory away from the process. *)
Theorem malloc_huge_shrinks :
  ∃ a h', malloc ex_base 0xfffff000 ex_heap = Ok (a, h') ∧ a ≠ 0 ∧ h_brk h' = 0x3010 ∧ h_brk ex_heap = 0x4000.
Proof.
  destruct (malloc ex_base 0xfffff000 ex_heap) as [[a h']| | |] eqn:E; [|by vm_compute in E..].
  exists a, h'. vm_compute in E. injection E as <- <-. by vm_compute.
Qed.
