(* ===== verification/User.v ===== *)
(** * User: user programs and the system calls they make (src/user/user.h)

    A user program is an interaction tree over the events [sysE], one per system call; the
    kernel answers each event.  Buffers and strings are lists of bytes, strings without their
    NUL.  [io] is an environment for filters: what the reads of a descriptor deliver, and what
    has been written. *)

From stdpp Require Import functions.
From S2P Require Import Prelude Fs.
From ITree Require Import ITree ITreeFacts Events.State Events.StateFacts.

Local Open Scope Z_scope.

Abbreviation bytes := (list Z).

(** The system calls.  A call that fills a buffer returns its contents, [None] for -1;
    [SysWait] is [wait(0)], and [SysWaitStatus] is [wait(&status)]: the pid, and the status
    that is stored, if any is. *)
Variant sysE : Type → Type :=
  | SysFork : sysE Z
  | SysExit (status : Z) : sysE void
  | SysWait : sysE Z
  | SysWaitStatus : sysE (Z * option Z)
  | SysPipe : sysE (option (Z * Z))
  | SysWrite (fd : Z) (b : bytes) : sysE Z
  | SysRead (fd n : Z) : sysE (option bytes)
  | SysClose (fd : Z) : sysE Z
  | SysKill (pid : Z) : sysE Z
  | SysExec (path : bytes) (argv : list bytes) : sysE Z
  | SysOpen (path : bytes) (mode : Z) : sysE Z
  | SysMknod (path : bytes) (major minor : Z) : sysE Z
  | SysUnlink (path : bytes) : sysE Z
  | SysFstat (fd : Z) : sysE (option stat)
  | SysLink (old new : bytes) : sysE Z
  | SysMkdir (path : bytes) : sysE Z
  | SysChdir (path : bytes) : sysE Z
  | SysDup (fd : Z) : sysE Z
  | SysGetpid : sysE Z
  | SysSbrk (n : Z) : sysE Z
  | SysSleep (n : Z) : sysE Z
  | SysUptime : sysE Z
  | SysHello : sysE Z
  | SysXv6 (n : Z) : sysE Z
  | SysTrace (mask : Z) : sysE Z
  | SysSysinfo : sysE (option (Z * Z * Z)).

Abbreviation prog := (itree sysE).

#[global] Instance prog_ret {E} : MRet (itree E) := λ A a, Ret a.
#[global] Instance prog_bind {E} : MBind (itree E) := λ A B f t, ITree.bind t f.

Definition sys {R} (e : sysE R) : prog R := ITree.trigger e.

(** [exit] does not return. *)
Definition exit {A} (status : Z) : prog A := Vis (SysExit status) (λ v : void, match v with end).

(** [for(x in l)] *)
Fixpoint each {A} (l : list A) (f : A → prog unit) : prog unit :=
  match l with
  | [] => mret tt
  | x :: l' => f x;; each l' f
  end.

(** ** Programs run by a handler *)

(** Lemmas for any environment that is a handler of the calls over a state. *)
Section handled.
  Context {E F : Type → Type} {S : Type} (h : E ~> Monads.stateT S (itree F)).

Lemma handled_then {A B} (t : itree E A) (k : A → itree E B) s s' a :
  interp_state h t s ≈ Ret (s', a) → interp_state h (x ← t; k x) s ≈ interp_state h (k a) s'.
Proof. unfold mbind, prog_bind. intros H. rewrite interp_state_bind, H, bind_ret_l. reflexivity. Qed.

Lemma handled_ret {A} (a : A) s : interp_state h (mret a : itree E A) s ≈ Ret (s, a).
Proof. unfold mret, prog_ret. rewrite interp_state_ret. reflexivity. Qed.

Lemma handled_call {R} (e : E R) s s' r : h R e s ≈ Ret (s', r) → interp_state h (ITree.trigger e) s ≈ Ret (s', r).
Proof. intros H. rewrite interp_state_trigger. exact H. Qed.

(** One turn of a loop. *)
Lemma handled_iter {A B} (f : A → itree E (A + B)) a s s' r :
  interp_state h (f a) s ≈ Ret (s', r) →
  interp_state h (ITree.iter f a) s ≈ match r with inl a' => interp_state h (ITree.iter f a') s' | inr b => Ret (s', b) end.
Proof.
  intros H. rewrite unfold_iter, interp_state_bind, H, bind_ret_l. cbn [fst snd].
  destruct r; [rewrite interp_state_tau, tau_eutt | rewrite interp_state_ret]; reflexivity.
Qed.

End handled.

(** ** An environment for filters *)

(** What each coming read of a descriptor has for the program, and what was written to which
    descriptor.  A read that asks for less than there is leaves the rest to the next one; with
    nothing more to come a read returns 0. *)
Record io := mkIo { io_in : Z → list bytes; io_out : list (Z * bytes) }.

Definition io_read (fd n : Z) (w : io) : bytes * io :=
  match io_in w fd with
  | [] => ([], w)
  | c :: cs =>
      let k := Z.to_nat n in
      (take k c, mkIo (<[fd := if (length c <=? k)%nat then cs else drop k c :: cs]> (io_in w)) (io_out w))
  end.

Definition io_write (fd : Z) (b : bytes) (w : io) : io := mkIo (io_in w) (io_out w ++ [(fd, b)]).

(** What is left of a run: the exit of the program, and the calls that are neither reads nor
    writes. *)
Variant envE : Type → Type :=
  | Exited (status : Z) (w : io) : envE void
  | Passed {R} (e : sysE R) : envE R.

Definition io_handler : sysE ~> Monads.stateT io (itree envE) := λ R e w,
  match e in sysE R return itree envE (io * R) with
  | SysRead fd n => let '(b, w') := io_read fd n w in Ret (w', Some b)
  | SysWrite fd b => Ret (io_write fd b w, Z.of_nat (length b))
  | SysExit st => Vis (Exited st w) (λ v : void, match v with end)
  | e' => ITree.map (λ r, (w, r)) (ITree.trigger (Passed e'))
  end.

Definition run_io {A} (t : prog A) (w : io) : itree envE (io * A) := interp_state io_handler t w.

(** The program returns [a], or exits, with the environment as [w']. *)
Definition returns {A} (t : prog A) (w w' : io) (a : A) : Prop := run_io t w ≈ Ret (w', a).
Definition exits {A} (t : prog A) (w w' : io) (status : Z) : Prop :=
  run_io t w ≈ Vis (Exited status w') (λ v : void, match v with end).

Lemma returns_ret {A} (a : A) w : returns (mret a) w w a.
Proof. apply handled_ret. Qed.

Lemma returns_bind {A B} (t : prog A) (k : A → prog B) w w1 w2 a b :
  returns t w w1 a → returns (k a) w1 w2 b → returns (x ← t; k x) w w2 b.
Proof. intros H1 H2. unfold returns, run_io. rewrite handled_then by exact H1. exact H2. Qed.

Lemma exits_bind {A B} (t : prog A) (k : A → prog B) w w1 w2 a st :
  returns t w w1 a → exits (k a) w1 w2 st → exits (x ← t; k x) w w2 st.
Proof. intros H1 H2. unfold exits, run_io. rewrite handled_then by exact H1. exact H2. Qed.

Lemma exits_exit {A} st w : exits (exit (A := A) st) w w st.
Proof.
  unfold exits, run_io, exit. rewrite interp_state_vis. cbn. rewrite bind_vis. apply eqit_Vis. intros [].
Qed.

Lemma returns_sys {R} (e : sysE R) w w' r : io_handler R e w ≈ Ret (w', r) → returns (sys e) w w' r.
Proof. apply handled_call. Qed.

Lemma returns_read fd n w : let '(b, w') := io_read fd n w in returns (sys (SysRead fd n)) w w' (Some b).
Proof. destruct (io_read fd n w) as [b w'] eqn:E. apply returns_sys. cbn. rewrite E. reflexivity. Qed.

Lemma returns_write fd b w : returns (sys (SysWrite fd b)) w (io_write fd b w) (Z.of_nat (length b)).
Proof. apply returns_sys. reflexivity. Qed.

(** One turn of a loop. *)
Lemma returns_iter {A B} (f : A → prog (A + B)) a w w1 w2 r b :
  returns (f a) w w1 r → match r with inl a' => returns (ITree.iter f a') w1 w2 b | inr b' => w1 = w2 ∧ b' = b end →
  returns (ITree.iter f a) w w2 b.
Proof.
  intros H1 H2. unfold returns, run_io. rewrite handled_iter by exact H1. destruct r as [a'|b']; [exact H2|].
  destruct H2 as [-> ->]. reflexivity.
Qed.

Lemma exits_iter {A B} (f : A → prog (A + B)) a w w1 w2 a' st :
  returns (f a) w w1 (inl a') → exits (ITree.iter f a') w1 w2 st → exits (ITree.iter f a) w w2 st.
Proof. intros H1 H2. unfold exits, run_io. rewrite handled_iter by exact H1. exact H2. Qed.
