(* ===== verification/Ulib.v ===== *)
(** * Ulib: the C library of user programs (src/user/ulib.c)

    Functions that only read strings work on lists of bytes, the empty list being the
    pointer to the NUL; functions that write work on the process's memory.  [gets] and
    [stat] make system calls. *)

From S2P Require Import Prelude Mem Fs Sysfile User.

Local Open Scope Z_scope.

(** The character a pointer to the rest [s] of a string points to. *)
Definition deref (s : bytes) : Z := match s with [] => 0 | c :: _ => c end.

(** The string at offset [p] of a buffer. *)
Fixpoint until_nul (l : bytes) : bytes :=
  match l with [] => [] | c :: l' => if c =? 0 then [] else c :: until_nul l' end.
Definition str_at (buf : bytes) (p : nat) : bytes := until_nul (drop p buf).

(** [while([*p] && [*p] == [*q]) p++, q++;] *)
Fixpoint strcmp (p q : bytes) : Z :=
  match p with
  | [] => 0 - deref q
  | c :: p' =>
      match q with
      | d :: q' => if c =? d then strcmp p' q' else c - d
      | [] => c
      end
  end.

(** [for(n = 0; s[n]; n++)] *)
Fixpoint strlen_loop (s : bytes) (n : Z) : Z := match s with [] => n | _ :: s' => strlen_loop s' (n + 1) end.
Definition strlen (s : bytes) : Z := u32 (strlen_loop s 0).

(** The rest of [s] from the first [c] on; the NUL is not found. *)
Fixpoint strchr (s : bytes) (c : Z) : option bytes :=
  match s with
  | [] => None
  | d :: s' => if d =? c then Some s else strchr s' c
  end.

Fixpoint atoi_loop (s : bytes) (n : Z) : Z :=
  match s with
  | c :: s' => if (48 <=? c) && (c <=? 57) then atoi_loop s' (i32 (i32 (n * 10) + c - 48)) else n
  | [] => n
  end.
Definition atoi (s : bytes) : Z := atoi_loop s 0.

(** [while((] [*s++ = *t++] [) != 0);]  [None] when there is no NUL in [fuel] bytes. *)
Fixpoint strcpy (fuel : nat) (m : memory) (s t : Z) : option memory :=
  match fuel with
  | O => None
  | S f =>
      let m' := st8 m s (ld8 m t) in
      if ld8 m t =? 0 then Some m' else strcpy f m' (s + 1) (t + 1)
  end.

Fixpoint memset_loop (k : nat) (m : memory) (cdst c : Z) : memory :=
  match k with O => m | S k' => memset_loop k' (st8 m cdst c) (cdst + 1) c end.
Definition memset (m : memory) (dst c n : Z) : memory := memset_loop (Z.to_nat n) m dst c.

(** The two loops of [memmove]. *)
Fixpoint move_up (k : nat) (m : memory) (dst src : Z) : memory :=
  match k with O => m | S k' => move_up k' (st8 m dst (ld8 m src)) (dst + 1) (src + 1) end.
Fixpoint move_down (k : nat) (m : memory) (dst src : Z) : memory :=
  match k with O => m | S k' => move_down k' (st8 m (dst - 1) (ld8 m (src - 1))) (dst - 1) (src - 1) end.
Definition memmove (m : memory) (vdst vsrc n : Z) : memory :=
  if vdst <? vsrc then move_up (Z.to_nat n) m vdst vsrc
  else move_down (Z.to_nat n) m (vdst + n) (vsrc + n).

Fixpoint memcmp_loop (k : nat) (m : memory) (p1 p2 : Z) : Z :=
  match k with
  | O => 0
  | S k' => if negb (ld8 m p1 =? ld8 m p2) then ld8 m p1 - ld8 m p2 else memcmp_loop k' m (p1 + 1) (p2 + 1)
  end.
Definition memcmp (m : memory) (s1 s2 n : Z) : Z := memcmp_loop (Z.to_nat n) m s1 s2.

Definition memcpy (m : memory) (dst src n : Z) : memory := memmove m dst src n.

(** [for(i=0; i+1 < max; )] of [gets], with [k] characters to come at most. *)
Fixpoint gets_loop (k : nat) (buf : bytes) : prog bytes :=
  match k with
  | O => mret buf
  | S k' =>
      r ← sys (SysRead 0 1);
      match r with
      | Some (c :: _) =>
          if (c =? 10) || (c =? 13) then mret (buf ++ [c]) else gets_loop k' (buf ++ [c])
      | _ => mret buf
      end
  end.
Definition gets (max : Z) : prog bytes := gets_loop (Z.to_nat (max - 1)) [].

Definition stat (n : bytes) : prog (option Fs.stat) :=
  fd ← sys (SysOpen n O_RDONLY);
  if fd <? 0 then mret None
  else
    r ← sys (SysFstat fd);
    sys (SysClose fd);;
    mret r.

(** ** Strings *)

(** Bytes of a string: not the NUL. *)
Definition cbytes (s : bytes) : Prop := Forall (λ c, 0 < c < 256) s.

Lemma strlen_length s : Z.of_nat (length s) < 2 ^ 32 → strlen s = Z.of_nat (length s).
Proof.
  intros Hs. unfold strlen. assert (E : ∀ n, strlen_loop s n = n + Z.of_nat (length s)).
  { clear Hs. induction s as [|c s IH]; intros n; cbn [strlen_loop length]; [lia|]. rewrite IH. lia. }
  rewrite E. apply u32_small. lia.
Qed.

(** [strcmp] is the lexicographic order of the bytes. *)
Fixpoint lex (p q : bytes) : comparison :=
  match p, q with
  | [], [] => Eq
  | [], _ :: _ => Lt
  | _ :: _, [] => Gt
  | c :: p', d :: q' => match c ?= d with Eq => lex p' q' | r => r end
  end.

Lemma strcmp_lex p q : cbytes p → cbytes q → (strcmp p q ?= 0) = lex p q.
Proof.
  intros Hp. revert q. induction Hp as [|c p Hc Hp IH]; intros q Hq; destruct Hq as [|d q Hd Hq]; cbn [strcmp lex deref].
  - done.
  - apply Z.compare_lt_iff. lia.
  - apply Z.compare_gt_iff. lia.
  - destruct (Z.eqb_spec c d) as [->|Hne]; [rewrite Z.compare_refl; by apply IH|].
    destruct (Z.compare_spec c d), (Z.compare_spec (c - d) 0); done || lia.
Qed.

Lemma lex_eq p q : lex p q = Eq ↔ p = q.
Proof.
  revert q. induction p as [|c p IH]; intros [|d q]; cbn [lex]; [done..|].
  destruct (Z.compare_spec c d); (split; [|intros [= -> ->]]); try done; try lia.
  - by intros ->%IH; subst.
  - by apply IH.
Qed.

Lemma until_nul_app l junk : (0 ∉ l) → until_nul (l ++ 0 :: junk) = l.
Proof.
  induction l as [|c l IH]; intros Hl; cbn [until_nul app]; [done|]. rewrite elem_of_cons in Hl.
  destruct (Z.eqb_spec c 0) as [->|]; [tauto|]. f_equal. apply IH. tauto.
Qed.

Lemma strchr_spec s c : match strchr s c with
  | Some r => ∃ l, s = l ++ r ∧ (c ∉ l) ∧ head r = Some c
  | None => c ∉ s
  end.
Proof.
  induction s as [|d s IH]; cbn [strchr]; [apply not_elem_of_nil|]. destruct (Z.eqb_spec d c) as [->|Hne].
  - exists []. split_and!; [done | apply not_elem_of_nil | done].
  - destruct (strchr s c) as [r|].
    + destruct IH as (l & -> & Hl & Hr). exists (d :: l). split_and!; [done | | done]. rewrite elem_of_cons. intuition congruence.
    + rewrite elem_of_cons. intuition congruence.
Qed.

(** ** Numbers *)

(** The value of a string of decimal digits. *)
Definition dec_val (l : bytes) : Z := foldl (λ a c, a * 10 + (c - 48)) 0 l.

Lemma dec_val_from l : ∀ a, 0 ≤ a → Forall (λ c, 48 ≤ c ≤ 57) l → a ≤ foldl (λ a c, a * 10 + (c - 48)) a l.
Proof.
  induction l as [|c l IH]; intros a Ha Hl; cbn [foldl]; [lia|]. apply Forall_cons in Hl as [Hc Hl].
  specialize (IH (a * 10 + (c - 48)) ltac:(lia) Hl). lia.
Qed.

(** [atoi] reads the digits a string begins with, when their value is an [int]. *)
Lemma atoi_digits l rest :
  Forall (λ c, 48 ≤ c ≤ 57) l → dec_val l < 2 ^ 31 → (deref rest < 48 ∨ 57 < deref rest) → atoi (l ++ rest) = dec_val l.
Proof.
  unfold atoi, dec_val. intros Hl Hv Hr.
  assert (E : ∀ a, 0 ≤ a → foldl (λ a c, a * 10 + (c - 48)) a l < 2 ^ 31 → atoi_loop (l ++ rest) a = foldl (λ a c, a * 10 + (c - 48)) a l).
  { clear Hv. induction Hl as [|c l Hc Hl IH]; intros a Ha Hv; cbn [atoi_loop foldl app] in *.
    - destruct rest as [|d rest]; cbn [atoi_loop deref] in *; [done|]. destruct (Z.leb_spec 48 d), (Z.leb_spec d 57); cbn [andb]; done || lia.
    - destruct (Z.leb_spec 48 c), (Z.leb_spec c 57); cbn [andb]; try lia. pose proof (dec_val_from l (a * 10 + (c - 48)) ltac:(lia) Hl).
      rewrite (i32_small (a * 10)), i32_small by lia. replace (a * 10 + c - 48) with (a * 10 + (c - 48)) by lia. by apply IH; [lia|]. }
  by apply E.
Qed.

(** ** Memory *)

Lemma ld8_memset_up k c a : ∀ m d, 
  ld8 (memset_loop k m d c) a = if (d <=? a) && (a <? d + Z.of_nat k) then u8 c else ld8 m a.
Proof.
  induction k as [|k IH]; intros m d; cbn [memset_loop]; [by destruct (_ && _) eqn:E; [lia|]|].
  rewrite IH, ld8_st8. repeat case_match; lia.
Qed.

Lemma ld8_move_up k a : ∀ m d s, d < s →
  ld8 (move_up k m d s) a = if (d <=? a) && (a <? d + Z.of_nat k) then ld8 m (s + (a - d)) else ld8 m a.
Proof.
  induction k as [|k IH]; intros m d s Hds; cbn [move_up]; [by destruct (_ && _) eqn:E; [lia|]|].
  rewrite IH, !ld8_st8 by lia. destruct (Z.eqb_spec a d) as [->|].
  - destruct ((d + 1 <=? d) && _) eqn:E1; [lia|]. destruct ((d <=? d) && _) eqn:E2; [|lia].
    rewrite u8_small by apply ld8_range. f_equal. lia.
  - destruct (Z.eqb_spec (s + 1 + (a - (d + 1))) d); repeat case_match; try lia; f_equal; lia.
Qed.

Lemma ld8_move_down k a : ∀ m d s, s ≤ d →
  ld8 (move_down k m d s) a = if (d - Z.of_nat k <=? a) && (a <? d) then ld8 m (s + (a - d)) else ld8 m a.
Proof.
  induction k as [|k IH]; intros m d s Hds; cbn [move_down]; [by destruct (_ && _) eqn:E; [lia|]|].
  rewrite IH, !ld8_st8 by lia. destruct (Z.eqb_spec a (d - 1)) as [->|].
  - destruct (_ && (d - 1 <? d - 1)) eqn:E1; [lia|]. destruct (_ && (d - 1 <? d)) eqn:E2; [|lia].
    rewrite u8_small by apply ld8_range. f_equal. lia.
  - destruct (Z.eqb_spec (s - 1 + (a - (d - 1))) (d - 1)); repeat case_match; try lia; f_equal; lia.
Qed.

(** The user's [memmove] copies overlapping ranges too, and agrees with the kernel's. *)
Lemma memmove_agrees m dst src n a : 0 ≤ n → ld8 (memmove m dst src n) a = ld8 (CString.memmove m dst src n) a.
Proof.
  intros Hn. rewrite ld8_memmove by done. unfold memmove. destruct (Z.ltb_spec dst src).
  - rewrite ld8_move_up, Z2Nat.id by lia. done.
  - rewrite ld8_move_down, Z2Nat.id by lia. replace (dst + n - n) with dst by lia. destruct (_ && _); [f_equal; lia | done].
Qed.
