(* ===== verification/Uprintf.v ===== *)
(** * Uprintf: formatted output of user programs (src/user/printf.c)

    [printint], [printptr] and [vprintf] as the characters they print, which [putc] writes
    one at a time.  A call whose arguments do not fit its format has no behaviour. *)

From S2P Require Import Prelude Mem Fs Printf PrintfSpec User Ulib.
From ITree Require Import ITree.

Local Open Scope Z_scope.

Definition digits (d : Z) : Z := if d <? 10 then 48 + d else 55 + d.

(** [do { buf[i++] = digits[x % base]; } while((x /= base) != 0);]  [buf] is what has been
    stored so far, last first; [None] is a store outside its 16 bytes. *)
Fixpoint printint_loop (fuel : nat) (x base : Z) (buf : bytes) : option bytes :=
  match fuel with
  | O => None
  | S f =>
      if (length buf <? 16)%nat then
        let buf' := digits (x mod base) :: buf in
        if x / base =? 0 then Some buf' else printint_loop f (x / base) base buf'
      else None
  end.

Definition printint (xx base : Z) (sgn : bool) : option bytes :=
  let neg := sgn && (xx <? 0) in
  let x := if neg then u32 (- xx) else u32 xx in
  buf ← printint_loop 32 x base [];
  if neg then if (length buf <? 16)%nat then Some (45 :: buf) else None
  else Some buf.

(** [for (i = 0; i < (sizeof(uint64) * 2); i++, x <<= 4)] *)
Fixpoint printptr_loop (k : nat) (x : Z) : bytes :=
  match k with
  | O => []
  | S k' => digits (Z.shiftr x 60) :: printptr_loop k' (u64 (Z.shiftl x 4))
  end.
Definition printptr (x : Z) : bytes := 48 :: 120 :: printptr_loop 16 x.

(** One conversion, as in the kernel; a [long] argument goes to [printint] as [int]. *)
Definition convert (c0 c1 c2 : Z) (ap : list varg) : option (bytes * nat * list varg) :=
  let int64 base sgn skip :=
    '(w, ap') ← va_uint64 ap; l ← printint (i32 w) base sgn; Some (l, skip, ap') in
  let int32 base sgn :=
    '(w, ap') ← va_int ap; l ← printint w base sgn; Some (l, 0%nat, ap') in
  if c0 =? 100 then int32 10 true                                            (* d *)
  else if (c0 =? 108) && (c1 =? 100) then int64 10 true 1%nat                (* ld *)
  else if (c0 =? 108) && (c1 =? 108) && (c2 =? 100) then int64 10 true 2%nat (* lld *)
  else if c0 =? 117 then int32 10 false                                      (* u *)
  else if (c0 =? 108) && (c1 =? 117) then int64 10 false 1%nat               (* lu *)
  else if (c0 =? 108) && (c1 =? 108) && (c2 =? 117) then int64 10 false 2%nat
  else if c0 =? 120 then int32 16 false                                      (* x *)
  else if (c0 =? 108) && (c1 =? 120) then int64 16 false 1%nat               (* lx *)
  else if (c0 =? 108) && (c1 =? 108) && (c2 =? 120) then int64 16 false 2%nat
  else if c0 =? 112 then '(w, ap') ← va_uint64 ap; Some (printptr w, 0%nat, ap')  (* p *)
  else if c0 =? 115 then '(s, ap') ← va_str ap; Some (s, 0%nat, ap')               (* s *)
  else if c0 =? 37 then Some ([37], 0%nat, ap)
  else Some ([37; c0], 0%nat, ap).

(** [for(i = 0; fmt[i]; i++)]: [state] is whether a percent sign has been read. *)
Fixpoint vformat (fuel : nat) (state : bool) (fmt : bytes) (ap : list varg) : option bytes :=
  match fuel with
  | O => None
  | S f =>
      match fmt with
      | [] => Some []
      | c0 :: r =>
          if negb state then
            if c0 =? 37 then vformat f true r ap else l ← vformat f false r ap; Some (c0 :: l)
          else
            let c1 := deref r in
            let c2 := if c1 =? 0 then 0 else deref (tail r) in
            '(l, skip, ap') ← convert c0 c1 c2 ap;
            l' ← vformat f false (drop skip r) ap';
            Some (l ++ l')
      end
  end.

Definition putc (fd c : Z) : prog unit := sys (SysWrite fd [c]);; mret tt.

Definition vprintf (fd : Z) (fmt : bytes) (ap : list varg) : prog unit :=
  match vformat (S (length fmt)) false fmt ap with
  | Some l => each l (putc fd)
  | None => ITree.spin
  end.

Definition fprintf (fd : Z) (fmt : string) (ap : list varg) : prog unit := vprintf fd (chars fmt) ap.
Definition printf (fmt : string) (ap : list varg) : prog unit := vprintf 1 (chars fmt) ap.

(** ** Numbers *)

Lemma printint_loop_ten fuel : ∀ x buf, 0 ≤ x → printint_loop fuel x 10 buf = Printf.printint_loop fuel x 10 buf.
Proof.
  induction fuel as [|fuel IH]; intros x buf Hx; cbn [printint_loop Printf.printint_loop]; [done|]. unfold printint_buf.
  destruct (_ <? _)%nat; [|done]. cbv zeta. assert (0 ≤ x mod 10 < 10) by (apply Z.mod_pos_bound; lia).
  assert (digits (x mod 10) = Printf.digits (x mod 10)) as -> by (unfold digits, Printf.digits; by destruct (Z.ltb_spec (x mod 10) 10); [|lia]).
  rewrite IH; [done|]. apply Z.div_pos; lia.
Qed.

Lemma printint_loop_digits fuel : ∀ x buf l, 0 ≤ x → printint_loop fuel x 10 buf = Some l →
  Forall (λ c, 48 ≤ c ≤ 57) buf → Forall (λ c, 48 ≤ c ≤ 57) l.
Proof.
  induction fuel as [|fuel IH]; intros x buf l Hx; cbn [printint_loop]; [done|].
  destruct (_ <? _)%nat; [|done]. cbv zeta. intros R Hb. assert (0 ≤ x mod 10 < 10) by (apply Z.mod_pos_bound; lia).
  assert (Forall (λ c, 48 ≤ c ≤ 57) (digits (x mod 10) :: buf)).
  { constructor; [|done]. unfold digits. destruct (Z.ltb_spec (x mod 10) 10); lia. }
  destruct (_ =? _); [by injection R as <-|]. eapply IH; [|exact R | done]. apply Z.div_pos; lia.
Qed.

Lemma dec_val_digits l : Forall (λ c, 48 ≤ c ≤ 57) l → dec_val l = digits_val 10 l.
Proof.
  unfold dec_val, digits_val. generalize 0. intros a Hl. revert a. induction Hl as [|c l Hc Hl IH]; intros a; cbn [foldl]; [done|].
  rewrite IH. do 2 f_equal. unfold digit_val. destruct (Z.ltb_spec c 58); lia.
Qed.

(** The decimal digits of an unsigned number. *)
Lemma printint_ten x : 0 ≤ x < 2 ^ 32 →
  ∃ l, printint_loop 32 x 10 [] = Some l ∧ Forall (λ c, 48 ≤ c ≤ 57) l ∧ dec_val l = x ∧ (length l ≤ 10)%nat.
Proof.
  intros Hx. destruct (printint_loop_spec 10 ltac:(lia) 16 32 x [] ltac:(lia) ltac:(lia) eq_refl) as [H _].
  destruct H as (l & R & Hv & Hlen); [lia | change (Z.of_nat 16) with 16; lia|]. rewrite app_nil_r in R.
  rewrite <- printint_loop_ten in R by lia. pose proof (printint_loop_digits _ _ _ _ (proj1 Hx) R ltac:(constructor)) as Hd.
  exists l. split_and!; [done | done | by rewrite dec_val_digits|]. apply Hlen; [lia|]. change (Z.of_nat 10) with 10. lia.
Qed.

(** The decimal digits of a number. *)
Definition dec (x : Z) : bytes := default [] (printint x 10 true).

Lemma printint_dec x : 0 ≤ x < 2 ^ 31 → printint x 10 true = Some (dec x) ∧ dec_val (dec x) = x.
Proof.
  intros Hx. unfold dec, printint. destruct (Z.ltb_spec x 0); [lia|]. cbn [andb]. rewrite u32_small by lia.
  destruct (printint_ten x) as (l & R & _ & Hv & _); [lia|]. rewrite R. cbn. done.
Qed.

Lemma vformat_char f c r ap l : c ≠ 37 → vformat f false r ap = Some l → vformat (S f) false (c :: r) ap = Some (c :: l).
Proof. intros Hc R. cbn [vformat negb]. destruct (Z.eqb_spec c 37); [done|]. by rewrite R. Qed.

Lemma vformat_d f r x ap l : 0 ≤ x < 2 ^ 31 → vformat f false r ap = Some l →
  vformat (S (S f)) false (37 :: 100 :: r) (AWord x :: ap) = Some (dec x ++ l).
Proof.
  intros Hx R. destruct (printint_dec x Hx) as [E _]. cbn [vformat negb]. rewrite Z.eqb_refl. unfold convert. cbn -[printint i32 vformat dec].
  rewrite i32_small by lia. rewrite E. cbn -[vformat dec]. by rewrite drop_0, R.
Qed.

Lemma vformat_s f r s ap l : vformat f false r ap = Some l →
  vformat (S (S f)) false (37 :: 115 :: r) (AStr (Some s) :: ap) = Some (s ++ l).
Proof. intros R. cbn [vformat negb]. rewrite Z.eqb_refl. unfold convert. cbn -[vformat]. by rewrite drop_0, R. Qed.

(** What [printf] prints for a [%d] fits its buffer, and [atoi] reads a number that is not
    negative back. *)
Theorem atoi_printint xx :
  - 2 ^ 31 ≤ xx < 2 ^ 31 →
  ∃ l, printint xx 10 true = Some (if xx <? 0 then 45 :: l else l) ∧ dec_val l = Z.abs xx ∧
    (0 ≤ xx → atoi l = xx).
Proof.
  intros Hx. unfold printint. cbn [andb].
  assert (E : (if xx <? 0 then u32 (- xx) else u32 xx) = Z.abs xx) by (destruct (Z.ltb_spec xx 0); rewrite u32_small; lia).
  rewrite E. destruct (printint_ten (Z.abs xx)) as (l & R & Hd & Hv & Hl); [lia|]. rewrite R. cbn [mbind option_bind].
  exists l. split; [|split; [done|]].
  - destruct (Z.ltb_spec xx 0); [|done]. by destruct (Nat.ltb_spec (length l) 16); [|lia].
  - intros Hp. rewrite <- (app_nil_r l). rewrite atoi_digits; [lia | done | lia | cbn; lia].
Qed.

Lemma atoi_printint_witness : ∃ l, printint 2147483647 10 true = Some l ∧ atoi l = 2147483647.
Proof.
  destruct (atoi_printint 2147483647 ltac:(lia)) as (l & H1 & _ & H2). exists l. split; [exact H1 | apply H2; lia].
Defined.

(** [%ld] prints the low 32 bits of its argument. *)
Theorem printf_ld_truncates : vformat 4 false (chars "%ld") [AWord (2 ^ 32 + 7)] = Some (chars "7").
Proof. by vm_compute. Qed.
