(* ===== verification/Grep.v ===== *)
(** * Grep: the regular-expression matcher and the line filter of src/user/grep.c

    [match_re] against the language of a pattern, and [grep] against the lines of its
    input, however the reads cut it up. *)

From stdpp Require Import functions.
From S2P Require Import Prelude Mem Fs Printf Sysfile User Ulib Uprintf.
From ITree Require Import ITree.

Local Open Scope Z_scope.

(** ** The matcher *)

(** [do { if(matchhere(re, text)) return 1; } while([*text!='\0'] && ([*text++==c] || c=='.'));] *)
Fixpoint matchstar (here : bytes → bool) (c : Z) (text : bytes) : bool :=
  if here text then true
  else
    match text with
    | [] => false
    | x :: text' => if (x =? c) || (c =? 46) then matchstar here c text' else false
    end.

Fixpoint matchhere (re text : bytes) {struct re} : bool :=
  match re with
  | [] => true
  | c :: re1 =>
      let one :=
        match text with
        | [] => false
        | x :: text' => if (c =? 46) || (c =? x) then matchhere re1 text' else false
        end in
      match re1 with
      | [] => if c =? 36 then match text with [] => true | _ => false end else one
      | d :: re2 => if d =? 42 then matchstar (matchhere re2) c text else one
      end
  end.

(** [do { if(matchhere(re, text)) return 1; } while([*text++ != '\0']);] *)
Fixpoint match_from (re text : bytes) : bool :=
  if matchhere re text then true
  else match text with [] => false | _ :: text' => match_from re text' end.

Definition match_re (re text : bytes) : bool :=
  match re with
  | c :: re' => if c =? 94 then matchhere re' text else match_from re text
  | [] => match_from re text
  end.

(** ** The filter *)

(** [char buf[1024]] *)
Definition BUFSZ : nat := 1024.

(** Bytes stored at [p], and [n] bytes read there. *)
Definition store (buf : bytes) (p : nat) (l : bytes) : bytes := take p buf ++ l ++ drop (p + length l) buf.
Definition load (buf : bytes) (p n : nat) : bytes := take n (drop p buf).

(** [while((q = strchr(p, '\n')) != 0)] *)
Fixpoint grep_lines (fuel : nat) (pattern buf : bytes) (p : nat) : prog (bytes * nat) :=
  match fuel with
  | O => ITree.spin
  | S f =>
      let s := str_at buf p in
      match strchr s nl with
      | None => mret (buf, p)
      | Some r =>
          let q := (p + (length s - length r))%nat in
          let buf := <[q := 0]> buf in
          buf ← (if match_re pattern (str_at buf p) then
                   let buf := <[q := nl]> buf in
                   sys (SysWrite 1 (load buf p (q + 1 - p)));;
                   mret buf
                 else mret buf);
          grep_lines f pattern buf (q + 1)
      end
  end.

(** [while((n = read(fd, buf+m, sizeof(buf)-m-1)) > 0)] *)
Definition grep_body (pattern : bytes) (fd : Z) (st : bytes * nat) : prog ((bytes * nat) + bytes) :=
  let '(buf, m) := st in
  r ← sys (SysRead fd (Z.of_nat BUFSZ - Z.of_nat m - 1));
  match r with
  | Some (c :: l) =>
      let buf := store buf m (c :: l) in
      let m := (m + length (c :: l))%nat in
      let buf := <[m := 0]> buf in
      '(buf, p) ← grep_lines (S (length buf)) pattern buf 0;
      mret (inl (if (0 <? m)%nat then (store buf 0 (load buf p (m - p)), (m - p)%nat) else (buf, m)))
  | _ => mret (inr buf)
  end.

Definition grep (pattern : bytes) (fd : Z) (buf : bytes) : prog bytes :=
  ITree.iter (grep_body pattern fd) (buf, 0%nat).

(** [for(i = 2; i < argc; i++)] of [main] *)
Fixpoint grep_files (pattern : bytes) (files : list bytes) (buf : bytes) : prog unit :=
  match files with
  | [] => exit 0
  | f :: files' =>
      fd ← sys (SysOpen f O_RDONLY);
      if fd <? 0 then printf "grep: cannot open %s
" [AStr (Some f)];; exit 1
      else
        buf ← grep pattern fd buf;
        sys (SysClose fd);;
        grep_files pattern files' buf
  end.

Definition main (argv : list bytes) : prog unit :=
  let buf := replicate BUFSZ 0 in
  match argv with
  | _ :: pattern :: files =>
      match files with
      | [] => grep pattern 0 buf;; exit 0
      | _ => grep_files pattern files buf
      end
  | _ => fprintf 2 "usage: grep pattern [file ...]
" [];; exit 1
  end.

(** ** The language of a pattern *)

Variant item := One (c : Z) | Many (c : Z) | Eol.

(** The pattern without its caret. *)
Fixpoint items (re : bytes) : list item :=
  match re with
  | [] => []
  | c :: re1 =>
      match re1 with
      | [] => [if c =? 36 then Eol else One c]
      | d :: re2 => if d =? 42 then Many c :: items re2 else One c :: items re1
      end
  end.

(** A character of a pattern stands for itself, the dot for any. *)
Definition sat (c x : Z) : Prop := c = 46 ∨ c = x.

(** The text begins with something the items describe; [Eol] is the end of the text. *)
Fixpoint begins (its : list item) (text : bytes) : Prop :=
  match its with
  | [] => True
  | One c :: its' => ∃ x t, text = x :: t ∧ sat c x ∧ begins its' t
  | Many c :: its' => ∃ us t, text = us ++ t ∧ Forall (sat c) us ∧ begins its' t
  | Eol :: its' => text = [] ∧ begins its' text
  end.

(** A pattern with a caret describes the beginning of the text, another any part of it. *)
Definition matches (re text : bytes) : Prop :=
  match re with
  | c :: re' =>
      if c =? 94 then begins (items re') text else ∃ u v, text = u ++ v ∧ begins (items re) v
  | [] => True
  end.

Lemma matchstar_spec here c text :
  matchstar here c text = true ↔ ∃ us t, text = us ++ t ∧ Forall (sat c) us ∧ here t = true.
Proof.
  induction text as [|x text IH]; cbn [matchstar].
  - destruct (here []) eqn:E; split; try done; [exists [], []; by split_and!|].
    intros (us & t & Ht & _ & Hh). symmetry in Ht. apply app_nil in Ht as [-> ->]. congruence.
  - destruct (here (x :: text)) eqn:E; [split; [|done]; intros _; exists [], (x :: text); by split_and!|].
    assert (Hs : (x =? c) || (c =? 46) = true ↔ sat c x) by (unfold sat; rewrite orb_true_iff, !Z.eqb_eq; intuition congruence).
    destruct ((x =? c) || (c =? 46)); [rewrite IH|]; split; try done.
    + intros (us & t & -> & Hu & Hh). exists (x :: us), t. split_and!; [done | constructor; [by apply Hs | done] | done].
    + intros ([|y us] & t & Ht & Hu & Hh); cbn in Ht; [subst t; congruence|]. injection Ht as <- ->.
      apply Forall_cons in Hu as [_ Hu]. by exists us, t.
    + intros ([|y us] & t & Ht & Hu & Hh); cbn in Ht; [subst t; congruence|]. injection Ht as <- ->.
      apply Forall_cons in Hu as [Hu _]. by apply Hs in Hu.
Qed.

(** The case of one character. *)
Lemma one_spec c re text :
  (∀ t, matchhere re t = true ↔ begins (items re) t) →
  match text with [] => false | x :: text' => if (c =? 46) || (c =? x) then matchhere re text' else false end = true ↔
  begins (One c :: items re) text.
Proof.
  intros IH. cbn [begins]. destruct text as [|x text]; [split; [done | by intros (? & ? & ? & _)]|].
  assert (Hs : (c =? 46) || (c =? x) = true ↔ sat c x) by (unfold sat; by rewrite orb_true_iff, !Z.eqb_eq).
  destruct ((c =? 46) || (c =? x)).
  - rewrite IH. split; [intros H; exists x, text; split_and!; [done | by apply Hs | done] | by intros (? & ? & [= <- <-] & _ & ?)].
  - split; [done|]. intros (y & t & [= <- <-] & H & _). by apply Hs in H.
Qed.

Lemma matchhere_spec re : ∀ text, matchhere re text = true ↔ begins (items re) text.
Proof.
  remember (length re) as n eqn:En. revert re En. induction (lt_wf n) as [n _ IH]. intros [|c [|d re2]] -> text.
  - done.
  - cbn [matchhere items]. destruct (c =? 36).
    + cbn [begins]. by destruct text; split; [..|intros [? _]].
    + apply (one_spec c []). done.
  - cbn [items]. change (matchhere (c :: d :: re2) text) with
      (if d =? 42 then matchstar (matchhere re2) c text
       else match text with [] => false | x :: text' => if (c =? 46) || (c =? x) then matchhere (d :: re2) text' else false end).
    destruct (d =? 42).
    + rewrite matchstar_spec. cbn [begins]. assert (IH2 := IH (length re2) ltac:(cbn; lia) re2 eq_refl).
      split; intros (us & t & Ht & Hu & Hh); exists us, t; (split_and!; [done | done | by apply IH2]).
    + apply (one_spec c (d :: re2)), (IH (length (d :: re2))); [cbn; lia | done].
Qed.

Lemma match_from_spec re text : match_from re text = true ↔ ∃ u v, text = u ++ v ∧ begins (items re) v.
Proof.
  induction text as [|x text IH]; cbn [match_from]; destruct (matchhere re _) eqn:E.
  - split; [|done]. intros _. apply matchhere_spec in E. by exists [], [].
  - split; [done|]. intros (u & v & Ht & Hv). symmetry in Ht. apply app_nil in Ht as [-> ->]. apply matchhere_spec in Hv. congruence.
  - split; [|done]. intros _. apply matchhere_spec in E. by exists [], (x :: text).
  - rewrite IH. split; [intros (u & v & -> & Hv); by exists (x :: u), v|].
    intros ([|y u] & v & Ht & Hv); cbn in Ht; [subst v; apply matchhere_spec in Hv; congruence|]. injection Ht as <- ->. by exists u, v.
Qed.

(** C27. The matcher of [grep] finds a pattern in a text exactly when the text has a part, or
    with a caret a beginning, in the language of the pattern. *)
Theorem match_re_spec re text : match_re re text = true ↔ matches re text.
Proof.
  unfold match_re, matches. destruct re as [|c re]; [by destruct text|].
  destruct (c =? 94); [apply matchhere_spec | apply match_from_spec].
Qed.

(** ** The lines of the input *)

(** Lines with their newlines. *)
Definition flat (ls : list bytes) : bytes := concat ((λ l, l ++ [nl]) <$> ls).

(** A line that fits the buffer. *)
Definition line_ok (l : bytes) : Prop := (nl ∉ l) ∧ (0 ∉ l) ∧ (length l ≤ 1022)%nat.

Definition matching (pattern : bytes) (ls : list bytes) : list (Z * bytes) :=
  (λ l, (1, l ++ [nl])) <$> filter (λ l, match_re pattern l = true) ls.

Lemma strchr_app l r : (nl ∉ l) → strchr (l ++ nl :: r) nl = Some (nl :: r).
Proof.
  induction l as [|c l IH]; intros Hl; cbn [strchr app]; [done|]. rewrite elem_of_cons in Hl.
  destruct (Z.eqb_spec c nl) as [->|]; [tauto|]. apply IH. tauto.
Qed.

Lemma strchr_none l : (nl ∉ l) → strchr l nl = None.
Proof.
  induction l as [|c l IH]; intros Hl; cbn [strchr]; [done|]. rewrite elem_of_cons in Hl.
  destruct (Z.eqb_spec c nl) as [->|]; [tauto|]. apply IH. tauto.
Qed.

Lemma flat_no_nul ls : Forall line_ok ls → 0 ∉ flat ls.
Proof.
  unfold flat. induction 1 as [|l ls (_ & H & _) _ IH]; cbn; [apply not_elem_of_nil|].
  rewrite !elem_of_app, list_elem_of_singleton. intros [[?|?]|?]; done.
Qed.

(** A beginning of the input ends within a line. *)
Lemma flat_split r : ∀ ls D E, Forall line_ok ls → line_ok r → D ++ E = flat ls ++ r →
  ∃ ls1 ls2 r1, ls = ls1 ++ ls2 ∧ D = flat ls1 ++ r1 ∧ r1 ++ E = flat ls2 ++ r ∧ line_ok r1.
Proof.
  assert (Hpre : ∀ l D E X, line_ok l → D ++ E = l ++ X → (length D ≤ length l)%nat → line_ok D).
  { intros l D E X (H1 & H2 & H3) Heq Hlen. assert (HD : D = take (length D) l).
    { rewrite <- (take_app_le l X) by lia. by rewrite <- Heq, take_app_length. }
    rewrite HD. split_and!; [intros Hx%elem_of_take | intros Hx%elem_of_take | rewrite length_take; lia];
      destruct Hx as (i & Hx & _); apply list_elem_of_lookup_2 in Hx; done. }
  induction ls as [|l ls IH]; intros D E Hls Hr Heq.
  - exists [], [], D. split_and!; [done | done | done|]. apply (Hpre r D E []); [done | by rewrite app_nil_r |].
    apply (f_equal length) in Heq. rewrite length_app in Heq. cbn in Heq. lia.
  - apply Forall_cons in Hls as [Hl Hls]. unfold flat in Heq. cbn [fmap list_fmap concat] in Heq. rewrite <- !app_assoc in Heq.
    destruct (decide (length D ≤ length l)%nat) as [Hle|Hgt].
    { exists [], (l :: ls), D. split_and!; [done | done | | eapply (Hpre l D E); [done | exact Heq | done]]. unfold flat. cbn [fmap list_fmap concat]. by rewrite <- !app_assoc. }
    assert (HD : ∃ D', D = l ++ [nl] ++ D').
    { exists (drop (length l + 1) D). rewrite app_assoc. rewrite <- (take_drop (length l + 1) D) at 1. f_equal.
      rewrite <- (take_app_le D E) by lia. rewrite Heq, app_assoc, take_app_le by (rewrite length_app; cbn; lia).
      apply take_ge. rewrite length_app. cbn. lia. }
    destruct HD as [D' ->]. rewrite <- !app_assoc in Heq. apply app_inv_head in Heq. injection Heq as Heq.
    destruct (IH D' E Hls Hr Heq) as (ls1 & ls2 & r1 & -> & -> & E2 & Hr1).
    exists (l :: ls1), ls2, r1. split_and!; [done | | done | done]. unfold flat. cbn [fmap list_fmap concat]. by rewrite <- !app_assoc.
Qed.

(** One pass over the buffer. *)
Lemma grep_lines_spec pattern r junk ls : ∀ fuel buf p w, Forall line_ok ls → line_ok r → (length ls < fuel)%nat →
  drop p buf = flat ls ++ r ++ 0 :: junk →
  ∃ buf', returns (grep_lines fuel pattern buf p) w (mkIo (io_in w) (io_out w ++ matching pattern ls)) (buf', p + length (flat ls))%nat ∧
    length buf' = length buf ∧ drop (p + length (flat ls)) buf' = r ++ 0 :: junk.
Proof.
  induction ls as [|l ls IH]; intros fuel buf p w Hls Hr Hf Hbuf; (destruct fuel as [|fuel]; [cbn in Hf; lia|]); cbn [grep_lines].
  - destruct Hr as (Hr1 & Hr2 & _). unfold str_at. cbn [flat fmap list_fmap concat app length] in *. rewrite Hbuf, until_nul_app by done.
    rewrite strchr_none by done. exists buf. unfold matching. rewrite Nat.add_0_r. cbn. rewrite app_nil_r. split_and!; [|done | done].
    destruct w. apply returns_ret.
  - apply Forall_cons in Hls as [Hl Hls]. destruct Hl as (Hl1 & Hl2 & Hl3). unfold flat in Hbuf. cbn [fmap list_fmap concat] in Hbuf.
    fold (flat ls) in Hbuf. set (R := flat ls ++ r) in *.
    assert (E0 : drop p buf = l ++ nl :: R ++ 0 :: junk) by (rewrite Hbuf; unfold R; by rewrite <- !app_assoc).
    assert (HR : 0 ∉ R) by (unfold R; rewrite elem_of_app; intros [?|?]; [by apply (flat_no_nul ls) | by apply Hr]).
    assert (Hstr : str_at buf p = l ++ nl :: R).
    { unfold str_at. rewrite E0. change (nl :: R ++ 0 :: junk) with ((nl :: R) ++ 0 :: junk). rewrite app_assoc. apply until_nul_app.
      rewrite elem_of_app, elem_of_cons. intros [?|[?|?]]; done. }
    rewrite Hstr, strchr_app by done. rewrite length_app. cbn [length]. replace (length l + S (length R) - S (length R))%nat with (length l) by lia.
    cbv zeta. set (q := (p + length l)%nat).
    assert (Hq : (q < length buf)%nat).
    { apply (f_equal length) in E0. rewrite length_drop, length_app in E0. cbn in E0. lia. }
    assert (Hins : ∀ x b, drop p b = l ++ nl :: R ++ 0 :: junk ∨ drop p b = l ++ 0 :: R ++ 0 :: junk →
      drop p (<[q := x]> b) = l ++ x :: R ++ 0 :: junk).
    { intros x b Hb. rewrite drop_insert_ge by lia. replace (q - p)%nat with (length l + 0)%nat by lia. destruct Hb as [-> | ->]; by rewrite insert_app_r. }
    assert (Hm : str_at (<[q := 0]> buf) p = l) by (unfold str_at; rewrite Hins by auto; by apply until_nul_app).
    rewrite Hm.
    assert (Hstep : ∃ buf1, returns (if match_re pattern l then sys (SysWrite 1 (load (<[q:=nl]> (<[q:=0]> buf)) p (q + 1 - p)));; mret (<[q:=nl]> (<[q:=0]> buf))
                              else mret (<[q:=0]> buf)) w (mkIo (io_in w) (io_out w ++ matching pattern [l])) buf1 ∧
              length buf1 = length buf ∧ drop (q + 1) buf1 = R ++ 0 :: junk).
    { assert (Hd : ∀ b, (∃ x, drop p b = l ++ x :: R ++ 0 :: junk) → drop (q + 1) b = R ++ 0 :: junk).
      { intros b [x Hb]. replace (q + 1)%nat with (p + (length l + 1))%nat by lia. rewrite <- drop_drop, Hb.
        change (x :: R ++ 0 :: junk) with ([x] ++ R ++ 0 :: junk). rewrite app_assoc. apply drop_app_length'. by rewrite length_app. }
      unfold matching. rewrite filter_cons. destruct (match_re pattern l) eqn:Em.
      - exists (<[q:=nl]> (<[q:=0]> buf)). split_and!; [|by rewrite !length_insert |].
        + eapply returns_bind; [apply returns_write|]. unfold load. rewrite Hins by auto.
          replace (q + 1 - p)%nat with (length l + 1)%nat by lia. rewrite take_app_add. cbn. apply returns_ret.
        + apply Hd. exists nl. apply Hins. right. apply Hins. by left.
      - exists (<[q:=0]> buf). split_and!; [|by rewrite !length_insert |].
        + cbn. rewrite app_nil_r. destruct w. apply returns_ret.
        + apply Hd. exists 0. apply Hins. by left. }
    destruct Hstep as (buf1 & H1 & Hlen1 & Hd1).
    destruct (IH fuel buf1 (q + 1)%nat (mkIo (io_in w) (io_out w ++ matching pattern [l])) Hls Hr) as (buf' & H2 & Hlen2 & Hd2);
      [cbn in Hf; lia | rewrite Hd1; unfold R; by rewrite <- app_assoc|].
    assert (Epos : (q + 1 + length (flat ls) = p + length (flat (l :: ls)))%nat).
    { unfold flat. cbn [fmap list_fmap concat]. rewrite !length_app. cbn [length]. lia. }
    rewrite Epos in H2, Hd2. exists buf'. split_and!; [|congruence | done].
    eapply returns_bind; [exact H1|]. cbn [io_in io_out] in H2. rewrite <- app_assoc in H2.
    replace (matching pattern (l :: ls)) with (matching pattern [l] ++ matching pattern ls); [exact H2|].
    unfold matching. rewrite <- fmap_app, <- filter_app. done.
Qed.

(** What a read leaves of the input. *)
Lemma io_read_split fd n w c cs : io_in w fd = c :: cs → c ≠ [] → Forall (λ c, c ≠ []) cs → 1 ≤ n →
  ∃ d w', io_read fd n w = (d, w') ∧ d ≠ [] ∧ (length d ≤ Z.to_nat n)%nat ∧ d ++ concat (io_in w' fd) = concat (c :: cs) ∧
    Forall (λ c, c ≠ []) (io_in w' fd) ∧ io_out w' = io_out w.
Proof.
  intros E Hc Hcs Hn. unfold io_read. rewrite E. eexists _, _. split; [done|]. cbn [io_in io_out]. rewrite fn_lookup_insert.
  split_and!; [| rewrite length_take; lia | | |done].
  - destruct c; [done|]. by destruct (Z.to_nat n) eqn:?; [lia|].
  - destruct (Nat.leb_spec (length c) (Z.to_nat n)); [by rewrite take_ge by lia|]. cbn [concat]. by rewrite app_assoc, take_drop.
  - destruct (Nat.leb_spec (length c) (Z.to_nat n)); [done|]. constructor; [|done]. intros Hd. apply (f_equal length) in Hd.
    rewrite length_drop in Hd. cbn in Hd. lia.
Qed.

Lemma flat_no_lines ls r l : (nl ∉ l) → l = flat ls ++ r → ls = [].
Proof. destruct ls as [|x ls]; [done|]. unfold flat. cbn. intros Hl ->. exfalso. apply Hl. rewrite !elem_of_app, list_elem_of_singleton. auto. Qed.

(** One turn of the loop of [grep]. *)
Lemma grep_turn pattern fd buf r0 w c cs ls r :
  length buf = BUFSZ → take (length r0) buf = r0 → line_ok r0 → Forall line_ok ls → line_ok r →
  io_in w fd = c :: cs → c ≠ [] → Forall (λ c, c ≠ []) cs → r0 ++ concat (c :: cs) = flat ls ++ r →
  ∃ buf' r1 w' ls1 ls2, returns (grep_body pattern fd (buf, length r0)) w w' (inl (buf', length r1)) ∧
    length buf' = BUFSZ ∧ take (length r1) buf' = r1 ∧ line_ok r1 ∧ ls = ls1 ++ ls2 ∧
    r1 ++ concat (io_in w' fd) = flat ls2 ++ r ∧ io_out w' = io_out w ++ matching pattern ls1 ∧
    Forall (λ c, c ≠ []) (io_in w' fd) ∧ (length (concat (io_in w' fd)) < length (concat (c :: cs)))%nat.
Proof.
  intros Hlen Htake Hr0 Hls Hr Ein Hc Hcs Htext. pose proof Hr0 as (_ & _ & Hr0len). unfold BUFSZ in *.
  destruct (io_read_split fd (1024 - Z.of_nat (length r0) - 1) w c cs Ein Hc Hcs) as (d & w1 & Eread & Hd & Hdlen & Hrest & Hcs1 & Hout1); [lia|].
  rewrite <- Hrest, app_assoc in Htext.
  destruct (flat_split r ls (r0 ++ d) (concat (io_in w1 fd)) Hls Hr Htext) as (ls1 & ls2 & r1 & -> & ED & Erest & Hr1).
  apply Forall_app in Hls as [Hls1 _].
  set (buf1 := store buf (length r0) d). set (m := (length r0 + length d)%nat).
  assert (Hbuf1 : buf1 = (r0 ++ d) ++ drop m buf) by (unfold buf1, store; by rewrite Htake, app_assoc).
  assert (Hm : (m < 1024)%nat) by (unfold m; lia).
  assert (Hbuf2 : drop 0 (<[m := 0]> buf1) = flat ls1 ++ r1 ++ 0 :: drop (S m) buf).
  { rewrite drop_0, Hbuf1, insert_app_r_alt by (rewrite length_app; done). rewrite length_app. fold m. rewrite Nat.sub_diag, ED, <- app_assoc.
    destruct (drop m buf) as [|x b] eqn:Eb; [apply (f_equal length) in Eb; rewrite length_drop in Eb; cbn in Eb; lia|].
    cbn [insert list_insert]. do 3 f_equal. change (S m) with (1 + m)%nat. by rewrite Nat.add_comm, <- drop_drop, Eb. }
  assert (Hlen2 : length (<[m := 0]> buf1) = 1024%nat).
  { rewrite length_insert, Hbuf1, !length_app, length_drop. lia. }
  assert (Hfl : (length ls1 ≤ length (flat ls1))%nat).
  { clear. unfold flat. induction ls1 as [|l ls IH]; [done|]. cbn [fmap list_fmap concat length]. rewrite !length_app. cbn. lia. }
  assert (Hmd : m = (length (flat ls1) + length r1)%nat) by (apply (f_equal length) in ED; rewrite !length_app in ED; unfold m; lia).
  destruct (grep_lines_spec pattern r1 (drop (S m) buf) ls1 (S (length (<[m := 0]> buf1))) (<[m := 0]> buf1) 0 w1 Hls1 Hr1)
    as (buf3 & H3 & Hlen3 & Hd3); [lia | done|]. cbn [Nat.add] in H3, Hd3.
  set (p := length (flat ls1)) in *.
  assert (Hload : load buf3 p (m - p) = r1) by (unfold load; rewrite Hd3; apply take_app_length'; lia).
  exists (store buf3 0 r1), r1, (mkIo (io_in w1) (io_out w1 ++ matching pattern ls1)), ls1, ls2. split_and!.
  - unfold grep_body. eapply returns_bind; [pose proof (returns_read fd (1024 - Z.of_nat (length r0) - 1) w) as HR; rewrite Eread in HR; exact HR|].
    destruct d as [|x d]; [done|]. cbv zeta. fold buf1. fold m. eapply returns_bind; [exact H3|]. cbv beta iota.
    destruct (Nat.ltb_spec 0 m) as [_|H0]; [|unfold m in H0; cbn in H0; lia]. rewrite Hload. replace (m - p)%nat with (length r1) by lia. apply returns_ret.
  - change (store buf3 0 r1) with (r1 ++ drop (length r1) buf3). rewrite length_app, length_drop, Hlen3, Hlen2. destruct Hr1 as (_ & _ & ?). lia.
  - apply (take_app_length r1 (drop (length r1) buf3)).
  - done.
  - done.
  - exact Erest.
  - cbn. by rewrite Hout1.
  - done.
  - rewrite <- Hrest, length_app. cbn [io_in]. destruct d; [done|]. cbn. lia.
Qed.

(** C28. [grep] writes the lines of its input that match the pattern, in order and each with its
    newline, and nothing else, however the input is cut into reads.  It holds for input
    without NUL bytes whose lines have at most 1022 characters; what follows the last newline
    is not looked at. *)
Theorem grep_spec pattern fd buf w ls r :
  length buf = BUFSZ → Forall (λ c, c ≠ []) (io_in w fd) → Forall line_ok ls → line_ok r →
  concat (io_in w fd) = flat ls ++ r →
  ∃ w' buf', returns (grep pattern fd buf) w w' buf' ∧ io_out w' = io_out w ++ matching pattern ls.
Proof.
  intros Hlen Hcs Hls Hr Htext. unfold grep.
  assert (Hloop : ∀ n buf r0 w ls, (length (concat (io_in w fd)) < n)%nat → length buf = BUFSZ → take (length r0) buf = r0 → line_ok r0 →
    Forall (λ c, c ≠ []) (io_in w fd) → Forall line_ok ls → r0 ++ concat (io_in w fd) = flat ls ++ r →
    ∃ w' buf', returns (ITree.iter (grep_body pattern fd) (buf, length r0)) w w' buf' ∧ io_out w' = io_out w ++ matching pattern ls).
  { clear -Hr. induction n as [|n IH]; intros buf r0 w ls Hn Hlen Htake Hr0 Hcs Hls Htext; [lia|].
    destruct (io_in w fd) as [|c cs] eqn:Ein.
    - cbn [concat] in Htext. rewrite app_nil_r in Htext. apply flat_no_lines in Htext as ->; [|apply Hr0]. unfold matching. cbn. rewrite app_nil_r.
      exists w, buf. split; [|done]. eapply (returns_iter _ _ _ w _ (inr buf)); [|done]. unfold grep_body.
      pose proof (returns_read fd (Z.of_nat BUFSZ - Z.of_nat (length r0) - 1) w) as HR. unfold io_read in HR. rewrite Ein in HR.
      eapply returns_bind; [exact HR|]. apply returns_ret.
    - apply Forall_cons in Hcs as [Hc Hcs].
      destruct (grep_turn pattern fd buf r0 w c cs ls r) as (buf1 & r1 & w1 & ls1 & ls2 & H1 & Hl1 & Ht1 & Hr1 & -> & He & Ho & Hf & Hlt); try done.
      apply Forall_app in Hls as [_ Hls2].
      destruct (IH buf1 r1 w1 ls2) as (w' & buf' & H2 & Ho2); try done; [lia|].
      exists w', buf'. split; [eapply returns_iter; [exact H1 | exact H2]|]. rewrite Ho2, Ho, <- app_assoc.
      unfold matching. by rewrite filter_app, fmap_app. }
  apply (Hloop (S (length (concat (io_in w fd)))) buf [] w ls); [lia | done | done | | done | done | done].
  split_and!; [apply not_elem_of_nil.. | cbn; lia].
Qed.

Lemma grep_spec_witness :
  let w := mkIo (λ _, [chars "ab"; chars "c
x"; chars "bc
"]) [] in
  ∃ w' buf', returns (grep (chars "b") 0 (replicate BUFSZ 0)) w w' buf' ∧ io_out w' = [(1, chars "abc
"); (1, chars "xbc
")].
Proof.
  intros w. assert (Hl : ∀ l, bool_decide (Forall (λ c, c ≠ nl ∧ c ≠ 0) l) = true → (length l ≤ 1022)%nat → line_ok l).
  { intros l H%bool_decide_eq_true Hlen. rewrite Forall_forall in H. split_and!; [intros Hx; by apply H in Hx as [? _] | intros Hx; by apply H in Hx as [_ ?] | done]. }
  destruct (grep_spec (chars "b") 0 (replicate BUFSZ 0) w [chars "abc"; chars "xbc"] []) as (w' & buf' & H1 & H2).
  - by rewrite length_replicate.
  - by repeat constructor.
  - constructor; [apply Hl; [by vm_compute | cbn; lia]|]. constructor; [apply Hl; [by vm_compute | cbn; lia] | constructor].
  - apply Hl; [done | cbn; lia].
  - by vm_compute.
  - exists w', buf'; split; [exact H1|]. rewrite H2. by vm_compute.
Defined.

(** A line too long for the buffer ends the search: what follows it is never read. *)
Theorem grep_long_line_stops pattern fd buf w c cs :
  length buf = BUFSZ → io_in w fd = c :: cs → (1023 ≤ length c)%nat → (nl ∉ take 1023 c) → (0 ∉ take 1023 c) →
  ∃ w' buf', returns (grep pattern fd buf) w w' buf' ∧ io_out w' = io_out w.
Proof.
  intros Hlen Ein Hc Hnl Hnul. unfold BUFSZ in *. set (D := take 1023 c) in *.
  assert (HD : length D = 1023%nat) by (unfold D; rewrite length_take; lia).
  pose proof (returns_read fd 1023 w) as H1. unfold io_read in H1. rewrite Ein in H1. change (Z.to_nat 1023) with 1023%nat in H1. fold D in H1. clearbody D.
  set (w1 := mkIo _ _) in H1. pose proof (returns_read fd 0 w1) as H2. destruct (io_read fd 0 w1) as [b w2] eqn:E2.
  assert (Hb : b = [] ∧ io_out w2 = io_out w).
  { unfold io_read in E2. destruct (io_in w1 fd) as [|x l]; injection E2 as <- <-; done. }
  destruct Hb as [-> Ho]. set (buf1 := <[1023%nat := 0]> (store buf 0 D)).
  assert (Hs : str_at buf1 0 = D).
  { unfold str_at, buf1. change (store buf 0 D) with (D ++ drop (length D) buf). rewrite drop_0, insert_app_r_alt, HD by lia.
    change (1023 - 1023)%nat with 0%nat. destruct (drop 1023 buf) as [|x l] eqn:Ed; [apply (f_equal length) in Ed; rewrite length_drop in Ed; cbn in Ed; lia|].
    apply until_nul_app, Hnul. }
  assert (Ht1 : returns (grep_body pattern fd (buf, 0%nat)) w w1 (inl (store buf1 0 (load buf1 0 1023), 1023%nat))).
  { unfold grep_body. eapply returns_bind; [exact H1|]. destruct D as [|x D]; [done|]. cbv zeta. rewrite HD.
    change (0 + 1023)%nat with 1023%nat. fold buf1. cbn [grep_lines]. rewrite Hs, strchr_none by done. eapply returns_bind; [apply returns_ret|]. apply returns_ret. }
  exists w2, (store buf1 0 (load buf1 0 1023)). split; [|exact Ho]. unfold grep. eapply returns_iter; [exact Ht1|]. cbv beta iota.
  eapply (returns_iter _ _ _ w2 _ (inr _)); [|done]. unfold grep_body. eapply returns_bind; [exact H2|]. apply returns_ret.
Qed.
