(* ===== verification/Uprogs.v ===== *)
(** * Uprogs: the small user programs (src/user/cat.c, echo.c, wc.c, kill.c, ln.c, mkdir.c,
    rm.c, ls.c, init.c, zombie.c, trace.c, xv6.c, testhello.c, sysinfotest.c, forktest.c and
    stressfs.c)

    One module per program.  [argv] is the list of its arguments, the name of the program
    first. *)

From stdpp Require Import functions.
From S2P Require Import Prelude Mem FsFormat Fs Printf Sysfile User Ulib Uprintf.
From ITree Require Import ITree.

Local Open Scope Z_scope.

Module Cat.

(** [while((n = read(fd, buf, sizeof(buf))) > 0)] *)
Definition cat_body (fd : Z) (_ : unit) : prog (unit + unit) :=
  r ← sys (SysRead fd 512);
  match r with
  | Some (c :: l) =>
      n ← sys (SysWrite 1 (c :: l));
      if negb (n =? Z.of_nat (length (c :: l))) then fprintf 2 "cat: write error
" [];; exit 1
      else mret (inl tt)
  | Some [] => mret (inr tt)
  | None => fprintf 2 "cat: read error
" [];; exit 1
  end.

Definition cat (fd : Z) : prog unit := ITree.iter (cat_body fd) tt.

Definition main (argv : list bytes) : prog unit :=
  match tail argv with
  | [] => cat 0;; exit 0
  | files =>
      each files (λ f,
        fd ← sys (SysOpen f O_RDONLY);
        if fd <? 0 then fprintf 2 "cat: cannot open %s
" [AStr (Some f)];; exit 1
        else cat fd;; sys (SysClose fd);; mret tt);;
      exit 0
  end.

End Cat.

Module Echo.

(** [for(i = 1; i < argc; i++)] *)
Fixpoint echo_args (args : list bytes) : prog unit :=
  match args with
  | [] => mret tt
  | a :: args' =>
      sys (SysWrite 1 a);;
      sys (SysWrite 1 (match args' with [] => [nl] | _ => [32] end));;
      echo_args args'
  end.

Definition main (argv : list bytes) : prog unit := echo_args (tail argv);; exit 0.

End Echo.

Module Wc.

Record counts := mkCounts { n_l : Z; n_w : Z; n_c : Z; inword : bool }.

Definition spaces : bytes := [32; 13; 9; 10; 11].

(** The body of [for(i=0; i<n; i++)]. *)
Definition wc_char (s : counts) (x : Z) : counts :=
  let c := i32 (n_c s + 1) in
  let l := if x =? nl then i32 (n_l s + 1) else n_l s in
  if bool_decide (is_Some (strchr spaces x)) then mkCounts l (n_w s) c false
  else if negb (inword s) then mkCounts l (i32 (n_w s + 1)) c true
  else mkCounts l (n_w s) c (inword s).

Definition wc_body (fd : Z) (s : counts) : prog (counts + counts) :=
  r ← sys (SysRead fd 512);
  match r with
  | Some (c :: b) => mret (inl (foldl wc_char s (c :: b)))
  | Some [] => mret (inr s)
  | None => printf "wc: read error
" [];; exit 1
  end.

Definition wc (fd : Z) (name : bytes) : prog unit :=
  s ← ITree.iter (wc_body fd) (mkCounts 0 0 0 false);
  printf "%d %d %d %s
" [AWord (n_l s); AWord (n_w s); AWord (n_c s); AStr (Some name)].

Definition main (argv : list bytes) : prog unit :=
  match tail argv with
  | [] => wc 0 [];; exit 0
  | files =>
      each files (λ f,
        fd ← sys (SysOpen f O_RDONLY);
        if fd <? 0 then printf "wc: cannot open %s
" [AStr (Some f)];; exit 1
        else wc fd f;; sys (SysClose fd);; mret tt);;
      exit 0
  end.

End Wc.

Module Kill.
Definition main (argv : list bytes) : prog unit :=
  match tail argv with
  | [] => fprintf 2 "usage: kill pid...
" [];; exit 1
  | pids => each pids (λ a, sys (SysKill (atoi a));; mret tt);; exit 0
  end.
End Kill.

Module Ln.
Definition main (argv : list bytes) : prog unit :=
  match argv with
  | [_; old; new] =>
      r ← sys (SysLink old new);
      (if r <? 0 then fprintf 2 "link %s %s: failed
" [AStr (Some old); AStr (Some new)] else mret tt);;
      exit 0
  | _ => fprintf 2 "Usage: ln old new
" [];; exit 1
  end.
End Ln.

Module Mkdir.
(** [for(i = 1; i < argc; i++)] *)
Fixpoint mkdirs (l : list bytes) : prog unit :=
  match l with
  | [] => mret tt
  | a :: l' =>
      r ← sys (SysMkdir a);
      if r <? 0 then fprintf 2 "mkdir: %s failed to create
" [AStr (Some a)] else mkdirs l'
  end.
Definition main (argv : list bytes) : prog unit :=
  match tail argv with
  | [] => fprintf 2 "Usage: mkdir files...
" [];; exit 1
  | l => mkdirs l;; exit 0
  end.
End Mkdir.

Module Rm.
(** [for(i = 1; i < argc; i++)] *)
Fixpoint unlinks (l : list bytes) : prog unit :=
  match l with
  | [] => mret tt
  | a :: l' =>
      r ← sys (SysUnlink a);
      if r <? 0 then fprintf 2 "rm: %s failed to delete
" [AStr (Some a)] else unlinks l'
  end.
Definition main (argv : list bytes) : prog unit :=
  match tail argv with
  | [] => fprintf 2 "Usage: rm files...
" [];; exit 1
  | l => unlinks l;; exit 0
  end.
End Rm.

Module Ls.

(** What follows the last slash: [for(p=path+strlen(path); p >= path && [*p] != '/'; p--)]. *)
Fixpoint base_name (path : bytes) (acc : bytes) : bytes :=
  match path with
  | [] => acc
  | c :: path' => base_name path' (if c =? 47 then [] else acc ++ [c])
  end.

(** The name padded with blanks to [DIRSIZ]. *)
Definition fmtname (path : bytes) : bytes :=
  let p := base_name path [] in
  if DIRSIZ <=? strlen p then p else p ++ replicate (Z.to_nat (DIRSIZ - strlen p)) 32.

Definition show (name : bytes) (st : Fs.stat) : prog unit :=
  printf "%s %d %d %d
" [AStr (Some name); AWord (st_type st); AWord (st_ino st); AWord (st_size st)].

(** [while(read(fd, &de, sizeof(de)) == sizeof(de))] *)
Definition ls_entry (fd : Z) (path : bytes) (_ : unit) : prog (unit + unit) :=
  r ← sys (SysRead fd DIRENT_SIZE);
  match r with
  | Some (i0 :: i1 :: name) =>
      if negb (Z.of_nat (length name) =? DIRSIZ) then mret (inr tt)
      else if i0 + 256 * i1 =? 0 then mret (inl tt)
      else
        let buf := path ++ [47] ++ until_nul name in
        st ← Ulib.stat buf;
        match st with
        | None => printf "ls: cannot stat %s
" [AStr (Some buf)];; mret (inl tt)
        | Some st => show (fmtname buf) st;; mret (inl tt)
        end
  | _ => mret (inr tt)
  end.

Definition ls (path : bytes) : prog unit :=
  fd ← sys (SysOpen path O_RDONLY);
  if fd <? 0 then fprintf 2 "ls: cannot open %s
" [AStr (Some path)]
  else
    st ← sys (SysFstat fd);
    match st with
    | None => fprintf 2 "ls: cannot stat %s
" [AStr (Some path)];; sys (SysClose fd);; mret tt
    | Some st =>
        (if (st_type st =? T_DEVICE) || (st_type st =? T_FILE) then show (fmtname path) st
         else if st_type st =? T_DIR then
           if 512 <? strlen path + 1 + DIRSIZ + 1 then printf "ls: path too long
" []
           else ITree.iter (ls_entry fd path) tt
         else mret tt);;
        sys (SysClose fd);;
        mret tt
    end.

Definition main (argv : list bytes) : prog unit :=
  match tail argv with
  | [] => ls [46];; exit 0
  | paths => each paths ls;; exit 0
  end.

End Ls.

Module Init.

Definition console : bytes := chars "console".

(** The inner loop: [wait] until the shell exits. *)
Definition reap (pid : Z) (_ : unit) : prog (unit + unit) :=
  wpid ← sys SysWait;
  if wpid =? pid then mret (inr tt)
  else if wpid <? 0 then printf "init: wait returned an error
" [];; exit 1
  else mret (inl tt).

(** The outer loop. *)
Definition respawn (_ : unit) : prog (unit + void) :=
  printf "init: starting sh
" [];;
  pid ← sys SysFork;
  if pid <? 0 then printf "init: fork failed
" [];; exit 1
  else if pid =? 0 then
    sys (SysExec (chars "sh") [chars "sh"]);;
    printf "init: exec sh failed
" [];;
    exit 1
  else
    ITree.iter (reap pid) tt;;
    mret (inl tt).

Definition main : prog void :=
  fd ← sys (SysOpen console O_RDWR);
  (if fd <? 0 then sys (SysMknod console 1 0);; sys (SysOpen console O_RDWR);; mret tt else mret tt);;
  sys (SysDup 0);;
  sys (SysDup 0);;
  ITree.iter respawn tt.

End Init.

Module Zombie.
Definition main : prog unit :=
  pid ← sys SysFork;
  (if 0 <? pid then sys (SysSleep 5);; mret tt else mret tt);;
  exit 0.
End Zombie.

Module Trace.
Definition main (argv : list bytes) : prog unit :=
  match argv with
  | _ :: mask :: ((prog :: _) as cmd) =>
      r ← sys (SysTrace (atoi mask));
      if r <? 0 then exit 0
      else
        sys (SysExec prog cmd);;
        exit 0
  | _ => exit 0
  end.
End Trace.

Module Xv6.
(** Without an argument [argv[1]] is the null pointer. *)
Definition main (argv : list bytes) : prog unit :=
  match argv with
  | _ :: n :: _ => sys (SysXv6 (atoi n));; exit 0
  | _ => ITree.spin
  end.
End Xv6.

Module Testhello.
Definition main : prog unit := sys SysHello;; exit 0.
End Testhello.

Module Sysinfotest.
Definition test_sysinfo : prog unit :=
  info ← sys SysSysinfo;
  match info with
  | None => printf "sysinfo: system call failed
" [];; exit 0
  | Some (freemem, nproc, nopenfiles) =>
      printf "Free memory: %ld bytes
" [AWord freemem];;
      printf "Number of active processes: %ld
" [AWord nproc];;
      printf "Number of open files: %ld
" [AWord nopenfiles]
  end.
Definition main : prog unit := test_sysinfo;; exit 0.
End Sysinfotest.

Module Forktest.

Definition N : nat := 1000.
Definition print (s : bytes) : prog unit := sys (SysWrite 1 s);; mret tt.

(** [for(n=0; n<N; n++)], with [k] turns to go: the number of children. *)
Fixpoint forks (k : nat) (n : nat) : prog nat :=
  match k with
  | O => mret n
  | S k' =>
      pid ← sys SysFork;
      if pid <? 0 then mret n
      else if pid =? 0 then exit 0
      else forks k' (S n)
  end.

(** [for(; n > 0; n--)] *)
Fixpoint waits (n : nat) : prog unit :=
  match n with
  | O => mret tt
  | S n' =>
      r ← sys SysWait;
      if r <? 0 then print (chars "wait stopped early
");; exit 1 else waits n'
  end.

Definition forktest : prog unit :=
  print (chars "fork test
");;
  n ← forks N 0;
  if (n =? N)%nat then print (chars "fork claimed to work N times!
");; exit 1
  else
    waits n;;
    r ← sys SysWait;
    if negb (r =? -1) then print (chars "wait got too many
");; exit 1
    else print (chars "fork test OK
").

Definition main : prog unit := forktest;; exit 0.

End Forktest.

Module Stressfs.

(** [for(i = 0; i < 4; i++) if(fork() > 0) break;] *)
Fixpoint fan_out (k : nat) (i : Z) : prog Z :=
  match k with
  | O => mret i
  | S k' => pid ← sys SysFork; if 0 <? pid then mret i else fan_out k' (i + 1)
  end.

Fixpoint times (k : nat) (t : prog unit) : prog unit :=
  match k with O => mret tt | S k' => t;; times k' t end.

Definition main : prog unit :=
  printf "stressfs starting
" [];;
  let data := replicate 512 97 in
  i ← fan_out 4 0;
  printf "write %d
" [AWord i];;
  let path := chars "stressfs" ++ [u8 (48 + i)] in
  fd ← sys (SysOpen path (Z.lor O_CREATE O_RDWR));
  times 20 (sys (SysWrite fd data);; mret tt);;
  sys (SysClose fd);;
  printf "read
" [];;
  fd ← sys (SysOpen path O_RDONLY);
  times 20 (sys (SysRead fd 512);; mret tt);;
  sys (SysClose fd);;
  sys SysWait;;
  exit 0.

End Stressfs.
