(* ===== verification/UprogSpec.v ===== *)
(** * UprogSpec: what the filters print (src/user/cat.c, src/user/echo.c, src/user/wc.c)

    [cat] copies, [echo] joins its arguments, and [wc] counts, whatever sizes the reads have. *)

From stdpp Require Import functions.
From S2P Require Import Prelude Mem FsFormat Fs Printf PrintfSpec Sysfile User Ulib Uprintf Uprogs Grep.
From ITree Require Import ITree.

Local Open Scope Z_scope.

(** ** Output *)

Definition out (w : io) (l : list (Z * bytes)) : io := mkIo (io_in w) (io_out w ++ l).

Lemma out_out w l1 l2 : out (out w l1) l2 = out w (l1 ++ l2).
Proof. unfold out. cbn. by rewrite app_assoc. Qed.

Lemma returns_puts fd l : ∀ w, returns (each l (putc fd)) w (out w ((λ c, (fd, [c])) <$> l)) tt.
Proof.
  induction l as [|c l IH]; intros w; cbn [each fmap list_fmap].
  - destruct w. unfold out. cbn. rewrite app_nil_r. apply returns_ret.
  - eapply returns_bind; [eapply returns_bind; [apply returns_write | apply returns_ret]|].
    change (io_write fd [c] w) with (out w [(fd, [c])]). specialize (IH (out w [(fd, [c])])). rewrite out_out in IH. exact IH.
Qed.

(** Everything written to a descriptor. *)
Definition written (fd : Z) (l : list (Z * bytes)) : bytes := concat ((λ p, if p.1 =? fd then p.2 else []) <$> l).

Lemma written_app fd l1 l2 : written fd (l1 ++ l2) = written fd l1 ++ written fd l2.
Proof. unfold written. by rewrite fmap_app, concat_app. Qed.

Lemma written_puts fd l : written fd ((λ c, (fd, [c])) <$> l) = l.
Proof. unfold written. induction l as [|c l IH]; [done|]. cbn. rewrite Z.eqb_refl. cbn. by f_equal. Qed.

(** ** Loops over the input *)

Section filter.
  Context {S R : Type} (body : S → prog (S + R)) (fd : Z) (step : S → bytes → S) (emit : bytes → list (Z * bytes)) (result : S → R).

(** The body takes what a read delivers, or ends. *)
  Hypothesis Hstep : ∀ s w d w', io_read fd 512 w = (d, w') → d ≠ [] → returns (body s) w (out w' (emit d)) (inl (step s d)).
  Hypothesis Hend : ∀ s w w', io_read fd 512 w = ([], w') → returns (body s) w w' (inr (result s)).

Lemma filter_loop n : ∀ s w, (length (concat (io_in w fd)) < n)%nat → Forall (λ c, c ≠ []) (io_in w fd) →
  ∃ w' ds, returns (ITree.iter body s) w w' (result (foldl step s ds)) ∧ concat ds = concat (io_in w fd) ∧
    io_out w' = io_out w ++ concat (emit <$> ds).
Proof.
  induction n as [|n IH]; intros s w Hn Hcs; [lia|]. destruct (io_in w fd) as [|c cs] eqn:Ein.
  - exists w, []. cbn. rewrite app_nil_r. split_and!; [|done | done]. eapply (returns_iter _ _ _ w _ (inr (result s))); [|done].
    apply Hend. unfold io_read. by rewrite Ein.
  - apply Forall_cons in Hcs as [Hc Hcs].
    destruct (io_read_split fd 512 w c cs Ein Hc Hcs) as (d & w1 & Er & Hd & _ & Hrest & Hcs1 & Ho); [lia|].
    destruct (IH (step s d) (out w1 (emit d))) as (w' & ds & H1 & H2 & H3).
    + cbn [out io_in]. apply (f_equal length) in Hrest. rewrite length_app in Hrest. destruct d; [done|]. cbn in *. lia.
    + done.
    + exists w', (d :: ds). split_and!.
      * eapply returns_iter; [by apply Hstep | exact H1].
      * cbn [concat]. rewrite H2. exact Hrest.
      * rewrite H3. cbn [out io_out fmap list_fmap concat]. by rewrite Ho, app_assoc.
Qed.
End filter.

(** ** cat *)

Lemma cat_ok fd w : Forall (λ c, c ≠ []) (io_in w fd) →
  ∃ w' l, returns (Cat.cat fd) w w' tt ∧ io_out w' = io_out w ++ l ∧ written 1 l = concat (io_in w fd).
Proof.
  intros Hcs. unfold Cat.cat.
  destruct (filter_loop (Cat.cat_body fd) fd (λ _ _, tt) (λ d, [(1, d)]) (λ _, tt)) with (S (length (concat (io_in w fd)))) tt w
    as (w' & ds & H1 & H2 & H3); [| |lia | done|].
  - intros s w1 d w2 Er Hd. unfold Cat.cat_body. pose proof (returns_read fd 512 w1) as HR. rewrite Er in HR.
    eapply returns_bind; [exact HR|]. destruct d as [|c d]; [done|]. eapply returns_bind; [apply returns_write|].
    rewrite Z.eqb_refl. apply returns_ret.
  - intros s w1 w2 Er. unfold Cat.cat_body. pose proof (returns_read fd 512 w1) as HR. rewrite Er in HR.
    eapply returns_bind; [exact HR|]. apply returns_ret.
  - exists w', (concat ((λ d, [(1, d)]) <$> ds)). split_and!; [exact H1 | done|]. rewrite <- H2.
    clear. unfold written. induction ds as [|d ds IH]; [done|]. cbn in *. by rewrite IH.
Qed.

(** ** echo *)

Fixpoint joined (args : list bytes) : bytes :=
  match args with [] => [] | a :: args' => a ++ match args' with [] => [nl] | _ => 32 :: joined args' end end.

Lemma echo_ok args : ∀ w, ∃ l, returns (Echo.echo_args args) w (out w l) tt ∧ written 1 l = joined args.
Proof.
  induction args as [|a args IH]; intros w; cbn [Echo.echo_args joined].
  - exists []. split; [|done]. destruct w. unfold out. cbn. rewrite app_nil_r. apply returns_ret.
  - set (sep := match args with [] => [nl] | _ => [32] end). destruct (IH (out w [(1, a); (1, sep)])) as (l & H1 & H2).
    exists ([(1, a); (1, sep)] ++ l). split.
    + eapply returns_bind; [apply returns_write|]. eapply returns_bind; [apply returns_write|].
      rewrite out_out in H1. unfold io_write. cbn [io_in io_out]. rewrite <- app_assoc. rewrite <- out_out. 
      change (mkIo (io_in w) (io_out w ++ [(1, a)] ++ [(1, sep)])) with (out w [(1, a); (1, sep)]). by rewrite out_out.
    + rewrite written_app, H2. unfold written, sep. cbn. rewrite app_nil_r. destruct args; cbn; [by rewrite <- app_assoc | by rewrite <- app_assoc].
Qed.

(** ** wc *)

Definition space (x : Z) : bool := bool_decide (is_Some (strchr Wc.spaces x)).

(** The text cut at its spaces: what comes before the first, and the rest. *)
Fixpoint cut (text : bytes) : bytes * list bytes :=
  match text with
  | [] => ([], [])
  | x :: t => let '(r, rs) := cut t in if space x then ([], r :: rs) else (x :: r, rs)
  end.
Definition words (text : bytes) : list bytes := filter (λ l, l ≠ []) ((cut text).1 :: (cut text).2).
Definition count (x : Z) (l : bytes) : Z := Z.of_nat (length (filter (λ y, y = x) l)).

(** The words not yet counted when the scan is in the middle of one. *)
Definition pending_words (b : bool) (text : bytes) : Z :=
  Z.of_nat (length (words text)) - (if b && bool_decide ((cut text).1 ≠ []) then 1 else 0).

Lemma wc_char_step s x : 0 ≤ Wc.n_l s < 2 ^ 31 - 1 → 0 ≤ Wc.n_w s < 2 ^ 31 - 1 → 0 ≤ Wc.n_c s < 2 ^ 31 - 1 →
  let s' := Wc.wc_char s x in
  Wc.n_l s' = Wc.n_l s + (if x =? nl then 1 else 0) ∧ Wc.n_c s' = Wc.n_c s + 1 ∧
  Wc.n_w s' = Wc.n_w s + (if space x then 0 else if Wc.inword s then 0 else 1) ∧ Wc.inword s' = negb (space x).
Proof.
  intros Hl Hw Hc. unfold Wc.wc_char. fold (space x). rewrite !i32_small by lia.
  destruct (x =? nl), (space x), (Wc.inword s) eqn:E; cbn; rewrite ?E; split_and!; lia || done.
Qed.

Lemma count_cons y x l : count y (x :: l) = (if x =? y then 1 else 0) + count y l.
Proof.
  unfold count. rewrite filter_cons. destruct (decide (x = y)) as [->|Hne]; [rewrite Z.eqb_refl; cbn [length]; lia|].
  destruct (Z.eqb_spec x y); [done | lia].
Qed.

Lemma pending_words_cons b x text :
  pending_words b (x :: text) = if space x then pending_words false text else (if b then 0 else 1) + pending_words true text.
Proof.
  unfold pending_words, words. cbn [cut]. destruct (cut text) as [r rs]. destruct (space x); cbn [fst snd].
  - rewrite (filter_cons _ []). rewrite (bool_decide_eq_false_2 ([] ≠ [])) by (intros H; by apply H). rewrite andb_false_r. cbn. done.
  - rewrite !filter_cons. rewrite (bool_decide_eq_true_2 (x :: r ≠ [])) by done. rewrite andb_true_r. cbn [length].
    destruct (decide (x :: r ≠ [])) as [_|Hx]; [|by destruct Hx]. destruct (decide (r ≠ [])) as [Hr|Hr]; cbn [length].
    + rewrite bool_decide_eq_true_2 by done. destruct b; cbn; lia.
    + rewrite bool_decide_eq_false_2 by done. destruct b; cbn; lia.
Qed.

Lemma wc_scan text : ∀ s, 0 ≤ Wc.n_l s ∧ Wc.n_l s + Z.of_nat (length text) < 2 ^ 31 →
  0 ≤ Wc.n_w s ∧ Wc.n_w s + Z.of_nat (length text) < 2 ^ 31 → 0 ≤ Wc.n_c s ∧ Wc.n_c s + Z.of_nat (length text) < 2 ^ 31 →
  let s' := foldl Wc.wc_char s text in
  Wc.n_l s' = Wc.n_l s + count nl text ∧ Wc.n_c s' = Wc.n_c s + Z.of_nat (length text) ∧
  Wc.n_w s' = Wc.n_w s + pending_words (Wc.inword s) text.
Proof.
  induction text as [|x text IH]; intros s Hl Hw Hc; cbn [foldl length] in *.
  { unfold pending_words. change (words []) with (@nil bytes). change (count nl []) with 0.
    rewrite (bool_decide_eq_false_2 ((cut []).1 ≠ [])) by (intros H; by apply H). rewrite andb_false_r. cbn [length]. lia. }
  rewrite count_cons, pending_words_cons. destruct (wc_char_step s x) as (E1 & E2 & E3 & E4); [lia..|].
  destruct (IH (Wc.wc_char s x)) as (R1 & R2 & R3).
  { destruct (x =? nl); lia. } { destruct (space x), (Wc.inword s); lia. } { lia. }
  cbv zeta in *. rewrite R1, R2, R3, E4, E1, E2, E3. destruct (space x), (Wc.inword s); cbn [negb]; lia.
Qed.

(** Every word is one of the text's pieces, so there are no more words than characters. *)
Lemma words_le text : Z.of_nat (length (words text)) ≤ Z.of_nat (length text).
Proof.
  assert (H : ∀ b, 0 ≤ pending_words b text ≤ Z.of_nat (length text)).
  { induction text as [|x text IH]; intros b.
    - unfold pending_words. change (words []) with (@nil bytes).
      rewrite (bool_decide_eq_false_2 ((cut []).1 ≠ [])) by (intros H; by apply H). rewrite andb_false_r. cbn. lia.
    - rewrite pending_words_cons. cbn [length]. pose proof (IH false). pose proof (IH true). destruct (space x), b; lia. }
  specialize (H false). unfold pending_words in H. cbn [andb] in H. lia.
Qed.

Lemma wc_line l w c name : 0 ≤ l < 2 ^ 31 → 0 ≤ w < 2 ^ 31 → 0 ≤ c < 2 ^ 31 →
  vformat 13 false (chars "%d %d %d %s
") [AWord l; AWord w; AWord c; AStr (Some name)] =
  Some (dec l ++ [32] ++ dec w ++ [32] ++ dec c ++ [32] ++ name ++ [nl]).
Proof.
  intros Hl Hw Hc. change (chars _) with [37; 100; 32; 37; 100; 32; 37; 100; 32; 37; 115; 10].
  do 3 (apply vformat_d; [done|]; apply vformat_char; [done|]). apply vformat_s. by apply vformat_char.
Qed.

(** [wc] prints the number of newlines, of words and of characters of its input, however it
    is cut into reads, when there are less than 2^31 characters. *)
Theorem wc_spec fd name w :
  let text := concat (io_in w fd) in
  Forall (λ c, c ≠ []) (io_in w fd) → Z.of_nat (length text) < 2 ^ 31 →
  ∃ w' l, returns (Wc.wc fd name) w w' tt ∧ io_out w' = io_out w ++ l ∧
    written 1 l = dec (count nl text) ++ [32] ++ dec (Z.of_nat (length (words text))) ++ [32] ++ dec (Z.of_nat (length text)) ++ [32] ++ name ++ [nl].
Proof.
  intros text Hcs Hlen.
  destruct (filter_loop (Wc.wc_body fd) fd (foldl Wc.wc_char) (λ _, []) id) with (S (length text)) (Wc.mkCounts 0 0 0 false) w
    as (w' & ds & H1 & H2 & H3); [| |unfold text; lia | done|].
  - intros s w1 d w2 Er Hd. unfold Wc.wc_body. pose proof (returns_read fd 512 w1) as HR. rewrite Er in HR.
    eapply returns_bind; [exact HR|]. destruct d as [|c d]; [done|]. unfold out. rewrite app_nil_r. destruct w2. apply returns_ret.
  - intros s w1 w2 Er. unfold Wc.wc_body. pose proof (returns_read fd 512 w1) as HR. rewrite Er in HR.
    eapply returns_bind; [exact HR|]. apply returns_ret.
  - assert (Ef : foldl (foldl Wc.wc_char) (Wc.mkCounts 0 0 0 false) ds = foldl Wc.wc_char (Wc.mkCounts 0 0 0 false) text).
    { unfold text. rewrite <- H2. clear. generalize (Wc.mkCounts 0 0 0 false). induction ds as [|d ds IH]; intros s; cbn; [done|]. by rewrite IH, foldl_app. }
    rewrite Ef in H1. unfold id in H1. set (s := foldl Wc.wc_char _ text) in *.
    assert (Ho : io_out w' = io_out w).
    { rewrite H3. clear. induction ds as [|d ds IH]; [by rewrite app_nil_r|]. exact IH. }
    destruct (wc_scan text (Wc.mkCounts 0 0 0 false)) as (E1 & E2 & E3); [cbn; lia..|]. fold s in E1, E2, E3. cbn in E1, E2, E3.
    unfold pending_words in E3. cbn [andb] in E3. rewrite Z.sub_0_r in E3.
    assert (Hnl : 0 ≤ count nl text ≤ Z.of_nat (length text)).
    { unfold count. pose proof (length_filter (λ y, y = nl) text). lia. }
    pose proof (words_le text).
    exists (out w' ((λ c, (1, [c])) <$> (dec (Wc.n_l s) ++ [32] ++ dec (Wc.n_w s) ++ [32] ++ dec (Wc.n_c s) ++ [32] ++ name ++ [nl]))).
    eexists. split_and!; [|unfold out; cbn; by rewrite Ho | rewrite written_puts, E1, E2, E3; done].
    unfold Wc.wc. eapply returns_bind; [exact H1|]. unfold printf, vprintf.
    change (S (length (chars "%d %d %d %s
"))) with 13%nat. rewrite wc_line by lia. apply returns_puts.
Qed.

(** Three lines cut in the middle of a word. *)
Lemma wc_spec_witness : ∃ w' l,
  returns (Wc.wc 3 [102]) (mkIo (λ _, [[97; 98]; [99; 32; 100; 10]; [10; 32; 101; 10]]) []) w' tt ∧ io_out w' = l ∧
  written 1 l = [51; 32; 51; 32; 49; 48; 32; 102; 10].
Proof.
  destruct (wc_spec 3 [102] (mkIo (λ _, [[97; 98]; [99; 32; 100; 10]; [10; 32; 101; 10]]) [])) as (w' & l & H1 & H2 & H3).
  - repeat constructor; done.
  - cbn. lia.
  - exists w', l. split_and!; [exact H1 | exact H2 | rewrite H3; vm_compute; reflexivity].
Defined.
