(* ===== verification/Grind.v ===== *)
(** * Grind: the random system-call tester (src/user/grind.c)

    The generator of random numbers, and the program as an interaction tree: two children
    that make random system calls for ever, and a parent that restarts them. *)

From Stdlib Require Import Ascii.
From S2P Require Import Prelude Mem FsFormat Fs Printf Sysfile User Ulib Uprintf.
From ITree Require Import ITree.

Local Open Scope Z_scope.

(** ** Random numbers *)

(** [do_rand( *ctx)]: the number returned and the new [*ctx]. *)
Definition do_rand (ctx : Z) : Z * Z :=
  let x := i64 (u64 (ctx mod 0x7ffffffe + 1)) in
  let hi := x `quot` 127773 in
  let lo := x `rem` 127773 in
  let x := i64 (16807 * lo - 2836 * hi) in
  let x := if x <? 0 then i64 (x + 0x7fffffff) else x in
  let x := i64 (x - 1) in
  (i32 x, u64 x).

(** [rand_next] is passed along. *)
Definition rand (rand_next : Z) : Z * Z := do_rand rand_next.

(** ** One random system call *)

Section grind.
  (** What [st1] and [st2] hold before a [wait] that stores nothing. *)
  Context (junk1 junk2 : Z).

(** The variables of [go] and [rand_next]. *)
Record gstate := mkG { g_fd : Z; g_buf : bytes; g_iters : Z; g_rand : Z }.
Definition set_fd (fd : Z) (s : gstate) : gstate := mkG fd (g_buf s) (g_iters s) (g_rand s).
Definition set_buf (b : bytes) (s : gstate) : gstate := mkG (g_fd s) b (g_iters s) (g_rand s).

Definition O_CRW : Z := Z.lor O_CREATE O_RDWR.
Definition openc (path : string) : prog Z := sys (SysOpen (chars path) O_CRW).
Definition close (fd : Z) : prog unit := sys (SysClose fd);; mret tt.
Definition unlink (path : string) : prog unit := sys (SysUnlink (chars path));; mret tt.
Definition mkdir (path : string) : prog unit := sys (SysMkdir (chars path));; mret tt.
Definition chdir (path : string) : prog unit := sys (SysChdir (chars path));; mret tt.
Definition link (old new : string) : prog unit := sys (SysLink (chars old) (chars new));; mret tt.

(** [close(open(path, O_CREATE|O_RDWR))] *)
Definition touch (path : string) : prog unit := fd ← openc path; close fd.

(** Report and give up. *)
Definition fail {A} (msg : string) : prog A := printf msg [];; exit 1.
Definition fail2 {A} (msg : string) (status : Z) : prog A := fprintf 2 msg [];; exit status.

(** [if(chdir(path) != 0){ printf(msg); exit(1); }] *)
Definition chdir_or (path msg : string) : prog unit :=
  r ← sys (SysChdir (chars path)); if negb (r =? 0) then fail msg else mret tt.

(** [int pid = fork(); if(pid == 0) child; else if(pid < 0) fail;] *)
Definition fork_or_fail (child : prog unit) (failed : prog unit) : prog Z :=
  pid ← sys SysFork;
  (if pid =? 0 then child else if pid <? 0 then failed else mret tt);;
  mret pid.

Definition fork_failed : prog unit := fail "grind: fork failed
".

(** [what == 17] *)
Definition kill_child : prog unit :=
  pid ← fork_or_fail (touch "a";; exit 0) fork_failed;
  chdir_or "../grindir/.." "grind: chdir failed
";;
  sys (SysKill pid);;
  sys SysWait;;
  mret tt.

(** [what == 19] *)
Definition pipe_child : prog unit :=
  fds ← sys SysPipe;
  match fds with
  | None => fail "grind: pipe failed
"
  | Some (fd0, fd1) =>
      fork_or_fail
        (sys SysFork;; sys SysFork;;
         n ← sys (SysWrite fd1 [120]);
         (if negb (n =? 1) then printf "grind: pipe write failed
" [] else mret tt);;
         r ← sys (SysRead fd0 1);
         (match r with Some [_] => mret tt | _ => printf "grind: pipe read failed
" [] end);;
         exit 0)
        fork_failed;;
      close fd0;; close fd1;; sys SysWait;; mret tt
  end.

(** [what == 20] *)
Definition dir_child : prog unit :=
  fork_or_fail
    (unlink "a";; mkdir "a";; chdir "a";; unlink "../a";; openc "x";; unlink "x";; exit 0)
    fork_failed;;
  sys SysWait;; mret tt.

(** [what == 21] *)
Definition check_create : prog unit :=
  unlink "c";;
  fd1 ← openc "c";
  if fd1 <? 0 then fail "grind: create c failed
"
  else
    n ← sys (SysWrite fd1 [120]);
    if negb (n =? 1) then fail "grind: write c failed
"
    else
      st ← sys (SysFstat fd1);
      match st with
      | None => fail "grind: fstat failed
"
      | Some st =>
          if negb (st_size st =? 1) then
            printf "grind: fstat reports wrong size %d
" [AWord (i32 (st_size st))];; exit 1
          else if 200 <? st_ino st then
            printf "grind: fstat reports crazy i-number %d
" [AWord (st_ino st)];; exit 1
          else close fd1;; unlink "c"
      end.

(** The children of [what == 22]: echo hi | cat. *)
Definition echo_child (aa0 aa1 bb0 bb1 : Z) : prog unit :=
  close bb0;; close bb1;; close aa0;; close 1;;
  r ← sys (SysDup aa1);
  if negb (r =? 1) then fail2 "grind: dup failed
" 1
  else
    close aa1;;
    sys (SysExec (chars "grindir/../echo") [chars "echo"; chars "hi"]);;
    fail2 "grind: echo: not found
" 2.

Definition cat_child (aa0 aa1 bb0 bb1 : Z) : prog unit :=
  close aa1;; close bb0;; close 0;;
  r ← sys (SysDup aa0);
  if negb (r =? 0) then fail2 "grind: dup failed
" 4
  else
    close aa0;; close 1;;
    r ← sys (SysDup bb1);
    if negb (r =? 1) then fail2 "grind: dup failed
" 5
    else
      close bb1;;
      sys (SysExec (chars "/cat") [chars "cat"]);;
      fail2 "grind: cat: not found
" 6.

(** [read(fd, buf + i, 1)] of a zeroed [buf]. *)
Definition read1 (fd : Z) : prog Z :=
  r ← sys (SysRead fd 1); mret (match r with Some (c :: _) => c | _ => 0 end).

Definition pipeline_failed : string :=
  String.append "grind: exec pipeline failed %d %d " (String "034"%char (String.append "%s" (String "034"%char "
"))).

(** [what == 22] *)
Definition exec_pipeline : prog unit :=
  p ← sys SysPipe;
  match p with
  | None => fail2 "grind: pipe failed
" 1
  | Some (aa0, aa1) =>
      q ← sys SysPipe;
      match q with
      | None => fail2 "grind: pipe failed
" 1
      | Some (bb0, bb1) =>
          fork_or_fail (echo_child aa0 aa1 bb0 bb1) (fail2 "grind: fork failed
" 3);;
          fork_or_fail (cat_child aa0 aa1 bb0 bb1) (fail2 "grind: fork failed
" 7);;
          close aa0;; close aa1;; close bb1;;
          c0 ← read1 bb0; c1 ← read1 bb0; c2 ← read1 bb0;
          close bb0;;
          w1 ← sys SysWaitStatus; w2 ← sys SysWaitStatus;
          let st1 := default junk1 w1.2 in
          let st2 := default junk2 w2.2 in
          let buf := until_nul [c0; c1; c2] in
          if negb (st1 =? 0) || negb (st2 =? 0) || negb (strcmp buf (chars "hi
") =? 0) then
            printf pipeline_failed [AWord st1; AWord st2; AStr (Some buf)];; exit 1
          else mret tt
      end
  end.

(** The branches of [go] on [what]. *)
Definition act (break0 what : Z) (s : gstate) : prog gstate :=
  if what =? 1 then touch "grindir/../a";; mret s
  else if what =? 2 then touch "grindir/../grindir/../b";; mret s
  else if what =? 3 then unlink "grindir/../a";; mret s
  else if what =? 4 then
    chdir_or "grindir" "grind: chdir grindir failed
";;
    unlink "../b";; chdir "/";; mret s
  else if what =? 5 then close (g_fd s);; fd ← openc "/grindir/../a"; mret (set_fd fd s)
  else if what =? 6 then close (g_fd s);; fd ← openc "/./grindir/./../b"; mret (set_fd fd s)
  else if what =? 7 then sys (SysWrite (g_fd s) (g_buf s));; mret s
  else if what =? 8 then
    r ← sys (SysRead (g_fd s) 999);
    mret (match r with Some b => set_buf (b ++ drop (length b) (g_buf s)) s | None => s end)
  else if what =? 9 then mkdir "grindir/../a";; touch "a/../a/./a";; unlink "a/a";; mret s
  else if what =? 10 then mkdir "/../b";; touch "grindir/../b/b";; unlink "b/b";; mret s
  else if what =? 11 then unlink "b";; link "../grindir/./../a" "../b";; mret s
  else if what =? 12 then unlink "../grindir/../a";; link ".././b" "/grindir/../a";; mret s
  else if what =? 13 then fork_or_fail (exit 0) fork_failed;; sys SysWait;; mret s
  else if what =? 14 then fork_or_fail (sys SysFork;; sys SysFork;; exit 0) fork_failed;; sys SysWait;; mret s
  else if what =? 15 then sys (SysSbrk 6011);; mret s
  else if what =? 16 then
    p ← sys (SysSbrk 0);
    if break0 <? p then q ← sys (SysSbrk 0); sys (SysSbrk (i32 (- (q - break0))));; mret s else mret s
  else if what =? 17 then kill_child;; mret s
  else if what =? 18 then
    fork_or_fail (pid ← sys SysGetpid; sys (SysKill pid);; exit 0) fork_failed;; sys SysWait;; mret s
  else if what =? 19 then pipe_child;; mret s
  else if what =? 20 then dir_child;; mret s
  else if what =? 21 then check_create;; mret s
  else if what =? 22 then exec_pipeline;; mret s
  else mret s.

(** ** The program *)

(** [while(1)] of [go] *)
Definition go_body (break0 : Z) (which_child : bool) (s : gstate) : prog (gstate + void) :=
  let iters := u64 (g_iters s + 1) in
  (if iters mod 500 =? 0 then sys (SysWrite 1 (if which_child then [66] else [65]));; mret tt else mret tt);;
  let '(r, next) := rand (g_rand s) in
  s' ← act break0 (r `rem` 23) (mkG (g_fd s) (g_buf s) iters next);
  mret (inl s').

Definition go (which_child : bool) (rand_next : Z) : prog void :=
  break0 ← sys (SysSbrk 0);
  mkdir "grindir";;
  chdir_or "grindir" "grind: chdir grindir failed
";;
  chdir "/";;
  ITree.iter (go_body break0 which_child) (mkG (-1) (replicate 999 0) 0 rand_next).

Definition iter (rand_next : Z) : prog unit :=
  unlink "a";; unlink "b";;
  pid1 ← sys SysFork;
  if pid1 <? 0 then fail "grind: fork failed
"
  else if pid1 =? 0 then go false (Z.lxor rand_next 31);; exit 0
  else
    pid2 ← sys SysFork;
    if pid2 <? 0 then fail "grind: fork failed
"
    else if pid2 =? 0 then go true (Z.lxor rand_next 7177);; exit 0
    else
      w1 ← sys SysWaitStatus;
      (if negb (default (-1) w1.2 =? 0) then sys (SysKill pid1);; sys (SysKill pid2);; mret tt else mret tt);;
      sys SysWaitStatus;;
      exit 0.

Definition main_body (rand_next : Z) : prog (Z + void) :=
  pid ← sys SysFork;
  (if pid =? 0 then iter rand_next;; exit 0 else mret tt);;
  (if 0 <? pid then sys SysWait;; mret tt else mret tt);;
  sys (SysSleep 20);;
  mret (inl (u64 (rand_next + 1))).

(** [rand_next] is 1 at first. *)
Definition main : prog void := ITree.iter main_body 1.

End grind.
