(* ===== verification/GrindSpec.v ===== *)
(** * GrindSpec: the random numbers of grind (src/user/grind.c)

    [do_rand] is the generator of Park and Miller, x := 16807 * x mod (2^31 - 1), shifted by
    one; it runs through all of its 2^31 - 2 states before it repeats. *)

From Stdlib Require Import Znumtheory Zpow_facts.
From S2P Require Import Prelude Grind.

Local Open Scope Z_scope.

(** ** Orders modulo a number *)

(** [g ^ k] is 1 modulo [m]. *)
Definition unit_exp (g m k : Z) : Prop := (m | g ^ k - 1).

Lemma unit_exp_sub g m a b : 0 ≤ b ≤ a → Z.coprime m g → unit_exp g m a → unit_exp g m b → unit_exp g m (a - b).
Proof.
  unfold unit_exp. intros Hab Hg Ha Hb. apply (Z.gauss m (g ^ b)); [|by apply Z.coprime_pow_r; [lia|]].
  replace (g ^ b * (g ^ (a - b) - 1)) with ((g ^ a - 1) - (g ^ b - 1)); [by apply Z.divide_sub_r|].
  rewrite Z.mul_sub_distr_l, <- Z.pow_add_r by lia. replace (b + (a - b)) with a by lia. lia.
Qed.

Lemma unit_exp_mul g m a k : 0 ≤ a → 0 ≤ k → unit_exp g m a → unit_exp g m (a * k).
Proof.
  intros Ha Hk [d Hd]. revert k Hk. apply natlike_ind; [rewrite Z.mul_0_r; by exists 0|]. intros k Hk [c IH].
  unfold unit_exp. replace (a * Z.succ k) with (a * k + a) by lia. rewrite Z.pow_add_r by lia.
  replace (g ^ (a * k)) with (c * m + 1) by lia. replace (g ^ a) with (d * m + 1) by lia. exists (c * d * m + c + d). lia.
Qed.

Lemma unit_exp_mod g m a n : 0 ≤ a → 0 < n → Z.coprime m g → unit_exp g m a → unit_exp g m n → unit_exp g m (a mod n).
Proof.
  intros Ha Hn Hg H1 H2. pose proof (Z.div_pos a n Ha Hn). pose proof (Z.mul_div_le a n Hn).
  rewrite Z.mod_eq by lia. apply unit_exp_sub; [split; [apply Z.mul_nonneg_nonneg; lia | lia] | done | done |].
  by apply unit_exp_mul; [lia | lia |].
Qed.

Lemma unit_exp_gcd g m : Z.coprime m g → ∀ n, 0 ≤ n → ∀ a, 0 ≤ a → unit_exp g m a → unit_exp g m n → unit_exp g m (Z.gcd a n).
Proof.
  intros Hg. apply (Zlt_0_ind (λ n, ∀ a, 0 ≤ a → unit_exp g m a → unit_exp g m n → unit_exp g m (Z.gcd a n))).
  intros n IH Hn a Ha H1 H2. destruct (decide (n = 0)) as [->|Hz]; [by rewrite Z.gcd_0_r, Z.abs_eq|].
  rewrite Z.gcd_comm, <- Z.gcd_mod by done. rewrite Z.gcd_comm. pose proof (Z.mod_pos_bound a n ltac:(lia)).
  apply IH; [lia | lia | done |]. by apply unit_exp_mod; [lia..| | |].
Qed.

(** A number with a factor in common with a product of primes has one of them as a factor. *)
Lemma prime_factor c L : Forall Z.prime L → 1 < c → (c | foldr Z.mul 1 L) → ∃ q, q ∈ L ∧ (q | c).
Proof.
  intros HL Hc. induction HL as [|q L Hq HL IH]; cbn [foldr]; intros Hd.
  - apply Z.divide_1_r_nonneg in Hd; lia.
  - pose proof (Z.prime_ge_2 q Hq). destruct (decide (c mod q = 0)) as [E|E]; rewrite (Z.mod_divide c q) in E by lia.
    { exists q. split; [by left | done]. }
    destruct IH as (q' & H1 & H2); [|exists q'; split; [by right | done]].
    apply (Z.gauss c q); [done|]. rewrite Z.gcd_comm. by apply Z.coprime_prime_l.
Qed.

(** An exponent of 1 whose quotients by its prime factors are none is the order. *)
Lemma order_exact g m L n : let N := foldr Z.mul 1 L in
  Forall Z.prime L → 0 < N → Z.coprime m g → unit_exp g m N → Forall (λ q, ¬ unit_exp g m (N / q)) L →
  0 ≤ n → unit_exp g m n → (N | n).
Proof.
  intros N HL HN Hg HNu Hq Hn Hu. pose proof (unit_exp_gcd g m Hg n Hn N ltac:(lia) HNu Hu) as He.
  destruct (Z.gcd_divide_l N n) as [c Ec]. pose proof (Z.gcd_nonneg N n). set (e := Z.gcd N n) in *.
  assert (0 < c) by nia. destruct (decide (c = 1)) as [->|Hc].
  { rewrite Z.mul_1_l in Ec. rewrite Ec. apply Z.gcd_divide_r. }
  exfalso. destruct (prime_factor c L HL ltac:(lia)) as (q & Hin & t & ->); [fold N; rewrite Ec; by apply Z.divide_mul_l|].
  pose proof (proj1 (Forall_forall _ _) Hq q Hin) as Hno. pose proof (proj1 (Forall_forall _ _) HL q Hin) as Hpr. apply Z.prime_ge_2 in Hpr.
  apply Hno. replace (N / q) with (e * t); [apply unit_exp_mul; [lia | nia | done]|].
  rewrite Ec. replace (t * q * e) with (e * t * q) by lia. by rewrite Z.div_mul by lia.
Qed.

(** ** The generator *)

Local Opaque Z.pow.

Definition P : Z := 2147483647.
Definition factors : list Z := [2; 3; 3; 7; 11; 31; 151; 331].

Lemma factors_prod : foldr Z.mul 1 factors = P - 1.
Proof. done. Qed.

Lemma prime_by_trial p : 1 < p → forallb (λ n, negb (p mod n =? 0)) (seqZ 2 (p - 2)) = true → Z.prime p.
Proof.
  intros Hp H. split; [done|]. intros n Hn Hd. rewrite forallb_forall in H.
  specialize (H n). rewrite <- list_elem_of_In, elem_of_seqZ in H. specialize (H ltac:(lia)). apply Z.mod_divide in Hd; lia.
Qed.

Lemma factors_prime : Forall Z.prime factors.
Proof. repeat constructor; apply prime_by_trial; (lia || reflexivity). Qed.

(** 16807 is a primitive root: of the powers that decide it, only the last is 1, and the
    others differ from 1 by numbers coprime to P. *)
Lemma power_one : 16807 ^ (P - 1) mod P = 1.
Proof. rewrite <- Zpow_mod_correct by done. reflexivity. Qed.

Lemma powers_coprime : Forall (λ q, Z.coprime P (16807 ^ ((P - 1) / q) - 1)) factors.
Proof.
  assert (H : forallb (λ q, Z.gcd P ((Zpow_mod 16807 ((P - 1) / q) P - 1) mod P) =? 1) factors = true) by reflexivity.
  rewrite forallb_forall in H. apply Forall_forall. intros q Hq. specialize (H q (proj1 (list_elem_of_In _ _) Hq)).
  rewrite Zpow_mod_correct, Zminus_mod_idemp_l in H by done. apply Z.coprime_mod_r_iff. unfold Z.coprime. lia.
Qed.

(** The powers of 16807 modulo a divisor of P. *)
Lemma order_divisor m n : 1 < m → (m | P) → 0 ≤ n → unit_exp 16807 m n → (P - 1 | n).
Proof.
  intros Hm HP Hn Hu. assert (Hdiv : ∀ x, (m | x) → Z.coprime P x → False).
  { intros x Hx Hc. pose proof (Z.gcd_greatest P x m HP Hx) as H. unfold Z.coprime in Hc. rewrite Hc in H. apply Z.divide_1_r_nonneg in H; lia. }
  pose proof (order_exact 16807 m factors n) as H. cbv zeta in H. rewrite factors_prod in H. apply H; clear H.
  - apply factors_prime.
  - done.
  - destruct HP as [t Ht]. assert (Hc : Z.coprime P 16807) by done. rewrite Ht in Hc.
    apply Z.Bezout_coprime in Hc as (a & b & E). apply Z.coprime_Bezout. exists (a * t), b. lia.
  - apply Z.divide_trans with P; [done|]. apply Z.mod_divide; [done|]. rewrite Zminus_mod, power_one. done.
  - eapply Forall_impl; [apply powers_coprime|]. intros q Hq Hu'. by eapply Hdiv.
  - done.
  - done.
Qed.

(** The next state. *)
Definition lehmer (ctx : Z) : Z := (16807 * (ctx mod (P - 1) + 1)) mod P - 1.

(** The product is not 0 modulo P. *)
Lemma mul_nonzero x : 1 ≤ x < P → 1 ≤ (16807 * x) mod P < P.
Proof.
  intros Hx. pose proof (Z.mod_pos_bound (16807 * x) P ltac:(done)). destruct (decide ((16807 * x) mod P = 0)) as [E|]; [|lia].
  apply Z.mod_divide in E; [|done]. apply Z.gauss in E; [|done]. apply Z.divide_pos_le in E; lia.
Qed.

Lemma lehmer_range c : 0 ≤ lehmer c < P - 1.
Proof. unfold lehmer. pose proof (Z.mod_pos_bound c (P - 1) ltac:(done)). pose proof (mul_nonzero (c mod (P - 1) + 1)). lia. Qed.

(** The computation without overflow. *)
Lemma schrage x : 1 ≤ x < P →
  let y := 16807 * (x mod 127773) - 2836 * (x / 127773) in
  - P < y < P ∧ (if y <? 0 then y + P else y) = (16807 * x) mod P.
Proof.
  intros Hx y. assert (Hy : - P < y < P) by (unfold y, P in *; zdiv). split; [done|].
  apply (Z.mod_unique_pos _ _ (if y <? 0 then x / 127773 - 1 else x / 127773)).
  - destruct (Z.ltb_spec y 0); lia.
  - assert (E : 16807 * x = P * (x / 127773) + y) by (unfold y, P in *; zdiv). destruct (y <? 0); lia.
Qed.

Lemma do_rand_eq ctx : 0 ≤ ctx < 2 ^ 64 → do_rand ctx = (lehmer ctx, lehmer ctx).
Proof.
  intros Hc. unfold do_rand. change 0x7ffffffe with (P - 1). change 0x7fffffff with P.
  pose proof (Z.mod_pos_bound ctx (P - 1) ltac:(done)) as Hm. pose proof (lehmer_range ctx) as Hr. set (x := ctx mod (P - 1) + 1) in *.
  assert (Hx : 1 ≤ x < P) by lia. assert (HP : P = 2147483647) by done.
  rewrite (u64_small x), (i64_small x) by lia. rewrite Z.quot_div_nonneg, Z.rem_mod_nonneg by lia.
  destruct (schrage x Hx) as [Hy E]. set (y := 16807 * (x mod 127773) - 2836 * (x / 127773)) in *. cbv zeta. rewrite (i64_small y) by lia.
  assert (El : (if y <? 0 then y + P else y) - 1 = lehmer ctx) by (unfold lehmer; fold x; lia).
  replace (if y <? 0 then i64 (y + P) else y) with (if y <? 0 then y + P else y) by (destruct (y <? 0); [rewrite i64_small by lia|]; done).
  rewrite El. rewrite (i64_small (lehmer ctx)), i32_small, u64_small by lia. done.
Qed.

Lemma lehmer_small c : 0 ≤ c < P - 1 → lehmer c + 1 = (16807 * (c + 1)) mod P.
Proof. intros Hc. unfold lehmer. rewrite (Z.mod_small c) by done. lia. Qed.

(** [n] calls of [rand]. *)
Lemma lehmer_iter n c : 0 ≤ c < P - 1 → Nat.iter n lehmer c + 1 = (16807 ^ Z.of_nat n * (c + 1)) mod P.
Proof.
  intros Hc. induction n as [|n IH].
  - rewrite Z.pow_0_r, Z.mul_1_l, Z.mod_small by lia. done.
  - assert (Hr : 0 ≤ Nat.iter n lehmer c < P - 1) by (destruct n; [done | apply lehmer_range]).
    change (Nat.iter (S n) lehmer c) with (lehmer (Nat.iter n lehmer c)).
    rewrite lehmer_small, IH, Zmult_mod_idemp_r by done. rewrite Nat2Z.inj_succ, Z.pow_succ_r by lia. f_equal. lia.
Qed.

(** A state comes back after a multiple of P - 1 calls only. *)
Lemma lehmer_period n c : 0 ≤ c < P - 1 → Nat.iter n lehmer c = c ↔ (P - 1 | Z.of_nat n).
Proof.
  intros Hc. pose proof (lehmer_iter n c Hc) as E. set (g := 16807 ^ Z.of_nat n) in *.
  assert (Hdiff : (P | (c + 1) * (g - 1)) ↔ (g * (c + 1)) mod P = c + 1).
  { replace ((c + 1) * (g - 1)) with (g * (c + 1) - (c + 1)) by lia. rewrite <- Z.mod_divide by done. split; intros H.
    - rewrite <- (Z.mod_small (c + 1) P) at 2 by lia. rewrite <- (Z.sub_add (c + 1) (g * (c + 1))). rewrite Zplus_mod, H, Z.add_0_l, Zmod_mod. done.
    - rewrite Zminus_mod, H, (Z.mod_small (c + 1) P), Z.sub_diag by lia. done. }
  transitivity ((g * (c + 1)) mod P = c + 1); [lia|]. rewrite <- Hdiff. clear Hdiff E. split.
  - intros Hd. pose proof (Z.gcd_divide_l P (c + 1)) as [m Em]. pose proof (Z.gcd_divide_r P (c + 1)) as [t Et].
    pose proof (Z.gcd_nonneg P (c + 1)) as H0. set (d := Z.gcd P (c + 1)) in *.
    assert (Hd0 : 0 < d) by (assert (d ≠ 0) by (intros ->; lia); lia).
    assert (d ≤ c + 1) by (apply Z.divide_pos_le; [lia | apply Z.gcd_divide_r]).
    assert (1 < m) by (clear Hd Et; destruct (Z.le_gt_cases m 1); [nia | done]).
    apply (order_divisor m); [done | exists d; lia | lia |]. unfold unit_exp. fold g.
    apply (Z.gauss m t).
    + destruct Hd as [k Hk]. exists k. rewrite Em, Et in Hk. nia.
    + pose proof (Z.gcd_div_gcd P (c + 1) d ltac:(lia) eq_refl) as Hg. rewrite Em, Et, !Z.div_mul in Hg by lia. done.
  - intros [k Hk]. apply Z.divide_mul_r. subst g. rewrite Hk, Z.mul_comm. apply (unit_exp_mul 16807 P); [done | change P with 2147483647 in Hk; lia |].
    apply Z.mod_divide; [done|]. rewrite Zminus_mod, power_one. done.
Qed.

(** C29. The random numbers of grind.  For every 64-bit context, [do_rand] returns and stores
    16807 * x mod (2^31 - 1) - 1 for x = ctx mod (2^31 - 2) + 1, as the comment in it says,
    and its products and their difference stay below 2^31, so that nothing overflows.  From
    then on the state repeats after 2^31 - 2 calls and not before. *)
Theorem do_rand_spec ctx :
  0 ≤ ctx < 2 ^ 64 →
  let x := ctx mod (2 ^ 31 - 2) + 1 in let r := (16807 * x) mod (2 ^ 31 - 1) - 1 in
  do_rand ctx = (r, r) ∧ 0 ≤ r < 2 ^ 31 - 2 ∧
  (16807 * (x mod 127773) < 2 ^ 31 ∧ 2836 * (x / 127773) < 2 ^ 31 ∧ Z.abs (16807 * (x mod 127773) - 2836 * (x / 127773)) < 2 ^ 31) ∧
  ∀ n, Nat.iter n (λ c, snd (rand c)) r = r ↔ (2 ^ 31 - 2 | Z.of_nat n).
Proof.
  intros Hc x r. pose proof (lehmer_range ctx) as Hr. change (lehmer ctx) with r in Hr. split_and!; [by apply do_rand_eq | apply Hr | apply Hr | | | |].
  1-3: assert (1 ≤ x < P) by (pose proof (Z.mod_pos_bound ctx (2 ^ 31 - 2)); change P with 2147483647; lia); unfold P in *; zdiv.
  intros n. rewrite <- (lehmer_period n r Hr). assert (E : Nat.iter n (λ c, snd (rand c)) r = Nat.iter n lehmer r); [|by rewrite E].
  induction n as [|n IH]; [done|].
  change (Nat.iter (S n) (λ c, snd (rand c)) r) with (snd (rand (Nat.iter n (λ c, snd (rand c)) r))). rewrite IH.
  change (Nat.iter (S n) lehmer r) with (lehmer (Nat.iter n lehmer r)).
  assert (0 ≤ Nat.iter n lehmer r < P - 1) by (destruct n; [done | apply lehmer_range]).
  unfold rand. rewrite do_rand_eq; [done | change P with 2147483647 in *; lia].
Qed.

(** The first number of grind. *)
Lemma do_rand_spec_witness : do_rand 1 = (33613, 33613) ∧ (2 ^ 31 - 2 | Z.of_nat 0).
Proof.
  destruct (do_rand_spec 1 ltac:(lia)) as (E & _ & _ & H). split; [exact E | by apply (H 0%nat)].
Defined.
