(* ===== verification/UtestBase.v ===== *)
(** * UtestBase: what the tests of src/user/usertests.c are made of

    A test is an interaction tree over the system calls [sysE] and over [rawE]: the calls
    that are given an address instead of a buffer or a string, and the loads and stores that
    are meant to fault.  An access that faults kills the process, so that its event is not
    answered. *)

From Stdlib Require Import Ascii.
From S2P Require Import Prelude Mem Layout FsFormat Fs Printf Sysfile User Ulib Uprintf.
From ITree Require Import ITree.

Local Open Scope Z_scope.

Variant rawE : Type → Type :=
  | Load (a : Z) : rawE Z                             (* a byte *)
  | Store (a v : Z) : rawE unit
  | StoreWord (a v : Z) : rawE unit                   (* an int *)
  | LoadPtr (a : Z) : rawE Z
  | StorePtr (a v : Z) : rawE unit
  | CString (a : Z) : rawE bytes                      (* the string at [a] *)
  | ReadSp : rawE Z                                   (* r_sp() *)
  | Malloc (n : Z) : rawE Z                           (* malloc and free of umalloc.c *)
  | Free (p : Z) : rawE unit
  | WriteFrom (fd a n : Z) : rawE Z                   (* write(fd, a, n) *)
  | ReadInto (fd a n : Z) : rawE Z                    (* read(fd, a, n) *)
  | OpenAt (a mode : Z) : rawE Z
  | UnlinkAt (a : Z) : rawE Z
  | LinkAt (old new : Z) : rawE Z
  | LinkTo (old : bytes) (new : Z) : rawE Z
  | ExecAt (path : Z) (argv : list bytes) : rawE Z
  | ExecArgs (path : bytes) (argv : list Z) : rawE Z
  | PipeAt (a : Z) : rawE Z.

Abbreviation tprog := (itree (sysE +' rawE)).

Definition sc {R} (e : sysE R) : tprog R := ITree.trigger (inl1 e).
Definition raw {R} (e : rawE R) : tprog R := ITree.trigger (inr1 e).
Definition exit {A} (status : Z) : tprog A := Vis (inl1 (SysExit status)) (λ v : void, match v with end).

(** [printf], with and without a newline at the end of the format. *)
Definition newline : string := String "010"%char "".
Definition print (fmt : string) (ap : list varg) : tprog unit := translate inl1 (printf fmt ap).
Definition println (fmt : string) (ap : list varg) : tprog unit := print (String.append fmt newline) ap.

(** [if(bad){ printf(...); exit(1); }] *)
Definition die {A} (fmt : string) (ap : list varg) : tprog A := println fmt ap;; exit 1.
Definition check (bad : bool) (fmt : string) (ap : list varg) : tprog unit := if bad then die fmt ap else mret tt.
(** The same without the newline. *)
Definition check_ (bad : bool) (fmt : string) (ap : list varg) : tprog unit := if bad then print fmt ap;; exit 1 else mret tt.

Definition when (b : bool) (t : tprog unit) : tprog unit := if b then t else mret tt.

(** ** Loops *)

(** [for(i = ...; k times; i++)] *)
Fixpoint upto (k : nat) (i : Z) (f : Z → tprog unit) : tprog unit :=
  match k with
  | O => mret tt
  | S k' => f i;; upto k' (i + 1) f
  end.

(** The same with a variable that the body changes. *)
Fixpoint upto_with {A} (k : nat) (i : Z) (a : A) (f : Z → A → tprog A) : tprog A :=
  match k with
  | O => mret a
  | S k' => a' ← f i a; upto_with k' (i + 1) a' f
  end.

(** The same, left by a [break] when the body returns false. *)
Fixpoint upto_break (k : nat) (i : Z) (f : Z → tprog bool) : tprog unit :=
  match k with
  | O => mret tt
  | S k' => go_on ← f i; if (go_on : bool) then upto_break k' (i + 1) f else mret tt
  end.

(** ** System calls *)

Definition open_b (path : bytes) (mode : Z) : tprog Z := sc (SysOpen path mode).
Definition unlink_b (path : bytes) : tprog Z := sc (SysUnlink path).
Definition open (path : string) (mode : Z) : tprog Z := open_b (chars path) mode.
Definition unlink (path : string) : tprog Z := unlink_b (chars path).
Definition link (old new : string) : tprog Z := sc (SysLink (chars old) (chars new)).
Definition mkdir (path : string) : tprog Z := sc (SysMkdir (chars path)).
Definition chdir (path : string) : tprog Z := sc (SysChdir (chars path)).
Definition close (fd : Z) : tprog unit := sc (SysClose fd);; mret tt.
Definition write (fd : Z) (b : bytes) : tprog Z := sc (SysWrite fd b).
Definition fork : tprog Z := sc SysFork.
Definition wait0 : tprog Z := sc SysWait.
Definition kill (pid : Z) : tprog unit := sc (SysKill pid);; mret tt.
Definition sleep (n : Z) : tprog unit := sc (SysSleep n);; mret tt.
Definition sbrk (n : Z) : tprog Z := sc (SysSbrk (i32 n)).

(** [n = read(fd, buf, n)] with the bytes read *)
Definition read (fd n : Z) : tprog (Z * bytes) :=
  r ← sc (SysRead fd n); mret (match r with Some b => (Z.of_nat (length b), b) | None => (-1, []) end).

(** [wait(&status)], where [status] holds [old]: the pid and the new [status]. *)
Definition wait_into (old : Z) : tprog (Z * Z) := r ← sc SysWaitStatus; mret (r.1, default old r.2).

(** [pipe(fds)]: the result and [fds], which hold [old0] and [old1] if it fails. *)
Definition pipe (old0 old1 : Z) : tprog (Z * Z * Z) :=
  p ← sc SysPipe; mret (match p with Some (r, w) => (0, r, w) | None => (-1, old0, old1) end).

Definition CREATE_W : Z := Z.lor O_CREATE O_WRONLY.
Definition CREATE_RW : Z := Z.lor O_CREATE O_RDWR.
Definition CREATE_W_TRUNC : Z := Z.lor CREATE_W O_TRUNC.

(** [close(open(path, mode))] *)
Definition open_close_b (path : bytes) (mode : Z) : tprog unit := fd ← open_b path mode; close fd.
Definition open_close (path : string) (mode : Z) : tprog unit := open_close_b (chars path) mode.

(** [buf] of [BUFSZ] bytes: zero when a test begins, since every test runs in a process forked
    from one that does not change it. *)
Definition BUFSZ : Z := (MAXOPBLOCKS + 2) * BSIZE.
Definition zeros (n : Z) : bytes := replicate (Z.to_nat n) 0.

(** The address that a failed [sbrk] returns. *)
Definition bad_addr : Z := 0xffffffffffffffff.

(** [for(;;) t;] *)
Definition forever {A} (t : tprog unit) : tprog A := ITree.iter (λ _ : unit, t;; mret (inl tt)) tt.

(** [for(x in l)] *)
Fixpoint each_of {A} (l : list A) (f : A → tprog unit) : tprog unit :=
  match l with
  | [] => mret tt
  | x :: l' => f x;; each_of l' f
  end.
Fixpoint each_with {A B} (l : list A) (b : B) (f : A → B → tprog B) : tprog B :=
  match l with
  | [] => mret b
  | x :: l' => b' ← f x b; each_with l' b' f
  end.
