(* ===== verification/UtestMem.v ===== *)
(** * UtestMem: the tests of memory and of pointers passed to the kernel
    (src/user/usertests.c) *)

From S2P Require Import Prelude Mem Layout FsFormat Fs Printf Sysfile User Ulib Uprintf UtestBase.
From ITree Require Import ITree.

Local Open Scope Z_scope.

Section tests.
  (** What a variable holds that has not been set, and where the array [uninit] is. *)
  Context (junk uninit : Z).
  (** The name of the test. *)
  Context (s : bytes).
  Abbreviation S_ := (AStr (Some s)).

(** ** Pointers *)

Definition copyin_addrs : list Z := [0x80000000; 0x3fffffe000; 0x3ffffff000; 0x4000000000; 0xffffffffffffffff].

Definition copyin : tprog unit :=
  each_of copyin_addrs (λ addr,
    fd ← open "copyin1" CREATE_W;
    check (fd <? 0) "open(copyin1) failed" [];;
    n ← raw (WriteFrom fd addr 8192);
    check (0 <=? n) "write(fd, %p, 8192) returned %d, not -1" [AWord addr; AWord n];;
    close fd;;
    unlink "copyin1";;
    n ← raw (WriteFrom 1 addr 8192);
    check (0 <? n) "write(1, %p, 8192) returned %d, not -1 or 0" [AWord addr; AWord n];;
    '(r, fd0, fd1) ← pipe junk junk;
    check (r <? 0) "pipe() failed" [];;
    n ← raw (WriteFrom fd1 addr 8192);
    check (0 <? n) "write(pipe, %p, 8192) returned %d, not -1 or 0" [AWord addr; AWord n];;
    close fd0;;
    close fd1).

Definition copyout : tprog unit :=
  each_of (0 :: copyin_addrs) (λ addr,
    fd ← open "README" 0;
    check (fd <? 0) "open(README) failed" [];;
    n ← raw (ReadInto fd addr 8192);
    check (0 <? n) "read(fd, %p, 8192) returned %d, not -1 or 0" [AWord addr; AWord n];;
    close fd;;
    '(r, fd0, fd1) ← pipe junk junk;
    check (r <? 0) "pipe() failed" [];;
    n ← write fd1 [120];
    check (negb (n =? 1)) "pipe write failed" [];;
    n ← raw (ReadInto fd0 addr 8192);
    check (0 <? n) "read(pipe, %p, 8192) returned %d, not -1 or 0" [AWord addr; AWord n];;
    close fd0;;
    close fd1).

Definition copyinstr1 : tprog unit :=
  each_of copyin_addrs (λ addr,
    fd ← raw (OpenAt addr CREATE_W);
    check (0 <=? fd) "open(%p) returned %d, not -1" [AWord addr; AWord fd]).

Definition copyinstr2 : tprog unit :=
  let b := replicate (Z.to_nat MAXPATH) 120 in
  ret ← unlink_b b;
  check (negb (ret =? -1)) "unlink(%s) returned %d, not -1" [AStr (Some b); AWord ret];;
  fd ← open_b b CREATE_W;
  check (negb (fd =? -1)) "open(%s) returned %d, not -1" [AStr (Some b); AWord fd];;
  ret ← sc (SysLink b b);
  check (negb (ret =? -1)) "link(%s, %s) returned %d, not -1" [AStr (Some b); AStr (Some b); AWord ret];;
  ret ← sc (SysExec b [chars "xx"]);
  check (negb (ret =? -1)) "exec(%s) returned %d, not -1" [AStr (Some b); AWord fd];;
  pid ← fork;
  check (pid <? 0) "fork failed" [];;
  when (pid =? 0) (
    let big := replicate (Z.to_nat PGSIZE) 120 in
    ret ← sc (SysExec (chars "echo") [big; big; big]);
    check (negb (ret =? -1)) "exec(echo, BIG) returned %d, not -1" [AWord fd];;
    exit 747);;
  '(_, st) ← wait_into 0;
  check (negb (st =? 747)) "exec(echo, BIG) succeeded, should have failed" [].

Definition copyinstr3 : tprog unit :=
  sbrk 8192;;
  top ← sbrk 0;
  when (negb (top mod PGSIZE =? 0)) (sbrk (PGSIZE - top mod PGSIZE);; mret tt);;
  top ← sbrk 0;
  check (negb (top mod PGSIZE =? 0)) "oops" [];;
  let b := u64 (top - 1) in
  raw (Store b 120);;
  ret ← raw (UnlinkAt b);
  when (negb (ret =? -1)) (t ← raw (CString b); die "unlink(%s) returned %d, not -1" [AStr (Some t); AWord ret]);;
  fd ← raw (OpenAt b CREATE_W);
  when (negb (fd =? -1)) (t ← raw (CString b); die "open(%s) returned %d, not -1" [AStr (Some t); AWord fd]);;
  ret ← raw (LinkAt b b);
  when (negb (ret =? -1)) (t ← raw (CString b); die "link(%s, %s) returned %d, not -1" [AStr (Some t); AStr (Some t); AWord ret]);;
  ret ← raw (ExecAt b [chars "xx"]);
  when (negb (ret =? -1)) (t ← raw (CString b); die "exec(%s) returned %d, not -1" [AStr (Some t); AWord fd]).

Definition rwsbrk : tprog unit :=
  a ← sbrk 8192;
  check (a =? bad_addr) "sbrk(rwsbrk) failed" [];;
  r ← sbrk (-8192);
  check (r =? bad_addr) "sbrk(rwsbrk) shrink failed" [];;
  fd ← open "rwsbrk" CREATE_W;
  check (fd <? 0) "open(rwsbrk) failed" [];;
  n ← raw (WriteFrom fd (u64 (a + 4096)) 1024);
  check (0 <=? n) "write(fd, %p, 1024) returned %d, not -1" [AWord (u64 (a + 4096)); AWord n];;
  close fd;;
  unlink "rwsbrk";;
  fd ← open "README" O_RDONLY;
  check (fd <? 0) "open(rwsbrk) failed" [];;
  n ← raw (ReadInto fd (u64 (a + 4096)) 10);
  check (0 <=? n) "read(fd, %p, 10) returned %d, not -1" [AWord (u64 (a + 4096)); AWord n];;
  close fd;;
  exit 0.

Definition validatetest : tprog unit :=
  let hi := 1100 * 1024 in
  upto (Z.to_nat (hi / PGSIZE + 1)) 0 (λ i,
    r ← raw (LinkTo (chars "nosuchfile") (PGSIZE * i));
    check (negb (r =? -1)) "%s: link should not succeed" [S_]).

Definition bsstest : tprog unit :=
  upto (Z.to_nat 10000) 0 (λ i,
    c ← raw (Load (uninit + i));
    check (negb (c =? 0)) "%s: bss test failed" [S_]).

Definition bigargtest : tprog unit :=
  unlink "bigarg-ok";;
  pid ← fork;
  (if pid =? 0 then
     let big := replicate 399 32 in
     sc (SysExec (chars "echo") (replicate (Z.to_nat (MAXARG - 1)) big));;
     fd ← open "bigarg-ok" O_CREATE;
     close fd;;
     exit 0
   else check (pid <? 0) "%s: bigargtest: fork failed" [S_]);;
  '(_, xstatus) ← wait_into junk;
  when (negb (xstatus =? 0)) (exit xstatus);;
  fd ← open "bigarg-ok" 0;
  check (fd <? 0) "%s: bigarg test failed!" [S_];;
  close fd.

Definition argptest : tprog unit :=
  fd ← open "init" O_RDONLY;
  check (fd <? 0) "%s: open failed" [S_];;
  a ← sbrk 0;
  raw (ReadInto fd (u64 (a - 1)) (-1));;
  close fd.

Definition pgbug : tprog unit :=
  let big := 0xeaeb0b5b00002f5e in
  raw (ExecAt big []);;
  raw (PipeAt big);;
  exit 0.

Definition badarg : tprog unit :=
  upto (Z.to_nat 50000) 0 (λ _, raw (ExecArgs (chars "echo") [0xffffffff]);; mret tt);;
  exit 0.

Definition badwrite : tprog unit :=
  unlink "junk";;
  upto 600 0 (λ _,
    fd ← open "junk" CREATE_W;
    check (fd <? 0) "open junk failed" [];;
    raw (WriteFrom fd 0xffffffffff 1);;
    close fd;;
    unlink "junk";; mret tt);;
  fd ← open "junk" CREATE_W;
  check (fd <? 0) "open junk failed" [];;
  n ← write fd [120];
  check (negb (n =? 1)) "write failed" [];;
  close fd;;
  unlink "junk";;
  exit 0.

(** ** Growing and shrinking *)

Definition sbrkbasic : tprog unit :=
  let TOOMUCH := 1024 * 1024 * 1024 in
  pid ← fork;
  check (pid <? 0) "fork failed in sbrkbasic" [];;
  when (pid =? 0) (
    a ← sbrk TOOMUCH;
    when (a =? bad_addr) (exit 0);;
    upto (Z.to_nat (TOOMUCH / 4096)) 0 (λ i, raw (Store (a + 4096 * i) 99));;
    exit 1);;
  '(_, xstatus) ← wait_into junk;
  check (xstatus =? 1) "%s: too much memory allocated!" [S_];;
  a ← sbrk 0;
  a ← upto_with 5000 0 a (λ i a,
    b ← sbrk 1;
    check (negb (b =? a)) "%s: sbrk test failed %d %p %p" [S_; AWord i; AWord a; AWord b];;
    raw (Store b 1);;
    mret (u64 (b + 1)));
  pid ← fork;
  check (pid <? 0) "%s: sbrk test fork failed" [S_];;
  sbrk 1;;
  c ← sbrk 1;
  check (negb (c =? u64 (a + 1))) "%s: sbrk test failed post-fork" [S_];;
  when (pid =? 0) (exit 0);;
  '(_, xstatus) ← wait_into xstatus;
  exit xstatus.

Definition BIG : Z := 100 * 1024 * 1024.

Definition sbrkmuch : tprog unit :=
  oldbrk ← sbrk 0;
  a ← sbrk 0;
  let amt := u64 (BIG - a) in
  p ← sbrk amt;
  check (negb (p =? a)) "%s: sbrk test failed to grow big address space; enough phys mem?" [S_];;
  eee ← sbrk 0;
  upto (Z.to_nat ((eee - a + 4095) / 4096)) 0 (λ i, raw (Store (a + 4096 * i) 1));;
  let lastaddr := BIG - 1 in
  raw (Store lastaddr 99);;
  a ← sbrk 0;
  c ← sbrk (- PGSIZE);
  check (c =? bad_addr) "%s: sbrk could not deallocate" [S_];;
  c ← sbrk 0;
  check (negb (c =? u64 (a - PGSIZE))) "%s: sbrk deallocation produced wrong address, a %p c %p" [S_; AWord a; AWord c];;
  a ← sbrk 0;
  c ← sbrk PGSIZE;
  bad ← (if negb (c =? a) then mret true else e ← sbrk 0; mret (negb (e =? u64 (a + PGSIZE))));
  check bad "%s: sbrk re-allocation failed, a %p c %p" [S_; AWord a; AWord c];;
  v ← raw (Load lastaddr);
  check (v =? 99) "%s: sbrk de-allocation didn't really deallocate" [S_];;
  a ← sbrk 0;
  e ← sbrk 0;
  c ← sbrk (- (e - oldbrk));
  check (negb (c =? a)) "%s: sbrk downsize failed, a %p c %p" [S_; AWord a; AWord c].

Definition kernmem : tprog unit :=
  upto 40 0 (λ i,
    let a := KERNBASE + 50000 * i in
    pid ← fork;
    check (pid <? 0) "%s: fork failed" [S_];;
    when (pid =? 0) (v ← raw (Load a); die "%s: oops could read %p = %x" [S_; AWord a; AWord v]);;
    '(_, xstatus) ← wait_into junk;
    when (negb (xstatus =? -1)) (exit 1)).

Definition MAXVAplus : tprog unit :=
  ITree.iter (λ a,
    if a =? 0 then mret (inr tt)
    else
      pid ← fork;
      check (pid <? 0) "%s: fork failed" [S_];;
      when (pid =? 0) (raw (Store a 99);; die "%s: oops wrote %p" [S_; AWord a]);;
      '(_, xstatus) ← wait_into junk;
      when (negb (xstatus =? -1)) (exit 1);;
      mret (inl (u64 (Z.shiftl a 1)))) MAXVA.

(** The children of [sbrkfail] and the pids of those that could be made. *)
Definition sbrkfail_fork (fd0 fd1 : Z) : tprog Z :=
  pid ← fork;
  when (pid =? 0) (
    a ← sbrk 0;
    sbrk (BIG - a);;
    write fd1 [120];;
    forever (sleep 1000));;
  when (negb (pid =? -1)) (read fd0 1;; mret tt);;
  mret pid.

Definition sbrkfail : tprog unit :=
  '(r, fd0, fd1) ← pipe junk junk;
  check (negb (r =? 0)) "%s: pipe() failed" [S_];;
  pids ← upto_with 10 0 [] (λ _ pids, pid ← sbrkfail_fork fd0 fd1; mret (pids ++ [pid]));
  c ← sbrk PGSIZE;
  each_of pids (λ pid, when (negb (pid =? -1)) (kill pid;; wait0;; mret tt));;
  check (c =? bad_addr) "%s: failed sbrk leaked memory" [S_];;
  pid ← fork;
  check (pid <? 0) "%s: fork failed" [S_];;
  when (pid =? 0) (
    a ← sbrk 0;
    sbrk (10 * BIG);;
    n ← upto_with (Z.to_nat (10 * BIG / PGSIZE)) 0 0 (λ i n, v ← raw (Load (a + PGSIZE * i)); mret (i32 (n + v)));
    die "%s: allocate a lot of memory succeeded %d" [S_; AWord n]);;
  '(_, xstatus) ← wait_into junk;
  when (negb (xstatus =? -1) && negb (xstatus =? 2)) (exit 1).

Definition sbrkarg : tprog unit :=
  a ← sbrk PGSIZE;
  fd ← open "sbrk" CREATE_W;
  unlink "sbrk";;
  check (fd <? 0) "%s: open sbrk failed" [S_];;
  n ← raw (WriteFrom fd a PGSIZE);
  check (n <? 0) "%s: write sbrk failed" [S_];;
  close fd;;
  a ← sbrk PGSIZE;
  r ← raw (PipeAt a);
  check (negb (r =? 0)) "%s: pipe() failed" [S_].

Definition stacktest : tprog unit :=
  pid ← fork;
  (if pid =? 0 then
     sp ← raw ReadSp;
     v ← raw (Load (u64 (sp - USERSTACK * PGSIZE)));
     die "%s: stacktest: read below stack %d" [S_; AWord v]
   else check (pid <? 0) "%s: fork failed" [S_]);;
  '(_, xstatus) ← wait_into junk;
  if xstatus =? -1 then exit 0 else exit xstatus.

Definition nowrite : tprog unit :=
  each_with (0 :: copyin_addrs) junk (λ addr xstatus,
    pid ← fork;
    (if pid =? 0 then
       raw (StoreWord addr 10);;
       println "%s: write to %p did not fail!" [S_; AWord addr];;
       exit 0
     else check (pid <? 0) "%s: fork failed" [S_]);;
    '(_, xstatus) ← wait_into xstatus;
    when (xstatus =? 0) (exit 1);;
    mret xstatus);;
  exit 0.

Definition sbrkbugs : tprog unit :=
  let child (t : tprog unit) :=
    pid ← fork;
    check (pid <? 0) "fork failed" [];;
    when (pid =? 0) (t;; exit 0);;
    wait0 in
  child (a ← sbrk 0; sbrk (- i32 a);; mret tt);;
  child (a ← sbrk 0; sbrk (- (i32 a - 3500));; mret tt);;
  child (a ← sbrk 0; sbrk (10 * 4096 + 2048 - a);; sbrk (-10);; mret tt);;
  exit 0.

Definition sbrklast : tprog unit :=
  top ← sbrk 0;
  when (negb (top mod 4096 =? 0)) (sbrk (4096 - top mod 4096);; mret tt);;
  sbrk 4096;;
  sbrk 10;;
  sbrk (-20);;
  top ← sbrk 0;
  let p := u64 (top - 64) in
  raw (Store p 120);;
  raw (Store (u64 (p + 1)) 0);;
  fd ← raw (OpenAt p CREATE_RW);
  raw (WriteFrom fd p 1);;
  close fd;;
  fd ← raw (OpenAt p O_RDWR);
  raw (Store p 0);;
  raw (ReadInto fd p 1);;
  v ← raw (Load p);
  when (negb (v =? 120)) (exit 1).

Definition sbrk8000 : tprog unit :=
  sbrk 0x80000004;;
  top ← sbrk 0;
  v ← raw (Load (u64 (top - 1)));
  raw (Store (u64 (top - 1)) (u8 (v + 1))).

(** [while((m2 = malloc(10001)) != 0)] and [while(m1)] of [mem] *)
Definition mem_fill : tprog Z :=
  ITree.iter (λ m1,
    m2 ← raw (Malloc 10001);
    if m2 =? 0 then mret (inr m1) else raw (StorePtr m2 m1);; mret (inl m2)) 0.
Definition mem_empty (m1 : Z) : tprog unit :=
  ITree.iter (λ m1,
    if m1 =? 0 then mret (inr tt)
    else m2 ← raw (LoadPtr m1); raw (Free m1);; mret (inl m2)) m1.

Definition mem : tprog unit :=
  pid ← fork;
  if pid =? 0 then
    m1 ← mem_fill;
    mem_empty m1;;
    m1 ← raw (Malloc (1024 * 20));
    check (m1 =? 0) "%s: couldn't allocate mem?!!" [S_];;
    raw (Free m1);;
    exit 0
  else
    '(_, xstatus) ← wait_into junk;
    when (xstatus =? -1) (exit 0);;
    exit xstatus.

(** [while(1)] of [execout]: all of memory *)
Definition take_all : tprog unit :=
  ITree.iter (λ _ : unit,
    a ← sbrk 4096;
    if a =? bad_addr then mret (inr tt) else raw (Store (u64 (a + 4096 - 1)) 1);; mret (inl tt)) tt.

Definition execout : tprog unit :=
  upto 15 0 (λ avail,
    pid ← fork;
    if pid <? 0 then die "fork failed" []
    else if pid =? 0 then
      take_all;;
      upto (Z.to_nat avail) 0 (λ _, sbrk (-4096);; mret tt);;
      close 1;;
      sc (SysExec (chars "echo") [chars "echo"; chars "x"]);;
      exit 0
    else wait0;; mret tt);;
  exit 0.

End tests.
