(* ===== verification/UtestFs.v ===== *)
(** * UtestFs: the tests of the file system (src/user/usertests.c) *)

From S2P Require Import Prelude Mem Layout FsFormat Fs Printf Sysfile User Ulib Uprintf UtestBase.
From ITree Require Import ITree.

Local Open Scope Z_scope.

Section tests.
  (** What a variable, and a buffer of one block, holds that has not been set. *)
  Context (junk : Z) (junkblk : bytes).
  (** The name of the test. *)
  Context (s : bytes).
  Abbreviation S_ := (AStr (Some s)).

(** ** O_TRUNC *)

Definition truncate1 : tprog unit :=
  unlink "truncfile";;
  fd1 ← open "truncfile" CREATE_W_TRUNC;
  write fd1 (chars "abcd");;
  close fd1;;
  fd2 ← open "truncfile" O_RDONLY;
  '(n, _) ← read fd2 32;
  check (negb (n =? 4)) "%s: read %d bytes, wanted 4" [S_; AWord n];;
  fd1 ← open "truncfile" (Z.lor O_WRONLY O_TRUNC);
  fd3 ← open "truncfile" O_RDONLY;
  '(n, _) ← read fd3 32;
  when (negb (n =? 0)) (println "aaa fd3=%d" [AWord fd3];; die "%s: read %d bytes, wanted 0" [S_; AWord n]);;
  '(n, _) ← read fd2 32;
  when (negb (n =? 0)) (println "bbb fd2=%d" [AWord fd2];; die "%s: read %d bytes, wanted 0" [S_; AWord n]);;
  write fd1 (chars "abcdef");;
  '(n, _) ← read fd3 32;
  check (negb (n =? 6)) "%s: read %d bytes, wanted 6" [S_; AWord n];;
  '(n, _) ← read fd2 32;
  check (negb (n =? 2)) "%s: read %d bytes, wanted 2" [S_; AWord n];;
  unlink "truncfile";;
  close fd1;;
  close fd2;;
  close fd3.

Definition truncate2 : tprog unit :=
  unlink "truncfile";;
  fd1 ← open "truncfile" CREATE_W_TRUNC;
  write fd1 (chars "abcd");;
  fd2 ← open "truncfile" (Z.lor O_TRUNC O_WRONLY);
  n ← write fd1 [120];
  check (negb (n =? -1)) "%s: write returned %d, expected -1" [S_; AWord n];;
  unlink "truncfile";;
  close fd1;;
  close fd2.

Definition truncate3 : tprog unit :=
  open_close "truncfile" CREATE_W_TRUNC;;
  pid ← fork;
  check (pid <? 0) "%s: fork failed" [S_];;
  when (pid =? 0) (
    upto 100 0 (λ _,
      fd ← open "truncfile" O_WRONLY;
      check (fd <? 0) "%s: open failed" [S_];;
      n ← write fd (chars "1234567890");
      check (negb (n =? 10)) "%s: write got %d, expected 10" [S_; AWord n];;
      close fd;;
      fd ← open "truncfile" O_RDONLY;
      read fd 32;;
      close fd);;
    exit 0);;
  upto 150 0 (λ _,
    fd ← open "truncfile" CREATE_W_TRUNC;
    check (fd <? 0) "%s: open failed" [S_];;
    n ← write fd (chars "xxx");
    check (negb (n =? 3)) "%s: write got %d, expected 3" [S_; AWord n];;
    close fd);;
  '(_, xstatus) ← wait_into junk;
  unlink "truncfile";;
  exit xstatus.

(** ** The current directory and iput *)

Definition iputtest : tprog unit :=
  r ← mkdir "iputdir"; check (r <? 0) "%s: mkdir failed" [S_];;
  r ← chdir "iputdir"; check (r <? 0) "%s: chdir iputdir failed" [S_];;
  r ← unlink "../iputdir"; check (r <? 0) "%s: unlink ../iputdir failed" [S_];;
  r ← chdir "/"; check (r <? 0) "%s: chdir / failed" [S_].

Definition exitiputtest : tprog unit :=
  pid ← fork;
  check (pid <? 0) "%s: fork failed" [S_];;
  when (pid =? 0) (
    r ← mkdir "iputdir"; check (r <? 0) "%s: mkdir failed" [S_];;
    r ← chdir "iputdir"; check (r <? 0) "%s: child chdir failed" [S_];;
    r ← unlink "../iputdir"; check (r <? 0) "%s: unlink ../iputdir failed" [S_];;
    exit 0);;
  '(_, xstatus) ← wait_into junk;
  exit xstatus.

Definition openiputtest : tprog unit :=
  r ← mkdir "oidir"; check (r <? 0) "%s: mkdir oidir failed" [S_];;
  pid ← fork;
  check (pid <? 0) "%s: fork failed" [S_];;
  when (pid =? 0) (
    fd ← open "oidir" O_RDWR;
    check (0 <=? fd) "%s: open directory for write succeeded" [S_];;
    exit 0);;
  sleep 1;;
  r ← unlink "oidir"; check (negb (r =? 0)) "%s: unlink failed" [S_];;
  '(_, xstatus) ← wait_into junk;
  exit xstatus.

(** ** Files *)

Definition opentest : tprog unit :=
  fd ← open "echo" 0;
  check (fd <? 0) "%s: open echo failed!" [S_];;
  close fd;;
  fd ← open "doesnotexist" 0;
  check (0 <=? fd) "%s: open doesnotexist succeeded!" [S_].

Definition writetest : tprog unit :=
  let N := 100 in let SZ := 10 in
  fd ← open "small" CREATE_RW;
  check (fd <? 0) "%s: error: creat small failed!" [S_];;
  upto 100 0 (λ i,
    r ← write fd (chars "aaaaaaaaaa");
    check (negb (r =? SZ)) "%s: error: write aa %d new file failed" [S_; AWord i];;
    r ← write fd (chars "bbbbbbbbbb");
    check (negb (r =? SZ)) "%s: error: write bb %d new file failed" [S_; AWord i]);;
  close fd;;
  fd ← open "small" O_RDONLY;
  check (fd <? 0) "%s: error: open small failed!" [S_];;
  '(i, _) ← read fd (N * SZ * 2);
  check (negb (i =? N * SZ * 2)) "%s: read failed" [S_];;
  close fd;;
  r ← unlink "small";
  check (r <? 0) "%s: unlink small failed" [S_].

(** [(int* )buf)[0]], and a block that begins with the int [i] *)
Definition int_at (b : bytes) : Z := i32 (foldr (λ c n, c + 256 * n) 0 (take 4 b)).
Definition int_block (i : Z) : bytes :=
  [u8 i; u8 (Z.shiftr i 8); u8 (Z.shiftr i 16); u8 (Z.shiftr i 24)] ++ zeros (BSIZE - 4).

(** [for(;;)] of [writebig] *)
Definition writebig_read (fd n : Z) : tprog (Z + unit) :=
  '(i, b) ← read fd BSIZE;
  if i =? 0 then
    check_ (negb (n =? MAXFILE)) "%s: read only %d blocks from big" [S_; AWord n];;
    mret (inr tt)
  else
    check (negb (i =? BSIZE)) "%s: read failed %d" [S_; AWord i];;
    check (negb (int_at b =? n)) "%s: read content of block %d is %d" [S_; AWord n; AWord (int_at b)];;
    mret (inl (n + 1)).

Definition writebig : tprog unit :=
  fd ← open "big" CREATE_RW;
  check (fd <? 0) "%s: error: creat big failed!" [S_];;
  upto (Z.to_nat MAXFILE) 0 (λ i,
    r ← write fd (int_block i);
    check (negb (r =? BSIZE)) "%s: error: write big file failed i=%d" [S_; AWord i]);;
  close fd;;
  fd ← open "big" O_RDONLY;
  check (fd <? 0) "%s: error: open big failed!" [S_];;
  ITree.iter (writebig_read fd) 0;;
  close fd;;
  r ← unlink "big";
  check (r <? 0) "%s: unlink big failed" [S_].

Definition createtest : tprog unit :=
  let name i := [97; 48 + i] in
  upto 52 0 (λ i, fd ← open_b (name i) CREATE_RW; close fd);;
  upto 52 0 (λ i, unlink_b (name i);; mret tt).

Definition dirtest : tprog unit :=
  r ← mkdir "dir0"; check (r <? 0) "%s: mkdir failed" [S_];;
  r ← chdir "dir0"; check (r <? 0) "%s: chdir dir0 failed" [S_];;
  r ← chdir ".."; check (r <? 0) "%s: chdir .. failed" [S_];;
  r ← unlink "dir0"; check (r <? 0) "%s: unlink dir0 failed" [S_].

Definition exectest : tprog unit :=
  unlink "echo-ok";;
  pid ← fork;
  check (pid <? 0) "%s: fork failed" [S_];;
  when (pid =? 0) (
    close 1;;
    fd ← open "echo-ok" CREATE_W;
    check (fd <? 0) "%s: create failed" [S_];;
    check (negb (fd =? 1)) "%s: wrong fd" [S_];;
    r ← sc (SysExec (chars "echo") [chars "echo"; chars "OK"]);
    check (r <? 0) "%s: exec echo failed" [S_]);;
  '(w, xstatus) ← wait_into junk;
  when (negb (w =? pid)) (println "%s: wait failed!" [S_]);;
  when (negb (xstatus =? 0)) (exit xstatus);;
  fd ← open "echo-ok" O_RDONLY;
  check (fd <? 0) "%s: open failed" [S_];;
  '(n, b) ← read fd 2;
  check (negb (n =? 2)) "%s: read failed" [S_];;
  unlink "echo-ok";;
  if bool_decide (b = chars "OK") then exit 0 else die "%s: wrong output" [S_].

(** ** Several processes *)

(** [while((n = read(fd, buf, sizeof(buf))) > 0)] of [sharedfd]: [buf], [nc] and [np] *)
Definition sharedfd_read (fd : Z) (st : bytes * Z * Z) : tprog (bytes * Z * Z + Z * Z) :=
  let '(buf, nc, np) := st in
  '(n, b) ← read fd 10;
  if 0 <? n then
    let buf := b ++ drop (length b) buf in
    let count c := Z.of_nat (length (filter (c =.) buf)) in
    mret (inl (buf, nc + count 99, np + count 112))
  else mret (inr (nc, np)).

Definition sharedfd : tprog unit :=
  let N := 1000 in let SZ := 10 in
  unlink "sharedfd";;
  fd ← open "sharedfd" CREATE_RW;
  check_ (fd <? 0) "%s: cannot open sharedfd for writing" [S_];;
  pid ← fork;
  let buf := replicate 10 (if pid =? 0 then 99 else 112) in
  upto 1000 0 (λ _,
    r ← write fd buf;
    check (negb (r =? SZ)) "%s: write sharedfd failed" [S_]);;
  (if pid =? 0 then exit 0
   else '(_, xstatus) ← wait_into junk; when (negb (xstatus =? 0)) (exit xstatus));;
  close fd;;
  fd ← open "sharedfd" 0;
  check (fd <? 0) "%s: cannot open sharedfd for reading" [S_];;
  '(nc, np) ← ITree.iter (sharedfd_read fd) (buf, 0, 0);
  close fd;;
  unlink "sharedfd";;
  if (nc =? N * SZ) && (np =? N * SZ) then exit 0 else die "%s: nc/np test fails" [S_].

(** [while((n = read(fd, buf, sizeof(buf))) > 0)] of [fourfiles]: [total] *)
Definition fourfiles_read (fd i total : Z) : tprog (Z + Z) :=
  '(n, b) ← read fd BUFSZ;
  if 0 <? n then
    each_of b (λ c, check (negb (c =? 48 + i)) "%s: wrong char" [S_]);;
    mret (inl (total + n))
  else mret (inr total).

Definition fourfiles : tprog unit :=
  let N := 12 in let NCHILD := 4%nat in let SZ := 500 in
  let fname i := [102; 48 + i] in
  upto NCHILD 0 (λ pi,
    unlink_b (fname pi);;
    pid ← fork;
    check (pid <? 0) "%s: fork failed" [S_];;
    when (pid =? 0) (
      fd ← open_b (fname pi) CREATE_RW;
      check (fd <? 0) "%s: create failed" [S_];;
      upto 12 0 (λ _,
        n ← write fd (replicate 500 (48 + pi));
        check (negb (n =? SZ)) "write failed %d" [AWord n]);;
      exit 0));;
  upto_with NCHILD 0 junk (λ _ xstatus,
    '(_, xstatus) ← wait_into xstatus;
    when (negb (xstatus =? 0)) (exit xstatus);;
    mret xstatus);;
  upto NCHILD 0 (λ i,
    fd ← open_b (fname i) 0;
    total ← ITree.iter (fourfiles_read fd i) 0;
    close fd;;
    check (negb (total =? N * SZ)) "wrong length %d" [AWord total];;
    unlink_b (fname i);; mret tt).

Definition createdelete : tprog unit :=
  let N := 20 in let NCHILD := 4%nat in
  let name pi i := [112 + pi; 48 + i] in
  upto NCHILD 0 (λ pi,
    pid ← fork;
    check (pid <? 0) "%s: fork failed" [S_];;
    when (pid =? 0) (
      upto 20 0 (λ i,
        fd ← open_b (name pi i) CREATE_RW;
        check (fd <? 0) "%s: create failed" [S_];;
        close fd;;
        when ((0 <? i) && (i mod 2 =? 0)) (
          r ← unlink_b (name pi (i / 2));
          check (r <? 0) "%s: unlink failed" [S_]));;
      exit 0));;
  upto_with NCHILD 0 junk (λ _ xstatus,
    '(_, xstatus) ← wait_into xstatus;
    when (negb (xstatus =? 0)) (exit 1);;
    mret xstatus);;
  upto 20 0 (λ i, upto NCHILD 0 (λ pi,
    fd ← open_b (name pi i) 0;
    (if ((i =? 0) || (N / 2 <=? i)) && (fd <? 0) then
       die "%s: oops createdelete %s didn't exist" [S_; AStr (Some (name pi i))]
     else check ((1 <=? i) && (i <? N / 2) && (0 <=? fd))
       "%s: oops createdelete %s did exist" [S_; AStr (Some (name pi i))]);;
    when (0 <=? fd) (close fd)));;
  upto 20 0 (λ i, upto NCHILD 0 (λ pi, unlink_b (name pi i);; mret tt)).

(** ** Links *)

Definition unlinkread : tprog unit :=
  let SZ := 5 in
  fd ← open "unlinkread" CREATE_RW;
  check (fd <? 0) "%s: create unlinkread failed" [S_];;
  write fd (chars "hello");;
  close fd;;
  fd ← open "unlinkread" O_RDWR;
  check (fd <? 0) "%s: open unlinkread failed" [S_];;
  r ← unlink "unlinkread";
  check (negb (r =? 0)) "%s: unlink unlinkread failed" [S_];;
  fd1 ← open "unlinkread" CREATE_RW;
  write fd1 (chars "yyy");;
  close fd1;;
  '(n, b) ← read fd BUFSZ;
  check_ (negb (n =? SZ)) "%s: unlinkread read failed" [S_];;
  let buf := b ++ zeros (BUFSZ - n) in
  check (negb (deref buf =? 104)) "%s: unlinkread wrong data" [S_];;
  r ← write fd (take 10 buf);
  check (negb (r =? 10)) "%s: unlinkread write failed" [S_];;
  close fd;;
  unlink "unlinkread";; mret tt.

Definition linktest : tprog unit :=
  let SZ := 5 in
  unlink "lf1";;
  unlink "lf2";;
  fd ← open "lf1" CREATE_RW;
  check (fd <? 0) "%s: create lf1 failed" [S_];;
  r ← write fd (chars "hello");
  check (negb (r =? SZ)) "%s: write lf1 failed" [S_];;
  close fd;;
  r ← link "lf1" "lf2"; check (r <? 0) "%s: link lf1 lf2 failed" [S_];;
  unlink "lf1";;
  r ← open "lf1" 0; check (0 <=? r) "%s: unlinked lf1 but it is still there!" [S_];;
  fd ← open "lf2" 0;
  check (fd <? 0) "%s: open lf2 failed" [S_];;
  '(n, _) ← read fd BUFSZ;
  check (negb (n =? SZ)) "%s: read lf2 failed" [S_];;
  close fd;;
  r ← link "lf2" "lf2"; check (0 <=? r) "%s: link lf2 lf2 succeeded! oops" [S_];;
  unlink "lf2";;
  r ← link "lf2" "lf1"; check (0 <=? r) "%s: link non-existent succeeded! oops" [S_];;
  r ← link "." "lf1"; check (0 <=? r) "%s: link . lf1 succeeded! oops" [S_].

(** [while(read(fd, &de, sizeof(de)) > 0)] of [concreate]: [de], the files seen in [fa], [n] *)
Definition concreate_read (fd : Z) (st : bytes * list Z * Z) : tprog (bytes * list Z * Z + Z) :=
  let '(de, fa, n) := st in
  '(cc, b) ← read fd DIRENT_SIZE;
  if 0 <? cc then
    let de := b ++ drop (length b) de in
    let at_ k := default 0 (de !! Z.to_nat k) in
    if at_ 0 + 256 * at_ 1 =? 0 then mret (inl (de, fa, n))
    else if (at_ 2 =? 67) && (at_ 4 =? 0) then
      let i := at_ 3 - 48 in
      let name := AStr (Some (until_nul (drop 2 de))) in
      check ((i <? 0) || (40 <=? i)) "%s: concreate weird file %s" [S_; name];;
      check (bool_decide (i ∈ fa)) "%s: concreate duplicate file %s" [S_; name];;
      mret (inl (de, i :: fa, n + 1))
    else mret (inl (de, fa, n))
  else mret (inr n).

Definition concreate : tprog unit :=
  let N := 40 in
  let file i := [67; 48 + i] in
  upto 40 0 (λ i,
    unlink_b (file i);;
    pid ← fork;
    (if (negb (pid =? 0) && (i mod 3 =? 1)) || ((pid =? 0) && (i mod 5 =? 1)) then
       sc (SysLink (chars "C0") (file i));; mret tt
     else
       fd ← open_b (file i) CREATE_RW;
       check (fd <? 0) "concreate create %s failed" [AStr (Some (file i))];;
       close fd);;
    if pid =? 0 then exit 0
    else '(_, xstatus) ← wait_into junk; when (negb (xstatus =? 0)) (exit 1));;
  fd ← open "." 0;
  n ← ITree.iter (concreate_read fd) (replicate 16 junk, [], 0);
  close fd;;
  check (negb (n =? N)) "%s: concreate not enough files in directory listing" [S_];;
  upto 40 0 (λ i,
    pid ← fork;
    check (pid <? 0) "%s: fork failed" [S_];;
    (if ((i mod 3 =? 0) && (pid =? 0)) || ((i mod 3 =? 1) && negb (pid =? 0)) then upto 6 0 (λ _, open_close_b (file i) 0)
     else upto 6 0 (λ _, unlink_b (file i);; mret tt));;
    if pid =? 0 then exit 0 else wait0;; mret tt).

Definition linkunlink : tprog unit :=
  unlink "x";;
  pid ← fork;
  check (pid <? 0) "%s: fork failed" [S_];;
  upto_with 100 0 (if pid =? 0 then 97 else 1) (λ _ x,
    let x := u32 (x * 1103515245 + 12345) in
    (if x mod 3 =? 0 then open_close "x" CREATE_RW
     else if x mod 3 =? 1 then link "cat" "x";; mret tt
     else unlink "x";; mret tt);;
    mret x);;
  if pid =? 0 then exit 0 else wait0;; mret tt.

(** ** Directories and paths *)

(** [subdir] until it changes directory: the files of dd and of dd/dd *)
Definition subdir_make : tprog unit :=
  unlink "ff";;
  r ← mkdir "dd"; check (negb (r =? 0)) "%s: mkdir dd failed" [S_];;
  fd ← open "dd/ff" CREATE_RW;
  check (fd <? 0) "%s: create dd/ff failed" [S_];;
  write fd (chars "ff");;
  close fd;;
  r ← unlink "dd"; check (0 <=? r) "%s: unlink dd (non-empty dir) succeeded!" [S_];;
  r ← mkdir "/dd/dd"; check (negb (r =? 0)) "%s: subdir mkdir dd/dd failed" [S_];;
  fd ← open "dd/dd/ff" CREATE_RW;
  check (fd <? 0) "%s: create dd/dd/ff failed" [S_];;
  write fd (chars "FF");;
  close fd;;
  fd ← open "dd/dd/../ff" 0;
  check (fd <? 0) "%s: open dd/dd/../ff failed" [S_];;
  '(cc, b) ← read fd BUFSZ;
  check (negb (cc =? 2) || negb (deref b =? 102)) "%s: dd/dd/../ff wrong content" [S_];;
  close fd;;
  r ← link "dd/dd/ff" "dd/dd/ffff"; check (negb (r =? 0)) "%s: link dd/dd/ff dd/dd/ffff failed" [S_];;
  r ← unlink "dd/dd/ff"; check (negb (r =? 0)) "%s: unlink dd/dd/ff failed" [S_];;
  r ← open "dd/dd/ff" O_RDONLY; check (0 <=? r) "%s: open (unlinked) dd/dd/ff succeeded" [S_].

(** The calls of [subdir] that must fail *)
Definition subdir_wrong : tprog unit :=
  r ← open "dd/dd/ff" O_RDONLY; check (0 <=? r) "%s: open (unlinked) dd/dd/ff succeeded!" [S_];;
  r ← open "dd/ff/ff" CREATE_RW; check (0 <=? r) "%s: create dd/ff/ff succeeded!" [S_];;
  r ← open "dd/xx/ff" CREATE_RW; check (0 <=? r) "%s: create dd/xx/ff succeeded!" [S_];;
  r ← open "dd" O_CREATE; check (0 <=? r) "%s: create dd succeeded!" [S_];;
  r ← open "dd" O_RDWR; check (0 <=? r) "%s: open dd rdwr succeeded!" [S_];;
  r ← open "dd" O_WRONLY; check (0 <=? r) "%s: open dd wronly succeeded!" [S_];;
  r ← link "dd/ff/ff" "dd/dd/xx"; check (r =? 0) "%s: link dd/ff/ff dd/dd/xx succeeded!" [S_];;
  r ← link "dd/xx/ff" "dd/dd/xx"; check (r =? 0) "%s: link dd/xx/ff dd/dd/xx succeeded!" [S_];;
  r ← link "dd/ff" "dd/dd/ffff"; check (r =? 0) "%s: link dd/ff dd/dd/ffff succeeded!" [S_];;
  r ← mkdir "dd/ff/ff"; check (r =? 0) "%s: mkdir dd/ff/ff succeeded!" [S_];;
  r ← mkdir "dd/xx/ff"; check (r =? 0) "%s: mkdir dd/xx/ff succeeded!" [S_];;
  r ← mkdir "dd/dd/ffff"; check (r =? 0) "%s: mkdir dd/dd/ffff succeeded!" [S_];;
  r ← unlink "dd/xx/ff"; check (r =? 0) "%s: unlink dd/xx/ff succeeded!" [S_];;
  r ← unlink "dd/ff/ff"; check (r =? 0) "%s: unlink dd/ff/ff succeeded!" [S_];;
  r ← chdir "dd/ff"; check (r =? 0) "%s: chdir dd/ff succeeded!" [S_];;
  r ← chdir "dd/xx"; check (r =? 0) "%s: chdir dd/xx succeeded!" [S_].

Definition subdir : tprog unit :=
  subdir_make;;
  r ← chdir "dd"; check (negb (r =? 0)) "%s: chdir dd failed" [S_];;
  r ← chdir "dd/../../dd"; check (negb (r =? 0)) "%s: chdir dd/../../dd failed" [S_];;
  r ← chdir "dd/../../../dd"; check (negb (r =? 0)) "%s: chdir dd/../../../dd failed" [S_];;
  r ← chdir "./.."; check (negb (r =? 0)) "%s: chdir ./.. failed" [S_];;
  fd ← open "dd/dd/ffff" 0;
  check (fd <? 0) "%s: open dd/dd/ffff failed" [S_];;
  '(n, _) ← read fd BUFSZ;
  check (negb (n =? 2)) "%s: read dd/dd/ffff wrong len" [S_];;
  close fd;;
  subdir_wrong;;
  r ← unlink "dd/dd/ffff"; check (negb (r =? 0)) "%s: unlink dd/dd/ff failed" [S_];;
  r ← unlink "dd/ff"; check (negb (r =? 0)) "%s: unlink dd/ff failed" [S_];;
  r ← unlink "dd"; check (r =? 0) "%s: unlink non-empty dd succeeded!" [S_];;
  r ← unlink "dd/dd"; check (r <? 0) "%s: unlink dd/dd failed" [S_];;
  r ← unlink "dd"; check (r <? 0) "%s: unlink dd failed" [S_].

(** [for(sz = 499; sz < BUFSZ; sz += 471)] is the 26 rounds of [sz = 499 + 471 k]. *)
Definition bigwrite : tprog unit :=
  unlink "bigwrite";;
  upto 26 0 (λ k,
    let sz := 499 + 471 * k in
    fd ← open "bigwrite" CREATE_RW;
    check (fd <? 0) "%s: cannot create bigwrite" [S_];;
    upto 2 0 (λ _,
      cc ← write fd (zeros sz);
      check (negb (cc =? sz)) "%s: write(%d) ret %d" [S_; AWord sz; AWord cc]);;
    close fd;;
    unlink "bigwrite";; mret tt).

(** [for(i = 0; ; i++)] of [bigfile]: [i] and [total] *)
Definition bigfile_read (fd : Z) (st : Z * Z) : tprog (Z * Z + Z) :=
  let '(i, total) := st in let SZ := 600 in
  '(cc, b) ← read fd (SZ / 2);
  check (cc <? 0) "%s: read bigfile failed" [S_];;
  if cc =? 0 then mret (inr total)
  else
    check (negb (cc =? SZ / 2)) "%s: short read bigfile" [S_];;
    let at_ k := default 0 (b !! Z.to_nat k) in
    check (negb (at_ 0 =? i / 2) || negb (at_ (SZ / 2 - 1) =? i / 2)) "%s: read bigfile wrong data" [S_];;
    mret (inl (i + 1, total + cc)).

Definition bigfile : tprog unit :=
  let N := 20 in let SZ := 600 in
  unlink "bigfile.dat";;
  fd ← open "bigfile.dat" CREATE_RW;
  check_ (fd <? 0) "%s: cannot create bigfile" [S_];;
  upto 20 0 (λ i,
    r ← write fd (replicate 600 i);
    check (negb (r =? SZ)) "%s: write bigfile failed" [S_]);;
  close fd;;
  fd ← open "bigfile.dat" 0;
  check (fd <? 0) "%s: cannot open bigfile" [S_];;
  total ← ITree.iter (bigfile_read fd) (0, 0);
  close fd;;
  check (negb (total =? N * SZ)) "%s: read bigfile wrong total" [S_];;
  unlink "bigfile.dat";; mret tt.

(** DIRSIZ is 14. *)
Definition fourteen : tprog unit :=
  r ← mkdir "12345678901234"; check (negb (r =? 0)) "%s: mkdir 12345678901234 failed" [S_];;
  r ← mkdir "12345678901234/123456789012345";
  check (negb (r =? 0)) "%s: mkdir 12345678901234/123456789012345 failed" [S_];;
  fd ← open "123456789012345/123456789012345/123456789012345" O_CREATE;
  check (fd <? 0) "%s: create 123456789012345/123456789012345/123456789012345 failed" [S_];;
  close fd;;
  fd ← open "12345678901234/12345678901234/12345678901234" 0;
  check (fd <? 0) "%s: open 12345678901234/12345678901234/12345678901234 failed" [S_];;
  close fd;;
  r ← mkdir "12345678901234/12345678901234";
  check (r =? 0) "%s: mkdir 12345678901234/12345678901234 succeeded!" [S_];;
  r ← mkdir "123456789012345/12345678901234";
  check (r =? 0) "%s: mkdir 12345678901234/123456789012345 succeeded!" [S_];;
  unlink "123456789012345/12345678901234";;
  unlink "12345678901234/12345678901234";;
  unlink "12345678901234/12345678901234/12345678901234";;
  unlink "123456789012345/123456789012345/123456789012345";;
  unlink "12345678901234/123456789012345";;
  unlink "12345678901234";; mret tt.

Definition rmdot : tprog unit :=
  r ← mkdir "dots"; check (negb (r =? 0)) "%s: mkdir dots failed" [S_];;
  r ← chdir "dots"; check (negb (r =? 0)) "%s: chdir dots failed" [S_];;
  r ← unlink "."; check (r =? 0) "%s: rm . worked!" [S_];;
  r ← unlink ".."; check (r =? 0) "%s: rm .. worked!" [S_];;
  r ← chdir "/"; check (negb (r =? 0)) "%s: chdir / failed" [S_];;
  r ← unlink "dots/."; check (r =? 0) "%s: unlink dots/. worked!" [S_];;
  r ← unlink "dots/.."; check (r =? 0) "%s: unlink dots/.. worked!" [S_];;
  r ← unlink "dots"; check (negb (r =? 0)) "%s: unlink dots failed!" [S_].

Definition dirfile : tprog unit :=
  fd ← open "dirfile" O_CREATE;
  check (fd <? 0) "%s: create dirfile failed" [S_];;
  close fd;;
  r ← chdir "dirfile"; check (r =? 0) "%s: chdir dirfile succeeded!" [S_];;
  fd ← open "dirfile/xx" 0; check (0 <=? fd) "%s: create dirfile/xx succeeded!" [S_];;
  fd ← open "dirfile/xx" O_CREATE; check (0 <=? fd) "%s: create dirfile/xx succeeded!" [S_];;
  r ← mkdir "dirfile/xx"; check (r =? 0) "%s: mkdir dirfile/xx succeeded!" [S_];;
  r ← unlink "dirfile/xx"; check (r =? 0) "%s: unlink dirfile/xx succeeded!" [S_];;
  r ← link "README" "dirfile/xx"; check (r =? 0) "%s: link to dirfile/xx succeeded!" [S_];;
  r ← unlink "dirfile"; check (negb (r =? 0)) "%s: unlink dirfile failed!" [S_];;
  fd ← open "." O_RDWR; check (0 <=? fd) "%s: open . for writing succeeded!" [S_];;
  fd ← open "." 0;
  r ← write fd (chars "x"); check (0 <? r) "%s: write . succeeded!" [S_];;
  close fd.

Definition iref : tprog unit :=
  let close_opened (path : string) :=
    fd ← open path O_CREATE; when (0 <=? fd) (close fd) in
  upto (Z.to_nat (NINODE + 1)) 0 (λ _,
    r ← mkdir "irefd"; check (negb (r =? 0)) "%s: mkdir irefd failed" [S_];;
    r ← chdir "irefd"; check (negb (r =? 0)) "%s: chdir irefd failed" [S_];;
    mkdir "";;
    link "README" "";;
    close_opened "";;
    close_opened "xx";;
    unlink "xx";; mret tt);;
  upto (Z.to_nat (NINODE + 1)) 0 (λ _, chdir "..";; unlink "irefd";; mret tt);;
  chdir "/";; mret tt.

(** ** Using up the disk *)

(** The name of file [n] of [fsfull] *)
Definition fsfull_name (n : Z) : bytes :=
  until_nul (102 :: ((λ d, (48 + d) mod 256) <$> [n / 1000; (n mod 1000) / 100; (n mod 100) / 10; n mod 10])).

(** [while(1)] of [fsfull]: [total] *)
Definition fsfull_write (fd total : Z) : tprog (Z + Z) :=
  cc ← write fd (zeros BSIZE);
  mret (if cc <? BSIZE then inr total else inl (total + cc)).

(** [for(nfiles = 0; ; nfiles++)] of [fsfull] *)
Definition fsfull_files (nfiles : Z) : tprog (Z + Z) :=
  let name := fsfull_name nfiles in
  println "writing %s" [AStr (Some name)];;
  fd ← open_b name CREATE_RW;
  if fd <? 0 then println "open %s failed" [AStr (Some name)];; mret (inr nfiles)
  else
    total ← ITree.iter (fsfull_write fd) 0;
    println "wrote %d bytes" [AWord total];;
    close fd;;
    mret (if total =? 0 then inr nfiles else inl (nfiles + 1)).

(** No table of tests names it. *)
Definition fsfull : tprog unit :=
  println "fsfull test" [];;
  nfiles ← ITree.iter fsfull_files 0;
  each_of (seqZ 0 (nfiles + 1)) (λ k, unlink_b (fsfull_name (nfiles - k));; mret tt);;
  println "fsfull test finished" [].

Definition bigdir : tprog unit :=
  let name i := [120; 48 + i / 64; 48 + i mod 64] in
  unlink "bd";;
  fd ← open "bd" O_CREATE;
  check (fd <? 0) "%s: bigdir create failed" [S_];;
  close fd;;
  upto 500 0 (λ i,
    r ← sc (SysLink (chars "bd") (name i));
    check (negb (r =? 0)) "%s: bigdir i=%d link(bd, %s) failed" [S_; AWord i; AStr (Some (name i))]);;
  unlink "bd";;
  upto 500 0 (λ i,
    r ← unlink_b (name i);
    check_ (negb (r =? 0)) "%s: bigdir unlink failed" [S_]).

Definition manywrites : tprog unit :=
  upto 4 0 (λ ci,
    pid ← fork;
    check (pid <? 0) "fork failed" [];;
    when (pid =? 0) (
      let name := [98; 97 + ci] in
      unlink_b name;;
      upto 30 0 (λ _,
        upto (Z.to_nat (ci + 1)) 0 (λ _,
          fd ← open_b name CREATE_RW;
          check (fd <? 0) "%s: cannot create %s" [S_; AStr (Some name)];;
          let sz := BUFSZ in
          cc ← write fd (zeros sz);
          check (negb (cc =? sz)) "%s: write(%d) ret %d" [S_; AWord sz; AWord cc];;
          close fd);;
        unlink_b name;; mret tt);;
      unlink_b name;;
      exit 0));;
  upto 4 0 (λ _,
    '(_, st) ← wait_into 0;
    when (negb (st =? 0)) (exit st));;
  exit 0.

(** [for(i = 0; i < MAXFILE; i++)] of [diskfull]: is [done] still 0? *)
Fixpoint diskfull_file (k : nat) (fd : Z) : tprog bool :=
  match k with
  | O => mret true
  | S k' =>
      r ← write fd junkblk;
      if negb (r =? BSIZE) then close fd;; mret false else diskfull_file k' fd
  end.

(** The name of file [i] of [diskfull] and [outofinodes] *)
Definition zz_name (i : Z) : bytes := [122; 122; 48 + i / 32; 48 + i mod 32].

(** [for(i = 0; i < nzz; i++)] of [diskfull] and [outofinodes] *)
Definition create_zz (nzz : nat) : tprog unit :=
  upto_break nzz 0 (λ i,
    unlink_b (zz_name i);;
    fd ← open_b (zz_name i) (Z.lor CREATE_RW O_TRUNC);
    if fd <? 0 then mret false else close fd;; mret true).

Definition unlink_zz (nzz : nat) : tprog unit := upto nzz 0 (λ i, unlink_b (zz_name i);; mret tt).

(** ['0' + fi < 0177] holds of the [fi] below 79. *)
Definition diskfull : tprog unit :=
  let name fi := chars "big" ++ [48 + fi] in
  unlink "diskfulldir";;
  upto_break 79 0 (λ fi,
    unlink_b (name fi);;
    fd ← open_b (name fi) (Z.lor CREATE_RW O_TRUNC);
    if fd <? 0 then println "%s: could not create file %s" [S_; AStr (Some (name fi))];; mret false
    else go_on ← diskfull_file (Z.to_nat MAXFILE) fd; close fd;; mret go_on);;
  create_zz 128;;
  r ← mkdir "diskfulldir";
  when (r =? 0) (println "%s: mkdir(diskfulldir) unexpectedly succeeded!" [S_]);;
  unlink "diskfulldir";;
  unlink_zz 128;;
  upto 79 0 (λ i, unlink_b (name i);; mret tt).

Definition outofinodes : tprog unit :=
  create_zz (32 * 32);;
  unlink_zz (32 * 32).

End tests.
