(* ===== verification/UtestProc.v ===== *)
(** * UtestProc: the tests of processes and pipes (src/user/usertests.c) *)

From S2P Require Import Prelude Mem Layout FsFormat Fs Printf Sysfile User Ulib Uprintf UtestBase.
From ITree Require Import ITree.

Local Open Scope Z_scope.

Section tests.
  (** What a variable holds that has not been set. *)
  Context (junk : Z).
  (** The name of the test. *)
  Context (s : bytes).
  Abbreviation S_ := (AStr (Some s)).

(** ** Pipes *)

(** Are the bytes [b] the low bytes of [seq], [seq] + 1, ...? *)
Fixpoint in_sequence (b : bytes) (seq : Z) : bool :=
  match b with
  | [] => true
  | c :: b' => (Z.land c 0xff =? Z.land seq 0xff) && in_sequence b' (seq + 1)
  end.

(** [while((n = read(fds[0], buf, cc)) > 0)] of [pipe1]: [cc], [seq] and [total]; [None] is the
    [return] from inside it. *)
Definition pipe1_read (fd : Z) (st : Z * Z * Z) : tprog (Z * Z * Z + option Z) :=
  let '(cc, seq, total) := st in
  '(n, b) ← read fd cc;
  if 0 <? n then
    if in_sequence b seq then mret (inl (Z.min (cc * 2) BUFSZ, seq + n, total + n))
    else println "%s: pipe1 oops 2" [S_];; mret (inr None)
  else mret (inr (Some total)).

Definition pipe1 : tprog unit :=
  let N := 5 in let SZ := 1033 in
  '(r, fds0, fds1) ← pipe junk junk;
  check (negb (r =? 0)) "%s: pipe() failed" [S_];;
  pid ← fork;
  if pid =? 0 then
    close fds0;;
    upto 5 0 (λ n,
      r ← write fds1 ((λ seq, seq mod 256) <$> seqZ (n * SZ) SZ);
      check (negb (r =? SZ)) "%s: pipe1 oops 1" [S_]);;
    exit 0
  else if 0 <? pid then
    close fds1;;
    done ← ITree.iter (pipe1_read fds0) (1, 0, 0);
    match done with
    | None => mret tt
    | Some total =>
        check (negb (total =? N * SZ)) "%s: pipe1 oops 3 total %d" [S_; AWord total];;
        close fds0;;
        '(_, xstatus) ← wait_into junk;
        exit xstatus
    end
  else die "%s: fork() failed" [S_].

(** ** fork, exit, wait and kill *)

Definition killstatus : tprog unit :=
  upto_with 100 0 junk (λ _ xst,
    pid1 ← fork;
    check (pid1 <? 0) "%s: fork failed" [S_];;
    when (pid1 =? 0) (forever (sc SysGetpid;; mret tt));;
    sleep 1;;
    kill pid1;;
    '(_, xst) ← wait_into xst;
    check (negb (xst =? -1)) "%s: status should be -1" [S_];;
    mret xst);;
  exit 0.

(** A child that does [for(;;) ;] makes no call any more. *)
Definition preempt : tprog unit :=
  pid1 ← fork;
  check_ (pid1 <? 0) "%s: fork failed" [S_];;
  when (pid1 =? 0) ITree.spin;;
  pid2 ← fork;
  check (pid2 <? 0) "%s: fork failed" [S_];;
  when (pid2 =? 0) ITree.spin;;
  '(_, pfds0, pfds1) ← pipe junk junk;
  pid3 ← fork;
  check (pid3 <? 0) "%s: fork failed" [S_];;
  when (pid3 =? 0) (
    close pfds0;;
    r ← write pfds1 (chars "x");
    when (negb (r =? 1)) (print "%s: preempt write error" [S_]);;
    close pfds1;;
    ITree.spin);;
  close pfds1;;
  '(n, _) ← read pfds0 BUFSZ;
  if negb (n =? 1) then print "%s: preempt read error" [S_]
  else
    close pfds0;;
    print "kill... " [];;
    kill pid1;;
    kill pid2;;
    kill pid3;;
    print "wait... " [];;
    wait0;; wait0;; wait0;; mret tt.

Definition exitwait : tprog unit :=
  upto 100 0 (λ i,
    pid ← fork;
    check (pid <? 0) "%s: fork failed" [S_];;
    if negb (pid =? 0) then
      '(r, xstate) ← wait_into junk;
      check (negb (r =? pid)) "%s: wait wrong pid" [S_];;
      check (negb (i =? xstate)) "%s: wait wrong exit status" [S_]
    else exit i).

Definition reparent : tprog unit :=
  master_pid ← sc SysGetpid;
  upto 200 0 (λ _,
    pid ← fork;
    check (pid <? 0) "%s: fork failed" [S_];;
    if negb (pid =? 0) then
      r ← wait0;
      check (negb (r =? pid)) "%s: wait wrong pid" [S_]
    else
      pid2 ← fork;
      when (pid2 <? 0) (kill master_pid;; exit 1);;
      exit 0);;
  exit 0.

Definition twochildren : tprog unit :=
  upto 1000 0 (λ _,
    pid1 ← fork;
    check (pid1 <? 0) "%s: fork failed" [S_];;
    if pid1 =? 0 then exit 0
    else
      pid2 ← fork;
      check (pid2 <? 0) "%s: fork failed" [S_];;
      if pid2 =? 0 then exit 0 else wait0;; wait0;; mret tt).

Definition forkfork : tprog unit :=
  upto 2 0 (λ _,
    pid ← fork;
    check_ (pid <? 0) "%s: fork failed" [S_];;
    when (pid =? 0) (
      upto 200 0 (λ _,
        pid1 ← fork;
        when (pid1 <? 0) (exit 1);;
        when (pid1 =? 0) (exit 0);;
        wait0;; mret tt);;
      exit 0));;
  upto_with 2 0 junk (λ _ xstatus,
    '(_, xstatus) ← wait_into xstatus;
    check_ (negb (xstatus =? 0)) "%s: fork in child failed" [S_];;
    mret xstatus);;
  mret tt.

Definition forkforkfork : tprog unit :=
  unlink "stopforking";;
  pid ← fork;
  check_ (pid <? 0) "%s: fork failed" [S_];;
  when (pid =? 0) (forever (
    fd ← open "stopforking" 0;
    when (0 <=? fd) (exit 0);;
    r ← fork;
    when (r <? 0) (open_close "stopforking" CREATE_RW)));;
  sleep 20;;
  open_close "stopforking" CREATE_RW;;
  wait0;;
  sleep 10.

Definition reparent2 : tprog unit :=
  upto 800 0 (λ _,
    pid1 ← fork;
    check (pid1 <? 0) "fork failed" [];;
    when (pid1 =? 0) (fork;; fork;; exit 0);;
    wait0;; mret tt);;
  exit 0.

(** [for(n = 0; n < N; n++)] of [forktest]: [n] at its end *)
Fixpoint forktest_forks (k : nat) (n : Z) : tprog Z :=
  match k with
  | O => mret n
  | S k' =>
      pid ← fork;
      if pid <? 0 then mret n
      else if pid =? 0 then exit 0 else forktest_forks k' (n + 1)
  end.

Definition forktest : tprog unit :=
  let N := 1000 in
  n ← forktest_forks 1000 0;
  check (n =? 0) "%s: no fork at all!" [S_];;
  check (n =? N) "%s: fork claimed to work 1000 times!" [S_];;
  upto (Z.to_nat n) 0 (λ _,
    r ← wait0;
    check (r <? 0) "%s: wait stopped early" [S_]);;
  r ← wait0;
  check (negb (r =? -1)) "%s: wait got too many" [S_];;
  exit 0.

End tests.
