(* ===== verification/Usertests.v ===== *)
(** * Usertests: the tables of tests and their driver (src/user/usertests.c)

    The tests are in UtestMem, UtestFs and UtestProc.  Each runs in a child of [run], which
    looks at the status that the child exits with. *)

From S2P Require Import Prelude Mem Printf User Ulib Uprintf UtestBase UtestMem UtestFs UtestProc.
From ITree Require Import ITree.

Local Open Scope Z_scope.

(** [struct test] *)
Record test := mkTest { t_f : bytes → tprog unit; t_s : bytes }.
Definition entry (f : bytes → tprog unit) (s : string) : test := mkTest f (chars s).

Section driver.
  (** What a variable, and a buffer of one block, holds that has not been set; where the array
      [uninit] is. *)
  Context (junk : Z) (junkblk : bytes) (uninit : Z).

Definition quicktests : list test :=
  [ entry (λ _, copyin junk) "copyin";
    entry (λ _, copyout junk) "copyout";
    entry (λ _, copyinstr1) "copyinstr1";
    entry (λ _, copyinstr2) "copyinstr2";
    entry (λ _, copyinstr3) "copyinstr3";
    entry (λ _, rwsbrk) "rwsbrk";
    entry truncate1 "truncate1";
    entry truncate2 "truncate2";
    entry (truncate3 junk) "truncate3";
    entry (openiputtest junk) "openiput";
    entry (exitiputtest junk) "exitiput";
    entry iputtest "iput";
    entry opentest "opentest";
    entry writetest "writetest";
    entry writebig "writebig";
    entry (λ _, createtest) "createtest";
    entry dirtest "dirtest";
    entry (exectest junk) "exectest";
    entry (pipe1 junk) "pipe1";
    entry (killstatus junk) "killstatus";
    entry (preempt junk) "preempt";
    entry (exitwait junk) "exitwait";
    entry reparent "reparent";
    entry twochildren "twochildren";
    entry (forkfork junk) "forkfork";
    entry forkforkfork "forkforkfork";
    entry (λ _, reparent2) "reparent2";
    entry (mem junk) "mem";
    entry (sharedfd junk) "sharedfd";
    entry (fourfiles junk) "fourfiles";
    entry (createdelete junk) "createdelete";
    entry unlinkread "unlinkread";
    entry linktest "linktest";
    entry (concreate junk) "concreate";
    entry linkunlink "linkunlink";
    entry subdir "subdir";
    entry bigwrite "bigwrite";
    entry bigfile "bigfile";
    entry fourteen "fourteen";
    entry rmdot "rmdot";
    entry dirfile "dirfile";
    entry iref "iref";
    entry forktest "forktest";
    entry (sbrkbasic junk) "sbrkbasic";
    entry sbrkmuch "sbrkmuch";
    entry (kernmem junk) "kernmem";
    entry (MAXVAplus junk) "MAXVAplus";
    entry (sbrkfail junk) "sbrkfail";
    entry sbrkarg "sbrkarg";
    entry validatetest "validatetest";
    entry (bsstest uninit) "bsstest";
    entry (bigargtest junk) "bigargtest";
    entry argptest "argptest";
    entry (stacktest junk) "stacktest";
    entry (nowrite junk) "nowrite";
    entry (λ _, pgbug) "pgbug";
    entry (λ _, sbrkbugs) "sbrkbugs";
    entry (λ _, sbrklast) "sbrklast";
    entry (λ _, sbrk8000) "sbrk8000";
    entry (λ _, badarg) "badarg" ].

Definition slowtests : list test :=
  [ entry bigdir "bigdir";
    entry manywrites "manywrites";
    entry (λ _, badwrite) "badwrite";
    entry (λ _, execout) "execout";
    entry (diskfull junkblk) "diskfull";
    entry (λ _, outofinodes) "outofinodes" ].

(** Each test runs in a process of its own; [run] returns whether the child's [exit] indicates
    success. *)
Definition run (f : bytes → tprog unit) (s : bytes) : tprog bool :=
  print "test %s: " [AStr (Some s)];;
  pid ← fork;
  check (pid <? 0) "runtest: fork error" [];;
  if pid =? 0 then f s;; exit 0
  else
    '(_, xstatus) ← wait_into junk;
    (if negb (xstatus =? 0) then println "FAILED" [] else println "OK" []);;
    mret (xstatus =? 0).

(** [justone] is [None] for a null pointer. *)
Fixpoint runtests (tests : list test) (justone : option bytes) (continuous : Z) : tprog Z :=
  match tests with
  | [] => mret 0
  | t :: tests' =>
      if match justone with None => true | Some s => strcmp (t_s t) s =? 0 end then
        ok ← run (t_f t) (t_s t);
        if negb ok && negb (continuous =? 2) then println "SOME TESTS FAILED" [];; mret 1
        else runtests tests' justone continuous
      else runtests tests' justone continuous
  end.

(** [while(1)] of the child of [countfree] *)
Definition countfree_child (fd : Z) : tprog unit :=
  ITree.iter (λ _ : unit,
    a ← sbrk 4096;
    if a =? bad_addr then mret (inr tt)
    else
      raw (Store (u64 (a + 4096 - 1)) 1);;
      r ← write fd (chars "x");
      check (negb (r =? 1)) "write() failed in countfree()" [];;
      mret (inl tt)) tt.

(** [while(1)] of [countfree]: [n] *)
Definition countfree_read (fd n : Z) : tprog (Z + Z) :=
  '(cc, _) ← read fd 1;
  check (cc <? 0) "read() failed in countfree()" [];;
  mret (if cc =? 0 then inr n else inl (n + 1)).

Definition countfree : tprog Z :=
  '(r, fds0, fds1) ← pipe junk junk;
  check (r <? 0) "pipe() failed in countfree()" [];;
  pid ← fork;
  check (pid <? 0) "fork failed in countfree()" [];;
  when (pid =? 0) (close fds0;; countfree_child fds1;; exit 0);;
  close fds1;;
  n ← ITree.iter (countfree_read fds0) 0;
  close fds0;;
  wait0;;
  mret n.

(** The body of the [do] loop: [Some] is a [return]. *)
Definition drive_round (quick : bool) (continuous : Z) (justone : option bytes) : tprog (option Z) :=
  println "usertests starting" [];;
  free0 ← countfree;
  r ← runtests quicktests justone continuous;
  if negb (r =? 0) && negb (continuous =? 2) then mret (Some 1)
  else
    r ← (if negb quick then
           when (bool_decide (justone = None)) (println "usertests slow tests starting" []);;
           runtests slowtests justone continuous
         else mret 0);
    if negb (r =? 0) && negb (continuous =? 2) then mret (Some 1)
    else
      free1 ← countfree;
      if free1 <? free0 then
        println "FAILED -- lost some free pages %d (out of %d)" [AWord free1; AWord free0];;
        mret (if negb (continuous =? 2) then Some 1 else None)
      else mret None.

Definition drivetests (quick : bool) (continuous : Z) (justone : option bytes) : tprog Z :=
  ITree.iter (λ _ : unit,
    r ← drive_round quick continuous justone;
    mret (match r with
          | Some v => inr v
          | None => if negb (continuous =? 0) then inl tt else inr 0
          end)) tt.

(** The options of the command line: [quick], [continuous] and [justone], or a usage error. *)
Definition options (argv : list bytes) : option (bool * Z * option bytes) :=
  match argv with
  | [_; a] =>
      if strcmp a (chars "-q") =? 0 then Some (true, 0, None)
      else if strcmp a (chars "-c") =? 0 then Some (false, 1, None)
      else if strcmp a (chars "-C") =? 0 then Some (false, 2, None)
      else if negb (deref a =? 45) then Some (false, 0, Some a)
      else None
  | _ => if (1 <? length argv)%nat then None else Some (false, 0, None)
  end.

Definition main (argv : list bytes) : tprog unit :=
  match options argv with
  | None => die "Usage: usertests [-c] [-C] [-q] [testname]" []
  | Some (quick, continuous, justone) =>
      r ← drivetests quick continuous justone;
      when (negb (r =? 0)) (exit 1);;
      println "ALL TESTS PASSED" [];;
      exit 0
  end.

End driver.
