(* ===== verification/UsertestSpec.v ===== *)
(** * UsertestSpec: what the driver of the tests reports (src/user/usertests.c)

    [kern_handler] is the kernel as the driver's own process sees it: what the children that run the
    tests exit with, and how many pages the children of [countfree] find. *)

From S2P Require Import Prelude Mem Printf User Ulib Uprintf UtestBase Usertests.
From ITree Require Import ITree ITreeFacts Events.State Events.StateFacts.

Local Open Scope Z_scope.

(** The statuses of the tests to come, the counts of free pages to come, and what has been
    printed. *)
Record env := mkEnv { e_status : list Z; e_pages : list nat; e_out : bytes }.

(** What is left to see: the exit of the driver, and the calls it does not make. *)
Variant leftE : Type → Type :=
  | Exited (status : Z) (w : env) : leftE void
  | Other {R} (e : (sysE +' rawE) R) : leftE R.

(** The byte that the child of [countfree] writes for each page; then the pipe is closed. *)
Definition read_page (w : env) : env * option bytes :=
  match e_pages w with
  | S n :: l => (mkEnv (e_status w) (n :: l) (e_out w), Some [120])
  | O :: l => (mkEnv (e_status w) l (e_out w), Some [])
  | [] => (w, None)
  end.

Definition wait_status (pid : Z) (w : env) : env * (Z * option Z) :=
  match e_status w with
  | st :: l => (mkEnv l (e_pages w) (e_out w), (pid, Some st))
  | [] => (w, (-1, None))
  end.

Definition put (l : bytes) (w : env) : env := mkEnv (e_status w) (e_pages w) (e_out w ++ l).

(** Every [fork] returns [pid], and every [pipe] the descriptors 3 and 4. *)
Definition sys_view (pid : Z) : sysE ~> Monads.stateT env (itree leftE) := λ R e w,
  match e in sysE R return itree leftE (env * R) with
  | SysFork => Ret (w, pid)
  | SysWait => Ret (w, pid)
  | SysWaitStatus => Ret (wait_status pid w)
  | SysPipe => Ret (w, Some (3, 4))
  | SysClose _ => Ret (w, 0)
  | SysRead _ _ => Ret (read_page w)
  | SysWrite _ b => Ret (put b w, Z.of_nat (length b))
  | SysExit st => Vis (Exited st w) (λ v : void, match v with end)
  | e' => ITree.map (λ r, (w, r)) (ITree.trigger (Other (inl1 e')))
  end.

Definition kern_handler (pid : Z) : (sysE +' rawE) ~> Monads.stateT env (itree leftE) := λ R e w,
  match e with
  | inl1 e' => sys_view pid R e' w
  | inr1 e' => ITree.map (λ r, (w, r)) (ITree.trigger (Other (inr1 e')))
  end.

Definition driven (pid : Z) {A} (t : tprog A) (w : env) : itree leftE (env * A) := interp_state (kern_handler pid) t w.

(** ** The report *)

Definition chosen (justone : option bytes) (t : test) : bool :=
  match justone with
  | None => true
  | Some s => bool_decide (t_s t = s)
  end.
Definition selected (justone : option bytes) (ts : list test) : list test := List.filter (chosen justone) ts.

Definition line (t : test) (st : Z) : bytes :=
  chars "test " ++ t_s t ++ chars (if st =? 0 then ": OK" else ": FAILED") ++ [10].

(** The lines of the tests up to the first that fails. *)
Fixpoint lines (ts : list test) (sts : list Z) : bytes :=
  match ts, sts with
  | t :: ts', st :: sts' => line t st ++ (if st =? 0 then lines ts' sts' else chars "SOME TESTS FAILED" ++ [10])
  | _, _ => []
  end.

Definition passed (sts : list Z) : bool := forallb (Z.eqb 0) sts.

(** The part of the slow tests, which [-q] leaves out. *)
Definition slow_report (quick : bool) (justone : option bytes) (slows : list test) (ss : list Z) : bytes :=
  if quick then []
  else (if bool_decide (justone = None) then chars "usertests slow tests starting" ++ [10] else []) ++ lines (selected justone slows) ss.

Definition lost_report (free0 free1 : nat) : bytes :=
  chars "FAILED -- lost some free pages " ++ dec (Z.of_nat free1) ++ chars " (out of " ++ dec (Z.of_nat free0) ++ chars ")" ++ [10].

(** All that the driver prints when [-c] and [-C] are not given; [qs] and [ss] are the statuses of
    the quick and of the slow tests, [free0] and [free1] the free pages before and after them. *)
Definition report (quick : bool) (justone : option bytes) (quicks slows : list test) (qs ss : list Z) (free0 free1 : nat) : bytes :=
  chars "usertests starting" ++ [10] ++ lines (selected justone quicks) qs ++
  if negb (passed qs) then []
  else slow_report quick justone slows ss ++
    if negb (passed ss) then []
    else if (free1 <? free0)%nat then lost_report free0 free1
    else chars "ALL TESTS PASSED" ++ [10].

Section driver.
  Context (pid : Z) (Hpid : 0 < pid).
  Context (junk : Z) (junkblk : bytes) (uninit : Z).
  Abbreviation H := (driven pid).

(** ** Calls *)

Lemma sc_ok {R} (e : sysE R) w w' r : sys_view pid R e w = Ret (w', r) → H (sc e) w ≈ Ret (w', r).
Proof. intros E. unfold driven. apply handled_call. cbn. rewrite E. reflexivity. Qed.

Lemma exit_ok {A} st w : H (UtestBase.exit (A := A) st) w ≈ Vis (Exited st w) (λ v : void, match v with end).
Proof. unfold driven, UtestBase.exit. rewrite interp_state_vis. cbn. rewrite bind_vis. apply eqit_Vis. intros []. Qed.

Lemma exit_then {A B} (k : A → tprog B) st w : H (x ← UtestBase.exit st; k x) w ≈ Vis (Exited st w) (λ v : void, match v with end).
Proof.
  unfold driven, mbind, prog_bind, UtestBase.exit. rewrite bind_vis, interp_state_vis. cbn. rewrite bind_vis. apply eqit_Vis. intros [].
Qed.

Lemma close_ok fd w : H (close fd) w ≈ Ret (w, tt).
Proof. unfold driven, close. rewrite handled_then by by apply sc_ok. apply handled_ret. Qed.

(** Printing, one byte at a time. *)
Lemma puts_ok l : ∀ w, H (translate inl1 (each l (putc 1))) w ≈ Ret (put l w, tt).
Proof.
  induction l as [|c l IH]; intros w; unfold driven; cbn [each].
  - unfold mret, prog_ret. rewrite translate_ret, interp_state_ret. unfold put. rewrite app_nil_r. destruct w. reflexivity.
  - unfold putc, mbind, prog_bind, sys. rewrite !translate_bind, !interp_state_bind. unfold ITree.trigger.
    rewrite translate_vis, interp_state_vis. cbn. rewrite bind_ret_l, translate_ret, tau_eutt, interp_state_ret, bind_ret_l. cbn.
    unfold mret, prog_ret. rewrite translate_ret, interp_state_ret, bind_ret_l. cbn. unfold driven in IH. rewrite IH. unfold put. cbn.
    rewrite <- app_assoc. reflexivity.
Qed.

Lemma print_ok fmt ap l w : vformat (S (length (chars fmt))) false (chars fmt) ap = Some l →
  H (print fmt ap) w ≈ Ret (put l w, tt).
Proof. intros E. unfold print, printf, vprintf. rewrite E. apply puts_ok. Qed.

Lemma driven_then {A B} (t : tprog A) (k : A → tprog B) w w' a : H t w ≈ Ret (w', a) → H (x ← t; k x) w ≈ H (k a) w'.
Proof. unfold driven. apply handled_then. Qed.

Lemma driven_ret {A} (a : A) w : H (mret a) w ≈ Ret (w, a).
Proof. unfold driven. apply handled_ret. Qed.

Lemma driven_iter {A B} (f : A → tprog (A + B)) a w w' r : H (f a) w ≈ Ret (w', r) →
  H (ITree.iter f a) w ≈ match r with inl a' => H (ITree.iter f a') w' | inr b => Ret (w', b) end.
Proof. unfold driven. apply handled_iter. Qed.

Lemma wait_into_ok st sts ps out old : H (wait_into old) (mkEnv (st :: sts) ps out) ≈ Ret (mkEnv sts ps out, (pid, st)).
Proof. unfold wait_into. rewrite driven_then by by apply sc_ok. apply driven_ret. Qed.

Lemma read_page_ok sts n ps out fd : H (read fd 1) (mkEnv sts (S n :: ps) out) ≈ Ret (mkEnv sts (n :: ps) out, (1, [120])).
Proof. unfold read. rewrite driven_then by by apply sc_ok. apply driven_ret. Qed.

Lemma read_end_ok sts ps out fd : H (read fd 1) (mkEnv sts (O :: ps) out) ≈ Ret (mkEnv sts ps out, (0, [])).
Proof. unfold read. rewrite driven_then by by apply sc_ok. apply driven_ret. Qed.

Lemma pipe_ok old0 old1 w : H (pipe old0 old1) w ≈ Ret (w, (0, 3, 4)).
Proof. unfold pipe. rewrite driven_then by by apply sc_ok. apply driven_ret. Qed.

(** ** The driver *)

(** Bind after bind: the calls that the parent makes. *)
Ltac call L := rewrite driven_then by apply L; cbn beta iota.
Ltac next := rewrite driven_then by apply driven_ret; cbn beta iota.

Lemma countfree_loop fd n : ∀ m sts ps out,
  H (ITree.iter (countfree_read fd) m) (mkEnv sts (n :: ps) out) ≈ Ret (mkEnv sts ps out, m + Z.of_nat n).
Proof.
  induction n as [|n IH]; intros m sts ps out.
  - assert (E : H (countfree_read fd m) (mkEnv sts (O :: ps) out) ≈ Ret (mkEnv sts ps out, inr m)).
    { unfold countfree_read. call read_end_ok. cbn [check Z.ltb Z.compare]. next. apply driven_ret. }
    rewrite driven_iter by exact E. rewrite Z.add_0_r. reflexivity.
  - assert (E : H (countfree_read fd m) (mkEnv sts (S n :: ps) out) ≈ Ret (mkEnv sts (n :: ps) out, inl (m + 1))).
    { unfold countfree_read. call read_page_ok. cbn [check Z.ltb Z.compare]. next. apply driven_ret. }
    rewrite driven_iter by exact E. rewrite IH.
    replace (m + 1 + Z.of_nat n) with (m + Z.of_nat (S n)) by lia. reflexivity.
Qed.

Lemma countfree_ok n sts ps out :
  H (countfree junk) (mkEnv sts (n :: ps) out) ≈ Ret (mkEnv sts ps out, Z.of_nat n).
Proof.
  unfold countfree. call pipe_ok. cbn [check Z.ltb Z.compare]. next. rewrite driven_then by by apply sc_ok.
  destruct (Z.ltb_spec pid 0), (Z.eqb_spec pid 0); [lia..|]. cbn [check when]. next. next. call close_ok.
  call countfree_loop. call close_ok. rewrite driven_then by by apply sc_ok. apply driven_ret.
Qed.

Lemma run_ok t st sts ps out :
  H (run junk (t_f t) (t_s t)) (mkEnv (st :: sts) ps out) ≈ Ret (mkEnv sts ps (out ++ line t st), st =? 0).
Proof.
  unfold run. rewrite driven_then by by apply print_ok. rewrite driven_then by by apply sc_ok.
  destruct (Z.ltb_spec pid 0), (Z.eqb_spec pid 0); [lia..|]. cbn [check]. next. call wait_into_ok.
  destruct (st =? 0) eqn:E; cbn [negb]; rewrite driven_then by (by apply print_ok); cbn beta; rewrite driven_ret; unfold put, line; rewrite E;
    cbn [e_status e_pages e_out]; rewrite <- app_assoc; cbn -[t_s]; by rewrite <- app_assoc.
Qed.

Lemma strcmp_eq p q : cbytes p → cbytes q → (strcmp p q =? 0) = bool_decide (p = q).
Proof.
  intros Hp Hq. pose proof (strcmp_lex p q Hp Hq) as E. pose proof (lex_eq p q) as L. rewrite <- E in L.
  rewrite Z.compare_eq_iff in L. by destruct (Z.eqb_spec (strcmp p q) 0), (bool_decide_reflect (p = q)); try tauto.
Qed.

Lemma runtests_ok justone ps ts : (∀ s, justone = Some s → cbytes s) → Forall (λ t, cbytes (t_s t)) ts →
  ∀ sts more out, length sts = length (selected justone ts) →
  ∃ rest, H (runtests junk ts justone 0) (mkEnv (sts ++ more) ps out) ≈
      Ret (mkEnv rest ps (out ++ lines (selected justone ts) sts), if passed sts then 0 else 1) ∧
    (passed sts = true → rest = more).
Proof.
  intros Hj. induction 1 as [|t ts Ht _ IH]; intros sts more out Hl.
  { destruct sts; [|done]. exists more. split; [|done]. cbn. rewrite driven_ret, app_nil_r. reflexivity. }
  cbn [runtests]. assert (match justone with None => true | Some s => strcmp (t_s t) s =? 0 end = chosen justone t) as ->.
  { destruct justone as [s|]; [|done]. apply strcmp_eq; [done | by apply Hj]. }
  unfold selected in *. cbn [List.filter] in *. destruct (chosen justone t); [|by apply IH].
  destruct sts as [|st sts]; [done|]. injection Hl as Hl. cbn [app lines passed forallb].
  rewrite (Z.eqb_sym 0 st). destruct (st =? 0) eqn:E; cbn [andb].
  - destruct (IH sts more (out ++ line t st) Hl) as (rest & R & Hr). exists rest. split; [|exact Hr].
    call run_ok. rewrite E. cbn [negb andb]. rewrite R, <- app_assoc. reflexivity.
  - exists (sts ++ more). split; [|done]. call run_ok. rewrite E. cbn [negb andb Z.eqb].
    rewrite driven_then by (by apply print_ok). cbn beta. rewrite driven_ret. unfold put. cbn [e_status e_pages e_out].
    rewrite <- app_assoc. reflexivity.
Qed.

Lemma lost_line free0 free1 : (free1 < free0)%nat → Z.of_nat free0 < 2 ^ 31 →
  let fmt := chars (String.append "FAILED -- lost some free pages %d (out of %d)" newline) in
  vformat (S (length fmt)) false fmt [AWord (Z.of_nat free1); AWord (Z.of_nat free0)] = Some (lost_report free0 free1).
Proof.
  intros Hlt Hb fmt. assert (0 ≤ Z.of_nat free1 < 2 ^ 31) by lia. assert (0 ≤ Z.of_nat free0 < 2 ^ 31) by lia.
  subst fmt. unfold lost_report. cbn -[vformat dec Z.of_nat]. repeat (apply vformat_char; [done|]). apply vformat_d; [done|].
  repeat (apply vformat_char; [done|]). apply vformat_d; [done|]. repeat (apply vformat_char; [done|]). done.
Qed.

Lemma quick_names : Forall (λ t, cbytes (t_s t)) (quicktests junk uninit).
Proof. repeat constructor; unfold cbytes; cbn; repeat constructor; lia. Qed.

Lemma slow_names : Forall (λ t, cbytes (t_s t)) (slowtests junkblk).
Proof. repeat constructor; unfold cbytes; cbn; repeat constructor; lia. Qed.

Lemma options_justone argv quick continuous s : Forall cbytes argv → options argv = Some (quick, continuous, Some s) → cbytes s.
Proof.
  intros Ha. unfold options. destruct argv as [|a0 [|a [|? ?]]]; cbn [length Nat.ltb Nat.leb]; try done.
  repeat case_match; intros [=]; subst. by inversion Ha as [|? ? _ Ha']; inversion Ha'.
Qed.

Lemma slow_ok (quick : bool) justone ss ps out : (∀ s, justone = Some s → cbytes s) →
  length ss = (if quick then 0 else length (selected justone (slowtests junkblk)))%nat →
  ∃ rest, H (if negb quick then
               when (bool_decide (justone = None)) (println "usertests slow tests starting" []);;
               runtests junk (slowtests junkblk) justone 0
             else mret 0) (mkEnv ss ps out) ≈
    Ret (mkEnv rest ps (out ++ slow_report quick justone (slowtests junkblk) ss), if passed ss then 0 else 1).
Proof.
  intros Hj Hl. unfold slow_report. destruct quick; cbn [negb].
  { destruct ss; [|done]. exists []. rewrite driven_ret, app_nil_r. reflexivity. }
  destruct (bool_decide (justone = None)); cbn [when].
  - destruct (runtests_ok justone ps _ Hj slow_names ss [] (out ++ chars "usertests slow tests starting" ++ [10]) Hl) as (rest & R & _).
    exists rest. rewrite driven_then by (by apply print_ok). cbn beta. rewrite app_nil_r in R. unfold put. cbn [e_status e_pages e_out].
    etransitivity; [exact R|]. rewrite <- !app_assoc. reflexivity.
  - destruct (runtests_ok justone ps _ Hj slow_names ss [] out Hl) as (rest & R & _). exists rest. next. rewrite app_nil_r in R. exact R.
Qed.

Lemma ends_then {A B} (t : tprog A) (k : A → tprog B) w w' a r (P : env → Prop) : H t w ≈ Ret (w', a) →
  (∃ w'', H (k a) w' ≈ Ret (w'', r) ∧ P w'') → ∃ w'', H (x ← t; k x) w ≈ Ret (w'', r) ∧ P w''.
Proof. intros E (w'' & R & HP). exists w''. split; [|done]. by rewrite driven_then. Qed.

Tactic Notation "ends" tactic3(tac) := eapply ends_then; [tac|]; cbn beta iota.
Ltac ended := eexists; split; [apply driven_ret | cbn [e_out]; by rewrite <- !app_assoc, ?app_nil_r].

(** What has been printed when the tests are over, and whether they passed. *)
Lemma drive_round_ok (quick : bool) justone qs ss free0 free1 :
  let ok := passed (qs ++ ss) && (free0 <=? free1)%nat in
  (∀ s, justone = Some s → cbytes s) →
  length qs = length (selected justone (quicktests junk uninit)) →
  length ss = (if quick then 0 else length (selected justone (slowtests junkblk)))%nat → Z.of_nat free0 < 2 ^ 31 →
  ∃ w, H (drive_round junk junkblk uninit quick 0 justone) (mkEnv (qs ++ ss) [free0; free1] []) ≈ Ret (w, if ok then None else Some 1) ∧
    e_out w ++ (if ok then chars "ALL TESTS PASSED" ++ [10] else []) =
    report quick justone (quicktests junk uninit) (slowtests junkblk) qs ss free0 free1.
Proof.
  intros ok Hj Hq Hs Hf. subst ok. unfold passed. rewrite forallb_app. fold (passed qs) (passed ss).
  unfold drive_round, report. ends (by apply print_ok). ends (apply countfree_ok). unfold put. cbn [e_status e_pages e_out app].
  destruct (runtests_ok justone [free1] _ Hj quick_names qs ss (chars "usertests starting" ++ [10]) Hq) as (rest & R & Hr).
  ends (exact R). destruct (passed qs); cbn [negb andb Z.eqb]; [|ended].
  rewrite Hr by done. clear rest R Hr.
  destruct (slow_ok quick justone ss [free1] ((chars "usertests starting" ++ [10]) ++ lines (selected justone (quicktests junk uninit)) qs) Hj Hs)
    as (rest & R).
  ends (exact R). destruct (passed ss); cbn [negb andb Z.eqb]; [|ended].
  ends (apply countfree_ok).
  destruct (Nat.ltb_spec free1 free0), (Nat.leb_spec free0 free1), (Z.ltb_spec (Z.of_nat free1) (Z.of_nat free0)); try lia; [|ended].
  ends (by apply print_ok, lost_line). unfold put. ended.
Qed.
End driver.

(** ** The claim *)

(** C30. The driver of the tests, without [-c] and [-C]: when the children of its tests exit with
    the statuses [qs] and [ss], and [countfree] finds [free0] pages before and [free1] after, the
    driver ends, its report is [report], and it exits with 0 if and only if every status is 0 and
    no page was lost.  A name that is not in the tables selects no test, so that it passes. *)
Theorem usertests_spec pid junk junkblk uninit argv (quick : bool) justone qs ss free0 free1 :
  0 < pid → Forall cbytes argv → options argv = Some (quick, 0, justone) →
  length qs = length (selected justone (quicktests junk uninit)) →
  length ss = (if quick then 0 else length (selected justone (slowtests junkblk)))%nat → Z.of_nat free0 < 2 ^ 31 →
  ∃ w, driven pid (main junk junkblk uninit argv) (mkEnv (qs ++ ss) [free0; free1] []) ≈
      Vis (Exited (if passed (qs ++ ss) && (free0 <=? free1)%nat then 0 else 1) w) (λ v : void, match v with end) ∧
    e_out w = report quick justone (quicktests junk uninit) (slowtests junkblk) qs ss free0 free1.
Proof.
  intros Hpid Ha Ho Hq Hs Hf. assert (Hj : ∀ s, justone = Some s → cbytes s) by (intros s ->; by eapply options_justone).
  destruct (drive_round_ok pid Hpid junk junkblk uninit quick justone qs ss free0 free1 Hj Hq Hs Hf) as (w & R & Hw).
  set (ok := passed (qs ++ ss) && (free0 <=? free1)%nat) in *.
  assert (D : driven pid (drivetests junk junkblk uninit quick 0 justone) (mkEnv (qs ++ ss) [free0; free1] []) ≈ Ret (w, if ok then 0 else 1)).
  { unfold drivetests. rewrite driven_iter by (rewrite driven_then by exact R; apply driven_ret). by destruct ok. }
  unfold main. rewrite Ho. destruct ok.
  - exists (put (chars "ALL TESTS PASSED" ++ [10]) w). split; [|exact Hw].
    rewrite driven_then by exact D. cbn [Z.eqb negb when]. rewrite driven_then by apply driven_ret.
    rewrite driven_then by (by apply print_ok). apply exit_ok.
  - exists w. split; [|by rewrite <- Hw, app_nil_r]. rewrite driven_then by exact D. cbn [Z.eqb negb when].
    apply exit_then.
Qed.

(** A test that fails, and a name that no test has. *)
Lemma usertests_spec_witness :
  (∃ w, driven 3 (main 0 [] 0 [chars "usertests"; chars "iput"]) (mkEnv [1] [5; 5]%nat []) ≈
      Vis (Exited 1 w) (λ v : void, match v with end) ∧
    e_out w = chars "usertests starting" ++ [10] ++ chars "test iput: FAILED" ++ [10] ++ chars "SOME TESTS FAILED" ++ [10]) ∧
  (∃ w, driven 3 (main 0 [] 0 [chars "usertests"; chars "nosuch"]) (mkEnv [] [5; 5]%nat []) ≈
      Vis (Exited 0 w) (λ v : void, match v with end) ∧
    e_out w = chars "usertests starting" ++ [10] ++ chars "ALL TESTS PASSED" ++ [10]).
Proof.
  split.
  - apply (usertests_spec 3 0 [] 0 [chars "usertests"; chars "iput"] false (Some (chars "iput")) [1] [] 5 5); try done.
    repeat (constructor; [unfold cbytes; cbn; repeat constructor; lia|]). constructor.
  - apply (usertests_spec 3 0 [] 0 [chars "usertests"; chars "nosuch"] false (Some (chars "nosuch")) [] [] 5 5); try done.
    repeat (constructor; [unfold cbytes; cbn; repeat constructor; lia|]). constructor.
Defined.
