(* ===== verification/Sh.v ===== *)
(** * Sh: the shell (src/user/sh.c)

    The parser works on the command line and a position in it, and builds a tree whose strings
    are ranges of the line; [nulterminate] ends them in place.  [runcmd] and [main] are programs
    over the system calls.  [malloc] is taken to succeed: the constructors do not check it. *)

From S2P Require Import Prelude Mem Fs Printf Sysfile User Ulib Uprintf Uprogs.
From ITree Require Import ITree.

Local Open Scope Z_scope.

(** [struct cmd]; [str] is the type of its strings. *)
Inductive cmd (str : Type) : Type :=
  | EXEC (argv : list str)
  | REDIR (c : cmd str) (file : str) (mode fd : Z)
  | PIPE (left right : cmd str)
  | LIST (left right : cmd str)
  | BACK (c : cmd str).
Arguments EXEC {str} argv.
Arguments REDIR {str} c file mode fd.
Arguments PIPE {str} left right.
Arguments LIST {str} left right.
Arguments BACK {str} c.

Definition MAXARGS : nat := 10.

Definition whitespace : bytes := [32; 9; 13; 10; 11].
Definition symbols : bytes := [60; 124; 62; 38; 59; 40; 41].
Definition is_in (set : bytes) (c : Z) : bool := match strchr set c with Some _ => true | None => false end.

(** [while(s < es && p( *s )) s++;] from the rest [l] of the line. *)
Fixpoint scan (p : Z → bool) (l : bytes) : nat :=
  match l with
  | c :: l' => if p c then S (scan p l') else O
  | [] => O
  end.

(** The position [*ps] in the line. *)
Abbreviation PM := (M nat).

(** A string of the parsed command: where it begins, and where it ends. *)
Abbreviation range := (nat * nat)%type.

Section parser.
  Context (buf : bytes).

Definition skip (p : Z → bool) (s : nat) : nat := (s + scan p (drop s buf))%nat.
Definition at_ (s : nat) : Z := deref (drop s buf).
Definition word_char (c : Z) : bool := negb (is_in whitespace c) && negb (is_in symbols c).

Definition gettoken : PM (Z * range) :=
  ps ← get;
  let q := skip (is_in whitespace) ps in
  let c := at_ q in
  let '(ret, eq) :=
    if c =? 0 then (0, q)
    else if (c =? 124) || (c =? 40) || (c =? 41) || (c =? 59) || (c =? 38) || (c =? 60) then (c, S q)
    else if c =? 62 then if at_ (S q) =? 62 then (43, S (S q)) else (c, S q)
    else (97, skip word_char q) in
  put (skip (is_in whitespace) eq);;
  mret (ret, (q, eq)).

Definition peek (toks : bytes) : PM bool :=
  ps ← get;
  let s := skip (is_in whitespace) ps in
  put s;;
  mret (negb (at_ s =? 0) && is_in toks (at_ s)).

(** [cmd->argv[argc] = q; cmd->eargv[argc] = eq;], where [cmd] is the command under the
    redirections of [ret]. *)
Fixpoint add_arg {str} (ret : cmd str) (q : str) : cmd str :=
  match ret with
  | EXEC argv => EXEC (argv ++ [q])
  | REDIR c file mode fd => REDIR (add_arg c q) file mode fd
  | c => c
  end.

Definition redircmd (c : cmd range) (tok : Z) (q : range) : cmd range :=
  if tok =? 60 then REDIR c q O_RDONLY 0
  else if tok =? 62 then REDIR c q (Z.lor (Z.lor O_WRONLY O_CREATE) O_TRUNC) 1
  else if tok =? 43 then REDIR c q (Z.lor O_WRONLY O_CREATE) 1
  else c.

Fixpoint redirs_loop (fuel : nat) (c : cmd range) : PM (cmd range) :=
  match fuel with
  | O => out_of_fuel
  | S f =>
      b ← peek [60; 62];
      if (b : bool) then
        '(tok, _) ← gettoken;
        '(a, q) ← gettoken;
        if negb (a =? 97) then panic "missing file for redirection" else redirs_loop f (redircmd c tok q)
      else mret c
  end.
Definition parseredirs (c : cmd range) : PM (cmd range) := redirs_loop (S (length buf)) c.

(** [while(!peek(ps, es, "|)&;"))] *)
Fixpoint args_loop (fuel : nat) (argc : nat) (ret : cmd range) : PM (cmd range) :=
  match fuel with
  | O => out_of_fuel
  | S f =>
      b ← peek [124; 41; 38; 59];
      if (b : bool) then mret ret
      else
        '(tok, q) ← gettoken;
        if tok =? 0 then mret ret
        else if negb (tok =? 97) then panic "syntax"
        else
          let ret := add_arg ret q in
          let argc := S argc in
          if (MAXARGS <=? argc)%nat then panic "too many args"
          else ret ← parseredirs ret; args_loop f argc ret
  end.

(** [while(peek(ps, es, "&"))] *)
Fixpoint back_loop (fuel : nat) (c : cmd range) : PM (cmd range) :=
  match fuel with
  | O => out_of_fuel
  | S f =>
      b ← peek [38];
      if (b : bool) then gettoken;; back_loop f (BACK c) else mret c
  end.

Fixpoint parseline (fuel : nat) : PM (cmd range) :=
  match fuel with
  | O => out_of_fuel
  | S f =>
      c ← parsepipe f;
      c ← back_loop (S (length buf)) c;
      b ← peek [59];
      if (b : bool) then gettoken;; r ← parseline f; mret (LIST c r) else mret c
  end
with parsepipe (fuel : nat) : PM (cmd range) :=
  match fuel with
  | O => out_of_fuel
  | S f =>
      c ← parseexec f;
      b ← peek [124];
      if (b : bool) then gettoken;; r ← parsepipe f; mret (PIPE c r) else mret c
  end
with parseexec (fuel : nat) : PM (cmd range) :=
  match fuel with
  | O => out_of_fuel
  | S f =>
      b ← peek [40];
      if (b : bool) then parseblock f
      else
        ret ← parseredirs (EXEC []);
        args_loop (S (length buf)) 0 ret
  end
with parseblock (fuel : nat) : PM (cmd range) :=
  match fuel with
  | O => out_of_fuel
  | S f =>
      b ← peek [40];
      if negb b then panic "parseblock"
      else
        gettoken;;
        c ← parseline f;
        b ← peek [41];
        if negb b then panic "syntax - missing )"
        else gettoken;; parseredirs c
  end.

(** The first lines of [parsecmd], up to the comparison of [s] with [es]. *)
Definition parse : outcome (cmd range * nat) :=
  (c ← parseline (4 * length buf + 4); peek [];; mret c) 0%nat.

End parser.

(** [b] is the line with its NUL. *)
Fixpoint nulterminate (c : cmd range) (b : bytes) : bytes :=
  match c with
  | EXEC argv => foldl (λ b q, <[q.2 := 0]> b) b argv
  | REDIR c' file _ _ => <[file.2 := 0]> (nulterminate c' b)
  | PIPE l r => nulterminate r (nulterminate l b)
  | LIST l r => nulterminate r (nulterminate l b)
  | BACK c' => nulterminate c' b
  end.

(** The command with other strings. *)
Fixpoint cmd_map {A B} (f : A → B) (c : cmd A) : cmd B :=
  match c with
  | EXEC argv => EXEC (f <$> argv)
  | REDIR c' file mode fd => REDIR (cmd_map f c') (f file) mode fd
  | PIPE l r => PIPE (cmd_map f l) (cmd_map f r)
  | LIST l r => LIST (cmd_map f l) (cmd_map f r)
  | BACK c' => BACK (cmd_map f c')
  end.

(** The strings the command's pointers point to. *)
Definition strings (b : bytes) : cmd range → cmd bytes := cmd_map (λ q, str_at b q.1).

Definition sh_panic {A} (s : bytes) : prog A := fprintf 2 "%s
" [AStr (Some s)];; exit 1.

Definition parsecmd (s : bytes) : prog (cmd bytes) :=
  match parse s with
  | Ok (c, p) =>
      if negb (p =? length s)%nat then
        fprintf 2 "leftovers: %s
" [AStr (Some (drop p s))];; sh_panic (chars "syntax")
      else mret (strings (nulterminate c (s ++ [0])) c)
  | Panic msg => sh_panic (chars msg)
  | _ => ITree.spin
  end.

Definition fork1 : prog Z :=
  pid ← sys SysFork;
  if pid =? -1 then sh_panic (chars "fork") else mret pid.

Fixpoint runcmd (c : cmd bytes) : prog unit :=
  match c with
  | EXEC [] => exit 1
  | EXEC (a0 :: args) =>
      sys (SysExec a0 (a0 :: args));;
      fprintf 2 "exec %s failed
" [AStr (Some a0)];;
      exit 0
  | REDIR c' file mode fd =>
      sys (SysClose fd);;
      r ← sys (SysOpen file mode);
      if r <? 0 then fprintf 2 "open %s failed
" [AStr (Some file)];; exit 1
      else runcmd c'
  | LIST lc rc =>
      pid ← fork1;
      if pid =? 0 then runcmd lc
      else sys SysWait;; runcmd rc
  | PIPE lc rc =>
      p ← sys SysPipe;
      match p with
      | None => sh_panic (chars "pipe")
      | Some (p0, p1) =>
          pid ← fork1;
          if pid =? 0 then
            sys (SysClose 1);; sys (SysDup p1);; sys (SysClose p0);; sys (SysClose p1);; runcmd lc
          else
            pid2 ← fork1;
            if pid2 =? 0 then
              sys (SysClose 0);; sys (SysDup p0);; sys (SysClose p0);; sys (SysClose p1);; runcmd rc
            else
              sys (SysClose p0);; sys (SysClose p1);; sys SysWait;; sys SysWait;; exit 0
      end
  | BACK c' =>
      pid ← fork1;
      if pid =? 0 then runcmd c' else exit 0
  end.

(** [None] is the end of the input. *)
Definition getcmd (nbuf : Z) : prog (option bytes) :=
  sys (SysWrite 2 [36; 32]);;
  l ← gets nbuf;
  match until_nul l with [] => mret None | s => mret (Some s) end.

(** [while((fd = open("console", O_RDWR)) >= 0)] *)
Definition three_fds : prog unit :=
  ITree.iter (λ _ : unit,
    fd ← sys (SysOpen Init.console O_RDWR);
    if fd <? 0 then mret (inr tt)
    else if 3 <=? fd then sys (SysClose fd);; mret (inr tt)
    else mret (inl tt)) tt.

Definition sh_body (_ : unit) : prog (unit + unit) :=
  o ← getcmd 100;
  match o with
  | None => mret (inr tt)
  | Some buf =>
      if (deref buf =? 99) && (deref (drop 1 buf) =? 100) && (deref (drop 2 buf) =? 32) then
        let dir := drop 3 (take (length buf - 1) buf) in
        r ← sys (SysChdir dir);
        (if r <? 0 then fprintf 2 "cannot cd %s
" [AStr (Some dir)] else mret tt);;
        mret (inl tt)
      else
        pid ← fork1;
        if pid =? 0 then c ← parsecmd buf; runcmd c;; mret (inr tt)
        else sys SysWait;; mret (inl tt)
  end.

Definition main : prog unit := three_fds;; ITree.iter sh_body tt;; exit 0.
