(* ===== verification/ShLex.v ===== *)
(** * ShLex: the tokens of a command line (src/user/sh.c)

    [spelled] relates a line to its tokens, whatever the spaces between them.  [gettoken] and
    [peek] take and inspect the next one, and [nulterminate] makes C strings of the words. *)

From S2P Require Import Prelude Mem Fs Printf Sysfile User Ulib Sh.

Local Open Scope Z_scope.

(** A symbol is one character; [>>] is a token of its own. *)
Inductive token := TWord (w : bytes) | TSym (c : Z) | TAppend.

(** What [gettoken] returns for it. *)
Definition code (t : token) : Z := match t with TWord _ => 97 | TSym c => c | TAppend => 43 end.

Abbreviation spaces := (Forall (λ c, is_in whitespace c = true)).
Abbreviation word := (Forall (λ c, word_char c = true ∧ c ≠ 0)).
Definition ends_word (r : bytes) : Prop := r = [] ∨ word_char (deref r) = false.

(** How it is written, and what may follow it. *)
Definition text (t : token) : bytes := match t with TWord w => w | TSym c => [c] | TAppend => [62; 62] end.
Definition token_ok (t : token) (rest : bytes) : Prop :=
  match t with
  | TWord w => w ≠ [] ∧ word w ∧ ends_word rest
  | TSym c => is_in symbols c = true ∧ (c = 62 → deref rest ≠ 62)
  | TAppend => True
  end.

(** A text that begins with the first token. *)
Inductive bare : list token → bytes → Prop :=
  | bare_nil : bare [] []
  | bare_cons t ws r ts : token_ok t (ws ++ r) → spaces ws → bare ts r → bare (t :: ts) (text t ++ ws ++ r).

Definition spelled (ts : list token) (l : bytes) : Prop := ∃ ws r, l = ws ++ r ∧ spaces ws ∧ bare ts r.

(** ** Characters *)

Lemma is_in_iff set c : is_in set c = true ↔ c ∈ set.
Proof.
  unfold is_in. pose proof (strchr_spec set c) as H. destruct (strchr set c) as [r|].
  - destruct H as (l & -> & _ & Hr). destruct r as [|d r]; [done|]. injection Hr as ->. split; [|done]. intros _. set_solver.
  - split; [done | intros; tauto].
Qed.

Lemma sym_cases c : is_in symbols c = true → c = 60 ∨ c = 124 ∨ c = 62 ∨ c = 38 ∨ c = 59 ∨ c = 40 ∨ c = 41.
Proof. rewrite is_in_iff. unfold symbols. rewrite !elem_of_cons, elem_of_nil. tauto. Qed.

Lemma space_not_word c : is_in whitespace c = true → word_char c = false.
Proof. unfold word_char. by intros ->. Qed.

Lemma sym_not_word c : is_in symbols c = true → word_char c = false.
Proof. unfold word_char. intros ->. by rewrite andb_false_r. Qed.

Lemma sym_not_space c : is_in symbols c = true → is_in whitespace c = false.
Proof. intros H%sym_cases. destruct H as [->|[->|[->|[->|[->|[->| ->]]]]]]; reflexivity. Qed.

Lemma scan_app p ws r : Forall (λ c, p c = true) ws → r = [] ∨ p (deref r) = false → scan p (ws ++ r) = length ws.
Proof.
  intros Hws Hr. induction Hws as [|c ws Hc Hws IH]; cbn [scan app length].
  - destruct r as [|c r]; [done|]. destruct Hr as [|Hr]; [done|]. cbn in *. by rewrite Hr.
  - rewrite Hc, IH. done.
Qed.

(** A text begins with a space, or with the first token. *)
Lemma text_first t rest : token_ok t rest → ∃ c l, text t = c :: l ∧ is_in whitespace c = false ∧ c ≠ 0.
Proof.
  destruct t as [w|c|]; cbn.
  - intros (Hw & Hww & _). destruct w as [|c w]; [done|]. apply Forall_cons in Hww as [[Hc H0] _]. exists c, w. split_and!; [done | | done].
    unfold word_char in Hc. by destruct (is_in whitespace c).
  - intros [Hc _]. exists c, []. split_and!; [done | by apply sym_not_space|]. apply sym_cases in Hc. lia.
  - intros _. by exists 62, [62].
Qed.

Lemma bare_no_space ts r : bare ts r → r = [] ∨ is_in whitespace (deref r) = false.
Proof.
  intros [|t ws r' ts' Ht _ _]; [by left|right]. destruct (text_first t _ Ht) as (c & l & -> & Hc & _). done.
Qed.

(** Every line has a spelling. *)
Lemma scan_split p l : ∃ ws r, l = ws ++ r ∧ Forall (λ c, p c = true) ws ∧ (r = [] ∨ p (deref r) = false).
Proof.
  induction l as [|c l IH]; [by exists [], []; split_and!; [| |left]|]. destruct (p c) eqn:E.
  - destruct IH as (ws & r & -> & H1 & H2). exists (c :: ws), r. split_and!; [done | by constructor | done].
  - exists [], (c :: l). split_and!; [done | done | by right].
Qed.

Lemma bare_total n : ∀ l, (length l ≤ n)%nat → (0 ∉ l) → l = [] ∨ is_in whitespace (deref l) = false → ∃ ts, bare ts l.
Proof.
  induction n as [|n IH]; intros l Hn H0 Hl; (destruct l as [|c l]; [exists []; constructor|]); [cbn in Hn; lia|].
  destruct Hl as [|Hl]; [done|]. cbn [deref length] in *. rewrite elem_of_cons in H0.
  assert (Hrest : ∀ k, (length k ≤ n)%nat → (0 ∉ k) → ∃ ws r ts, k = ws ++ r ∧ spaces ws ∧ bare ts r).
  { intros k Hk Hk0. destruct (scan_split (is_in whitespace) k) as (ws & r & -> & H1 & H2). rewrite length_app in Hk. rewrite elem_of_app in Hk0.
    destruct (IH r) as [ts Hts]; [lia | tauto | done|]. by exists ws, r, ts. }
  destruct (is_in symbols c) eqn:Esym.
  - destruct (decide (c = 62 ∧ deref l = 62)) as [[-> Hd]|Hd].
    + destruct l as [|d l]; [done|]. cbn in Hd. subst d. cbn [length] in Hn. rewrite elem_of_cons in H0.
      destruct (Hrest l) as (ws & r & ts & -> & H1 & H2); [lia | tauto|]. exists (TAppend :: ts). by apply (bare_cons TAppend).
    + destruct (Hrest l) as (ws & r & ts & -> & H1 & H2); [lia | tauto|]. exists (TSym c :: ts). apply (bare_cons (TSym c)); cbn; tauto.
  - assert (Hc : word_char c = true) by (unfold word_char; by rewrite Hl, Esym).
    destruct (scan_split (λ c, word_char c) (c :: l)) as (w & k & E & Hw & Hk). destruct w as [|d w].
    { cbn in E. subst k. destruct Hk as [|Hk]; [done|]. cbn in Hk. congruence. }
    injection E as <- ->. rewrite length_app in Hn. rewrite elem_of_app in H0.
    destruct (Hrest k) as (ws & r & ts & -> & H1 & H2); [lia | tauto|]. exists (TWord (c :: w) :: ts).
    apply (bare_cons (TWord (c :: w))); [|done..]. split_and!; [done | | exact Hk].
    rewrite Forall_forall in *. intros x Hx. split; [by apply Hw|]. intros ->. apply elem_of_cons in Hx. tauto.
Qed.

Lemma spelled_total l : (0 ∉ l) → ∃ ts, spelled ts l.
Proof.
  intros H0. destruct (scan_split (is_in whitespace) l) as (ws & r & -> & H1 & H2). rewrite elem_of_app in H0.
  destruct (bare_total (length r) r) as [ts Hts]; [lia | tauto | done|]. by exists ts, ws, r.
Qed.

Lemma spelled_nil_inv ts : spelled ts [] → ts = [].
Proof.
  intros (ws & r & E & _ & H). destruct ws; [|done]. cbn in E. subst r. inversion H as [|t ws r ts' Ht Hws Hb Et E]; [done|].
  destruct (text_first t _ Ht) as (c & l & Ex & _). by rewrite Ex in E.
Qed.

(** ** The token functions *)

Section lex.
  Context (buf : bytes).

(** The rest of the line from [s] on is the tokens [ts]. *)
Definition at_tokens (s : nat) (ts : list token) : Prop := (s ≤ length buf)%nat ∧ spelled ts (drop s buf).

(** The range [q] of the line holds the word [w], and the word ends there. *)
Definition is_word (q : range) (w : bytes) : Prop :=
  ∃ pre post, buf = pre ++ w ++ post ∧ q = (length pre, length pre + length w)%nat ∧ word w ∧ ends_word post.

(** Whether the next token begins with one of the symbols [toks]. *)
Definition hd_in (toks : bytes) (ts : list token) : bool :=
  match ts with TSym c :: _ => is_in toks c | TAppend :: _ => is_in toks 62 | _ => false end.

Lemma drop_split s ws r : drop s buf = ws ++ r → (s ≤ length buf)%nat →
  drop (s + length ws) buf = r ∧ (s + length ws ≤ length buf)%nat.
Proof.
  intros E Hs. assert (HL := f_equal length E). rewrite length_drop, length_app in HL. split; [|lia].
  by rewrite <- drop_drop, E, drop_app_length.
Qed.

Lemma skip_app p s ws r : drop s buf = ws ++ r → Forall (λ c, p c = true) ws → r = [] ∨ p (deref r) = false →
  skip buf p s = (s + length ws)%nat.
Proof. intros E Hws Hr. unfold skip. by rewrite E, scan_app. Qed.

(** Spaces are skipped. *)
Lemma skip_spaces s ws r ts : drop s buf = ws ++ r → (s ≤ length buf)%nat → spaces ws → bare ts r →
  let s' := skip buf (is_in whitespace) s in (s ≤ s' ≤ length buf)%nat ∧ drop s' buf = r.
Proof.
  intros E Hs Hws Hb. cbv zeta. rewrite (skip_app _ s ws r) by (done || by eapply bare_no_space). 
  destruct (drop_split s ws r E Hs). split; [lia | done].
Qed.

Lemma skip_at s ws r ts : drop s buf = ws ++ r → (s ≤ length buf)%nat → spaces ws → bare ts r →
  let s' := skip buf (is_in whitespace) s in (s ≤ s')%nat ∧ at_tokens s' ts.
Proof.
  intros E Hs Hws Hb. destruct (skip_spaces s ws r ts E Hs Hws Hb) as [H1 H2]. split; [lia|]. split; [lia|]. rewrite H2. by exists [], r.
Qed.

(** What the code does from a state: [E] is whether it may panic. *)
Definition wp {A} (E : Prop) (m : PM A) (s : nat) (P : A → nat → Prop) : Prop :=
  match m s with Ok (a, s') => P a s' | Panic _ => E | _ => False end.

Lemma wp_ret {A} E (a : A) s P : P a s → wp E (mret a) s P.
Proof. done. Qed.

Lemma wp_bind {A B} E (m : PM A) (f : A → PM B) s P : wp E m s (λ a s', wp E (f a) s' P) → wp E (m ≫= f) s P.
Proof. unfold wp, mbind, M_bind. by destruct (m s) as [[a s']| | |]. Qed.

Lemma wp_mono {A} E (m : PM A) s (P Q : A → nat → Prop) : wp E m s P → (∀ a s', P a s' → Q a s') → wp E m s Q.
Proof. unfold wp. destruct (m s) as [[a s']| | |]; auto. Qed.

Lemma wp_peek E toks s ts (P : bool → nat → Prop) : Forall (λ c, is_in symbols c = true) toks → at_tokens s ts →
  (∀ s', (s ≤ s')%nat → at_tokens s' ts → (ts = [] → s' = length buf) → P (hd_in toks ts) s') → wp E (peek buf toks) s P.
Proof.
  intros Htoks [Hs (ws & r & E1 & Hws & Hb)] HP. destruct (skip_spaces s ws r ts E1 Hs Hws Hb) as [Hs' Ed].
  unfold wp, peek. rewrite bind_get. cbv zeta. rewrite bind_put. unfold at_. rewrite Ed. cbn.
  assert (hd_in toks ts = negb (deref r =? 0) && is_in toks (deref r)) as <-.
  { destruct Hb as [|t ws' r ts Ht _ _]; [done|]. destruct (text_first t _ Ht) as (c & l & Et & _ & H0). rewrite Et. cbn.
    destruct (Z.eqb_spec c 0); [done|]. destruct t as [w|d|]; cbn in Et |- *; [|by injection Et as -> <-..]. subst w.
    destruct Ht as (_ & [[Hc _] _]%Forall_cons & _). destruct (is_in toks c) eqn:Ein; [|done].
    apply is_in_iff in Ein. rewrite Forall_forall in Htoks. apply Htoks, sym_not_word in Ein. congruence. }
  apply HP; [lia | |].
  - split; [lia|]. rewrite Ed. by exists [], r.
  - intros ->. assert (r = []) as -> by (by inversion Hb). apply (f_equal length) in Ed. rewrite length_drop in Ed. cbn in Ed. lia.
Qed.

Lemma wp_gettoken_nil E s (P : Z * range → nat → Prop) : at_tokens s [] → (∀ q s', at_tokens s' [] → (s ≤ s')%nat → P (0, q) s') → wp E (gettoken buf) s P.
Proof.
  intros [Hs (ws & r & E1 & Hws & Hb)] HP. destruct (skip_spaces s ws r [] E1 Hs Hws Hb) as [Hs' Ed]. assert (r = []) as -> by (by inversion Hb).
  unfold wp, gettoken. rewrite bind_get. cbv zeta. unfold at_. rewrite Ed. cbn [deref Z.eqb]. rewrite bind_put. cbn.
  set (q := skip buf (is_in whitespace) s) in *. destruct (skip_at q [] [] [] Ed ltac:(lia) ltac:(constructor) bare_nil) as [H1 H2].
  apply HP; [done | lia].
Qed.

(** The [switch] of [gettoken]. *)
Lemma token_switch t q r : token_ok t r → drop q buf = text t ++ r →
  (if deref (text t ++ r) =? 0 then (0, q)
   else if (deref (text t ++ r) =? 124) || (deref (text t ++ r) =? 40) || (deref (text t ++ r) =? 41) || (deref (text t ++ r) =? 59)
     || (deref (text t ++ r) =? 38) || (deref (text t ++ r) =? 60) then (deref (text t ++ r), S q)
   else if deref (text t ++ r) =? 62 then if deref (drop (S q) buf) =? 62 then (43, S (S q)) else (deref (text t ++ r), S q)
   else (97, skip buf word_char q)) = (code t, (q + length (text t))%nat).
Proof.
  intros Ht Ed. destruct (text_first t _ Ht) as (c & l & Et & _ & H0).
  assert (ES : drop (S q) buf = l ++ r) by (rewrite <- Nat.add_1_r, <- drop_drop, Ed, Et; done).
  rewrite ES, Et. cbn [app deref length]. destruct (Z.eqb_spec c 0); [done|]. destruct t as [w|d|]; cbn [code text token_ok] in *.
  - subst w. destruct Ht as (_ & Hw & Hend). pose proof Hw as [[Hc _] _]%Forall_cons.
    assert (Hsym : is_in symbols c = false) by (unfold word_char in Hc; destruct (is_in symbols c); [by rewrite andb_false_r in Hc | done]).
    assert (H : ∀ x, is_in symbols x = true → (c =? x) = false) by (intros x Hx; destruct (Z.eqb_spec c x); [congruence | done]).
    rewrite !H by reflexivity. cbn [orb]. f_equal. rewrite (skip_app _ q (c :: l) r); [done | by rewrite Ed | | done].
    eapply Forall_impl; [exact Hw|]. by intros x [? _].
  - injection Et as <- <-. destruct Ht as [Hd Hgt]. cbn [app length]. apply sym_cases in Hd. rewrite Nat.add_1_r.
    destruct Hd as [->|[->|[->|[->|[->|[->| ->]]]]]]; try reflexivity. cbn. destruct (Z.eqb_spec (deref r) 62) as [E|]; [by destruct Hgt | done].
  - injection Et as <- <-. cbn. f_equal. lia.
Qed.

Lemma wp_gettoken E s t ts (P : Z * range → nat → Prop) : at_tokens s (t :: ts) →
  (∀ q s', (s < s')%nat → at_tokens s' ts → (∀ w, t = TWord w → is_word q w) → P (code t, q) s') → wp E (gettoken buf) s P.
Proof.
  intros [Hs (ws & r & E1 & Hws & Hb)] HP. destruct (skip_spaces s ws r _ E1 Hs Hws Hb) as [Hs' Ed].
  inversion Hb as [|t' ws' r' ts' Ht Hws' Hb' Et Er]; subst t' ts'. destruct Er.
  unfold wp, gettoken. rewrite bind_get. cbv zeta. unfold at_. set (q := skip buf (is_in whitespace) s) in *.
  rewrite Ed, token_switch by done. rewrite bind_put. cbn. destruct (drop_split q (text t) (ws' ++ r')) as [H1 H2]; [done | lia|].
  destruct (skip_at (q + length (text t)) ws' r' ts H1 H2 Hws' Hb') as [H3 H4].
  destruct (text_first t _ Ht) as (c & l & Etx & _). assert (0 < length (text t))%nat by (rewrite Etx; cbn; lia).
  apply HP; [lia | done|]. intros w ->. exists (take q buf), (ws' ++ r'). cbn [text] in *. destruct Ht as (_ & Hw & Hend).
  rewrite length_take_le by lia. split_and!; [|done..]. rewrite <- Ed. by rewrite take_drop.
Qed.

(** ** The strings of a command *)

(** The same command, with related strings. *)
Inductive cmd_rel {A B} (R : A → B → Prop) : cmd A → cmd B → Prop :=
  | rel_exec l k : Forall2 R l k → cmd_rel R (EXEC l) (EXEC k)
  | rel_redir c d q w mode fd : cmd_rel R c d → R q w → cmd_rel R (REDIR c q mode fd) (REDIR d w mode fd)
  | rel_pipe c d c' d' : cmd_rel R c d → cmd_rel R c' d' → cmd_rel R (PIPE c c') (PIPE d d')
  | rel_list c d c' d' : cmd_rel R c d → cmd_rel R c' d' → cmd_rel R (LIST c c') (LIST d d')
  | rel_back c d : cmd_rel R c d → cmd_rel R (BACK c) (BACK d).

(** [b] is the line and its NUL, with some of the characters outside the words overwritten. *)
Definition cut_line (b : bytes) : Prop :=
  length b = S (length buf) ∧ ∀ i c, buf !! i = Some c → word_char c = true → b !! i = Some c.

Lemma cut_line_init : cut_line (buf ++ [0]).
Proof. split; [rewrite length_app; cbn; lia|]. intros i c Hi _. by apply lookup_app_l_Some. Qed.

Lemma cut_line_insert b q w : is_word q w → cut_line b → cut_line (<[q.2 := 0]> b) ∧ <[q.2 := 0]> b !! q.2 = Some 0.
Proof.
  intros (pre & post & E & -> & _ & Hend) [Hl Hb]. cbn [snd]. assert (HL := f_equal length E). rewrite !length_app in HL. split.
  - split; [by rewrite length_insert|]. intros i c Hi Hc. rewrite list_lookup_insert_ne; [by apply Hb|]. intros <-.
    rewrite E, app_assoc, lookup_app_r in Hi by (rewrite length_app; lia). rewrite length_app, Nat.sub_diag in Hi.
    destruct Hend as [->|Hend]; [done|]. destruct post as [|d post]; [done|]. injection Hi as <-. cbn in Hend. congruence.
  - apply list_lookup_insert_eq. lia.
Qed.

(** A word that ends in a NUL is a C string. *)
Lemma str_at_word b q w : is_word q w → cut_line b → b !! q.2 = Some 0 → str_at b q.1 = w.
Proof.
  intros (pre & post & E & -> & Hw & _) [Hl Hb] H0. cbn [fst snd] in *. unfold str_at.
  assert (Ed : drop (length pre) b = w ++ 0 :: drop (S (length pre + length w)) b).
  { apply list_eq. intros i. rewrite lookup_drop. destruct (Nat.lt_trichotomy i (length w)) as [Hi|[->|Hi]].
    - destruct (lookup_lt_is_Some_2 w i Hi) as [c Hc]. rewrite lookup_app_l, Hc by done. apply Hb.
      + rewrite E, lookup_app_r, lookup_app_l by lia. by replace (length pre + i - length pre)%nat with i by lia.
      + rewrite Forall_lookup in Hw. by destruct (Hw i c Hc).
    - rewrite H0, lookup_app_r, Nat.sub_diag by lia. done.
    - rewrite lookup_app_r by lia. replace (i - length w)%nat with (S (i - length w - 1)) by lia. rewrite lookup_cons_ne_0 by lia. cbn [pred].
      rewrite lookup_drop. f_equal. lia. }
  rewrite Ed. apply until_nul_app. rewrite Forall_forall in Hw. intros Hx. by destruct (Hw 0 Hx).
Qed.

(** Where the strings of a command end. *)
Fixpoint ends (c : cmd range) : list nat :=
  match c with
  | EXEC argv => argv.*2
  | REDIR c' file _ _ => ends c' ++ [file.2]
  | PIPE l r | LIST l r => ends l ++ ends r
  | BACK c' => ends c'
  end.
Definition nuls (b : bytes) (l : list nat) : bytes := foldl (λ b i, <[i := 0]> b) b l.

Lemma nulterminate_nuls c : ∀ b, nulterminate c b = nuls b (ends c).
Proof.
  unfold nuls. induction c as [argv|c IH file mode fd|l IHl r IHr|l IHl r IHr|c IH]; intros b; cbn [nulterminate ends].
  - revert b. induction argv as [|q argv IH]; intros b; cbn; [done|]. apply IH.
  - by rewrite foldl_app, IH.
  - by rewrite foldl_app, IHl, IHr.
  - by rewrite foldl_app, IHl, IHr.
  - apply IH.
Qed.

Lemma nuls_spec l : ∀ b, Forall (λ i, ∃ q w, is_word q w ∧ q.2 = i) l → cut_line b →
  cut_line (nuls b l) ∧ (∀ i, b !! i = Some 0 → nuls b l !! i = Some 0) ∧ ∀ i, i ∈ l → nuls b l !! i = Some 0.
Proof.
  induction l as [|i l IH]; intros b Hl Hb; cbn.
  - split_and!; [done | done|]. intros i Hi. by apply not_elem_of_nil in Hi.
  - apply Forall_cons in Hl as [(q & w & Hq & <-) Hl]. destruct (cut_line_insert b q w Hq Hb) as [H1 H2].
    destruct (IH _ Hl H1) as (H3 & H4 & H5). split_and!; [done| |].
    + intros j Hj. apply H4. destruct (decide (j = q.2)) as [->|]; [done|]. by rewrite list_lookup_insert_ne.
    + intros j [->|Hj]%elem_of_cons; [by apply H4 | by apply H5].
Qed.

Lemma ends_words c t : cmd_rel is_word c t → Forall (λ i, ∃ q w, is_word q w ∧ q.2 = i) (ends c).
Proof.
  induction 1 as [l k Hl|c d q w mode fd _ IH Hq|c d c' d' _ IH _ IH'|c d c' d' _ IH _ IH'|c d _ IH]; cbn [ends].
  - induction Hl as [|q w l k Hq Hl IH]; [constructor|]. constructor; [by exists q, w | done].
  - apply Forall_app. split; [done|]. constructor; [by exists q, w | constructor].
  - by apply Forall_app.
  - by apply Forall_app.
  - done.
Qed.

Lemma strings_words b c t : cut_line b → cmd_rel is_word c t → (∀ i, i ∈ ends c → b !! i = Some 0) → strings b c = t.
Proof.
  intros Hb. unfold strings. induction 1 as [l k Hl|c d q w mode fd _ IH Hq|c d c' d' _ IH _ IH'|c d c' d' _ IH _ IH'|c d _ IH];
    cbn [ends cmd_map]; intros He.
  - f_equal. induction Hl as [|q w l k Hq Hl IH]; [done|]. cbn in *. f_equal.
    + eapply str_at_word; [done | done|]. apply He. left.
    + apply IH. intros i Hi. apply He. by right.
  - f_equal; [apply IH; set_solver|]. eapply str_at_word; [done | done|]. apply He. set_solver.
  - f_equal; [apply IH | apply IH']; set_solver.
  - f_equal; [apply IH | apply IH']; set_solver.
  - f_equal. by apply IH.
Qed.

(** After [nulterminate] the pointers of the command point to its words. *)
Lemma nulterminate_strings c t : cmd_rel is_word c t → strings (nulterminate c (buf ++ [0])) c = t.
Proof.
  intros H. rewrite nulterminate_nuls. destruct (nuls_spec (ends c) (buf ++ [0])) as (H1 & _ & H2).
  - by eapply ends_words.
  - apply cut_line_init.
  - by apply strings_words.
Qed.
End lex.
