(* ===== verification/ShParse.v ===== *)
(** * ShParse: the shell's parser accepts its grammar (src/user/sh.c)

    The grammar as derivation trees, the tokens a derivation stands for and the command it
    denotes; the parser returns that command for every line with those tokens, and nothing for
    other lines. *)

From S2P Require Import Prelude Mem Fs Printf Sysfile User Ulib Uprintf Sh ShLex.
From ITree Require Import ITree.

Local Open Scope Z_scope.

(** ** The grammar *)

Inductive rop := RIn | ROut | RAppend.
Definition redir : Type := rop * bytes.

(** A word or a redirection of a simple command. *)
Definition item : Type := bytes + redir.

Inductive line :=
  | LOne (p : pipeline) (backs : nat)
  | LSeq (p : pipeline) (backs : nat) (l : line)
with pipeline :=
  | POne (e : exec)
  | PBar (e : exec) (p : pipeline)
with exec :=
  | Simple (l : list item)
  | Block (l : line) (rs : list redir).

Definition rop_token (o : rop) : token := match o with RIn => TSym 60 | ROut => TSym 62 | RAppend => TAppend end.
Definition redir_tokens (r : redir) : list token := [rop_token r.1; TWord r.2].
Definition redirs_tokens (rs : list redir) : list token := concat (redir_tokens <$> rs).
Definition item_tokens (i : item) : list token := match i with inl w => [TWord w] | inr r => redir_tokens r end.
Definition items_tokens (l : list item) : list token := concat (item_tokens <$> l).

Fixpoint line_tokens (l : line) : list token :=
  match l with
  | LOne p n => pipe_tokens p ++ replicate n (TSym 38)
  | LSeq p n l' => pipe_tokens p ++ replicate n (TSym 38) ++ TSym 59 :: line_tokens l'
  end
with pipe_tokens (p : pipeline) : list token :=
  match p with
  | POne e => exec_tokens e
  | PBar e p' => exec_tokens e ++ TSym 124 :: pipe_tokens p'
  end
with exec_tokens (e : exec) : list token :=
  match e with
  | Simple l => items_tokens l
  | Block l rs => TSym 40 :: line_tokens l ++ TSym 41 :: redirs_tokens rs
  end.

(** ** The commands *)

Definition rop_mode (o : rop) : Z :=
  match o with RIn => O_RDONLY | ROut => Z.lor (Z.lor O_WRONLY O_CREATE) O_TRUNC | RAppend => Z.lor O_WRONLY O_CREATE end.
Definition rop_fd (o : rop) : Z := match o with RIn => 0 | _ => 1 end.

(** A redirection applies to the command so far. *)
Definition redirected (c : cmd bytes) (r : redir) : cmd bytes := REDIR c r.2 (rop_mode r.1) (rop_fd r.1).

Definition args (l : list item) : list bytes := omap (λ i, match i with inl w => Some w | inr _ => None end) l.
Definition redirs (l : list item) : list redir := omap (λ i, match i with inl _ => None | inr r => Some r end) l.

Fixpoint line_cmd (l : line) : cmd bytes :=
  match l with
  | LOne p n => Nat.iter n BACK (pipe_cmd p)
  | LSeq p n l' => LIST (Nat.iter n BACK (pipe_cmd p)) (line_cmd l')
  end
with pipe_cmd (p : pipeline) : cmd bytes :=
  match p with
  | POne e => exec_cmd e
  | PBar e p' => PIPE (exec_cmd e) (pipe_cmd p')
  end
with exec_cmd (e : exec) : cmd bytes :=
  match e with
  | Simple l => foldl redirected (EXEC (args l)) (redirs l)
  | Block l rs => foldl redirected (line_cmd l) rs
  end.

(** No simple command has more arguments than its [argv] holds before the null pointer. *)
Fixpoint line_ok (l : line) : bool :=
  match l with
  | LOne p _ => pipe_ok p
  | LSeq p _ l' => pipe_ok p && line_ok l'
  end
with pipe_ok (p : pipeline) : bool :=
  match p with
  | POne e => exec_ok e
  | PBar e p' => exec_ok e && pipe_ok p'
  end
with exec_ok (e : exec) : bool :=
  match e with
  | Simple l => (length (args l) <? MAXARGS)%nat
  | Block l _ => line_ok l
  end.

(** ** The command as the words and redirections are read *)

Definition take_item (c : cmd bytes) (i : item) : cmd bytes :=
  match i with inl w => add_arg c w | inr r => redirected c r end.

Lemma add_arg_redirected argv rs w :
  add_arg (foldl redirected (EXEC argv) rs) w = foldl redirected (EXEC (argv ++ [w])) rs.
Proof. induction rs as [|r rs IH] using rev_ind; [done|]. rewrite !foldl_snoc. cbn. by rewrite IH. Qed.

Lemma take_items l : ∀ argv rs,
  foldl take_item (foldl redirected (EXEC argv) rs) l = foldl redirected (EXEC (argv ++ args l)) (rs ++ redirs l).
Proof.
  induction l as [|[w|r] l IH]; intros argv rs; cbn.
  - by rewrite !app_nil_r.
  - by rewrite add_arg_redirected, IH, <- app_assoc.
  - rewrite <- (foldl_snoc redirected (EXEC argv) rs r), IH, <- app_assoc. done.
Qed.

Lemma simple_items l : exec_cmd (Simple l) = foldl take_item (EXEC []) l.
Proof. symmetry. apply (take_items l [] []). Qed.

Section parse.
  Context (buf : bytes).
  Abbreviation At := (at_tokens buf).
  Abbreviation reads := (cmd_rel (is_word buf)).

Lemma rel_add_arg c t q w : reads c t → is_word buf q w → reads (add_arg c q) (add_arg t w).
Proof.
  intros H Hq. induction H as [l k Hl|c d q' w' mode fd H IH Hq'|c d c' d' H1 IH1 H2 IH2|c d c' d' H1 IH1 H2 IH2|c d H IH]; cbn; constructor; try done.
  apply Forall2_app; [done|]. by constructor.
Qed.

Lemma rel_redir_token c t o q w : reads c t → is_word buf q w → reads (redircmd c (code (rop_token o)) q) (redirected t (o, w)).
Proof. intros H Hq. by destruct o; constructor. Qed.

Lemma hd_in_inv toks ts : hd_in toks ts = true → ∃ c ts', ts = TSym c :: ts' ∧ c ∈ toks ∨ ts = TAppend :: ts' ∧ 62 ∈ toks.
Proof. destruct ts as [|[w|c|] ts]; cbn; try done; intros H%is_in_iff; [exists c, ts | exists 0, ts]; tauto. Qed.

Lemma hd_in_one c ts : c ≠ 62 → hd_in [c] ts = true → ∃ ts', ts = TSym c :: ts'.
Proof. intros Hc (d & ts' & [[-> H]|[-> H]])%hd_in_inv; rewrite elem_of_cons, elem_of_nil in H; destruct H as [H|[]]; [subst; by exists ts' | done]. Qed.

Lemma hd_in_rop ts : hd_in [60; 62] ts = true → ∃ o ts', ts = rop_token o :: ts'.
Proof.
  intros (c & ts' & [[-> H]|[-> _]])%hd_in_inv; [|by exists RAppend, ts'].
  rewrite !elem_of_cons, elem_of_nil in H. destruct H as [->|[->|[]]]; [by exists RIn, ts' | by exists ROut, ts'].
Qed.

Lemma symbols_ok l : forallb (is_in symbols) l = true → Forall (λ c, is_in symbols c = true) l.
Proof. rewrite forallb_forall, Forall_forall. intros H x Hx. apply H. by apply list_elem_of_In. Qed.

(** The next token, and the answer of [peek]. *)
Local Ltac peeking Hat s' Hs' Hat' :=
  apply wp_bind; eapply wp_peek; [by apply symbols_ok | exact Hat|]; intros s' Hs' Hat' _.
Local Ltac taking Hat q s' Hs' Hat' Hq :=
  apply wp_bind; eapply wp_gettoken; [exact Hat|]; intros q s' Hs' Hat' Hq; cbn beta iota.

(** ** Redirections *)

Lemma redirs_sound f : ∀ c t s ts, At s ts → (length buf - s < f)%nat → reads c t →
  wp True (redirs_loop buf f c) s (λ c' s', ∃ rs ts', ts = redirs_tokens rs ++ ts' ∧ At s' ts' ∧ (s ≤ s')%nat ∧
    reads c' (foldl redirected t rs) ∧ hd_in [60; 62] ts' = false).
Proof.
  induction f as [|f IH]; intros c t s ts Hat Hf Hc; [lia|]. cbn [redirs_loop]. peeking Hat s1 Hs1 Hat1.
  destruct (hd_in [60; 62] ts) eqn:E.
  - destruct (hd_in_rop ts E) as (o & ts1 & ->). taking Hat1 q1 s2 Hs2 Hat2 Hq1. destruct ts1 as [|[w|d|] ts2].
    { apply wp_bind. eapply wp_gettoken_nil; [exact Hat2|]. done. }
    2-3: taking Hat2 q2 s3 Hs3 Hat3 Hq2.
    + taking Hat2 q2 s3 Hs3 Hat3 Hq2. eapply wp_mono; [apply (IH _ (redirected t (o, w)) s3 ts2)|].
      * done.
      * destruct Hat3. lia.
      * apply rel_redir_token; [done | by apply Hq2].
      * intros c' s' (rs & ts' & -> & H1 & H2 & H3 & H4). exists ((o, w) :: rs), ts'. split_and!; [done | done | lia | done | done].
    + cbn [code]. destruct (Z.eqb_spec d 97) as [->|]; [|done]. destruct Hat2 as [_ (ws & r & _ & _ & Hb)]. inversion Hb as [|? ? ? ? Ht]; subst.
      by destruct Ht as [Ht _].
    + done.
  - apply wp_ret. exists [], ts. split_and!; try done.
Qed.

Lemma redirs_complete f rs : ∀ c t s ts, At s (redirs_tokens rs ++ ts) → (length buf - s < f)%nat → reads c t → hd_in [60; 62] ts = false →
  wp False (redirs_loop buf f c) s (λ c' s', At s' ts ∧ (s ≤ s')%nat ∧ reads c' (foldl redirected t rs)).
Proof.
  revert f. induction rs as [|[o w] rs IH]; intros [|f] c t s ts Hat Hf Hc Hts; try lia; cbn [redirs_loop].
  - peeking Hat s1 Hs1 Hat1. cbn [redirs_tokens fmap list_fmap concat app]. rewrite Hts. by apply wp_ret.
  - peeking Hat s1 Hs1 Hat1. change (redirs_tokens ((o, w) :: rs) ++ ts) with (rop_token o :: TWord w :: redirs_tokens rs ++ ts) in *.
    assert (hd_in [60; 62] (rop_token o :: TWord w :: redirs_tokens rs ++ ts) = true) as -> by by destruct o.
    taking Hat1 q1 s2 Hs2 Hat2 Hq1. taking Hat2 q2 s3 Hs3 Hat3 Hq2. eapply wp_mono; [apply (IH f _ (redirected t (o, w)) s3 ts)|].
    + done.
    + destruct Hat3. lia.
    + apply rel_redir_token; [done | by apply Hq2].
    + done.
    + intros c' s' (H1 & H2 & H3). split_and!; [done | lia | done].
Qed.

(** ** Arguments *)

Lemma code_inv s t ts : At s (t :: ts) → code t ≠ 0 ∧ (code t = 97 → ∃ w, t = TWord w).
Proof.
  intros [_ (ws & r & _ & _ & Hb)]. inversion Hb as [|? ? ? ? Ht]; subst. destruct t as [w|c|]; cbn; [eauto| |done].
  destruct Ht as [Hc%sym_cases _]. split; lia.
Qed.

Lemma items_redirs rs : items_tokens (inr <$> rs) = redirs_tokens rs.
Proof. unfold items_tokens, redirs_tokens. by rewrite <- list_fmap_compose. Qed.

Lemma take_redirs rs : ∀ t, foldl take_item t (inr <$> rs) = foldl redirected t rs.
Proof. induction rs as [|r rs IH]; intros t; cbn; [done|]. apply IH. Qed.

Lemma args_redirs rs l : args ((inr <$> rs) ++ l) = args l.
Proof. induction rs as [|r rs IH]; cbn; [done|]. apply IH. Qed.

Lemma items_app l k : items_tokens (l ++ k) = items_tokens l ++ items_tokens k.
Proof. unfold items_tokens. by rewrite fmap_app, concat_app. Qed.

(** A word and the redirections after it. *)
Lemma items_arg w rs l ts :
  items_tokens (inl w :: (inr <$> rs) ++ l) ++ ts = TWord w :: redirs_tokens rs ++ items_tokens l ++ ts.
Proof.
  change (items_tokens (inl w :: (inr <$> rs) ++ l)) with (TWord w :: items_tokens ((inr <$> rs) ++ l)).
  rewrite items_app, items_redirs. cbn [app]. by rewrite <- app_assoc.
Qed.

Lemma take_arg t w rs l :
  foldl take_item t (inl w :: (inr <$> rs) ++ l) = foldl take_item (foldl redirected (add_arg t w) rs) l.
Proof. cbn [foldl take_item]. by rewrite foldl_app, take_redirs. Qed.

Lemma args_arg w rs l : length (args (inl w :: (inr <$> rs) ++ l)) = S (length (args l)).
Proof. change (args (inl w :: (inr <$> rs) ++ l)) with (w :: args ((inr <$> rs) ++ l)). by rewrite args_redirs. Qed.

(** The line ends, or one of [toks] follows. *)
Definition after (toks : bytes) (ts : list token) : Prop := ts = [] ∨ hd_in toks ts = true.

Lemma after_mono toks toks' ts : after toks ts → forallb (is_in toks') toks = true → after toks' ts.
Proof.
  intros [->|H] Hf; [by left|right]. rewrite forallb_forall in Hf.
  destruct (hd_in_inv _ _ H) as (c & ts' & [[-> Hc]|[-> Hc]]); apply Hf; by apply list_elem_of_In.
Qed.

Lemma after_not toks toks' ts : after toks ts → forallb (λ c, negb (is_in toks' c)) toks = true → hd_in toks' ts = false.
Proof.
  intros [->|H] Hf; [done|]. rewrite forallb_forall in Hf.
  destruct (hd_in_inv _ _ H) as (c & ts' & [[-> Hc%list_elem_of_In]|[-> Hc%list_elem_of_In]]); apply Hf, negb_true_iff in Hc; done.
Qed.

(** What may come after a simple command. *)
Abbreviation after_simple := (after [124; 41; 38; 59]).

Lemma args_sound f : ∀ n c t s ts, At s ts → (length buf - s < f)%nat → (n < MAXARGS)%nat → reads c t →
  wp True (args_loop buf f n c) s (λ c' s', ∃ l ts', ts = items_tokens l ++ ts' ∧ At s' ts' ∧ (s ≤ s')%nat ∧
    reads c' (foldl take_item t l) ∧ (n + length (args l) < MAXARGS)%nat).
Proof.
  induction f as [|f IH]; intros n c t s ts Hat Hf Hn Hc; [lia|]. cbn [args_loop]. peeking Hat s1 Hs1 Hat1.
  destruct (hd_in _ ts); [apply wp_ret; exists [], ts; cbn; split_and!; done || lia|]. destruct ts as [|tk ts].
  { apply wp_bind. eapply wp_gettoken_nil; [exact Hat1|]. intros q s2 Hat2 Hs2. apply wp_ret. exists [], []. cbn. split_and!; done || lia. }
  taking Hat1 q s2 Hs2 Hat2 Hq. destruct (code_inv _ _ _ Hat1) as [H0 H97]. destruct (Z.eqb_spec (code tk) 0); [done|].
  destruct (Z.eqb_spec (code tk) 97) as [E|]; cbn [negb]; [|done]. destruct (H97 E) as [w ->]. 
  destruct (Nat.leb_spec MAXARGS (S n)); [done|]. apply wp_bind.
  eapply wp_mono; [apply (redirs_sound _ _ (add_arg t w) s2 ts); [done | lia | by apply rel_add_arg; [|apply Hq]]|].
  intros c2 s3 (rs & ts' & -> & H1 & H2 & H3 & _). eapply wp_mono; [apply (IH (S n) c2 (foldl redirected (add_arg t w) rs) s3 ts' H1)|].
  - destruct H1. lia.
  - done.
  - exact H3.
  - intros c' s' (l & ts'' & -> & H4 & H5 & H6 & H7). exists (inl w :: (inr <$> rs) ++ l), ts''. 
    rewrite items_arg, take_arg, args_arg. split_and!; [done | done | lia | done | lia].
Qed.

Lemma items_split (l : list item) : ∃ rs l', l = (inr <$> rs) ++ l' ∧ (l' = [] ∨ ∃ w k, l' = inl w :: k).
Proof.
  induction l as [|[w|r] l IH]; [exists [], []; auto | exists [], (inl w :: l); eauto|].
  destruct IH as (rs & l' & -> & H). by exists (r :: rs), l'.
Qed.

Lemma args_complete f : ∀ l n c t s ts, At s (items_tokens l ++ ts) → l = [] ∨ (∃ w k, l = inl w :: k) → (length buf - s < f)%nat →
  (n + length (args l) < MAXARGS)%nat → reads c t → after_simple ts →
  wp False (args_loop buf f n c) s (λ c' s', At s' ts ∧ (s ≤ s')%nat ∧ reads c' (foldl take_item t l)).
Proof.
  induction f as [|f IH]; intros l n c t s ts Hat Hl Hf Hn Hc Hts; [lia|]. cbn [args_loop]. peeking Hat s1 Hs1 Hat1.
  destruct Hl as [->|(w & k & ->)].
  { cbn [items_tokens fmap list_fmap concat app] in *. destruct Hts as [->| ->]; [cbn [hd_in] | by apply wp_ret].
    apply wp_bind. eapply wp_gettoken_nil; [exact Hat1|]. intros q s2 Hat2 Hs2. apply wp_ret. cbn. split_and!; done || lia. }
  destruct (items_split k) as (rs & l' & -> & Hl').
  rewrite items_arg in *. rewrite args_arg in Hn. rewrite take_arg. cbn [hd_in]. taking Hat1 q s2 Hs2 Hat2 Hq. cbn [code Z.eqb Pos.eqb negb].
  destruct (Nat.leb_spec MAXARGS (S n)); [lia|]. apply wp_bind.
  eapply wp_mono; [apply (redirs_complete _ rs _ (add_arg t w) s2 (items_tokens l' ++ ts)); [done | lia | by apply rel_add_arg; [|apply Hq]|]|].
  - destruct Hl' as [->|(w' & k' & ->)]; [by eapply after_not | done].
  - intros c2 s3 (H1 & H2 & H3). eapply wp_mono; [apply (IH l' (S n) c2 (foldl redirected (add_arg t w) rs) s3 ts H1 Hl'); [destruct H1; lia | lia | exact H3 | done]|].
    intros c' s' (H4 & H5 & H6). split_and!; [done | lia | done].
Qed.

(** ** Commands in the background *)

Lemma back_sound f : ∀ c t s ts, At s ts → (length buf - s < f)%nat → reads c t →
  wp True (back_loop buf f c) s (λ c' s', ∃ n ts', ts = replicate n (TSym 38) ++ ts' ∧ At s' ts' ∧ (s ≤ s')%nat ∧
    reads c' (Nat.iter n BACK t)).
Proof.
  induction f as [|f IH]; intros c t s ts Hat Hf Hc; [lia|]. cbn [back_loop]. peeking Hat s1 Hs1 Hat1. destruct (hd_in _ ts) eqn:E.
  - destruct (hd_in_one 38 ts ltac:(done) E) as [ts1 ->]. taking Hat1 q s2 Hs2 Hat2 Hq.
    eapply wp_mono; [apply (IH _ (BACK t) s2 ts1 Hat2); [destruct Hat2; lia | by constructor]|].
    intros c' s' (n & ts' & -> & H1 & H2 & H3). exists (S n), ts'. rewrite Nat.iter_succ_r. split_and!; done || lia.
  - apply wp_ret. exists O, ts. split_and!; done || lia.
Qed.

Lemma back_complete n : ∀ f c t s ts, At s (replicate n (TSym 38) ++ ts) → (length buf - s < f)%nat → reads c t → hd_in [38] ts = false →
  wp False (back_loop buf f c) s (λ c' s', At s' ts ∧ (s ≤ s')%nat ∧ reads c' (Nat.iter n BACK t)).
Proof.
  induction n as [|n IH]; intros [|f] c t s ts Hat Hf Hc Hts; try lia; cbn [back_loop replicate app] in *; peeking Hat s1 Hs1 Hat1.
  - rewrite Hts. by apply wp_ret.
  - change (hd_in [38] (TSym 38 :: replicate n (TSym 38) ++ ts)) with true. cbn iota. taking Hat1 q s2 Hs2 Hat2 Hq.
    eapply wp_mono; [apply (IH f _ (BACK t) s2 ts Hat2); [destruct Hat2; lia | by constructor | done]|].
    intros c' s' (H1 & H2 & H3). rewrite Nat.iter_succ_r. split_and!; done || lia.
Qed.

(** ** The parser reads only what the grammar derives *)

Definition sound {G} (tokens : G → list token) (tree : G → cmd bytes) (ok : G → bool) (m : PM (cmd range)) (s : nat) : Prop :=
  ∀ ts, At s ts → wp True m s (λ c s', ∃ g ts', ts = tokens g ++ ts' ∧ At s' ts' ∧ (s ≤ s')%nat ∧ reads c (tree g) ∧ ok g = true).

Definition line_sound (f : nat) : Prop := ∀ s, (4 * (length buf - s) + 4 ≤ f)%nat → sound line_tokens line_cmd line_ok (parseline buf f) s.
Definition pipe_sound (f : nat) : Prop := ∀ s, (4 * (length buf - s) + 3 ≤ f)%nat → sound pipe_tokens pipe_cmd pipe_ok (parsepipe buf f) s.
Definition exec_sound (f : nat) : Prop := ∀ s, (4 * (length buf - s) + 2 ≤ f)%nat → sound exec_tokens exec_cmd exec_ok (parseexec buf f) s.
Definition block_sound (f : nat) : Prop := ∀ s, (4 * (length buf - s) + 1 ≤ f)%nat → sound exec_tokens exec_cmd exec_ok (parseblock buf f) s.

Lemma line_step f : line_sound f → pipe_sound f → line_sound (S f).
Proof.
  intros IHl IHp s Hf ts Hat. cbn [parseline]. apply wp_bind. eapply wp_mono; [by apply (IHp s ltac:(lia))|].
  intros c s1 (p & ts1 & -> & Hat1 & Hs1 & Hc & Hok). apply wp_bind. eapply wp_mono; [by apply (back_sound _ c (pipe_cmd p) s1 ts1 Hat1); [lia|]|].
  intros c2 s2 (n & ts2 & -> & Hat2 & Hs2 & Hc2). peeking Hat2 s3 Hs3 Hat3. destruct (hd_in _ ts2) eqn:E.
  - destruct (hd_in_one 59 ts2 ltac:(done) E) as [ts3 ->]. taking Hat3 q s4 Hs4 Hat4 Hq. apply wp_bind.
    eapply wp_mono; [apply (IHl s4); [destruct Hat4; lia | done]|]. intros c3 s5 (l & ts4 & -> & Hat5 & Hs5 & Hc3 & Hok').
    apply wp_ret. exists (LSeq p n l), ts4. cbn [line_tokens line_cmd line_ok]. rewrite Hok, Hok'.
    split_and!; [by rewrite <- !app_assoc | done | lia | by constructor | done].
  - apply wp_ret. exists (LOne p n), ts2. split_and!; [cbn [line_tokens]; by rewrite <- !app_assoc | done | lia | done | done].
Qed.

Lemma pipe_step f : pipe_sound f → exec_sound f → pipe_sound (S f).
Proof.
  intros IHp IHe s Hf ts Hat. cbn [parsepipe]. apply wp_bind. eapply wp_mono; [by apply (IHe s ltac:(lia))|].
  intros c s1 (e & ts1 & -> & Hat1 & Hs1 & Hc & Hok). peeking Hat1 s2 Hs2 Hat2. destruct (hd_in _ ts1) eqn:E.
  - destruct (hd_in_one 124 ts1 ltac:(done) E) as [ts2 ->]. taking Hat2 q s3 Hs3 Hat3 Hq. apply wp_bind.
    eapply wp_mono; [apply (IHp s3); [destruct Hat3; lia | done]|]. intros c2 s4 (p & ts3 & -> & Hat4 & Hs4 & Hc2 & Hok').
    apply wp_ret. exists (PBar e p), ts3. cbn [pipe_tokens pipe_cmd pipe_ok]. rewrite Hok, Hok'.
    split_and!; [by rewrite <- !app_assoc | done | lia | by constructor | done].
  - apply wp_ret. exists (POne e), ts1. by split_and!; [| |lia| |].
Qed.

Lemma exec_step f : block_sound f → exec_sound (S f).
Proof.
  intros IHb s Hf ts Hat. cbn [parseexec]. peeking Hat s1 Hs1 Hat1. destruct (hd_in _ ts).
  - eapply wp_mono; [apply (IHb s1); [lia | done]|]. intros c s2 (e & ts1 & -> & Hat2 & Hs2 & Hc & Hok). exists e, ts1. by split_and!; [| |lia| |].
  - apply wp_bind. eapply wp_mono; [apply (redirs_sound _ _ (EXEC []) s1 ts Hat1); [lia | by constructor; constructor]|].
    intros c s2 (rs & ts1 & -> & Hat2 & Hs2 & Hc & _).
    eapply wp_mono; [apply (args_sound (S (length buf)) 0 c _ s2 ts1 Hat2 ltac:(lia) ltac:(unfold MAXARGS; lia) Hc)|].
    intros c' s3 (l & ts2 & -> & Hat3 & Hs3 & Hc' & Hok). exists (Simple ((inr <$> rs) ++ l)), ts2. rewrite simple_items, foldl_app, take_redirs.
    cbn [exec_tokens exec_ok]. rewrite items_app, items_redirs, args_redirs, <- app_assoc. split_and!; [done | done | lia | done|].
    by apply Nat.ltb_lt.
Qed.

Lemma block_step f : line_sound f → block_sound (S f).
Proof.
  intros IHl s Hf ts Hat. cbn [parseblock]. peeking Hat s1 Hs1 Hat1. destruct (hd_in _ ts) eqn:E; cbn [negb]; [|done].
  destruct (hd_in_one 40 ts ltac:(done) E) as [ts1 ->]. taking Hat1 q s2 Hs2 Hat2 Hq. apply wp_bind.
  eapply wp_mono; [apply (IHl s2); [destruct Hat2; lia | done]|]. intros c s3 (l & ts2 & -> & Hat3 & Hs3 & Hc & Hok).
  peeking Hat3 s4 Hs4 Hat4. destruct (hd_in [41] ts2) eqn:E2; cbn [negb]; [|done]. destruct (hd_in_one 41 ts2 ltac:(done) E2) as [ts3 ->].
  taking Hat4 q2 s5 Hs5 Hat5 Hq2. eapply wp_mono; [apply (redirs_sound _ _ (line_cmd l) s5 ts3 Hat5); [lia | done]|].
  intros c' s6 (rs & ts4 & -> & Hat6 & Hs6 & Hc' & _). exists (Block l rs), ts4. cbn [exec_tokens app]. split_and!; [|done | lia | done | done].
  by rewrite <- app_assoc.
Qed.

Lemma parser_sound f : line_sound f ∧ pipe_sound f ∧ exec_sound f ∧ block_sound f.
Proof.
  induction f as [|f (IHl & IHp & IHe & IHb)]; [split_and!; intros s Hf; lia|].
  split_and!; [by apply line_step | by apply pipe_step | by apply exec_step | by apply block_step].
Qed.

(** ** The parser reads everything the grammar derives *)

Definition complete {G} (tokens : G → list token) (tree : G → cmd bytes) (ok : G → bool) (toks : bytes) (m : PM (cmd range)) (s : nat) : Prop :=
  ∀ g ts, At s (tokens g ++ ts) → ok g = true → after toks ts → wp False m s (λ c s', At s' ts ∧ (s ≤ s')%nat ∧ reads c (tree g)).

Definition line_complete (f : nat) : Prop :=
  ∀ s, (4 * (length buf - s) + 4 ≤ f)%nat → complete line_tokens line_cmd line_ok [41] (parseline buf f) s.
Definition pipe_complete (f : nat) : Prop :=
  ∀ s, (4 * (length buf - s) + 3 ≤ f)%nat → complete pipe_tokens pipe_cmd pipe_ok [41; 38; 59] (parsepipe buf f) s.
Definition exec_complete (f : nat) : Prop :=
  ∀ s, (4 * (length buf - s) + 2 ≤ f)%nat → complete exec_tokens exec_cmd exec_ok [124; 41; 38; 59] (parseexec buf f) s.
Definition block_complete (f : nat) : Prop :=
  ∀ s l rs ts, (4 * (length buf - s) + 1 ≤ f)%nat → At s (exec_tokens (Block l rs) ++ ts) → line_ok l = true → after_simple ts →
    wp False (parseblock buf f) s (λ c s', At s' ts ∧ (s ≤ s')%nat ∧ reads c (exec_cmd (Block l rs))).

(** The pipeline of a line, and the [&]s after it. *)
Lemma backs_complete f s p n ts : pipe_complete f → (4 * (length buf - s) + 3 ≤ f)%nat → At s (pipe_tokens p ++ replicate n (TSym 38) ++ ts) →
  pipe_ok p = true → after [41; 59] ts →
  wp False (c ← parsepipe buf f; back_loop buf (S (length buf)) c) s
    (λ c s', At s' ts ∧ (s ≤ s')%nat ∧ reads c (Nat.iter n BACK (pipe_cmd p))).
Proof.
  intros IHp Hf Hat Hok Hts. apply wp_bind. eapply wp_mono; [apply (IHp s Hf p _ Hat Hok)|].
  - destruct n; [by eapply after_mono | by right].
  - intros c s1 (Hat1 & Hs1 & Hc). eapply wp_mono; [apply (back_complete n (S (length buf)) c (pipe_cmd p) s1 ts Hat1 ltac:(lia) Hc); by eapply after_not|].
    intros c' s2 (H1 & H2 & H3). split_and!; done || lia.
Qed.

Lemma wp_assoc {A B C} E (m : PM A) (g : A → PM B) (h : B → PM C) s P :
  wp E (b ← (a ← m; g a); h b) s P → wp E (a ← m; b ← g a; h b) s P.
Proof. unfold wp, mbind, M_bind. by destruct (m s) as [[a s']| | |]. Qed.

Lemma line_step' f : line_complete f → pipe_complete f → line_complete (S f).
Proof.
  intros IHl IHp s Hf g ts Hat Hok Hts. cbn [parseline]. apply wp_assoc, wp_bind. destruct g as [p n|p n l]; cbn [line_tokens line_ok line_cmd] in *.
  - rewrite <- app_assoc in Hat. eapply wp_mono; [apply (backs_complete f s p n ts IHp ltac:(lia) Hat Hok); by eapply after_mono|].
    intros c s1 (Hat1 & Hs1 & Hc). peeking Hat1 s2 Hs2 Hat2. rewrite (after_not _ _ _ Hts) by done. apply wp_ret. split_and!; done || lia.
  - apply andb_prop in Hok as [Hok Hok']. rewrite <- !app_assoc in Hat. cbn [app] in Hat.
    eapply wp_mono; [apply (backs_complete f s p n _ IHp ltac:(lia) Hat Hok); by right|].
    intros c s1 (Hat1 & Hs1 & Hc). peeking Hat1 s2 Hs2 Hat2. change (hd_in [59] (TSym 59 :: line_tokens l ++ ts)) with true. cbn iota.
    taking Hat2 q s3 Hs3 Hat3 Hq. apply wp_bind. eapply wp_mono; [apply (IHl s3 ltac:(destruct Hat3; lia) l ts Hat3 Hok' Hts)|].
    intros c' s4 (H1 & H2 & H3). apply wp_ret. split_and!; [done | lia | by constructor].
Qed.

Lemma pipe_step' f : pipe_complete f → exec_complete f → pipe_complete (S f).
Proof.
  intros IHp IHe s Hf g ts Hat Hok Hts. cbn [parsepipe]. apply wp_bind. destruct g as [e|e p]; cbn [pipe_tokens pipe_ok pipe_cmd] in *.
  - eapply wp_mono; [apply (IHe s ltac:(lia) e ts Hat Hok); by eapply after_mono|].
    intros c s1 (Hat1 & Hs1 & Hc). peeking Hat1 s2 Hs2 Hat2. rewrite (after_not _ _ _ Hts) by done. apply wp_ret. split_and!; done || lia.
  - apply andb_prop in Hok as [Hok Hok']. rewrite <- app_assoc in Hat. eapply wp_mono; [apply (IHe s ltac:(lia) e _ Hat Hok); by right|].
    intros c s1 (Hat1 & Hs1 & Hc). cbn [app] in Hat1. peeking Hat1 s2 Hs2 Hat2. change (hd_in [124] (TSym 124 :: pipe_tokens p ++ ts)) with true. cbn iota.
    taking Hat2 q s3 Hs3 Hat3 Hq. apply wp_bind. eapply wp_mono; [apply (IHp s3 ltac:(destruct Hat3; lia) p ts Hat3 Hok' Hts)|].
    intros c' s4 (H1 & H2 & H3). apply wp_ret. split_and!; [done | lia | by constructor].
Qed.

Lemma exec_step' f : block_complete f → exec_complete (S f).
Proof.
  intros IHb s Hf g ts Hat Hok Hts. cbn [parseexec]. peeking Hat s1 Hs1 Hat1. destruct g as [l|l rs]; cbn [exec_ok] in Hok.
  - cbn [exec_tokens] in *. destruct (items_split l) as (rs & k & -> & Hk). rewrite items_app, items_redirs, <- app_assoc in *.
    assert (hd_in [40] (redirs_tokens rs ++ items_tokens k ++ ts) = false) as ->.
    { destruct rs as [|[[] w] rs]; [|done..]. destruct Hk as [->|(w & k' & ->)]; [by eapply after_not | done]. }
    rewrite args_redirs in Hok. apply Nat.ltb_lt in Hok. rewrite simple_items, foldl_app, take_redirs.
    apply wp_bind. eapply wp_mono; [apply (redirs_complete _ rs _ (EXEC []) s1 (items_tokens k ++ ts) Hat1); [lia | by constructor; constructor|]|].
    { destruct Hk as [->|(w & k' & ->)]; [by eapply after_not | done]. }
    intros c s2 (Hat2 & Hs2 & Hc). eapply wp_mono; [apply (args_complete (S (length buf)) k 0 c _ s2 ts Hat2 Hk ltac:(lia) Hok Hc Hts)|].
    intros c' s3 (H1 & H2 & H3). split_and!; done || lia.
  - change (hd_in [40] (exec_tokens (Block l rs) ++ ts)) with true. cbn iota.
    eapply wp_mono; [apply (IHb s1 l rs ts ltac:(lia) Hat1 Hok Hts)|]. intros c s2 (H1 & H2 & H3). split_and!; done || lia.
Qed.

Lemma block_step' f : line_complete f → block_complete (S f).
Proof.
  intros IHl s l rs ts Hf Hat Hok Hts. cbn [parseblock]. cbn [exec_tokens app exec_cmd] in *. rewrite <- app_assoc in Hat. cbn [app] in Hat.
  peeking Hat s1 Hs1 Hat1. change (hd_in [40] (TSym 40 :: line_tokens l ++ TSym 41 :: redirs_tokens rs ++ ts)) with true. cbn [negb].
  taking Hat1 q s2 Hs2 Hat2 Hq. apply wp_bind. eapply wp_mono; [apply (IHl s2 ltac:(destruct Hat2; lia) l _ Hat2 Hok); by right|].
  intros c s3 (Hat3 & Hs3 & Hc). peeking Hat3 s4 Hs4 Hat4. change (hd_in [41] (TSym 41 :: redirs_tokens rs ++ ts)) with true. cbn [negb].
  taking Hat4 q2 s5 Hs5 Hat5 Hq2. eapply wp_mono; [apply (redirs_complete _ rs _ (line_cmd l) s5 ts Hat5); [lia | done | by eapply after_not]|].
  intros c' s6 (H1 & H2 & H3). split_and!; done || lia.
Qed.

Lemma parser_complete f : line_complete f ∧ pipe_complete f ∧ exec_complete f ∧ block_complete f.
Proof.
  induction f as [|f (IHl & IHp & IHe & IHb)]; [split_and!; intros s *; lia|].
  split_and!; [by apply line_step' | by apply pipe_step' | by apply exec_step' | by apply block_step'].
Qed.
End parse.

(** ** parsecmd *)

Lemma parse_sound s ts : at_tokens s 0 ts →
  match parse s with
  | Ok (c, p) => ∃ l ts', ts = line_tokens l ++ ts' ∧ at_tokens s p ts' ∧ cmd_rel (is_word s) c (line_cmd l) ∧ line_ok l = true
  | Panic _ => True
  | _ => False
  end.
Proof.
  intros Hat. change (wp True (c ← parseline s (4 * length s + 4); peek s [];; mret c) 0 (λ c p, ∃ l ts', ts = line_tokens l ++ ts' ∧
    at_tokens s p ts' ∧ cmd_rel (is_word s) c (line_cmd l) ∧ line_ok l = true)).
  apply wp_bind. destruct (parser_sound s (4 * length s + 4)) as [H _].
  eapply wp_mono; [apply (H 0%nat ltac:(lia) ts Hat)|]. intros c s1 (l & ts' & -> & Hat1 & _ & Hc & Hok).
  apply wp_bind. eapply wp_peek; [constructor | exact Hat1|]. intros s2 _ Hat2 _. apply wp_ret. by exists l, ts'.
Qed.

Lemma parse_complete s l : at_tokens s 0 (line_tokens l) → line_ok l = true →
  ∃ c, parse s = Ok (c, length s) ∧ cmd_rel (is_word s) c (line_cmd l).
Proof.
  intros Hat Hok.
  assert (H : match parse s with Ok (c, p) => p = length s ∧ cmd_rel (is_word s) c (line_cmd l) | _ => False end).
  { change (wp False (c ← parseline s (4 * length s + 4); peek s [];; mret c) 0 (λ c p, p = length s ∧ cmd_rel (is_word s) c (line_cmd l))).
    apply wp_bind. destruct (parser_complete s (4 * length s + 4)) as [H _]. rewrite <- (app_nil_r (line_tokens l)) in Hat.
    eapply wp_mono; [apply (H 0%nat ltac:(lia) l [] Hat Hok); by left|]. intros c s1 (Hat1 & _ & Hc).
    apply wp_bind. eapply wp_peek; [constructor | exact Hat1|]. intros s2 _ _ Hs2. apply wp_ret. split; [by apply Hs2 | done]. }
  destruct (parse s) as [[c p]| | |]; [|done..]. destruct H as [-> H]. by exists c.
Qed.

(** A message is written before anything else. *)
Lemma fprintf_not_ret {A} fd m (k : prog A) t : (each (m ++ [10]) (putc fd);; k) ≠ Ret t.
Proof. intros H%(f_equal observe). by destruct m. Qed.

Lemma sh_panic_not_ret {A} m (t : A) : sh_panic m ≠ Ret t.
Proof.
  unfold sh_panic, fprintf, vprintf. change (chars _) with [37; 115; 10]. cbn [length].
  rewrite (vformat_s 2 [10] m [] [10]) by done. apply fprintf_not_ret.
Qed.

Lemma leftovers_not_ret {A} m (k : prog A) t : (fprintf 2 "leftovers: %s
" [AStr (Some m)];; k) ≠ Ret t.
Proof.
  unfold fprintf, vprintf. change (chars _) with [108; 101; 102; 116; 111; 118; 101; 114; 115; 58; 32; 37; 115; 10].
  assert (H : vformat 15 false [108; 101; 102; 116; 111; 118; 101; 114; 115; 58; 32; 37; 115; 10] [AStr (Some m)] =
    Some ((chars "leftovers: " ++ m) ++ [10])).
  { rewrite <- app_assoc. change (chars _) with [108; 101; 102; 116; 111; 118; 101; 114; 115; 58; 32]. cbn [app].
    do 11 (apply vformat_char; [done|]). by apply vformat_s. }
  cbn [length]. rewrite H. apply fprintf_not_ret.
Qed.

(** C15. For a line without NULs, [parsecmd] returns a command exactly when the tokens of the line
    are derived by the grammar, however they are spaced, and the simple commands have less than
    [MAXARGS] arguments; the command is that of the derivation, its strings are the words, ended
    in place.  On other lines the shell prints a message and exits; the parser always ends. *)
Theorem parsecmd_spec s : (0 ∉ s) →
  (∀ t, parsecmd s = mret t ↔ ∃ l, spelled (line_tokens l) s ∧ line_ok l = true ∧ t = line_cmd l) ∧
  ((∃ c p, parse s = Ok (c, p)) ∨ ∃ msg, parse s = Panic msg).
Proof.
  intros H0. destruct (spelled_total s H0) as [ts Hts].
  assert (Hat : at_tokens s 0 ts) by (split; [lia | by rewrite drop_0]). pose proof (parse_sound s ts Hat) as Hs. split.
  - intros t. split.
    + unfold parsecmd. destruct (parse s) as [[c p]|msg| |]; [|intros []%sh_panic_not_ret | done..].
      destruct Hs as (l & ts' & -> & [Hp Hsp] & Hc & Hok). destruct (Nat.eqb_spec p (length s)) as [->|]; cbn [negb]; [|intros []%leftovers_not_ret].
      rewrite nulterminate_strings with (t := line_cmd l) by done. intros [= <-]. exists l. split_and!; [|done | done].
      rewrite drop_all in Hsp. apply spelled_nil_inv in Hsp as ->. by rewrite app_nil_r in Hts.
    + intros (l & Hl & Hok & ->). destruct (parse_complete s l) as (c & E & Hc); [split; [lia | by rewrite drop_0] | done|].
      unfold parsecmd. rewrite E, Nat.eqb_refl. cbn [negb]. by rewrite nulterminate_strings with (t := line_cmd l).
  - destruct (parse s) as [[c p]|msg| |]; [left; eauto | right; eauto | done..].
Qed.

(** [ls |wc>o&] *)
Lemma parsecmd_spec_witness :
  parsecmd [108; 115; 32; 124; 119; 99; 62; 111; 38] =
  mret (BACK (PIPE (EXEC [[108; 115]]) (REDIR (EXEC [[119; 99]]) [111] 0x601 1))).
Proof.
  apply (parsecmd_spec [108; 115; 32; 124; 119; 99; 62; 111; 38]); [by apply (bool_decide_unpack _)|].
  exists (LOne (PBar (Simple [inl [108; 115]]) (POne (Simple [inl [119; 99]; inr (ROut, [111])]))) 1).
  split_and!; [|done | done]. exists [], [108; 115; 32; 124; 119; 99; 62; 111; 38]. split_and!; [done | constructor|].
  apply (bare_cons (TWord [108; 115]) [32] [124; 119; 99; 62; 111; 38]); [split_and!; [done | by repeat constructor | by right] | by repeat constructor|].
  apply (bare_cons (TSym 124) [] [119; 99; 62; 111; 38]); [by split | constructor|].
  apply (bare_cons (TWord [119; 99]) [] [62; 111; 38]); [split_and!; [done | by repeat constructor | by right] | constructor|].
  apply (bare_cons (TSym 62) [] [111; 38]); [by split | constructor|].
  apply (bare_cons (TWord [111]) [] [38]); [split_and!; [done | by repeat constructor | by right] | constructor|].
  apply (bare_cons (TSym 38) [] []); [by split | constructor | constructor].
Defined.
