(* ===== verification/ShRun.v ===== *)
(** * ShRun: the processes and descriptors of a command (src/user/sh.c)

    An environment for [runcmd]: a descriptor table in which a call takes the lowest free slot,
    and the answers [fork] gives to the process that is followed.  The theorems say with which
    descriptors the processes of a command go on. *)

From S2P Require Import Prelude Mem Fs Printf Sysfile User Ulib Uprintf Sh.
From ITree Require Import ITree ITreeFacts Events.State Events.StateFacts.

Local Open Scope Z_scope.

(** What a descriptor refers to: what was there before, an opened file, an end of a pipe. *)
Inductive fobj := Inherited (n : nat) | Opened (path : bytes) (mode : Z) | PipeR (id : nat) | PipeW (id : nat).

Abbreviation fdtable := (list (option fobj)).

(** [fdalloc] and [close]. *)
Definition fd_alloc (t : fdtable) (x : fobj) : option (nat * fdtable) :=
  match list_find (λ o, o = None) t with
  | Some (i, _) => Some (i, <[i := Some x]> t)
  | None => None
  end.
Definition fd_get (t : fdtable) (fd : Z) : option fobj := if fd <? 0 then None else mjoin (t !! Z.to_nat fd).
Definition fd_close (t : fdtable) (fd : Z) : fdtable := <[Z.to_nat fd := None]> t.

Record proc := mkProc { p_forks : list Z; p_fds : fdtable; p_pipes : nat }.
Definition with_fds (p : proc) (t : fdtable) : proc := mkProc (p_forks p) t (p_pipes p).

(** What is left to see of a process. *)
Variant procE : Type → Type :=
  | Execs (path : bytes) (argv : list bytes) (t : fdtable) : procE Z
  | Exits (status : Z) : procE void
  | Waits : procE Z
  | Calls {R} (e : sysE R) : procE R.

Section runs.
  Context (can_open : bytes → Z → bool).

Definition proc_handler : sysE ~> Monads.stateT proc (itree procE) := λ R e p,
  match e in sysE R return itree procE (proc * R) with
  | SysFork =>
      match p_forks p with
      | [] => Ret (p, -1)
      | pid :: l => Ret (mkProc l (p_fds p) (p_pipes p), pid)
      end
  | SysPipe =>
      match fd_alloc (p_fds p) (PipeR (p_pipes p)) with
      | Some (r, t) =>
          match fd_alloc t (PipeW (p_pipes p)) with
          | Some (w, t') => Ret (mkProc (p_forks p) t' (S (p_pipes p)), Some (Z.of_nat r, Z.of_nat w))
          | None => Ret (p, None)
          end
      | None => Ret (p, None)
      end
  | SysDup fd =>
      match fd_get (p_fds p) fd with
      | Some x => match fd_alloc (p_fds p) x with Some (i, t) => Ret (with_fds p t, Z.of_nat i) | None => Ret (p, -1) end
      | None => Ret (p, -1)
      end
  | SysClose fd =>
      match fd_get (p_fds p) fd with
      | Some _ => Ret (with_fds p (fd_close (p_fds p) fd), 0)
      | None => Ret (p, -1)
      end
  | SysOpen path mode =>
      if can_open path mode then
        match fd_alloc (p_fds p) (Opened path mode) with Some (i, t) => Ret (with_fds p t, Z.of_nat i) | None => Ret (p, -1) end
      else Ret (p, -1)
  | SysExec path argv => ITree.map (λ r, (p, r)) (ITree.trigger (Execs path argv (p_fds p)))
  | SysExit st => Vis (Exits st) (λ v : void, match v with end)
  | SysWait => ITree.map (λ r, (p, r)) (ITree.trigger Waits)
  | e' => ITree.map (λ r, (p, r)) (ITree.trigger (Calls e'))
  end.

Definition run {A} (t : prog A) (p : proc) : itree procE (proc * A) := interp_state proc_handler t p.

(** ** Steps *)

Lemma run_then {A B} (t : prog A) (k : A → prog B) p p' a : run t p ≈ Ret (p', a) → run (x ← t; k x) p ≈ run (k a) p'.
Proof. apply handled_then. Qed.

Lemma run_sys {R} (e : sysE R) p p' r : proc_handler R e p = Ret (p', r) → run (sys e) p ≈ Ret (p', r).
Proof. intros H. apply handled_call. rewrite H. reflexivity. Qed.

Lemma run_wait {B} (k : Z → prog B) p : run (x ← sys SysWait; k x) p ≈ Vis Waits (λ r, run (k r) p).
Proof.
  unfold run, sys, mbind, prog_bind. rewrite interp_state_bind, interp_state_trigger. cbn. unfold ITree.map, ITree.trigger.
  rewrite bind_vis, bind_vis. apply eqit_Vis. intros r. rewrite !bind_ret_l. reflexivity.
Qed.

Lemma run_exit {A} st p : run (exit (A := A) st) p ≈ Vis (Exits st) (λ v : void, match v with end).
Proof. unfold run, exit. rewrite interp_state_vis. cbn. rewrite bind_vis. apply eqit_Vis. intros []. Qed.

Lemma run_fork1 pid l t n : pid ≠ -1 → run fork1 (mkProc (pid :: l) t n) ≈ Ret (mkProc l t n, pid).
Proof.
  intros Hp. unfold fork1. rewrite (run_then _ _ _ (mkProc l t n) pid) by by apply run_sys. destruct (Z.eqb_spec pid (-1)); [done|].
  apply handled_ret.
Qed.

(** ** Descriptors *)

Lemma fd_alloc_first pre post x : Forall is_Some pre → fd_alloc (pre ++ None :: post) x = Some (length pre, pre ++ Some x :: post).
Proof.
  intros Hpre. unfold fd_alloc. assert (E : list_find (λ o : option fobj, o = None) (pre ++ None :: post) = Some (length pre, None)).
  { apply list_find_Some. split_and!; [by apply list_lookup_middle | done|]. intros j y Hj Hlt. rewrite lookup_app_l in Hj by done.
    rewrite Forall_lookup in Hpre. by destruct (Hpre j y Hj) as [z ->]. }
  rewrite E. by rewrite insert_app_r_alt, Nat.sub_diag.
Qed.

Lemma fd_get_mid (pre post : fdtable) o : fd_get (pre ++ o :: post) (Z.of_nat (length pre)) = o.
Proof. unfold fd_get. destruct (Z.ltb_spec (Z.of_nat (length pre)) 0); [lia|]. rewrite Nat2Z.id, list_lookup_middle by done. done. Qed.

Lemma fd_close_mid (pre post : fdtable) o : fd_close (pre ++ o :: post) (Z.of_nat (length pre)) = pre ++ None :: post.
Proof. unfold fd_close. rewrite Nat2Z.id, insert_app_r_alt, Nat.sub_diag by done. done. Qed.

(** Calls on a table whose slot at the end of [pre] is at hand. *)
Lemma run_close pre post x l n fd : fd = Z.of_nat (length pre) →
  run (sys (SysClose fd)) (mkProc l (pre ++ Some x :: post) n) ≈ Ret (mkProc l (pre ++ None :: post) n, 0).
Proof. intros ->. apply run_sys. cbn. by rewrite fd_get_mid, fd_close_mid. Qed.

Lemma run_dup pre post x l n fd : Forall is_Some pre → fd_get (pre ++ None :: post) fd = Some x →
  run (sys (SysDup fd)) (mkProc l (pre ++ None :: post) n) ≈ Ret (mkProc l (pre ++ Some x :: post) n, Z.of_nat (length pre)).
Proof. intros Hpre Hx. apply run_sys. cbn. by rewrite Hx, fd_alloc_first. Qed.

Lemma run_open pre post l n path mode : Forall is_Some pre → can_open path mode = true →
  run (sys (SysOpen path mode)) (mkProc l (pre ++ None :: post) n) ≈
  Ret (mkProc l (pre ++ Some (Opened path mode) :: post) n, Z.of_nat (length pre)).
Proof. intros Hpre Hx. apply run_sys. cbn. by rewrite Hx, fd_alloc_first. Qed.

Lemma run_pipe pre mid post l n : Forall is_Some pre → Forall is_Some mid →
  run (sys SysPipe) (mkProc l (pre ++ None :: mid ++ None :: post) n) ≈
  Ret (mkProc l (pre ++ Some (PipeR n) :: mid ++ Some (PipeW n) :: post) (S n),
       Some (Z.of_nat (length pre), Z.of_nat (length pre + S (length mid)))).
Proof.
  intros Hpre Hmid. apply run_sys. cbn. rewrite fd_alloc_first by done.
  change (pre ++ Some (PipeR n) :: mid ++ None :: post) with (pre ++ (Some (PipeR n) :: mid) ++ None :: post). rewrite app_assoc.
  rewrite fd_alloc_first by (apply Forall_app; split; [done | by constructor]). rewrite length_app, <- app_assoc. done.
Qed.

(** Both ends of the pipe are closed again. *)
Lemma run_close_ends {B} pre mid post x y l n (k : prog B) :
  run (sys (SysClose (Z.of_nat (length pre)));; sys (SysClose (Z.of_nat (length pre + S (length mid))));; k)
    (mkProc l (pre ++ Some x :: mid ++ Some y :: post) n) ≈ run k (mkProc l (pre ++ None :: mid ++ None :: post) n).
Proof.
  rewrite run_then by by apply run_close. cbn beta.
  change (pre ++ None :: mid ++ Some y :: post) with (pre ++ (None :: mid) ++ Some y :: post). rewrite app_assoc.
  rewrite run_then by (apply run_close; by rewrite length_app). cbn beta. by rewrite <- app_assoc.
Qed.
(** ** Commands *)

(** A redirection replaces a descriptor. *)
Lemma runcmd_redir c path mode pre post x l n :
  Forall is_Some pre → can_open path mode = true →
  run (runcmd (REDIR c path mode (Z.of_nat (length pre)))) (mkProc l (pre ++ Some x :: post) n) ≈
  run (runcmd c) (mkProc l (pre ++ Some (Opened path mode) :: post) n).
Proof.
  intros Hpre Ho. cbn [runcmd]. rewrite run_then by by apply run_close. cbn beta. rewrite run_then by by apply run_open.
  destruct (Z.ltb_spec (Z.of_nat (length pre)) 0); [lia | reflexivity].
Qed.

Section pipe.
  Context (pre mid post : fdtable) (Hpre : Forall is_Some pre) (Hmid : Forall is_Some mid).

(** A table with 0 and 1 in use and two free slots, and its first two slots changed. *)
Definition std (x y : fobj) : fdtable := Some x :: Some y :: pre ++ None :: mid ++ None :: post.

Lemma runcmd_pipe_left c d l x y n : run (runcmd (PIPE c d)) (mkProc (0 :: l) (std x y) n) ≈ run (runcmd c) (mkProc l (std x (PipeW n)) (S n)).
Proof.
  cbn [runcmd]. unfold std. change (Some x :: Some y :: ?t) with ((Some x :: Some y :: pre) ++ None :: mid ++ None :: post).
  rewrite run_then by (apply run_pipe; [by repeat constructor | done]). cbn beta iota. rewrite run_then by by apply run_fork1. cbn beta iota zeta.
  cbn [Z.eqb app]. rewrite run_then by by apply (run_close [Some x]). cbn beta.
  rewrite run_then; [|apply (run_dup [Some x] _ (PipeW n)); [by repeat constructor|]].
  - cbn beta. apply (run_close_ends (Some x :: Some (PipeW n) :: pre) mid post (PipeR n) (PipeW n)).
  - change ([Some x] ++ None :: pre ++ Some (PipeR n) :: mid ++ Some (PipeW n) :: post) with
      ((Some x :: None :: pre) ++ (Some (PipeR n) :: mid) ++ Some (PipeW n) :: post). rewrite app_assoc.
    replace (length (Some x :: Some y :: pre) + S (length mid))%nat with (length ((Some x :: None :: pre) ++ Some (PipeR n) :: mid)).
    + apply fd_get_mid.
    + rewrite length_app. done.
Qed.

Lemma runcmd_pipe_right c d pid l x y n : 0 < pid →
  run (runcmd (PIPE c d)) (mkProc (pid :: 0 :: l) (std x y) n) ≈ run (runcmd d) (mkProc l (std (PipeR n) y) (S n)).
Proof.
  intros Hp. cbn [runcmd]. unfold std. change (Some x :: Some y :: ?t) with ((Some x :: Some y :: pre) ++ None :: mid ++ None :: post).
  rewrite run_then by (apply run_pipe; [by repeat constructor | done]). cbn beta iota. rewrite run_then by (apply run_fork1; lia). cbn beta.
  destruct (Z.eqb_spec pid 0); [lia|]. rewrite run_then by by apply run_fork1. cbn beta iota zeta.
  cbn [Z.eqb app]. rewrite run_then by by apply (run_close []). cbn beta.
  rewrite run_then; [|apply (run_dup [] _ (PipeR n)); [by repeat constructor|]].
  - cbn beta. apply (run_close_ends (Some (PipeR n) :: Some y :: pre) mid post (PipeR n) (PipeW n)).
  - apply (fd_get_mid (None :: Some y :: pre) _ (Some (PipeR n))).
Qed.

(** The shell closes both ends, waits for the two processes and exits. *)
Lemma runcmd_pipe_parent c d pid pid' l x y n : 0 < pid → 0 < pid' →
  run (runcmd (PIPE c d)) (mkProc (pid :: pid' :: l) (std x y) n) ≈
  Vis Waits (λ _, Vis Waits (λ _, Vis (Exits 0) (λ v : void, match v with end))).
Proof.
  intros Hp Hp'. cbn [runcmd]. unfold std. change (Some x :: Some y :: ?t) with ((Some x :: Some y :: pre) ++ None :: mid ++ None :: post).
  rewrite run_then by (apply run_pipe; [by repeat constructor | done]). cbn beta iota. rewrite run_then by (apply run_fork1; lia). cbn beta.
  destruct (Z.eqb_spec pid 0); [lia|]. rewrite run_then by (apply run_fork1; lia). cbn beta. destruct (Z.eqb_spec pid' 0); [lia|].
  rewrite (run_close_ends (Some x :: Some y :: pre) mid post (PipeR n) (PipeW n)). rewrite run_wait. apply eqit_Vis. intros r.
  rewrite run_wait. apply eqit_Vis. intros r'. apply run_exit.
Qed.

(** [c | c1 | c2 | ...] *)
Fixpoint pipes (c : cmd bytes) (cs : list (cmd bytes)) : cmd bytes := match cs with [] => c | c' :: cs' => PIPE c (pipes c' cs') end.

(** C31. In a pipeline, the process that goes on after [pids] first children runs the command at
    that place; its standard input is the read end of the pipe before it, its standard output
    the write end of the pipe after it, and its other descriptors are the shell's. *)
Theorem runcmd_pipeline cs : ∀ c j cj pids l x y n,
  (c :: cs) !! j = Some cj → length pids = j → Forall (λ pid, 0 < pid) pids →
  run (runcmd (pipes c cs)) (mkProc (concat ((λ pid, [pid; 0]) <$> pids) ++ (if (j <? length cs)%nat then [0] else []) ++ l) (std x y) n) ≈
  run (runcmd cj) (mkProc l (std (if (j =? 0)%nat then x else PipeR (n + j - 1)) (if (j <? length cs)%nat then PipeW (n + j) else y))
    (n + Nat.min (S j) (length cs))).
Proof.
  induction cs as [|d cs IH]; intros c j cj pids l x y n Hj Hl Hpids; (destruct pids as [|pid pids]; cbn [length] in Hl; subst j).
  - injection Hj as ->. cbn. by rewrite Nat.add_0_r.
  - by destruct pids.
  - injection Hj as ->. cbn [pipes fmap list_fmap concat app length Nat.ltb Nat.leb Nat.eqb Nat.min]. rewrite runcmd_pipe_left.
    rewrite Nat.add_0_r, Nat.add_1_r. reflexivity.
  - apply Forall_cons in Hpids as [Hp Hpids]. cbn [pipes fmap list_fmap concat app length]. rewrite runcmd_pipe_right by done.
    change (S (length pids) <? S (length cs))%nat with (length pids <? length cs)%nat.
    rewrite (IH d (length pids) cj pids l (PipeR n) y (S n) Hj eq_refl Hpids).
    change (Nat.min (S (S (length pids))) (S (length cs))) with (S (Nat.min (S (length pids)) (length cs))).
    rewrite !Nat.add_succ_r. cbn [Nat.eqb Nat.add]. rewrite !Nat.sub_succ, !Nat.sub_0_r.
    destruct (Nat.eqb_spec (length pids) 0) as [->|]; [by rewrite Nat.add_0_r | reflexivity].
Qed.
End pipe.
End runs.

(** The second command of [a | b | c]. *)
Lemma runcmd_pipeline_witness :
  let t x y := [Some x; Some y; Some (Inherited 2); None; None] in
  run (λ _ _, true) (runcmd (PIPE (EXEC [[97]]) (PIPE (EXEC [[98]]) (EXEC [[99]])))) (mkProc [7; 0; 0] (t (Inherited 0) (Inherited 1)) 0) ≈
  run (λ _ _, true) (runcmd (EXEC [[98]])) (mkProc [] (t (PipeR 0) (PipeW 1)) 2).
Proof.
  apply (runcmd_pipeline (λ _ _, true) [Some (Inherited 2)] [] [] ltac:(by repeat constructor) ltac:(constructor)
    [EXEC [[98]]; EXEC [[99]]] (EXEC [[97]]) 1 (EXEC [[98]]) [7] [] (Inherited 0) (Inherited 1) 0); [done | done | by repeat constructor].
Defined.
