(* ===== verification/Mkfs.v ===== *)
(** * Mkfs: the program that builds the file-system image (src/mkfs/mkfs.c)

    The image is a function from sectors to blocks with a length; [die] and a failed [assert]
    are panics.  The host is little-endian, writes to the image succeed, and a file to copy is
    the chunks its reads return, [None] if it cannot be opened. *)

From stdpp Require Import functions.
From S2P Require Import Prelude Mem Layout FsFormat Bio Log Printf User Ulib FsInode.

Local Open Scope Z_scope.

Definition NINODES : Z := 200.
Definition nbitmap : Z := FSSIZE / BPB + 1.
Definition ninodeblocks : Z := NINODES / IPB + 1.
Definition nlog : Z := LOGSIZE.
Definition nmeta : Z := 2 + nlog + ninodeblocks + nbitmap.
Definition nblocks : Z := FSSIZE - nmeta.

(** The bytes of [y], lowest address first, are those of [x], lowest first. *)
Definition xshort (x : Z) : Z := ld16 (st8 (st8 ∅ 0 x) 1 (Z.shiftr x 8)) 0.
Definition xint (x : Z) : Z :=
  ld32 (st8 (st8 (st8 (st8 ∅ 0 x) 1 (Z.shiftr x 8)) 2 (Z.shiftr x 16)) 3 (Z.shiftr x 24)) 0.

Definition sb : superblock :=
  mkSuperblock FSMAGIC (xint FSSIZE) (xint nblocks) (xint NINODES) (xint nlog) (xint 2) (xint (2 + nlog)) (xint (2 + nlog + ninodeblocks)).

(** The image file and the globals. *)
Record mkstate := mkMk { img : Z → block; img_len : Z; freeinode : Z; freeblock : Z }.
Abbreviation MK := (M mkstate).

Definition wsect (sec : Z) (buf : block) : MK unit :=
  modify (λ s, mkMk (<[sec := buf]> (img s)) (Z.max (img_len s) (sec + 1)) (freeinode s) (freeblock s)).

(** A read past the end of the image is short. *)
Definition rsect (sec : Z) : MK block :=
  s ← get;
  if sec <? img_len s then mret (img s sec) else panic "read".

Definition winode (inum : Z) (ip : dinode) : MK unit :=
  let bn := IBLOCK inum sb in
  buf ← rsect bn;
  wsect bn (put_dinode buf (DINODE_SIZE * (inum mod IPB)) ip).

Definition rinode (inum : Z) : MK dinode :=
  buf ← rsect (IBLOCK inum sb);
  mret (get_dinode buf (DINODE_SIZE * (inum mod IPB))).

(** [freeinode++] and [freeblock++] *)
Definition next_inode : MK Z :=
  s ← get;
  put (mkMk (img s) (img_len s) (u32 (freeinode s + 1)) (freeblock s));;
  mret (freeinode s).
Definition next_block : MK Z :=
  s ← get;
  put (mkMk (img s) (img_len s) (freeinode s) (u32 (freeblock s + 1)));;
  mret (freeblock s).

Definition ialloc (type : Z) : MK Z :=
  inum ← next_inode;
  winode inum (mkDinode (i16 (xshort type)) 0 0 (i16 (xshort 1)) (xint 0) (replicate (Z.to_nat (NDIRECT + 1)) 0));;
  mret inum.

(** [for(i = 0; i < used; i++) buf[i/8] = buf[i/8] | (0x1 << (i%8));] *)
Fixpoint balloc_bits (k : nat) (i : Z) (buf : block) : block :=
  match k with
  | O => buf
  | S k' => balloc_bits k' (i + 1) (st8 buf (i / 8) (Z.lor (ld8 buf (i / 8)) (Z.shiftl 1 (i mod 8))))
  end.

Definition balloc (used : Z) : MK unit :=
  if negb (used <? BPB) then panic "used < BPB"
  else wsect (sb_bmapstart sb) (balloc_bits (Z.to_nat used) 0 ∅).

(** The bytes [l] at offset [o] of a block. *)
Fixpoint put_bytes (d : block) (o : Z) (l : bytes) : block :=
  match l with
  | [] => d
  | c :: l' => put_bytes (st8 d o c) (o + 1) l'
  end.

(** [if(xint(din.addrs[i]) == 0) din.addrs[i] = xint(freeblock++);] *)
Definition need_addr (din : dinode) (i : Z) : MK dinode :=
  if xint (daddr din i) =? 0 then b ← next_block; mret (set_daddr i (xint b) din) else mret din.

(** The block of the file that holds [off], and the inode that lists it. *)
Definition file_block (din : dinode) (fbn : Z) : MK (dinode * Z) :=
  if fbn <? NDIRECT then
    din ← need_addr din fbn;
    mret (din, xint (daddr din fbn))
  else
    din ← need_addr din NDIRECT;
    indirect ← rsect (xint (daddr din NDIRECT));
    let o := 4 * (fbn - NDIRECT) in
    indirect ←
      (if ld32 indirect o =? 0 then
         b ← next_block;
         let indirect := st32 indirect o (xint b) in
         wsect (xint (daddr din NDIRECT)) indirect;;
         mret indirect
       else mret indirect);
    mret (din, xint (ld32 indirect o)).

(** [while(n > 0)] *)
Fixpoint iappend_loop (fuel : nat) (din : dinode) (off : Z) (p : bytes) : MK (dinode * Z) :=
  match fuel with
  | O => out_of_fuel
  | S f =>
      let n := Z.of_nat (length p) in
      if 0 <? n then
        let fbn := off / BSIZE in
        if negb (fbn <? MAXFILE) then panic "fbn < MAXFILE"
        else
          '(din, x) ← file_block din fbn;
          let n1 := Z.min n ((fbn + 1) * BSIZE - off) in
          buf ← rsect x;
          wsect x (put_bytes buf (off - fbn * BSIZE) (take (Z.to_nat n1) p));;
          iappend_loop f din (off + n1) (drop (Z.to_nat n1) p)
      else mret (din, off)
  end.

Definition set_size (n : Z) (x : dinode) : dinode :=
  mkDinode (di_type x) (di_major x) (di_minor x) (di_nlink x) n (di_addrs x).

Definition iappend (inum : Z) (p : bytes) : MK unit :=
  din ← rinode inum;
  '(din, off) ← iappend_loop (S (S (S (Z.to_nat (Z.of_nat (length p) / BSIZE))))) din (xint (di_size din)) p;
  winode inum (set_size (xint off) din).

(** A [struct dirent] with a name of at most [DIRSIZ] characters. *)
Definition dirent (inum : Z) (name : bytes) : bytes :=
  let i := xshort inum in
  [u8 i; u8 (i / 256)] ++ name ++ replicate (Z.to_nat DIRSIZ - length name) 0.

(** [for(i = 0; i < FSSIZE; i++) wsect(i, zeroes);] *)
Fixpoint zero_sects (k : nat) (i : Z) : MK unit :=
  match k with
  | O => mret tt
  | S k' => wsect i ∅;; zero_sects k' (i + 1)
  end.

(** [memmove(buf, &sb, sizeof(sb))] *)
Definition put_sb (d : block) (x : superblock) : block :=
  st32 (st32 (st32 (st32 (st32 (st32 (st32 (st32 d 0 (sb_magic x)) 4 (sb_size x)) 8 (sb_nblocks x)) 12 (sb_ninodes x))
    16 (sb_nlog x)) 20 (sb_logstart x)) 24 (sb_inodestart x)) 28 (sb_bmapstart x).

(** The name of a file in the image: without [user/] and a leading underscore. *)
Definition shortname (arg : bytes) : bytes :=
  let s := if bool_decide (take 5 arg = [117; 115; 101; 114; 47]) then drop 5 arg else arg in
  if deref s =? 95 then tail s else s.

Fixpoint append_all (inum : Z) (l : list bytes) : MK unit :=
  match l with
  | [] => mret tt
  | c :: l' => iappend inum c;; append_all inum l'
  end.

(** The body of [for(i = 2; i < argc; i++)]. *)
Definition add_file (rootino : Z) (a : bytes * option (list bytes)) : MK unit :=
  let '(arg, file) := a in
  if bool_decide (47 ∈ shortname arg) then panic "index(shortname, '/') == 0"
  else
    match file with
    | None => panic "open"
    | Some chunks =>
        if negb (Z.of_nat (length (shortname arg)) <=? DIRSIZ) then panic "strlen(shortname) <= DIRSIZ"
        else
          inum ← ialloc T_FILE;
          iappend rootino (dirent inum (shortname arg));;
          append_all inum chunks
    end.

Fixpoint add_files (rootino : Z) (l : list (bytes * option (list bytes))) : MK unit :=
  match l with
  | [] => mret tt
  | a :: l' => add_file rootino a;; add_files rootino l'
  end.

Definition main (files : list (bytes * option (list bytes))) : MK unit :=
  modify (λ s, mkMk (img s) (img_len s) (freeinode s) nmeta);;
  zero_sects (Z.to_nat FSSIZE) 0;;
  wsect 1 (put_sb ∅ sb);;
  rootino ← ialloc T_DIR;
  if negb (rootino =? ROOTINO) then panic "rootino == ROOTINO"
  else
    iappend rootino (dirent rootino [46]);;
    iappend rootino (dirent rootino [46; 46]);;
    add_files rootino files;;
    din ← rinode rootino;
    let off := (xint (di_size din) / BSIZE + 1) * BSIZE in
    winode rootino (set_size (xint off) din);;
    s ← get;
    balloc (freeblock s).

(** The program's state when it starts. *)
Definition start : mkstate := mkMk (λ _, ∅) 0 1 0.
