(* ===== verification/MkfsSpec.v ===== *)
(** * MkfsSpec: the image mkfs builds is one the kernel can use (src/mkfs/mkfs.c)

    The image while it is built, seen with the bitmap it will have in the end, is a disk in the
    sense of the kernel's file system; an append to a file is a write to it there. *)

From stdpp Require Import functions.
From S2P Require Import Prelude Mem Layout FsFormat Bio Log LogCrash Fs FsTx FsBlocks FsInode FsFile FsDir Printf User Ulib Mkfs.

Local Open Scope Z_scope.

(** ** Bytes and words *)

Lemma xint_id x : 0 ≤ x < 2 ^ 32 → xint x = x.
Proof.
  intros Hx. unfold xint, ld32. cbn [ldle]. rewrite !ld8_st8.
  change (0 + 1 + 1 + 1) with 3. change (0 + 1 + 1) with 2. change (0 + 1) with 1. cbn [Z.eqb Pos.eqb].
  rewrite !Z.shiftr_div_pow2 by lia. unfold u8. zdiv.
Qed.

Lemma xshort_id x : 0 ≤ x < 2 ^ 16 → xshort x = x.
Proof.
  intros Hx. unfold xshort, ld16. cbn [ldle]. rewrite !ld8_st8. change (0 + 1) with 1. cbn [Z.eqb Pos.eqb].
  rewrite !Z.shiftr_div_pow2 by lia. unfold u8. zdiv.
Qed.

Lemma sb_eq : sb = mkSuperblock FSMAGIC 2000 1954 200 30 2 32 45.
Proof. unfold sb. rewrite !xint_id by (unfold nlog; vm_compute; split; congruence). reflexivity. Qed.

Lemma sb_fine : sb_wf sb.
Proof.
  rewrite sb_eq. split; vm_compute; repeat split; discriminate.
Qed.

Lemma sb_data : datastart sb = 46.
Proof. by rewrite sb_eq. Qed.

(** ** The bitmap *)

Lemma balloc_bits_spec k : ∀ i d j, 0 ≤ i → 0 ≤ j →
  bit (balloc_bits k i d) j = ((i <=? j) && (j <? i + Z.of_nat k)) || bit d j.
Proof.
  induction k as [|k IH]; intros i d j Hi Hj; cbn [balloc_bits].
  - by destruct (Z.leb_spec i j), (Z.ltb_spec j (i + Z.of_nat 0)); try lia.
  - rewrite IH, bit_set by lia. destruct (Z.leb_spec (i + 1) j), (Z.leb_spec i j), (Z.ltb_spec j (i + 1 + Z.of_nat k)),
      (Z.ltb_spec j (i + Z.of_nat (S k))); try lia; cbn [andb orb]; try done; try (rewrite bool_decide_false by lia; done).
    rewrite bool_decide_true by lia. done.
Qed.

(** The bitmap with the first [n] blocks in use. *)
Definition bits (n : Z) : block := balloc_bits (Z.to_nat n) 0 ∅.

Lemma bit_bits n j : 0 ≤ n → 0 ≤ j → bit (bits n) j = (j <? n).
Proof.
  intros Hn Hj. unfold bits. rewrite balloc_bits_spec by lia. unfold bit. change (ld8 ∅ (j / 8)) with 0.
  rewrite Z.bits_0, orb_false_r. destruct (Z.leb_spec 0 j); [|lia]. cbn [andb]. by rewrite Z.add_0_l, Z2Nat.id.
Qed.

(** ** The disk the image stands for *)

(** [C] is the image with the bitmap [balloc] would write now; blocks not yet in use are as
    they were cleared. *)
Record rep (s : mkstate) (C : Z → block) : Prop := {
  rp_len : img_len s = FSSIZE;
  rp_free : 46 ≤ freeblock s ≤ FSSIZE;
  rp_bits : C 45 = bits (freeblock s);
  rp_img n : n ≠ 45 → C n = img s n;
  rp_zero n : freeblock s ≤ n → img s n = ∅;
}.

Lemma rep_used s C n : rep s C → 0 ≤ n < FSSIZE → used sb C n = (n <? freeblock s).
Proof.
  intros H Hn. unfold FSSIZE in *. pose proof (rp_free _ _ H). unfold used, BBLOCK. rewrite sb_eq. cbn [sb_bmapstart]. change BPB with 8192.
  rewrite Z.div_small, Z.mod_small by lia. rewrite Z.add_0_l, (rp_bits _ _ H). apply bit_bits; lia.
Qed.

Lemma rep_meta s C : rep s C → meta_used sb C.
Proof.
  intros H n Hn. rewrite sb_data in Hn. pose proof (rp_free _ _ H). rewrite (rep_used s) by (done || unfold FSSIZE; lia).
  apply Z.ltb_lt. lia.
Qed.

(** Taking the next block. *)
Definition bump_block (s : mkstate) : mkstate := mkMk (img s) (img_len s) (freeinode s) (freeblock s + 1).

Lemma next_block_ok s C : rep s C → freeblock s < FSSIZE →
  next_block s = Ok (freeblock s, bump_block s) ∧
  rep (bump_block s) (<[45 := bits (freeblock s + 1)]> C) ∧ allocated sb C (freeblock s) (<[45 := bits (freeblock s + 1)]> C).
Proof.
  intros H Hf. pose proof (rp_free _ _ H) as Hfr. unfold FSSIZE in *. split.
  { unfold next_block. rewrite bind_get, bind_put. unfold bump_block. by rewrite u32_small by lia. }
  set (C1 := <[45 := bits (freeblock s + 1)]> C). assert (Hrep : rep (bump_block s) C1).
  { split; cbn [bump_block img img_len freeblock]; [apply H | unfold FSSIZE; lia | unfold C1; by rewrite fn_lookup_insert | |].
    - intros n Hn. unfold C1. rewrite fn_lookup_insert_ne by done. by apply H.
    - intros n Hn. apply (rp_zero _ _ H). lia. }
  split; [done|]. assert (Hu : ∀ n, 0 ≤ n < 2000 → used sb C1 n = bool_decide (n = freeblock s) || used sb C n).
  { intros n Hn. rewrite (rep_used _ _ _ Hrep), (rep_used _ _ _ H) by done. cbn.
    destruct (Z.ltb_spec n (freeblock s + 1)), (Z.ltb_spec n (freeblock s)); try lia; rewrite ?orb_true_r, ?orb_false_r; try done;
      symmetry; [apply bool_decide_true | apply bool_decide_false]; lia. }
  split; [|rewrite sb_eq; exact Hu|..]; rewrite ?sb_data.
  - split_and!; [lia | rewrite sb_eq; cbn; lia | |].
    + rewrite (rep_used _ _ _ H) by (unfold FSSIZE; lia). apply Z.ltb_ge. lia.
    + intros n Hn. rewrite (rep_used _ _ _ H) by (unfold FSSIZE; lia). apply Z.ltb_lt. lia.
  - intros n Hn _. unfold C1. by rewrite fn_lookup_insert_ne by lia.
  - rewrite sb_eq. cbn. intros n Hn. unfold C1. by rewrite fn_lookup_insert_ne by lia.
  - intros i Hi. unfold C1. rewrite fn_lookup_insert_ne by lia. rewrite (rp_img _ _ H) by lia. rewrite (rp_zero _ _ H) by lia. done.
Qed.

(** Reads and writes of sectors other than the bitmap. *)
Lemma rsect_ok s C n : rep s C → n ≠ 45 → n < FSSIZE → rsect n s = Ok (C n, s).
Proof.
  intros H Hn Hl. unfold rsect. rewrite bind_get, (rp_len _ _ H), (rp_img _ _ H) by done. by destruct (Z.ltb_spec n FSSIZE); [|lia].
Qed.

Definition wrote (n : Z) (v : block) (s : mkstate) : mkstate := mkMk (<[n := v]> (img s)) (img_len s) (freeinode s) (freeblock s).

Lemma wsect_ok s C n v : rep s C → n ≠ 45 → n < freeblock s → wsect n v s = Ok (tt, wrote n v s) ∧ rep (wrote n v s) (<[n := v]> C).
Proof.
  intros H Hn Hl. pose proof (rp_free _ _ H). split.
  - unfold wsect, modify, wrote. rewrite (rp_len _ _ H), Z.max_l by lia. done.
  - split; cbn [wrote img img_len freeblock]; [apply H | apply H | rewrite fn_lookup_insert_ne by done; apply H | |].
    + intros m Hm. destruct (decide (m = n)) as [->|]; [by rewrite !fn_lookup_insert|]. rewrite !fn_lookup_insert_ne by done. by apply H.
    + intros m Hm. rewrite fn_lookup_insert_ne by lia. by apply (rp_zero _ _ H).
Qed.

(** ** The blocks of a file *)

(** A file of [sz] bytes has the blocks it needs and no other. *)
Definition tight (C : Z → block) (d : dinode) (sz : Z) : Prop :=
  (∀ bn, 0 ≤ bn < MAXFILE → fblk C d bn ≠ 0 ↔ bn * BSIZE < sz) ∧ (ind d ≠ 0 ↔ NDIRECT * BSIZE < sz).

(** Their number, the indirect block included. *)
Definition fblocks (sz : Z) : Z := (sz + BSIZE - 1) / BSIZE + (if NDIRECT * BSIZE <? sz then 1 else 0).

Lemma off_block off : 0 ≤ off < MAXFILE * BSIZE → 0 ≤ off / BSIZE < MAXFILE ∧ off / BSIZE * BSIZE ≤ off < (off / BSIZE + 1) * BSIZE.
Proof. change BSIZE with 1024. change MAXFILE with 268. zdiv. Qed.

Lemma tight_step C d off n : 0 ≤ off → 0 < n ≤ (off / BSIZE + 1) * BSIZE - off → tight C d (off + 1) → tight C d (off + n).
Proof.
  intros Ho Hn [H1 H2]. unfold tight. change (NDIRECT * BSIZE) with 12288 in *. change BSIZE with 1024 in *. split.
  - intros bn Hbn. rewrite H1 by done. zdiv.
  - rewrite H2. zdiv.
Qed.

Lemma tight_new C d C' d' off r : 0 ≤ off → r ≠ 0 → tight C d off →
  (∀ bn, 0 ≤ bn < MAXFILE → fblk C' d' bn = if decide (bn = off / BSIZE) then r else fblk C d bn) →
  (ind d' ≠ 0 ↔ NDIRECT * BSIZE < off + 1) → tight C' d' (off + 1).
Proof.
  intros Ho Hr [H1 _] Hf Hi. split; [|done]. intros bn Hbn. rewrite Hf by done. destruct (decide (bn = off / BSIZE)) as [->|Hne].
  - change BSIZE with 1024. split; [zdiv | done].
  - rewrite H1 by done. revert Hne. change BSIZE with 1024. zdiv.
Qed.

(** The block at [off] is there already. *)
Lemma tight_old C d off : 0 ≤ off < MAXFILE * BSIZE → tight C d off → fblk C d (off / BSIZE) ≠ 0 → tight C d (off + 1) ∧ fblocks (off + 1) = fblocks off.
Proof.
  intros Ho [H1 H2] Hz. destruct (off_block off Ho) as [Hbn _]. apply H1 in Hz; [|done]. unfold fblocks, tight. change (NDIRECT * BSIZE) with 12288 in *.
  change BSIZE with 1024 in *. split_and!; [intros bn Hb; rewrite H1 by done; zdiv | rewrite H2; zdiv|].
  destruct (Z.ltb_spec 12288 (off + 1)), (Z.ltb_spec 12288 off); zdiv.
Qed.

(** The block at [off] is new. *)
Lemma tight_need C d off : 0 ≤ off < MAXFILE * BSIZE → tight C d off → fblk C d (off / BSIZE) = 0 →
  off mod BSIZE = 0 ∧ fblocks (off + 1) = fblocks off + 1 + (if off / BSIZE =? NDIRECT then 1 else 0) ∧
  (ind d = 0 ↔ off / BSIZE ≤ NDIRECT).
Proof.
  intros Ho [H1 H2] Hz. destruct (off_block off Ho) as [Hbn _]. specialize (H1 _ Hbn). unfold fblocks. change (NDIRECT * BSIZE) with 12288 in *.
  change NDIRECT with 12 in *. change BSIZE with 1024 in *. assert (¬ off / 1024 * 1024 < off) by tauto.
  split_and!; [zdiv | destruct (Z.ltb_spec 12288 (off + 1)), (Z.ltb_spec 12288 off), (Z.eqb_spec (off / 1024) 12); zdiv|].
  destruct (Z.eq_dec (daddr d 12) 0); [split; [intros _ | done]; assert (¬ 12288 < off) by tauto; zdiv|]. split; [done|]. assert (12288 < off) by tauto. zdiv.
Qed.

Lemma addr_small C d i : inode_wf sb C d → 0 ≤ i ≤ NDIRECT → daddr d i = 0 ∨ 46 ≤ daddr d i < 2000.
Proof.
  intros Hw Hi. destruct (Z.eq_dec (daddr d i) 0) as [|Hz]; [by left|right]. destruct (iw_data _ _ _ Hw (daddr d i)) as [H _].
  - split; [|done]. destruct (Z.eq_dec i NDIRECT) as [->|]; [by left|]. right. exists i. unfold fblk. change MAXFILE with 268. unfold NDIRECT in *.
    destruct (Z.ltb_spec i 12); [|lia]. split; [lia | done].
  - rewrite sb_data in H. by rewrite sb_eq in H.
Qed.

Lemma fblk_small C d bn : inode_wf sb C d → 0 ≤ bn < MAXFILE → fblk C d bn = 0 ∨ 46 ≤ fblk C d bn < 2000.
Proof.
  intros Hw Hb. destruct (Z.eq_dec (fblk C d bn) 0) as [|Hz]; [by left|right]. destruct (iw_data _ _ _ Hw (fblk C d bn)) as [H _].
  - split; [|done]. right. by exists bn.
  - rewrite sb_data in H. by rewrite sb_eq in H.
Qed.

(** A well-formed inode only lists blocks that have been taken. *)
Lemma owns_taken s C d a : rep s C → inode_wf sb C d → owns C d a → 46 ≤ a < freeblock s.
Proof.
  intros H Hw Ho. destruct (iw_data _ _ _ Hw a Ho) as [Hr Hu]. rewrite sb_data, sb_eq in Hr. cbn in Hr.
  rewrite (rep_used s) in Hu by (done || unfold FSSIZE; lia). apply Z.ltb_lt in Hu. lia.
Qed.

(** ** Finding the block for an offset *)

(** What [file_block] and the steps in it leave behind. *)
Definition placed (s : mkstate) (C : Z → block) (d : dinode) (k : Z) (s' : mkstate) (C' : Z → block) (d' : dinode) : Prop :=
  rep s' C' ∧ grow sb C d C' d' ∧ freeblock s' = freeblock s + k ∧ freeinode s' = freeinode s.

Lemma placed_refl s C d : rep s C → inode_wf sb C d → placed s C d 0 s C d.
Proof. intros H Hw. split_and!; [done | by apply grow_refl; [|eapply rep_meta] | lia | done]. Qed.

Lemma placed_trans s C d k s1 C1 d1 k1 s2 C2 d2 : placed s C d k s1 C1 d1 → placed s1 C1 d1 k1 s2 C2 d2 → placed s C d (k + k1) s2 C2 d2.
Proof.
  intros (H1 & H2 & H3 & H4) (K1 & K2 & K3 & K4). split_and!; [done | eapply (grow_trans sb sb_fine); done | lia | congruence].
Qed.

Lemma direct_ok s C d off : rep s C → inode_wf sb C d → tight C d off → 0 ≤ off < NDIRECT * BSIZE →
  freeblock s + (fblocks (off + 1) - fblocks off) ≤ FSSIZE →
  ∃ s' C' d', need_addr d (off / BSIZE) s = Ok (d', s') ∧ placed s C d (fblocks (off + 1) - fblocks off) s' C' d' ∧
    tight C' d' (off + 1) ∧ daddr d' (off / BSIZE) = fblk C' d' (off / BSIZE).
Proof.
  intros H Hw Ht Ho Hf. assert (Hm : 0 ≤ off < MAXFILE * BSIZE) by (change (NDIRECT * BSIZE) with 12288 in Ho; change (MAXFILE * BSIZE) with 274432; lia).
  assert (Hbn : 0 ≤ off / BSIZE < NDIRECT) by (unfold NDIRECT in *; change BSIZE with 1024 in *; zdiv).
  assert (Hd : ∀ C d, fblk C d (off / BSIZE) = daddr d (off / BSIZE)) by (intros; unfold fblk; by destruct (Z.ltb_spec (off / BSIZE) NDIRECT); [|lia]).
  pose proof (addr_small C d (off / BSIZE) Hw ltac:(lia)) as Hs. unfold need_addr. rewrite xint_id by lia.
  destruct (Z.eqb_spec (daddr d (off / BSIZE)) 0) as [Hz|Hnz].
  - pose proof (rp_free _ _ H). destruct (tight_need C d off Hm Ht ltac:(by rewrite Hd)) as (_ & E & Hind). unfold FSSIZE in *.
    destruct (Z.eqb_spec (off / BSIZE) NDIRECT); [lia|]. destruct (next_block_ok s C H) as (R & Hr & Ha); [unfold FSSIZE; lia|]. run R.
    rewrite xint_id by lia. destruct (grow_direct sb sb_fine C d _ _ (off / BSIZE) Hw (rep_meta _ _ H) Ha Hbn Hz) as (Hg & Hi & Hfb).
    eexists _, _, _. split_and!; [reflexivity | split_and!; [exact Hr | exact Hg | cbn; lia | done] | | by rewrite Hd].
    eapply (tight_new C d _ _ off); [lia | | done | exact Hfb |]; [lia|]. rewrite Hi. destruct Ht as [_ Ht]. rewrite Ht.
    change (NDIRECT * BSIZE) with 12288 in *. lia.
  - rewrite <- (Hd C) in Hnz. destruct (tight_old C d off Hm Ht Hnz) as [Ht' E]. exists s, C, d. rewrite E, Z.sub_diag.
    split_and!; [done | by apply placed_refl | done | by rewrite Hd].
Qed.

Lemma indirect_ok s C d off : rep s C → inode_wf sb C d → tight C d off → NDIRECT * BSIZE ≤ off < MAXFILE * BSIZE →
  freeblock s + (if ind d =? 0 then 1 else 0) ≤ FSSIZE →
  ∃ s' C' d', need_addr d NDIRECT s = Ok (d', s') ∧ placed s C d (if ind d =? 0 then 1 else 0) s' C' d' ∧
    (∀ bn, 0 ≤ bn < MAXFILE → fblk C' d' bn = fblk C d bn) ∧ ind d' ≠ 0.
Proof.
  intros H Hw Ht Ho Hf. pose proof (addr_small C d NDIRECT Hw ltac:(unfold NDIRECT; lia)) as Hs. unfold need_addr. rewrite xint_id by lia.
  destruct (Z.eqb_spec (ind d) 0) as [Hz|Hnz].
  - pose proof (rp_free _ _ H). unfold FSSIZE in *. destruct (next_block_ok s C H) as (R & Hr & Ha); [unfold FSSIZE; lia|]. run R.
    rewrite xint_id by lia. destruct (grow_ind sb sb_fine C d _ _ Hw (rep_meta _ _ H) Ha Hz) as (Hg & Hi & Hfb).
    eexists _, _, _. split_and!; [reflexivity | split_and!; [exact Hr | exact Hg | cbn; lia | done] | exact Hfb | rewrite Hi; lia].
  - exists s, C, d. split_and!; [done | by apply placed_refl | done | done].
Qed.

(** The entry of the indirect block. *)
Lemma entry_ok s C d bn : rep s C → inode_wf sb C d → ind d ≠ 0 → NDIRECT ≤ bn < MAXFILE →
  freeblock s + (if fblk C d bn =? 0 then 1 else 0) ≤ FSSIZE →
  ∃ s' C' r, 
    (indirect ← rsect (xint (ind d));
     let o := 4 * (bn - NDIRECT) in
     indirect ← (if ld32 indirect o =? 0 then
                   b ← next_block;
                   let indirect := st32 indirect o (xint b) in
                   wsect (xint (ind d)) indirect;; mret indirect
                 else mret indirect);
     mret (d, xint (ld32 indirect o))) s = Ok ((d, r), s') ∧
    placed s C d (if fblk C d bn =? 0 then 1 else 0) s' C' d ∧ r ≠ 0 ∧
    ∀ bn', 0 ≤ bn' < MAXFILE → fblk C' d bn' = if decide (bn' = bn) then r else fblk C d bn'.
Proof.
  intros H Hw Hi Hbn Hf. pose proof (addr_small C d NDIRECT Hw ltac:(unfold NDIRECT; lia)) as Hs. pose proof (rp_free _ _ H). unfold FSSIZE in *.
  assert (Hbn' : 0 ≤ bn < MAXFILE) by (unfold NDIRECT in *; lia). pose proof (fblk_small C d bn Hw Hbn') as Hb.
  pose proof (owns_taken s C d (ind d) H Hw ltac:(split; [by left | done])) as Hio.
  assert (Ef : ld32 (C (ind d)) (4 * (bn - NDIRECT)) = fblk C d bn).
  { unfold fblk. destruct (Z.ltb_spec bn NDIRECT); [lia|]. by destruct (Z.eqb_spec (ind d) 0). }
  rewrite xint_id by lia. rewrite (bind_ok _ _ _ _ _ (rsect_ok s C (ind d) H ltac:(lia) ltac:(unfold FSSIZE; lia))). cbv zeta. rewrite Ef.
  destruct (Z.eqb_spec (fblk C d bn) 0) as [Hz|Hnz].
  - destruct (next_block_ok s C H) as (R & Hr & Ha); [unfold FSSIZE; lia|]. rewrite bind_assoc. run R. rewrite bind_assoc, xint_id by lia.
    destruct (grow_indirect sb sb_fine C d _ _ bn Hw (rep_meta _ _ H) Ha Hi Hbn Hz) as [Hg Hfb]. rewrite fn_lookup_insert_ne in Hg, Hfb by lia.
    destruct (wsect_ok _ _ (ind d) (st32 (C (ind d)) (4 * (bn - NDIRECT)) (freeblock s)) Hr ltac:(lia)) as [W Hr2]; [cbn; lia|].
    run W. rewrite bind_ret, ld32_st32_eq, u32_small, xint_id by lia.
    eexists _, _, _. split_and!; [reflexivity | split_and!; [exact Hr2 | exact Hg | done | done] | lia | exact Hfb].
  - rewrite bind_ret, Ef, xint_id by lia. exists s, C, (fblk C d bn). split_and!; [done | by apply placed_refl | done|].
    intros bn' _. by destruct (decide (bn' = bn)) as [->|].
Qed.

Lemma file_block_ok s C d off : rep s C → inode_wf sb C d → tight C d off → 0 ≤ off < MAXFILE * BSIZE →
  freeblock s + (fblocks (off + 1) - fblocks off) ≤ FSSIZE →
  ∃ s' C' d', file_block d (off / BSIZE) s = Ok ((d', fblk C' d' (off / BSIZE)), s') ∧
    placed s C d (fblocks (off + 1) - fblocks off) s' C' d' ∧ tight C' d' (off + 1).
Proof.
  intros H Hw Ht Ho Hf. destruct (off_block off Ho) as [Hbn _]. unfold file_block. destruct (Z.ltb_spec (off / BSIZE) NDIRECT) as [Hd|Hd].
  - destruct (direct_ok s C d off H Hw Ht) as (s' & C' & d' & R & Hp & Ht' & E); [unfold NDIRECT in *; change BSIZE with 1024 in *; zdiv | done|].
    run R. rewrite E. destruct Hp as (Hr & Hg & Hp). pose proof (fblk_small C' d' _ (gr_wf _ _ _ _ _ (proj1 Hg)) Hbn).
    rewrite xint_id by lia. exists s', C', d'. by split_and!.
  - assert (Hind : fblocks (off + 1) - fblocks off = (if ind d =? 0 then 1 else 0) + (if fblk C d (off / BSIZE) =? 0 then 1 else 0)).
    { destruct (Z.eqb_spec (fblk C d (off / BSIZE)) 0) as [Hz|Hnz].
      - destruct (tight_need C d off Ho Ht Hz) as (_ & E & Hi). rewrite E. destruct (Z.eqb_spec (ind d) 0), (Z.eqb_spec (off / BSIZE) NDIRECT); lia || tauto.
      - destruct (tight_old C d off Ho Ht Hnz) as [_ E]. rewrite E. unfold fblk in Hnz. destruct (Z.ltb_spec (off / BSIZE) NDIRECT); [lia|].
        destruct (Z.eqb_spec (ind d) 0); [done | lia]. }
    destruct (indirect_ok s C d off H Hw Ht) as (s1 & C1 & d1 & R1 & Hp1 & Hf1 & Hi1).
    { unfold NDIRECT in *. change BSIZE with 1024 in *. zdiv. } { destruct (fblk C d (off / BSIZE) =? 0); lia. }
    run R1. destruct Hp1 as (Hr1 & Hg1 & Hb1 & Hn1).
    destruct (entry_ok s1 C1 d1 (off / BSIZE) Hr1 (gr_wf _ _ _ _ _ (proj1 Hg1)) Hi1 ltac:(lia)) as (s2 & C2 & r & R2 & Hp2 & Hrz & Hf2).
    { rewrite Hb1, Hf1 by done. lia. }
    rewrite Hf1 in Hp2 by done. exists s2, C2, d1. split_and!; [etrans; [exact R2|]; by rewrite Hf2, decide_True by done | |].
    + rewrite Hind. eapply placed_trans; [|exact Hp2]. by split_and!.
    + eapply (tight_new C d C2 d1 off r); [lia | done | done | |].
      * intros bn Hb. rewrite Hf2, Hf1 by done. done.
      * split; [intros _|done]. revert Hd. unfold NDIRECT. change BSIZE with 1024. zdiv.
Qed.

(** ** Appending *)

Lemma ld8_put_bytes l : ∀ d o a, Forall (λ c, 0 ≤ c < 256) l →
  ld8 (put_bytes d o l) a = if decide (o ≤ a < o + Z.of_nat (length l)) then default 0 (l !! Z.to_nat (a - o)) else ld8 d a.
Proof.
  induction l as [|c l IH]; intros d o a Hl; cbn [put_bytes length]; [by rewrite decide_False by lia|].
  apply Forall_cons in Hl as [Hc Hl]. rewrite IH by done. destruct (decide (o + 1 ≤ a < o + 1 + Z.of_nat (length l))) as [H1|H1].
  - rewrite decide_True by lia. replace (Z.to_nat (a - o)) with (S (Z.to_nat (a - (o + 1)))) by lia. done.
  - rewrite ld8_st8. destruct (Z.eqb_spec a o) as [->|]; [rewrite decide_True, Z.sub_diag by lia; cbn; by apply u8_small|].
    by rewrite decide_False by lia.
Qed.

(** Byte [i] of [p]. *)
Definition byte_of (p : bytes) (i : Z) : Z := default 0 (p !! Z.to_nat i).

Lemma byte_of_app p q i : 0 ≤ i → byte_of (p ++ q) i = if decide (i < Z.of_nat (length p)) then byte_of p i else byte_of q (i - Z.of_nat (length p)).
Proof.
  intros Hi. unfold byte_of. destruct (decide _); [by rewrite lookup_app_l by lia|]. rewrite lookup_app_r by lia. do 2 f_equal. lia.
Qed.

Lemma same_block o off : off ≤ o < off - off mod BSIZE + BSIZE → o / BSIZE = off / BSIZE.
Proof.
  intros H. symmetry. pose proof (Z.div_mod off BSIZE ltac:(done)). pose proof (Z.mod_pos_bound off BSIZE ltac:(done)).
  apply Z.div_unique with (o - off + off mod BSIZE); lia.
Qed.

(** One sector's worth of [p] is written at [off]. *)
Lemma chunk_written C d off p : inode_wf sb C d → meta_used sb C → 0 ≤ off < MAXFILE * BSIZE → fblk C d (off / BSIZE) ≠ 0 →
  Forall (λ c, 0 ≤ c < 256) p → off mod BSIZE + Z.of_nat (length p) ≤ BSIZE →
  let x := fblk C d (off / BSIZE) in
  let C' := <[x := put_bytes (C x) (off mod BSIZE) p]> C in
  evolve sb C d C' d ∧ (∀ o, 0 ≤ o < MAXFILE * BSIZE → fbyte C' d o = bytes_set off (Z.of_nat (length p)) (byte_of p) (fbyte C d) o) ∧
  ∀ bn, fblk C' d bn = fblk C d bn.
Proof.
  intros Hw Hm Ho Hx Hp Hl x C'. destruct (off_block off Ho) as [Hbn _].
  destruct (data_write sb sb_fine C d (off / BSIZE) (put_bytes (C x) (off mod BSIZE) p) Hw Hm Hbn Hx) as [Hg Hb]. split_and!; [exact Hg | |].
  - intros o Hoo. unfold C', x. rewrite Hb by done. unfold bytes_set. destruct (decide (o / BSIZE = off / BSIZE)) as [E|E].
    + fold x. rewrite ld8_put_bytes by done. pose proof (mod_diff o off E). unfold byte_of.
      destruct (decide (off mod BSIZE ≤ o mod BSIZE < off mod BSIZE + Z.of_nat (length p))) as [H1|H1].
      * rewrite decide_True by lia. do 3 f_equal. lia.
      * rewrite decide_False by lia. unfold fbyte. rewrite E. by destruct (Z.eqb_spec (fblk C d (off / BSIZE)) 0).
    + rewrite decide_False; [done|]. intros Hin. apply E. apply same_block. lia.
  - intros bn. unfold C', fblk. assert (ind d ≠ x); [|by rewrite fn_lookup_insert_ne by done].
    intros E. apply Hx. unfold x in E. rewrite <- E. by apply (iw_ind _ _ _ Hw (off / BSIZE)).
Qed.

Lemma fblocks_step off n : 0 ≤ off → 0 < n ≤ (off / BSIZE + 1) * BSIZE - off → fblocks (off + n) = fblocks (off + 1).
Proof.
  intros Ho Hn. unfold fblocks. change (NDIRECT * BSIZE) with 12288. change BSIZE with 1024 in *.
  assert ((off + n + 1024 - 1) / 1024 = off / 1024 + 1 ∧ (off + 1 + 1024 - 1) / 1024 = off / 1024 + 1) as [-> ->] by (split; zdiv).
  destruct (Z.ltb_spec 12288 (off + n)), (Z.ltb_spec 12288 (off + 1)); try done; zdiv.
Qed.

Lemma fblocks_mono a b : 0 ≤ a ≤ b → fblocks a ≤ fblocks b.
Proof.
  intros H. unfold fblocks. pose proof (Z.div_le_mono (a + BSIZE - 1) (b + BSIZE - 1) BSIZE ltac:(done) ltac:(lia)).
  destruct (Z.ltb_spec (NDIRECT * BSIZE) a), (Z.ltb_spec (NDIRECT * BSIZE) b); lia.
Qed.

Lemma tight_ext C d C' sz : tight C d sz → (∀ bn, fblk C' d bn = fblk C d bn) → tight C' d sz.
Proof. intros [H1 H2] Hf. split; [|done]. intros bn Hbn. rewrite Hf. by apply H1. Qed.

Lemma bytes_set_app off a b f g h : 0 ≤ a → 0 ≤ b → (∀ i, 0 ≤ i < a → h i = f i) → (∀ i, 0 ≤ i < b → h (a + i) = g i) →
  ∀ k o, bytes_set (off + a) b g (bytes_set off a f k) o = bytes_set off (a + b) h k o.
Proof.
  intros Ha Hb Hf Hg k o. unfold bytes_set. destruct (decide (off + a ≤ o < off + a + b)).
  - rewrite decide_True by lia. rewrite <- Hg by lia. f_equal. lia.
  - destruct (decide (off ≤ o < off + a)); [rewrite decide_True, Hf by lia; done | by rewrite decide_False by lia].
Qed.

Lemma bytes_take_drop off n1 p k o : 0 ≤ n1 ≤ Z.of_nat (length p) →
  bytes_set (off + n1) (Z.of_nat (length p) - n1) (byte_of (drop (Z.to_nat n1) p)) (bytes_set off n1 (byte_of (take (Z.to_nat n1) p)) k) o =
  bytes_set off (Z.of_nat (length p)) (byte_of p) k o.
Proof.
  intros Hn. rewrite (bytes_set_app off n1 (Z.of_nat (length p) - n1) _ _ (byte_of p)); [by replace (n1 + (Z.of_nat (length p) - n1)) with (Z.of_nat (length p)) by lia | lia..| |].
  - intros i Hi. unfold byte_of. by rewrite lookup_take_lt by lia.
  - intros i Hi. unfold byte_of. rewrite lookup_drop. do 2 f_equal. lia.
Qed.

Lemma bytes_set_ext off t f g g' o : g o = g' o → bytes_set off t f g o = bytes_set off t f g' o.
Proof. intros E. unfold bytes_set. by destruct (decide _). Qed.

(** The loop of [iappend] writes [p] at the end of the file. *)
Lemma iappend_loop_ok fuel : ∀ s C d off p, let n := Z.of_nat (length p) in
  rep s C → inode_wf sb C d → tight C d off → 0 ≤ off → off + n ≤ MAXFILE * BSIZE → Forall (λ c, 0 ≤ c < 256) p →
  freeblock s + (fblocks (off + n) - fblocks off) ≤ FSSIZE → nblk off n < Z.of_nat fuel →
  ∃ s' C' d', iappend_loop fuel d off p s = Ok ((d', off + n), s') ∧ rep s' C' ∧ evolve sb C d C' d' ∧ tight C' d' (off + n) ∧
    (∀ o, 0 ≤ o < MAXFILE * BSIZE → fbyte C' d' o = bytes_set off n (byte_of p) (fbyte C d) o) ∧
    freeblock s' = freeblock s + (fblocks (off + n) - fblocks off) ∧ freeinode s' = freeinode s.
Proof.
  induction fuel as [|fuel IH]; intros s C d off p n H Hw Ht Ho Hmax Hp Hf Hfuel; [pose proof (nblk_nonneg off n Ho); lia|].
  cbn [iappend_loop]. fold n. cbv zeta. destruct (Z.ltb_spec 0 n) as [Hn|Hn].
  2:{ assert (n = 0) as -> by lia. rewrite Z.add_0_r, Z.sub_diag, Z.add_0_r. exists s, C, d.
      split_and!; [done | done | by apply evolve_refl; [|eapply rep_meta] | done | | lia | done].
      intros o _. unfold bytes_set. by rewrite decide_False by lia. }
  assert (Hm : 0 ≤ off < MAXFILE * BSIZE) by lia. destruct (off_block off Hm) as [Hbn Hob].
  destruct (Z.ltb_spec (off / BSIZE) MAXFILE); [|lia]. cbn [negb].
  pose proof (fblocks_mono (off + 1) (off + n) ltac:(lia)).
  destruct (file_block_ok s C d off H Hw Ht Hm ltac:(lia)) as (s1 & C1 & d1 & R1 & (Hr1 & [Hg1 Hb1] & Hk1 & Hi1) & Ht1). run R1.
  set (n1 := Z.min n ((off / BSIZE + 1) * BSIZE - off)). assert (Hn1 : 0 < n1 ≤ n ∧ n1 ≤ (off / BSIZE + 1) * BSIZE - off) by (subst n1; lia).
  assert (Hx : fblk C1 d1 (off / BSIZE) ≠ 0) by (apply (proj1 Ht1 _ Hbn); lia).
  set (x := fblk C1 d1 (off / BSIZE)) in *. pose proof (gr_wf _ _ _ _ _ Hg1) as Hw1.
  assert (Hox : 46 ≤ x < freeblock s1) by (apply (owns_taken s1 C1 d1 x Hr1 Hw1); split; [right; by exists (off / BSIZE) | done]).
  pose proof (rp_free _ _ Hr1). rewrite (bind_ok _ _ _ _ _ (rsect_ok s1 C1 x Hr1 ltac:(lia) ltac:(lia))).
  assert (Ec : n1 = chunk off n) by (subst n1; unfold chunk; pose proof (Z.div_mod off BSIZE ltac:(done)); f_equal; lia).
  replace (off - off / BSIZE * BSIZE) with (off mod BSIZE) by (pose proof (Z.div_mod off BSIZE ltac:(done)); lia).
  assert (Hl1 : Z.of_nat (length (take (Z.to_nat n1) p)) = n1) by (rewrite length_take_le; lia).
  assert (Hl2 : Z.of_nat (length (drop (Z.to_nat n1) p)) = n - n1) by (rewrite length_drop; lia).
  destruct (wsect_ok s1 C1 x (put_bytes (C1 x) (off mod BSIZE) (take (Z.to_nat n1) p)) Hr1 ltac:(lia) ltac:(lia)) as [W Hr2]. run W.
  destruct (chunk_written C1 d1 off (take (Z.to_nat n1) p) Hw1 (rep_meta _ _ Hr1) Hm Hx) as (Hg2 & Hb2 & Hf2); [by apply Forall_take | rewrite Hl1, Ec; apply chunk_bounds; lia|].
  fold x in Hg2, Hb2, Hf2. rewrite Hl1 in Hb2. pose proof (fblocks_step off n1 Ho ltac:(lia)) as Hs.
  set (C2 := <[x := _]> C1) in *. pose proof (tight_ext _ _ C2 _ (tight_step _ _ _ n1 Ho ltac:(lia) Ht1) Hf2) as Ht2.
  destruct (IH _ C2 d1 (off + n1) (drop (Z.to_nat n1) p) Hr2 (gr_wf _ _ _ _ _ Hg2) Ht2) as (s' & C' & d' & R & Hr' & Hg' & Ht' & Hb' & Hk' & Hi');
    rewrite ?Hl2; [lia | lia | by apply Forall_drop | | rewrite Ec, nblk_step by lia; lia |].
  { cbn [wrote freeblock]. replace (off + n1 + (n - n1)) with (off + n) by lia. lia. }
  rewrite Hl2 in *. replace (off + n1 + (n - n1)) with (off + n) in * by lia. exists s', C', d'. split_and!; [exact R | done | | done | | |].
  - eapply (evolve_trans sb sb_fine); [exact Hg1|]. by eapply (evolve_trans sb sb_fine).
  - intros o Hoo. rewrite Hb' by done. etrans; [|apply (bytes_take_drop off n1 p); lia]. apply bytes_set_ext.
    rewrite Hb2 by done. apply bytes_set_ext. by apply Hb1.
  - cbn [wrote freeblock] in Hk'. lia.
  - cbn [wrote freeinode] in Hi'. congruence.
Qed.

(** ** Inodes *)

Lemma inum_small inum : 0 < inum < NINODES → inum_ok sb inum ∧ 32 ≤ IBLOCK inum sb < 45.
Proof. unfold NINODES, inum_ok, IBLOCK. rewrite sb_eq. cbn [sb_ninodes sb_inodestart]. change IPB with 16. intros H. split; [lia | zdiv]. Qed.

Lemma rinode_ok s C inum : rep s C → 0 < inum < NINODES → rinode inum s = Ok (dino sb C inum, s).
Proof.
  intros H Hi. destruct (inum_small inum Hi) as [_ Hb]. unfold rinode.
  rewrite (bind_ok _ _ _ _ _ (rsect_ok s C (IBLOCK inum sb) H ltac:(lia) ltac:(unfold FSSIZE; lia))). done.
Qed.

Lemma winode_ok s C inum x : rep s C → 0 < inum < NINODES →
  ∃ s', winode inum x s = Ok (tt, s') ∧ rep s' (put_dino sb C inum x) ∧ freeblock s' = freeblock s ∧ freeinode s' = freeinode s.
Proof.
  intros H Hi. destruct (inum_small inum Hi) as [_ Hb]. pose proof (rp_free _ _ H). unfold winode. cbv zeta.
  rewrite (bind_ok _ _ _ _ _ (rsect_ok s C (IBLOCK inum sb) H ltac:(lia) ltac:(unfold FSSIZE; lia))).
  destruct (wsect_ok s C (IBLOCK inum sb) (put_dinode (C (IBLOCK inum sb)) (DINODE_SIZE * (inum mod IPB)) x) H ltac:(lia) ltac:(lia)) as [W Hr].
  eexists. split; [exact W|]. split; [exact Hr | done].
Qed.

(** The blocks of a file are not inode blocks. *)
Lemma fblk_put_dino C d inum x bn : inode_wf sb C d → 0 < inum < NINODES → fblk (put_dino sb C inum x) d bn = fblk C d bn.
Proof.
  intros Hw Hi. destruct (inum_small inum Hi) as [_ Hb]. pose proof (addr_small C d NDIRECT Hw ltac:(unfold NDIRECT; lia)).
  unfold fblk. destruct (Z.eqb_spec (ind d) 0); [done|]. by rewrite put_dino_other by lia.
Qed.

(** [iappend] is a write at the end of the file. *)
Lemma iappend_ok s C inum p : let d := dino sb C inum in let n := Z.of_nat (length p) in
  rep s C → 0 < inum < NINODES → inode_wf sb C d → dinode_ok d → tight C d (di_size d) → di_size d + n ≤ MAXFILE * BSIZE →
  Forall (λ c, 0 ≤ c < 256) p → freeblock s + (fblocks (di_size d + n) - fblocks (di_size d)) ≤ FSSIZE →
  ∃ s' C', iappend inum p s = Ok (tt, s') ∧ rep s' C' ∧ written sb C d inum C' (dino sb C' inum) (di_size d) n (byte_of p) ∧
    tight C' (dino sb C' inum) (di_size d + n) ∧ (∀ a, 46 ≤ a < FSSIZE → used sb C a = true → ¬ owns C d a → C' a = C a) ∧
    (∀ a, 0 ≤ a < 32 → C' a = C a) ∧
    freeblock s' = freeblock s + (fblocks (di_size d + n) - fblocks (di_size d)) ∧ freeinode s' = freeinode s.
Proof.
  intros d n H Hi Hw Hok Ht Hmax Hp Hf. destruct (inum_small inum Hi) as [Hin Hib]. pose proof (do_size _ Hok) as Hsz.
  unfold iappend. rewrite (bind_ok _ _ _ _ _ (rinode_ok s C inum H Hi)). fold d. clearbody d. rewrite xint_id by done.
  destruct (iappend_loop_ok (rw_fuel n) s C d (di_size d) p H Hw Ht ltac:(lia) Hmax Hp Hf) as (s1 & C1 & d1 & R & Hr1 & Hg & Ht1 & Hb & Hk & Hn1).
  { apply rw_fuel_enough; lia. }
  fold n in R, Ht1, Hb, Hk. rewrite (bind_ok _ _ _ _ _ R). change (MAXFILE * BSIZE) with 274432 in Hmax. rewrite xint_id by lia.
  set (d2 := set_size (di_size d + n) d1). destruct (winode_ok s1 C1 inum d2 Hr1 Hi) as (s2 & R2 & Hr2 & Hk2 & Hn2).
  destruct (gr_fields _ _ _ _ _ Hg) as (F1 & F2 & F3 & F4 & F5).
  assert (Hwr : written sb C d inum (put_dino sb C1 inum d2) d2 (di_size d) n (byte_of p)).
  { apply (written_intro sb sb_fine C d inum C1 d1); try done; cbn; try lia.
    intros o Ho. apply (proj1 Ht1).
    - destruct (off_block o) as [Hbn _]; [change (MAXFILE * BSIZE) with 274432; lia | done].
    - revert Ho. change BSIZE with 1024. zdiv. }
  exists s2, (put_dino sb C1 inum d2). rewrite (wr_dino _ _ _ _ _ _ _ _ _ Hwr). split_and!; [exact R2 | done | done | | | | lia | congruence].
  - split; [|exact (proj2 Ht1)]. intros bn Hbn. change (fblk ?c d2 bn) with (fblk c d1 bn). rewrite fblk_put_dino by (done || apply Hg). by apply (proj1 Ht1).
  - intros a Ha Hu Hno. rewrite put_dino_other by lia. apply (gr_keep _ _ _ _ _ Hg); [rewrite sb_data, sb_eq; exact Ha | done | done].
  - intros a Ha. rewrite put_dino_other by lia. apply (gr_meta_keep _ _ _ _ _ Hg). rewrite sb_eq. cbn. lia.
Qed.
