(* ===== verification/MkfsImage.v ===== *)
(** * MkfsImage: the files of the image mkfs builds (src/mkfs/mkfs.c)

    The contents of every inode through the run of mkfs, and the theorem on the finished image. *)

From stdpp Require Import functions.
From S2P Require Import Prelude Mem Layout FsFormat Bio Log LogCrash Fs FsTx FsBlocks FsInode FsFile FsDir Printf User Ulib Mkfs MkfsSpec.

Local Open Scope Z_scope.

(** ** Files *)

(** The type and the contents of a file. *)
Abbreviation file := (Z * bytes)%type.
Abbreviation len l := (Z.of_nat (length l)).

(** The inode [d] holds the file [e]. *)
Record file_ok (C : Z → block) (d : dinode) (e : file) : Prop := {
  fo_wf : inode_wf sb C d;
  fo_ok : dinode_ok d;
  fo_type : di_type d = e.1;
  fo_nlink : di_nlink d = 1;
  fo_size : di_size d = len e.2;
  fo_tight : tight C d (len e.2);
  fo_byte o : 0 ≤ o < MAXFILE * BSIZE → fbyte C d o = byte_of e.2 o;
}.

(** The inode of file [i]; inode numbers begin at 1. *)
Definition ino (C : Z → block) (i : nat) : dinode := dino sb C (Z.of_nat i + 1).

(** The inodes hold the files [F], which share no block; the other inodes are free. *)
Record files (C : Z → block) (F : list file) : Prop := {
  fs_file i e : F !! i = Some e → file_ok C (ino C i) e;
  fs_disjoint i j : (i < length F)%nat → (j < length F)%nat → i ≠ j → disjoint_files C (ino C i) (ino C j);
  fs_free i : (length F ≤ i)%nat → Z.of_nat i + 1 < NINODES → di_type (ino C i) = 0;
  fs_num : len F < NINODES;
}.

(** The number of blocks up to the first free one. *)
Definition total (F : list file) : Z := foldr (λ e a, fblocks (len e.2) + a) 46 F.

Lemma total_app F G : total (F ++ G) = total F + total G - 46.
Proof. unfold total. induction F as [|e F IH]; cbn; lia. Qed.

Lemma total_insert F i e e' : F !! i = Some e → total (<[i := e']> F) = total F + (fblocks (len e'.2) - fblocks (len e.2)).
Proof.
  revert i. induction F as [|x F IH]; intros [|i] Hi; try done.
  - injection Hi as ->. cbn. lia.
  - change (<[S i := e']> (x :: F)) with (x :: <[i := e']> F). change (total (x :: ?l)) with (fblocks (len x.2) + total l). rewrite (IH i Hi). lia.
Qed.

(** The state of mkfs: the image, the files in it, the counters, and what does not change. *)
Record built (s : mkstate) (C : Z → block) (F : list file) (B : Z → block) : Prop := {
  bt_rep : rep s C;
  bt_files : files C F;
  bt_inode : freeinode s = len F + 1;
  bt_block : freeblock s = total F;
  bt_low a : 0 ≤ a < 32 → C a = B a;
}.

Lemma file_ok_ext C C' d e : file_ok C d e → (∀ a, owns C d a → C' a = C a) → (∀ a, owns C d a → used sb C' a = true) → file_ok C' d e.
Proof.
  intros [H1 H2 H3 H4 H5 H6 H7] HC Hu. destruct (file_ext sb C C' d H1 HC Hu) as (K1 & K2 & K3 & _). split; try done.
  - destruct H6 as [T1 T2]. split; [|done]. intros bn Hbn. rewrite K2 by done. by apply T1.
  - intros o Ho. rewrite K3 by done. by apply H7.
Qed.

Lemma byte_of_set c p o : 0 ≤ o → bytes_set (len c) (len p) (byte_of p) (byte_of c) o = byte_of (c ++ p) o.
Proof.
  intros Ho. rewrite byte_of_app by done. unfold bytes_set. destruct (decide (len c ≤ o < len c + len p)) as [H|H].
  - by rewrite decide_False by lia.
  - destruct (decide (o < len c)); [done|]. unfold byte_of. rewrite !lookup_ge_None_2 by lia. done.
Qed.

(** File [i] is new or has changed; the blocks of the others have not. *)
Lemma files_update C C' F F' i e : files C F → F' !! i = Some e → (∀ j, j ≠ i → F' !! j = F !! j) → len F' < NINODES →
  (length F ≤ length F')%nat → file_ok C' (ino C' i) e → (∀ j, j ≠ i → Z.of_nat j + 1 < NINODES → ino C' j = ino C j) →
  (∀ j e', F !! j = Some e' → j ≠ i → (∀ a, owns C (ino C j) a → C' a = C a ∧ used sb C' a = true) ∧ disjoint_files C' (ino C' i) (ino C j)) →
  files C' F'.
Proof.
  intros [HF HD HE HN] Ei Ej Hnum Hle Hi Hino Ho.
  assert (Hold : ∀ j, (j < length F')%nat → j ≠ i → ∃ e', F !! j = Some e' ∧ ino C' j = ino C j).
  { intros j Hj Hne. destruct (lookup_lt_is_Some_2 F' j Hj) as [e' He]. exists e'. rewrite <- Ej by done. split; [done | apply Hino; [done | lia]]. }
  assert (Hext : ∀ j e', F !! j = Some e' → j ≠ i → file_ok C' (ino C j) e' ∧ ∀ a, owns C' (ino C j) a ↔ owns C (ino C j) a).
  { intros j e' Hj Hne. destruct (Ho j e' Hj Hne) as [Hk _]. pose proof (HF j e' Hj) as Hok. split.
    - apply (file_ok_ext C); [done | intros a Ha; by apply Hk | intros a Ha; by apply Hk].
    - eapply file_ext; [apply (fo_wf _ _ _ Hok) | intros a Ha; by apply Hk | intros a Ha; by apply Hk]. }
  split.
  - intros j e' Hj. destruct (decide (j = i)) as [->|Hne]; [congruence|]. destruct (Hold j (lookup_lt_Some _ _ _ Hj) Hne) as (e2 & E2 & ->).
    rewrite Ej in Hj by done. by apply Hext.
  - intros j k Hj Hk Hjk. destruct (decide (j = i)) as [->|Hji].
    + destruct (Hold k Hk ltac:(done)) as (e' & Ek & ->). by apply (Ho k e').
    + destruct (Hold j Hj Hji) as (ej & Ej' & ->). destruct (decide (k = i)) as [->|Hki].
      * intros a Ha Hb. destruct (Ho j ej Ej' Hji) as [_ Hd]. by apply (Hd a).
      * destruct (Hold k Hk Hki) as (ek & Ek & ->). intros a Ha%(Hext j ej Ej' Hji) Hb%(Hext k ek Ek Hki).
        apply (HD j k) with a; [by eapply lookup_lt_Some | by eapply lookup_lt_Some | done..].
  - intros j Hj Hjn. rewrite Hino; [apply HE; lia | | done]. intros ->. apply lookup_lt_Some in Ei. lia.
  - done.
Qed.

(** Appending to one file leaves the others alone. *)
Lemma append_file s C F B i ty c p : built s C F B → F !! i = Some (ty, c) → Forall (λ x, 0 ≤ x < 256) p →
  len (c ++ p) ≤ MAXFILE * BSIZE → total (<[i := (ty, c ++ p)]> F) ≤ FSSIZE →
  ∃ s' C', iappend (Z.of_nat i + 1) p s = Ok (tt, s') ∧ built s' C' (<[i := (ty, c ++ p)]> F) B.
Proof.
  intros [Hr [HF HD HE HN] Hi Hb HL] Ei Hp Hmax Htot. pose proof (HF i _ Ei) as [W1 W2 W3 W4 W5 W6 W7]. cbn [fst snd] in *.
  pose proof (lookup_lt_Some _ _ _ Ei) as Hlt. rewrite length_app, Nat2Z.inj_add in Hmax. rewrite (total_insert F i (ty, c)) in Htot by done. cbn [snd] in Htot.
  rewrite length_app, Nat2Z.inj_add in Htot. assert (Hnum : 0 < Z.of_nat i + 1 < NINODES) by lia.
  destruct (iappend_ok s C (Z.of_nat i + 1) p Hr Hnum W1 W2) as (s' & C' & R & Hr' & Hw & Ht & Hkeep & Hlow & Hk & Hn).
  { fold (ino C i). by rewrite W5. } { fold (ino C i). rewrite W5. done. } { done. } { fold (ino C i). rewrite W5. lia. }
  fold (ino C i) in *. fold (ino C' i) in *. rewrite W5 in *.
  assert (Hino : ∀ j, j ≠ i → Z.of_nat j + 1 < NINODES → ino C' j = ino C j).
  { intros j Hj Hjn. apply (wr_inode _ _ _ _ _ _ _ _ _ Hw); [by apply inum_small; lia | lia]. }
  assert (Hothers : ∀ j e, F !! j = Some e → j ≠ i → (∀ a, owns C (ino C j) a → C' a = C a) ∧ (∀ a, owns C (ino C j) a → used sb C' a = true) ∧
    disjoint_files C' (ino C' i) (ino C j)).
  { intros j e Ej Hj. pose proof (lookup_lt_Some _ _ _ Ej) as Hjl. pose proof (HF j e Ej) as [X1 _ _ _ _ _ _].
    pose proof (HD i j Hlt Hjl ltac:(done)) as Hd. destruct (wr_file _ _ _ _ _ _ _ _ _ Hw (ino C j) X1 Hd) as (_ & Hd' & _).
    assert (Hr1 : ∀ a, owns C (ino C j) a → 46 ≤ a < FSSIZE ∧ used sb C a = true).
    { intros a Ha. destruct (iw_data _ _ _ X1 a Ha) as [? ?]. rewrite sb_data, sb_eq in *. done. }
    split_and!; [| |done].
    - intros a Ha. destruct (Hr1 a Ha). apply Hkeep; [done | done|]. intros Ho. by apply (Hd a).
    - intros a Ha. destruct (Hr1 a Ha). apply (wr_used _ _ _ _ _ _ _ _ _ Hw); [rewrite sb_eq; cbn; unfold FSSIZE in *; lia | done]. }
  exists s', C'. split; [exact R|]. split; [done | | rewrite length_insert; lia | rewrite (total_insert F i (ty, c)) by done; cbn [snd]; rewrite length_app, Nat2Z.inj_add; lia |].
  - apply (files_update C C' F _ i (ty, c ++ p)); [done | by apply list_lookup_insert_eq | intros; by apply list_lookup_insert_ne | by rewrite length_insert
      | by rewrite length_insert | | done | intros j e Ej Hj; destruct (Hothers j e Ej Hj) as (? & ? & ?); split; [by auto | done]].
    split; cbn [fst snd]; rewrite ?length_app, ?Nat2Z.inj_add.
    + apply (wr_wf _ _ _ _ _ _ _ _ _ Hw).
    + apply (wr_ok _ _ _ _ _ _ _ _ _ Hw).
    + etrans; [apply (wr_type _ _ _ _ _ _ _ _ _ Hw) | done].
    + etrans; [apply (wr_type _ _ _ _ _ _ _ _ _ Hw) | done].
    + rewrite (wr_size _ _ _ _ _ _ _ _ _ Hw). lia.
    + done.
    + intros o Ho. rewrite (wr_byte _ _ _ _ _ _ _ _ _ Hw) by done. rewrite <- byte_of_set by lia. apply bytes_set_ext. by apply W7.
  - intros a Ha. rewrite Hlow by done. by apply HL.
Qed.

(** ** New files *)

Lemma fblocks_nonneg n : 0 ≤ n → 0 ≤ fblocks n.
Proof. intros H. unfold fblocks. assert (0 ≤ (n + BSIZE - 1) / BSIZE) by (apply Z.div_pos; [change BSIZE with 1024; lia | done]). destruct (_ <? _); lia. Qed.

Definition no_addrs : list Z := replicate (Z.to_nat (NDIRECT + 1)) 0.

Lemma empty_file C ty d : 0 ≤ ty < 2 ^ 15 → d = mkDinode ty 0 0 1 0 no_addrs → file_ok C d (ty, []) ∧ ∀ a, ¬ owns C d a.
Proof.
  intros Hty ->. set (d := mkDinode ty 0 0 1 0 no_addrs).
  assert (Ha : ∀ i, daddr d i = 0).
  { intros i. unfold daddr. cbn [d di_addrs]. unfold no_addrs. destruct (replicate (Z.to_nat (NDIRECT + 1)) 0 !! Z.to_nat i) eqn:E; [|done].
    by apply lookup_replicate_1 in E as [-> _]. }
  assert (Hf : ∀ bn, fblk C d bn = 0) by (intros bn; unfold fblk; rewrite !Ha; by destruct (_ <? _)).
  assert (Ho : ∀ a, ¬ owns C d a).
  { intros a [[->|(bn & _ & ->)] Hz]; [by rewrite Ha in Hz | by rewrite Hf in Hz]. }
  split; [|done]. split; cbn [fst snd length]; try done.
  - split; [done | | |].
    + intros a Hoa. by apply Ho in Hoa.
    + intros b1 b2 _ _ _. by rewrite Hf.
    + intros b1 _ _. apply Ha.
  - split; cbn; try done; try lia. apply Forall_replicate. lia.
  - split; [intros bn Hbn; rewrite Hf | rewrite Ha]; change (Z.of_nat 0) with 0; [change BSIZE with 1024 | change (NDIRECT * BSIZE) with 12288]; lia.
  - intros o Hoo. unfold fbyte. by rewrite Hf.
Qed.

Lemma ialloc_ok s C F B ty : built s C F B → 0 ≤ ty < 2 ^ 15 → len F + 1 < NINODES →
  ∃ s' C', ialloc ty s = Ok (len F + 1, s') ∧ built s' C' (F ++ [(ty, [])]) B.
Proof.
  intros [Hr HF Hi Hb HL] Hty Hn. unfold NINODES in *. unfold ialloc, next_inode. rewrite bind_assoc, bind_get. cbn beta. rewrite bind_assoc, bind_put, bind_ret, Hi, u32_small by lia.
  set (s1 := mkMk (img s) (img_len s) (len F + 1 + 1) (freeblock s)). assert (Hr1 : rep s1 C) by (destruct Hr; by split).
  set (d := mkDinode _ 0 0 _ _ _). assert (Ed : d = mkDinode ty 0 0 1 0 no_addrs).
  { unfold d. rewrite !xshort_id, xint_id by lia. unfold i16. rewrite !Z.mod_small by lia. by destruct (Z.ltb_spec ty (2 ^ 15)); [|lia]. }
  destruct (winode_ok s1 C (len F + 1) d Hr1) as (s2 & R & Hr2 & Hk & Hn2); [unfold NINODES; lia|]. run R.
  change (freeinode s1) with (len F + 1 + 1) in Hn2. change (freeblock s1) with (freeblock s) in Hk.
  destruct (inum_small (len F + 1)) as [Hin Hib]; [unfold NINODES; lia|].
  destruct (empty_file C ty d Hty Ed) as [Hd _]. set (C' := put_dino sb C (len F + 1) d) in *.
  assert (Hino : ∀ j, Z.of_nat j + 1 < 200 → ino C' j = if decide (j = length F) then d else ino C j).
  { intros j Hj. unfold ino, C'. rewrite dino_put; [|done | apply inum_small; unfold NINODES; lia | apply Hd].
    destruct (decide (Z.of_nat j + 1 = len F + 1)), (decide (j = length F)); try done; lia. }
  eexists s2, C'. split; [reflexivity|]. split; [done | | rewrite length_app; cbn; lia | rewrite total_app; change (total [(ty, [])]) with 46; lia |].
  - apply (files_update C C' F _ (length F) (ty, [])); [done | by apply list_lookup_middle | | rewrite length_app; unfold NINODES; cbn; lia | rewrite length_app; lia | | |].
    + intros j Hj. destruct (decide (j < length F)%nat); [by rewrite lookup_app_l|]. rewrite !lookup_ge_None_2; [done | lia | rewrite length_app; cbn; lia].
    + rewrite Hino, decide_True by lia || done. by apply empty_file.
    + intros j Hj Hjn. by rewrite Hino, decide_False.
    + intros j e Ej Hj. pose proof (fs_file _ _ HF j e Ej) as Hok. split.
      * intros a Ha. destruct (owns_taken _ _ _ _ Hr (fo_wf _ _ _ Hok) Ha) as [? ?]. unfold C'. rewrite put_dino_other by lia. split; [done|].
        rewrite put_dino_used; [by apply (iw_data _ _ _ (fo_wf _ _ _ Hok)) | apply sb_fine | done |]. pose proof (rp_free _ _ Hr). unfold FSSIZE in *. rewrite sb_eq. cbn. lia.
      * rewrite Hino, decide_True by lia || done. intros a Ha. by apply (empty_file C' ty d Hty Ed) in Ha.
  - intros a Ha. unfold C'. rewrite put_dino_other by lia. by apply HL.
Qed.

Lemma total_mono F i e e' : F !! i = Some e → len e.2 ≤ len e'.2 → total F ≤ total (<[i := e']> F).
Proof. intros H Hl. rewrite (total_insert F i e) by done. pose proof (fblocks_mono (len e.2) (len e'.2) ltac:(lia)). lia. Qed.

Lemma append_all_ok l : ∀ s C F B i ty c, built s C F B → F !! i = Some (ty, c) → Forall (λ x, 0 ≤ x < 256) (concat l) →
  len (c ++ concat l) ≤ MAXFILE * BSIZE → total (<[i := (ty, c ++ concat l)]> F) ≤ FSSIZE →
  ∃ s' C', append_all (Z.of_nat i + 1) l s = Ok (tt, s') ∧ built s' C' (<[i := (ty, c ++ concat l)]> F) B.
Proof.
  induction l as [|p l IH]; intros s C F B i ty c Hb Hi Hl Hmax Htot; cbn [append_all concat] in *.
  - exists s, C. rewrite app_nil_r. by rewrite list_insert_id.
  - apply Forall_app in Hl as [Hp Hl]. rewrite app_assoc in *.
    assert (Hi1 : <[i := (ty, c ++ p)]> F !! i = Some (ty, c ++ p)) by (apply list_lookup_insert_eq; by eapply lookup_lt_Some).
    destruct (append_file s C F B i ty c p Hb Hi Hp) as (s1 & C1 & R & Hb1).
    { rewrite length_app in Hmax. lia. }
    { etrans; [apply (total_mono _ i _ (ty, (c ++ p) ++ concat l) Hi1); cbn; rewrite (length_app (c ++ p)); lia|]. by rewrite list_insert_insert_eq. }
    run R. destruct (IH s1 C1 _ B i ty (c ++ p) Hb1 Hi1 Hl Hmax) as (s2 & C2 & R2 & Hb2); [by rewrite list_insert_insert_eq|].
    exists s2, C2. rewrite list_insert_insert_eq in Hb2. done.
Qed.

(** ** The files of the image *)

(** The root directory, for files with these names; and the files, the root first. *)
Definition entries (names : list bytes) : list bytes :=
  dirent 1 [46] :: dirent 1 [46; 46] :: imap (λ j nm, dirent (Z.of_nat j + 2) nm) names.
Abbreviation input := (bytes * list bytes)%type.
Definition names (l : list input) : list bytes := (λ a, shortname a.1) <$> l.
Definition image_files (l : list input) : list file := (T_DIR, concat (entries (names l))) :: ((λ a, (T_FILE, concat a.2)) <$> l).

(** A file mkfs can copy. *)
Record input_ok (a : input) : Prop := {
  io_name : Forall (λ c, 0 < c < 256) (shortname a.1);
  io_slash : 47 ∉ shortname a.1;
  io_len : (length (shortname a.1) ≤ 14)%nat;
  io_bytes : Forall (λ c, 0 ≤ c < 256) (concat a.2);
  io_max : len (concat a.2) ≤ MAXFILE * BSIZE;
}.

Lemma dirent_ok inum nm : 0 ≤ inum < 2 ^ 16 → Forall (λ c, 0 < c < 256) nm → (length nm ≤ 14)%nat →
  length (dirent inum nm) = 16%nat ∧ Forall (λ c, 0 ≤ c < 256) (dirent inum nm).
Proof.
  intros Hi Hn Hl. unfold dirent. cbv zeta. change (Z.to_nat DIRSIZ) with 14%nat. split.
  - rewrite !length_app, length_replicate. cbn. lia.
  - constructor; [apply u8_range|]. constructor; [apply u8_range|]. cbn [app]. apply Forall_app. split; [|apply Forall_replicate; lia].
    eapply Forall_impl; [exact Hn|]. intros; cbn in *; lia.
Qed.

Lemma entries_snoc ns nm : entries (ns ++ [nm]) = entries ns ++ [dirent (len ns + 2) nm].
Proof. unfold entries. rewrite imap_app. cbn. by rewrite Nat.add_0_r. Qed.

Lemma names_snoc l a : names (l ++ [a]) = names l ++ [shortname a.1].
Proof. unfold names. by rewrite fmap_app. Qed.

Lemma image_snoc l a : image_files (l ++ [a]) =
  <[S (length l) := (T_FILE, [] ++ concat a.2)]> (<[O := (T_DIR, concat (entries (names l)) ++ dirent (len l + 2) (shortname a.1))]> (image_files l ++ [(T_FILE, [])])).
Proof.
  unfold image_files. rewrite names_snoc, entries_snoc, concat_app, fmap_app. cbn [concat fmap list_fmap app].
  change (<[O := ?y]> (?x :: ?r)) with (y :: r). change (<[S ?n := ?y]> (?x :: ?r)) with (x :: <[n := y]> r). rewrite app_nil_r. f_equal.
  - unfold names. by rewrite length_fmap.
  - rewrite insert_app_r_alt by (by rewrite length_fmap). by rewrite length_fmap, Nat.sub_diag.
Qed.

Lemma length_image l : length (image_files l) = S (length l).
Proof. unfold image_files. cbn. by rewrite length_fmap. Qed.

(** The directory of [k] files. *)
Lemma length_entries ns : Forall (λ nm, Forall (λ c, 0 < c < 256) nm ∧ (length nm ≤ 14)%nat) ns → len ns + 2 < 2 ^ 16 →
  Forall (λ e, length e = 16%nat) (entries ns) ∧ length (concat (entries ns)) = (16 * (length ns + 2))%nat ∧ length (entries ns) = (length ns + 2)%nat.
Proof.
  intros Hn Hl. assert (H16 : Forall (λ e, length e = 16%nat) (entries ns)).
  { unfold entries. constructor; [done|]. constructor; [done|]. apply Forall_lookup. intros i e. rewrite list_lookup_imap.
    intros (nm & Hnm & ->)%fmap_Some. rewrite Forall_lookup in Hn. destruct (Hn i nm Hnm). pose proof (lookup_lt_Some _ _ _ Hnm). apply dirent_ok; [lia | done..]. }
  split; [done|]. assert (Hle : length (entries ns) = (length ns + 2)%nat) by (unfold entries; cbn; rewrite length_imap; lia). split; [|done].
  rewrite <- Hle. clear -H16. induction H16 as [|e l He _ IH]; cbn [concat length]; [done|]. rewrite length_app. lia.
Qed.

Lemma names_ok l : Forall input_ok l → Forall (λ nm, Forall (λ c, 0 < c < 256) nm ∧ (length nm ≤ 14)%nat) (names l).
Proof. intros H. unfold names. apply Forall_fmap. eapply Forall_impl; [exact H|]. intros a [? ? ? ? ?]. by split. Qed.

(** Adding a file. *)
Lemma add_file_ok s C l B a : built s C (image_files l) B → Forall input_ok l → input_ok a → len l + 2 < NINODES →
  total (image_files (l ++ [a])) ≤ FSSIZE →
  ∃ s' C', add_file 1 (a.1, Some a.2) s = Ok (tt, s') ∧ built s' C' (image_files (l ++ [a])) B.
Proof.
  intros Hb Hl Ha Hn Htot. pose proof Ha as [A1 A2 A3 A4 A5]. unfold NINODES in *. cbn [add_file]. rewrite bool_decide_false by done.
  change DIRSIZ with 14. destruct (Z.leb_spec (len (shortname a.1)) 14); [cbn [negb]|lia].
  destruct (ialloc_ok s C (image_files l) B T_FILE Hb) as (s1 & C1 & R1 & Hb1); [done | rewrite length_image; unfold NINODES; lia|].
  rewrite length_image in R1. replace (Z.of_nat (S (length l)) + 1) with (len l + 2) in R1 by lia. run R1.
  set (F := image_files l ++ [(T_FILE, [])]) in *. set (dir := concat (entries (names l))).
  destruct (dirent_ok (len l + 2) (shortname a.1)) as [Hd1 Hd2]; [lia | done | done|].
  assert (Hdir : length dir = (16 * (length l + 2))%nat).
  { unfold dir. destruct (length_entries (names l)) as (_ & -> & _); [by apply names_ok | unfold names; rewrite length_fmap; lia | unfold names; by rewrite length_fmap]. }
  rewrite image_snoc in Htot |- *. fold dir F in Htot |- *. set (F1 := <[O := (T_DIR, dir ++ dirent (len l + 2) (shortname a.1))]> F) in *.
  assert (HF0 : F !! O = Some (T_DIR, dir)) by done.
  assert (HF1 : F1 !! S (length l) = Some (T_FILE, [])).
  { unfold F1, F. rewrite list_lookup_insert_ne by done. rewrite lookup_app_r by (rewrite length_image; lia). by rewrite length_image, Nat.sub_diag. }
  destruct (append_file s1 C1 F B 0 T_DIR dir (dirent (len l + 2) (shortname a.1)) Hb1 HF0 Hd2) as (s2 & C2 & R2 & Hb2).
  { rewrite length_app, Hdir, Hd1. change (MAXFILE * BSIZE) with 274432. lia. }
  { etrans; [exact (total_mono F1 (S (length l)) _ (T_FILE, [] ++ concat a.2) HF1 ltac:(cbn; lia)) | done]. }
  change (Z.of_nat 0 + 1) with 1 in R2. run R2.
  destruct (append_all_ok a.2 s2 C2 F1 B (S (length l)) T_FILE [] Hb2 HF1 A4 A5 Htot) as (s3 & C3 & R3 & Hb3).
  replace (Z.of_nat (S (length l)) + 1) with (len l + 2) in R3 by lia. by exists s3, C3.
Qed.

Lemma total_snoc l a : Forall input_ok (l ++ [a]) → len (l ++ [a]) + 2 < 2 ^ 16 → total (image_files l) ≤ total (image_files (l ++ [a])).
Proof.
  intros H Hn. unfold image_files. change (total (?x :: ?r)) with (fblocks (len x.2) + total r). rewrite fmap_app, total_app, names_snoc, entries_snoc, concat_app. cbn [fst snd].
  pose proof (fblocks_mono (len (concat (entries (names l)))) (len (concat (entries (names l)) ++ concat [dirent (len (names l) + 2) (shortname a.1)])) ltac:(rewrite length_app; lia)).
  pose proof (fblocks_nonneg (len (concat a.2)) ltac:(lia)).
  change (total ((λ a0 : input, (T_FILE, concat a0.2)) <$> [a])) with (fblocks (len (concat a.2)) + 46). lia.
Qed.

Lemma total_prefix k m : Forall input_ok (k ++ m) → len (k ++ m) + 1 < NINODES → total (image_files k) ≤ total (image_files (k ++ m)).
Proof.
  induction m as [|b m IH] using rev_ind; intros Hk Hkn; [by rewrite app_nil_r|]. rewrite app_assoc in *.
  etrans; [apply IH | apply total_snoc; [done | unfold NINODES in *; lia]]; [by apply Forall_app in Hk as [? _] | rewrite length_app in Hkn; lia].
Qed.

Lemma add_files_ok l : ∀ s C l0 B, built s C (image_files l0) B → Forall input_ok (l0 ++ l) → len (l0 ++ l) + 1 < NINODES →
  total (image_files (l0 ++ l)) ≤ FSSIZE →
  ∃ s' C', add_files 1 ((λ a, (a.1, Some a.2)) <$> l) s = Ok (tt, s') ∧ built s' C' (image_files (l0 ++ l)) B.
Proof.
  induction l as [|a l IH]; intros s C l0 B Hb Hok Hn Htot; cbn [fmap list_fmap add_files].
  - exists s, C. by rewrite app_nil_r.
  - rewrite cons_middle, app_assoc in Hok, Hn, Htot |- *. pose proof (total_prefix (l0 ++ [a]) l Hok Hn) as Hle. pose proof Hok as [Hok1 _]%Forall_app. pose proof Hok1 as [Hl0 Ha]%Forall_app. rewrite Forall_singleton in Ha.
    rewrite !length_app in Hn. cbn in Hn. destruct (add_file_ok s C l0 B a Hb Hl0 Ha ltac:(unfold NINODES in *; lia) ltac:(lia)) as (s1 & C1 & R1 & Hb1). run R1.
    apply (IH s1 C1 (l0 ++ [a]) B Hb1 Hok); [rewrite !length_app; cbn; lia | done].
Qed.

(** ** Directory entries *)

Lemma byte_of_concat L : ∀ j e i, Forall (λ e, length e = 16%nat) L → L !! j = Some e → 0 ≤ i < 16 → byte_of (concat L) (DIRENT_SIZE * Z.of_nat j + i) = byte_of e i.
Proof.
  unfold DIRENT_SIZE. induction L as [|x L IH]; intros j e i HL Hj Hi; [done|]. apply Forall_cons in HL as [Hx HL]. cbn [concat].
  rewrite byte_of_app by lia. destruct j as [|j].
  - injection Hj as ->. rewrite decide_True by lia. f_equal.
  - rewrite decide_False by lia. rewrite <- (IH j e i) by done. f_equal. lia.
Qed.

Lemma fstr_name n : ∀ nm g o, Forall (λ c, 0 < c < 256) nm → (length nm ≤ n)%nat → (∀ i, 0 ≤ i < len nm → g (o + i) = byte_of nm i) →
  ((length nm < n)%nat → g (o + len nm) = 0) → fstr n g o = nm.
Proof.
  induction n as [|n IH]; intros [|c nm] g o Hc Hl Hg Hz; cbn [fstr length] in *; [done | lia | |].
  - specialize (Hz ltac:(lia)). rewrite Z.add_0_r in Hz. by rewrite Hz.
  - apply Forall_cons in Hc as [Hc Hn]. pose proof (Hg 0 ltac:(lia)) as H0. rewrite Z.add_0_r in H0. rewrite H0.
    change (byte_of (c :: nm) 0) with c. destruct (Z.eqb_spec c 0); [lia|]. f_equal. apply IH; [done | lia | |].
    + intros i Hi. replace (o + 1 + i) with (o + (i + 1)) by lia. rewrite Hg by lia. unfold byte_of. by replace (Z.to_nat (i + 1)) with (S (Z.to_nat i)) by lia.
    + intros Hlt. rewrite <- Hz by lia. f_equal. lia.
Qed.

(** An entry of the directory reads as its number and its name. *)
Lemma dirent_read g j inum nm : 0 ≤ inum < 2 ^ 16 → Forall (λ c, 0 < c < 256) nm → (length nm ≤ 14)%nat →
  (∀ i, 0 ≤ i < 16 → g (DIRENT_SIZE * j + i) = byte_of (dirent inum nm) i) → dnum g j = inum ∧ dname g j = nm.
Proof.
  intros Hi Hn Hl Hg. assert (Hs : xshort inum = inum) by by apply xshort_id.
  assert (Hb : ∀ i, 0 ≤ i < 14 → g (DIRENT_SIZE * j + 2 + i) = byte_of (nm ++ replicate (14 - length nm) 0) i).
  { intros i Hii. rewrite <- Z.add_assoc, Hg by lia. unfold byte_of, dirent. cbv zeta. change (Z.to_nat DIRSIZ) with 14%nat.
    replace (Z.to_nat (2 + i)) with (S (S (Z.to_nat i))) by lia. done. }
  split.
  - unfold dnum. pose proof (Hg 0 ltac:(lia)) as H0. pose proof (Hg 1 ltac:(lia)) as H1. rewrite Z.add_0_r in H0. rewrite H0, H1.
    unfold dirent. rewrite Hs. change (byte_of (?a :: ?b :: ?r) 0) with a. cbn [app]. change (byte_of (?a :: ?b :: ?r) 1) with b. change (byte_of (?a :: ?r) 0) with a.
    unfold u8. zdiv.
  - unfold dname. change (Z.to_nat DIRSIZ) with 14%nat. apply fstr_name; [done | done | |].
    + intros i Hii. rewrite Hb, byte_of_app, decide_True by lia. done.
    + intros Hlt. rewrite Hb, byte_of_app, decide_False by lia. rewrite Z.sub_diag. unfold byte_of. cbn. by rewrite lookup_replicate_2 by lia.
Qed.

(** ** The finished image *)

(** What the kernel finds on a disk with the files [l]: a superblock and an empty log, a bitmap
    that covers the metadata, a root directory with an entry for every file, and the files. *)
Record image_ok (C : Z → block) (l : list input) : Prop := {
  im_sb : get_sb (C 1) = sb ∧ sb_magic sb = FSMAGIC ∧ sb_wf sb;
  im_log : hdr_n (C (sb_logstart sb)) = 0 ∧ log_fit ROOTDEV (disk_log ROOTDEV (sb_logstart sb) (sb_nlog sb) C);
  im_meta : meta_used sb C;
  im_root : let d := dino sb C ROOTINO in inode_wf sb C d ∧ di_type d = T_DIR ∧ di_nlink d = 1 ∧ ∃ k, dir_wf C d k ∧
    len l + 2 ≤ Z.of_nat k ∧ ∀ j, len l + 2 ≤ j < Z.of_nat k → dnum (fbyte C d) j = 0;
  im_dots : let g := fbyte C (dino sb C ROOTINO) in
    (dnum g 0 = ROOTINO ∧ dname g 0 = [46]) ∧ dnum g 1 = ROOTINO ∧ dname g 1 = [46; 46];
  im_entry j a : l !! j = Some a → let g := fbyte C (dino sb C ROOTINO) in
    dnum g (Z.of_nat j + 2) = Z.of_nat j + 2 ∧ dname g (Z.of_nat j + 2) = shortname a.1;
  im_file j a : l !! j = Some a → let d := dino sb C (Z.of_nat j + 2) in
    inode_wf sb C d ∧ di_type d = T_FILE ∧ di_nlink d = 1 ∧ di_size d = len (concat a.2) ∧ no_holes C d ∧
    ∀ o, 0 ≤ o < di_size d → fbyte C d o = byte_of (concat a.2) o;
  im_disjoint i j : 1 ≤ i ≤ len l + 1 → 1 ≤ j ≤ len l + 1 → i ≠ j → disjoint_files C (dino sb C i) (dino sb C j);
  im_free i : len l + 1 < i < NINODES → di_type (dino sb C i) = 0;
}.

(** The inode table after the root's size is rounded up. *)
Lemma resize_root C F n : files C F → (0 < length F)%nat → 0 ≤ n < 2 ^ 32 →
  let d := set_size n (ino C 0) in let C' := put_dino sb C 1 d in
  (∀ i, Z.of_nat i + 1 < NINODES → ino C' i = if decide (i = 0%nat) then d else ino C i) ∧
  (∀ i e, F !! i = Some e → file_ok C' (ino C i) e ∧ ∀ a, owns C' (ino C i) a ↔ owns C (ino C i) a) ∧
  (∀ a, 0 ≤ a < FSSIZE → used sb C' a = used sb C a) ∧ (∀ a, a < 32 ∨ 45 ≤ a → C' a = C a).
Proof.
  intros HF H0 Hn d C'. destruct (lookup_lt_is_Some_2 F 0 H0) as [e0 E0]. pose proof (fs_file _ _ HF 0%nat e0 E0) as Hok0.
  destruct (inum_small 1 ltac:(done)) as [Hin Hib].
  assert (Hdok : dinode_ok d) by (destruct (fo_ok _ _ _ Hok0); by split).
  assert (Hu : ∀ a, 0 ≤ a < FSSIZE → used sb C' a = used sb C a).
  { intros a Ha. unfold C'. rewrite put_dino_used; [done | apply sb_fine | done | by rewrite sb_eq]. }
  assert (Hk : ∀ a, a < 32 ∨ 45 ≤ a → C' a = C a) by (intros a Ha; unfold C'; apply put_dino_other; lia).
  split_and!; [| |done | done].
  - intros i Hi. unfold ino, C'. rewrite dino_put; [|done | apply inum_small; lia | done].
    destruct (decide (Z.of_nat i + 1 = 1)), (decide (i = 0%nat)); try done; lia.
  - intros i e Hi. pose proof (fs_file _ _ HF i e Hi) as Hok. assert (Hown : ∀ a, owns C (ino C i) a → C' a = C a ∧ used sb C' a = true).
    { intros a Ha. destruct (iw_data _ _ _ (fo_wf _ _ _ Hok) a Ha) as [Hr Hua]. rewrite sb_data, sb_eq in Hr. cbn in Hr.
      rewrite Hu by (unfold FSSIZE; lia). split; [apply Hk; lia | done]. }
    split; [apply (file_ok_ext C); [done | intros a Ha; by apply Hown | intros a Ha; by apply Hown]|].
    eapply file_ext; [apply (fo_wf _ _ _ Hok) | intros a Ha; by apply Hown | intros a Ha; by apply Hown].
Qed.

(** The size of the root directory is a whole number of blocks, all of them there. *)
Lemma root_dir C d c n : file_ok C d (T_DIR, c) → len c mod BSIZE ≠ 0 → len c ≤ 4096 → n = (len c / BSIZE + 1) * BSIZE →
  dir_wf C (set_size n d) (Z.to_nat (n / DIRENT_SIZE)).
Proof.
  intros Hok Hm Hl ->. pose proof (fo_tight _ _ _ Hok) as [Ht _]. cbn [snd] in Ht. change BSIZE with 1024 in *. split; cbn [set_size di_size].
  - intros bn Hbn Hs. change (fblk C (set_size ?n d) bn) with (fblk C d bn). cbn [set_size di_size] in Hs. change BSIZE with 1024 in Hs. apply Ht; [change MAXFILE with 268; zdiv|]. change BSIZE with 1024. zdiv.
  - unfold DIRENT_SIZE. zdiv.
  - change (MAXFILE * BSIZE) with 274432. zdiv.
Qed.

Lemma empty_log_fit C : hdr_n (C 2) = 0 → log_fit ROOTDEV (disk_log ROOTDEV 2 30 C).
Proof. intros E. split; unfold disk_log; cbn [l_dev lh_n l_size l_start lh_block]; rewrite ?E; try done; intros; lia. Qed.

Section finished.
  Context (s : mkstate) (C B : Z → block) (l : list input) (n : Z).
  Context (Hb : built s C (image_files l) B) (Hin : Forall input_ok l) (Hn : len l + 1 < NINODES) (Hm : (len l + 2) mod 64 ≠ 0).
  Context (En : n = (DIRENT_SIZE * (len l + 2) / BSIZE + 1) * BSIZE).
  Abbreviation root := (set_size n (ino C 0)).
  Abbreviation C' := (put_dino sb C 1 root).

Lemma dir_length : len (concat (entries (names l))) = DIRENT_SIZE * (len l + 2) ∧ Forall (λ e, length e = 16%nat) (entries (names l)) ∧
  length (entries (names l)) = (length l + 2)%nat.
Proof.
  clear Hm. assert (Hnl : length (names l) = length l) by (unfold names; by rewrite length_fmap). assert (HN : NINODES = 200) by done.
  destruct (length_entries (names l)) as (He1 & He2 & He3); [by apply names_ok | rewrite Hnl; lia|]. unfold DIRENT_SIZE. rewrite He2, He3, Hnl. split_and!; [lia | done | done].
Qed.

Lemma root_size : 0 ≤ n < 2 ^ 32 ∧ n ≤ MAXFILE * BSIZE.
Proof. clear Hm. assert (HN : NINODES = 200) by done. rewrite En. unfold DIRENT_SIZE. change MAXFILE with 268. change BSIZE with 1024. zdiv. Qed.

Lemma finished_files :
  (∀ i, Z.of_nat i + 1 < NINODES → ino C' i = if decide (i = 0%nat) then root else ino C i) ∧
  (∀ i e, image_files l !! i = Some e → file_ok C' (ino C i) e ∧ ∀ a, owns C' (ino C i) a ↔ owns C (ino C i) a) ∧
  (∀ a, 0 ≤ a < FSSIZE → used sb C' a = used sb C a) ∧ (∀ a, a < 32 ∨ 45 ≤ a → C' a = C a).
Proof. apply (resize_root C (image_files l)); [apply Hb | rewrite length_image; lia | apply root_size]. Qed.

Lemma finished_root : dino sb C' ROOTINO = root.
Proof. destruct finished_files as [Hino _]. change (dino sb C' ROOTINO) with (ino C' 0). by rewrite Hino. Qed.

Lemma finished_root_ok : file_ok C' (ino C 0) (T_DIR, concat (entries (names l))).
Proof. destruct finished_files as (_ & Hf & _). by apply (Hf 0%nat). Qed.

(** Entry [j] of the root directory. *)
Lemma finished_entry j inum nm : entries (names l) !! j = Some (dirent inum nm) → 0 ≤ inum < 2 ^ 16 → Forall (λ c, 0 < c < 256) nm → (length nm ≤ 14)%nat →
  dnum (fbyte C' root) (Z.of_nat j) = inum ∧ dname (fbyte C' root) (Z.of_nat j) = nm.
Proof.
  intros Hj Hi Hnm Hl. destruct dir_length as (_ & He1 & He2). assert (HN : NINODES = 200) by done. apply dirent_read; [done..|].
  intros i Hii. change (fbyte C' root) with (fbyte C' (ino C 0)). rewrite (fo_byte _ _ _ finished_root_ok); [by apply byte_of_concat|].
  apply lookup_lt_Some in Hj. unfold DIRENT_SIZE. change (MAXFILE * BSIZE) with 274432. lia.
Qed.

Lemma finished_rest j : len l + 2 ≤ j < n / DIRENT_SIZE → dnum (fbyte C' root) j = 0.
Proof.
  intros Hj. destruct dir_length as (He & _). destruct root_size as [_ Hs]. unfold DIRENT_SIZE in *. change (MAXFILE * BSIZE) with 274432 in *.
  assert (H : ∀ i, 0 ≤ i < 2 → fbyte C' root (16 * j + i) = 0).
  { intros i Hi. change (fbyte C' root) with (fbyte C' (ino C 0)). rewrite (fo_byte _ _ _ finished_root_ok) by (change (MAXFILE * BSIZE) with 274432; zdiv).
    unfold byte_of. cbn [snd]. by rewrite lookup_ge_None_2 by lia. }
  unfold dnum, DIRENT_SIZE. pose proof (H 0 ltac:(lia)) as H0. rewrite Z.add_0_r in H0. rewrite H0, H by lia. done.
Qed.

Lemma finished_dir : dir_wf C' root (Z.to_nat (n / DIRENT_SIZE)).
Proof.
  destruct dir_length as (He & _). eapply root_dir; [exact finished_root_ok | | | by rewrite He]; rewrite He; unfold DIRENT_SIZE; assert (HN : NINODES = 200) by done; [|lia].
  revert Hm. change BSIZE with 1024. zdiv.
Qed.

Lemma finished_disjoint i j : 1 ≤ i ≤ len l + 1 → 1 ≤ j ≤ len l + 1 → i ≠ j → disjoint_files C' (dino sb C' i) (dino sb C' j).
Proof.
  intros Hi Hj Hij. destruct finished_files as (Hino & Hf & _). assert (HN : NINODES = 200) by done.
  assert (Hd : ∀ k, 1 ≤ k ≤ len l + 1 → ∀ a, owns C' (dino sb C' k) a ↔ owns C (ino C (Z.to_nat (k - 1))) a).
  { intros k Hk a. destruct (lookup_lt_is_Some_2 (image_files l) (Z.to_nat (k - 1))) as [e He]; [rewrite length_image; lia|].
    destruct (Hf _ e He) as [_ <-]. replace (dino sb C' k) with (ino C' (Z.to_nat (k - 1))) by (unfold ino; f_equal; lia).
    rewrite Hino by lia. by destruct (decide (Z.to_nat (k - 1) = 0%nat)) as [->|]. }
  pose proof (fs_disjoint _ _ (bt_files _ _ _ _ Hb) (Z.to_nat (i - 1)) (Z.to_nat (j - 1)) ltac:(rewrite length_image; lia) ltac:(rewrite length_image; lia) ltac:(lia)) as H.
  intros a Ha Hb'. apply (H a); [by apply (Hd i Hi) | by apply (Hd j Hj)].
Qed.

Lemma finished_image : get_sb (B 1) = sb → B 2 = ∅ → image_ok C' l.
Proof.
  intros Hsb Hlog. destruct finished_files as (Hino & Hf & Hu & Hk). pose proof Hb as [Hr HF Hfi Hfb HL]. pose proof (rp_free _ _ Hr). assert (HN : NINODES = 200) by done.
  assert (E2 : hdr_n (C' 2) = 0) by (by rewrite Hk, HL, Hlog by lia).
  split; rewrite ?finished_root.
  - rewrite Hk, HL by lia. split_and!; [done | by rewrite sb_eq | apply sb_fine].
  - replace (sb_logstart sb) with 2 by (by rewrite sb_eq). replace (sb_nlog sb) with 30 by (by rewrite sb_eq). split; [done | by apply empty_log_fit].
  - intros a Ha. rewrite Hu; [by apply (rep_meta _ _ Hr)|]. rewrite sb_data in Ha. unfold FSSIZE. lia.
  - split_and!; [destruct (fo_wf _ _ _ finished_root_ok); by split | apply (fo_type _ _ _ finished_root_ok) | apply (fo_nlink _ _ _ finished_root_ok)|].
    exists (Z.to_nat (n / DIRENT_SIZE)). split_and!; [apply finished_dir | rewrite En; unfold DIRENT_SIZE; change BSIZE with 1024; zdiv |].
    intros j Hj. apply finished_rest. pose proof root_size. unfold DIRENT_SIZE in *. zdiv.
  - split; [apply (finished_entry 0 1 [46]) | apply (finished_entry 1 1 [46; 46])]; by repeat constructor.
  - intros j a Hj. destruct (Forall_lookup_1 _ _ _ _ Hin Hj) as [A1 _ A3 _ _]. pose proof (lookup_lt_Some _ _ _ Hj).
    replace (Z.of_nat j + 2) with (Z.of_nat (S (S j))) by lia. apply finished_entry; [|lia | done | done].
    change (entries (names l) !! S (S j)) with (imap (λ j nm, dirent (Z.of_nat j + 2) nm) (names l) !! j).
    unfold names. rewrite list_lookup_imap, list_lookup_fmap, Hj. cbn [fmap option_fmap option_map]. do 2 f_equal. lia.
  - intros j a Hj. pose proof (lookup_lt_Some _ _ _ Hj). replace (dino sb C' (Z.of_nat j + 2)) with (ino C' (S j)) by (unfold ino; f_equal; lia).
    rewrite Hino, decide_False by lia. destruct (Hf (S j) (T_FILE, concat a.2)) as [[F1 F2 F3 F4 F5 [F6 _] F7] _]; [change (image_files l !! S j) with (((λ a, (T_FILE, concat a.2)) <$> l) !! j); by rewrite list_lookup_fmap, Hj|].
    cbn [fst snd] in *. pose proof (io_max _ (Forall_lookup_1 _ _ _ _ Hin Hj)) as Hmx. change (MAXFILE * BSIZE) with 274432 in Hmx. split_and!; try done.
    + intros bn Hbn Hs. apply F6; [change MAXFILE with 268; change BSIZE with 1024 in Hs; lia | lia].
    + intros o Ho. apply F7. change (MAXFILE * BSIZE) with 274432. lia.
  - apply finished_disjoint.
  - intros i Hi. replace (dino sb C' i) with (ino C' (Z.to_nat (i - 1))) by (unfold ino; f_equal; lia). rewrite Hino, decide_False by lia.
    apply (fs_free _ _ HF); [rewrite length_image; lia | lia].
Qed.
End finished.

(** ** main *)

Lemma zero_sects_ok k : ∀ i s, (∀ n, img s n = ∅) → img_len s = i → 0 ≤ i →
  ∃ s', zero_sects k i s = Ok (tt, s') ∧ (∀ n, img s' n = ∅) ∧ img_len s' = i + Z.of_nat k ∧ freeinode s' = freeinode s ∧ freeblock s' = freeblock s.
Proof.
  induction k as [|k IH]; intros i s Hs Hl Hi; cbn [zero_sects].
  - exists s. split_and!; [done | done | lia | done | done].
  - unfold wsect. rewrite bind_modify. destruct (IH (i + 1) (mkMk (<[i := ∅]> (img s)) (Z.max (img_len s) (i + 1)) (freeinode s) (freeblock s)))
      as (s' & R & H1 & H2 & H3 & H4); cbn [img img_len freeinode freeblock] in *; [|lia..|].
    + intros n. destruct (decide (n = i)) as [->|]; [by rewrite fn_lookup_insert | by rewrite fn_lookup_insert_ne].
    + exists s'. split_and!; [exact R | done | lia | done | done].
Qed.

Lemma get_put_sb x : Forall (λ v, 0 ≤ v < 2 ^ 32) [sb_magic x; sb_size x; sb_nblocks x; sb_ninodes x; sb_nlog x; sb_logstart x; sb_inodestart x; sb_bmapstart x] →
  get_sb (put_sb ∅ x) = x.
Proof.
  intros H. rewrite !Forall_cons in H. destruct H as (H1 & H2 & H3 & H4 & H5 & H6 & H7 & H8 & _). unfold get_sb, put_sb.
  repeat (rewrite ?ld32_st32_eq; try (rewrite ld32_st32_ne by lia)). rewrite !u32_small by done. by destruct x.
Qed.

(** The image before the root directory is made. *)
Lemma start_built s : (∀ n, img s n = ∅) → img_len s = FSSIZE → freeinode s = 1 → freeblock s = 46 →
  ∃ s' C B, wsect 1 (put_sb ∅ sb) s = Ok (tt, s') ∧ built s' C [] B ∧ get_sb (B 1) = sb ∧ B 2 = ∅.
Proof.
  intros Hs Hl Hi Hb. set (v := put_sb ∅ sb). set (s' := mkMk (<[1 := v]> (img s)) (Z.max (img_len s) (1 + 1)) (freeinode s) (freeblock s)).
  set (C := λ n, if n =? 45 then bits 46 else img s' n). exists s', C, (img s').
  assert (Hz : ∀ n, n ≠ 1 → img s' n = ∅) by (intros n Hn; cbn [s' img]; by rewrite fn_lookup_insert_ne).
  split_and!; [done | | |by apply Hz].
  - assert (Hr : rep s' C).
    { split; cbn [s' img_len freeblock]; rewrite ?Hl, ?Hb; [done | unfold FSSIZE; lia | done | |].
      - intros n Hn. unfold C. by destruct (Z.eqb_spec n 45).
      - intros n Hn. apply Hz. lia. }
    split; [done | split | done | done |]; cbn [length]; [done | lia | | done |].
    + intros i _ Hn. unfold ino, dino. destruct (inum_small (Z.of_nat i + 1) ltac:(lia)) as [_ Hib]. unfold C.
      destruct (Z.eqb_spec (IBLOCK (Z.of_nat i + 1) sb) 45); [lia|]. by rewrite Hz by lia.
    + intros a Ha. unfold C. by destruct (Z.eqb_spec a 45); [lia|].
  - cbn [s' img]. rewrite fn_lookup_insert. apply get_put_sb. rewrite sb_eq. apply (bool_decide_unpack _). by vm_compute.
Qed.

(** The root directory and its first entries. *)
Lemma root_made s C B : built s C [] B →
  ∃ s' C', (∀ A (k : Z → MK A), (rootino ← ialloc T_DIR;
    if negb (rootino =? ROOTINO) then panic "rootino == ROOTINO"
    else iappend rootino (dirent rootino [46]);; iappend rootino (dirent rootino [46; 46]);; k rootino) s = k 1 s') ∧ built s' C' (image_files []) B.
Proof.
  intros Hb. destruct (ialloc_ok s C [] B T_DIR Hb) as (s2 & C2 & R2 & Hb2); [done | done|]. change (len [] + 1) with 1 in R2.
  destruct (dirent_ok 1 [46]) as [_ D1]; [done | by repeat constructor | cbn; lia|]. destruct (dirent_ok 1 [46; 46]) as [_ D2]; [done | by repeat constructor | cbn; lia|].
  destruct (append_file s2 C2 ([] ++ [(T_DIR, [])]) B 0 T_DIR [] (dirent 1 [46]) Hb2 eq_refl D1) as (s3 & C3 & R3 & Hb3); [by vm_compute | by vm_compute|].
  destruct (append_file s3 C3 _ B 0 T_DIR ([] ++ dirent 1 [46]) (dirent 1 [46; 46]) Hb3 eq_refl D2) as (s4 & C4 & R4 & Hb4); [by vm_compute | by vm_compute|].
  exists s4, C4. split; [|exact Hb4]. change (Z.of_nat 0 + 1) with 1 in *. intros A k. run R2. cbn [Z.eqb negb ROOTINO Pos.eqb]. run R3. run R4. done.
Qed.

(** The last steps: the root's size, and the bitmap. *)
Lemma finish_ok s C B l : built s C (image_files l) B → Forall input_ok l → len l + 1 < NINODES → total (image_files l) ≤ FSSIZE →
  let n := (DIRENT_SIZE * (len l + 2) / BSIZE + 1) * BSIZE in let C' := put_dino sb C 1 (set_size n (ino C 0)) in
  ∃ s', (din ← rinode 1; let off := (xint (di_size din) / BSIZE + 1) * BSIZE in
    winode 1 (set_size (xint off) din);; s ← get; balloc (freeblock s)) s = Ok (tt, s') ∧ (∀ b, img s' b = C' b) ∧
    ∀ b, 0 ≤ b < FSSIZE → used sb C' b = (b <? total (image_files l)).
Proof.
  intros Hb Hin Hn Htot n C'. pose proof Hb as [Hr HF Hfi Hfb HL]. assert (HN : NINODES = 200) by done.
  rewrite (bind_ok _ _ _ _ _ (rinode_ok s C 1 Hr ltac:(done))). change (dino sb C 1) with (ino C 0).
  pose proof (fs_file _ _ HF 0%nat _ eq_refl) as Hroot. pose proof (do_size _ (fo_ok _ _ _ Hroot)) as Hsz. pose proof (fo_size _ _ _ Hroot) as Es. cbn [snd] in Es.
  destruct (dir_length l Hin Hn) as (He & _). rewrite He in Es. destruct (root_size l n Hn eq_refl) as [Hs1 _].
  cbv zeta. rewrite (xint_id (di_size (ino C 0))), Es by done. fold n. rewrite (xint_id n) by done.
  destruct (winode_ok s C 1 (set_size n (ino C 0)) Hr ltac:(done)) as (s2 & R & Hr2 & Hk & _). fold C' in Hr2. run R. rewrite bind_get, Hk, Hfb. unfold balloc.
  pose proof (rp_free _ _ Hr). unfold FSSIZE in *. change BPB with 8192. destruct (Z.ltb_spec (total (image_files l)) 8192); [cbn [negb]|lia].
  unfold wsect, modify. replace (sb_bmapstart sb) with 45 by by rewrite sb_eq. eexists. split; [reflexivity|]. split.
  - intros b. cbn [img]. fold (bits (total (image_files l))). destruct (decide (b = 45)) as [->|Hb45].
    + rewrite fn_lookup_insert. rewrite (rp_bits _ _ Hr2), Hk, Hfb. done.
    + rewrite fn_lookup_insert_ne by done. symmetry. by apply (rp_img _ _ Hr2).
  - intros b Hb'. by rewrite (rep_used _ _ _ Hr2), Hk, Hfb.
Qed.

(** The run of [main]. *)
Lemma main_built l : Forall input_ok l → len l + 1 < NINODES → total (image_files l) ≤ FSSIZE →
  let n := (DIRENT_SIZE * (len l + 2) / BSIZE + 1) * BSIZE in
  ∃ s s3 C B, let C' := put_dino sb C 1 (set_size n (ino C 0)) in
    main ((λ a, (a.1, Some a.2)) <$> l) start = Ok (tt, s) ∧ (∀ b, img s b = C' b) ∧ built s3 C (image_files l) B ∧
    get_sb (B 1) = sb ∧ B 2 = ∅ ∧ ∀ b, 0 ≤ b < FSSIZE → used sb C' b = (b <? total (image_files l)).
Proof.
  intros Hin Hn Htot n. unfold main. rewrite bind_modify. cbn [start img img_len freeinode].
  destruct (zero_sects_ok (Z.to_nat FSSIZE) 0 (mkMk (λ _, ∅) 0 1 nmeta)) as (s0 & R0 & Z1 & Z2 & Z3 & Z4); [done..|]. run R0.
  destruct (start_built s0 Z1) as (s1 & C1 & B & R1 & Hb1 & Hsb & Hlog); [done | done | by rewrite Z4|]. run R1.
  destruct (root_made s1 C1 B Hb1) as (s2 & C2 & R2 & Hb2). rewrite (R2 _ (λ rootino, add_files rootino _;; _)).
  destruct (add_files_ok l s2 C2 [] B Hb2 Hin Hn Htot) as (s3 & C3 & R3 & Hb3). run R3.
  destruct (finish_ok s3 C3 B l Hb3 Hin Hn Htot) as (s4 & R4 & Himg & Hu). exists s4, s3, C3, B. split_and!; [exact R4 | exact Himg | exact Hb3 | exact Hsb | exact Hlog | exact Hu].
Qed.

(** C12. For files that fit, with names of at most [DIRSIZ] characters, mkfs builds an image in
    which the kernel finds them: the superblock and the empty log are well-formed, the bitmap
    marks exactly the blocks in use, the root directory has an entry for every file and no
    other, and every inode holds its file, apart from the others.  The number of directory
    entries must not be a multiple of the 64 a block holds. *)
Theorem mkfs_spec (l : list input) :
  Forall input_ok l → len l + 1 < NINODES → (len l + 2) mod 64 ≠ 0 → total (image_files l) ≤ FSSIZE →
  ∃ s C, main ((λ a, (a.1, Some a.2)) <$> l) start = Ok (tt, s) ∧ (∀ n, img s n = C n) ∧ image_ok C l ∧
    ∀ b, 0 ≤ b < FSSIZE → used sb C b = (b <? total (image_files l)).
Proof.
  intros Hin Hn Hm Htot. destruct (main_built l Hin Hn Htot) as (s & s3 & C & B & R & Himg & Hb & Hsb & Hlog & Hu).
  eexists s, _. split_and!; [exact R | exact Himg | | exact Hu]. by apply (finished_image s3 C B l _ Hb).
Qed.

(** One program of two bytes. *)
Lemma mkfs_spec_witness : ∃ s C,
  main [([117; 115; 101; 114; 47; 95; 108; 115], Some [[127; 69]])] start = Ok (tt, s) ∧ (∀ n, img s n = C n) ∧
  image_ok C [([117; 115; 101; 114; 47; 95; 108; 115], [[127; 69]])] ∧ used sb C 47 = true ∧ used sb C 48 = false.
Proof.
  destruct (mkfs_spec [([117; 115; 101; 114; 47; 95; 108; 115], [[127; 69]])]) as (s & C & R & H1 & H2 & H3).
  - constructor; [|constructor]. split; apply (bool_decide_unpack _); by vm_compute.
  - by vm_compute.
  - by vm_compute.
  - by vm_compute.
  - exists s, C. split; [exact R|]. split; [exact H1|]. split; [exact H2|]. unfold FSSIZE in H3.
    split; (etrans; [apply H3; lia|]; vm_compute; reflexivity).
Defined.

(** With a multiple of 64 directory entries the size of the root directory takes in a block
    that is not there. *)
Theorem mkfs_root_hole (l : list input) :
  Forall input_ok l → len l + 1 < NINODES → (len l + 2) mod 64 = 0 → total (image_files l) ≤ FSSIZE →
  ∃ s C, main ((λ a, (a.1, Some a.2)) <$> l) start = Ok (tt, s) ∧ (∀ n, img s n = C n) ∧ ¬ no_holes C (dino sb C ROOTINO).
Proof.
  intros Hin Hn Hm Htot. destruct (main_built l Hin Hn Htot) as (s & s3 & C & B & R & Himg & Hb & _).
  eexists s, _. split_and!; [exact R | exact Himg|]. rewrite (finished_root s3 C B l _ Hb Hn eq_refl). intros Hh.
  pose proof (finished_root_ok s3 C B l _ Hb Hn eq_refl) as Hr. destruct (fo_tight _ _ _ Hr) as [Ht _]. cbn [snd] in Ht.
  destruct (dir_length l Hin Hn) as (He & _). rewrite He in Ht. unfold DIRENT_SIZE, NINODES in *. change BSIZE with 1024 in *.
  assert (Hbn : 16 * (len l + 2) / 1024 * 1024 = 16 * (len l + 2)) by (revert Hm; zdiv). set (bn := 16 * (len l + 2) / 1024) in *. clearbody bn.
  specialize (Ht bn ltac:(change MAXFILE with 268; lia)). apply (Hh bn); [lia | cbn [set_size di_size]; change BSIZE with 1024; lia|].
  change (fblk ?c (set_size ?n ?d) bn) with (fblk c d bn).
  destruct (Z.eq_dec (fblk (put_dino sb C 1 (set_size ((bn + 1) * 1024) (ino C 0))) (ino C 0) bn) 0) as [E|E]; [done|]. apply Ht in E. lia.
Qed.
