(* ===== verification/FsBoot.v ===== *)
(** * FsBoot: from mkfs to a running kernel

    The image that mkfs builds (src/mkfs/mkfs.c), mounted by the kernel's start-up
    ([binit], [iinit], [fsinit]) and read through its path names: the file a program
    finds under a name is the one mkfs was given. *)

From stdpp Require Import functions.
From S2P Require Import Prelude Mem Layout FsFormat Bio BioPool Log LogCrash Kalloc Vm.
From S2P Require Import Fs FsTx FsBlocks FsInode FsCopy FsFile FsPath FsDir FsNamei User Ulib Mkfs MkfsSpec MkfsImage.

Local Open Scope Z_scope.

(** ** Mounting *)

(** The inode table before [iinit]. *)
Definition itable0 (ip : nat) : inode := mkInode 0 0 0 None false (mkDinode 0 0 0 0 0 []).

Section mount.
  Context (me : Z).

Lemma iinit_loop_ok k : ∀ i x sb it km, (∀ ip, it ip = itable0 ip) →
  ∃ it', iinit_loop k i (mkFsys x sb it km) = Ok (tt, mkFsys x sb it' km) ∧ ∀ ip, it' ip = itable0 ip.
Proof.
  induction k as [|k IH]; intros i x sb it km H; cbn [iinit_loop]; [by exists it|].
  unfold iupd. rewrite bind_modify. cbn [itable fs_ls fs_sb fs_km]. apply IH. intros ip.
  destruct (decide (ip = i)) as [->|]; [rewrite fn_lookup_insert | rewrite fn_lookup_insert_ne by done]; by rewrite H.
Qed.

(** [binit], [iinit] and [fsinit] on a disk with a superblock and a log that fits it: the
    contents of the file system are those the disk stands for. *)
Lemma fsinit_ok (dk : Z → Z → block) sb0 km :
  let C := dk ROOTDEV in let sb := get_sb (C 1) in
  sb_magic sb = FSMAGIC → 0 < sb_nlog sb ≤ LOGSIZE → log_fit ROOTDEV (disk_log ROOTDEV (sb_logstart sb) (sb_nlog sb) C) →
  ∃ x C' it, (in_buf binit;; iinit;; fsinit me ROOTDEV) (mkFsys (mkLstate (bss dk) log0) sb0 itable0 km) = Ok (tt, mkFsys x sb it km) ∧
    (∀ ip, it ip = itable0 ip) ∧ tx me ROOTDEV (sb_logstart sb) (sb_nlog sb) 0 x [] C' 0 ∧
    hdr_n (C' (sb_logstart sb)) = 0 ∧ (∀ b, outside (sb_logstart sb) (sb_nlog sb) b → C' b = logical (sb_logstart sb) C b).
Proof.
  intros C sb Hmag Hnl Hfit. destruct (binit_pool me ROOTDEV ROOTDEV_nz dk) as (s0 & L0 & R0 & Hp0 & Hd0).
  assert (Hclean : ∀ s L, pool me ROOTDEV s L [] [] → ∀ n, cur s ROOTDEV n = disk s ROOTDEV n).
  { intros s L Hp n. eapply pool_content; [done | exact Hp | by intros ?%elem_of_nil | by intros ? _ ?%elem_of_nil]. }
  rewrite (bind_ok _ _ _ _ _ (in_buf_run _ _ _ _ _ _ _ (in_bc_run _ (mkLstate (bss dk) log0) _ _ R0))). cbn [l_log].
  destruct (iinit_loop_ok (Z.to_nat NINODE) 0 (mkLstate s0 log0) sb0 itable0 km ltac:(done)) as (it & R1 & Hit).
  unfold iinit. rewrite (bind_ok _ _ _ _ _ R1). unfold fsinit, readsb.
  destruct (bread_pool me ROOTDEV ROOTDEV_nz s0 L0 [] [] 1 Hp0) as (b & s1 & R2 & Ho & Hp1 & _); [by intros ? _ ?%elem_of_nil | left; done |].
  destruct (is_block_eq _ _ _ (ro_block _ _ _ _ _ _ _ Ho)) as [_ Eb].
  assert (Ed : b_data (bufs s1 b) = C 1) by (by rewrite (ro_data _ _ _ _ _ _ _ Ho), (Hclean s0 L0 Hp0), Hd0).
  destruct (brelse_pool me ROOTDEV ROOTDEV_nz s1 L0 [] [b] [] b Hp1 ltac:(done)) as (s2 & L2 & R3 & Hp2 & _ & Hd2 & _).
  { right. by rewrite Ed, Eb, (ro_disk _ _ _ _ _ _ _ Ho), Hd0. }
  rewrite !bind_assoc. rewrite (bind_ok _ _ _ _ _ (in_buf_run _ _ _ _ _ _ _ (in_bc_run _ (mkLstate s0 log0) _ _ R2))). cbn [l_log].
  rewrite !bind_assoc, bind_data. cbn [l_bc]. rewrite !bind_assoc, bind_modify. cbn [fs_ls fs_sb itable fs_km]. rewrite Ed. fold sb.
  rewrite (bind_ok _ _ _ _ _ (in_buf_run _ _ _ _ _ _ _ (in_bc_run _ (mkLstate s1 log0) _ _ R3))). cbn [l_log].
  rewrite bind_gets. cbn [fs_sb]. rewrite Hmag, Z.eqb_refl. cbn [negb].
  destruct (initlog_ok me ROOTDEV ROOTDEV_nz dk sb s2 L2 Hfit Hp2) as (s3 & L3 & l3 & W & R4 & Hp3 & Hf3 & En & Eo & Ec & Est & Esz & _ & Eh & Hout & _).
  { by rewrite Hd2, (ro_disk _ _ _ _ _ _ _ Ho), Hd0. }
  exists (mkLstate s3 l3), (disk s3 ROOTDEV), it. split_and!; [by apply in_ls_run | done | | done | exact Hout].
  split; cbn [l_bc l_log].
  - exists L3. unfold homes. rewrite En. exact Hp3.
  - exact Hf3.
  - exact Est.
  - split; [exact Esz | lia].
  - split; [exact Eo | lia].
  - exact Ec.
  - exact (Hclean s3 L3 Hp3).
  - intros b' Hb'. destruct (not_elem_of_nil _ Hb').
  - lia.
Qed.
End mount.

(** ** The image of mkfs as a tree *)

Section image.
  Context (C C' : Z → block) (l : list input) (Him : image_ok C l) (Hin : Forall input_ok l) (Hn : len l + 1 < NINODES).
  (** The contents after recovery: the log apart, those of the image. *)
  Context (HC : ∀ b, outside (sb_logstart sb) (sb_nlog sb) b → C' b = C b).

Definition live (i : Z) : Prop := 1 ≤ i ≤ len l + 1.

Lemma live_cases i : live i → i = ROOTINO ∨ ∃ j a, l !! j = Some a ∧ i = Z.of_nat j + 2.
Proof.
  intros Hi. destruct (decide (i = 1)) as [->|]; [by left|]. right. unfold live in Hi.
  destruct (lookup_lt_is_Some_2 l (Z.to_nat (i - 2))) as [a Ha]; [lia|]. exists (Z.to_nat (i - 2)), a. split; [done | lia].
Qed.

Lemma live_wf i : live i → inode_wf sb C (dino sb C i).
Proof. intros [->|(j & a & Hj & ->)]%live_cases; [apply Him | by apply (im_file _ _ Him j a)]. Qed.

Lemma image_high b : 32 ≤ b → C' b = C b.
Proof. intros Hb. apply HC. right. rewrite sb_eq. cbn. lia. Qed.

(** Every inode and every byte of its file is as in the image. *)
Lemma image_same i : live i →
  dino sb C' i = dino sb C i ∧ (∀ bn, 0 ≤ bn < MAXFILE → fblk C' (dino sb C i) bn = fblk C (dino sb C i) bn) ∧
  (∀ o, 0 ≤ o < MAXFILE * BSIZE → fbyte C' (dino sb C i) o = fbyte C (dino sb C i) o).
Proof.
  intros Hi. destruct (inum_small i) as [_ Hb]; [unfold live in Hi; lia|].
  pose proof (live_wf i Hi) as Hw. assert (Ho : ∀ a, owns C (dino sb C i) a → 46 ≤ a < 2000 ∧ used sb C a = true).
  { intros a Ha. destruct (iw_data _ _ _ Hw a Ha) as [H ?]. rewrite sb_data, sb_eq in H. done. }
  destruct (file_ext sb C C' (dino sb C i) Hw) as (_ & H2 & H3 & _).
  - intros a Ha. apply image_high. destruct (Ho a Ha). lia.
  - intros a Ha. destruct (Ho a Ha) as [? <-]. unfold used. rewrite image_high; [done|].
    unfold BBLOCK. rewrite sb_eq. cbn [sb_bmapstart]. change BPB with 8192. zdiv.
  - split_and!; [|done|done]. unfold dino. by rewrite image_high by lia.
Qed.

Lemma image_file i : live i →
  0 ≤ di_size (dino sb C i) ≤ MAXFILE * BSIZE ∧ no_holes C' (dino sb C' i) ∧ di_nlink (dino sb C' i) = 1 ∧
  di_type (dino sb C' i) = (if decide (i = ROOTINO) then T_DIR else T_FILE).
Proof.
  intros Hi. destruct (image_same i Hi) as (-> & Hb & _). change (MAXFILE * BSIZE) with 274432.
  assert (H : 0 ≤ di_size (dino sb C i) ≤ 274432 ∧ no_holes C (dino sb C i) ∧ di_nlink (dino sb C i) = 1 ∧
    di_type (dino sb C i) = (if decide (i = ROOTINO) then T_DIR else T_FILE)).
  { destruct (live_cases i Hi) as [->|(j & a & Hj & ->)].
    - destruct (im_root _ _ Him) as (_ & Ht & Hl & k & [W1 W2 W3] & _). rewrite decide_True by done.
      change (MAXFILE * BSIZE) with 274432 in W3. unfold DIRENT_SIZE in W2. split_and!; [lia | done..].
    - destruct (im_file _ _ Him j a Hj) as (_ & Ht & Hl & Hs & Hh & _). rewrite decide_False by (unfold ROOTINO; lia).
      pose proof (io_max _ (Forall_lookup_1 _ _ _ _ Hin Hj)) as Hm. change (MAXFILE * BSIZE) with 274432 in Hm. rewrite Hs. split_and!; [lia.. | done | done | done]. }
  destruct H as (Hs & Hh & Hl & Ht). split_and!; [lia.. | | done | done].
  intros bn Hbn Hlt. rewrite Hb; [by apply Hh|]. change BSIZE with 1024 in Hlt. change MAXFILE with 268. lia.
Qed.

Abbreviation root := (dino sb C' ROOTINO).

Lemma root_live : live ROOTINO.
Proof. unfold live, ROOTINO. lia. Qed.

Lemma root_wf : dir_wf C' root (dir_len root) ∧ len l + 2 ≤ Z.of_nat (dir_len root).
Proof.
  destruct (image_file _ root_live) as (_ & Hh & _). destruct (image_same _ root_live) as (E & _).
  destruct (im_root _ _ Him) as (_ & _ & _ & k & [_ W2 W3] & Hk & _). rewrite E in *.
  assert (Ek : dir_len (dino sb C ROOTINO) = k) by (unfold dir_len, DIRENT_SIZE in *; rewrite W2, Z.mul_comm, Z.div_mul by done; lia).
  rewrite Ek. split; [by split | done].
Qed.

(** The entries of the root directory. *)
Lemma root_entry j : 0 ≤ j < Z.of_nat (dir_len root) →
  let g := fbyte C' root in
  (j = 0 ∧ dnum g j = ROOTINO ∧ dname g j = [46]) ∨ (j = 1 ∧ dnum g j = ROOTINO ∧ dname g j = [46; 46]) ∨
  (∃ i a, l !! i = Some a ∧ j = Z.of_nat i + 2 ∧ dnum g j = j ∧ dname g j = shortname a.1) ∨ (len l + 2 ≤ j ∧ dnum g j = 0).
Proof.
  intros Hj g. destruct root_wf as [[_ W2 W3] _]. destruct (image_same _ root_live) as (E & _ & Hb).
  assert (He : dnum g j = dnum (fbyte C (dino sb C ROOTINO)) j ∧ dname g j = dname (fbyte C (dino sb C ROOTINO)) j).
  { subst g. rewrite E in *. apply entry_ext. intros o Ho. apply Hb. unfold DIRENT_SIZE in *. lia. }
  destruct He as [-> ->]. destruct (im_dots _ _ Him) as [[D1 D2] [D3 D4]].
  destruct (decide (j = 0)) as [->|]; [by left|]. destruct (decide (j = 1)) as [->|]; [right; by left|]. right. right.
  destruct (decide (j < len l + 2)) as [Hlt|].
  - left. destruct (lookup_lt_is_Some_2 l (Z.to_nat (j - 2))) as [a Ha]; [lia|]. exists (Z.to_nat (j - 2)), a.
    destruct (im_entry _ _ Him _ a Ha) as [E1 E2]. replace (Z.of_nat (Z.to_nat (j - 2)) + 2) with j in * by lia. done.
  - right. split; [lia|]. destruct (im_root _ _ Him) as (_ & _ & _ & k & W & _ & Hz). apply Hz.
    assert (Ek : dir_len root = k) by (rewrite E; unfold dir_len; rewrite (dw_size _ _ _ W); unfold DIRENT_SIZE; rewrite Z.mul_comm, Z.div_mul by done; lia).
    rewrite <- Ek. lia.
Qed.

Lemma image_tree : tree_ok sb C' live.
Proof.
  split.
  - intros i Hi. destruct (image_file i Hi) as (_ & _ & _ & ->). by destruct (decide _).
  - intros i Hi. by destruct (image_file i Hi) as (_ & _ & -> & _).
  - intros i Hi Ht. destruct (image_file i Hi) as (_ & _ & _ & E). rewrite Ht in E. destruct (decide (i = ROOTINO)) as [->|]; [apply root_wf | done].
  - intros i j Hi Ht. destruct (image_file i Hi) as (_ & _ & _ & E). rewrite Ht in E. destruct (decide (i = ROOTINO)) as [->|]; [|done].
    intros Hj Hnz. destruct (root_entry j Hj) as [(_ & -> & _)|[(_ & -> & _)|[(k & a & Ha & Ej & -> & _)|[_ ?]]]]; [apply root_live.. | | done].
    apply lookup_lt_Some in Ha. unfold live. lia.
Qed.

(** Names other than the dots, each given once. *)
Context (Hnd : NoDup (names l)) (Hdots : Forall (λ nm, nm ≠ [46] ∧ nm ≠ [46; 46] ∧ nm ≠ []) (names l)).

Lemma image_child j a : l !! j = Some a → child sb C' ROOTINO (shortname a.1) = Some (Z.of_nat j + 2).
Proof.
  intros Ha. assert (Hnm : names l !! j = Some (shortname a.1)) by (unfold names; by rewrite list_lookup_fmap, Ha).
  destruct (Forall_lookup_1 _ _ _ _ Hdots Hnm) as (D1 & D2 & _).
  unfold child. destruct (image_file _ root_live) as (_ & _ & _ & Ht). rewrite decide_True in Ht by done. rewrite Ht, Z.eqb_refl.
  rewrite take_ge by apply (io_len _ (Forall_lookup_1 _ _ _ _ Hin Ha)).
  pose proof (dir_find_spec (dir_len root) (fbyte C' root) (shortname a.1) 0) as H. destruct root_wf as [_ Hlen]. apply lookup_lt_Some in Ha as Hlt.
  destruct (dir_find _ _ _ _) as [[o n]|]; cbn [fmap option_fmap option_map snd].
  - destruct H as (Ho & -> & Hnz & En). destruct (root_entry o Ho) as [(_ & _ & E)|[(_ & _ & E)|[(i & b & Hb & Eo & -> & E)|[_ ?]]]]; [congruence.. | | done].
    f_equal. rewrite Eo. assert (i = j) as ->; [|done]. eapply NoDup_lookup; [exact Hnd | | exact Hnm].
    unfold names. rewrite list_lookup_fmap, Hb. cbn. congruence.
  - exfalso. destruct (root_entry (Z.of_nat j + 2) ltac:(lia)) as [(? & _)|[(? & _)|[(i & b & Hb & Eo & En & E)|[? _]]]]; [lia.. | |].
    + assert (i = j) as -> by lia. apply (H (Z.of_nat j + 2)); [lia | lia | congruence].
    + lia.
Qed.
End image.

(** ** From the image to the bytes *)

(** A path below the root has one component. *)
Lemma components_name nm : nm ≠ [] → 47 ∉ nm → components [] (47 :: nm) = [nm].
Proof.
  intros Hne Hs. assert (He : ∀ s cur, 47 ∉ s → s ≠ [] ∨ cur ≠ [] → components cur s = [rev cur ++ s]).
  { induction s as [|c s IH]; intros cur Hc Hn; cbn.
    - destruct cur; [by destruct Hn|]. by rewrite app_nil_r.
    - apply not_elem_of_cons in Hc as [Hc1 Hc2]. unfold slash. destruct (Z.eqb_spec c 47); [done|].
      rewrite IH by auto. cbn. by rewrite <- app_assoc. }
  change (components [] (47 :: nm)) with (components [] nm). rewrite He by auto. done.
Qed.

Section boot.
  Context {K : KernelImage} {KOk : KernelImageOk K}.
  Context (me pagetable : Z) (cwd : nat) (kaddr : slot → Z).

(** The file system's part of the start-up: [binit] and [iinit] in [main], [fsinit] in the
    first process. *)
Definition mount : FM unit := in_buf binit;; iinit;; fsinit me ROOTDEV.

(** Reading [n] bytes at [off] of the file at [path], if there is one. *)
Definition read_path (path dst off n : Z) : FM (option Z) :=
  o ← namei me pagetable cwd kaddr path;
  match o with
  | None => mret None
  | Some ip => ilock me ip;; r ← readi me pagetable kaddr ip false dst off n; mret (Some r)
  end.

Lemma itable0_ok it sb C : (∀ ip, it ip = itable0 ip) → cache_ok me sb C it it [] None ∧ room it.
Proof.
  intros H. split.
  - split; [split|..]; intros; rewrite ?H in *; done.
  - split; [|intros jp; rewrite H; done]. exists 0%nat, 1%nat. split_and!; [done | apply Nat.ltb_lt; by vm_compute.. | by rewrite H | by rewrite H].
Qed.

(** Where things are in memory: the local entry, the name buffer and the path [s], apart
    from each other and from the buffers. *)
Record places (m : memory) (path : Z) (s : list Z) : Prop := {
  pl_slot : slot_ok kaddr (kaddr SLookupDe);
  pl_name : name_ok kaddr (kaddr SName) (kaddr SLookupDe);
  pl_str : FsPath.str_at m path s;
  pl_len : Z.of_nat (length s) < MAXPATH;
  pl_path : path_ok kaddr (kaddr SName) path (Z.of_nat (length s));
}.

(** Reading a file by an absolute path. *)
Lemma read_path_ok sb ops C I it x km k path s i dst off n :
  let d := dino sb C i in let r := read_len (di_size d) off n in
  tx me ROOTDEV (sb_logstart sb) (sb_nlog sb) ops x [] C k → 0 ≤ k → tree_ok sb C I → I ROOTINO →
  cache_ok me sb C it it [] None → room it → places (k_mem km) path s → head s = Some slash →
  resolve sb C ROOTINO (components [] s) = Some i →
  no_holes C d → 0 ≤ di_size d ≤ MAXFILE * BSIZE → kdst kaddr (k_mem km) dst r → 0 ≤ off → 0 ≤ n → off + n < 2 ^ 32 →
  ∃ s', read_path path dst off n (mkFsys x sb it km) = Ok (Some r, s') ∧
    ∀ j, 0 ≤ j < r → ld8 (k_mem (fs_km s')) (dst + j) = fbyte C d (off + j).
Proof.
  intros d r Ht Hk HI Hroot Hc Hro [P1 P2 P3 P4 P5] Hs Hres Hh Hsz Hd Ho Hn Hsum. unfold read_path, namei.
  destruct (namex_ok me sb ops pagetable cwd kaddr C I HI (kaddr SName) P1 P2 false path s it x km k Ht Hk Hc Hro P3 P4 P5 Hroot)
    as (x1 & t1 & km1 & o & R1 & Ht1 & _ & Hf); [by rewrite Hs|].
  unfold found, target, start_inum in Hf. destruct s as [|c s]; [done|]. injection Hs as ->. rewrite Z.eqb_refl, Hres in Hf. destruct o as [ip|]; [|done]. destruct Hf as (Hc1 & Hat & _).
  rewrite (bind_ok _ _ _ _ _ R1).
  assert (Hr : 0 < i_ref (t1 ip)).
  { rewrite (co_ref _ _ _ _ _ _ _ Hc1), nrefs_cons, decide_True, nrefs_nil by done. pose proof (ro_max _ Hro ip). lia. }
  destruct (ilock_ok me sb ops C I HI it t1 [ip] x1 km1 k ip i Hc1 Hat Hr) as (x2 & t2 & R2 & Ht2 & _ & Hs2 & _ & Ed); [by eapply resolve_in | done | done |].
  rewrite (bind_ok _ _ _ _ _ R2). destruct (same_ids_at _ _ _ _ Hs2 Hat) as (_ & Hdev & _).
  destruct (readi_ok me ROOTDEV ROOTDEV_nz sb ops pagetable kaddr (ud := false) (env := kenv) (dst_ok := kdst kaddr) (dst_ld := kld) (safe := ksafe)
    ip x2 t2 km1 C k dst off n) as (x3 & km3 & R3 & _ & _ & _ & Hin & _); rewrite ?Ed; try done.
  rewrite Ed in R3, Hin. fold d r in R3, Hin. rewrite (bind_ok _ _ _ _ _ R3). eexists. split; [done|].
  intros j Hj. specialize (Hin j Hj). unfold kld in Hin. by injection Hin.
Qed.

(** The kernel on a disk that holds the image of the files [l]. *)
Lemma image_mounted C l dk sb0 km : image_ok C l → (∀ b, dk ROOTDEV b = C b) →
  ∃ x C' it, mount (mkFsys (mkLstate (bss dk) log0) sb0 itable0 km) = Ok (tt, mkFsys x sb it km) ∧
    tx me ROOTDEV (sb_logstart sb) (sb_nlog sb) 0 x [] C' 0 ∧ cache_ok me sb C' it it [] None ∧ room it ∧
    (∀ b, outside (sb_logstart sb) (sb_nlog sb) b → C' b = C b).
Proof.
  intros Him Hdk. destruct (im_sb _ _ Him) as (Hsb & Hmag & Hwf). destruct (im_log _ _ Him) as [Hh Hfit].
  pose proof (fsinit_ok me dk sb0 km) as H. cbv zeta in H. rewrite Hdk, Hsb in H.
  destruct H as (x & C' & it & R & Hit & Ht & _ & Hout).
  - exact Hmag.
  - apply Hwf.
  - unfold disk_log in *. by rewrite Hdk.
  - destruct (itable0_ok it sb C' Hit) as [Hc Hro]. exists x, C', it. split_and!; [exact R | exact Ht | exact Hc | exact Hro |].
    intros b Hb. rewrite Hout by done. rewrite <- Hdk. apply logical_other. rewrite Hdk, Hh. lia.
Qed.

(** C7. A file system made by mkfs and mounted by the kernel.  For files with distinct names
    that fit, mkfs succeeds, and when the kernel starts on the image, mounting succeeds
    and looking up "/name", locking the inode and reading gives back exactly the bytes of
    the file mkfs was given under that name, at every offset and up to the end of the
    file. *)
Theorem mkfs_boot_read (l : list input) :
  Forall input_ok l → len l + 1 < NINODES → (len l + 2) mod 64 ≠ 0 → total (image_files l) ≤ FSSIZE →
  NoDup (names l) → Forall (λ nm, nm ≠ [46] ∧ nm ≠ [46; 46] ∧ nm ≠ []) (names l) →
  ∃ s, main ((λ a, (a.1, Some a.2)) <$> l) start = Ok (tt, s) ∧
  ∀ dk sb0 km path dst off n j a, (∀ b, dk ROOTDEV b = img s b) → l !! j = Some a →
    let r := read_len (len (concat a.2)) off n in
    places (k_mem km) path (47 :: shortname a.1) → kdst kaddr (k_mem km) dst r → 0 ≤ off → 0 ≤ n → off + n < 2 ^ 32 →
    ∃ s', (mount;; read_path path dst off n) (mkFsys (mkLstate (bss dk) log0) sb0 itable0 km) = Ok (Some r, s') ∧
      ∀ i, 0 ≤ i < r → ld8 (k_mem (fs_km s')) (dst + i) = byte_of (concat a.2) (off + i).
Proof.
  intros Hin Hn Hm Htot Hnd Hdots. destruct (main_built l Hin Hn Htot) as (s & s3 & C0 & B & R & Himg & Hb & Hsb & Hlog & Hu).
  pose proof (finished_image s3 C0 B l _ Hb Hin Hn Hm eq_refl Hsb Hlog) as Him. set (C := put_dino _ _ _ _) in *.
  exists s. split; [exact R|]. intros dk sb0 km path dst off n j a Hdk Ha r Hpl Hd Ho Hn0 Hsum.
  destruct (image_mounted C l dk sb0 km Him) as (x & C' & it & Rm & Ht & Hc & Hro & HC); [intros b; by rewrite Hdk|].
  rewrite (bind_ok _ _ _ _ _ Rm). assert (Hli : live l (Z.of_nat j + 2)) by (apply lookup_lt_Some in Ha; unfold live; lia).
  destruct (image_same C C' l Him Hn HC _ Hli) as (Ed & _ & Hbyte). destruct (image_file C C' l Him Hin Hn HC _ Hli) as (Hsz & Hh & _).
  destruct (im_file _ _ Him j a Ha) as (_ & _ & _ & Es & _ & Hbytes).
  destruct (Forall_lookup_1 _ _ j (shortname a.1) Hdots) as (_ & _ & Hne); [unfold names; by rewrite list_lookup_fmap, Ha|].
  destruct (read_path_ok sb 0 C' (live l) it x km 0 path (47 :: shortname a.1) (Z.of_nat j + 2) dst off n) as (s' & R' & Hr).
  { exact Ht. }
  { lia. }
  { by apply (image_tree C). }
  { apply root_live. }
  { exact Hc. }
  { exact Hro. }
  { exact Hpl. }
  { done. }
  { rewrite components_name; [|done | apply (io_slash _ (Forall_lookup_1 _ _ _ _ Hin Ha))]. cbn [resolve]. by rewrite (image_child C C' l Him Hin Hn HC Hnd Hdots j a Ha). }
  { exact Hh. }
  { rewrite Ed. exact Hsz. }
  { rewrite Ed, Es. exact Hd. }
  { done. }
  { done. }
  { done. }
  rewrite Ed, Es in R', Hr. fold r in R', Hr. exists s'. split; [exact R'|]. intros i Hi. rewrite Hr by done.
  assert (Hle : off + i < len (concat a.2)) by (subst r; unfold read_len in Hi; destruct (Z.ltb_spec (len (concat a.2)) off); lia).
  rewrite Hbyte by (rewrite Es in Hsz; lia). apply Hbytes. lia.
Qed.
End boot.

(** ** One program *)

(** "user/_ls", and the path "/ls" at address 100. *)
Definition ex_input : list input := [([117; 115; 101; 114; 47; 95; 108; 115], [[127; 69]])].
Definition ex_slots (s : slot) : Z := match s with SBuf b => 1048576 + 4096 * Z.of_nat b | SName => 3145728 | _ => 2097152 end.
Definition ex_ls_mem : memory := <[103 := 0]> (<[102 := 115]> (<[101 := 108]> (<[100 := 47]> ∅))).

Lemma ex_slots_buf a : a < 1048576 ∨ 2097152 ≤ a → ¬ buf_byte ex_slots a.
Proof. intros Ha (b & Hb & H). cbn in H. change (Z.to_nat NBUF) with 30%nat in Hb. change BSIZE with 1024 in H. lia. Qed.

Lemma ex_places : places ex_slots ex_ls_mem 100 [47; 108; 115].
Proof.
  split.
  - split_and!; [cbn; lia | by vm_compute |]. unfold DIRENT_SIZE. cbn. intros i Hi. apply ex_slots_buf. lia.
  - intros i. unfold DIRSIZ, DIRENT_SIZE. cbn. intros Hi. split; [apply ex_slots_buf|]; lia.
  - split; [|by vm_compute]. intros i c Hi. do 3 (destruct i as [|i]; [injection Hi as <-; by vm_compute|]). done.
  - by vm_compute.
  - split; cbn; [lia | lia |]. intros i Hi. unfold DIRENT_SIZE. split; [apply ex_slots_buf|]; lia.
Qed.

(** The second byte of the program, read from the mounted image. *)
Lemma mkfs_boot_read_witness : ∃ s s', main [([117; 115; 101; 114; 47; 95; 108; 115], Some [[127; 69]])] start = Ok (tt, s) ∧
  (mount 1;; read_path 1 0 0 ex_slots 100 4194304 0 10) (mkFsys (mkLstate (bss (λ _, img s)) log0) sb itable0 (mkKmem ex_ls_mem 0)) = Ok (Some 2, s') ∧
  ld8 (k_mem (fs_km s')) 4194305 = 69.
Proof.
  destruct (mkfs_boot_read 1 0 0 ex_slots ex_input) as (s & R & H).
  - constructor; [|constructor]. split; apply (bool_decide_unpack _); by vm_compute.
  - by vm_compute.
  - by vm_compute.
  - by vm_compute.
  - apply (bool_decide_unpack _). by vm_compute.
  - apply (bool_decide_unpack _). by vm_compute.
  - destruct (H (λ _, img s) sb (mkKmem ex_ls_mem 0) 100 4194304 0 10 0%nat ([117; 115; 101; 114; 47; 95; 108; 115], [[127; 69]])) as (s' & R' & Hb).
    + done.
    + done.
    + exact ex_places.
    + split_and!; [lia | by vm_compute |]. intros i Hi. apply ex_slots_buf. lia.
    + lia.
    + lia.
    + lia.
    + exists s, s'. split_and!; [exact R | exact R' |].
      assert (Hr : 0 ≤ 1 < 2) by lia. specialize (Hb 1 Hr). change (4194304 + 1) with 4194305 in Hb. rewrite Hb. by vm_compute.
Defined.
